(* ===== verification/_CoqProject ===== *)
-Q . S2P
Prelude.v
Programs.v
Collections.v
Contracts.v
PyFloat.v
Ledger.v
LedgerProps.v
Circuit.v
Policy.v
Broker.v
BrokerProps.v
Graph.v
Profiles.v
Authority.v
Scheduler.v
Backpressure.v
Controller.v
ControllerProps.v
Allocator.v
Json.v
JsonText.v
Models.v
Regex.v
Planner.v
Checkpoint.v
Capacity.v
Objectives.v
Workspace.v
WorkspaceProps.v
Learning.v
MissionStore.v
RepoWorker.v
MissionRun.v
MissionRunProps.v
GraphRevisions.v
Outbox.v
SelfdevPolicy.v
EvidenceRouter.v
LeaseTables.v
Leases.v
WorkerRegistry.v
WorkerService.v
LeaseProps.v
WorkerProps.v
LeaseScan.v
LeaseFencing.v
LeaseTheorems.v
WorkerServiceProps.v
WorkerClient.v
Actions.v
EffectStore.v
EffectProps.v
EffectTheorems.v
Gateway.v
Adapters.v
GatewayProps.v
GatewayTheorems.v
GatewayRuns.v
Extensions.v
ToolGateway.v
Api.v
ApiRoutes.v
ApiProps.v
ApiMissions.v
ApiScope.v
ApiRuns.v
Session.v
SessionProps.v
SessionRoutes.v
SessionBroker.v
SessionRuns.v
Knowledge.v
KnowledgeProps.v
Retrieval.v
Memory.v
Recovery.v
