(* ===== verification/Prelude.v ===== *)
(** * SwarmAI: a verification development

    SwarmAI is a control plane for agent missions: a mission controller that grows and
    dispatches task graphs, agent sessions and repository workers that execute tasks, a broker
    that shares metered inference providers, a worker protocol that leases tasks to remote
    workers through a database, gateways and stores that admit external side effects under
    approvals, a knowledge repository, and an HTTP API in front.  This library models the
    decision logic of these parts as executable definitions and proves what makes them correct.
    Sources are the Python files under src/src/swarm; every definition keeps the name of what it
    translates, and each file's header says which source it follows.

    ** How programs are modelled

    A method that may raise and that mutates objects is a computation [M S A] (below): it
    takes the state and returns a result, [Ok] or [Err] with the exception, together with
    the state at that point, since what was written before a raise stays written.  Database
    sessions that roll back are [transaction]s.  A method that awaits, or that reads and commits
    through a session, is a program over operations whose replies may be anything ([Programs]);
    any number of such programs interleave at their operations.  Records have the source's
    fields with a short prefix; enumerations are inductive types with the source's members;
    dicts whose order matters are association lists ([dict]), tables are finite maps.  Integers
    are unbounded, as in Python; floats are IEEE binary64 ([PyFloat]); JSON values have
    Python's truth, [str], [int] and set semantics ([Json]), and their text form is printed and
    parsed ([JsonText]).  Clock readings, fresh ids, random draws and what external code
    returned (provider adapters, fence readers, hashes) are arguments.  A method that holds a
    lock throughout, or a transaction that locks the rows it reads, is one atomic step.

    ** Files

    - Prelude, Programs, Collections: the monad with its inversion and run rules, hint database
      [swarm], record updates; programs and their interleavings; sorting, dicts, sums, strings.
    - Contracts, PyFloat, Json, JsonText, Models, Regex: contracts/*.py, floats, JSON values and
      text, pydantic models as codecs, the regular expressions the code matches.
    - Ledger, LedgerProps, Circuit, Policy, Broker, BrokerProps: broker/*.py.
    - Graph, Profiles, Authority, Scheduler, Backpressure, Controller, ControllerProps,
      Allocator: controller/*.py, evals/profiles.py and wilson.py, recovery/authority.py,
      runtime/backpressure.py.
    - Planner, RepoWorker, MissionRun, MissionRunProps, MissionStore: mission/*.py and
      cost/ledger.py: planning, working in a worktree, the run of a mission, records on disk.
    - Checkpoint, Capacity, Session, SessionProps, SessionRoutes, SessionBroker, SessionRuns:
      runtime/checkpoint.py, capacity.py, registry.py and session.py.
    - Objectives, Learning, Extensions: objectives/, learning/ and its operational events,
      extensions/.
    - Workspace, WorkspaceProps: workspace/: findings, blackboard, artifacts, context.
    - GraphRevisions, Outbox: db/repositories.py and db/outbox.py.
    - LeaseTables, Leases, LeaseProps, WorkerProps, LeaseScan, LeaseFencing, LeaseTheorems:
      db/lease_fencing.py with the rows of db/models.py it uses and db/token_hash.py.
    - WorkerRegistry, WorkerService, WorkerServiceProps, WorkerClient: workers/*.py.
    - Actions, EffectStore, EffectProps, EffectTheorems: contracts/actions.py, tools/effects.py.
    - Gateway, Adapters, GatewayProps, GatewayTheorems, GatewayRuns, ToolGateway:
      tools/v17_gateway.py, tools/adapters/, tools/session_recovery.py, tools/gateway.py.
    - Api, ApiRoutes, ApiProps, ApiMissions, ApiScope, ApiRuns: api/*.py.
    - Knowledge, KnowledgeProps, Retrieval: knowledge/*.py.
    - Memory, Recovery: memory/store.py and knowledge/memory_adapter.py.
    - SelfdevPolicy, EvidenceRouter: selfdev/policy.py, evals/evidence_router.py.

    ** What is shown

    - Quota.  Reservations outstanding never exceed what a bucket has left, charges are
      conserved, refusals take nothing (LedgerProps).  The broker refines the ledger's
      discipline however calls on tickets interleave, for buckets without windows (BrokerProps),
      and agent sessions are disciplined callers, so that sessions that share a broker never
      overcommit it, also while calls of others wait for their adapter (SessionBroker).
    - Missions.  The depth-first search decides cyclicity; task graphs stay acyclic and
      within the limits that were submitted for their mission, acceptance needs a verification, one commit wins per revision, also between
      database sessions (ControllerProps, GraphRevisions).  Planned graphs are what the
      controller commits (Planner).  Whatever the outside replies, a completed run was verified
      after its last write, writes files only into its worktree, its record and reports aside,
      ends, and tries to remove the worktree when it does (MissionRunProps).
      Accepted work is queued, dispatched, expired or cancelled exactly once (Backpressure).
    - Leases.  Over every sequence of operations with any arguments: one active lease per
      task, one accepted result per attempt; a revocation fences every older lease for good;
      acceptance happens exactly when its fence passes; expiry reopens only work whose
      authority is current; the paginated claim equals a scan of the whole queue and ends; the
      worker service refines these steps and revoked work is noticed.
    - Effects.  Abstract steps specify a store; both stores refine them (class [EffectStore]).
      An effect has one winner, and its outcome is kept (the observation made before it may be
      replaced).  Over any interleaving of gateways an effect is executed at most once, within every guard
      and an exact approval; extensions act within their grants.
    - Sessions.  A task follows its protocol, an attempt keeps its route, a slot is held
      until the attempt is final or waits for children; checkpoints that load are valid.
    - API.  Missions, events, workers and approvals are shown to principals of their project
      only, missions survive a restart, a request repeated under its key and digest returns the
      first reply, cursors read every event once.
    - Data.  Deliveries of the outbox are accounted for, with any number of drains per session; objectives are rate limited and
      governed; knowledge is reviewed and immutable; migrated memory is never promoted; context
      is within its budget; resuming a mission is idempotent.

    Concrete runs beside the theorems (Modules named Sample) witness them, and show where the
    code departs from its documentation.

    ** Fuel

    [Graph.dfs] takes one unit more than the graph has keys: nodes being visited are
    distinct keys but for the last.  [Leases.claim_pages] takes one page more than there
    are tasks: each page starts strictly after the previous one ([LeaseScan]).  Both are proved
    never to run out.  [JsonText.loads] takes one unit more than the text has characters, and
    reads back whatever [dumps] printed; a repetition of [Regex] takes one round per remaining
    character, which [go_complete] shows to be enough, since each round reads something;
    [Regex.findall] and [Workspace.count] take one unit more than the text has characters, each
    unit of which passes at least one character or, for an empty needle, one position.
    [Planner.shrink] takes the number it lowers by one each round.  The readers of events
    ([ApiProps.read_all], [Outbox.read_events]) take one page more than there are events, and
    the theorems say that this is enough.  All other
    recursion is structural.

    ** Hypotheses

    In [LeaseFencing] the rest of the system may change missions, tasks, attempts and the
    outbox between transactions, but keeps a task in its mission and does not lower a
    cancellation generation; leases, results and worker rows have no other writer.
    Transactions are serialized; rows other transactions hold are an argument of claims and
    expiries.  [BrokerProps] assumes that buckets have no window (with one they are
    oversubscribed), that default amounts are not negative, and that callers keep one call of
    invoke per ticket in flight, reconcile only tickets that are live and do not expire a ticket
    twice.  In [ControllerProps] a mission id may be submitted again; that acceptance needs a
    verification assumes that attempt ids are not registered twice.  Of [uuid4().hex] it is assumed where needed that
    draws differ and have no white space or bar; of the clock, where rates are limited, that it
    does not run backwards.  What pydantic accepts beyond a field's own type ([Models.Lax]), how it
    writes dates ([MissionStore.Dates]), [datetime.fromisoformat], SHA-256, [payload_hash] and
    the JSON form of a float are parameters without further assumptions than those classes
    state.  Each theorem with a hypothesis has a witness with concrete parameters.

    [MissionRun] follows the code up to the call of a model and lets it reply or raise anything.
    As the code stands the call raises, since it starts an event loop inside a running one; the
    theorems hold all the same, and a run shows what then remains.

    ** Not modelled

    Network, process and file access: provider adapters and their catalog, the sandbox runner
    and built-in tools, git worktrees, the live benchmark, backup and restore, deployment,
    release and onboarding scripts, the command line.  Their results are arguments or operations
    of the parts that use them.  Rendering: explanations, reports, catalogs, projects, histories
    and the routes that only show them.  Test doubles, fixtures, schema export, migrations of the
    schema, load, chaos and observability drivers, product demonstrations.  Of repositories that
    only copy a contract into a row (findings, artifacts, ledger rows) there is nothing to show. *)

From stdpp Require Export base tactics list gmap sets strings pretty.
From stdpp Require Export fin_maps sorting.
From Stdlib Require Export ZArith Lia.

(** Python's exceptions, one constructor per class the modelled code raises;
    the argument is the message, kept with the source's own text. *)
Inductive exn : Type :=
  | QuotaExhaustedError (msg : string)
  | UnknownChargeDeniedError (msg : string)
  | DuplicateSettlementError (msg : string)
  | CircuitOpenError (msg : string)
  | PolicyDeniedError (msg : string)
  | BrokerBypassError (msg : string)
  | AmbiguousSendError (msg : string)
  | StaleEpochError (msg : string)
  | ReservationError (msg : string)
  | RawTokenPersistenceError (msg : string)
  | LeaseClaimError (msg : string)
  | WorkerNotEligibleError (msg : string)
  | LeaseRenewError (msg : string)
  | ResultAcceptanceError (msg : string)
  | EffectStoreError (msg : string)
  | EffectConflictError (msg : string)
  | ToolAuthorizationError (msg : string)
  | ApprovalInvalidError (msg : string)
  | StaleLeaseError (msg : string)
  | CancellationFenceError (msg : string)
  | ReconciliationRequiredError (msg : string)
  | ProtocolVersionError (msg : string)
  | WorkerAuthError (msg : string)
  | StaleGenerationError (msg : string)
  | IntegrityError (msg : string)
  | PermissionError (msg : string)
  | RuntimeError (msg : string)
  | ValidationError (msg : string)
  | ValueError (msg : string)
  | Exn (cls msg : string)   (** other classes of the package, by name *)
  | KeyError (msg : string)
  | TypeError (msg : string)
  | AssertionError
  | AdapterError (msg : string).

#[export] Instance exn_eq_dec : EqDecision exn.
Proof. solve_decision. Defined.

(** [str(exc)]; that of a [KeyError] is the representation of the key. *)
Definition exn_message (e : exn) : string :=
  match e with
  | QuotaExhaustedError m | UnknownChargeDeniedError m | DuplicateSettlementError m
  | CircuitOpenError m | PolicyDeniedError m | BrokerBypassError m | AmbiguousSendError m
  | StaleEpochError m | ReservationError m | RawTokenPersistenceError m | LeaseClaimError m
  | WorkerNotEligibleError m | LeaseRenewError m | ResultAcceptanceError m | EffectStoreError m
  | EffectConflictError m | ToolAuthorizationError m | ApprovalInvalidError m | StaleLeaseError m
  | CancellationFenceError m | ReconciliationRequiredError m | ProtocolVersionError m
  | WorkerAuthError m | StaleGenerationError m | IntegrityError m
  | PermissionError m | RuntimeError m | ValidationError m | ValueError m | TypeError m
  | AdapterError m | Exn _ m => m
  | KeyError m => "'" +:+ m +:+ "'"
  | AssertionError => ""
  end.

(** ** Results and the exception-state monad

    A Python method either returns or raises, and what it wrote to the objects
    it owns before raising stays written.  [M S A] therefore returns the final
    state together with a [result], in the error case too. *)
Inductive result (A : Type) : Type :=
  | Ok (a : A)
  | Err (e : exn).
Arguments Ok {A} _.
Arguments Err {A} _.

Definition M (S A : Type) : Type := S → result A * S.

#[export] Instance M_ret S : MRet (M S) := λ A a s, (Ok a, s).
#[export] Instance M_bind S : MBind (M S) := λ A B f m s,
  match m s with
  | (Ok a, s') => f a s'
  | (Err e, s') => (Err e, s')
  end.

Section operations.
Context {S : Type}.

Definition raise {A} (e : exn) : M S A := λ s, (Err e, s).
Definition get_state : M S S := λ s, (Ok s, s).
Definition put_state (s : S) : M S () := λ _, (Ok (), s).
Definition gets {A} (f : S → A) : M S A := λ s, (Ok (f s), s).
Definition modify (f : S → S) : M S () := λ s, (Ok (), f s).

(** [if b: raise e]. *)
Definition raise_if (b : bool) (e : exn) : M S () :=
  if b then raise e else mret ().

(** [if o is None: raise e], and the value otherwise. *)
Definition require {A} (o : option A) (e : exn) : M S A :=
  match o with Some a => mret a | None => raise e end.

Definition of_result {A} (r : result A) : M S A := λ s, (r, s).

(** [for x in l: body(x)]. *)
Fixpoint for_each {A} (body : A → M S ()) (l : list A) : M S () :=
  match l with
  | [] => mret ()
  | x :: l' => body x ;; for_each body l'
  end.

(** [try: m except e: h(e)]. *)
Definition try_except {A} (m : M S A) (h : exn → M S A) : M S A := λ s,
  match m s with
  | (Ok a, s') => (Ok a, s')
  | (Err e, s') => h e s'
  end.

(** A transaction: the state is committed when [m] returns and rolled back
    when it raises (the [session_scope] of db/engine.py). *)
Definition transaction {A} (m : M S A) : M S A := λ s,
  match m s with
  | (Ok a, s') => (Ok a, s')
  | (Err e, _) => (Err e, s)
  end.
End operations.

(** A method call on a sub-object: run [m] on the component that [get] selects. *)
Definition zoom {S T A : Type} (get : S → T) (set : T → S → S) (m : M T A) : M S A :=
  λ s, match m (get s) with (r, t) => (r, set t s) end.

Definition is_ok {A} (r : result A) : bool := match r with Ok _ => true | Err _ => false end.

(** ** Inversion of monadic runs *)
Section monad_lemmas.
Context {S : Type}.

Lemma bind_Ok {A B} (m : M S A) (f : A → M S B) s b s' :
  (m ≫= f) s = (Ok b, s') ↔ ∃ a s1, m s = (Ok a, s1) ∧ f a s1 = (Ok b, s').
Proof.
  unfold mbind, M_bind. destruct (m s) as [[a|e] s1]; naive_solver.
Qed.

Lemma bind_Err {A B} (m : M S A) (f : A → M S B) s e s' :
  (m ≫= f) s = (Err e, s') ↔
  m s = (Err e, s') ∨ ∃ a s1, m s = (Ok a, s1) ∧ f a s1 = (Err e, s').
Proof.
  unfold mbind, M_bind. destruct (m s) as [[a|e'] s1]; naive_solver.
Qed.

Lemma bind_run {A B} (m : M S A) (f : A → M S B) s a s1 :
  m s = (Ok a, s1) → (m ≫= f) s = f a s1.
Proof. unfold mbind, M_bind. by intros ->. Qed.

Lemma bind_run_err {A B} (m : M S A) (f : A → M S B) s e s1 :
  m s = (Err e, s1) → (m ≫= f) s = (Err e, s1).
Proof. unfold mbind, M_bind. by intros ->. Qed.

Lemma raise_if_Ok b e (s s' : S) u :
  raise_if b e s = (Ok u, s') ↔ b = false ∧ s' = s.
Proof. destruct b, u; unfold raise_if, raise, mret, M_ret; naive_solver. Qed.

Lemma raise_if_Err b e (s s' : S) e' :
  raise_if b e s = (Err e', s') ↔ b = true ∧ e' = e ∧ s' = s.
Proof. destruct b; unfold raise_if, raise, mret, M_ret; naive_solver. Qed.

Lemma require_Ok {A} (o : option A) e (s s' : S) a :
  require o e s = (Ok a, s') ↔ o = Some a ∧ s' = s.
Proof. destruct o; unfold require, raise, mret, M_ret; naive_solver. Qed.

Lemma require_Err {A} (o : option A) e (s s' : S) e' :
  require o e s = (Err e', s') ↔ o = None ∧ e' = e ∧ s' = s.
Proof. destruct o; unfold require, raise, mret, M_ret; naive_solver. Qed.

Lemma mret_Ok {A} (a b : A) (s s' : S) :
  (mret a : M S A) s = (Ok b, s') ↔ b = a ∧ s' = s.
Proof. unfold mret, M_ret. naive_solver. Qed.

Lemma mret_Err {A} (a : A) (s s' : S) e :
  (mret a : M S A) s = (Err e, s') ↔ False.
Proof. unfold mret, M_ret. naive_solver. Qed.

Lemma raise_Ok {A} e (s s' : S) (b : A) : raise e s = (Ok b, s') ↔ False.
Proof. unfold raise. naive_solver. Qed.

Lemma raise_Err {A} e e' (s s' : S) :
  (raise e : M S A) s = (Err e', s') ↔ e' = e ∧ s' = s.
Proof. unfold raise. naive_solver. Qed.

Lemma gets_Ok {A} (f : S → A) (s s' : S) a :
  gets f s = (Ok a, s') ↔ a = f s ∧ s' = s.
Proof. unfold gets. naive_solver. Qed.

Lemma gets_Err {A} (f : S → A) (s s' : S) e : gets f s = (Err e, s') ↔ False.
Proof. unfold gets. naive_solver. Qed.

Lemma get_state_Ok (s s' a : S) : get_state s = (Ok a, s') ↔ a = s ∧ s' = s.
Proof. unfold get_state. naive_solver. Qed.

Lemma get_state_Err (s s' : S) e : get_state s = (Err e, s') ↔ False.
Proof. unfold get_state. naive_solver. Qed.

Lemma put_state_Ok (s s' t : S) u : put_state t s = (Ok u, s') ↔ s' = t.
Proof. destruct u. unfold put_state. naive_solver. Qed.

Lemma put_state_Err (s s' t : S) e : put_state t s = (Err e, s') ↔ False.
Proof. unfold put_state. naive_solver. Qed.

Lemma modify_Ok (f : S → S) (s s' : S) u : modify f s = (Ok u, s') ↔ s' = f s.
Proof. destruct u. unfold modify. naive_solver. Qed.

Lemma modify_Err (f : S → S) (s s' : S) e : modify f s = (Err e, s') ↔ False.
Proof. unfold modify. naive_solver. Qed.

Lemma of_result_Ok {A} (r : result A) (s s' : S) a :
  of_result r s = (Ok a, s') ↔ r = Ok a ∧ s' = s.
Proof. unfold of_result. naive_solver. Qed.

Lemma of_result_Err {A} (r : result A) (s s' : S) e :
  of_result r s = (Err e, s') ↔ r = Err e ∧ s' = s.
Proof. unfold of_result. naive_solver. Qed.
End monad_lemmas.

Create HintDb swarm.
Create Rewrite HintDb swarm.
#[export] Hint Rewrite @bind_Ok @bind_Err @raise_if_Ok @raise_if_Err @require_Ok @require_Err
  @mret_Ok @mret_Err @raise_Ok @raise_Err @gets_Ok @gets_Err @get_state_Ok @get_state_Err
  @put_state_Ok @put_state_Err @modify_Ok @modify_Err @of_result_Ok @of_result_Err : swarm.

(** [run_inv] turns a hypothesis [m s = (r, s')] about a straight-line monadic
    program into the facts its run establishes, guard by guard. *)
Ltac run_inv_step :=
  match goal with
  | H : False |- _ => destruct H
  | H : _ ∧ _ |- _ => destruct H
  | H : ∃ _, _ |- _ => destruct H
  | H : @mbind (M _) _ _ _ _ _ _ = (Ok _, _) |- _ => apply bind_Ok in H
  | H : @mret (M _) _ _ _ _ = (Ok _, _) |- _ => apply mret_Ok in H
  | H : @mret (M _) _ _ _ _ = (Err _, _) |- _ => apply mret_Err in H
  | H : raise_if _ _ _ = (Ok _, _) |- _ => apply raise_if_Ok in H
  | H : raise_if _ _ _ = (Err _, _) |- _ => apply raise_if_Err in H
  | H : require _ _ _ = (Ok _, _) |- _ => apply require_Ok in H
  | H : require _ _ _ = (Err _, _) |- _ => apply require_Err in H
  | H : raise _ _ = (Ok _, _) |- _ => apply raise_Ok in H
  | H : raise _ _ = (Err _, _) |- _ => apply raise_Err in H
  | H : gets _ _ = (Ok _, _) |- _ => apply gets_Ok in H
  | H : gets _ _ = (Err _, _) |- _ => apply gets_Err in H
  | H : get_state _ = (Ok _, _) |- _ => apply get_state_Ok in H
  | H : get_state _ = (Err _, _) |- _ => apply get_state_Err in H
  | H : put_state _ _ = (Ok _, _) |- _ => apply put_state_Ok in H
  | H : put_state _ _ = (Err _, _) |- _ => apply put_state_Err in H
  | H : modify _ _ = (Ok _, _) |- _ => apply modify_Ok in H
  | H : modify _ _ = (Err _, _) |- _ => apply modify_Err in H
  | H : of_result _ _ = (Ok _, _) |- _ => apply of_result_Ok in H
  | H : of_result _ _ = (Err _, _) |- _ => apply of_result_Err in H
  end.
Ltac run_inv := repeat (run_inv_step; simplify_eq).

(** [run_inv!] also follows the error branch of every bind. *)
Ltac run_inv_err :=
  repeat (first
    [ run_inv_step
    | match goal with
      | H : @mbind (M _) _ _ _ _ _ _ = (Err _, _) |- _ => apply bind_Err in H; destruct H
      end ]; simplify_eq).

(** Boolean guards to propositions. *)
Ltac bool_to_prop :=
  repeat match goal with
  | H : _ && _ = true |- _ => apply andb_true_iff in H; destruct H
  | H : _ && _ = false |- _ => apply andb_false_iff in H
  | H : _ || _ = true |- _ => apply orb_true_iff in H
  | H : _ || _ = false |- _ => apply orb_false_iff in H; destruct H
  | H : negb _ = true |- _ => apply negb_true_iff in H
  | H : negb _ = false |- _ => apply negb_false_iff in H
  | H : bool_decide _ = true |- _ => apply bool_decide_eq_true in H
  | H : bool_decide _ = false |- _ => apply bool_decide_eq_false in H
  | H : (_ <? _)%Z = true |- _ => apply Z.ltb_lt in H
  | H : (_ <? _)%Z = false |- _ => apply Z.ltb_ge in H
  | H : (_ <=? _)%Z = true |- _ => apply Z.leb_le in H
  | H : (_ <=? _)%Z = false |- _ => apply Z.leb_gt in H
  | H : (_ =? _)%Z = true |- _ => apply Z.eqb_eq in H
  | H : (_ =? _)%Z = false |- _ => apply Z.eqb_neq in H
  end.

(** ** Rules for what holds after a run

    [P] is a condition on the result and the final state; each rule reduces it for a
    program to the condition for its continuation.  [run_rule] applies the one that
    matches a program of the form [(m ≫= k) s]. *)
Section run_rules.
Context {S B : Type} (P : result B * S → Prop).

Lemma run_raise_if c e (k : () → M S B) s :
  (c = true → P (Err e, s)) → (c = false → P (k () s)) → P ((raise_if c e ≫= k) s).
Proof. destruct c; unfold mbind, M_bind; simpl; auto. Qed.

Lemma run_require {A} (o : option A) e (k : A → M S B) s :
  (o = None → P (Err e, s)) → (∀ a, o = Some a → P (k a s)) → P ((require o e ≫= k) s).
Proof. destruct o; unfold mbind, M_bind; simpl; auto. Qed.

Lemma run_of_result {A} (r : result A) (k : A → M S B) s :
  (∀ e, r = Err e → P (Err e, s)) → (∀ a, r = Ok a → P (k a s)) → P ((of_result r ≫= k) s).
Proof. destruct r; unfold mbind, M_bind; simpl; auto. Qed.

Lemma run_get_state (k : S → M S B) s : P (k s s) → P ((get_state ≫= k) s).
Proof. done. Qed.

Lemma run_gets {A} (f : S → A) (k : A → M S B) s : P (k (f s) s) → P ((gets f ≫= k) s).
Proof. done. Qed.

Lemma run_modify (f : S → S) (k : () → M S B) s : P (k () (f s)) → P ((modify f ≫= k) s).
Proof. done. Qed.

Lemma run_put_state t (k : () → M S B) s : P (k () t) → P ((put_state t ≫= k) s).
Proof. done. Qed.

Lemma run_bind {A} (m : M S A) (k : A → M S B) s :
  (∀ e s', m s = (Err e, s') → P (Err e, s')) → (∀ a s', m s = (Ok a, s') → P (k a s')) →
  P ((m ≫= k) s).
Proof. unfold mbind, M_bind. destruct (m s) as [[a|e] s']; auto. Qed.
End run_rules.

Ltac run_rule P :=
  lazymatch goal with
  | |- context [(raise_if _ _ ≫= _) _] => apply (run_raise_if P); [intros _|intros ?]
  | |- context [(require _ _ ≫= _) _] => apply (run_require P); [intros _|intros ? ?]
  | |- context [(of_result _ ≫= _) _] => apply (run_of_result P); [intros ? _|intros ? ?]
  | |- context [(get_state ≫= _) _] => apply (run_get_state P)
  | |- context [(gets _ ≫= _) _] => apply (run_gets P)
  | |- context [(modify _ ≫= _) _] => apply (run_modify P)
  | |- context [(put_state _ ≫= _) _] => apply (run_put_state P)
  end.

(** ** Programs that move the state along a preorder *)
Section moves.
Context {S : Type} (R : S → S → Prop) `{!PreOrder R}.

Definition moves {A} (m : M S A) : Prop := ∀ s, R s (m s).2.

Lemma moves_reads {A} (m : M S A) : (∀ s, (m s).2 = s) → moves m.
Proof using PreOrder0. intros H s. rewrite H. reflexivity. Qed.
Lemma moves_ret {A} (a : A) : moves (mret a).
Proof using PreOrder0. by apply moves_reads. Qed.
Lemma moves_raise {A} e : moves (raise e : M S A).
Proof using PreOrder0. by apply moves_reads. Qed.
Lemma moves_raise_if b e : moves (raise_if b e).
Proof using PreOrder0. apply moves_reads. by destruct b. Qed.
Lemma moves_require {A} (o : option A) e : moves (require o e).
Proof using PreOrder0. apply moves_reads. by destruct o. Qed.
Lemma moves_of_result {A} (r : result A) : moves (of_result r).
Proof using PreOrder0. by apply moves_reads. Qed.
Lemma moves_get : moves get_state.
Proof using PreOrder0. by apply moves_reads. Qed.
Lemma moves_modify f : (∀ s, R s (f s)) → moves (modify f).
Proof. done. Qed.
Lemma moves_try {A} (m : M S A) h : moves m → (∀ e, moves (h e)) → moves (try_except m h).
Proof using PreOrder0.
  intros Hm Hh s. specialize (Hm s). unfold try_except. destruct (m s) as [[a|e] s']; [done|]. etrans; [exact Hm|apply Hh].
Qed.

(** A step, and what is known of the run when the rest continues. *)
Lemma moves_at {A B} (m : M S A) (k : A → M S B) s :
  R s (m s).2 → (∀ a s', m s = (Ok a, s') → R s' (k a s').2) → R s ((m ≫= k) s).2.
Proof using PreOrder0.
  unfold mbind, M_bind. destruct (m s) as [[a|e] s']; [|done]. intros Hm Hk.
  etrans; [exact Hm|]. by apply Hk.
Qed.
Lemma moves_bind {A B} (m : M S A) (k : A → M S B) : moves m → (∀ a, moves (k a)) → moves (m ≫= k).
Proof using PreOrder0. intros Hm Hk s. apply moves_at; [apply Hm|]. intros a s' _. apply Hk. Qed.
End moves.

Ltac moves_step :=
  lazymatch goal with
  | |- moves _ (mret _) => apply moves_ret; apply _
  | |- moves _ (raise _) => apply moves_raise; apply _
  | |- moves _ (raise_if _ _) => apply moves_raise_if; apply _
  | |- moves _ (require _ _) => apply moves_require; apply _
  | |- moves _ (of_result _) => apply moves_of_result; apply _
  | |- moves _ get_state => apply moves_get; apply _
  | |- moves _ (try_except _ _) => apply moves_try; [apply _| |intros ?]
  | |- moves _ (_ ≫= _) => apply moves_bind; [apply _| |intros ?]
  | |- moves _ (match _ with _ => _ end) => case_match
  end.

(** ** Loop rules for [for_each] *)
Section for_each_lemmas.
Context {S A : Type} (body : A → M S ()).

(** An invariant that every iteration keeps, whether it returns or raises,
    holds after the loop. *)
Lemma for_each_invariant (I : S → Prop) l s :
  (∀ x s1, x ∈ l → I s1 → I (body x s1).2) →
  I s → I (for_each body l s).2.
Proof.
  revert s; induction l as [|x l IH]; intros s Hbody HI; simpl; [done|].
  unfold mbind, M_bind.
  pose proof (Hbody x s (list_elem_of_here x l) HI) as Hx.
  destruct (body x s) as [[u|e] s1]; simpl in *; [|done].
  apply IH; [|done]. intros y s2 Hy. apply Hbody. by apply list_elem_of_further.
Qed.

Lemma for_each_run (step : A → S → S) l s :
  (∀ x s1, x ∈ l → body x s1 = (Ok (), step x s1)) →
  for_each body l s = (Ok (), foldl (λ s x, step x s) s l).
Proof.
  revert s; induction l as [|x l IH]; intros s Hbody; simpl; [done|].
  unfold mbind, M_bind. rewrite Hbody by apply list_elem_of_here.
  apply IH. intros y s2 Hy. apply Hbody. by apply list_elem_of_further.
Qed.
End for_each_lemmas.

(** ** Record update

    [r <| f := v |>] is Python's [r.f = v] (or [model_copy(update=...)]).  A
    record type declares its eta-expansion once; the setter of each of its
    fields is derived from it. *)
Class Eta (R : Type) := eta : R → R.
Class Setter {R T : Type} (p : R → T) := set_field : (T → T) → R → R.
Arguments set_field {R T} p {_} g r / : simpl nomatch.

Ltac derive_setter :=
  lazymatch goal with
  | |- @Setter ?R ?T ?p =>
    let e := constr:(_ : Eta R) in
    let body := constr:(fun (g : T → T) (r : R) => ltac:(
      let t := eval cbv beta delta [eta] in (e r) in
      let t := lazymatch t with
               | ?c ?X r => eval cbv beta delta [c] in (c X r)
               | ?c r => eval cbv beta delta [c] in (c r)
               | ?t => t
               end in
      let t := eval pattern (p r) in t in
      lazymatch t with
      | ?F _ => let b := eval cbv beta in (F (g (p r))) in exact b
      end)) in
    exact body
  end.
#[export] Hint Extern 1 (Setter _) => derive_setter : typeclass_instances.

Declare Scope record_scope.
Delimit Scope record_scope with rec.
Notation "r <| f := v |>" := (set_field f (λ _, v) r)
  (at level 1, f at next level, left associativity, format "r <| f  :=  v |>") : record_scope.
Notation "r <| f ::= g |>" := (set_field f g r)
  (at level 1, f at next level, left associativity, format "r <| f  ::=  g |>") : record_scope.
Open Scope record_scope.

(** ** Invariants of step relations *)
Lemma rtc_invariant {A : Type} (R : relation A) (P : A → Prop) x y :
  (∀ a b, P a → R a b → P b) → rtc R x y → P x → P y.
Proof. intros HR. induction 1; eauto. Qed.

(** A run split into its result and its final state. *)
Lemma run_eq {S A} (m : M S A) (s : S) r : (m s).1 = r → m s = (r, (m s).2).
Proof. intros <-. by destruct (m s). Qed.

(** ** Sequences of calls *)
Section calls.
Context {Op S R : Type} (exec : Op → M S R).

(** The results of a sequence of calls, and the state after it. *)
Fixpoint replies (ops : list Op) (s : S) : list (result R) :=
  match ops with
  | [] => []
  | o :: ops' => (exec o s).1 :: replies ops' (exec o s).2
  end.
Fixpoint after (ops : list Op) (s : S) : S :=
  match ops with [] => s | o :: ops' => after ops' (exec o s).2 end.

Lemma after_app ops1 ops2 s : after (ops1 ++ ops2) s = after ops2 (after ops1 s).
Proof. revert s; induction ops1; intros s; cbn; auto. Qed.

Lemma after_invariant (I : S → Prop) ops s :
  (∀ o s, o ∈ ops → I s → I (exec o s).2) → I s → I (after ops s).
Proof.
  revert s; induction ops as [|o ops IH]; intros s Hop Hs; cbn; [done|].
  apply IH; [intros; apply Hop; [by right|done]|]. by apply Hop; [left|].
Qed.

Lemma replies_forall (I : S → Prop) (Q : result R → Prop) ops s :
  (∀ o s, o ∈ ops → I s → Q (exec o s).1 ∧ I (exec o s).2) → I s → Forall Q (replies ops s).
Proof.
  revert s; induction ops as [|o ops IH]; intros s Hop Hs; cbn; [constructor|].
  destruct (Hop o s) as [HQ HI]; [by left|done|]. constructor; [done|].
  apply IH; [intros; apply Hop; [by right|done]|done].
Qed.
End calls.

(** Calls that a relation keeps in step give the same results. *)
Lemma replies_sim {Op S T R} (f : Op → M S R) (g : Op → M T R) (Rel : S → T → Prop) ops s t :
  (∀ o s t, o ∈ ops → Rel s t → (f o s).1 = (g o t).1 ∧ Rel (f o s).2 (g o t).2) →
  Rel s t → replies f ops s = replies g ops t.
Proof.
  revert s t; induction ops as [|o ops IH]; intros s t Hop HR; cbn; [done|].
  destruct (Hop o s t) as [-> HI]; [by left|done|]. f_equal. apply IH; [intros; apply Hop; [by right|done]|done].
Qed.
