(* ===== verification/Programs.v ===== *)
(** * Programs: code that interleaves with other code at its external calls

    A method that calls a shared store, a clock or an adapter several times is not atomic:
    between two of its calls other processes run.  [prog Op A] is such a method as a tree:
    it has ended with a result, or it performs an operation and continues with the reply,
    which may be an exception.  Operations are the points of interleaving.  Programs here
    have no unbounded loop, so that the tree is well-founded and running it is structural
    recursion.

    [allowed] says of a program that, whatever the replies are, each operation it performs
    is one the protocol [P] admits after the history so far; [run] executes a program alone;
    [pool_step] interleaves any number of programs over one shared state. *)
From S2P Require Import Prelude.

Section prog.
Context {Op : Type → Type}.

Inductive prog (A : Type) : Type :=
| Done (r : result A)
| Do (R : Type) (o : Op R) (k : result R → prog A).
Arguments Done {A} _.
Arguments Do {A} _ _ _.

Fixpoint pbind {A B} (p : prog A) (f : A → prog B) : prog B :=
  match p with
  | Done (Ok a) => f a
  | Done (Err e) => Done (Err e)
  | Do R o k => Do R o (λ r, pbind (k r) f)
  end.

(** [try: p except e: h(e)]. *)
Fixpoint ptry {A} (p : prog A) (h : exn → prog A) : prog A :=
  match p with
  | Done (Ok a) => Done (Ok a)
  | Done (Err e) => h e
  | Do R o k => Do R o (λ r, ptry (k r) h)
  end.

(** Perform one operation. *)
Definition call {R} (o : Op R) : prog R := Do R o Done.
Definition praise {A} (e : exn) : prog A := Done (Err e).
Definition praise_if (b : bool) (e : exn) : prog () := Done (if b then Err e else Ok ()).
Definition prequire {A} (o : option A) (e : exn) : prog A :=
  Done (match o with Some a => Ok a | None => Err e end).

(** ** Histories *)
Record event := Ev { ev_type : Type; ev_op : Op ev_type; ev_reply : result ev_type }.

(** Newest event first. *)
Fixpoint allowed {A} (P : list event → ∀ R, Op R → Prop) (h : list event) (p : prog A)
    (Q : list event → result A → Prop) : Prop :=
  match p with
  | Done r => Q h r
  | Do R o k => P h R o ∧ ∀ r, allowed P (Ev R o r :: h) (k r) Q
  end.

Lemma allowed_weaken {A} (P P' : list event → ∀ R, Op R → Prop) h (p : prog A) Q :
  (∀ h R o, P h R o → P' h R o) → allowed P h p Q → allowed P' h p Q.
Proof.
  intros HP. revert h; induction p as [r|R o k IH]; intros h; simpl; [done|].
  intros [Ho Hk]. split; [by apply HP|]. intros r. by apply IH.
Qed.

Section allowed.
Variable P : list event → ∀ R, Op R → Prop.

Lemma allowed_mono {A} h (p : prog A) (Q Q' : list event → result A → Prop) :
  (∀ h r, Q h r → Q' h r) → allowed P h p Q → allowed P h p Q'.
Proof.
  intros HQ. revert h; induction p as [r|R o k IH]; intros h; simpl; [by apply HQ|].
  intros [Ho Hk]. split; [done|]. intros r. by apply IH.
Qed.

Lemma allowed_bind {A B} h (p : prog A) (f : A → prog B) Q :
  allowed P h p (λ h' r, match r with
    | Ok a => allowed P h' (f a) Q | Err e => Q h' (Err e) end) →
  allowed P h (pbind p f) Q.
Proof.
  revert h; induction p as [[a|e]|R o k IH]; intros h; simpl; [done|done|].
  intros [Ho Hk]. split; [done|]. intros r. by apply IH.
Qed.

Lemma allowed_try {A} h (p : prog A) (g : exn → prog A) Q :
  allowed P h p (λ h' r, match r with
    | Ok a => Q h' (Ok a) | Err e => allowed P h' (g e) Q end) →
  allowed P h (ptry p g) Q.
Proof.
  revert h; induction p as [[a|e]|R o k IH]; intros h; simpl; [done|done|].
  intros [Ho Hk]. split; [done|]. intros r. by apply IH.
Qed.

Lemma allowed_raise_if h b e (Q : list event → result () → Prop) :
  (b = true → Q h (Err e)) → (b = false → Q h (Ok ())) → allowed P h (praise_if b e) Q.
Proof. destruct b; simpl; auto. Qed.

Lemma allowed_require {A} h (o : option A) e (Q : list event → result A → Prop) :
  (o = None → Q h (Err e)) → (∀ a, o = Some a → Q h (Ok a)) → allowed P h (prequire o e) Q.
Proof. destruct o; simpl; auto. Qed.

Lemma allowed_call {R} h (o : Op R) (Q : list event → result R → Prop) :
  P h R o → (∀ r, Q (Ev R o r :: h) r) → allowed P h (call o) Q.
Proof. by split. Qed.

Lemma allowed_done {A} h r (Q : list event → result A → Prop) : Q h r → allowed P h (Done r) Q.
Proof. done. Qed.
End allowed.

(** ** Execution

    [perform o i w] is what the operation does to the shared state [w]; [i] is what the
    environment supplies for it (clock readings, a fresh identifier). *)
Section semantics.
Context {W In : Type} (perform : ∀ R, Op R → In → W → result R * W).

(** A program alone, from history [h]; the [n]-th operation gets the input [inputs n]. *)
Fixpoint run {A} (inputs : nat → In) (h : list event) (p : prog A) (w : W)
    : result A * list event * W :=
  match p with
  | Done r => (r, h, w)
  | Do R o k => let '(r, w') := perform R o (inputs (length h)) w in
                run inputs (Ev R o r :: h) (k r) w'
  end.

Lemma run_allowed {A} P Q inputs h (p : prog A) w r h' w' :
  allowed P h p Q → run inputs h p w = (r, h', w') → Q h' r.
Proof.
  revert h w; induction p as [r0|R o k IH]; intros h w; simpl.
  - intros HQ Hrun. by simplify_eq.
  - intros [Ho Hk]. destruct (perform _ _ _ _) as [r1 w1]. apply IH, Hk.
Qed.

(** A bind runs its first part, then the continuation with what that left. *)
Lemma run_pbind {A B} inputs h (p : prog A) (f : A → prog B) w :
  run inputs h (pbind p f) w = match run inputs h p w with
    | (Ok a, h', w') => run inputs h' (f a) w'
    | (Err e, h', w') => (Err e, h', w')
    end.
Proof.
  revert h w; induction p as [[a|e]|R o k IH]; intros h w; simpl; [done|done|].
  destruct (perform _ _ _ _) as [r1 w1]. apply IH.
Qed.

(** What every admitted operation keeps, a run keeps. *)
Lemma run_invariant {A} P Q (I : W → Prop) inputs h (p : prog A) w r h' w' :
  (∀ h R o i w r w', P h R o → perform R o i w = (r, w') → I w → I w') →
  allowed P h p Q → run inputs h p w = (r, h', w') → I w → I w'.
Proof.
  intros Hop. revert h w; induction p as [r0|R o k IH]; intros h w; simpl.
  - intros _ Hrun. by simplify_eq.
  - intros [Ho Hk]. destruct (perform _ _ _ _) as [r1 w1] eqn:Hp. intros Hrun Hw.
    eapply (IH _ _ _ (Hk r1) Hrun), Hop; eauto.
Qed.

(** Every event of a history was admitted when it happened. *)
Fixpoint all_admitted (P : list event → ∀ R, Op R → Prop) (h : list event) : Prop :=
  match h with
  | [] => True
  | ev :: h' => P h' (ev_type ev) (ev_op ev) ∧ all_admitted P h'
  end.

Lemma all_admitted_suffix P h1 h2 : all_admitted P (h1 ++ h2) → all_admitted P h2.
Proof. induction h1 as [|ev h1 IH]; simpl; [done|]. intros [_ H]. by apply IH. Qed.

Lemma run_admitted {A} P Q inputs h (p : prog A) w r h' w' :
  allowed P h p Q → run inputs h p w = (r, h', w') → all_admitted P h → all_admitted P h'.
Proof.
  revert h w; induction p as [r0|R o k IH]; intros h w; simpl.
  - intros _ Hrun. by simplify_eq.
  - intros [Ho Hk]. destruct (perform _ _ _ _) as [r1 w1]. intros Hrun Hh.
    by eapply (IH _ _ _ (Hk r1) Hrun).
Qed.

(** Any number of programs over the shared state; [launch] says which may be started. *)
Record thread := Thread { th_history : list event; th_prog : prog () }.

Inductive pool_step (launch : prog () → Prop) : W * list thread → W * list thread → Prop :=
| step_launch w ts p : launch p → pool_step launch (w, ts) (w, ts ++ [Thread [] p])
| step_op w ts i h R o k inp r w' :
    ts !! i = Some (Thread h (Do R o k)) → perform R o inp w = (r, w') →
    pool_step launch (w, ts) (w', <[i := Thread (Ev R o r :: h) (k r)]> ts).

(** A program that runs alone, as steps of the pool. *)
Lemma run_steps launch inputs p h w ts1 ts2 r h' w' :
  run inputs h p w = (r, h', w') →
  rtc (pool_step launch) (w, ts1 ++ Thread h p :: ts2) (w', ts1 ++ Thread h' (Done r) :: ts2).
Proof.
  revert h w; induction p as [r0|R o k IH]; intros h w; simpl.
  - intros Hrun. by simplify_eq.
  - destruct (perform _ _ _ _) as [r1 w1] eqn:Hp. intros Hrun. eapply rtc_l; [|by apply IH].
    replace (ts1 ++ Thread (Ev R o r1 :: h) (k r1) :: ts2)
      with (<[length ts1 := Thread (Ev R o r1 :: h) (k r1)]> (ts1 ++ Thread h (Do R o k) :: ts2))
      by (by rewrite insert_app_r_alt, Nat.sub_diag by lia).
    eapply step_op; [|exact Hp]. by apply list_lookup_middle.
Qed.

Lemma run_launched (launch : prog () → Prop) inputs p w ts r h' w' :
  launch p → run inputs [] p w = (r, h', w') →
  rtc (pool_step launch) (w, ts) (w', ts ++ [Thread h' (Done r)]).
Proof. intros Hl Hrun. eapply rtc_l; [by apply step_launch|]. by eapply run_steps. Qed.

(** Programs that keep to a protocol do so in a pool. *)
Definition keeps (P : list event → ∀ R, Op R → Prop) (t : thread) : Prop :=
  allowed P (th_history t) (th_prog t) (λ _ _, True).

Lemma pool_keeps P launch c c' :
  (∀ p, launch p → keeps P (Thread [] p)) →
  pool_step launch c c' → Forall (keeps P) c.2 → Forall (keeps P) c'.2.
Proof.
  intros Hl Hstep Hts. destruct Hstep as [w ts p Hp|w ts i h R o k inp r w' Hi Hr]; simpl in *.
  - apply Forall_app. split; [done|]. apply Forall_singleton. by apply Hl.
  - apply Forall_insert; [done|]. eapply Forall_lookup_1 in Hts; [|exact Hi].
    destruct Hts as [_ Hk]. apply Hk.
Qed.
End semantics.
End prog.

Arguments prog : clear implicits.
Arguments Done {Op A} _.
Arguments Do {Op A} _ _ _.
Arguments event : clear implicits.
Arguments Ev {Op} _ _ _.
Arguments thread : clear implicits.
Arguments Thread {Op} _ _.

#[export] Instance prog_ret Op : MRet (prog Op) := λ A a, Done (Ok a).
#[export] Instance prog_bind Op : MBind (prog Op) := λ A B f p, pbind p f.

(** [allowed_step] advances an [allowed] goal by one statement of the program. *)
Ltac allowed_step :=
  match goal with
  | |- allowed _ _ (mbind _ _) _ => apply allowed_bind
  | |- allowed _ _ (pbind _ _) _ => apply allowed_bind
  | |- allowed _ _ (ptry _ _) _ => apply allowed_try
  | |- allowed _ _ (mret _) _ => apply allowed_done; cbv beta iota
  | |- allowed _ _ (call _) _ => apply allowed_call; [|intros ?]; cbv beta iota
  | |- allowed _ _ (praise _) _ => apply allowed_done; cbv beta iota
  | |- allowed _ _ (praise_if _ _) _ => apply allowed_raise_if; intros ?; cbv beta iota
  | |- allowed _ _ (prequire _ _) _ => apply allowed_require; [intros ?|intros ? ?]; cbv beta iota
  | |- allowed _ _ (Done _) _ => apply allowed_done; cbv beta iota
  | |- allowed _ _ (if ?b then _ else _) _ => destruct b eqn:?
  end.
