(* ===== verification/Collections.v ===== *)
(** * Collections: Python's sorted lists, ordered dicts and sums

    [sort_by] is Python's [sorted(..., key=...)]: stable insertion by a boolean
    comparison of keys.  [Dict] is an insertion-ordered dict (Python's [dict]):
    assigning to a present key keeps its position, a new key goes last.  [sum_by]
    adds up an integer measure over a list. *)
From S2P Require Import Prelude.
From Stdlib Require Import Ascii.

(** ** Stable sorting *)
Section sort_by.
Context {A : Type} (leb : A → A → bool).

Fixpoint insert_by (x : A) (l : list A) : list A :=
  match l with
  | [] => [x]
  | y :: l' => if leb x y then x :: y :: l' else y :: insert_by x l'
  end.

Fixpoint sort_by (l : list A) : list A :=
  match l with
  | [] => []
  | x :: l' => insert_by x (sort_by l')
  end.

Lemma insert_by_perm x l : insert_by x l ≡ₚ x :: l.
Proof.
  induction l as [|y l IH]; simpl; [done|].
  destruct (leb x y); [done|]. rewrite IH. by apply Permutation_swap.
Qed.

Lemma sort_by_perm l : sort_by l ≡ₚ l.
Proof. induction l as [|x l IH]; simpl; [done|]. by rewrite insert_by_perm, IH. Qed.

Lemma elem_of_sort_by x l : x ∈ sort_by l ↔ x ∈ l.
Proof. by rewrite sort_by_perm. Qed.

Lemma length_sort_by l : length (sort_by l) = length l.
Proof. by rewrite sort_by_perm. Qed.

(** [StronglySorted] by the comparison, given that it is a total preorder. *)
Hypothesis leb_total : ∀ x y, leb x y = true ∨ leb y x = true.
Hypothesis leb_trans : ∀ x y z, leb x y = true → leb y z = true → leb x z = true.

Lemma insert_by_sorted x l :
  StronglySorted (λ a b, leb a b = true) l →
  StronglySorted (λ a b, leb a b = true) (insert_by x l).
Proof.
  induction 1 as [|y l Hl IH Hy]; simpl; [repeat constructor|].
  destruct (leb x y) eqn:Hxy.
  - constructor; [by constructor|]. constructor; [done|].
    eapply Forall_impl; [exact Hy|]. simpl. intros z Hz. by eapply leb_trans.
  - constructor; [done|]. rewrite insert_by_perm. constructor; [|done].
    destruct (leb_total x y); congruence.
Qed.

Lemma sort_by_sorted l : StronglySorted (λ a b, leb a b = true) (sort_by l).
Proof. induction l as [|x l IH]; simpl; [constructor|]. by apply insert_by_sorted. Qed.

(** Stability: the elements equivalent to a given one keep their order. *)
Definition same_key (a b : A) : bool := leb a b && leb b a.

Lemma insert_by_stable z x l :
  StronglySorted (λ a b, leb a b = true) l →
  filter (λ a, same_key z a = true) (insert_by x l)
  = filter (λ a, same_key z a = true) (x :: l).
Proof.
  induction 1 as [|y l Hl IH Hy]; simpl; [done|].
  destruct (leb x y) eqn:Hxy; [done|].
  rewrite filter_cons. rewrite IH, !filter_cons.
  destruct (decide (same_key z y = true)) as [Hzy|], (decide (same_key z x = true)) as [Hzx|];
    try done.
  exfalso. unfold same_key in *. bool_to_prop.
  assert (leb x y = true) by (eapply leb_trans; eauto). congruence.
Qed.

Lemma sort_by_stable z l :
  filter (λ a, same_key z a = true) (sort_by l) = filter (λ a, same_key z a = true) l.
Proof.
  induction l as [|x l IH]; simpl; [done|].
  rewrite insert_by_stable by apply sort_by_sorted.
  rewrite !filter_cons, IH. done.
Qed.

(** Sorting a sorted list changes nothing. *)
Lemma sort_by_id l : StronglySorted (λ a b, leb a b = true) l → sort_by l = l.
Proof.
  induction 1 as [|x l Hl IH Hx]; simpl; [done|]. rewrite IH.
  destruct l as [|y l]; simpl; [done|]. by inversion Hx as [|? ? Hxy]; subst; rewrite Hxy.
Qed.
End sort_by.

(** Python compares strings by code point. *)
Definition str_leb (a b : string) : bool := String.leb a b.

Lemma str_leb_total a b : str_leb a b = true ∨ str_leb b a = true.
Proof. apply String.leb_total. Qed.

Lemma str_leb_trans a b c : str_leb a b = true → str_leb b c = true → str_leb a c = true.
Proof.
  unfold str_leb. intros H1 H2.
  assert (String.le a c) as H; [|by unfold String.le in H; destruct (String.leb a c)].
  transitivity b; unfold String.le; [by rewrite H1|by rewrite H2].
Qed.

Lemma str_leb_antisym a b : str_leb a b = true → str_leb b a = true → a = b.
Proof.
  unfold str_leb. intros H1 H2. apply (anti_symm String.le); unfold String.le.
  - by rewrite H1.
  - by rewrite H2.
Qed.

Lemma str_leb_refl a : str_leb a a = true.
Proof. by destruct (str_leb_total a a). Qed.

(** [x in {...}] on strings, and the truth value of an optional string. *)
Definition one_of (x : string) (l : list string) : bool := bool_decide (x ∈ l).
Definition truthy (o : option string) : bool :=
  match o with Some s => negb (bool_decide (s = "")) | None => false end.

(** [s in t] on strings. *)
Fixpoint contains (needle hay : string) : bool :=
  String.prefix needle hay || match hay with EmptyString => false | String _ h => contains needle h end.

(** [repr] of a string of ASCII characters: single quotes unless the string has one and no
    double quote; backslashes, the quote and control characters are escaped. *)
Definition hex_digit (n : nat) : ascii :=
  ascii_of_nat (if (n <? 10)%nat then 48 + n else 87 + n).
Definition dquote : ascii := ascii_of_nat 34.
Definition squote : ascii := ascii_of_nat 39.
Definition backslash : ascii := ascii_of_nat 92.

Definition repr_char (quote c : ascii) : string :=
  let n := nat_of_ascii c in
  if decide (c = quote ∨ c = backslash) then String backslash (String c EmptyString)
  else if (n =? 9)%nat then String backslash "t"
  else if (n =? 10)%nat then String backslash "n"
  else if (n =? 13)%nat then String backslash "r"
  else if (n <? 32)%nat || (n =? 127)%nat
  then String backslash (String "x" (String (hex_digit (n / 16)) (String (hex_digit (n mod 16)) EmptyString)))
  else String c EmptyString.

Fixpoint repr_body (quote : ascii) (s : string) : string :=
  match s with
  | EmptyString => EmptyString
  | String c s' => repr_char quote c +:+ repr_body quote s'
  end.

Definition str_repr (s : string) : string :=
  let has c := existsb (λ x, bool_decide (x = c)) (String.list_ascii_of_string s) in
  let quote := if has squote && negb (has dquote) then dquote else squote in
  String quote (repr_body quote s +:+ String quote EmptyString).

Example repr_plain : str_repr "ab" = "'ab'".
Proof. reflexivity. Qed.
Example repr_newline : str_repr (String (ascii_of_nat 10) "x") = "'\nx'".
Proof. reflexivity. Qed.

(** ** Insertion-ordered dictionaries *)
Abbreviation dict V := (list (string * V)).

Section dict.
Context {V : Type}.

Fixpoint dict_get (d : dict V) (k : string) : option V :=
  match d with
  | [] => None
  | (k', v) :: d' => if decide (k = k') then Some v else dict_get d' k
  end.

(** [d[k] = v]. *)
Fixpoint dict_set (d : dict V) (k : string) (v : V) : dict V :=
  match d with
  | [] => [(k, v)]
  | (k', v') :: d' => if decide (k = k') then (k', v) :: d' else (k', v') :: dict_set d' k v
  end.

Definition dict_keys (d : dict V) : list string := d.*1.
Definition dict_values (d : dict V) : list V := d.*2.
(** [d.setdefault(k, v)]: the dict afterwards. *)
Definition dict_setdefault (d : dict V) (k : string) (v : V) : dict V :=
  match dict_get d k with Some _ => d | None => dict_set d k v end.
Definition dict_mem (d : dict V) (k : string) : bool :=
  match dict_get d k with Some _ => true | None => false end.

Lemma dict_get_set_eq d k v : dict_get (dict_set d k v) k = Some v.
Proof.
  induction d as [|[k' v'] d IH]; simpl; repeat (case_decide; simpl); subst; congruence.
Qed.

Lemma dict_get_set_ne d k k' v : k ≠ k' → dict_get (dict_set d k v) k' = dict_get d k'.
Proof.
  intros Hne. induction d as [|[k2 v2] d IH]; simpl; repeat (case_decide; simpl); subst; congruence.
Qed.

Lemma dict_get_set d k k' v :
  dict_get (dict_set d k v) k' = if decide (k = k') then Some v else dict_get d k'.
Proof. case_decide; subst; [apply dict_get_set_eq|by apply dict_get_set_ne]. Qed.

Lemma dict_keys_set d k v :
  dict_keys (dict_set d k v) = if dict_mem d k then dict_keys d else dict_keys d ++ [k].
Proof.
  unfold dict_mem. induction d as [|[k2 v2] d IH]; simpl; [done|].
  case_decide; simpl; [done|]. rewrite IH. by destruct (dict_get d k).
Qed.

Lemma dict_get_keys d k : is_Some (dict_get d k) ↔ k ∈ dict_keys d.
Proof.
  induction d as [|[k2 v2] d IH]; simpl.
  - split; [by intros [? ?]|by inversion 1].
  - rewrite elem_of_cons. case_decide; subst; [naive_solver|].
    rewrite IH. naive_solver.
Qed.

Lemma dict_get_elem d k v : dict_get d k = Some v → (k, v) ∈ d.
Proof.
  induction d as [|[k2 v2] d IH]; simpl; [done|].
  case_decide; intros; simplify_eq; [left|right; auto].
Qed.

Lemma dict_elem_get d k v : NoDup (dict_keys d) → (k, v) ∈ d → dict_get d k = Some v.
Proof.
  induction d as [|[k2 v2] d IH]; simpl; [by inversion 2|].
  intros [Hk2 Hnd]%NoDup_cons [|Hin]%elem_of_cons; simplify_eq.
  - by rewrite decide_True.
  - case_decide; subst; [|auto]. exfalso. apply Hk2.
    by apply (list_elem_of_fmap_2 fst) in Hin.
Qed.

Lemma dict_values_elem d v : v ∈ dict_values d ↔ ∃ k, (k, v) ∈ d.
Proof.
  unfold dict_values. rewrite list_elem_of_fmap. split.
  - intros ([k v'] & -> & Hin). eauto.
  - intros [k Hin]. by exists (k, v).
Qed.

Lemma dict_set_nodup d k v : NoDup (dict_keys d) → NoDup (dict_keys (dict_set d k v)).
Proof.
  intros Hnd. rewrite dict_keys_set. unfold dict_mem.
  destruct (dict_get d k) eqn:Hk; [done|].
  apply NoDup_app. split; [done|]. split; [|apply NoDup_singleton].
  intros x Hx ->%list_elem_of_singleton. apply dict_get_keys in Hx as [? ?]. congruence.
Qed.

Lemma dict_elem_set d k v k' v' :
  (k', v') ∈ dict_set d k v → (k' = k ∧ v' = v) ∨ (k', v') ∈ d.
Proof.
  induction d as [|[k2 v2] d IH]; simpl.
  - intros ?%list_elem_of_singleton. naive_solver.
  - case_decide; rewrite !elem_of_cons; naive_solver.
Qed.
End dict.

(** Mapping the values of a dict. *)
Lemma dict_set_fmap {V W} (f : V → W) (d : dict V) k v :
  (λ kv : string * V, (kv.1, f kv.2)) <$> dict_set d k v
  = dict_set ((λ kv : string * V, (kv.1, f kv.2)) <$> d) k (f v).
Proof. induction d as [|[k2 v2] d IH]; csimpl; [done|]. case_decide; csimpl; by rewrite ?IH. Qed.

Lemma dict_get_fmap {V W} (f : V → W) (d : dict V) k :
  dict_get ((λ kv : string * V, (kv.1, f kv.2)) <$> d) k = f <$> dict_get d k.
Proof. induction d as [|[k2 v2] d IH]; csimpl; [done|]. by case_decide. Qed.

Lemma dict_keys_fmap {V W} (f : V → W) (d : dict V) :
  dict_keys ((λ kv : string * V, (kv.1, f kv.2)) <$> d) = dict_keys d.
Proof. unfold dict_keys. by rewrite <- list_fmap_compose. Qed.

#[export] Hint Rewrite @dict_get_set_eq : swarm.
#[export] Hint Resolve dict_set_nodup : swarm.

(** ** Sums *)
Section sum_by.
Context {A : Type}.
Open Scope Z_scope.

Fixpoint sum_by (f : A → Z) (l : list A) : Z :=
  match l with
  | [] => 0
  | x :: l' => f x + sum_by f l'
  end.

Lemma sum_by_app f l1 l2 : sum_by f (l1 ++ l2) = sum_by f l1 + sum_by f l2.
Proof. induction l1 as [|x l1 IH]; simpl; [done|]. rewrite IH. lia. Qed.

Lemma sum_by_perm f l1 l2 : l1 ≡ₚ l2 → sum_by f l1 = sum_by f l2.
Proof. induction 1; simpl; lia. Qed.

Lemma sum_by_ext f g l : (∀ x, x ∈ l → f x = g x) → sum_by f l = sum_by g l.
Proof.
  induction l as [|x l IH]; intros Hfg; simpl; [done|].
  rewrite Hfg by apply list_elem_of_here. f_equal. apply IH.
  intros y Hy. apply Hfg. by apply list_elem_of_further.
Qed.

Lemma sum_by_nonneg f l : (∀ x, x ∈ l → 0 <= f x) → 0 <= sum_by f l.
Proof.
  induction l as [|x l IH]; intros Hf; simpl; [lia|].
  assert (0 <= f x) by (apply Hf, list_elem_of_here).
  assert (0 <= sum_by f l); [|lia].
  apply IH. intros y Hy. apply Hf. by apply list_elem_of_further.
Qed.

Lemma sum_by_zero f l : (∀ x, x ∈ l → f x = 0) → sum_by f l = 0.
Proof.
  induction l as [|x l IH]; intros Hf; simpl; [done|].
  rewrite Hf by apply list_elem_of_here. rewrite IH; [done|].
  intros y Hy. apply Hf. by apply list_elem_of_further.
Qed.
End sum_by.

#[export] Instance sum_by_proper {A} (f : A → Z) : Proper ((≡ₚ) ==> (=)) (sum_by f).
Proof. intros l1 l2. apply sum_by_perm. Qed.

(** ** Filters *)
Lemma nodup_fst_filter {A B} (f : A * B → bool) (l : list (A * B)) :
  NoDup l.*1 → NoDup (List.filter f l).*1.
Proof.
  induction l as [|[a b] l IH]; csimpl; [done|]. intros [Ha Hnd]%NoDup_cons.
  destruct (f (a, b)); csimpl; [|auto]. apply NoDup_cons. split; [|auto].
  intros ([a' b'] & -> & Hin)%list_elem_of_fmap. apply Ha.
  apply list_elem_of_In, List.filter_In in Hin as [Hin _].
  apply list_elem_of_In in Hin. by apply (list_elem_of_fmap_2 fst) in Hin.
Qed.
