(* ===== verification/Contracts.v ===== *)
(** * Contracts: the enumerations and models of src/swarm/contracts

    Each [StrEnum] of enums.py is an inductive type in a module of its own, with the
    source's member names and a [value] function giving the member's string.  The
    pydantic models of provider.py and mission.py that the broker and the mission
    controller exchange are records; a datetime is a [datetime] (below). *)
From S2P Require Import Prelude.

(** ** Enumerations (contracts/enums.py) *)

Module MissionStatus.
Inductive MissionStatus : Type :=
  | DRAFT | PLANNING | RUNNING | WAITING_CAPACITY | WAITING_INPUT | WAITING_APPROVAL
  | VERIFYING | COMPLETED | FAILED | CANCELLED.
#[export] Instance MissionStatus_eq_dec : EqDecision MissionStatus.
Proof. solve_decision. Defined.
Definition value (x : MissionStatus) : string :=
  match x with
  | DRAFT => "draft"
  | PLANNING => "planning"
  | RUNNING => "running"
  | WAITING_CAPACITY => "waiting_capacity"
  | WAITING_INPUT => "waiting_input"
  | WAITING_APPROVAL => "waiting_approval"
  | VERIFYING => "verifying"
  | COMPLETED => "completed"
  | FAILED => "failed"
  | CANCELLED => "cancelled"
  end.
End MissionStatus.
Export (hints) MissionStatus.
Abbreviation MissionStatus := MissionStatus.MissionStatus.

Module WorkerStatus.
Inductive WorkerStatus : Type := ONLINE | DRAINING | OFFLINE | QUARANTINED.
#[export] Instance WorkerStatus_eq_dec : EqDecision WorkerStatus.
Proof. solve_decision. Defined.
Definition value (x : WorkerStatus) : string :=
  match x with
  | ONLINE => "online"
  | DRAINING => "draining"
  | OFFLINE => "offline"
  | QUARANTINED => "quarantined"
  end.
End WorkerStatus.
Export (hints) WorkerStatus.
Abbreviation WorkerStatus := WorkerStatus.WorkerStatus.

Module TaskStatus.
Inductive TaskStatus : Type :=
  | PROPOSED | READY | LEASED | RUNNING | WAITING_CHILDREN | WAITING_CAPACITY
  | WAITING_APPROVAL | VERIFYING | ACCEPTED | REJECTED | FAILED | CANCELLED | SUPERSEDED.
#[export] Instance TaskStatus_eq_dec : EqDecision TaskStatus.
Proof. solve_decision. Defined.
Definition value (x : TaskStatus) : string :=
  match x with
  | PROPOSED => "proposed"
  | READY => "ready"
  | LEASED => "leased"
  | RUNNING => "running"
  | WAITING_CHILDREN => "waiting_children"
  | WAITING_CAPACITY => "waiting_capacity"
  | WAITING_APPROVAL => "waiting_approval"
  | VERIFYING => "verifying"
  | ACCEPTED => "accepted"
  | REJECTED => "rejected"
  | FAILED => "failed"
  | CANCELLED => "cancelled"
  | SUPERSEDED => "superseded"
  end.
End TaskStatus.
Export (hints) TaskStatus.
Abbreviation TaskStatus := TaskStatus.TaskStatus.

Module AttemptStatus.
Inductive AttemptStatus : Type :=
  | PENDING | RUNNING | SUCCEEDED | FAILED | CANCELLED | UNKNOWN.
#[export] Instance AttemptStatus_eq_dec : EqDecision AttemptStatus.
Proof. solve_decision. Defined.
Definition value (x : AttemptStatus) : string :=
  match x with
  | PENDING => "pending"
  | RUNNING => "running"
  | SUCCEEDED => "succeeded"
  | FAILED => "failed"
  | CANCELLED => "cancelled"
  | UNKNOWN => "unknown"
  end.
End AttemptStatus.
Export (hints) AttemptStatus.
Abbreviation AttemptStatus := AttemptStatus.AttemptStatus.

Module GraphOperation.
Inductive GraphOperation : Type :=
  | SPAWN | SPLIT | REASSIGN | MERGE | CHALLENGE | REVISE | STOP | REQUEST_HELP
  | SUBMIT_RESULT | REVISE_DEPENDENCY.
#[export] Instance GraphOperation_eq_dec : EqDecision GraphOperation.
Proof. solve_decision. Defined.
Definition value (x : GraphOperation) : string :=
  match x with
  | SPAWN => "spawn"
  | SPLIT => "split"
  | REASSIGN => "reassign"
  | MERGE => "merge"
  | CHALLENGE => "challenge"
  | REVISE => "revise"
  | STOP => "stop"
  | REQUEST_HELP => "request_help"
  | SUBMIT_RESULT => "submit_result"
  | REVISE_DEPENDENCY => "revise_dependency"
  end.
End GraphOperation.
Export (hints) GraphOperation.
Abbreviation GraphOperation := GraphOperation.GraphOperation.

Module PurposeEligibility.
Inductive PurposeEligibility : Type :=
  | PROTOTYPE | INTERNAL | PRODUCTION | UNKNOWN.
#[export] Instance PurposeEligibility_eq_dec : EqDecision PurposeEligibility.
Proof. solve_decision. Defined.
Definition value (x : PurposeEligibility) : string :=
  match x with
  | PROTOTYPE => "prototype"
  | INTERNAL => "internal"
  | PRODUCTION => "production"
  | UNKNOWN => "unknown"
  end.
End PurposeEligibility.
Export (hints) PurposeEligibility.
Abbreviation PurposeEligibility := PurposeEligibility.PurposeEligibility.

Module BillingMode.
Inductive BillingMode : Type :=
  | FREE | TRIAL | PAID | UNKNOWN | NONE.
#[export] Instance BillingMode_eq_dec : EqDecision BillingMode.
Proof. solve_decision. Defined.
Definition value (x : BillingMode) : string :=
  match x with
  | FREE => "free"
  | TRIAL => "trial"
  | PAID => "paid"
  | UNKNOWN => "unknown"
  | NONE => "none"
  end.
End BillingMode.
Export (hints) BillingMode.
Abbreviation BillingMode := BillingMode.BillingMode.

Module AvailabilityStatus.
Inductive AvailabilityStatus : Type :=
  | UNKNOWN | AVAILABLE | DEGRADED | UNAVAILABLE | DISABLED | RETIRED.
#[export] Instance AvailabilityStatus_eq_dec : EqDecision AvailabilityStatus.
Proof. solve_decision. Defined.
Definition value (x : AvailabilityStatus) : string :=
  match x with
  | UNKNOWN => "unknown"
  | AVAILABLE => "available"
  | DEGRADED => "degraded"
  | UNAVAILABLE => "unavailable"
  | DISABLED => "disabled"
  | RETIRED => "retired"
  end.
End AvailabilityStatus.
Export (hints) AvailabilityStatus.
Abbreviation AvailabilityStatus := AvailabilityStatus.AvailabilityStatus.

Module QuotaDimension.
Inductive QuotaDimension : Type :=
  | REQUESTS | INPUT_TOKENS | OUTPUT_TOKENS | TOTAL_TOKENS | UNCACHED_TOKENS | NEURONS
  | CREDIT | CONCURRENCY.
#[export] Instance QuotaDimension_eq_dec : EqDecision QuotaDimension.
Proof. solve_decision. Defined.
Definition value (x : QuotaDimension) : string :=
  match x with
  | REQUESTS => "requests"
  | INPUT_TOKENS => "input_tokens"
  | OUTPUT_TOKENS => "output_tokens"
  | TOTAL_TOKENS => "total_tokens"
  | UNCACHED_TOKENS => "uncached_tokens"
  | NEURONS => "neurons"
  | CREDIT => "credit"
  | CONCURRENCY => "concurrency"
  end.
End QuotaDimension.
Export (hints) QuotaDimension.
Abbreviation QuotaDimension := QuotaDimension.QuotaDimension.

Module WindowType.
Inductive WindowType : Type :=
  | ROLLING | FIXED | LIFETIME | UNKNOWN.
#[export] Instance WindowType_eq_dec : EqDecision WindowType.
Proof. solve_decision. Defined.
Definition value (x : WindowType) : string :=
  match x with
  | ROLLING => "rolling"
  | FIXED => "fixed"
  | LIFETIME => "lifetime"
  | UNKNOWN => "unknown"
  end.
End WindowType.
Export (hints) WindowType.
Abbreviation WindowType := WindowType.WindowType.

Module ReservationState.
Inductive ReservationState : Type :=
  | OPEN | COMMITTED | RELEASED | EXPIRED | UNKNOWN.
#[export] Instance ReservationState_eq_dec : EqDecision ReservationState.
Proof. solve_decision. Defined.
Definition value (x : ReservationState) : string :=
  match x with
  | OPEN => "open"
  | COMMITTED => "committed"
  | RELEASED => "released"
  | EXPIRED => "expired"
  | UNKNOWN => "unknown"
  end.
End ReservationState.
Export (hints) ReservationState.
Abbreviation ReservationState := ReservationState.ReservationState.

Module ReservationPhase.
Inductive ReservationPhase : Type :=
  | RESERVED | SENDING | SENT | UNKNOWN | SETTLED.
#[export] Instance ReservationPhase_eq_dec : EqDecision ReservationPhase.
Proof. solve_decision. Defined.
Definition value (x : ReservationPhase) : string :=
  match x with
  | RESERVED => "reserved"
  | SENDING => "sending"
  | SENT => "sent"
  | UNKNOWN => "unknown"
  | SETTLED => "settled"
  end.
End ReservationPhase.
Export (hints) ReservationPhase.
Abbreviation ReservationPhase := ReservationPhase.ReservationPhase.

Module ErrorClass.
Inductive ErrorClass : Type :=
  | RATE_LIMIT | AUTHENTICATION | QUOTA_EXHAUSTED | TRANSIENT | UNSUPPORTED_CAPABILITY
  | INVALID_REQUEST | POLICY_DENIED | PARTIAL_STREAM | UNKNOWN_OUTCOME.
#[export] Instance ErrorClass_eq_dec : EqDecision ErrorClass.
Proof. solve_decision. Defined.
Definition value (x : ErrorClass) : string :=
  match x with
  | RATE_LIMIT => "rate_limit"
  | AUTHENTICATION => "authentication"
  | QUOTA_EXHAUSTED => "quota_exhausted"
  | TRANSIENT => "transient"
  | UNSUPPORTED_CAPABILITY => "unsupported_capability"
  | INVALID_REQUEST => "invalid_request"
  | POLICY_DENIED => "policy_denied"
  | PARTIAL_STREAM => "partial_stream"
  | UNKNOWN_OUTCOME => "unknown_outcome"
  end.
End ErrorClass.
Export (hints) ErrorClass.
Abbreviation ErrorClass := ErrorClass.ErrorClass.

Module SettlementState.
Inductive SettlementState : Type :=
  | PENDING | SETTLED | UNKNOWN | VOID.
#[export] Instance SettlementState_eq_dec : EqDecision SettlementState.
Proof. solve_decision. Defined.
Definition value (x : SettlementState) : string :=
  match x with
  | PENDING => "pending"
  | SETTLED => "settled"
  | UNKNOWN => "unknown"
  | VOID => "void"
  end.
End SettlementState.
Export (hints) SettlementState.
Abbreviation SettlementState := SettlementState.SettlementState.

Module RoutingState.
Inductive RoutingState : Type :=
  | UNASSESSED | PROVISIONAL | QUALIFIED | REVIEW_ONLY | QUARANTINED | STALE.
#[export] Instance RoutingState_eq_dec : EqDecision RoutingState.
Proof. solve_decision. Defined.
Definition value (x : RoutingState) : string :=
  match x with
  | UNASSESSED => "unassessed"
  | PROVISIONAL => "provisional"
  | QUALIFIED => "qualified"
  | REVIEW_ONLY => "review_only"
  | QUARANTINED => "quarantined"
  | STALE => "stale"
  end.
End RoutingState.
Export (hints) RoutingState.
Abbreviation RoutingState := RoutingState.RoutingState.

(** ** Time

    A [datetime] is its instant in microseconds (Python's resolution) with the flag
    that says whether it carries a timezone: subtracting or comparing an aware and a
    naive datetime raises [TypeError]. *)
Record datetime := Datetime { dt_aware : bool; dt_us : Z }.
#[export] Instance datetime_eq_dec : EqDecision datetime.
Proof. solve_decision. Defined.

Definition seconds (n : Z) : Z := (n * 1000000)%Z.
Definition minutes (n : Z) : Z := seconds (n * 60)%Z.
Definition hours (n : Z) : Z := minutes (n * 60)%Z.
Definition days (n : Z) : Z := hours (n * 24)%Z.

(** An aware instant, as [utc_now] returns it. *)
Definition utc (us : Z) : datetime := Datetime true us.

(** [a - b] as a timedelta in microseconds. *)
Definition dt_sub (a b : datetime) : result Z :=
  if eqb (dt_aware a) (dt_aware b) then Ok (dt_us a - dt_us b)%Z
  else Err (TypeError "can't subtract offset-naive and offset-aware datetimes").

(** ** Provider, quota and inference contracts (contracts/provider.py) *)
Record RouteSnapshot := mkRouteSnapshot {
  rt_route_id : string;
  rt_provider : string;
  rt_account_id : string;
  rt_model_id : string;
  rt_availability_status : AvailabilityStatus;
  rt_quota_bucket_ids : list string;
  rt_privacy_policy_ref : option string;
  rt_capability_claims : list string;
  rt_observed_capabilities : list string
}.

Record QuotaBucket := mkQuotaBucket {
  bucket_id : string;
  scope_type : string;
  scope_id : string;
  dimension : QuotaDimension;
  limit : option Z;
  remaining : option Z;
  window_type : WindowType;
  reset_at : option datetime;
  observed_at : datetime;
  version : Z
}.
#[export] Instance eta_QuotaBucket : Eta QuotaBucket := λ r,
  mkQuotaBucket (bucket_id r) (scope_type r) (scope_id r) (dimension r) (limit r) (remaining r)
    (window_type r) (reset_at r) (observed_at r) (version r).

Record BucketAmount := mkBucketAmount {
  ba_bucket_id : string;
  ba_dimension : QuotaDimension;
  ba_amount : Z
}.
#[export] Instance BucketAmount_eq_dec : EqDecision BucketAmount.
Proof. solve_decision. Defined.

Record Reservation := mkReservation {
  reservation_id : string;
  rs_logical_call_id : string;
  rs_attempt_id : string;
  rs_route_id : string;
  bucket_amounts : list BucketAmount;
  rs_state : ReservationState;
  rs_phase : ReservationPhase;
  rs_expires_at : Z
}.
#[export] Instance eta_Reservation : Eta Reservation := λ r,
  mkReservation (reservation_id r) (rs_logical_call_id r) (rs_attempt_id r) (rs_route_id r)
    (bucket_amounts r) (rs_state r) (rs_phase r) (rs_expires_at r).

Record NormalizedUsage := mkNormalizedUsage {
  u_input_tokens : option Z;
  u_output_tokens : option Z;
  u_total_tokens : option Z;
  u_uncached_tokens : option Z;
  u_requests : Z
}.

Record AttemptReceipt := mkAttemptReceipt {
  ar_logical_call_id : string;
  ar_network_attempt_id : string;
  ar_idempotency_key : option string;
  ar_send_phase : ReservationPhase;
  ar_normalized_usage : option NormalizedUsage;
  ar_actual_route : string;
  ar_error_class : option ErrorClass;
  ar_settlement_state : SettlementState
}.
#[export] Instance eta_AttemptReceipt : Eta AttemptReceipt := λ r,
  mkAttemptReceipt (ar_logical_call_id r) (ar_network_attempt_id r) (ar_idempotency_key r)
    (ar_send_phase r) (ar_normalized_usage r) (ar_actual_route r) (ar_error_class r)
    (ar_settlement_state r).

Record InferenceRequest := mkInferenceRequest {
  rq_attempt_id : string;
  rq_route_id : option string;
  rq_purpose : string;
  rq_estimated_input_tokens : option Z;
  rq_max_output_tokens : option Z
}.

(** ** Mission, task and graph contracts (contracts/mission.py) *)
Record Mission := mkMission {
  ms_schema_version : string;
  ms_id : string;
  ms_created_at : Z;            (** microseconds, UTC *)
  ms_project_id : string;
  ms_trace_id : string;
  ms_payload_hash : option string;
  ms_objective : string;
  ms_acceptance_criteria : list string;
  ms_allowed_capabilities : list string;
  ms_data_scope_ids : list string;
  ms_resource_policy_id : string;
  ms_max_wall_time_seconds : Z;
  ms_max_graph_nodes : Z;
  ms_max_active_sessions : Z;
  ms_max_model_calls : Z;
  ms_total_token_envelope : option Z;
  ms_status : MissionStatus;
  ms_revision : Z;
  ms_cancellation_generation : Z;
  ms_acceptance_receipt_id : option string
}.
#[export] Instance eta_Mission : Eta Mission := λ r,
  mkMission (ms_schema_version r) (ms_id r) (ms_created_at r) (ms_project_id r) (ms_trace_id r) (ms_payload_hash r)
    (ms_objective r) (ms_acceptance_criteria r) (ms_allowed_capabilities r) (ms_data_scope_ids r) (ms_resource_policy_id r)
    (ms_max_wall_time_seconds r) (ms_max_graph_nodes r) (ms_max_active_sessions r) (ms_max_model_calls r)
    (ms_total_token_envelope r) (ms_status r) (ms_revision r) (ms_cancellation_generation r) (ms_acceptance_receipt_id r).

Record TaskSpec := mkTaskSpec {
  ts_id : string;
  ts_project_id : string;
  ts_mission_id : string;
  ts_created_at : string;   (** [created_at.isoformat()], the only use of the field *)
  ts_parent_task_id : option string;
  ts_objective : string;
  ts_task_family : string;
  ts_dependency_ids : list string;
  ts_scopes : list string;
  ts_priority : Z;
  ts_status : TaskStatus;
  ts_required_capabilities : list string
}.
#[export] Instance eta_TaskSpec : Eta TaskSpec := λ r,
  mkTaskSpec (ts_id r) (ts_project_id r) (ts_mission_id r) (ts_created_at r) (ts_parent_task_id r) (ts_objective r)
    (ts_task_family r) (ts_dependency_ids r) (ts_scopes r) (ts_priority r) (ts_status r)
    (ts_required_capabilities r).

Record TaskAttempt := mkTaskAttempt {
  ta_attempt_id : string;
  ta_task_id : string;
  ta_agent_profile_id : string;
  ta_selected_route_id : option string;
  ta_worker_id : option string;
  ta_lease_generation : Z;
  ta_status : AttemptStatus;
  ta_started_at : Z;            (** microseconds, UTC *)
  ta_completed_at : option Z;
  ta_result_artifact_id : option string;
  ta_verification_receipt_id : option string;
  ta_blocked_reason : option string
}.
#[export] Instance eta_TaskAttempt : Eta TaskAttempt := λ r,
  mkTaskAttempt (ta_attempt_id r) (ta_task_id r) (ta_agent_profile_id r) (ta_selected_route_id r)
    (ta_worker_id r) (ta_lease_generation r) (ta_status r) (ta_started_at r) (ta_completed_at r)
    (ta_result_artifact_id r) (ta_verification_receipt_id r) (ta_blocked_reason r).

Record GraphProposal := mkGraphProposal {
  gp_proposal_id : string;
  gp_mission_id : string;
  gp_based_on_revision : Z;
  gp_operation : GraphOperation;
  gp_task_specs : list TaskSpec
}.
