(* ===== verification/PyFloat.v ===== *)
(** * PyFloat: Python's floats as IEEE-754 binary64 values

    A Python [float] is a binary64 number; the Standard Library's [spec_float] with
    precision 53 and maximal exponent 1024 computes its operations with the rounding
    the standard prescribes, on exact integers.  [int / int] rounds the exact quotient
    once, which is [SFdiv] applied to the unrounded mantissas. *)
From S2P Require Import Prelude.
From Stdlib Require Import Floats.SpecFloat.
Open Scope Z_scope.

Abbreviation float := spec_float.

Definition fadd : float → float → float := SFadd 53 1024.
Definition fsub : float → float → float := SFsub 53 1024.
Definition fmul : float → float → float := SFmul 53 1024.
Definition fdiv : float → float → float := SFdiv 53 1024.
Definition fltb : float → float → bool := SFltb.
Definition fleb : float → float → bool := SFleb.
Definition feqb : float → float → bool := SFeqb.

(** Python's [max(a, b)] keeps [a] unless [b > a]; [min(a, b)] unless [b < a]. *)
Definition fmax (a b : float) : float := if fltb a b then b else a.
Definition fmin (a b : float) : float := if fltb b a then b else a.

(** The float nearest to [m * 2^e]. *)
Definition float_of (m e : Z) : float := binary_normalize 53 1024 m e false.
Definition float_of_Z (n : Z) : float := float_of n 0.

(** An integer as an unrounded operand of a true division. *)
Definition exact_int (n : Z) : float :=
  match n with
  | Z0 => S754_zero false
  | Zpos p => S754_finite false p 0
  | Zneg p => S754_finite true p 0
  end.

(** [n / d] on Python integers, for [d] nonzero. *)
Definition truediv (n d : Z) : float := fdiv (exact_int n) (exact_int d).

#[export] Instance float_eq_dec : EqDecision float.
Proof. solve_decision. Defined.

(** The literals of the modelled sources (each the binary64 nearest to it). *)
Definition f_0_01 : float := truediv 1 100.
Definition f_0_5 : float := truediv 1 2.
Definition f_1 : float := float_of_Z 1.
Definition f_2 : float := float_of_Z 2.
Definition f_0 : float := S754_zero false.

Example truediv_exact : truediv 6 3 = f_2.
Proof. reflexivity. Qed.
Example literal_0_01 : f_0_01 = S754_finite false 5764607523034235 (-59).
Proof. reflexivity. Qed.
Example rounding_0_1_0_2 :
  fadd (truediv 1 10) (truediv 2 10) ≠ truediv 3 10.
Proof. vm_compute. discriminate. Qed.
