(* ===== verification/Ledger.v ===== *)
(** * Ledger: the multi-bucket quota ledger (src/swarm/broker/ledger.py)

    [Ledger] is the state of a [QuotaLedger]: its configuration, its live buckets by
    id and the settlement keys already applied.  Every public method takes the
    admission lock before it touches a bucket and never suspends while holding it
    (the per-bucket locks are only ever taken under it), so each method runs as one
    atomic step; the definitions below are those steps, with the clock's reading as
    an argument.  Methods that raise keep what they wrote before raising. *)
From S2P Require Import Prelude Collections Contracts PyFloat.
Open Scope Z_scope.

Record LedgerConfig := mkLedgerConfig {
  planning_review_reserve : Z;
  planning_reserve_bucket_id : string;
  benchmark_envelope : Z;
  benchmark_bucket_id : string;
  allow_unknown_probe : bool;
  verified_no_charge_routes : gset string;
  default_request_amount : Z;
  token_safety_margin : Z
}.

Definition default_config : LedgerConfig :=
  mkLedgerConfig 2 "qb_control_reserve" 10 "qb_benchmark" false ∅ 1 0.

Record LiveBucket := mkLiveBucket {
  model : QuotaBucket;
  reserved : Z;
  settled : Z
}.
#[export] Instance eta_LiveBucket : Eta LiveBucket := λ r,
  mkLiveBucket (model r) (reserved r) (settled r).

Record Ledger := mkLedger {
  config : LedgerConfig;
  buckets : gmap string LiveBucket;
  settled_keys : gset string
}.
#[export] Instance eta_Ledger : Eta Ledger := λ r,
  mkLedger (config r) (buckets r) (settled_keys r).

(** A method of the bucket [self._buckets[id]]. *)
Definition with_bucket {A} (id : string) (m : M LiveBucket A) : M Ledger A := λ s,
  match buckets s !! id with
  | Some live => match m live with
                 | (r, live') => (r, s <| buckets := <[id := live']> (buckets s) |>)
                 end
  | None => (Err (KeyError id), s)
  end.

(** ** Operations *)
Definition register (bucket : QuotaBucket) (s : Ledger) : Ledger :=
  s <| buckets := <[bucket_id bucket := mkLiveBucket bucket 0 0]> (buckets s) |>.

Definition init (cfg : option LedgerConfig) (bs : list QuotaBucket) : Ledger :=
  foldl (λ s b, register b s) (mkLedger (default default_config cfg) ∅ ∅) bs.

Definition get (bucket_id : string) (s : Ledger) : option QuotaBucket :=
  model <$> (buckets s !! bucket_id).

Definition _maybe_reset (now : Z) : M LiveBucket () :=
  live ← get_state;
  match reset_at (model live) with
  | None => mret ()
  | Some at0 =>
    let reset_at_utc := utc (dt_us at0) in
    if now <? dt_us reset_at_utc then mret ()
    else match window_type (model live), limit (model live) with
    | WindowType.FIXED, Some lim =>
      put_state (live <| model := (model live) <| remaining := Some lim |> |>
                      <| reserved := 0 |>);;
      period ← of_result (dt_sub at0 (observed_at (model live)));
      let period := if period <=? 0 then days 1 else period in
      modify (λ live, live <| model := (model live)
        <| reset_at := Some (utc (dt_us reset_at_utc + Z.abs period)) |>
        <| observed_at := utc now |> <| version := version (model live) + 1 |> |>)
    | WindowType.ROLLING, Some lim =>
      put_state (live <| model := (model live)
        <| remaining := Some lim |> <| reset_at := Some (utc (now + hours 1)) |>
        <| observed_at := utc now |> <| version := version (model live) + 1 |> |>
                      <| reserved := 0 |>)
    | _, _ => mret ()
    end
  end.

Definition _effective_remaining (now : Z) : M LiveBucket (option Z) :=
  _maybe_reset now;;
  live ← get_state;
  mret (match remaining (model live) with
        | None => None
        | Some r => Some (Z.max 0 (r - reserved live))
        end).

(** The amount one bucket needs, by its dimension. *)
Definition amount_for (cfg : LedgerConfig) (dim : QuotaDimension)
    (estimated_input_tokens max_output_tokens : option Z) : Z :=
  match dim with
  | QuotaDimension.REQUESTS | QuotaDimension.CONCURRENCY => default_request_amount cfg
  | QuotaDimension.INPUT_TOKENS | QuotaDimension.TOTAL_TOKENS | QuotaDimension.UNCACHED_TOKENS =>
    Z.max 1 (default 0 estimated_input_tokens + default 0 max_output_tokens
             + token_safety_margin cfg)
  | QuotaDimension.OUTPUT_TOKENS =>
    Z.max 1 (default 0 max_output_tokens + token_safety_margin cfg)
  | QuotaDimension.CREDIT | QuotaDimension.NEURONS => 1
  end.

Fixpoint estimate_loop (s : Ledger) (ei mo : option Z) (seen : gset string)
    (bucket_ids : list string) : list BucketAmount * gset string :=
  match bucket_ids with
  | [] => ([], seen)
  | bid :: rest =>
    if decide (bid ∈ seen) then estimate_loop s ei mo seen rest
    else
      let '(out, seen') := estimate_loop s ei mo ({[bid]} ∪ seen) rest in
      match buckets s !! bid with
      | None => (out, seen')
      | Some live =>
        let dim := dimension (model live) in
        (mkBucketAmount bid dim (amount_for (config s) dim ei mo) :: out, seen')
      end
  end.

Definition estimate_amounts (bucket_ids : list string)
    (estimated_input_tokens max_output_tokens : option Z) (purpose : string)
    (s : Ledger) : list BucketAmount :=
  let '(amounts, seen) :=
    estimate_loop s estimated_input_tokens max_output_tokens ∅ bucket_ids in
  let bid := benchmark_bucket_id (config s) in
  match buckets s !! bid with
  | Some live =>
    if bool_decide (purpose = "benchmark") && negb (bool_decide (bid ∈ seen))
    then amounts ++ [mkBucketAmount bid (dimension (model live)) 1]
    else amounts
  | None => amounts
  end.

Definition by_bucket_id (a b : BucketAmount) : bool :=
  str_leb (ba_bucket_id a) (ba_bucket_id b).

(** One iteration of the loop that merges amounts of the same bucket. *)
Definition merge_one (merged : dict BucketAmount) (amt : BucketAmount) : dict BucketAmount :=
  match dict_get merged (ba_bucket_id amt) with
  | Some prev =>
    dict_set merged (ba_bucket_id amt)
      (mkBucketAmount (ba_bucket_id amt) (ba_dimension amt) (ba_amount prev + ba_amount amt))
  | None => dict_set merged (ba_bucket_id amt) amt
  end.

Definition merge_amounts (amounts : list BucketAmount) : list BucketAmount :=
  sort_by by_bucket_id (dict_values (foldl merge_one [] (sort_by by_bucket_id amounts))).

Definition control_purpose (purpose : string) : bool :=
  bool_decide (purpose = "planning" ∨ purpose = "review" ∨ purpose = "control").

Definition preflight (amt : BucketAmount) : M Ledger () :=
  s ← get_state;
  raise_if (bool_decide (buckets s !! ba_bucket_id amt = None))
    (QuotaExhaustedError ("unknown_bucket:" +:+ ba_bucket_id amt)).

(** One iteration of the admission check of [reserve]. *)
Definition check_amount (now : Z) (route_id purpose : string) (probe : bool)
    (amt : BucketAmount) : M Ledger () :=
  cfg ← gets config;
  effective ← with_bucket (ba_bucket_id amt) (_effective_remaining now);
  match effective with
  | None =>
    raise_if (negb (probe && allow_unknown_probe cfg
                    && bool_decide (route_id ∈ verified_no_charge_routes cfg)))
      (UnknownChargeDeniedError
        ("unknown_quota:" +:+ ba_bucket_id amt +:+ ":" +:+ QuotaDimension.value (ba_dimension amt)))
  | Some effective =>
    if effective <? ba_amount amt then
      if effective =? 0 then
        raise (QuotaExhaustedError ("zero_remaining:" +:+ ba_bucket_id amt +:+ ":"
          +:+ QuotaDimension.value (ba_dimension amt)))
      else
        raise (QuotaExhaustedError ("insufficient:" +:+ ba_bucket_id amt +:+ ":"
          +:+ QuotaDimension.value (ba_dimension amt) +:+ ":need=" +:+ pretty (ba_amount amt)
          +:+ ":have=" +:+ pretty effective))
    else
      raise_if (bool_decide (ba_bucket_id amt = planning_reserve_bucket_id cfg)
                && negb (control_purpose purpose)
                && (effective - ba_amount amt <? planning_review_reserve cfg))
        (QuotaExhaustedError ("control_reserve_protected:" +:+ ba_bucket_id amt
          +:+ ":floor=" +:+ pretty (planning_review_reserve cfg)))
  end.

(** One iteration of the commit loop of [reserve]. *)
Definition commit_amount (amt : BucketAmount) : M Ledger () :=
  with_bucket (ba_bucket_id amt)
    (modify (λ live, match remaining (model live) with
                     | Some _ => live <| reserved := reserved live + ba_amount amt |>
                     | None => live
                     end)).

Definition reserve (now : Z) (amounts : list BucketAmount) (route_id purpose : string)
    (probe : bool) : M Ledger (list BucketAmount) :=
  raise_if (bool_decide (amounts = [])) (QuotaExhaustedError "no quota buckets to reserve");;
  let ordered := merge_amounts amounts in
  for_each preflight ordered;;
  for_each (check_amount now route_id purpose probe) ordered;;
  for_each commit_amount ordered;;
  mret ordered.

Definition release_amount (amt : BucketAmount) : M Ledger () :=
  s ← get_state;
  match buckets s !! ba_bucket_id amt with
  | None => mret ()
  | Some live =>
    put_state (s <| buckets := <[ba_bucket_id amt :=
      live <| reserved := Z.max 0 (reserved live - ba_amount amt) |>]> (buckets s) |>)
  end.

Definition release (amounts : list BucketAmount) : M Ledger () :=
  for_each release_amount (sort_by by_bucket_id amounts).

Definition usage := list (QuotaDimension * Z).

Definition usage_get (u : usage) (d : QuotaDimension) : option Z :=
  (λ p, p.2.2) <$> list_find (λ p, p.1 = d) u.

(** [charge]: the amount, or the observed usage of its dimension capped by it. *)
Definition charge_of (actual_usage : option usage) (amt : BucketAmount) : Z :=
  match actual_usage with
  | Some u => match usage_get u (ba_dimension amt) with
              | Some observed => Z.min (ba_amount amt) (Z.max 0 observed)
              | None => ba_amount amt
              end
  | None => ba_amount amt
  end.

Definition settle_bucket (now charge amount : Z) (live : LiveBucket) : LiveBucket :=
  live <| model := (model live)
            <| remaining := (λ r, Z.max 0 (r - charge)) <$> remaining (model live) |>
            <| version := version (model live) + 1 |> <| observed_at := utc now |> |>
       <| reserved := Z.max 0 (reserved live - amount) |>
       <| settled := settled live + charge |>.

Definition settle_amount (actual_usage : option usage) (now_amt : Z * BucketAmount) : M Ledger () :=
  let '(now, amt) := now_amt in
  s ← get_state;
  match buckets s !! ba_bucket_id amt with
  | None => mret ()
  | Some live =>
    put_state (s <| buckets := <[ba_bucket_id amt :=
      settle_bucket now (charge_of actual_usage amt) (ba_amount amt) live]> (buckets s) |>)
  end.

(** The clock is read once per settled bucket: [clock i] is its [i]-th reading. *)
Definition settle (clock : nat → Z) (amounts : list BucketAmount) (settlement_key : string)
    (actual_usage : option usage) : M Ledger () :=
  keys ← gets settled_keys;
  raise_if (bool_decide (settlement_key ∈ keys)) (DuplicateSettlementError settlement_key);;
  let ordered := sort_by by_bucket_id amounts in
  for_each (settle_amount actual_usage) (zip (clock <$> seq 0 (length ordered)) ordered);;
  modify (λ s, s <| settled_keys := {[settlement_key]} ∪ settled_keys s |>).

Record Bottleneck := mkBottleneck {
  bn_bucket_id : string;
  bn_dimension : string;
  bn_remaining : option Z;
  bn_requested : option Z;
  bn_reason : string
}.

Fixpoint bottleneck_loop (now : Z) (worst : option Bottleneck) (worst_ratio : float)
    (amounts : list BucketAmount) : M Ledger (option Bottleneck) :=
  match amounts with
  | [] => mret worst
  | amt :: rest =>
    let dim := QuotaDimension.value (ba_dimension amt) in
    s ← get_state;
    match buckets s !! ba_bucket_id amt with
    | None => mret (Some (mkBottleneck (ba_bucket_id amt) dim None None "missing_bucket"))
    | Some _ =>
      effective ← with_bucket (ba_bucket_id amt) (_effective_remaining now);
      match effective with
      | None => mret (Some (mkBottleneck (ba_bucket_id amt) dim None None "unknown"))
      | Some effective =>
        if ba_amount amt <=? 0 then bottleneck_loop now worst worst_ratio rest
        else
          let ratio := truediv effective (ba_amount amt) in
          if fltb ratio worst_ratio then
            bottleneck_loop now
              (Some (mkBottleneck (ba_bucket_id amt) dim (Some effective) (Some (ba_amount amt))
                       (if effective =? 0 then "zero" else "tight"))) ratio rest
          else bottleneck_loop now worst worst_ratio rest
      end
    end
  end.

Definition bottleneck (now : Z) (amounts : list BucketAmount) : M Ledger (option Bottleneck) :=
  bottleneck_loop now None f_2 amounts.

(** ** Merging: one entry per bucket, sorted, amounts added up *)
Definition amount_in (id : string) (l : list BucketAmount) : Z :=
  sum_by (λ a, if decide (ba_bucket_id a = id) then ba_amount a else 0) l.

Definition keyed (d : dict BucketAmount) : Prop := ∀ k a, (k, a) ∈ d → ba_bucket_id a = k.

Lemma by_bucket_id_total a b : by_bucket_id a b = true ∨ by_bucket_id b a = true.
Proof. apply str_leb_total. Qed.

Lemma by_bucket_id_trans a b c :
  by_bucket_id a b = true → by_bucket_id b c = true → by_bucket_id a c = true.
Proof. apply str_leb_trans. Qed.

Lemma merge_one_keyed d a : keyed d → keyed (merge_one d a).
Proof.
  intros Hd k b. unfold merge_one.
  destruct (dict_get d (ba_bucket_id a)); intros [[-> ->]|Hin]%dict_elem_set; auto.
Qed.

Lemma merge_one_nodup d a : NoDup (dict_keys d) → NoDup (dict_keys (merge_one d a)).
Proof. unfold merge_one. destruct (dict_get d _); auto with swarm. Qed.

Lemma fold_merge_keyed l d : keyed d → keyed (foldl merge_one d l).
Proof. revert d; induction l; simpl; auto using merge_one_keyed. Qed.

Lemma fold_merge_nodup l d : NoDup (dict_keys d) → NoDup (dict_keys (foldl merge_one d l)).
Proof. revert d; induction l; simpl; auto using merge_one_nodup. Qed.

Lemma keyed_ids d : keyed d → ba_bucket_id <$> dict_values d = dict_keys d.
Proof.
  unfold dict_values, dict_keys. induction d as [|[k a] d IH]; intros Hd; csimpl; [done|].
  rewrite IH by (intros k' a' Hin; apply Hd; by right).
  f_equal. apply Hd. by left.
Qed.

Lemma amount_in_set d k v id :
  keyed d → NoDup (dict_keys d) → ba_bucket_id v = k →
  amount_in id (dict_values (dict_set d k v))
  = amount_in id (dict_values d)
    + (if decide (k = id) then ba_amount v - default 0 (ba_amount <$> dict_get d k) else 0).
Proof.
  unfold amount_in, dict_values.
  induction d as [|[k2 v2] d IH]; intros Hd Hnd Hv; csimpl.
  { repeat (case_decide; simplify_eq); simpl; lia. }
  assert (ba_bucket_id v2 = k2) by (apply Hd; by left).
  inversion Hnd as [|? ? Hk2 Hnd']; subst.
  destruct (decide (ba_bucket_id v = ba_bucket_id v2)) as [Hk|Hk]; csimpl.
  - repeat case_decide; simpl; try congruence; lia.
  - rewrite IH; [|intros k' a' Hin; apply Hd; by right|done|done].
    repeat case_decide; try congruence; lia.
Qed.

Lemma fold_merge_amount_in l d id :
  keyed d → NoDup (dict_keys d) →
  amount_in id (dict_values (foldl merge_one d l)) = amount_in id (dict_values d) + amount_in id l.
Proof.
  revert d; induction l as [|a l IH]; intros d Hd Hnd; simpl.
  { unfold amount_in at 3; simpl; lia. }
  rewrite IH by auto using merge_one_keyed, merge_one_nodup.
  unfold merge_one. destruct (dict_get d (ba_bucket_id a)) as [p|] eqn:Hp;
    rewrite amount_in_set by done; rewrite Hp; unfold amount_in; simpl;
    repeat case_decide; try congruence; lia.
Qed.

Lemma merge_amounts_perm l :
  merge_amounts l ≡ₚ dict_values (foldl merge_one [] (sort_by by_bucket_id l)).
Proof. apply sort_by_perm. Qed.

Lemma merge_amounts_total l id : amount_in id (merge_amounts l) = amount_in id l.
Proof.
  unfold amount_in at 1. rewrite merge_amounts_perm. fold (amount_in id).
  change (amount_in id (dict_values (foldl merge_one [] (sort_by by_bucket_id l)))
          = amount_in id l).
  rewrite fold_merge_amount_in; [|by intros ? ? ?%elem_of_nil|constructor].
  unfold amount_in. simpl. by rewrite sort_by_perm.
Qed.

Lemma merge_amounts_nodup l : NoDup (ba_bucket_id <$> merge_amounts l).
Proof.
  rewrite merge_amounts_perm, keyed_ids.
  - apply fold_merge_nodup. constructor.
  - apply fold_merge_keyed. by intros ? ? ?%elem_of_nil.
Qed.

Lemma merge_amounts_sorted l :
  StronglySorted (λ a b, by_bucket_id a b = true) (merge_amounts l).
Proof. apply sort_by_sorted; [apply by_bucket_id_total|apply by_bucket_id_trans]. Qed.
