(* ===== verification/LedgerProps.v ===== *)
(** * LedgerProps: what the quota ledger guarantees

    The lemmas describe the loops of [reserve], [release] and [settle] bucket by
    bucket; the theorems state the well-formedness invariant of every operation, the
    all-or-nothing behaviour of [reserve], the protected floor of the control bucket
    and, over traces that return each granted reservation at most once, that the
    reservations outstanding never exceed what a bucket has left and that charges
    add up to exactly what left the bucket. *)
From S2P Require Import Prelude Collections Contracts PyFloat Ledger.
Open Scope Z_scope.

(** ** Vocabulary *)

(** The bucket after the window reset that is due at [now], if any. *)
Definition reset_of (now : Z) (live : LiveBucket) : LiveBucket := (_maybe_reset now live).2.

Definition effective_of (live : LiveBucket) : option Z :=
  (λ r, Z.max 0 (r - reserved live)) <$> remaining (model live).

(** What [reserve] demands of a bucket (after its reset) before it commits. *)
Definition admits (cfg : LedgerConfig) (route_id purpose : string) (probe : bool)
    (amt : BucketAmount) (live : LiveBucket) : Prop :=
  match effective_of live with
  | None => probe = true ∧ allow_unknown_probe cfg = true
            ∧ route_id ∈ verified_no_charge_routes cfg
  | Some e => ba_amount amt <= e
              ∧ (ba_bucket_id amt = planning_reserve_bucket_id cfg →
                 control_purpose purpose = false →
                 planning_review_reserve cfg <= e - ba_amount amt)
  end.

Definition commit_live (amt : BucketAmount) (live : LiveBucket) : LiveBucket :=
  match remaining (model live) with
  | Some _ => live <| reserved := reserved live + ba_amount amt |>
  | None => live
  end.

Definition release_live (amt : BucketAmount) (live : LiveBucket) : LiveBucket :=
  live <| reserved := Z.max 0 (reserved live - ba_amount amt) |>.

(** The invariant of a bucket: reservations are non-negative and covered. *)
Definition wf_live (live : LiveBucket) : Prop :=
  0 <= reserved live
  ∧ (∀ r, remaining (model live) = Some r → reserved live <= r)
  ∧ (∀ lim, limit (model live) = Some lim → 0 <= lim).

Definition wf (s : Ledger) : Prop := ∀ id live, buckets s !! id = Some live → wf_live live.

Definition nonneg (amounts : list BucketAmount) : Prop := ∀ a, a ∈ amounts → 0 <= ba_amount a.

Abbreviation ids l := (ba_bucket_id <$> l).

(** ** Bucket-wise loops *)
Section bucket_loops.
Context {A : Type} (key : A → string) (f : A → LiveBucket → LiveBucket).

Definition update_bucket (s : Ledger) (a : A) : Ledger :=
  s <| buckets := alter (f a) (key a) (buckets s) |>.

Lemma fold_update_frame l s :
  config (foldl update_bucket s l) = config s
  ∧ settled_keys (foldl update_bucket s l) = settled_keys s.
Proof. revert s; induction l as [|a l IH]; intros s; simpl; [done|]. apply (IH (update_bucket s a)). Qed.

Lemma fold_update_other l s id :
  id ∉ key <$> l → buckets (foldl update_bucket s l) !! id = buckets s !! id.
Proof.
  revert s; induction l as [|a l IH]; intros s Hid; csimpl in *; [done|].
  apply not_elem_of_cons in Hid as [Hne Hid]. rewrite IH by done. simpl.
  by rewrite lookup_alter_ne.
Qed.

Lemma fold_update_lookup l s a :
  NoDup (key <$> l) → a ∈ l →
  buckets (foldl update_bucket s l) !! key a = f a <$> buckets s !! key a.
Proof.
  revert s; induction l as [|b l IH]; intros s; csimpl; [by inversion 2|].
  intros [Hb Hnd]%NoDup_cons [->|Ha]%elem_of_cons.
  - rewrite fold_update_other by done. simpl. apply lookup_alter_eq.
  - rewrite IH by done. simpl. rewrite lookup_alter_ne; [done|].
    intros Heq. apply Hb. rewrite Heq. by apply list_elem_of_fmap_2.
Qed.
End bucket_loops.

Lemma elem_of_ids id (l : list BucketAmount) :
  id ∈ ids l → ∃ a, a ∈ l ∧ ba_bucket_id a = id.
Proof. intros (a & -> & Ha)%list_elem_of_fmap. eauto. Qed.

(** ** The reset *)
Lemma reset_of_static now live :
  limit (model (reset_of now live)) = limit (model live)
  ∧ window_type (model (reset_of now live)) = window_type (model live)
  ∧ settled (reset_of now live) = settled live
  ∧ (is_Some (remaining (model live)) → is_Some (remaining (model (reset_of now live)))).
Proof.
  unfold reset_of, _maybe_reset, mbind, M_bind, get_state, put_state, modify, of_result, dt_sub.
  simpl. repeat (case_match; simpl); simplify_eq; eauto.
Qed.

Lemma reset_of_wf now live : wf_live live → wf_live (reset_of now live).
Proof.
  intros (H1 & H2 & H3). unfold wf_live.
  unfold reset_of, _maybe_reset, mbind, M_bind, get_state, put_state, modify, of_result, dt_sub.
  simpl. repeat (case_match; simpl in *; simplify_eq);
    repeat split; intros; simplify_eq; eauto with lia.
Qed.

(** A bucket that can never be reset by the clock. *)
Definition no_window (live : LiveBucket) : Prop :=
  reset_at (model live) = None ∨ limit (model live) = None
  ∨ (window_type (model live) ≠ WindowType.FIXED ∧ window_type (model live) ≠ WindowType.ROLLING).

Lemma no_window_maybe_reset now live :
  no_window live → _maybe_reset now live = (Ok (), live).
Proof.
  unfold no_window, _maybe_reset, mbind, M_bind, get_state. simpl.
  intros [->|[->|[H1 H2]]]; [done| |].
  - repeat case_match; simplify_eq; done.
  - repeat case_match; simplify_eq; done.
Qed.

Lemma no_window_reset_of now live : no_window live → reset_of now live = live.
Proof. intros H. unfold reset_of. by rewrite no_window_maybe_reset. Qed.

Lemma effective_remaining_run now live :
  (_effective_remaining now live).2 = reset_of now live
  ∧ (∀ o, (_effective_remaining now live).1 = Ok o → o = effective_of (reset_of now live)).
Proof.
  unfold _effective_remaining, reset_of, effective_of, mbind, M_bind, get_state, mret, M_ret.
  destruct (_maybe_reset now live) as [[[]|e] live']; simpl; [|done].
  split; [done|]. intros o [= <-]. by destruct (remaining (model live')).
Qed.

(** ** [reserve] *)
Lemma check_amount_run now route_id purpose probe amt s r s' :
  check_amount now route_id purpose probe amt s = (r, s') →
  (s' = s ∨ ∃ live, buckets s !! ba_bucket_id amt = Some live
     ∧ s' = s <| buckets := <[ba_bucket_id amt := reset_of now live]> (buckets s) |>)
  ∧ (∀ u, r = Ok u → ∃ live, buckets s !! ba_bucket_id amt = Some live
     ∧ s' = s <| buckets := <[ba_bucket_id amt := reset_of now live]> (buckets s) |>
     ∧ admits (config s) route_id purpose probe amt (reset_of now live)).
Proof.
  unfold check_amount, with_bucket, gets, admits. unfold mbind at 1, M_bind at 1.
  unfold mbind at 1, M_bind at 1.
  destruct (buckets s !! ba_bucket_id amt) as [live|] eqn:Hlive;
    [|intros ?; simplify_eq; split; [by left|done]].
  pose proof (effective_remaining_run now live) as [Hst Hval].
  destruct (_effective_remaining now live) as [[o|e] live'] eqn:Hrun; simpl in *; subst live'.
  2: { intros ?; simplify_eq. split; [right; by eexists|done]. }
  specialize (Hval o eq_refl).
  assert (∀ m : M Ledger (), (∀ t, (m t).2 = t) →
    m (s <| buckets := <[ba_bucket_id amt := reset_of now live]> (buckets s) |>) = (r, s') →
    s' = s <| buckets := <[ba_bucket_id amt := reset_of now live]> (buckets s) |>) as Hpure.
  { intros m Hm Hr. by rewrite <- (Hm (s <| buckets := _ |>)), Hr. }
  intros Hr. assert (s' = s <| buckets := <[ba_bucket_id amt := reset_of now live]> (buckets s) |>)
    as ->.
  { eapply Hpure; [|exact Hr]. intros t. unfold raise_if, raise, mret, M_ret.
    by repeat case_match. }
  split; [right; by eexists|]. intros u ->. exists live. split_and!; [done..|].
  rewrite <- Hval. destruct o as [e|]; [destruct (e <? ba_amount amt) eqn:Hlt|].
  - destruct (e =? 0); by apply raise_Ok in Hr.
  - apply raise_if_Ok in Hr as [Hr _]. bool_to_prop. split; [lia|]. intros Hid Hp.
    rewrite Hp in Hr. rewrite bool_decide_true in Hr by done. simpl in Hr. bool_to_prop. lia.
  - apply raise_if_Ok in Hr as [Hr _]. by bool_to_prop.
Qed.

Lemma check_loop_run now route_id purpose probe l s r s' :
  NoDup (ids l) →
  for_each (check_amount now route_id purpose probe) l s = (r, s') →
  config s' = config s ∧ settled_keys s' = settled_keys s
  ∧ (∀ id, id ∉ ids l → buckets s' !! id = buckets s !! id)
  ∧ (∀ id, buckets s' !! id = buckets s !! id
           ∨ buckets s' !! id = reset_of now <$> buckets s !! id)
  ∧ (∀ u, r = Ok u → ∀ a, a ∈ l → ∃ live, buckets s !! ba_bucket_id a = Some live
       ∧ buckets s' !! ba_bucket_id a = Some (reset_of now live)
       ∧ admits (config s) route_id purpose probe a (reset_of now live)).
Proof.
  revert s; induction l as [|a l IH]; intros s; csimpl; intros Hnd.
  { unfold mret, M_ret. intros ?; simplify_eq. split_and!; try done; [intros id; by left|by intros ? _ ? ?%elem_of_nil]. }
  apply NoDup_cons in Hnd as [Ha Hnd].
  unfold mbind, M_bind. destruct (check_amount _ _ _ _ a s) as [ra s1] eqn:Hc.
  apply check_amount_run in Hc as [Hst Hok].
  assert (config s1 = config s ∧ settled_keys s1 = settled_keys s
    ∧ (∀ id, id ≠ ba_bucket_id a → buckets s1 !! id = buckets s !! id)
    ∧ (buckets s1 !! ba_bucket_id a = buckets s !! ba_bucket_id a
       ∨ buckets s1 !! ba_bucket_id a = reset_of now <$> buckets s !! ba_bucket_id a))
    as (Hcfg & Hkeys & Hother & Hself).
  { destruct Hst as [->|(live & Hlive & ->)]; [by auto|]. simpl. split_and!; [done..| |].
    - intros id Hid. by rewrite lookup_insert_ne.
    - right. by rewrite Hlive, lookup_insert_eq. }
  destruct ra as [u|e].
  - intros Hl. destruct (IH s1 Hnd Hl) as (Hcfg' & Hkeys' & Hother' & Heach & Hall).
    rewrite Hcfg', Hkeys'. split_and!; [done|done| | |].
    + intros id [Hne Hid]%not_elem_of_cons. rewrite Hother' by done. auto.
    + intros id. destruct (decide (id = ba_bucket_id a)) as [->|Hne].
      * rewrite Hother' by done. done.
      * rewrite <- Hother by done. auto.
    + intros u' -> b [->|Hb]%elem_of_cons.
      * rewrite Hother' by done. destruct (Hok u eq_refl) as (live & Hlive & -> & Hadm).
        exists live. simpl. by rewrite lookup_insert_eq.
      * destruct (Hall u' eq_refl b Hb) as (live & Hlive & Hres & Hadm).
        rewrite Hcfg in Hadm. exists live. split_and!; [|done..].
        rewrite <- Hother; [done|]. intros Heq. apply Ha. rewrite <- Heq.
        by apply list_elem_of_fmap_2.
  - intros ?; simplify_eq. split_and!; [done|done| | |done].
    + intros id [Hne Hid]%not_elem_of_cons. auto.
    + intros id. destruct (decide (id = ba_bucket_id a)) as [->|Hne]; [done|]. left. auto.
Qed.

Lemma commit_loop_run l s :
  (∀ a, a ∈ l → is_Some (buckets s !! ba_bucket_id a)) →
  for_each commit_amount l s = (Ok (), foldl (update_bucket ba_bucket_id commit_live) s l).
Proof.
  revert s; induction l as [|a l IH]; intros s Hin; [done|]. csimpl.
  destruct (Hin a (list_elem_of_here a l)) as [live Hlive].
  unfold mbind, M_bind, commit_amount, with_bucket, modify. rewrite Hlive.
  assert (alter (commit_live a) (ba_bucket_id a) (buckets s)
          = <[ba_bucket_id a := commit_live a live]> (buckets s)) as Halter.
  { apply map_eq. intros i. destruct (decide (ba_bucket_id a = i)) as [<-|Hne].
    - by rewrite lookup_alter_eq, lookup_insert_eq, Hlive.
    - by rewrite lookup_alter_ne, lookup_insert_ne. }
  unfold commit_live in Halter. unfold update_bucket at 2. simpl in *.
  rewrite <- Halter. apply IH. intros b Hb. simpl.
  rewrite lookup_alter_is_Some. apply Hin. by right.
Qed.

Lemma preflight_loop_run l s :
  (for_each preflight l s).2 = s
  ∧ (∀ u, (for_each preflight l s).1 = Ok u → ∀ a, a ∈ l → is_Some (buckets s !! ba_bucket_id a)).
Proof.
  induction l as [|a l [IH1 IH2]]; simpl; [split; [done|by intros _ _ ? ?%elem_of_nil]|].
  unfold mbind, M_bind.
  assert (preflight a s = if bool_decide (buckets s !! ba_bucket_id a = None)
    then (Err (QuotaExhaustedError ("unknown_bucket:" +:+ ba_bucket_id a)), s) else (Ok (), s))
    as -> by (unfold preflight, mbind, M_bind, get_state, raise_if; by case_match).
  case_bool_decide as Hn; simpl; [done|]. split; [done|].
  intros u Hu b [->|Hb]%elem_of_cons; [|by eapply IH2].
  destruct (buckets s !! ba_bucket_id a); [eauto|done].
Qed.

(** The two outcomes of [reserve], bucket by bucket. *)
Lemma reserve_Ok now amounts route_id purpose probe s got s' :
  reserve now amounts route_id purpose probe s = (Ok got, s') →
  got = merge_amounts amounts
  ∧ config s' = config s ∧ settled_keys s' = settled_keys s
  ∧ (∀ id, id ∉ ids got → buckets s' !! id = buckets s !! id)
  ∧ (∀ a, a ∈ got → ∃ live, buckets s !! ba_bucket_id a = Some live
       ∧ admits (config s) route_id purpose probe a (reset_of now live)
       ∧ buckets s' !! ba_bucket_id a = Some (commit_live a (reset_of now live))).
Proof.
  intros H. unfold reserve in H. run_inv.
  pose proof (merge_amounts_nodup amounts) as Hnd.
  set (l := merge_amounts amounts) in *.
  match goal with Hp : for_each preflight _ _ = _ |- _ =>
    pose proof (preflight_loop_run l s) as [Hp1 _]; rewrite Hp in Hp1; simpl in Hp1; subst end.
  match goal with Hc : for_each (check_amount _ _ _ _) _ _ = _ |- _ =>
    apply check_loop_run in Hc as (Hcfg & Hkeys & Hother & _ & Hall); [|done] end.
  specialize (Hall _ eq_refl).
  match goal with Hm : for_each commit_amount _ ?t = _ |- _ =>
    rewrite commit_loop_run in Hm;
    [|intros a Ha; destruct (Hall a Ha) as (? & ? & -> & _); eauto]; simplify_eq end.
  match goal with |- context [foldl _ ?t l] =>
    destruct (fold_update_frame ba_bucket_id commit_live l t) as [-> ->] end.
  split_and!; [done..| |].
  - intros id Hid. rewrite fold_update_other by done. auto.
  - intros a Ha. destruct (Hall a Ha) as (live & Hlive & Hres & Hadm).
    exists live. split_and!; [done..|]. rewrite fold_update_lookup by done. by rewrite Hres.
Qed.

Lemma reserve_Err now amounts route_id purpose probe s e s' :
  reserve now amounts route_id purpose probe s = (Err e, s') →
  config s' = config s ∧ settled_keys s' = settled_keys s
  ∧ (∀ id, buckets s' !! id = buckets s !! id
           ∨ buckets s' !! id = reset_of now <$> buckets s !! id).
Proof.
  intros H. unfold reserve in H. run_inv_err; try by auto.
  all: pose proof (merge_amounts_nodup amounts) as Hnd; set (l := merge_amounts amounts) in *.
  all: pose proof (preflight_loop_run l s) as [Hp1 _];
    match goal with Hp : for_each preflight _ _ = _ |- _ => rewrite Hp in Hp1 end;
    simpl in Hp1; subst; try by auto.
  all: match goal with Hc : for_each (check_amount _ _ _ _) _ _ = _ |- _ =>
    apply check_loop_run in Hc as (Hcfg & Hkeys & Hother & Heach & Hall); [|done] end; try by auto.
  match goal with Hm : for_each commit_amount _ ?t = _ |- _ =>
    rewrite commit_loop_run in Hm; [done|];
    intros a Ha; destruct (Hall _ eq_refl a Ha) as (? & ? & -> & _); eauto end.
Qed.

(** ** [release] and [settle] *)
Definition settle_live (u : option usage) (na : Z * BucketAmount) (live : LiveBucket) : LiveBucket :=
  settle_bucket na.1 (charge_of u na.2) (ba_amount na.2) live.

Abbreviation stamped clock l := (zip (clock <$> seq 0 (length l)) l).

Lemma zip_seq_snd {A} (clock : nat → Z) (l : list A) k :
  (zip (clock <$> seq k (length l)) l).*2 = l.
Proof. revert k; induction l as [|a l IH]; intros k; csimpl; [done|]. by rewrite IH. Qed.

Lemma update_missing {A} (key : A → string) f (s : Ledger) a :
  buckets s !! key a = None → update_bucket key f s a = s.
Proof.
  intros H. unfold update_bucket. simpl. rewrite alter_id' by done. by destruct s.
Qed.

Lemma update_present {A} (key : A → string) f (s : Ledger) a live :
  buckets s !! key a = Some live →
  update_bucket key f s a = s <| buckets := <[key a := f a live]> (buckets s) |>.
Proof.
  intros H. unfold update_bucket. simpl. f_equal. apply map_eq. intros i.
  destruct (decide (key a = i)) as [<-|Hne].
  - by rewrite lookup_alter_eq, lookup_insert_eq, H.
  - by rewrite lookup_alter_ne, lookup_insert_ne.
Qed.

Lemma release_run amounts s :
  release amounts s
  = (Ok (), foldl (update_bucket ba_bucket_id release_live) s (sort_by by_bucket_id amounts)).
Proof.
  apply (for_each_run _ (λ a s, update_bucket ba_bucket_id release_live s a)).
  intros a s1 _. unfold release_amount, mbind, M_bind, get_state, put_state, mret, M_ret.
  destruct (buckets s1 !! ba_bucket_id a) as [live|] eqn:Hlive.
  - by rewrite (update_present _ _ _ _ live).
  - by rewrite update_missing.
Qed.

Lemma settle_loop_run u l s :
  for_each (settle_amount u) l s
  = (Ok (), foldl (update_bucket (λ na, ba_bucket_id na.2) (settle_live u)) s l).
Proof.
  apply (for_each_run _ (λ a s, update_bucket (λ na, ba_bucket_id na.2) (settle_live u) s a)).
  intros [now a] s1 _. unfold settle_amount, mbind, M_bind, get_state, put_state, mret, M_ret.
  destruct (buckets s1 !! ba_bucket_id a) as [live|] eqn:Hlive.
  - by rewrite (update_present _ _ _ _ live).
  - by rewrite update_missing.
Qed.

Lemma settle_run clock amounts key u s :
  settle clock amounts key u s
  = if decide (key ∈ settled_keys s) then (Err (DuplicateSettlementError key), s)
    else let s1 := foldl (update_bucket (λ na, ba_bucket_id na.2) (settle_live u)) s
                     (stamped clock (sort_by by_bucket_id amounts)) in
         (Ok (), s1 <| settled_keys := {[key]} ∪ settled_keys s1 |>).
Proof.
  unfold settle, gets, mbind, M_bind, raise_if, raise, mret, M_ret. simpl.
  case_bool_decide as Hk; case_decide; try done. by rewrite settle_loop_run.
Qed.

Lemma fold_update_wf {A} (key : A → string) f l s :
  (∀ a live, a ∈ l → wf_live live → wf_live (f a live)) →
  wf s → wf (foldl (update_bucket key f) s l).
Proof.
  revert s; induction l as [|a l IH]; intros s Hf Hwf; simpl; [done|].
  apply IH; [intros b live Hb; apply Hf; by right|].
  intros id live. simpl. rewrite lookup_alter_Some.
  intros [(_ & old & Hold & ->)|[_ Hold]]; [|by eapply Hwf].
  apply Hf; [by left|]. by eapply Hwf.
Qed.

Lemma commit_live_wf amt live cfg route_id purpose probe :
  0 <= ba_amount amt → admits cfg route_id purpose probe amt live →
  wf_live live → wf_live (commit_live amt live).
Proof.
  unfold admits, effective_of, commit_live, wf_live. intros Ha Hadm (H1 & H2 & H3).
  destruct (remaining (model live)) as [r|] eqn:Hr; simpl in *; [|by rewrite Hr].
  specialize (H2 r eq_refl). split_and!; [lia| |done].
  intros r' Hr'. rewrite Hr in Hr'. simplify_eq. destruct Hadm as [Hadm _]. lia.
Qed.

Lemma release_live_wf amt live : 0 <= ba_amount amt → wf_live live → wf_live (release_live amt live).
Proof.
  unfold release_live, wf_live. simpl. intros Ha (H1 & H2 & H3). split_and!; [lia| |done].
  intros r Hr. specialize (H2 r Hr). lia.
Qed.

Lemma charge_bounds u a : 0 <= ba_amount a → 0 <= charge_of u a <= ba_amount a.
Proof. unfold charge_of. intros. repeat case_match; lia. Qed.

Lemma settle_live_wf u na live :
  0 <= ba_amount na.2 → wf_live live → wf_live (settle_live u na live).
Proof.
  unfold settle_live, settle_bucket, wf_live. simpl. intros Ha (H1 & H2 & H3).
  pose proof (charge_bounds u na.2 Ha). split_and!; [lia| |done].
  intros r (r0 & Hr & ->)%fmap_Some. specialize (H2 r0 Hr). lia.
Qed.

Lemma stamped_nonneg clock l (na : Z * BucketAmount) :
  nonneg l → na ∈ stamped clock (sort_by by_bucket_id l) → 0 <= ba_amount na.2.
Proof.
  intros Hl Hna. apply Hl. rewrite <- (elem_of_sort_by by_bucket_id).
  rewrite <- (zip_seq_snd clock _ 0). by apply list_elem_of_fmap_2.
Qed.

Lemma amount_in_nonneg id l : nonneg l → 0 <= amount_in id l.
Proof.
  intros Hl. apply sum_by_nonneg. intros a Ha. case_decide; [by apply Hl|lia].
Qed.

Lemma amount_in_absent id l : id ∉ ids l → amount_in id l = 0.
Proof.
  intros Hid. apply sum_by_zero. intros a Ha. rewrite decide_False; [done|].
  intros <-. by apply Hid, list_elem_of_fmap_2.
Qed.

Lemma amount_in_elem l a : NoDup (ids l) → a ∈ l → amount_in (ba_bucket_id a) l = ba_amount a.
Proof.
  induction l as [|b l IH]; csimpl; [by intros _ ?%elem_of_nil|].
  intros [Hb Hnd]%NoDup_cons [->|Ha]%elem_of_cons; unfold amount_in; simpl.
  - rewrite decide_True by done. fold (amount_in (ba_bucket_id b) l).
    rewrite amount_in_absent by done. lia.
  - rewrite decide_False; [rewrite Z.add_0_l; by apply IH|].
    intros Heq. apply Hb. rewrite Heq. by apply list_elem_of_fmap_2.
Qed.

Lemma amount_in_merged l a : a ∈ merge_amounts l → amount_in (ba_bucket_id a) l = ba_amount a.
Proof.
  intros Ha. rewrite <- merge_amounts_total. apply amount_in_elem; [|done].
  apply merge_amounts_nodup.
Qed.

Lemma merge_nonneg l : nonneg l → nonneg (merge_amounts l).
Proof. intros Hl a Ha. rewrite <- (amount_in_merged l) by done. by apply amount_in_nonneg. Qed.

(** ** The invariant of every operation *)
Inductive op : Type :=
  | OpRegister (b : QuotaBucket)
  | OpReserve (now : Z) (amounts : list BucketAmount) (route_id purpose : string) (probe : bool)
  | OpRelease (amounts : list BucketAmount)
  | OpSettle (clock : nat → Z) (amounts : list BucketAmount) (key : string) (u : option usage)
  | OpBottleneck (now : Z) (amounts : list BucketAmount).

(** The ledger after an operation, whether it returned or raised. *)
Definition exec (o : op) (s : Ledger) : Ledger :=
  match o with
  | OpRegister b => register b s
  | OpReserve now amounts route_id purpose probe =>
    (reserve now amounts route_id purpose probe s).2
  | OpRelease amounts => (release amounts s).2
  | OpSettle clock amounts key u => (settle clock amounts key u s).2
  | OpBottleneck now amounts => (bottleneck now amounts s).2
  end.

Definition op_ok (o : op) : Prop :=
  match o with
  | OpRegister b => (∀ r, remaining b = Some r → 0 <= r) ∧ (∀ l, limit b = Some l → 0 <= l)
  | OpReserve _ amounts _ _ _ | OpRelease amounts | OpSettle _ amounts _ _ => nonneg amounts
  | OpBottleneck _ _ => True
  end.

Lemma bottleneck_loop_wf now worst ratio amounts s :
  wf s → wf (bottleneck_loop now worst ratio amounts s).2.
Proof.
  revert worst ratio s; induction amounts as [|a l IH]; intros worst ratio s Hwf; simpl; [done|].
  unfold mbind, M_bind, get_state. destruct (buckets s !! _) as [live|] eqn:Hl; [|done].
  unfold with_bucket. rewrite Hl.
  pose proof (effective_remaining_run now live) as [Hst _].
  destruct (_effective_remaining now live) as [ro live']; simpl in *; subst live'.
  assert (wf (s <| buckets := <[ba_bucket_id a := reset_of now live]> (buckets s) |>)) as Hwf'.
  { intros id live'. simpl. rewrite lookup_insert_Some.
    intros [[_ <-]|[_ Hid]]; [apply reset_of_wf; by eapply Hwf|by eapply Hwf]. }
  destruct ro as [[e|]|]; [|done|done]. repeat case_match; by apply IH.
Qed.

Lemma reserve_wf now amounts route_id purpose probe s :
  nonneg amounts → wf s → wf (reserve now amounts route_id purpose probe s).2.
Proof.
  intros Hn Hwf. destruct (reserve _ _ _ _ _ s) as [[got|e] s'] eqn:H; simpl; intros id live Hl.
  - apply reserve_Ok in H as (-> & _ & _ & Hother & Hall).
    destruct (decide (id ∈ ids (merge_amounts amounts))) as [(a & -> & Ha)%list_elem_of_fmap|Hid].
    + destruct (Hall a Ha) as (old & Hold & Hadm & Hnew). rewrite Hnew in Hl. simplify_eq.
      eapply commit_live_wf; [by apply (merge_nonneg amounts)|exact Hadm|].
      apply reset_of_wf. by eapply Hwf.
    + rewrite Hother in Hl by done. by eapply Hwf.
  - apply reserve_Err in H as (_ & _ & Heach). destruct (Heach id) as [Heq|Heq]; rewrite Heq in Hl.
    + by eapply Hwf.
    + apply fmap_Some in Hl as (old & Hold & ->). apply reset_of_wf. by eapply Hwf.
Qed.

(** every ledger operation keeps each bucket's reservations non-negative and within
    its remaining quota, whether the operation returns or raises and across window
    resets, for non-negative amounts and limits. *)
Theorem ledger_operations_keep_wf (o : op) (s : Ledger) : op_ok o → wf s → wf (exec o s).
Proof.
  destruct o as [b|now amounts route_id purpose probe|amounts|clock amounts key u|now amounts];
    simpl; intros Hok Hwf.
  - intros id live. simpl. rewrite lookup_insert_Some. intros [[_ <-]|[_ Hid]]; [|by eapply Hwf].
    destruct Hok as [Hr Hl]. by split_and!.
  - by apply reserve_wf.
  - rewrite release_run. apply fold_update_wf; [|done]. intros a live Ha.
    apply release_live_wf. apply Hok. by rewrite elem_of_sort_by in Ha.
  - rewrite settle_run. case_decide; simpl; [done|]. apply fold_update_wf; [|done].
    intros na live Hna. apply settle_live_wf. by eapply stamped_nonneg.
  - by apply bottleneck_loop_wf.
Qed.

(** C8: a refused reservation takes nothing: after an error every bucket is as it was or
    is as its own due window reset left it, and no settlement key appears. *)
Theorem reserve_refused_takes_nothing now amounts route_id purpose probe s e s' :
  reserve now amounts route_id purpose probe s = (Err e, s') →
  config s' = config s ∧ settled_keys s' = settled_keys s
  ∧ ∀ id, buckets s' !! id = buckets s !! id
          ∨ buckets s' !! id = reset_of now <$> buckets s !! id.
Proof. apply reserve_Err. Qed.

(** a granted reservation is the request merged to one entry per bucket in bucket-id
    order, with the amounts asked of a bucket added up; each named bucket exists, covers
    the total after its due reset, and has exactly that total added to its reservations
    (nothing when its remaining quota is unknown); other buckets are untouched. *)
Theorem reserve_granted_is_exact now amounts route_id purpose probe s got s' :
  reserve now amounts route_id purpose probe s = (Ok got, s') →
  StronglySorted (λ a b, by_bucket_id a b = true) got ∧ NoDup (ids got)
  ∧ (∀ a, a ∈ got → ba_amount a = amount_in (ba_bucket_id a) amounts)
  ∧ (∀ id, id ∉ ids got → buckets s' !! id = buckets s !! id)
  ∧ (∀ a, a ∈ got → ∃ live, buckets s !! ba_bucket_id a = Some live
       ∧ (∀ r, effective_of (reset_of now live) = Some r → ba_amount a <= r)
       ∧ buckets s' !! ba_bucket_id a = Some (commit_live a (reset_of now live))).
Proof.
  intros H. apply reserve_Ok in H as (-> & _ & _ & Hother & Hall).
  split_and!; [apply merge_amounts_sorted|apply merge_amounts_nodup| |done|].
  - intros a Ha. by rewrite (amount_in_merged amounts a Ha).
  - intros a Ha. destruct (Hall a Ha) as (live & Hlive & Hadm & Hnew).
    exists live. split_and!; [done| |done]. intros r Hr. unfold admits in Hadm.
    rewrite Hr in Hadm. by destruct Hadm.
Qed.

(** a mission cannot drain the control bucket: after a granted reservation whose
    purpose is not planning, review or control, the control bucket still has the
    configured reserve uncommitted. *)
Theorem control_reserve_is_protected now amounts route_id purpose probe s got s' a live r :
  reserve now amounts route_id purpose probe s = (Ok got, s') →
  control_purpose purpose = false →
  a ∈ got → ba_bucket_id a = planning_reserve_bucket_id (config s) → 0 < ba_amount a →
  buckets s' !! ba_bucket_id a = Some live → remaining (model live) = Some r →
  planning_review_reserve (config s) <= r - reserved live.
Proof.
  intros H Hp Ha Hid Hpos Hl Hr.
  apply reserve_Ok in H as (-> & _ & _ & _ & Hall).
  destruct (Hall a Ha) as (old & _ & Hadm & Hnew). rewrite Hnew in Hl. simplify_eq.
  unfold admits, effective_of, commit_live in *.
  destruct (remaining (model (reset_of now old))) as [r0|] eqn:Hr0; simpl in *; [|congruence].
  simplify_eq. destruct Hadm as [H1 H2]. specialize (H2 Hid Hp). lia.
Qed.

(** settling a key a second time is refused and changes nothing. *)
Theorem settle_twice_is_refused clock1 clock2 amounts1 amounts2 key u1 u2 s s1 :
  settle clock1 amounts1 key u1 s = (Ok (), s1) →
  settle clock2 amounts2 key u2 s1 = (Err (DuplicateSettlementError key), s1).
Proof.
  rewrite !settle_run. case_decide; [done|]. intros [= <-].
  rewrite decide_True; [done|]. simpl. set_solver.
Qed.

(** ** Traces: reservations outstanding

    The state of a trace is the ledger with the list of reservations granted and not yet
    given back.  A reservation is released or settled with the amounts [reserve]
    returned, and then leaves the list; refused calls leave it alone. *)
Definition trace_state : Type := Ledger * list (list BucketAmount).

Inductive step : trace_state → trace_state → Prop :=
  | step_reserve now amounts route_id purpose probe s got s' out :
      nonneg amounts →
      reserve now amounts route_id purpose probe s = (Ok got, s') →
      step (s, out) (s', got :: out)
  | step_refused now amounts route_id purpose probe s e s' out :
      reserve now amounts route_id purpose probe s = (Err e, s') →
      step (s, out) (s', out)
  | step_release s got out out' :
      out ≡ₚ got :: out' →
      step (s, out) ((release got s).2, out')
  | step_settle clock key u s got s' out out' :
      out ≡ₚ got :: out' →
      settle clock got key u s = (Ok (), s') →
      step (s, out) (s', out').

Definition held (id : string) (out : list (list BucketAmount)) : Z := sum_by (amount_in id) out.

(** A ledger of buckets without windows in which nothing is reserved. *)
Definition fresh_ledger (s : Ledger) : Prop :=
  ∀ id live, buckets s !! id = Some live →
    no_window live ∧ reserved live = 0 ∧ (∀ r, remaining (model live) = Some r → 0 <= r).

(** The invariant of a trace.  [remaining + settled] is compared with the function
    [total] that gives each bucket's initial quota. *)
Definition covered (total : string → Z) (id : string) (live : LiveBucket)
    (out : list (list BucketAmount)) : Prop :=
  no_window live
  ∧ ∀ r, remaining (model live) = Some r →
      reserved live = held id out ∧ held id out <= r ∧ r + settled live = total id.

Record trace_inv (total : string → Z) (st : trace_state) : Prop := {
  inv_covered : ∀ id live, buckets st.1 !! id = Some live → covered total id live st.2;
  inv_nonneg : ∀ l, l ∈ st.2 → nonneg l;
  inv_nodup : ∀ l, l ∈ st.2 → NoDup (ids l);
  inv_present : ∀ l a, l ∈ st.2 → a ∈ l → is_Some (buckets st.1 !! ba_bucket_id a)
}.

Lemma held_nonneg id out : (∀ l, l ∈ out → nonneg l) → 0 <= held id out.
Proof. intros H. apply sum_by_nonneg. intros l Hl. by apply amount_in_nonneg, H. Qed.


Lemma held_perm id out got out' : out ≡ₚ got :: out' → held id out = amount_in id got + held id out'.
Proof. unfold held. intros ->. done. Qed.

Lemma covered_reserve total id live out got a :
  covered total id live out → ba_bucket_id a = id → a ∈ got → NoDup (ids got) →
  (∀ r, effective_of live = Some r → ba_amount a <= r) → 0 <= ba_amount a →
  0 <= held id out →
  covered total id (commit_live a live) (got :: out).
Proof.
  intros [Hnw Hc] <- Ha Hnd Hfit Hnn Hh. unfold commit_live, effective_of in *.
  destruct (remaining (model live)) as [r|] eqn:Hr; [|split; [done|intros r' ?; congruence]].
  specialize (Hc r eq_refl) as (H1 & H2 & H3). specialize (Hfit _ eq_refl).
  split; [done|]. simpl. intros r' Hr'. simplify_eq. unfold held; simpl.
  rewrite amount_in_elem by done. fold (held (ba_bucket_id a) out). lia.
Qed.

Lemma covered_drop total id live out got out' :
  covered total id live out → out ≡ₚ got :: out' → id ∉ ids got → covered total id live out'.
Proof.
  intros [Hnw Hc] Hp Hid. split; [done|]. intros r Hr.
  rewrite (held_perm id out got out') in Hc by done. rewrite amount_in_absent in Hc by done.
  by apply Hc.
Qed.

Lemma covered_release total live out got out' a :
  covered total (ba_bucket_id a) live out → out ≡ₚ got :: out' → a ∈ got → NoDup (ids got) →
  0 <= ba_amount a → 0 <= held (ba_bucket_id a) out' →
  covered total (ba_bucket_id a) (release_live a live) out'.
Proof.
  intros [Hnw Hc] Hp Ha Hnd Hnn Hh. split; [done|]. simpl. intros r Hr.
  rewrite (held_perm _ out got out'), amount_in_elem in Hc by done.
  destruct (Hc r Hr) as (H1 & H2 & H3). lia.
Qed.

Lemma covered_settle total live out got out' (na : Z * BucketAmount) u :
  covered total (ba_bucket_id na.2) live out → out ≡ₚ got :: out' → na.2 ∈ got →
  NoDup (ids got) → 0 <= ba_amount na.2 → 0 <= held (ba_bucket_id na.2) out' →
  covered total (ba_bucket_id na.2) (settle_live u na live) out'.
Proof.
  intros [Hnw Hc] Hp Ha Hnd Hnn Hh. split; [done|]. simpl.
  intros r (r0 & Hr & ->)%fmap_Some.
  rewrite (held_perm _ out got out'), amount_in_elem in Hc by done.
  destruct (Hc r0 Hr) as (H1 & H2 & H3). pose proof (charge_bounds u na.2 Hnn). lia.
Qed.

(** A fold that gives back [got] bucket by bucket keeps the invariant. *)
Lemma give_back_inv {A} (key : A → string) (amt : A → BucketAmount)
    (f : A → LiveBucket → LiveBucket) total s out got out' (l : list A) keys :
  (∀ a, key a = ba_bucket_id (amt a)) → amt <$> l ≡ₚ got → out ≡ₚ got :: out' →
  (∀ a live, a ∈ l → covered total (key a) live out → covered total (key a) (f a live) out') →
  trace_inv total (s, out) →
  trace_inv total ((foldl (update_bucket key f) s l) <| settled_keys := keys |>, out').
Proof.
  intros Hkey Hl Hp Hf [Hc Hn Hd Hpr]. simpl in *.
  assert (key <$> l ≡ₚ ids got) as Hkeys.
  { rewrite <- Hl, <- list_fmap_compose. apply reflexive_eq. apply list_fmap_ext. auto. }
  assert (∀ x, x ∈ out' → x ∈ out) as Hsub by (intros x; rewrite Hp; by right).
  split; simpl; [|by eauto..|].
  - intros id live Hlive.
    destruct (decide (id ∈ key <$> l)) as [(a & -> & Ha)%list_elem_of_fmap|Hid].
    + rewrite fold_update_lookup in Hlive; [|rewrite Hkeys; apply Hd; rewrite Hp; by left|done].
      apply fmap_Some in Hlive as (old & Hold & ->). apply Hf; [done|]. by apply Hc.
    + rewrite fold_update_other in Hlive by done.
      eapply covered_drop; [by apply Hc|done|]. by rewrite <- Hkeys.
  - intros l' a Hl' Ha. destruct (Hpr l' a (Hsub l' Hl') Ha) as [old Hold].
    destruct (decide (ba_bucket_id a ∈ key <$> l)) as [(b & Hb & Hbl)%list_elem_of_fmap|Hid].
    + rewrite Hb in *. rewrite fold_update_lookup, Hold; [by eauto| |done].
      rewrite Hkeys. apply Hd. rewrite Hp. by left.
    + rewrite fold_update_other by done. eauto.
Qed.

Lemma step_reserve_inv total s out now amounts route_id purpose probe got s' :
  nonneg amounts → reserve now amounts route_id purpose probe s = (Ok got, s') →
  trace_inv total (s, out) → trace_inv total (s', got :: out).
Proof.
  intros Hn H [Hc Hnn Hd Hpr]. simpl in *.
  apply reserve_Ok in H as (-> & _ & _ & Hother & Hall).
  pose proof (merge_nonneg amounts Hn) as Hmn. pose proof (merge_amounts_nodup amounts) as Hmd.
  split; simpl.
  - intros id live Hlive. destruct (decide (id ∈ ids (merge_amounts amounts)))
      as [(a & -> & Ha)%list_elem_of_fmap|Hid].
    + destruct (Hall a Ha) as (old & Hold & Hadm & Hnew). rewrite Hnew in Hlive. simplify_eq.
      destruct (Hc _ _ Hold) as [Hnw Hcov]. rewrite no_window_reset_of in * by done.
      apply covered_reserve; [by split|done|done|done| |by apply Hmn|by apply held_nonneg].
      intros r Hr. unfold admits in Hadm. rewrite Hr in Hadm. by destruct Hadm.
    + rewrite Hother in Hlive by done. destruct (Hc id live Hlive) as [Hnw Hcov].
      split; [done|]. intros r Hr. unfold held. simpl. rewrite amount_in_absent by done.
      fold (held id out). rewrite Z.add_0_l. by apply Hcov.
  - intros l [->|Hl]%elem_of_cons; auto.
  - intros l [->|Hl]%elem_of_cons; auto.
  - intros l a [->|Hl]%elem_of_cons Ha.
    + destruct (Hall a Ha) as (? & _ & _ & ->). eauto.
    + destruct (decide (ba_bucket_id a ∈ ids (merge_amounts amounts)))
        as [(b & -> & Hb)%list_elem_of_fmap|Hid].
      * destruct (Hall b Hb) as (? & _ & _ & ->). eauto.
      * rewrite Hother by done. by eapply Hpr.
Qed.

Lemma step_refused_inv total s out now amounts route_id purpose probe e s' :
  reserve now amounts route_id purpose probe s = (Err e, s') →
  trace_inv total (s, out) → trace_inv total (s', out).
Proof.
  intros H [Hc Hnn Hd Hpr]. simpl in *. apply reserve_Err in H as (_ & _ & Heach).
  assert (∀ id, buckets s' !! id = buckets s !! id) as Hsame.
  { intros id. destruct (Heach id) as [->| ->]; [done|].
    destruct (buckets s !! id) as [live|] eqn:Hl; [|done]. simpl. f_equal.
    apply no_window_reset_of. by apply (Hc id). }
  split; simpl; [|done..|].
  - intros id live. rewrite Hsame. apply Hc.
  - intros l a. rewrite Hsame. apply Hpr.
Qed.

Lemma sorted_stamped_perm (clock : nat → Z) (got : list BucketAmount) :
  (stamped clock (sort_by by_bucket_id got)).*2 ≡ₚ got.
Proof. rewrite zip_seq_snd. apply sort_by_perm. Qed.

Lemma step_trace_inv total st st' :
  step st st' → trace_inv total st → trace_inv total st'.
Proof.
  intros Hstep Hinv. destruct Hstep as
    [now amounts route_id purpose probe s got s' out Hn Hr
    |now amounts route_id purpose probe s e s' out Hr
    |s got out out' Hp |clock key u s got s' out out' Hp Hs].
  - by eapply step_reserve_inv.
  - by eapply step_refused_inv.
  - rewrite release_run. simpl.
    replace (foldl _ s _) with ((foldl (update_bucket ba_bucket_id release_live) s
      (sort_by by_bucket_id got)) <| settled_keys := settled_keys (foldl (update_bucket
      ba_bucket_id release_live) s (sort_by by_bucket_id got)) |>)
      by (by destruct (foldl _ s _)).
    apply (give_back_inv _ id) with (got := got) (out := out); [done| |done| |done].
    + rewrite list_fmap_id. apply sort_by_perm.
    + intros a live Ha Hc. rewrite elem_of_sort_by in Ha. destruct Hinv as [_ Hnn Hd _].
      assert (got ∈ out) by (rewrite Hp; by left).
      eapply covered_release; try done; [by apply Hd|by apply (Hnn got)|].
      apply held_nonneg. intros l Hl. apply Hnn. simpl. rewrite Hp. by right.
  - rewrite settle_run in Hs. case_decide; [done|]. injection Hs as <-.
    apply (give_back_inv _ snd) with (got := got) (out := out); [done| |done| |done].
    + apply sorted_stamped_perm.
    + intros na live Hna Hc. destruct Hinv as [_ Hnn Hd _].
      assert (got ∈ out) by (rewrite Hp; by left).
      assert (na.2 ∈ got) by
        (rewrite <- (sorted_stamped_perm clock); by apply list_elem_of_fmap_2).
      eapply covered_settle; try done; [by apply Hd|by apply (Hnn got)|].
      apply held_nonneg. intros l Hl. apply Hnn. simpl. rewrite Hp. by right.
Qed.

(** The quota a bucket starts with. *)
Definition quota_total (s : Ledger) (id : string) : Z :=
  match buckets s !! id with
  | Some live => default 0 (remaining (model live)) + settled live
  | None => 0
  end.

Lemma fresh_trace_inv s : fresh_ledger s → trace_inv (quota_total s) (s, []).
Proof.
  intros Hf. split; simpl; [|by intros ? ?%elem_of_nil..|by intros ? ? ?%elem_of_nil].
  intros id live Hl. destruct (Hf id live Hl) as (Hnw & Hr & Hpos). split; [done|].
  intros r Hrem. unfold quota_total, held. rewrite Hl, Hrem, Hr. simpl.
  specialize (Hpos r Hrem). lia.
Qed.

Lemma trace_inv_reachable s st :
  fresh_ledger s → rtc step (s, []) st → trace_inv (quota_total s) st.
Proof.
  intros Hf Hrtc. eapply rtc_invariant; [|exact Hrtc|by apply fresh_trace_inv].
  intros y z Hy Hyz. by eapply step_trace_inv.
Qed.

(** C7: the ledger never oversubscribes.  In every state reachable by granted, refused,
    released and settled reservations, each bucket's reserved counter is exactly the sum
    of the reservations still outstanding on it, and that sum fits its remaining quota:
    all of them can be honoured together. *)
Theorem ledger_never_oversubscribes s s' out id live r :
  fresh_ledger s → rtc step (s, []) (s', out) →
  buckets s' !! id = Some live → remaining (model live) = Some r →
  reserved live = held id out ∧ held id out <= r.
Proof.
  intros Hf Ht Hl Hr. apply trace_inv_reachable in Ht; [|done].
  destruct (inv_covered _ _ Ht id live Hl) as [_ Hc]. destruct (Hc r Hr) as (? & ? & _). done.
Qed.

(** quota is conserved.  In every reachable state what a bucket has left and what was
    charged to it add up to its initial quota, so the charges never exceed it. *)
Theorem ledger_charges_are_conserved s s' out id live r :
  fresh_ledger s → rtc step (s, []) (s', out) →
  buckets s' !! id = Some live → remaining (model live) = Some r →
  0 <= r ∧ r + settled live = quota_total s id.
Proof.
  intros Hf Ht Hl Hr. apply trace_inv_reachable in Ht; [|done].
  destruct (inv_covered _ _ Ht id live Hl) as [_ Hc]. destruct (Hc r Hr) as (_ & Hle & ->).
  split; [|done]. pose proof (held_nonneg id out (inv_nonneg _ _ Ht)). simpl in *. lia.
Qed.

(** ** Concrete ledgers: witnesses and the limits of the guarantees *)
Definition demo_bucket (id : string) (dim : QuotaDimension) (rem : option Z) : QuotaBucket :=
  mkQuotaBucket id "account" "acc" dim rem rem WindowType.LIFETIME None (utc 0) 1.

Definition demo : Ledger :=
  init None [demo_bucket "qb_requests" QuotaDimension.REQUESTS (Some 5);
             demo_bucket "qb_control_reserve" QuotaDimension.REQUESTS (Some 6);
             demo_bucket "qb_unknown" QuotaDimension.CREDIT None].

Definition ask (id : string) (n : Z) : BucketAmount := mkBucketAmount id QuotaDimension.REQUESTS n.

Lemma demo_lookup id live :
  buckets demo !! id = Some live →
  live = mkLiveBucket (demo_bucket "qb_requests" QuotaDimension.REQUESTS (Some 5)) 0 0
  ∨ live = mkLiveBucket (demo_bucket "qb_control_reserve" QuotaDimension.REQUESTS (Some 6)) 0 0
  ∨ live = mkLiveBucket (demo_bucket "qb_unknown" QuotaDimension.CREDIT None) 0 0.
Proof. unfold demo, init, register. simpl. rewrite !lookup_insert_Some, lookup_empty. naive_solver. Qed.

Lemma demo_wf : wf demo.
Proof.
  intros id live [->|[->| ->]]%demo_lookup; split_and!; simpl; intros; simplify_eq; lia.
Qed.

Lemma demo_fresh : fresh_ledger demo.
Proof.
  intros id live [->|[->| ->]]%demo_lookup; (split_and!; [by left|done|]); simpl;
    intros; simplify_eq; lia.
Qed.

Lemma ask_nonneg id n m : 0 <= n → 0 <= m → nonneg [ask id n; ask id m].
Proof. intros Hn Hm a [->|[->|?%elem_of_nil]%elem_of_cons]%elem_of_cons; done. Qed.

Lemma ledger_operations_keep_wf_witness :
  wf (exec (OpReserve 0 [ask "qb_requests" 2; ask "qb_requests" 1] "rt" "mission" false) demo).
Proof.
  apply (ledger_operations_keep_wf
    (OpReserve 0 [ask "qb_requests" 2; ask "qb_requests" 1] "rt" "mission" false) demo).
  - apply ask_nonneg; lia.
  - exact demo_wf.
Defined.

Lemma reserve_refused_takes_nothing_witness :
  (reserve 0 [ask "qb_requests" 4; ask "qb_requests" 2] "rt" "mission" false demo).1
    = Err (QuotaExhaustedError "insufficient:qb_requests:requests:need=6:have=5")
  ∧ settled_keys
      (reserve 0 [ask "qb_requests" 4; ask "qb_requests" 2] "rt" "mission" false demo).2 = ∅.
Proof.
  split; [vm_compute; reflexivity|].
  apply (reserve_refused_takes_nothing 0 [ask "qb_requests" 4; ask "qb_requests" 2]
    "rt" "mission" false demo
    (QuotaExhaustedError "insufficient:qb_requests:requests:need=6:have=5")).
  apply run_eq. vm_compute. reflexivity.
Defined.

Lemma reserve_granted_is_exact_witness :
  NoDup (ids [ask "qb_control_reserve" 1; ask "qb_requests" 3])
  ∧ (reserve 0 [ask "qb_requests" 2; ask "qb_control_reserve" 1; ask "qb_requests" 1]
       "rt" "mission" false demo).1
    = Ok [ask "qb_control_reserve" 1; ask "qb_requests" 3].
Proof.
  assert ((reserve 0 [ask "qb_requests" 2; ask "qb_control_reserve" 1; ask "qb_requests" 1]
       "rt" "mission" false demo).1 = Ok [ask "qb_control_reserve" 1; ask "qb_requests" 3])
    as H by (vm_compute; reflexivity).
  split; [|exact H].
  apply (reserve_granted_is_exact 0
    [ask "qb_requests" 2; ask "qb_control_reserve" 1; ask "qb_requests" 1] "rt" "mission" false
    demo _ _ (run_eq _ _ _ H)).
Defined.

Lemma control_reserve_is_protected_witness :
  ∃ live, buckets (reserve 0 [ask "qb_control_reserve" 4] "rt" "mission" false demo).2
            !! "qb_control_reserve" = Some live
          ∧ 2 <= 6 - reserved live.
Proof.
  assert ((reserve 0 [ask "qb_control_reserve" 4] "rt" "mission" false demo).1
          = Ok [ask "qb_control_reserve" 4]) as H by (vm_compute; reflexivity).
  eexists. split; [vm_compute; reflexivity|].
  apply (control_reserve_is_protected 0 [ask "qb_control_reserve" 4] "rt" "mission" false demo
    _ _ (ask "qb_control_reserve" 4) _ 6 (run_eq _ _ _ H));
    [reflexivity|by left|reflexivity|reflexivity|vm_compute; reflexivity|reflexivity].
Defined.

Lemma settle_twice_is_refused_witness :
  let s1 := (settle (λ _, 0) [ask "qb_requests" 1] "k" None demo).2 in
  settle (λ _, 1) [ask "qb_requests" 2] "k" None s1 = (Err (DuplicateSettlementError "k"), s1).
Proof.
  apply (settle_twice_is_refused (λ _, 0) (λ _, 1) [ask "qb_requests" 1] [ask "qb_requests" 2]
    "k" None None demo). apply run_eq. vm_compute. reflexivity.
Defined.

(** Two reservations are granted and the first one is settled with a smaller usage. *)
Definition demo1 : Ledger := (reserve 0 [ask "qb_requests" 2] "rt" "mission" false demo).2.
Definition demo2 : Ledger := (reserve 0 [ask "qb_requests" 3] "rt" "mission" false demo1).2.
Definition demo3 : Ledger :=
  (settle (λ _, 9) [ask "qb_requests" 2] "k1" (Some [(QuotaDimension.REQUESTS, 1)]) demo2).2.

Lemma demo_trace : rtc step (demo, []) (demo3, [[ask "qb_requests" 3]]).
Proof.
  eapply rtc_l; [eapply (step_reserve 0 [ask "qb_requests" 2] "rt" "mission" false demo
    [ask "qb_requests" 2] demo1); [by intros a [->|?%elem_of_nil]%elem_of_cons|]|].
  { apply run_eq. vm_compute. reflexivity. }
  eapply rtc_l; [eapply (step_reserve 0 [ask "qb_requests" 3] "rt" "mission" false demo1
    [ask "qb_requests" 3] demo2); [by intros a [->|?%elem_of_nil]%elem_of_cons|]|].
  { apply run_eq. vm_compute. reflexivity. }
  apply rtc_once. eapply (step_settle (λ _, 9) "k1" (Some [(QuotaDimension.REQUESTS, 1)]) demo2
    [ask "qb_requests" 2]).
  - apply Permutation_swap.
  - apply run_eq. vm_compute. reflexivity.
Qed.

Lemma ledger_never_oversubscribes_witness :
  ∃ live, buckets demo3 !! "qb_requests" = Some live
          ∧ reserved live = held "qb_requests" [[ask "qb_requests" 3]]
          ∧ held "qb_requests" [[ask "qb_requests" 3]] <= 4.
Proof.
  eexists. split; [vm_compute; reflexivity|].
  apply (ledger_never_oversubscribes demo demo3 [[ask "qb_requests" 3]] "qb_requests" _ 4
    demo_fresh demo_trace); vm_compute; reflexivity.
Defined.

Lemma ledger_charges_are_conserved_witness :
  ∃ live, buckets demo3 !! "qb_requests" = Some live
          ∧ 0 <= 4 ∧ 4 + settled live = quota_total demo "qb_requests".
Proof.
  eexists. split; [vm_compute; reflexivity|].
  apply (ledger_charges_are_conserved demo demo3 [[ask "qb_requests" 3]] "qb_requests" _ 4
    demo_fresh demo_trace); vm_compute; reflexivity.
Defined.

(** A window reset drops the reservations that are still outstanding: the call reserved
    in the old window and settled in the new one is charged to the new window and takes
    the new window's own reservation with it, so a granted reservation of 10 is
    outstanding on a bucket with nothing left. *)
Definition windowed : Ledger :=
  init None [mkQuotaBucket "qb_day" "account" "acc" QuotaDimension.REQUESTS (Some 10) (Some 10)
               WindowType.FIXED (Some (utc 100)) (utc 0) 1].

Theorem window_reset_drops_outstanding :
  let s1 := (reserve 50 [ask "qb_day" 10] "rt" "mission" false windowed).2 in
  let s2 := (reserve 150 [ask "qb_day" 10] "rt" "mission" false s1).2 in
  let s3 := (settle (λ _, 160) [ask "qb_day" 10] "call-1" None s2).2 in
  (reserve 50 [ask "qb_day" 10] "rt" "mission" false windowed).1 = Ok [ask "qb_day" 10]
  ∧ (reserve 150 [ask "qb_day" 10] "rt" "mission" false s1).1 = Ok [ask "qb_day" 10]
  ∧ ((λ live, (remaining (model live), reserved live)) <$> buckets s3 !! "qb_day")
    = Some (Some 0, 0).
Proof. vm_compute. done. Qed.

(** A fixed window whose reset time carries no timezone cannot be rolled over: the period
    is computed from the naive value, which raises [TypeError] after the reservations
    have already been cleared. *)
Definition naive_window : Ledger :=
  init None [mkQuotaBucket "qb_day" "account" "acc" QuotaDimension.REQUESTS (Some 10) (Some 4)
               WindowType.FIXED (Some (Datetime false 100)) (utc 0) 1].

Theorem naive_reset_raises :
  let s1 := (reserve 50 [ask "qb_day" 3] "rt" "mission" false naive_window).2 in
  let run := reserve 150 [ask "qb_day" 3] "rt" "mission" false s1 in
  run.1 = Err (TypeError "can't subtract offset-naive and offset-aware datetimes")
  ∧ (reserved <$> buckets s1 !! "qb_day") = Some 3
  ∧ (reserved <$> buckets run.2 !! "qb_day") = Some 0.
Proof. vm_compute. done. Qed.
