(* ===== verification/Circuit.v ===== *)
(** * Circuit: the circuit breaker (src/swarm/broker/circuit.py)

    [CircuitBreaker] is the breaker's configuration and its health observation per
    route; [health] inserts a fresh observation for a route seen for the first time, as
    [dict.setdefault] does, so reading a route's health is a state change too.  Clock
    readings are arguments. *)
From S2P Require Import Prelude Collections Contracts.
Open Scope Z_scope.

Record HealthObservation := mkHealth {
  successes : Z;
  failures : Z;
  auth_failures : Z;
  overloads : Z;
  unknown_outcomes : Z;
  consecutive_failures : Z;
  opened_at : option Z;
  last_error_class : option string;
  pricing_fresh_at : option Z;
  allowance_fresh_at : option Z
}.
#[export] Instance eta_HealthObservation : Eta HealthObservation := λ r,
  mkHealth (successes r) (failures r) (auth_failures r) (overloads r) (unknown_outcomes r)
    (consecutive_failures r) (opened_at r) (last_error_class r) (pricing_fresh_at r)
    (allowance_fresh_at r).

Definition new_health : HealthObservation := mkHealth 0 0 0 0 0 0 None None None None.

Record CircuitConfig := mkCircuitConfig {
  failure_threshold : Z;
  open_for : Z;
  half_open_probes : Z
}.
Definition default_circuit : CircuitConfig := mkCircuitConfig 3 (seconds 30) 1.

Record CircuitBreaker := mkCircuit {
  cb_config : CircuitConfig;
  cb_health : gmap string HealthObservation
}.
#[export] Instance eta_CircuitBreaker : Eta CircuitBreaker := λ r,
  mkCircuit (cb_config r) (cb_health r).

(** ** Operations *)
Definition health_of (route_id : string) (c : CircuitBreaker) : HealthObservation :=
  default new_health (cb_health c !! route_id).

Definition set_health (route_id : string) (obs : HealthObservation) (c : CircuitBreaker)
    : CircuitBreaker :=
  c <| cb_health := <[route_id := obs]> (cb_health c) |>.

Definition health (route_id : string) : M CircuitBreaker HealthObservation :=
  c ← get_state;
  put_state (set_health route_id (health_of route_id c) c);;
  mret (health_of route_id c).

Definition assert_closed (now : Z) (route_id : string) : M CircuitBreaker () :=
  obs ← health route_id;
  c ← get_state;
  match opened_at obs with
  | None => mret ()
  | Some opened =>
    raise_if (now - opened <? open_for (cb_config c))
      (CircuitOpenError ("circuit_open:" +:+ route_id));;
    modify (set_health route_id (obs <| opened_at := None |> <| consecutive_failures := 0 |>))
  end.

Definition record_success (now : Z) (route_id : string) : M CircuitBreaker () :=
  obs ← health route_id;
  modify (set_health route_id
    (obs <| successes := successes obs + 1 |> <| consecutive_failures := 0 |>
         <| opened_at := None |> <| allowance_fresh_at := Some now |>)).

(** The observation after an error of class [code]. *)
Definition after_error (cfg : CircuitConfig) (now : Z) (code : string) (obs : HealthObservation)
    : HealthObservation :=
  let obs := obs <| last_error_class := Some code |> <| failures := failures obs + 1 |> in
  if bool_decide (code = ErrorClass.value ErrorClass.AUTHENTICATION) then
    obs <| auth_failures := auth_failures obs + 1 |> <| opened_at := Some now |>
        <| consecutive_failures := consecutive_failures obs + 1 |>
  else
    let obs := if bool_decide (code = ErrorClass.value ErrorClass.RATE_LIMIT)
               then obs <| overloads := overloads obs + 1 |> else obs in
    let obs := if bool_decide (code = ErrorClass.value ErrorClass.UNKNOWN_OUTCOME)
               then obs <| unknown_outcomes := unknown_outcomes obs + 1 |> else obs in
    let obs := obs <| consecutive_failures := consecutive_failures obs + 1 |> in
    if failure_threshold cfg <=? consecutive_failures obs
    then obs <| opened_at := Some now |> else obs.

Definition record_error (now : Z) (route_id code : string) : M CircuitBreaker () :=
  obs ← health route_id;
  c ← get_state;
  modify (set_health route_id (after_error (cb_config c) now code obs)).

Definition mark_pricing_fresh (now : Z) (route_id : string) : M CircuitBreaker () :=
  obs ← health route_id;
  modify (set_health route_id (obs <| pricing_fresh_at := Some now |>)).

(** ** Runs *)
Lemma health_of_set route_id obs c route_id' :
  health_of route_id' (set_health route_id obs c)
  = if decide (route_id = route_id') then obs else health_of route_id' c.
Proof.
  unfold health_of, set_health. simpl. rewrite lookup_insert. by case_decide.
Qed.

Lemma set_health_twice route_id o1 o2 c :
  set_health route_id o1 (set_health route_id o2 c) = set_health route_id o1 c.
Proof. unfold set_health. simpl. by rewrite insert_insert_eq. Qed.

Lemma record_error_run now route_id code c :
  record_error now route_id code c
  = (Ok (), set_health route_id (after_error (cb_config c) now code (health_of route_id c)) c).
Proof.
  unfold record_error, health, mbind, M_bind, get_state, put_state, modify, mret, M_ret. simpl.
  by rewrite set_health_twice.
Qed.

Lemma record_success_run now route_id c :
  ∃ obs, record_success now route_id c = (Ok (), set_health route_id obs c)
    ∧ consecutive_failures obs = 0 ∧ opened_at obs = None.
Proof.
  eexists. unfold record_success, health, mbind, M_bind, get_state, put_state, modify, mret, M_ret.
  simpl. rewrite set_health_twice. done.
Qed.

Lemma assert_closed_run now route_id c :
  assert_closed now route_id c
  = match opened_at (health_of route_id c) with
    | None => (Ok (), set_health route_id (health_of route_id c) c)
    | Some opened =>
      if now - opened <? open_for (cb_config c)
      then (Err (CircuitOpenError ("circuit_open:" +:+ route_id)),
            set_health route_id (health_of route_id c) c)
      else (Ok (), set_health route_id ((health_of route_id c)
                     <| opened_at := None |> <| consecutive_failures := 0 |>) c)
    end.
Proof.
  unfold assert_closed, health, mbind, M_bind, get_state, put_state, modify, raise_if, raise,
    mret, M_ret. simpl.
  destruct (opened_at (health_of route_id c)) as [o|]; [|done].
  destruct (now - o <? open_for (cb_config c)); simpl; [done|]. by rewrite set_health_twice.
Qed.

(** A sequence of errors on one route: (clock reading, error class). *)
Definition record_errors (route_id : string) (evs : list (Z * string)) : M CircuitBreaker () :=
  for_each (λ ev, record_error ev.1 route_id ev.2) evs.

Lemma after_error_count cfg now code obs :
  consecutive_failures (after_error cfg now code obs) = consecutive_failures obs + 1.
Proof. unfold after_error. repeat case_match; done. Qed.

Lemma after_error_opens cfg now code obs :
  failure_threshold cfg <= consecutive_failures obs + 1 →
  opened_at (after_error cfg now code obs) = Some now.
Proof.
  intros H. unfold after_error. repeat case_match; simpl in *; try done; bool_to_prop; lia.
Qed.

Lemma record_errors_run route_id evs c :
  ∃ c', record_errors route_id evs c = (Ok (), c')
    ∧ cb_config c' = cb_config c
    ∧ consecutive_failures (health_of route_id c')
      = consecutive_failures (health_of route_id c) + Z.of_nat (length evs)
    ∧ ∀ route_id', route_id' ≠ route_id → health_of route_id' c' = health_of route_id' c.
Proof.
  revert c; induction evs as [|[t code] evs IH]; intros c.
  { exists c. simpl. split_and!; [done|done|lia|done]. }
  unfold record_errors. cbn [for_each fst snd]. erewrite bind_run by apply record_error_run.
  destruct (IH (set_health route_id (after_error (cb_config c) t code (health_of route_id c)) c))
    as (c' & Hrun & Hcfg & Hcnt & Hother).
  exists c'. unfold record_errors in Hrun. rewrite Hrun, Hcfg, Hcnt. split_and!; [done|done| |].
  - rewrite health_of_set, decide_True, after_error_count by done. cbn [length]. lia.
  - intros route_id' Hne. rewrite Hother, health_of_set, decide_False by done. done.
Qed.

Lemma record_errors_snoc route_id evs t code c :
  ∃ c1, record_errors route_id evs c = (Ok (), c1)
    ∧ record_errors route_id (evs ++ [(t, code)]) c
      = (Ok (), set_health route_id (after_error (cb_config c1) t code (health_of route_id c1)) c1).
Proof.
  revert c; induction evs as [|[t0 code0] evs IH]; intros c.
  { exists c. split; [done|]. unfold record_errors. cbn [for_each app fst snd].
    by erewrite bind_run by apply record_error_run. }
  unfold record_errors in *. cbn [for_each app fst snd].
  setoid_rewrite bind_run; [|apply record_error_run..]. apply IH.
Qed.

(** a route whose last [failure_threshold] or more outcomes were errors is closed to
    traffic: until [open_for] has passed since the last error [assert_closed] raises
    and changes nothing; once it has passed the route is admitted again with its
    failure count back at zero.  Other routes are not affected. *)
Theorem circuit_opens_after_threshold route_id evs t code now (c : CircuitBreaker) :
  0 <= consecutive_failures (health_of route_id c) →
  failure_threshold (cb_config c) <= Z.of_nat (length evs) + 1 →
  ∃ c', record_errors route_id (evs ++ [(t, code)]) c = (Ok (), c')
    ∧ (∀ route_id', route_id' ≠ route_id → health_of route_id' c' = health_of route_id' c)
    ∧ (now - t < open_for (cb_config c) →
       assert_closed now route_id c'
       = (Err (CircuitOpenError ("circuit_open:" +:+ route_id)), c'))
    ∧ (open_for (cb_config c) <= now - t →
       ∃ c'', assert_closed now route_id c' = (Ok (), c'')
         ∧ opened_at (health_of route_id c'') = None
         ∧ consecutive_failures (health_of route_id c'') = 0).
Proof.
  intros Hpos Hlen. destruct (record_errors_run route_id evs c) as (c1 & Hrun & Hcfg & Hcnt & Hoth).
  destruct (record_errors_snoc route_id evs t code c) as (c1' & Hrun' & Hlast).
  rewrite Hrun in Hrun'. injection Hrun' as <-.
  assert (opened_at (after_error (cb_config c1) t code (health_of route_id c1)) = Some t) as Hop.
  { apply after_error_opens. rewrite Hcfg, Hcnt. lia. }
  eexists. split_and!; [exact Hlast| | |].
  - intros r' Hne. rewrite health_of_set, decide_False by done. auto.
  - intros Hnow. rewrite assert_closed_run, health_of_set, decide_True by done.
    rewrite Hop. simpl. rewrite Hcfg. rewrite (proj2 (Z.ltb_lt _ _) Hnow).
    by rewrite set_health_twice.
  - intros Hnow. rewrite assert_closed_run, health_of_set, decide_True by done.
    rewrite Hop. simpl. rewrite Hcfg, (proj2 (Z.ltb_ge _ _) Hnow).
    eexists. split; [done|]. rewrite health_of_set, decide_True by done. done.
Qed.

Lemma circuit_opens_after_threshold_witness :
  ∃ c', record_errors "rt" [(1, "transient"); (2, "rate_limit"); (3, "transient")]
          (mkCircuit default_circuit ∅) = (Ok (), c')
    ∧ assert_closed 4 "rt" c' = (Err (CircuitOpenError "circuit_open:rt"), c').
Proof.
  destruct (circuit_opens_after_threshold "rt" [(1, "transient"); (2, "rate_limit")] 3 "transient"
    4 (mkCircuit default_circuit ∅)) as (c' & H1 & _ & H2 & _);
    [vm_compute; done|vm_compute; done|].
  exists c'. split; [exact H1|]. apply H2. vm_compute. done.
Defined.
