(* ===== verification/Policy.v ===== *)
(** * Policy: admission policy and retry decisions
    (src/swarm/broker/policy.py, src/swarm/broker/retry.py)

    [evaluate] is the admission decision of a route for a request, [assert_allowed] the
    exception it turns into; [decide] is the retry owner's decision after a failed
    attempt.  Python floats are binary64 values ([PyFloat]); [random.random()] is an
    argument. *)
From S2P Require Import Prelude Collections Contracts PyFloat.
Open Scope Z_scope.

Record RoutePolicyContext := mkRouteContext {
  cx_route : RouteSnapshot;
  cx_qualified : bool;
  cx_qualification_rationale : string;
  cx_privacy_ok : bool;
  cx_deprecated : bool;
  cx_billing_mode : BillingMode;
  cx_purpose_eligibility : PurposeEligibility;
  cx_charge_verified_free : bool
}.
#[export] Instance eta_RoutePolicyContext : Eta RoutePolicyContext := λ r,
  mkRouteContext (cx_route r) (cx_qualified r) (cx_qualification_rationale r) (cx_privacy_ok r)
    (cx_deprecated r) (cx_billing_mode r) (cx_purpose_eligibility r) (cx_charge_verified_free r).

Record PolicyDecision := mkPolicyDecision {
  pd_allowed : bool;
  pd_reason : string;
  pd_blocked_dimension : option string
}.

Record AdmissionPolicy := mkAdmissionPolicy {
  allow_paid : bool;
  allow_unknown_billing : bool;
  require_privacy_ref_for_production : bool
}.

(** ** Operations *)
Definition evaluate (pol : AdmissionPolicy) (request : InferenceRequest) (ctx : RoutePolicyContext)
    : PolicyDecision :=
  let route := cx_route ctx in
  let purpose := rq_purpose request in
  let eligibility := cx_purpose_eligibility ctx in
  let billing := cx_billing_mode ctx in
  if cx_deprecated ctx || bool_decide (rt_availability_status route = AvailabilityStatus.RETIRED)
  then mkPolicyDecision false "model_deprecated" (Some "availability")
  else if bool_decide (rt_availability_status route ∈
                       [AvailabilityStatus.DISABLED; AvailabilityStatus.UNAVAILABLE])
  then mkPolicyDecision false "route_unavailable" (Some "availability")
  else if one_of purpose ["production"; "mission"]
          && negb (bool_decide (eligibility ∈ [PurposeEligibility.PRODUCTION;
                     PurposeEligibility.INTERNAL; PurposeEligibility.PROTOTYPE]))
          && bool_decide (eligibility = PurposeEligibility.UNKNOWN)
  then mkPolicyDecision false "purpose_unknown" (Some "purpose")
  else if bool_decide (purpose = "production") && require_privacy_ref_for_production pol
          && negb (truthy (rt_privacy_policy_ref route)) && negb (cx_privacy_ok ctx)
  then mkPolicyDecision false "privacy_policy_missing" (Some "privacy")
  else if bool_decide (billing = BillingMode.PAID) && negb (allow_paid pol)
  then mkPolicyDecision false "spending_denied_before_network" (Some "cost")
  else if bool_decide (billing = BillingMode.UNKNOWN) && negb (allow_unknown_billing pol)
          && negb (cx_charge_verified_free ctx && one_of purpose ["probe"; "benchmark"; "catalog"])
  then mkPolicyDecision false "unknown_charge_exposure" (Some "cost")
  else if negb (cx_qualified ctx)
          && negb (one_of purpose ["probe"; "benchmark"; "catalog"; "planning"])
  then mkPolicyDecision false "not_qualified" (Some "qualification")
  else mkPolicyDecision true "eligible" None.

Definition assert_allowed (pol : AdmissionPolicy) (request : InferenceRequest)
    (ctx : RoutePolicyContext) : result () :=
  let decision := evaluate pol request ctx in
  if pd_allowed decision then Ok ()
  else if one_of (pd_reason decision) ["unknown_charge_exposure"; "spending_denied_before_network"]
  then Err (UnknownChargeDeniedError (pd_reason decision))
  else Err (PolicyDeniedError (pd_reason decision)).

(** *** Retries *)
Record RetryDecision := mkRetryDecision {
  should_retry : bool;
  wait_seconds : float;
  rd_reason : string;
  allow_route_change : bool
}.

Record RetryConfig := mkRetryConfig {
  max_attempts : Z;
  base_delay_seconds : float;
  max_delay_seconds : float;
  jitter_ratio : float
}.
Definition default_retry : RetryConfig :=
  mkRetryConfig 3 (truediv 5 100) f_2 (truediv 1 4).

Record RetryOwner := mkRetryOwner {
  ro_config : RetryConfig;
  ro_attempt_counts : gmap string Z
}.
#[export] Instance eta_RetryOwner : Eta RetryOwner := λ r,
  mkRetryOwner (ro_config r) (ro_attempt_counts r).

Definition note_attempt (logical_call_id : string) : M RetryOwner Z :=
  r ← get_state;
  let n := default 0 (ro_attempt_counts r !! logical_call_id) + 1 in
  put_state (r <| ro_attempt_counts := <[logical_call_id := n]> (ro_attempt_counts r) |>);;
  mret n.

Definition attempts (logical_call_id : string) (r : RetryOwner) : Z :=
  default 0 (ro_attempt_counts r !! logical_call_id).

(** [code] is the error class, as a string; [rand] is [random.random()]. *)
Definition decide_retry (r : RetryOwner) (logical_call_id code : string)
    (retry_after : option float) (post_send : bool) (rand : float) : RetryDecision :=
  let cfg := ro_config r in
  let attempt := default 1 (ro_attempt_counts r !! logical_call_id) in
  if post_send && bool_decide (code = ErrorClass.value ErrorClass.UNKNOWN_OUTCOME)
  then mkRetryDecision false f_0 "retain_ambiguous_send" false
  else if bool_decide (code = ErrorClass.value ErrorClass.AUTHENTICATION)
  then mkRetryDecision false f_0 "auth_failure_no_retry" false
  else if bool_decide (code = ErrorClass.value ErrorClass.POLICY_DENIED)
  then mkRetryDecision false f_0 "policy_denied" false
  else if bool_decide (code = ErrorClass.value ErrorClass.QUOTA_EXHAUSTED)
  then mkRetryDecision false f_0 "quota_exhausted" true
  else if max_attempts cfg <=? attempt
  then mkRetryDecision false f_0 "max_attempts" false
  else
    let wait := match retry_after with
      | Some w => w
      | None =>
        let exp := fmul (base_delay_seconds cfg) (float_of_Z (2 ^ Z.max 0 (attempt - 1))) in
        let wait := fmin (max_delay_seconds cfg) exp in
        fadd wait (fmul (fmul wait (jitter_ratio cfg)) rand)
      end in
    let allow_change := one_of code (ErrorClass.value <$> [ErrorClass.RATE_LIMIT;
      ErrorClass.TRANSIENT; ErrorClass.UNSUPPORTED_CAPABILITY]) in
    mkRetryDecision true wait ("retry:" +:+ code) allow_change.

(** ** Properties *)

Lemma deny_iff (b : bool) reason dim rest :
  pd_allowed (if b then mkPolicyDecision false reason dim else rest) = true
  ↔ b = false ∧ pd_allowed rest = true.
Proof. destruct b; naive_solver. Qed.

Lemma and_iff_compat (P P' Q Q' : Prop) : (P ↔ P') → (Q ↔ Q') → (P ∧ Q ↔ P' ∧ Q').
Proof. tauto. Qed.

(** the admission policy admits exactly the routes that are current and available,
    of a known purpose class for production and mission work, covered by a privacy
    policy for production work, not billed (unless paid billing is allowed), not of
    unknown billing (unless allowed, or verified free for a probe, benchmark or catalog
    purpose), and qualified unless the purpose is exploratory. *)
Theorem policy_admits_exactly pol request ctx :
  let route := cx_route ctx in
  let purpose := rq_purpose request in
  pd_allowed (evaluate pol request ctx) = true ↔
    cx_deprecated ctx = false
    ∧ rt_availability_status route ≠ AvailabilityStatus.RETIRED
    ∧ (rt_availability_status route ∉ [AvailabilityStatus.DISABLED; AvailabilityStatus.UNAVAILABLE])
    ∧ (purpose ∈ ["production"; "mission"] →
       cx_purpose_eligibility ctx ≠ PurposeEligibility.UNKNOWN)
    ∧ (purpose = "production" → require_privacy_ref_for_production pol = true →
       truthy (rt_privacy_policy_ref route) = true ∨ cx_privacy_ok ctx = true)
    ∧ (cx_billing_mode ctx = BillingMode.PAID → allow_paid pol = true)
    ∧ (cx_billing_mode ctx = BillingMode.UNKNOWN → allow_unknown_billing pol = false →
       cx_charge_verified_free ctx = true ∧ purpose ∈ ["probe"; "benchmark"; "catalog"])
    ∧ (cx_qualified ctx = false → purpose ∈ ["probe"; "benchmark"; "catalog"; "planning"]).
Proof.
  simpl. unfold evaluate, one_of. rewrite !deny_iff, orb_false_iff, <- (and_assoc (_ = false)).
  repeat apply and_iff_compat; [done|..].
  - apply bool_decide_eq_false.
  - apply bool_decide_eq_false.
  - rewrite !andb_false_iff, negb_false_iff, !bool_decide_eq_false, bool_decide_eq_true.
    destruct (cx_purpose_eligibility ctx); set_solver.
  - case_bool_decide; destruct (require_privacy_ref_for_production pol), (truthy _),
      (cx_privacy_ok ctx); naive_solver.
  - case_bool_decide; destruct (allow_paid pol); naive_solver.
  - repeat case_bool_decide; destruct (allow_unknown_billing pol), (cx_charge_verified_free ctx);
      naive_solver.
  - case_bool_decide; destruct (cx_qualified ctx); naive_solver.
Qed.

(** A denied request raises the spending error exactly when the denial is about cost,
    and the policy error otherwise; an admitted one passes. *)
Lemma policy_denial_class pol request ctx :
  match assert_allowed pol request ctx with
  | Ok _ => pd_allowed (evaluate pol request ctx) = true
  | Err (UnknownChargeDeniedError r) =>
    r = pd_reason (evaluate pol request ctx)
    ∧ pd_blocked_dimension (evaluate pol request ctx) = Some "cost"
  | Err (PolicyDeniedError r) =>
    r = pd_reason (evaluate pol request ctx)
    ∧ pd_blocked_dimension (evaluate pol request ctx) ≠ Some "cost"
    ∧ pd_allowed (evaluate pol request ctx) = false
  | Err _ => False
  end.
Proof.
  unfold assert_allowed, evaluate.
  repeat match goal with |- context [if ?b then mkPolicyDecision _ _ _ else _] =>
    destruct b; [vm_compute; naive_solver|] end.
  done.
Qed.

(** [n] attempts noted for one logical call. *)
Fixpoint note_attempts (logical_call_id : string) (n : nat) : M RetryOwner () :=
  match n with
  | O => mret ()
  | S n' => note_attempt logical_call_id;; note_attempts logical_call_id n'
  end.

Lemma note_attempts_run id n r :
  (note_attempts id n r).1 = Ok ()
  ∧ ro_config (note_attempts id n r).2 = ro_config r
  ∧ ((0 < n)%nat → ro_attempt_counts (note_attempts id n r).2 !! id
                 = Some (attempts id r + Z.of_nat n)).
Proof.
  revert r; induction n as [|n IH]; intros r; [simpl; split_and!; [done|done|lia]|].
  cbn [note_attempts]. unfold mbind, M_bind.
  set (r1 := r <| ro_attempt_counts := <[id := attempts id r + 1]> (ro_attempt_counts r) |>).
  assert (note_attempt id r = (Ok (attempts id r + 1), r1)) as -> by done.
  destruct (IH r1) as (H1 & H2 & H3). split_and!; [done|done|]. intros _.
  destruct n as [|n].
  - simpl. by rewrite lookup_insert_eq.
  - rewrite H3 by lia. unfold attempts at 1. simpl. rewrite lookup_insert_eq. simpl. f_equal. lia.
Qed.

(** retries are bounded.  Once the attempts noted for a call reach the configured
    maximum, no error class, server hint or send phase makes the owner retry; and an
    authentication failure, a policy denial, an exhausted quota or an ambiguous
    outcome after sending is never retried at all. *)
Theorem retries_are_bounded (r : RetryOwner) id code retry_after post_send rand n :
  (0 < n)%nat →
  (max_attempts (ro_config r) <= attempts id r + Z.of_nat n
   ∨ code ∈ ErrorClass.value <$> [ErrorClass.AUTHENTICATION; ErrorClass.POLICY_DENIED;
                                  ErrorClass.QUOTA_EXHAUSTED]
   ∨ (post_send = true ∧ code = ErrorClass.value ErrorClass.UNKNOWN_OUTCOME)) →
  should_retry (decide_retry (note_attempts id n r).2 id code retry_after post_send rand) = false.
Proof.
  intros Hn Hcase. destruct (note_attempts_run id n r) as (_ & Hcfg & Hcnt).
  specialize (Hcnt Hn). unfold decide_retry. rewrite Hcfg, Hcnt. simpl (default _ _).
  repeat match goal with |- should_retry (if ?b then _ else _) = _ =>
    destruct b eqn:?; [done|] end.
  exfalso. bool_to_prop. destruct Hcase as [?|[Hc|[-> ->]]]; [lia| |].
  - rewrite !list_elem_of_fmap in *. set_solver.
  - naive_solver.
Qed.

Lemma retries_are_bounded_witness :
  should_retry (decide_retry (note_attempts "lc" 3 (mkRetryOwner default_retry ∅)).2 "lc"
                  "transient" None false f_0_5) = false
  ∧ should_retry (decide_retry (note_attempts "lc" 2 (mkRetryOwner default_retry ∅)).2 "lc"
                  "transient" None false f_0_5) = true.
Proof.
  split; [|vm_compute; reflexivity].
  apply (retries_are_bounded (mkRetryOwner default_retry ∅) "lc" "transient" None false f_0_5 3);
    [lia|left; vm_compute; done].
Defined.
