(* ===== verification/Broker.v ===== *)
(** * Broker: the shared inference broker (src/swarm/broker/broker.py)

    [Broker] is the state of a [SharedInferenceBroker]: the quota ledger, the circuit
    breaker and the retry owner it owns, its route contexts, tickets, decisions and
    settlement keys.  A ticket (a [Reservation]) is one object shared by the caller and
    the broker, so it lives in the broker's ticket table and the methods take its
    reservation id.  A receipt is likewise shared between the pending call and the
    caller: receipts live in [b_receipts] and are passed by location.

    The adapter is a parameter: what [discover] returned, what [execute_one] returned or
    raised and how [classify_error] classifies an exception are arguments, as are the
    clock readings and the fresh ids.  [invoke] suspends while the adapter runs, so it is
    two steps: [invoke_begin] up to the send and [invoke_finish] from the adapter's
    outcome on; other calls may run in between. *)
From S2P Require Import Prelude Collections Contracts PyFloat.
From S2P Require Import Ledger Circuit Policy.
Open Scope Z_scope.

Abbreviation loc := nat.

Record PendingCall := mkPendingCall {
  pc_request : InferenceRequest;
  pc_ticket : Reservation;
  pc_route : RouteSnapshot;
  pc_decision_id : string;
  pc_sent : bool;
  pc_settled : bool;
  pc_receipt : option loc
}.
#[export] Instance eta_PendingCall : Eta PendingCall := λ r,
  mkPendingCall (pc_request r) (pc_ticket r) (pc_route r) (pc_decision_id r) (pc_sent r)
    (pc_settled r) (pc_receipt r).

Record Blocked := mkBlocked { bl_route_id : string; bl_reason : string; bl_dimension : string }.

Record DecisionRecord := mkDecisionRecord {
  dr_decision_id : string;
  dr_request : InferenceRequest;
  dr_eligible : list string;
  dr_blocked : list Blocked;
  dr_selected_route : option string;
  dr_qualification_rationale : option string;
  dr_bottleneck : option Bottleneck;
  dr_reserved : list BucketAmount;
  dr_wake_condition : option string;
  dr_purpose : string
}.
#[export] Instance eta_DecisionRecord : Eta DecisionRecord := λ r,
  mkDecisionRecord (dr_decision_id r) (dr_request r) (dr_eligible r) (dr_blocked r)
    (dr_selected_route r) (dr_qualification_rationale r) (dr_bottleneck r) (dr_reserved r)
    (dr_wake_condition r) (dr_purpose r).

Definition new_decision (decision_id : string) (request : InferenceRequest) : DecisionRecord :=
  mkDecisionRecord decision_id request [] [] None None None [] None (rq_purpose request).

Record Broker := mkBroker {
  b_policy : AdmissionPolicy;
  b_ledger : Ledger;
  b_circuit : CircuitBreaker;
  b_retry : RetryOwner;
  b_ttl : Z;
  b_contexts : gmap string RoutePolicyContext;
  b_tickets : dict PendingCall;
  b_decisions : dict DecisionRecord;
  b_attempt_decisions : gmap string string;
  b_settlement_keys : gset string;
  b_logical_attempts : gmap string (gset string);
  b_request_count : Z;
  b_invocations : list string;
  b_queue_weights : gmap string float;
  b_last_decision_id : option string;
  b_receipts : gmap loc AttemptReceipt
}.
#[export] Instance eta_Broker : Eta Broker := λ r,
  mkBroker (b_policy r) (b_ledger r) (b_circuit r) (b_retry r) (b_ttl r) (b_contexts r)
    (b_tickets r) (b_decisions r) (b_attempt_decisions r) (b_settlement_keys r)
    (b_logical_attempts r) (b_request_count r) (b_invocations r) (b_queue_weights r)
    (b_last_decision_id r) (b_receipts r).

(** Calls on the components the broker owns. *)
Definition on_ledger {A} : M Ledger A → M Broker A :=
  zoom b_ledger (λ l b, b <| b_ledger := l |>).
Definition on_circuit {A} : M CircuitBreaker A → M Broker A :=
  zoom b_circuit (λ c b, b <| b_circuit := c |>).
Definition on_retry {A} : M RetryOwner A → M Broker A :=
  zoom b_retry (λ r b, b <| b_retry := r |>).

(** [self._tickets[rid]] updated in place. *)
Definition update_pending (rid : string) (f : PendingCall → PendingCall) : M Broker () :=
  modify (λ b, match dict_get (b_tickets b) rid with
               | Some p => b <| b_tickets := dict_set (b_tickets b) rid (f p) |>
               | None => b
               end).
Definition update_ticket (rid : string) (f : Reservation → Reservation) : M Broker () :=
  update_pending rid (λ p, p <| pc_ticket := f (pc_ticket p) |>).

(** ** Operations *)
Definition register_route (ctx : RoutePolicyContext) (b : Broker) : Broker :=
  b <| b_contexts := <[rt_route_id (cx_route ctx) := ctx]> (b_contexts b) |>.

(** The stored context of a route, or the default one, with the route made current; the
    update writes through to the stored object. *)
Definition default_context (route : RouteSnapshot) : RoutePolicyContext :=
  mkRouteContext route true "default_mock_qualified" true false BillingMode.UNKNOWN
    PurposeEligibility.UNKNOWN false.

Definition current_context (route : RouteSnapshot) : M Broker RoutePolicyContext :=
  b ← get_state;
  match b_contexts b !! rt_route_id route with
  | Some ctx =>
    let ctx := ctx <| cx_route := route |> in
    put_state (b <| b_contexts := <[rt_route_id route := ctx]> (b_contexts b) |>);;
    mret ctx
  | None => mret (default_context route)
  end.

(** One route of [assess]: eligible, or blocked by policy or by the circuit. *)
Definition assess_route (now : Z) (request : InferenceRequest) (route : RouteSnapshot)
    (acc : list RouteSnapshot * DecisionRecord) : M Broker (list RouteSnapshot * DecisionRecord) :=
  let '(eligible, record) := acc in
  ctx ← current_context route;
  pol ← gets b_policy;
  let decision := evaluate pol request ctx in
  if pd_allowed decision then
    blocked ← try_except (on_circuit (assert_closed now (rt_route_id route));; mret None)
      (λ exc, match exc with
              | CircuitOpenError msg => mret (Some (mkBlocked (rt_route_id route) msg "health"))
              | e => raise e
              end);
    mret (match blocked with
          | Some bl => (eligible, record <| dr_blocked := dr_blocked record ++ [bl] |>)
          | None => (eligible ++ [route],
                     record <| dr_eligible := dr_eligible record ++ [rt_route_id route] |>
                            <| dr_qualification_rationale := Some (cx_qualification_rationale ctx) |>)
          end)
  else
    mret (eligible, record <| dr_blocked := dr_blocked record ++
            [mkBlocked (rt_route_id route) (pd_reason decision)
               (default "policy" (pd_blocked_dimension decision))] |>).

Fixpoint assess_loop (now : Z) (request : InferenceRequest) (routes : list RouteSnapshot)
    (acc : list RouteSnapshot * DecisionRecord) : M Broker (list RouteSnapshot * DecisionRecord) :=
  match routes with
  | [] => mret acc
  | route :: rest => acc' ← assess_route now request route acc; assess_loop now request rest acc'
  end.

(** [discovered] is what the adapter's [discover] returned; [dec_id] the new decision id. *)
Definition assess (now : Z) (discovered : list RouteSnapshot) (dec_id : string)
    (request : InferenceRequest) : M Broker (list RouteSnapshot) :=
  let routes := if truthy (rq_route_id request)
                then filter (λ r, Some (rt_route_id r) = rq_route_id request) discovered
                else discovered in
  '(eligible, record) ← assess_loop now request routes ([], new_decision dec_id request);
  modify (λ b, b <| b_decisions := dict_set (b_decisions b) dec_id record |>
                 <| b_attempt_decisions := <[rq_attempt_id request := dec_id]> (b_attempt_decisions b) |>
                 <| b_last_decision_id := Some dec_id |>);;
  mret eligible.

(** Admission of the purpose to the fair queue: its weight grows by 0.01. *)
Definition bump_weight (purpose : string) : M Broker () :=
  modify (λ b, b <| b_queue_weights :=
    <[purpose := fadd (default f_1 (b_queue_weights b !! purpose)) f_0_01]> (b_queue_weights b) |>).

Definition note_logical_attempt (lc_id attempt_id : string) (reserved : list BucketAmount)
    : M Broker () :=
  b ← get_state;
  let seen := default ∅ (b_logical_attempts b !! lc_id) in
  put_state (b <| b_logical_attempts := <[lc_id := seen]> (b_logical_attempts b) |>);;
  if decide (attempt_id ∈ seen) then
    on_ledger (release reserved);;
    raise (BrokerBypassError "duplicate_attempt_id_for_logical_call")
  else
    modify (λ b, b <| b_logical_attempts :=
      <[lc_id := {[attempt_id]} ∪ seen]> (b_logical_attempts b) |>);;
    _ ← on_retry (note_attempt lc_id);
    mret ().

(** The decision a reservation is filed under, created when there is none. *)
Definition decision_for (request : InferenceRequest) (dec_id : string) : M Broker string :=
  b ← get_state;
  let found := match b_attempt_decisions b !! rq_attempt_id request with
               | Some d => if bool_decide (d = "") then b_last_decision_id b else Some d
               | None => b_last_decision_id b
               end in
  match found with
  | Some d => if dict_mem (b_decisions b) d then mret d else
      put_state (b <| b_decisions := dict_set (b_decisions b) dec_id (new_decision dec_id request) |>
        <| b_attempt_decisions := <[rq_attempt_id request := dec_id]> (b_attempt_decisions b) |>
        <| b_last_decision_id := Some dec_id |>);; mret dec_id
  | None =>
      put_state (b <| b_decisions := dict_set (b_decisions b) dec_id (new_decision dec_id request) |>
        <| b_attempt_decisions := <[rq_attempt_id request := dec_id]> (b_attempt_decisions b) |>
        <| b_last_decision_id := Some dec_id |>);; mret dec_id
  end.

Definition update_decision (d : string) (f : DecisionRecord → DecisionRecord) : M Broker () :=
  modify (λ b, match dict_get (b_decisions b) d with
               | Some rec => b <| b_decisions := dict_set (b_decisions b) d (f rec) |>
               | None => b
               end).

Definition is_probe (purpose : string) : bool := one_of purpose ["probe"; "catalog"].

(** The part of [reserve] after the amounts were taken: the ticket is filed. *)
Definition file_ticket (now_t now_b : Z) (lc_id rsv_id dec_id : string)
    (request : InferenceRequest) (route : RouteSnapshot) (ctx : RoutePolicyContext)
    (reserved : list BucketAmount) : M Broker Reservation :=
  note_logical_attempt lc_id (rq_attempt_id request) reserved;;
  ttl ← gets b_ttl;
  let ticket := mkReservation rsv_id lc_id (rq_attempt_id request) (rt_route_id route) reserved
                  ReservationState.OPEN ReservationPhase.RESERVED (now_t + ttl) in
  decision_id ← decision_for request dec_id;
  update_decision decision_id (λ rec, rec <| dr_selected_route := Some (rt_route_id route) |>
    <| dr_qualification_rationale := Some (cx_qualification_rationale ctx) |>
    <| dr_reserved := reserved |>);;
  bn ← on_ledger (bottleneck now_b reserved);
  update_decision decision_id (λ rec, rec <| dr_bottleneck := bn |>);;
  modify (λ b, b <| b_tickets := dict_set (b_tickets b) rsv_id
                     (mkPendingCall request ticket route decision_id false false None) |>);;
  mret ticket.

(** [now_l], [now_t] and [now_b] are the clock readings of the ledger's admission, of the
    ticket's expiry and of the bottleneck report. *)
Definition reserve (now now_l now_t now_b : Z) (lc_id rsv_id dec_id : string)
    (request : InferenceRequest) (route : RouteSnapshot) : M Broker Reservation :=
  ctx ← current_context route;
  pol ← gets b_policy;
  of_result (assert_allowed pol request ctx);;
  on_circuit (assert_closed now (rt_route_id route));;
  bump_weight (rq_purpose request);;
  ledger ← gets b_ledger;
  let amounts := estimate_amounts (rt_quota_bucket_ids route) (rq_estimated_input_tokens request)
                   (rq_max_output_tokens request) (rq_purpose request) ledger in
  reserved ← on_ledger (Ledger.reserve now_l amounts (rt_route_id route) (rq_purpose request)
                          (is_probe (rq_purpose request)));
  file_ticket now_t now_b lc_id rsv_id dec_id request route ctx reserved.

(** The outcome of [invoke]'s first half: a retained receipt, or a request sent. *)
Inductive begun : Type :=
  | Retained (receipt : loc)
  | Sent (request : InferenceRequest) (ticket : Reservation).

Definition invoke_begin (now : Z) (rid : string) : M Broker begun :=
  tickets ← gets b_tickets;
  pending ← require (dict_get tickets rid) (BrokerBypassError "invoke requires a reserved ticket");
  match pc_sent pending, pc_receipt pending with
  | true, Some r => mret (Retained r)
  | _, _ =>
    let ticket := pc_ticket pending in
    if (rs_expires_at ticket <? now) && bool_decide (rs_phase ticket = ReservationPhase.RESERVED)
    then
      on_ledger (release (bucket_amounts ticket));;
      update_ticket rid (λ t, t <| rs_state := ReservationState.EXPIRED |>);;
      raise (BrokerBypassError "reservation_expired_unsent")
    else
      update_pending rid (λ p, p <| pc_ticket := (pc_ticket p) <| rs_phase := ReservationPhase.SENDING |> |>
                                 <| pc_sent := true |>);;
      modify (λ b, b <| b_request_count := b_request_count b + 1 |>
                     <| b_invocations := b_invocations b ++ [rid] |>);;
      mret (Sent (pc_request pending) (ticket <| rs_phase := ReservationPhase.SENDING |>))
  end.

Definition settlement_key (receipt : AttemptReceipt) : string :=
  match ar_idempotency_key receipt with
  | Some k => if bool_decide (k = "")
              then ar_logical_call_id receipt +:+ ":" +:+ ar_network_attempt_id receipt else k
  | None => ar_logical_call_id receipt +:+ ":" +:+ ar_network_attempt_id receipt
  end.

Definition actual_usage (receipt : AttemptReceipt) : option usage :=
  match ar_normalized_usage receipt with
  | None => None
  | Some u =>
    let opt d o := match o with Some n => [(d, n)] | None => [] end in
    Some ([(QuotaDimension.REQUESTS, u_requests u)]
          ++ opt QuotaDimension.INPUT_TOKENS (u_input_tokens u)
          ++ opt QuotaDimension.OUTPUT_TOKENS (u_output_tokens u)
          ++ opt QuotaDimension.TOTAL_TOKENS (u_total_tokens u)
          ++ opt QuotaDimension.UNCACHED_TOKENS (u_uncached_tokens u))
  end.

(** The first pending call of the receipt's logical call. *)
Definition pending_of (lc_id : string) (tickets : dict PendingCall) : option (string * PendingCall) :=
  snd <$> list_find (λ kp, rs_logical_call_id (pc_ticket kp.2) = lc_id) tickets.

Definition set_receipt (r : loc) (f : AttemptReceipt → AttemptReceipt) : M Broker () :=
  modify (λ b, b <| b_receipts := alter f r (b_receipts b) |>).

Definition reconcile (clock : nat → Z) (r : loc) : M Broker loc :=
  b ← get_state;
  receipt ← require (b_receipts b !! r) (KeyError "receipt");
  let key := settlement_key receipt in
  raise_if (bool_decide (key ∈ b_settlement_keys b)) (DuplicateSettlementError key);;
  match pending_of (ar_logical_call_id receipt) (b_tickets b) with
  | Some (rid, pending) =>
    on_ledger (settle clock (bucket_amounts (pc_ticket pending)) key (actual_usage receipt));;
    update_pending rid (λ p, p <| pc_settled := true |>
      <| pc_ticket := (pc_ticket p) <| rs_state := ReservationState.COMMITTED |>
                                    <| rs_phase := ReservationPhase.SETTLED |> |>)
  | None => modify (λ b, b <| b_settlement_keys := {[key]} ∪ b_settlement_keys b |>)
  end;;
  modify (λ b, b <| b_settlement_keys := {[key]} ∪ b_settlement_keys b |>);;
  set_receipt r (λ x, x <| ar_settlement_state := SettlementState.SETTLED |>);;
  mret r.

(** [ErrorClass(classified)] when [classified] is a member's value. *)
Definition error_class_of (classified : string) : option ErrorClass :=
  snd <$> list_find (λ c, ErrorClass.value c = classified)
    [ErrorClass.RATE_LIMIT; ErrorClass.AUTHENTICATION; ErrorClass.QUOTA_EXHAUSTED;
     ErrorClass.TRANSIENT; ErrorClass.UNSUPPORTED_CAPABILITY; ErrorClass.INVALID_REQUEST;
     ErrorClass.POLICY_DENIED; ErrorClass.PARTIAL_STREAM; ErrorClass.UNKNOWN_OUTCOME].

(** The receipt [execute_one] returned, stored at the fresh location [r]. *)
Definition receive_receipt (now : Z) (clock : nat → Z) (rid : string) (ticket : Reservation)
    (r : loc) (receipt : AttemptReceipt) : M Broker loc :=
  modify (λ b, b <| b_receipts := <[r := receipt]> (b_receipts b) |>);;
  update_ticket rid (λ t, t <| rs_phase := ReservationPhase.SENT |>);;
  if bool_decide (ar_error_class receipt = Some ErrorClass.PARTIAL_STREAM) then
    update_pending rid (λ p, p <| pc_receipt := Some r |>);;
    set_receipt r (λ x, x <| ar_settlement_state := SettlementState.UNKNOWN |>);;
    update_ticket rid (λ t, t <| rs_phase := ReservationPhase.UNKNOWN |>
                              <| rs_state := ReservationState.UNKNOWN |>);;
    on_circuit (record_error now (rs_route_id ticket) (ErrorClass.value ErrorClass.PARTIAL_STREAM));;
    mret r
  else if bool_decide (ar_error_class receipt = Some ErrorClass.UNKNOWN_OUTCOME) then
    update_pending rid (λ p, p <| pc_receipt := Some r |>);;
    update_ticket rid (λ t, t <| rs_phase := ReservationPhase.UNKNOWN |>
                              <| rs_state := ReservationState.UNKNOWN |>);;
    on_circuit (record_error now (rs_route_id ticket) (ErrorClass.value ErrorClass.UNKNOWN_OUTCOME));;
    raise (AmbiguousSendError (ar_logical_call_id receipt))
  else
    update_ticket rid (λ t, t <| rs_phase := ReservationPhase.SETTLED |>);;
    update_pending rid (λ p, p <| pc_receipt := Some r |>);;
    on_circuit (record_success now (rs_route_id ticket));;
    reconcile clock r.

(** The handler of any exception but [AmbiguousSendError]. *)
Definition handle_exception (now : Z) (classify : exn → string) (na_id rid : string)
    (ticket : Reservation) (r : loc) (exc : exn) : M Broker loc :=
  let classified := classify exc in
  on_circuit (record_error now (rs_route_id ticket) classified);;
  tickets ← gets b_tickets;
  pending ← require (dict_get tickets rid) (KeyError rid);
  if pc_sent pending && bool_decide (rs_phase (pc_ticket pending) ∈
       [ReservationPhase.SENDING; ReservationPhase.SENT; ReservationPhase.UNKNOWN])
  then
    let receipt := mkAttemptReceipt (rs_logical_call_id ticket) na_id None ReservationPhase.UNKNOWN
      None (rs_route_id ticket)
      (Some (default ErrorClass.UNKNOWN_OUTCOME (error_class_of classified)))
      SettlementState.UNKNOWN in
    modify (λ b, b <| b_receipts := <[r := receipt]> (b_receipts b) |>);;
    update_pending rid (λ p, p <| pc_receipt := Some r |>);;
    update_ticket rid (λ t, t <| rs_phase := ReservationPhase.UNKNOWN |>
                              <| rs_state := ReservationState.UNKNOWN |>);;
    raise (AmbiguousSendError (exn_message exc))
  else
    on_ledger (release (bucket_amounts (pc_ticket pending)));;
    update_ticket rid (λ t, t <| rs_state := ReservationState.RELEASED |>);;
    raise exc.

(** [outcome] is what [execute_one] returned or raised. *)
Definition invoke_finish (now : Z) (clock : nat → Z) (classify : exn → string) (na_id rid : string)
    (ticket : Reservation) (r : loc) (outcome : result AttemptReceipt) : M Broker loc :=
  try_except
    (match outcome with
     | Ok receipt => receive_receipt now clock rid ticket r receipt
     | Err exc => raise exc
     end)
    (λ exc, match exc with
            | AmbiguousSendError _ => raise exc
            | _ => handle_exception now classify na_id rid ticket r exc
            end).

(** [invoke] with nothing running in between. *)
Definition invoke (now now' : Z) (clock : nat → Z) (classify : exn → string) (na_id rid : string)
    (r : loc) (execute_one : InferenceRequest → Reservation → result AttemptReceipt)
    : M Broker loc :=
  began ← invoke_begin now rid;
  match began with
  | Retained r0 => mret r0
  | Sent request ticket =>
    invoke_finish now' clock classify na_id rid ticket r (execute_one request ticket)
  end.

Definition assert_all_calls_accounted (adapter_calls : option Z) : M Broker () :=
  b ← get_state;
  match adapter_calls with
  | None => mret ()
  | Some n => raise_if (negb (b_request_count b =? n))
      (BrokerBypassError ("broker=" +:+ pretty (b_request_count b) +:+ " adapter=" +:+ pretty n
                          +:+ " — bypass detected"))
  end.

Definition expire_unsent (rid : string) : M Broker () :=
  tickets ← gets b_tickets;
  match dict_get tickets rid with
  | None => mret ()
  | Some pending =>
    if pc_sent pending then mret () else
    on_ledger (release (bucket_amounts (pc_ticket pending)));;
    update_ticket rid (λ t, t <| rs_state := ReservationState.EXPIRED |>)
  end.

(** The report of [explain]; [None] is the "decision_not_found" answer. *)
Record Explanation := mkExplanation {
  ex_record : DecisionRecord;
  ex_wake : option string;
  ex_request_count : Z
}.

Definition explain (decision_id : string) (b : Broker) : option Explanation :=
  let rec := match dict_get (b_decisions b) decision_id with
             | Some rec => Some rec
             | None => snd <$> list_find (λ rec, rq_attempt_id (dr_request rec) = decision_id
                                          ∨ dr_decision_id rec = decision_id)
                                (dict_values (b_decisions b))
             end in
  (λ rec, mkExplanation rec
    (match dr_wake_condition rec, dr_bottleneck rec with
     | None, Some bn => Some ("wait_until:" +:+ bn_dimension bn +:+ ":" +:+ bn_reason bn)
     | w, _ => w
     end) (b_request_count b)) <$> rec.
