(* ===== verification/BrokerProps.v ===== *)
(** * BrokerProps: tickets, sends and settlements of the broker

    The invariant ties the broker's ticket table to the ledger: the reservations the
    ledger holds are exactly those of the tickets that are still open or whose outcome is
    unknown, so what was proved of ledger traces ([LedgerProps]) holds of the broker.
    The last part shows on concrete runs what happens outside the discipline the
    invariant assumes of callers. *)
From S2P Require Import Prelude Collections Contracts PyFloat.
From S2P Require Import Ledger LedgerProps Circuit Policy Broker.
Open Scope Z_scope.

(** ** Tickets and what they hold *)
Definition is_live (p : PendingCall) : bool :=
  bool_decide (rs_state (pc_ticket p) ∈ [ReservationState.OPEN; ReservationState.UNKNOWN]).

Definition holds_of (p : PendingCall) : list (list BucketAmount) :=
  if is_live p then [bucket_amounts (pc_ticket p)] else [].

Definition live_amounts (d : dict PendingCall) : list (list BucketAmount) :=
  mjoin (holds_of <$> dict_values d).

Definition lc_of (p : PendingCall) : string := rs_logical_call_id (pc_ticket p).

(** Ticket table: keys and logical-call ids are unique, and each logical call has been
    noted. *)
Record tickets_ok (b : Broker) : Prop := {
  tk_nodup : NoDup (dict_keys (b_tickets b));
  tk_lc_inj : ∀ k1 k2 p1 p2, dict_get (b_tickets b) k1 = Some p1 →
    dict_get (b_tickets b) k2 = Some p2 → lc_of p1 = lc_of p2 → k1 = k2;
  tk_lc_noted : ∀ k p, dict_get (b_tickets b) k = Some p →
    is_Some (b_logical_attempts b !! lc_of p)
}.

Record broker_inv (total : string → Z) (b : Broker) : Prop := {
  bi_tickets : tickets_ok b;
  bi_trace : trace_inv total (b_ledger b, live_amounts (b_tickets b));
  bi_config : 0 <= default_request_amount (config (b_ledger b))
}.

Lemma trace_inv_perm total s out out' :
  out ≡ₚ out' → trace_inv total (s, out) → trace_inv total (s, out').
Proof.
  intros Hp [Hc Hn Hd Hpr]. simpl in *. split; simpl.
  - intros id live Hl. destruct (Hc id live Hl) as [Hnw Hcov]. split; [done|].
    intros r Hr. unfold held. rewrite <- Hp. by apply Hcov.
  - intros l Hl. apply Hn. by rewrite Hp.
  - intros l Hl. apply Hd. by rewrite Hp.
  - intros l a Hl. apply Hpr. by rewrite Hp.
Qed.

(** Replacing one ticket replaces its share of the holds. *)
Lemma live_amounts_set d k p :
  dict_get d k = Some p →
  ∃ rest, live_amounts d ≡ₚ holds_of p ++ rest
    ∧ ∀ p', live_amounts (dict_set d k p') ≡ₚ holds_of p' ++ rest.
Proof.
  unfold live_amounts, dict_values. induction d as [|[k2 p2] d IH]; simpl; [done|].
  destruct (decide (k = k2)) as [->|Hne]; intros Hk.
  - simplify_eq. eexists. split; [reflexivity|]. intros p'. csimpl. done.
  - destruct (IH Hk) as (rest & H1 & H2). exists (holds_of p2 ++ rest). csimpl.
    split; [rewrite H1|intros p'; rewrite H2]; solve_Permutation.
Qed.

Lemma live_amounts_new d k p :
  dict_get d k = None → live_amounts (dict_set d k p) ≡ₚ holds_of p ++ live_amounts d.
Proof.
  unfold live_amounts, dict_values. induction d as [|[k2 p2] d IH]; simpl; [done|].
  destruct (decide (k = k2)) as [->|Hne]; [done|]. intros Hk. csimpl. rewrite (IH Hk).
  solve_Permutation.
Qed.

(** ** Updates of one ticket *)

(** [at_ticket b rid p rest]: the ticket [rid] is [p] and the other tickets hold [rest]. *)
Record at_ticket (rest : list (list BucketAmount)) (rid : string) (b : Broker) (p : PendingCall)
    : Prop := {
  at_get : dict_get (b_tickets b) rid = Some p;
  at_live : live_amounts (b_tickets b) ≡ₚ holds_of p ++ rest;
  at_ok : tickets_ok b
}.

(** The parts of the broker the ticket invariant talks about. *)
Definition same_tickets (b b' : Broker) : Prop :=
  b_tickets b' = b_tickets b ∧ b_logical_attempts b' = b_logical_attempts b.

Lemma same_tickets_ok b b' : same_tickets b b' → tickets_ok b → tickets_ok b'.
Proof. intros [H1 H2] [Hnd Hinj Hn]. split; rewrite ?H1, ?H2; done. Qed.

Lemma same_tickets_at rest rid b b' p :
  same_tickets b b' → at_ticket rest rid b p → at_ticket rest rid b' p.
Proof.
  intros Hs [Hg Hl Hok]. pose proof Hs as [H1 H2].
  split; rewrite ?H1; [done|done|]. by eapply same_tickets_ok.
Qed.

Lemma at_ticket_intro rid b p :
  tickets_ok b → dict_get (b_tickets b) rid = Some p → ∃ rest, at_ticket rest rid b p.
Proof.
  intros Hok Hg. destruct (live_amounts_set _ _ _ Hg) as (rest & H1 & _). by exists rest.
Qed.

Lemma update_pending_at rest rid b p f :
  lc_of (f p) = lc_of p → at_ticket rest rid b p →
  ∃ b', update_pending rid f b = (Ok (), b') ∧ at_ticket rest rid b' (f p)
    ∧ b_ledger b' = b_ledger b ∧ b_receipts b' = b_receipts b
    ∧ b_settlement_keys b' = b_settlement_keys b.
Proof.
  intros Hlc [Hg Hl Hok]. unfold update_pending, modify. rewrite Hg. eexists.
  split; [done|]. split; [|done]. destruct Hok as [Hnd Hinj Hn]. split; simpl.
  - apply dict_get_set_eq.
  - destruct (live_amounts_set _ _ _ Hg) as (rest' & H1 & H2). rewrite H2.
    rewrite H1 in Hl. apply Permutation_app_inv_l in Hl. by rewrite Hl.
  - split; simpl.
    + auto with swarm.
    + intros k1 k2 p1 p2. rewrite !dict_get_set.
      repeat case_decide; intros; simplify_eq; eauto; [symmetry|].
      * eapply (Hinj k2 k1); eauto. congruence.
      * eapply (Hinj k1 k2); eauto. congruence.
    + intros k p'. rewrite dict_get_set. case_decide; intros; simplify_eq; eauto.
      rewrite Hlc. eauto.
Qed.

Lemma on_ledger_run {A} (m : M Ledger A) b :
  on_ledger m b = ((m (b_ledger b)).1, b <| b_ledger := (m (b_ledger b)).2 |>).
Proof. unfold on_ledger, zoom. by destruct (m (b_ledger b)). Qed.

Lemma on_circuit_run {A} (m : M CircuitBreaker A) b :
  on_circuit m b = ((m (b_circuit b)).1, b <| b_circuit := (m (b_circuit b)).2 |>).
Proof. unfold on_circuit, zoom. by destruct (m (b_circuit b)). Qed.

Lemma broker_inv_at total rid b p :
  broker_inv total b → dict_get (b_tickets b) rid = Some p →
  ∃ rest, at_ticket rest rid b p ∧ trace_inv total (b_ledger b, holds_of p ++ rest).
Proof.
  intros [Hok Ht Hc] Hg. destruct (at_ticket_intro rid b p Hok Hg) as [rest Hat].
  exists rest. split; [done|]. eapply trace_inv_perm; [|exact Ht]. apply Hat.
Qed.

Lemma broker_inv_of total rest rid b p :
  at_ticket rest rid b p → trace_inv total (b_ledger b, holds_of p ++ rest) →
  0 <= default_request_amount (config (b_ledger b)) → broker_inv total b.
Proof.
  intros [Hg Hl Hok] Ht Hc. split; [done| |done].
  eapply trace_inv_perm; [|exact Ht]. by symmetry.
Qed.

Lemma holds_same p p' :
  is_live p' = is_live p → bucket_amounts (pc_ticket p') = bucket_amounts (pc_ticket p) →
  holds_of p' = holds_of p.
Proof. unfold holds_of. by intros -> ->. Qed.

Lemma release_config amounts s : config (release amounts s).2 = config s.
Proof. rewrite release_run. apply fold_update_frame. Qed.

Lemma settle_config clock amounts key u s : config (settle clock amounts key u s).2 = config s.
Proof. rewrite settle_run. case_decide; [done|]. simpl. apply fold_update_frame. Qed.

(** Giving a live ticket's amounts back and closing it. *)
Lemma release_ticket total rest rid b p st :
  at_ticket rest rid b p → trace_inv total (b_ledger b, holds_of p ++ rest) →
  0 <= default_request_amount (config (b_ledger b)) →
  is_live p = true → st ∉ [ReservationState.OPEN; ReservationState.UNKNOWN] →
  ∃ b', (on_ledger (release (bucket_amounts (pc_ticket p)));;
         update_ticket rid (λ t, t <| rs_state := st |>)) b = (Ok (), b') ∧ broker_inv total b'.
Proof.
  intros Hat Ht Hc Hlive Hst.
  assert (same_tickets b (b <| b_ledger := (release (bucket_amounts (pc_ticket p)) (b_ledger b)).2 |>))
    as Hsame by done.
  erewrite bind_run; [|rewrite on_ledger_run, release_run; reflexivity].
  eapply same_tickets_at in Hat; [|exact Hsame].
  apply (update_pending_at _ _ _ _ (λ p, p <| pc_ticket := (pc_ticket p) <| rs_state := st |> |>))
    in Hat as (b' & Hrun & Hat' & Hled & _); [|done].
  rewrite release_run in Hrun. unfold update_ticket. rewrite Hrun. exists b'. split; [done|].
  assert (holds_of (p <| pc_ticket := (pc_ticket p) <| rs_state := st |> |>) = []) as Hnil.
  { unfold holds_of, is_live. simpl. by rewrite bool_decide_false. }
  eapply broker_inv_of; [exact Hat'| |].
  - rewrite Hnil, Hled. simpl. eapply step_trace_inv; [|exact Ht].
    unfold holds_of. rewrite Hlive. by apply step_release.
  - rewrite Hled. simpl. by rewrite release_config.
Qed.

Lemma pending_of_at rid b p :
  tickets_ok b → dict_get (b_tickets b) rid = Some p →
  pending_of (lc_of p) (b_tickets b) = Some (rid, p).
Proof.
  intros [Hnd Hinj _] Hg. unfold pending_of.
  destruct (list_find _ (b_tickets b)) as [[i [k p']]|] eqn:Hf; simpl.
  - apply list_find_Some in Hf as (Hi & Hlc & _). simpl in Hlc.
    assert (dict_get (b_tickets b) k = Some p') as Hg'.
    { apply dict_elem_get; [done|]. by eapply list_elem_of_lookup_2. }
    assert (k = rid) as -> by (eapply Hinj; eauto). congruence.
  - exfalso. apply list_find_None in Hf. rewrite Forall_forall in Hf.
    apply dict_get_elem in Hg. by apply (Hf _ Hg).
Qed.

(** [reconcile] of a receipt of a live ticket's call: settled, or refused untouched. *)
Lemma reconcile_at total rest rid b p clock r receipt :
  at_ticket rest rid b p → trace_inv total (b_ledger b, holds_of p ++ rest) →
  0 <= default_request_amount (config (b_ledger b)) →
  is_live p = true → b_receipts b !! r = Some receipt →
  ar_logical_call_id receipt = lc_of p →
  (∃ b', reconcile clock r b = (Ok r, b') ∧ broker_inv total b')
  ∨ (∃ key, reconcile clock r b = (Err (DuplicateSettlementError key), b)).
Proof.
  intros Hat Ht Hc Hlive Hr Hlc. unfold reconcile.
  erewrite bind_run by reflexivity. rewrite Hr. erewrite bind_run by reflexivity.
  set (key := settlement_key receipt).
  destruct (decide (key ∈ b_settlement_keys b)) as [Hk|Hk].
  { right. exists key. erewrite bind_run_err; [done|]. unfold raise_if.
    by rewrite bool_decide_true. }
  erewrite bind_run; [|unfold raise_if; rewrite bool_decide_false by done; reflexivity].
  rewrite Hlc, (pending_of_at rid b p) by (destruct Hat; done).
  set (led := b_ledger b) in *. set (amts := bucket_amounts (pc_ticket p)).
  destruct (settle clock amts key (actual_usage receipt) led) as [[[]|e] led'] eqn:Hs.
  2: { right. exists key. pose proof (settle_run clock amts key (actual_usage receipt) led) as Hd.
       rewrite Hs in Hd. case_decide; simplify_eq. erewrite bind_run_err; [done|].
       apply bind_run_err. rewrite on_ledger_run. fold led. rewrite Hs. simpl. by destruct b. }
  left. pose proof (settle_config clock amts key (actual_usage receipt) led) as Hcfg.
  rewrite Hs in Hcfg. simpl in Hcfg.
  assert (at_ticket rest rid (b <| b_ledger := led' |>) p) as Hat1
    by (eapply same_tickets_at; [|exact Hat]; done).
  apply (update_pending_at _ _ _ _ (λ p, p <| pc_settled := true |>
      <| pc_ticket := (pc_ticket p) <| rs_state := ReservationState.COMMITTED |>
                                    <| rs_phase := ReservationPhase.SETTLED |> |>))
    in Hat1 as (b2 & Hrun & Hat2 & Hled & _); [|done].
  erewrite bind_run;
    [|erewrite bind_run; [exact Hrun|rewrite on_ledger_run; fold led; rewrite Hs; reflexivity]].
  erewrite bind_run by reflexivity. erewrite bind_run by reflexivity.
  eexists. split; [reflexivity|].
  eapply broker_inv_of; [eapply same_tickets_at; [|exact Hat2]; done| |].
  - simpl. rewrite Hled. simpl. eapply step_trace_inv; [|exact Ht].
    unfold holds_of at 1. rewrite Hlive.
    apply (step_settle clock key (actual_usage receipt) led amts led' (amts :: rest) rest); done.
  - simpl. rewrite Hled. simpl. by rewrite Hcfg.
Qed.

(** ** Calls that touch neither the tickets nor the ledger *)
Definition framed (b b' : Broker) : Prop := same_tickets b b' ∧ b_ledger b' = b_ledger b.
Definition keeps {A} (m : M Broker A) : Prop := ∀ b, framed b (m b).2.

#[export] Instance framed_preorder : PreOrder framed.
Proof.
  split.
  - by intros b.
  - intros b1 b2 b3 [[H1 H2] H3] [[H4 H5] H6]. split; [split|]; congruence.
Qed.

Lemma framed_inv total b b' : framed b b' → broker_inv total b → broker_inv total b'.
Proof.
  intros [Hs Hl] [Hok Ht Hc]. pose proof Hs as [H1 _].
  split; [by eapply same_tickets_ok|by rewrite Hl, H1|by rewrite Hl].
Qed.

Lemma keeps_ret {A} (a : A) : keeps (mret a).
Proof. by intros b. Qed.
Lemma keeps_raise {A} e : keeps (raise e : M Broker A).
Proof. by intros b. Qed.
Lemma keeps_raise_if c e : keeps (raise_if c e).
Proof. by destruct c; intros b. Qed.
Lemma keeps_get : keeps get_state.
Proof. by intros b. Qed.
Lemma keeps_gets {A} (f : Broker → A) : keeps (gets f).
Proof. by intros b. Qed.
Lemma keeps_of_result {A} (r : result A) : keeps (of_result r).
Proof. by intros b. Qed.
Lemma keeps_on_circuit {A} (m : M CircuitBreaker A) : keeps (on_circuit m).
Proof. intros b. by rewrite on_circuit_run. Qed.
Lemma keeps_bind {A B} (m : M Broker A) (f : A → M Broker B) :
  keeps m → (∀ a, keeps (f a)) → keeps (m ≫= f).
Proof.
  intros Hm Hf b. unfold mbind, M_bind. specialize (Hm b).
  destruct (m b) as [[a|e] b1]; simpl in *; [|done]. etrans; [exact Hm|apply Hf].
Qed.
Lemma keeps_try {A} (m : M Broker A) h : keeps m → (∀ e, keeps (h e)) → keeps (try_except m h).
Proof.
  intros Hm Hh b. unfold try_except. specialize (Hm b).
  destruct (m b) as [[a|e] b1]; simpl in *; [done|]. etrans; [exact Hm|apply Hh].
Qed.
#[export] Hint Resolve keeps_ret keeps_raise keeps_raise_if keeps_get keeps_gets keeps_of_result
  keeps_on_circuit keeps_bind keeps_try : swarm.

Lemma keeps_current_context route : keeps (current_context route).
Proof.
  intros b. unfold current_context, mbind, M_bind, get_state, put_state. by case_match.
Qed.
#[export] Hint Resolve keeps_current_context : swarm.

Lemma keeps_assess_route now request route acc : keeps (assess_route now request route acc).
Proof.
  destruct acc as [el rec]. unfold assess_route.
  apply keeps_bind; [auto with swarm|intros ctx]. apply keeps_bind; [auto with swarm|intros pol].
  case_match; [|auto with swarm]. apply keeps_bind; [|auto with swarm].
  apply keeps_try; [auto with swarm|]. intros []; auto with swarm.
Qed.

Lemma keeps_assess_loop now request routes acc : keeps (assess_loop now request routes acc).
Proof.
  revert acc; induction routes as [|rt routes IH]; intros acc; simpl; [auto with swarm|].
  apply keeps_bind; [apply keeps_assess_route|auto].
Qed.

Lemma keeps_assess now discovered dec_id request : keeps (assess now discovered dec_id request).
Proof.
  unfold assess. apply keeps_bind; [apply keeps_assess_loop|intros [el rec]].
  apply keeps_bind; [by intros b|auto with swarm].
Qed.

Lemma keeps_decision_for request dec_id : keeps (decision_for request dec_id).
Proof.
  intros b. unfold decision_for, mbind, M_bind, get_state, put_state, mret, M_ret.
  by repeat case_match; simplify_eq.
Qed.

Lemma keeps_update_decision d f : keeps (update_decision d f).
Proof. intros b. unfold update_decision, modify. by case_match. Qed.

Lemma decision_for_Ok request dec_id b : ∃ d, (decision_for request dec_id b).1 = Ok d.
Proof.
  unfold decision_for, mbind, M_bind, get_state, put_state, mret, M_ret.
  repeat case_match; simplify_eq; eauto.
Qed.

(** ** The broker's operations keep the invariant *)
Lemma invoke_begin_inv total now rid b :
  broker_inv total b →
  (∀ p, dict_get (b_tickets b) rid = Some p →
        pc_sent p = false ∧ rs_state (pc_ticket p) = ReservationState.OPEN) →
  broker_inv total (invoke_begin now rid b).2.
Proof.
  intros Hinv Hdisc. unfold invoke_begin. erewrite bind_run by reflexivity.
  destruct (dict_get (b_tickets b) rid) as [p|] eqn:Hg; [|done].
  destruct (Hdisc p eq_refl) as [Hs Hst]. erewrite bind_run by reflexivity. rewrite Hs.
  destruct (broker_inv_at _ _ _ _ Hinv Hg) as (rest & Hat & Ht).
  assert (is_live p = true) as Hlive.
  { unfold is_live. rewrite Hst. by rewrite bool_decide_true by (by left). }
  case_match eqn:Hexp.
  - destruct (release_ticket total rest rid b p ReservationState.EXPIRED) as (b' & Hrun & Hinv');
      [done|done|apply Hinv|done|set_solver|].
    revert Hrun. unfold mbind, M_bind. destruct (on_ledger _ b) as [[[]|e] b1]; [|done].
    intros ->. done.
  - apply (update_pending_at _ _ _ _ (λ p, p <| pc_ticket := (pc_ticket p)
      <| rs_phase := ReservationPhase.SENDING |> |> <| pc_sent := true |>)) in Hat
      as (b' & Hrun & Hat' & Hled & _); [|done].
    erewrite bind_run by exact Hrun. erewrite bind_run by reflexivity. simpl.
    eapply broker_inv_of; [eapply same_tickets_at; [|exact Hat']; done| |].
    + simpl. rewrite Hled. exact Ht.
    + simpl. rewrite Hled. apply Hinv.
Qed.

Lemma expire_unsent_inv total rid b :
  broker_inv total b →
  (∀ p, dict_get (b_tickets b) rid = Some p → pc_sent p = false →
        rs_state (pc_ticket p) = ReservationState.OPEN) →
  broker_inv total (expire_unsent rid b).2.
Proof.
  intros Hinv Hdisc. unfold expire_unsent. erewrite bind_run by reflexivity.
  destruct (dict_get (b_tickets b) rid) as [p|] eqn:Hg; [|done].
  destruct (pc_sent p) eqn:Hs; [done|]. specialize (Hdisc p eq_refl Hs).
  destruct (broker_inv_at _ _ _ _ Hinv Hg) as (rest & Hat & Ht).
  destruct (release_ticket total rest rid b p ReservationState.EXPIRED) as (b' & Hrun & Hinv');
    [done|done|apply Hinv| |set_solver|by rewrite Hrun].
  unfold is_live. rewrite Hdisc. by rewrite bool_decide_true by (by left).
Qed.

(** A ticket followed through a sequence of updates, with the ledger and one receipt. *)
Record tracked (rest : list (list BucketAmount)) (rid : string) (led : Ledger) (b : Broker)
    (p : PendingCall) : Prop := {
  tr_at : at_ticket rest rid b p;
  tr_ledger : b_ledger b = led
}.

Lemma track_pending rest rid led b p f {B} (k : M Broker B) (Q : result B * Broker → Prop) :
  lc_of (f p) = lc_of p → tracked rest rid led b p →
  (∀ b', tracked rest rid led b' (f p) → b_receipts b' = b_receipts b → Q (k b')) →
  Q ((update_pending rid f;; k) b).
Proof.
  intros Hlc [Hat Hled] Hk.
  destruct (update_pending_at _ _ _ _ _ Hlc Hat) as (b' & Hrun & Hat' & Hled' & Hrc & _).
  erewrite bind_run by exact Hrun. apply Hk; [|done]. split; [done|]. by rewrite Hled'.
Qed.

Lemma track_modify rest rid led b p g {B} (k : M Broker B) (Q : result B * Broker → Prop) :
  framed b (g b) → tracked rest rid led b p →
  (tracked rest rid led (g b) p → Q (k (g b))) → Q ((modify g;; k) b).
Proof.
  intros [Hs Hl] [Hat Hled] Hk. apply Hk. split; [by eapply same_tickets_at|by rewrite Hl].
Qed.

Lemma track_error now route_id code rest rid led b p {B} (k : M Broker B)
    (Q : result B * Broker → Prop) :
  tracked rest rid led b p →
  (∀ b', tracked rest rid led b' p → b_receipts b' = b_receipts b → Q (k b')) →
  Q ((on_circuit (record_error now route_id code);; k) b).
Proof.
  intros [Hat Hled] Hk. erewrite bind_run; [|rewrite on_circuit_run, record_error_run; reflexivity].
  apply Hk; [|done]. split; [eapply same_tickets_at; [|exact Hat]; done|done].
Qed.

Lemma track_success now route_id rest rid led b p {B} (k : M Broker B)
    (Q : result B * Broker → Prop) :
  tracked rest rid led b p →
  (∀ b', tracked rest rid led b' p → b_receipts b' = b_receipts b → Q (k b')) →
  Q ((on_circuit (record_success now route_id);; k) b).
Proof.
  intros [Hat Hled] Hk. destruct (record_success_run now route_id (b_circuit b)) as (obs & Hr & _).
  erewrite bind_run; [|rewrite on_circuit_run, Hr; reflexivity].
  apply Hk; [|done]. split; [eapply same_tickets_at; [|exact Hat]; done|done].
Qed.

Lemma tracked_inv total rest rid led b p p0 :
  tracked rest rid led b p → holds_of p = holds_of p0 →
  trace_inv total (led, holds_of p0 ++ rest) → 0 <= default_request_amount (config led) →
  broker_inv total b.
Proof.
  intros [Hat Hled] Hh Ht Hc. subst led. eapply broker_inv_of; [exact Hat|by rewrite Hh|done].
Qed.

Lemma live_open p st :
  is_live p = true → st ∈ [ReservationState.OPEN; ReservationState.UNKNOWN] →
  ∀ p', bucket_amounts (pc_ticket p') = bucket_amounts (pc_ticket p) →
        rs_state (pc_ticket p') = st → holds_of p' = holds_of p.
Proof.
  intros Hp Hst p' Ham Hs. apply holds_same; [|done]. rewrite Hp. unfold is_live. rewrite Hs.
  by rewrite bool_decide_true.
Qed.

Lemma handle_exception_inv total rest rid led b p now classify na_id ticket r exc :
  tracked rest rid led b p → trace_inv total (led, holds_of p ++ rest) →
  0 <= default_request_amount (config led) → is_live p = true →
  broker_inv total (handle_exception now classify na_id rid ticket r exc b).2.
Proof.
  intros Htr Ht Hc Hlive. unfold handle_exception.
  apply (track_error _ _ _ _ _ _ _ _ _ (λ x, broker_inv total x.2) Htr). clear Htr.
  intros b' Htr _. clear b. rename b' into b. erewrite bind_run by reflexivity.
  rewrite (at_get _ _ _ _ (tr_at _ _ _ _ _ Htr)). erewrite bind_run by reflexivity.
  case_match.
  - eapply (track_modify _ _ _ _ _ _ _ (λ x, broker_inv total x.2)); [|exact Htr|]; [done|].
    clear Htr. intros Htr.
    eapply (track_pending _ _ _ _ _ _ _ (λ x, broker_inv total x.2)); [|exact Htr|]; [done|].
    clear Htr. intros b1 Htr _.
    eapply (track_pending _ _ _ _ _ _ _ (λ x, broker_inv total x.2)); [|exact Htr|]; [done|].
    clear Htr. intros b2 Htr _. simpl. eapply tracked_inv; [exact Htr| |exact Ht|done].
    eapply (live_open p ReservationState.UNKNOWN); [done|set_solver|done|done].
  - destruct Htr as [Hat Hled].
    destruct (release_ticket total rest rid b p ReservationState.RELEASED) as (b' & Hrun & Hinv');
      [done|by rewrite Hled|by rewrite Hled|done|set_solver|].
    revert Hrun. unfold mbind, M_bind. destruct (on_ledger _ b) as [[[]|e] b1]; [|done].
    intros ->. done.
Qed.

(** The outcome of the send: every branch keeps the invariant, and the exceptions it can
    end in come from a settlement key that was already used. *)
Lemma receive_receipt_inv total rest rid led b p now clock ticket r receipt :
  tracked rest rid led b p → trace_inv total (led, holds_of p ++ rest) →
  0 <= default_request_amount (config led) → is_live p = true →
  ar_logical_call_id receipt = lc_of p →
  match receive_receipt now clock rid ticket r receipt b with
  | (Ok _, b') | (Err (AmbiguousSendError _), b') => broker_inv total b'
  | (Err _, b') => ∃ p', tracked rest rid led b' p' ∧ is_live p' = true ∧ holds_of p' = holds_of p
  end.
Proof.
  intros Htr Ht Hc Hlive Hlc.
  set (Q := λ x : result loc * Broker, match x with
    | (Ok _, b') | (Err (AmbiguousSendError _), b') => broker_inv total b'
    | (Err _, b') => ∃ p', tracked rest rid led b' p' ∧ is_live p' = true ∧ holds_of p' = holds_of p
    end).
  change (Q (receive_receipt now clock rid ticket r receipt b)). unfold receive_receipt.
  eapply (track_modify _ _ _ _ _ _ _ Q); [|exact Htr|]; [done|]. clear Htr. intros Htr.
  eapply (track_pending _ _ _ _ _ _ _ Q); [|exact Htr|]; [done|]. clear Htr. intros b1 Htr Hrc.
  simpl in Hrc.
  case_match; [|case_match].
  - eapply (track_pending _ _ _ _ _ _ _ Q); [|exact Htr|]; [done|]. clear Htr. intros b2 Htr _.
    eapply (track_modify _ _ _ _ _ _ _ Q); [|exact Htr|]; [done|]. clear Htr. intros Htr.
    eapply (track_pending _ _ _ _ _ _ _ Q); [|exact Htr|]; [done|]. clear Htr. intros b3 Htr _.
    eapply (track_error _ _ _ _ _ _ _ _ _ Q); [exact Htr|]. clear Htr. intros b4 Htr _.
    simpl. eapply tracked_inv; [exact Htr| |exact Ht|done].
    eapply (live_open p ReservationState.UNKNOWN); [done|set_solver|done|done].
  - eapply (track_pending _ _ _ _ _ _ _ Q); [|exact Htr|]; [done|]. clear Htr. intros b2 Htr _.
    eapply (track_pending _ _ _ _ _ _ _ Q); [|exact Htr|]; [done|]. clear Htr. intros b3 Htr _.
    eapply (track_error _ _ _ _ _ _ _ _ _ Q); [exact Htr|]. clear Htr. intros b4 Htr _.
    simpl. eapply tracked_inv; [exact Htr| |exact Ht|done].
    eapply (live_open p ReservationState.UNKNOWN); [done|set_solver|done|done].
  - eapply (track_pending _ _ _ _ _ _ _ Q); [|exact Htr|]; [done|]. clear Htr. intros b2 Htr Hrc2.
    eapply (track_pending _ _ _ _ _ _ _ Q); [|exact Htr|]; [done|]. clear Htr. intros b3 Htr Hrc3.
    eapply (track_success _ _ _ _ _ _ _ _ Q); [exact Htr|]. clear Htr. intros b4 Htr Hrc4.
    match type of Htr with tracked _ _ _ _ ?q =>
      assert (holds_of q = holds_of p) as Hh by done; assert (is_live q = true) as Hlq by done end.
    destruct (tr_ledger _ _ _ _ _ Htr). 
    edestruct (reconcile_at total rest rid b4) as [(b' & -> & Hinv)|(key & ->)].
    + apply Htr.
    + by rewrite Hh.
    + done.
    + done.
    + rewrite Hrc4, Hrc3, Hrc2, Hrc. apply lookup_insert_eq.
    + done.
    + done.
    + simpl. eexists. split; [exact Htr|]. done.
Qed.

Lemma invoke_finish_inv total rid b p now clock classify na_id ticket r outcome :
  broker_inv total b → dict_get (b_tickets b) rid = Some p → is_live p = true →
  (∀ receipt, outcome = Ok receipt → ar_logical_call_id receipt = lc_of p) →
  broker_inv total (invoke_finish now clock classify na_id rid ticket r outcome b).2.
Proof.
  intros Hinv Hg Hlive Hlc. destruct (broker_inv_at _ _ _ _ Hinv Hg) as (rest & Hat & Ht).
  assert (tracked rest rid (b_ledger b) b p) as Htr by done.
  unfold invoke_finish, try_except. destruct outcome as [receipt|exc].
  - pose proof (receive_receipt_inv total rest rid _ b p now clock ticket r receipt Htr Ht
      (bi_config _ _ Hinv) Hlive (Hlc _ eq_refl)) as H.
    destruct (receive_receipt _ _ _ _ _ _ b) as [[l|e] b']; [exact H|].
    destruct e; try exact H;
      destruct H as (p' & Htr' & Hl' & Hh); rewrite <- Hh in Ht;
      (eapply handle_exception_inv; [exact Htr'|exact Ht|apply Hinv|exact Hl']).
  - simpl. destruct exc; try exact Hinv;
      (eapply handle_exception_inv; [exact Htr|exact Ht|apply Hinv|exact Hlive]).
Qed.

(** ** Reserving a ticket *)
Lemma keeps_then {A B} (m : M Broker A) (k : A → M Broker B) (P : Broker → Prop) b :
  keeps m → (∀ b', framed b b' → P b') → (∀ a b', framed b b' → P (k a b').2) →
  P ((m ≫= k) b).2.
Proof.
  intros Hm Herr Hk. unfold mbind, M_bind. specialize (Hm b).
  destruct (m b) as [[a|e] b1]; simpl in *; auto.
Qed.

Lemma amount_for_nonneg cfg dim ei mo :
  0 <= default_request_amount cfg → 0 <= amount_for cfg dim ei mo.
Proof. intros. destruct dim; simpl; lia. Qed.

Lemma estimate_loop_nonneg s ei mo seen ids :
  0 <= default_request_amount (config s) → nonneg (estimate_loop s ei mo seen ids).1.
Proof.
  intros Hc. revert seen; induction ids as [|bid ids IH]; intros seen; simpl.
  { by intros a ?%elem_of_nil. }
  case_decide; [auto|]. specialize (IH ({[bid]} ∪ seen)).
  destruct (estimate_loop _ _ _ _ ids) as [out seen'].
  destruct (buckets s !! bid); simpl; [|done].
  intros a [->|Ha]%elem_of_cons; [by apply amount_for_nonneg|by apply IH].
Qed.

Lemma estimate_amounts_nonneg ids ei mo purpose s :
  0 <= default_request_amount (config s) → nonneg (estimate_amounts ids ei mo purpose s).
Proof.
  intros Hc. unfold estimate_amounts. pose proof (estimate_loop_nonneg s ei mo ∅ ids Hc) as H.
  destruct (estimate_loop _ _ _ _ ids) as [out seen]. simpl in H.
  repeat case_match; try done.
  intros a [Ha|[->|?%elem_of_nil]%elem_of_cons]%elem_of_app; [by apply H|simpl; lia|done].
Qed.

(** Without windows the bottleneck report only reads the ledger. *)
Lemma bottleneck_loop_reads now worst ratio amounts s :
  (∀ id live, buckets s !! id = Some live → no_window live) →
  ∃ o, bottleneck_loop now worst ratio amounts s = (Ok o, s).
Proof.
  intros Hw. revert worst ratio; induction amounts as [|a l IH]; intros worst ratio; simpl.
  { by eexists. }
  erewrite bind_run by reflexivity. destruct (buckets s !! ba_bucket_id a) as [live|] eqn:Hl.
  2: by eexists.
  assert (with_bucket (ba_bucket_id a) (_effective_remaining now) s
          = (Ok (effective_of live), s)) as Hrun.
  { unfold with_bucket, _effective_remaining. rewrite Hl.
    erewrite bind_run by (by apply no_window_maybe_reset; eauto).
    erewrite bind_run by reflexivity. unfold mret, M_ret, effective_of.
    f_equal. rewrite insert_id by done. by destruct s. }
  erewrite bind_run by exact Hrun.
  destruct (effective_of live); [|by eexists]. repeat case_match; apply IH.
Qed.

Lemma note_attempt_fresh lc_id attempt_id reserved b :
  b_logical_attempts b !! lc_id = None →
  ∃ b', note_logical_attempt lc_id attempt_id reserved b = (Ok (), b')
    ∧ b_tickets b' = b_tickets b ∧ b_ledger b' = b_ledger b
    ∧ b_logical_attempts b' = <[lc_id := {[attempt_id]} ∪ ∅]> (b_logical_attempts b).
Proof.
  intros Hn. unfold note_logical_attempt. erewrite bind_run by reflexivity. rewrite Hn.
  erewrite bind_run by reflexivity. simpl. rewrite decide_False by set_solver.
  erewrite bind_run by reflexivity. eexists. split; [reflexivity|].
  simpl. by rewrite insert_insert_eq.
Qed.

Lemma new_ticket_inv total b rsv_id lc_id p got att :
  tickets_ok b → dict_get (b_tickets b) rsv_id = None →
  b_logical_attempts b !! lc_id = None → lc_of p = lc_id →
  holds_of p = [got] → 0 <= default_request_amount (config (b_ledger b)) →
  trace_inv total (b_ledger b, got :: live_amounts (b_tickets b)) →
  broker_inv total (b <| b_logical_attempts := <[lc_id := att]> (b_logical_attempts b) |>
                      <| b_tickets := dict_set (b_tickets b) rsv_id p |>).
Proof.
  intros [Hnd Hinj Hn] Hg Hlc Hp Hh Hc Ht.
  assert (∀ k q, dict_get (b_tickets b) k = Some q → lc_of q ≠ lc_id) as Hnew.
  { intros k q Hq Heq. destruct (Hn k q Hq) as [? Hs]. congruence. }
  split; [split|..]; simpl.
  - auto with swarm.
  - intros k1 k2 p1 p2. rewrite !dict_get_set.
    repeat case_decide; intros; simplify_eq; eauto; exfalso; eapply Hnew; eauto.
  - intros k q. rewrite dict_get_set. case_decide; intros; simplify_eq.
    + rewrite lookup_insert_eq. eauto.
    + rewrite lookup_insert_ne by (intros Heq; eapply Hnew; eauto). eauto.
  - eapply trace_inv_perm; [|exact Ht]. rewrite live_amounts_new by done. by rewrite Hh.
  - done.
Qed.

Lemma framed_lookups b b' :
  framed b b' → b_tickets b' = b_tickets b ∧ b_logical_attempts b' = b_logical_attempts b
    ∧ b_ledger b' = b_ledger b.
Proof. by intros [[? ?] ?]. Qed.

Lemma file_ticket_inv total now_t now_b lc_id rsv_id dec_id request route ctx got b :
  tickets_ok b → dict_get (b_tickets b) rsv_id = None →
  b_logical_attempts b !! lc_id = None → 0 <= default_request_amount (config (b_ledger b)) →
  trace_inv total (b_ledger b, got :: live_amounts (b_tickets b)) →
  broker_inv total (file_ticket now_t now_b lc_id rsv_id dec_id request route ctx got b).2.
Proof.
  intros Hok Hrsv Hlc Hc Ht. unfold file_ticket.
  destruct (note_attempt_fresh lc_id (rq_attempt_id request) got b Hlc)
    as (b1 & Hrun & Ht1 & Hl1 & Ha1).
  erewrite bind_run by exact Hrun. erewrite bind_run by reflexivity.
  destruct (decision_for_Ok request dec_id b1) as [d Hd].
  erewrite bind_run by (apply run_eq; exact Hd).
  pose proof (framed_lookups _ _ (keeps_decision_for request dec_id b1)) as (Ht2 & Ha2 & Hl2).
  set (b2 := (decision_for request dec_id b1).2) in *. cbv beta iota.
  match goal with |- context [update_decision d ?f] =>
    pose proof (framed_lookups _ _ (keeps_update_decision d f b2)) as (Ht3 & Ha3 & Hl3);
    set (b3 := (update_decision d f b2).2) in *;
    erewrite (bind_run (update_decision d f)) by (apply run_eq; reflexivity); fold b3 end.
  destruct (bottleneck_loop_reads now_b None f_2 got (b_ledger b3)) as [bn Hbn].
  { intros id live Hlive. rewrite Hl3, Hl2, Hl1 in Hlive. by apply (inv_covered _ _ Ht id). }
  erewrite bind_run by (rewrite on_ledger_run; unfold bottleneck; rewrite Hbn; reflexivity).
  cbn [fst snd]. set (b3' := b3 <| b_ledger := b_ledger b3 |>).
  match goal with |- context [update_decision d ?f] =>
    pose proof (framed_lookups _ _ (keeps_update_decision d f b3')) as (Ht4 & Ha4 & Hl4);
    set (b4 := (update_decision d f b3').2) in *;
    erewrite (bind_run (update_decision d f)) by (apply run_eq; reflexivity); fold b4 end.
  match goal with |- context [dict_set _ rsv_id ?p] =>
    pose proof (new_ticket_inv total b rsv_id lc_id p got ({[rq_attempt_id request]} ∪ ∅)
      Hok Hrsv Hlc eq_refl eq_refl Hc Ht) as Hinv end.
  eapply framed_inv; [|exact Hinv]. clearbody b4.
  split; [split|]; simpl; [by rewrite Ht4, <- Ht1, <- Ht2, <- Ht3| |]; simpl in *; congruence.
Qed.

Lemma reserve_inv total now now_l now_t now_b lc_id rsv_id dec_id request route b :
  broker_inv total b → dict_get (b_tickets b) rsv_id = None →
  b_logical_attempts b !! lc_id = None →
  broker_inv total (reserve now now_l now_t now_b lc_id rsv_id dec_id request route b).2.
Proof.
  intros Hinv Hrsv Hlc. unfold reserve.
  assert (∀ b', framed b b' → broker_inv total b') as Hframe
    by (intros; by eapply framed_inv).
  apply keeps_then; [apply keeps_current_context|done|]. intros ctx b1 Hf1.
  apply keeps_then; [apply keeps_gets|intros; apply Hframe; by etrans|]. intros pol b2 Hf2.
  apply keeps_then; [apply keeps_of_result|intros; apply Hframe; by repeat (etrans; [done|])|].
  intros _ b3 Hf3.
  apply keeps_then; [apply keeps_on_circuit|intros; apply Hframe; by repeat (etrans; [done|])|].
  intros _ b4 Hf4.
  apply keeps_then; [by intros b'|intros; apply Hframe; by repeat (etrans; [done|])|].
  intros _ b5 Hf5. assert (framed b b5) as Hf by (by repeat (etrans; [done|])).
  specialize (Hframe _ Hf). destruct (framed_lookups _ _ Hf) as (Ht5 & Ha5 & _).
  clear Hf Hf1 Hf2 Hf3 Hf4 Hf5 b1 b2 b3 b4 Hinv. erewrite bind_run by reflexivity.
  set (amounts := estimate_amounts _ _ _ _ _).
  destruct (Ledger.reserve now_l amounts (rt_route_id route) (rq_purpose request)
    (is_probe (rq_purpose request)) (b_ledger b5)) as [[got|e] led'] eqn:Hres.
  - erewrite bind_run by (rewrite on_ledger_run, Hres; reflexivity). simpl.
    pose proof Hres as Hcfg. apply reserve_Ok in Hcfg as (_ & Hcfg & _).
    apply file_ticket_inv; simpl.
    + eapply same_tickets_ok; [|apply Hframe]. done.
    + by rewrite Ht5.
    + by rewrite Ha5.
    + rewrite Hcfg. apply Hframe.
    + eapply step_reserve_inv; [|exact Hres|apply Hframe].
      apply estimate_amounts_nonneg, Hframe.
  - erewrite bind_run_err by (rewrite on_ledger_run, Hres; reflexivity). simpl.
    pose proof Hres as Hcfg. apply reserve_Err in Hcfg as (Hcfg & _).
    split; simpl.
    + eapply same_tickets_ok; [|apply Hframe]. done.
    + eapply step_refused_inv; [exact Hres|apply Hframe].
    + rewrite Hcfg. apply Hframe.
Qed.

(** ** Disciplined runs of the broker

    One step is one call.  A ticket is invoked or expired once, the adapter answers a call
    with a receipt of that call, and ids are fresh; other than that calls of any number of
    tickets interleave freely, a send being in flight between its two halves. *)
Inductive bstep : Broker → Broker → Prop :=
  | bstep_register ctx b : bstep b (register_route ctx b)
  | bstep_assess now discovered dec_id request b :
      bstep b (assess now discovered dec_id request b).2
  | bstep_reserve now now_l now_t now_b lc_id rsv_id dec_id request route b :
      dict_get (b_tickets b) rsv_id = None →
      b_logical_attempts b !! lc_id = None →
      bstep b (reserve now now_l now_t now_b lc_id rsv_id dec_id request route b).2
  | bstep_begin now rid b :
      (∀ p, dict_get (b_tickets b) rid = Some p →
            pc_sent p = false ∧ rs_state (pc_ticket p) = ReservationState.OPEN) →
      bstep b (invoke_begin now rid b).2
  | bstep_finish now clock classify na_id rid ticket r outcome p b :
      dict_get (b_tickets b) rid = Some p → is_live p = true →
      (∀ receipt, outcome = Ok receipt → ar_logical_call_id receipt = lc_of p) →
      bstep b (invoke_finish now clock classify na_id rid ticket r outcome b).2
  | bstep_reconcile clock r receipt rid p b :
      b_receipts b !! r = Some receipt → ar_logical_call_id receipt = lc_of p →
      dict_get (b_tickets b) rid = Some p → is_live p = true →
      bstep b (reconcile clock r b).2
  | bstep_expire rid b :
      (∀ p, dict_get (b_tickets b) rid = Some p → pc_sent p = false →
            rs_state (pc_ticket p) = ReservationState.OPEN) →
      bstep b (expire_unsent rid b).2.

Definition fresh_broker (b : Broker) : Prop :=
  b_tickets b = [] ∧ fresh_ledger (b_ledger b)
  ∧ 0 <= default_request_amount (config (b_ledger b)).

Lemma fresh_broker_inv b : fresh_broker b → broker_inv (quota_total (b_ledger b)) b.
Proof.
  intros (Ht & Hf & Hc). split; [split|..]; rewrite ?Ht; try done.
  - constructor.
  - by apply fresh_trace_inv.
Qed.

Lemma bstep_inv total b b' : broker_inv total b → bstep b b' → broker_inv total b'.
Proof.
  intros Hinv Hstep.
  destruct Hstep as [ctx b|now ds dec rq b|? ? ? ? ? ? ? ? ? b Hr Hl|now rid b Hd
    |? ? ? ? rid ? ? ? p b Hg Hlive Hlc|clock r receipt rid p b Hr Hlc Hg Hlive|rid b Hd].
  - by eapply framed_inv; [|exact Hinv].
  - eapply framed_inv; [apply keeps_assess|done].
  - by apply reserve_inv.
  - by apply invoke_begin_inv.
  - by eapply invoke_finish_inv.
  - destruct (broker_inv_at _ _ _ _ Hinv Hg) as (rest & Hat & Ht).
    destruct (reconcile_at total rest rid b p clock r receipt) as [(b' & -> & ?)|(key & ->)];
      try done; apply Hinv.
  - by apply expire_unsent_inv.
Qed.

Lemma broker_inv_reachable b b' :
  fresh_broker b → rtc bstep b b' → broker_inv (quota_total (b_ledger b)) b'.
Proof.
  intros Hf Hr. eapply rtc_invariant; [|exact Hr|by apply fresh_broker_inv].
  intros x y. apply bstep_inv.
Qed.

(** C3: on buckets without windows the broker never promises quota it does not have.
    The broker starts without tickets, on buckets that have no reset window, nothing
    reserved and a non-negative remaining quota, and with a non-negative default request
    amount ([fresh_broker]).  However calls then interleave, as long as reservation and
    logical-call ids are fresh, a ticket is invoked or expired only while it is open and
    unsent, and a receipt is settled or reconciled only for a live ticket whose call it
    belongs to ([bstep]), what each bucket has reserved is exactly what the open and the
    unknown-outcome tickets hold of it; that sum fits the bucket's remaining quota, and the
    remaining quota with the charges made so far is the quota the broker started with.
    A window that resets while tickets are held does oversubscribe a bucket. *)
Theorem broker_tickets_are_covered b b' id live r :
  fresh_broker b → rtc bstep b b' →
  buckets (b_ledger b') !! id = Some live → remaining (model live) = Some r →
  reserved live = held id (live_amounts (b_tickets b'))
  ∧ held id (live_amounts (b_tickets b')) <= r
  ∧ r + settled live = quota_total (b_ledger b) id.
Proof.
  intros Hf Hr Hl Hrem. apply broker_inv_reachable in Hr as [_ Ht _]; [|done].
  destruct (inv_covered _ _ Ht id live Hl) as [_ Hc]. by apply Hc.
Qed.

(** an ambiguous send is retained, never repeated.  When the adapter fails after the
    send began, the caller sees [AmbiguousSendError], the ledger keeps the reservation
    untouched, and every later invocation of the ticket returns the retained receipt
    without sending again. *)
Theorem ambiguous_send_is_retained now clock classify na_id rid ticket r exc p b :
  dict_get (b_tickets b) rid = Some p → pc_sent p = true →
  rs_phase (pc_ticket p) = ReservationPhase.SENDING →
  (∀ msg, exc ≠ AmbiguousSendError msg) →
  ∃ b', invoke_finish now clock classify na_id rid ticket r (Err exc) b
          = (Err (AmbiguousSendError (exn_message exc)), b')
    ∧ b_ledger b' = b_ledger b
    ∧ (ar_settlement_state <$> b_receipts b' !! r) = Some SettlementState.UNKNOWN
    ∧ ∀ now2 now2' clock2 classify2 na2 r2 execute_one,
        invoke now2 now2' clock2 classify2 na2 rid r2 execute_one b' = (Ok r, b').
Proof.
  intros Hg Hs Hph Hexc.
  assert (invoke_finish now clock classify na_id rid ticket r (Err exc) b
          = handle_exception now classify na_id rid ticket r exc b) as ->.
  { unfold invoke_finish, try_except, raise. destruct exc; try done. by destruct (Hexc msg). }
  unfold handle_exception.
  erewrite bind_run by (rewrite on_circuit_run, record_error_run; reflexivity).
  erewrite bind_run by reflexivity. simpl. rewrite Hg. erewrite bind_run by reflexivity.
  rewrite Hs, Hph. simpl. erewrite bind_run by reflexivity.
  unfold update_ticket, update_pending.
  erewrite bind_run by reflexivity. erewrite bind_run by reflexivity.
  simpl. rewrite Hg. simpl. rewrite dict_get_set_eq. eexists. split; [reflexivity|].
  simpl. split_and!; [done|by rewrite lookup_insert_eq|]. intros.
  unfold invoke, invoke_begin. unfold mbind, M_bind, gets, require. simpl.
  rewrite dict_get_set_eq. simpl. by rewrite Hs.
Qed.

(** ** A concrete broker *)
Definition demo_route : RouteSnapshot :=
  mkRouteSnapshot "rt" "prov" "acc" "model" AvailabilityStatus.AVAILABLE ["qb_requests"] None [] [].
Definition demo_context : RoutePolicyContext :=
  mkRouteContext demo_route true "measured" true false BillingMode.FREE
    PurposeEligibility.INTERNAL false.
Definition demo_broker : Broker :=
  register_route demo_context
    (mkBroker (mkAdmissionPolicy false false true) demo (mkCircuit default_circuit ∅)
       (mkRetryOwner default_retry ∅) (seconds 60) ∅ [] [] ∅ ∅ ∅ 0 [] ∅ None ∅).
Definition demo_request (att : string) : InferenceRequest :=
  mkInferenceRequest att None "mission" None None.
Definition demo_receipt (lc na : string) : AttemptReceipt :=
  mkAttemptReceipt lc na None ReservationPhase.SENT None "rt" None SettlementState.PENDING.

Definition demo_reserve (n : string) (b : Broker) : Broker :=
  (reserve 0 0 0 0 ("lc" +:+ n) ("rsv" +:+ n) ("dec" +:+ n) (demo_request n) demo_route b).2.
Definition demo_begin (now : Z) (n : string) (b : Broker) : Broker :=
  (invoke_begin now ("rsv" +:+ n) b).2.
Definition demo_finish (n na : string) (r : loc) (out : result AttemptReceipt) (b : Broker) : Broker :=
  (invoke_finish 1 (λ _, 1) exn_message na ("rsv" +:+ n)
     (mkReservation ("rsv" +:+ n) ("lc" +:+ n) n "rt" [] ReservationState.OPEN
        ReservationPhase.SENDING 0) r out b).2.

(** What a bucket has left, has reserved, has charged, and how often the adapter ran. *)
Definition books (b : Broker) : option (option Z * Z * Z) * Z :=
  ((λ live, (remaining (model live), reserved live, settled live))
     <$> buckets (b_ledger b) !! "qb_requests", b_request_count b).

Lemma demo_broker_fresh : fresh_broker demo_broker.
Proof. split_and!; [done|exact demo_fresh|done]. Qed.

(** Three tickets: the first is answered, the second times out, the third stays open. *)
Definition demo_sent : Broker :=
  demo_begin 0 "2" (demo_begin 0 "1"
    (demo_reserve "3" (demo_reserve "2" (demo_reserve "1" demo_broker)))).
Definition demo_answered : Broker := demo_finish "1" "na1" 1 (Ok (demo_receipt "lc1" "na1")) demo_sent.
Definition demo_timed_out : Broker := demo_finish "2" "na2" 2 (Err (AdapterError "timeout")) demo_answered.

Lemma demo_reserve_step n b :
  dict_get (b_tickets b) ("rsv" +:+ n) = None → b_logical_attempts b !! ("lc" +:+ n) = None →
  bstep b (demo_reserve n b).
Proof. apply bstep_reserve. Qed.

Lemma demo_begin_step now n b p :
  dict_get (b_tickets b) ("rsv" +:+ n) = Some p → pc_sent p = false →
  rs_state (pc_ticket p) = ReservationState.OPEN → bstep b (demo_begin now n b).
Proof. intros Hg Hs Hst. apply bstep_begin. intros p'. rewrite Hg. by intros [= <-]. Qed.

Lemma demo_finish_step n na r out b p :
  dict_get (b_tickets b) ("rsv" +:+ n) = Some p → is_live p = true →
  (∀ receipt, out = Ok receipt → ar_logical_call_id receipt = lc_of p) →
  bstep b (demo_finish n na r out b).
Proof. apply bstep_finish. Qed.

Lemma demo_sent_run : rtc bstep demo_broker demo_sent.
Proof.
  apply (rtc_r _ (demo_begin 0 "1"
    (demo_reserve "3" (demo_reserve "2" (demo_reserve "1" demo_broker))))).
  2: by eapply demo_begin_step; vm_compute.
  apply (rtc_r _ (demo_reserve "3" (demo_reserve "2" (demo_reserve "1" demo_broker)))).
  2: by eapply demo_begin_step; vm_compute.
  apply (rtc_r _ (demo_reserve "2" (demo_reserve "1" demo_broker))).
  2: by apply demo_reserve_step; vm_compute.
  apply (rtc_r _ (demo_reserve "1" demo_broker)); [apply rtc_once|];
    by apply demo_reserve_step; vm_compute.
Qed.

Lemma demo_run : rtc bstep demo_broker demo_timed_out.
Proof.
  apply (rtc_r _ demo_answered); [apply (rtc_r _ demo_sent); [exact demo_sent_run|]|].
  - eapply demo_finish_step; [vm_compute; reflexivity..|]. by intros ? [= <-].
  - by eapply demo_finish_step; [vm_compute; reflexivity..|].
Qed.

Lemma broker_tickets_are_covered_witness :
  ∃ live, buckets (b_ledger demo_timed_out) !! "qb_requests" = Some live
    ∧ held "qb_requests" (live_amounts (b_tickets demo_timed_out)) = 2
    ∧ reserved live = held "qb_requests" (live_amounts (b_tickets demo_timed_out))
    ∧ held "qb_requests" (live_amounts (b_tickets demo_timed_out)) <= 4
    ∧ 4 + settled live = quota_total (b_ledger demo_broker) "qb_requests".
Proof.
  eexists. split; [vm_compute; reflexivity|]. split; [vm_compute; reflexivity|].
  apply (broker_tickets_are_covered demo_broker demo_timed_out "qb_requests" _ 4
    demo_broker_fresh demo_run); vm_compute; reflexivity.
Defined.

Lemma ambiguous_send_is_retained_witness :
  ∃ b', invoke_finish 1 (λ _, 1) exn_message "na" "rsv2"
          (mkReservation "rsv2" "lc2" "2" "rt" [] ReservationState.OPEN ReservationPhase.SENDING 0)
          7%nat (Err (AdapterError "timeout")) demo_sent
        = (Err (AmbiguousSendError "timeout"), b') ∧ b_ledger b' = b_ledger demo_sent.
Proof.
  destruct (ambiguous_send_is_retained 1 (λ _, 1) exn_message "na" "rsv2"
    (mkReservation "rsv2" "lc2" "2" "rt" [] ReservationState.OPEN ReservationPhase.SENDING 0)
    7%nat (AdapterError "timeout") (default (mkPendingCall (demo_request "2")
      (mkReservation "" "" "" "" [] ReservationState.OPEN ReservationPhase.SENDING 0) demo_route
      "" false false None) (dict_get (b_tickets demo_sent) "rsv2")) demo_sent)
    as (b' & H1 & H2 & _);
    [vm_compute; reflexivity|vm_compute; reflexivity|vm_compute; reflexivity|done|].
  exists b'. split; [exact H1|exact H2].
Defined.

(** ** Outside the discipline

    Expiring an unsent ticket twice gives its amounts back twice: with a second ticket
    open on the same bucket, the second expiry takes that ticket's reservation. *)
Theorem expire_twice_releases_twice :
  let b := demo_reserve "2" (demo_reserve "1" demo_broker) in
  let b1 := (expire_unsent "rsv1" b).2 in
  let b2 := (expire_unsent "rsv1" b1).2 in
  books b = (Some (Some 5, 2, 0), 0) ∧ books b1 = (Some (Some 5, 1, 0), 0)
  ∧ books b2 = (Some (Some 5, 0, 0), 0)
  ∧ (rs_state ∘ pc_ticket <$> dict_get (b_tickets b2) "rsv2") = Some ReservationState.OPEN.
Proof. vm_compute. done. Qed.

(** A ticket that was expired and whose amounts went back can still be invoked: the
    request is sent, and settled, without a reservation. *)
Theorem expired_ticket_still_sends :
  let b := (expire_unsent "rsv1" (demo_reserve "1" demo_broker)).2 in
  let b1 := demo_begin 0 "1" b in
  let b2 := demo_finish "1" "na1" 1 (Ok (demo_receipt "lc1" "na1")) b1 in
  books b = (Some (Some 5, 0, 0), 0) ∧ books b1 = (Some (Some 5, 0, 0), 1)
  ∧ books b2 = (Some (Some 4, 0, 1), 1).
Proof. vm_compute. done. Qed.

(** Two invocations of one ticket that overlap both send, and each receipt settles: one
    reservation of one request is charged twice. *)
Theorem overlapping_invokes_charge_twice :
  let b := demo_reserve "1" demo_broker in
  let b1 := demo_begin 0 "1" (demo_begin 0 "1" b) in
  let b2 := demo_finish "1" "na2" 2 (Ok (demo_receipt "lc1" "na2"))
              (demo_finish "1" "na1" 1 (Ok (demo_receipt "lc1" "na1")) b1) in
  books b = (Some (Some 5, 1, 0), 0) ∧ books b1 = (Some (Some 5, 1, 0), 2)
  ∧ books b2 = (Some (Some 3, 0, 2), 2).
Proof. vm_compute. done. Qed.
