(* ===== verification/Graph.v ===== *)
(** * Graph: validation of graph proposals (src/swarm/controller/graph.py)

    [dfs] is the depth-first search of [_would_cycle] on the dependency graph, with the
    two mutable sets [visiting] and [visited] threaded through it.  It takes fuel; one
    unit more than the graph has keys is enough, since the nodes being visited are
    distinct and all but the last of them are keys ([dfs_spec]).  The search is shown to
    decide whether the graph has a cycle. *)
From S2P Require Import Prelude Collections Contracts.

Record ValidationResult := mkValidation {
  vr_accepted : bool;
  vr_reason : string;
  vr_merged_into : option string
}.

Abbreviation graph := (dict (list string)).

(** ** Operations *)
Definition deps_of (g : graph) (node : string) : list string := default [] (dict_get g node).

Definition dep_graph (tasks : dict TaskSpec) (new_specs : list TaskSpec) : graph :=
  foldl (λ g spec, dict_set g (ts_id spec) (ts_dependency_ids spec))
    ((λ kt : string * TaskSpec, (kt.1, ts_dependency_ids kt.2)) <$> tasks) new_specs.

(** The sets [visiting] and [visited]. *)
Definition marks : Type := gset string * gset string.

(** [any(f(x) for x in l)], stopping at the first [True]. *)
Fixpoint any_loop (f : string → marks → option (bool * marks)) (l : list string) (st : marks)
    : option (bool * marks) :=
  match l with
  | [] => Some (false, st)
  | x :: l' => match f x st with
               | Some (false, st') => any_loop f l' st'
               | r => r
               end
  end.

Fixpoint dfs (fuel : nat) (g : graph) (node : string) (st : marks) : option (bool * marks) :=
  match fuel with
  | O => None
  | S fuel' =>
    let '(visiting, visited) := st in
    if decide (node ∈ visiting) then Some (true, st)
    else if decide (node ∈ visited) then Some (false, st)
    else match any_loop (dfs fuel' g) (deps_of g node) ({[node]} ∪ visiting, visited) with
         | Some (false, (visiting', visited')) =>
           Some (false, (visiting' ∖ {[node]}, {[node]} ∪ visited'))
         | r => r
         end
  end.

Definition search (g : graph) : option (bool * marks) :=
  any_loop (dfs (S (length g)) g) (dict_keys g) (∅, ∅).

Definition _would_cycle (tasks : dict TaskSpec) (new_specs : list TaskSpec) : bool :=
  match search (dep_graph tasks new_specs) with
  | Some (b, _) => b
  | None => true
  end.

Definition to_set (l : list string) : gset string := list_to_set l.

(** The scope checks of one proposed task: the reason to reject it, if any. *)
Definition scope_error (tasks : dict TaskSpec) (mission_scopes : gset string) (spec : TaskSpec)
    : option string :=
  let scopes := to_set (ts_scopes spec) in
  let crossing dep := match dict_get tasks dep with
    | None => false
    | Some parent => let pscopes := to_set (ts_scopes parent) in
        bool_decide (scopes ≠ ∅) && bool_decide (pscopes ≠ ∅) && bool_decide (scopes ∩ pscopes = ∅)
    end in
  if existsb crossing (ts_dependency_ids spec) then Some "cross_scope_dependency"
  else if negb (bool_decide (scopes ⊆ mission_scopes)) && bool_decide (mission_scopes ≠ ∅)
          && bool_decide (scopes ∩ mission_scopes = ∅)
  then Some "scope_not_in_mission" else None.

Fixpoint first_scope_error (tasks : dict TaskSpec) (mission_scopes : gset string)
    (specs : list TaskSpec) : option string :=
  match specs with
  | [] => None
  | spec :: rest => match scope_error tasks mission_scopes spec with
                    | Some reason => Some reason
                    | None => first_scope_error tasks mission_scopes rest
                    end
  end.

(** The existing task a spawned one duplicates: same objective, family and parent. *)
Definition duplicates (spec existing : TaskSpec) : bool :=
  bool_decide (ts_objective existing = ts_objective spec)
  && bool_decide (ts_task_family existing = ts_task_family spec)
  && bool_decide (ts_parent_task_id existing = ts_parent_task_id spec)
  && negb (bool_decide (ts_status existing ∈ [TaskStatus.CANCELLED; TaskStatus.SUPERSEDED])).

Definition duplicate_of (tasks : dict TaskSpec) (spec : TaskSpec) : option TaskSpec :=
  find (duplicates spec) (dict_values tasks).

(** The spawn loop: the first duplicate found, or the projected task map. *)
Fixpoint project (tasks projected : dict TaskSpec) (specs : list TaskSpec)
    : string + dict TaskSpec :=
  match specs with
  | [] => inr projected
  | spec :: rest => match duplicate_of tasks spec with
                    | Some existing => inl (ts_id existing)
                    | None => project tasks (dict_set projected (ts_id spec) spec) rest
                    end
  end.

Definition accept (reason : string) : ValidationResult := mkValidation true reason None.
Definition reject (reason : string) : ValidationResult := mkValidation false reason None.

Definition is_spawn (o : GraphOperation) : bool :=
  bool_decide (o ∈ [GraphOperation.SPAWN; GraphOperation.SPLIT]).

Definition validate_proposal (proposal : GraphProposal) (tasks : dict TaskSpec)
    (mission_revision : Z) (mission_scopes : gset string) (max_graph_nodes : Z)
    : ValidationResult :=
  let specs := gp_task_specs proposal in
  if negb (gp_based_on_revision proposal =? mission_revision)%Z then reject "stale_revision"
  else if bool_decide (gp_operation proposal = GraphOperation.STOP) then accept "stop_ok"
  else match first_scope_error tasks mission_scopes specs with
  | Some reason => reject reason
  | None =>
    if is_spawn (gp_operation proposal) then
      match project tasks tasks specs with
      | inl existing => mkValidation false "duplicate_merged" (Some existing)
      | inr projected =>
        if (max_graph_nodes <? Z.of_nat (length projected))%Z then reject "max_graph_nodes"
        else if _would_cycle projected specs then reject "cycle_rejected"
        else accept "spawn_ok"
      end
    else match gp_operation proposal with
    | GraphOperation.MERGE => accept "merge_ok"
    | GraphOperation.CHALLENGE => accept "challenge_ok"
    | GraphOperation.REASSIGN => accept "reassign_ok"
    | GraphOperation.REVISE_DEPENDENCY =>
      if _would_cycle tasks specs then reject "cycle_rejected" else accept "revise_ok"
    | _ => accept "accepted"
    end
  end.

(** ** The search decides cyclicity *)
Section search.
Context (g : graph).

Definition edge (x y : string) : Prop := y ∈ deps_of g x.
Definition cyclic : Prop := ∃ x, tc edge x x.

(** What holds of the finished nodes: they are closed under dependencies and on no cycle. *)
Definition finished (B : gset string) : Prop :=
  (∀ x y, x ∈ B → edge x y → y ∈ B) ∧ (∀ x, x ∈ B → ¬ tc edge x x).

(** What a search from [done] returns for the grey nodes [V]. *)
Definition explored (V : gset string) (todo : list string) (B : gset string)
    (r : option (bool * marks)) : Prop :=
  ∃ b V1 B1, r = Some (b, (V1, B1)) ∧
    if b then cyclic
    else V1 = V ∧ B ⊆ B1 ∧ (∀ x, x ∈ todo → x ∈ B1) ∧ finished B1.

Lemma any_loop_spec f V l B :
  (∀ x B', x ∈ l → finished B' → explored V [x] B' (f x (V, B'))) →
  finished B → explored V l B (any_loop f l (V, B)).
Proof.
  revert B; induction l as [|x l IH]; intros B Hf HB; simpl.
  { exists false, V, B. split_and!; [done..|by intros ? ?%elem_of_nil|done]. }
  destruct (Hf x B (list_elem_of_here x l) HB) as ([] & V1 & B1 & -> & H).
  { by exists true, V1, B1. }
  destruct H as (-> & Hsub & Hx & HB1).
  destruct (IH B1) as (b & V2 & B2 & -> & H); [|done|].
  { intros y B' Hy. apply Hf. by right. }
  exists b, V2, B2. split; [done|]. destruct b; [done|]. destruct H as (-> & Hsub2 & Hl & HB2).
  split_and!; [done|set_solver| |done].
  intros y [->|Hy]%elem_of_cons; [|auto]. apply Hsub2, Hx. by left.
Qed.

Lemma closed_rtc B x y : finished B → x ∈ B → rtc edge x y → y ∈ B.
Proof. intros [Hc _] Hx Hr. induction Hr; eauto. Qed.

Lemma tc_first x z : tc edge x z → ∃ y, edge x y ∧ rtc edge y z.
Proof. destruct 1; [by eauto using rtc_refl|eauto using tc_rtc]. Qed.

Lemma finished_add B node :
  finished B → (∀ y, edge node y → y ∈ B) → finished ({[node]} ∪ B).
Proof.
  intros HB Hdeps. pose proof HB as [Hc Ha]. split.
  - intros x y [->%elem_of_singleton|Hx]%elem_of_union Hxy;
      (apply elem_of_union; right); eauto.
  - intros x [->%elem_of_singleton|Hx]%elem_of_union Hcyc; [|by eapply Ha].
    apply (Ha node); [|done]. apply tc_first in Hcyc as (y & Hy & Hr).
    eapply closed_rtc; eauto.
Qed.

Definition keyset : gset string := to_set (dict_keys g).

Lemma size_visit V node :
  node ∈ keyset → node ∉ V → size (keyset ∖ ({[node]} ∪ V)) < size (keyset ∖ V).
Proof. intros. apply subset_size. set_solver. Qed.

Lemma deps_of_missing node : node ∉ keyset → deps_of g node = [].
Proof.
  unfold keyset, to_set, deps_of. rewrite elem_of_list_to_set. intros Hn.
  destruct (dict_get g node) eqn:Hg; [|done]. destruct Hn. apply dict_get_keys. by rewrite Hg.
Qed.

Lemma dfs_spec fuel node V B :
  size (keyset ∖ V) < fuel → (∀ v, v ∈ V → tc edge v node) → finished B →
  explored V [node] B (dfs fuel g node (V, B)).
Proof.
  revert node V B; induction fuel as [|fuel IH]; intros node V B Hfuel HV HB; [lia|]. simpl.
  case_decide as Hgrey; [exists true, V, B; split; [done|]; exists node; auto|].
  case_decide as Hblack.
  { exists false, V, B. split_and!; [done..| |done]. by intros y ->%list_elem_of_singleton. }
  destruct (any_loop_spec (dfs fuel g) ({[node]} ∪ V) (deps_of g node) B)
    as (b & V1 & B1 & -> & H); [|done|].
  { intros y B' Hy HB'. apply IH; [| |done].
    - destruct (decide (node ∈ keyset)) as [Hk|Hk].
      + pose proof (size_visit V node Hk Hgrey). lia.
      + rewrite deps_of_missing in Hy by done. by apply elem_of_nil in Hy.
    - intros v [->%elem_of_singleton|Hv]%elem_of_union; [by apply tc_once|].
      eapply tc_r; [by apply HV|exact Hy]. }
  destruct b; [by exists true, V1, B1|]. destruct H as (-> & Hsub & Hdeps & HB1).
  eexists false, _, _. split; [reflexivity|]. split_and!.
  - apply leibniz_equiv. set_solver.
  - set_solver.
  - intros y ->%list_elem_of_singleton. set_solver.
  - by apply finished_add.
Qed.

Lemma search_spec : explored ∅ (dict_keys g) ∅ (search g).
Proof.
  apply any_loop_spec; [|split; intros x; set_solver].
  intros x B Hx HB. apply dfs_spec; [|set_solver|done].
  assert (size (keyset ∖ ∅) ≤ length g); [|lia].
  rewrite difference_empty_L. unfold keyset, to_set, dict_keys. clear.
  induction g as [|[k v] d IH]; csimpl; [done|].
  pose proof (size_union_alt {[k]} (list_to_set d.*1 : gset string)) as Hs.
  rewrite size_singleton in Hs. rewrite Hs.
  assert (size (list_to_set d.*1 ∖ {[k]} : gset string) ≤ size (list_to_set d.*1 : gset string));
    [apply subseteq_size; set_solver|lia].
Qed.

Lemma edge_key x y : edge x y → x ∈ dict_keys g.
Proof.
  unfold edge, deps_of. intros Hy. apply dict_get_keys.
  destruct (dict_get g x); [by eexists|by apply elem_of_nil in Hy].
Qed.

(** The search returns, and returns [true] exactly on cyclic graphs. *)
Lemma search_decides : ∃ b st, search g = Some (b, st) ∧ (b = true ↔ cyclic).
Proof.
  destruct search_spec as (b & V & B & Hs & H). exists b, (V, B). split; [done|].
  destruct b; [done|]. split; [done|]. destruct H as (_ & _ & Hkeys & HB).
  intros [x Hx]. exfalso. apply (proj2 HB x); [|done]. apply Hkeys.
  apply tc_first in Hx as (y & Hy & _). by eapply edge_key.
Qed.
End search.

Lemma cyclic_ext g1 g2 : (∀ k, deps_of g1 k = deps_of g2 k) → cyclic g1 ↔ cyclic g2.
Proof.
  assert (∀ ga gb, (∀ k, deps_of ga k = deps_of gb k) → cyclic ga → cyclic gb) as H.
  { intros ga gb He [x Hx]. exists x.
    assert (∀ a b, tc (edge ga) a b → tc (edge gb) a b) as Htc; [|by apply Htc].
    induction 1; [apply tc_once|eapply tc_l; [|done]]; unfold edge in *; by rewrite <- He. }
  intros He. split; apply H; auto.
Qed.

(** Adding tasks to a task map, one [task_map[id] = spec] after the other. *)
Definition add_tasks (f : TaskSpec → TaskSpec) (tasks : dict TaskSpec) (specs : list TaskSpec)
    : dict TaskSpec :=
  foldl (λ d spec, dict_set d (ts_id spec) (f spec)) tasks specs.

(** The dependency graph of a task map. *)
Definition task_graph (tasks : dict TaskSpec) : graph := dep_graph tasks [].

Lemma task_graph_add f tasks specs :
  (∀ s, s ∈ specs → ts_dependency_ids (f s) = ts_dependency_ids s) →
  task_graph (add_tasks f tasks specs) = dep_graph tasks specs.
Proof.
  unfold task_graph, dep_graph, add_tasks. simpl.
  revert tasks; induction specs as [|s specs IH]; intros tasks Hf; simpl; [done|].
  rewrite IH by (intros; apply Hf; by right). rewrite dict_set_fmap.
  by rewrite Hf by (by left).
Qed.

Lemma deps_of_task_graph tasks k :
  deps_of (task_graph tasks) k = default [] (ts_dependency_ids <$> dict_get tasks k).
Proof. unfold deps_of, task_graph, dep_graph. simpl. by rewrite dict_get_fmap. Qed.

Lemma length_task_graph tasks : length (task_graph tasks) = length tasks.
Proof. unfold task_graph, dep_graph. simpl. by rewrite length_fmap. Qed.

Lemma add_tasks_agree f specs d1 d2 :
  (∀ k, (∃ s, s ∈ specs ∧ ts_id s = k) ∨ dict_get d1 k = dict_get d2 k) →
  ∀ k, dict_get (add_tasks f d1 specs) k = dict_get (add_tasks f d2 specs) k.
Proof.
  unfold add_tasks. revert d1 d2; induction specs as [|s specs IH]; intros d1 d2 H k; simpl.
  { destruct (H k) as [(? & ?%elem_of_nil & _)|?]; done. }
  apply IH. intros k'. rewrite !dict_get_set.
  destruct (H k') as [(s' & [->|Hs']%elem_of_cons & <-)|Hk].
  - right. by rewrite !decide_True.
  - left. eauto.
  - right. by rewrite Hk.
Qed.

Lemma add_tasks_other f specs d k :
  (∀ s, s ∈ specs → ts_id s ≠ k) → dict_get (add_tasks f d specs) k = dict_get d k.
Proof.
  unfold add_tasks. revert d; induction specs as [|s specs IH]; intros d H; simpl; [done|].
  rewrite IH by (intros; apply H; by right). apply dict_get_set_ne, H. by left.
Qed.

(** Adding the same tasks again changes no entry. *)
Lemma add_tasks_idemp f specs d k :
  dict_get (add_tasks f (add_tasks f d specs) specs) k = dict_get (add_tasks f d specs) k.
Proof.
  apply add_tasks_agree. clear k. intros k.
  destruct (decide (Exists (λ s, ts_id s = k) specs)) as [H|H].
  - left. apply Exists_exists in H. naive_solver.
  - right. apply add_tasks_other. intros s Hs Heq. apply H, Exists_exists. eauto.
Qed.

Lemma project_inr tasks projected specs p :
  project tasks projected specs = inr p →
  p = add_tasks id projected specs ∧ ∀ s, s ∈ specs → duplicate_of tasks s = None.
Proof.
  revert projected; induction specs as [|s specs IH]; intros projected; simpl.
  { intros [= <-]. split; [done|]. by intros ? ?%elem_of_nil. }
  destruct (duplicate_of tasks s) eqn:Hd; [done|]. intros [-> Hs]%IH.
  split; [done|]. intros s' [->|?]%elem_of_cons; auto.
Qed.

(** The tasks an accepted spawn adds leave the graph acyclic and within its bound. *)
Lemma spawn_accepted_graph proposal tasks revision scopes max_nodes f :
  (∀ s, ts_dependency_ids (f s) = ts_dependency_ids s) →
  is_spawn (gp_operation proposal) = true →
  vr_accepted (validate_proposal proposal tasks revision scopes max_nodes) = true →
  let tasks' := add_tasks f tasks (gp_task_specs proposal) in
  gp_based_on_revision proposal = revision
  ∧ ¬ cyclic (task_graph tasks') ∧ (Z.of_nat (length tasks') <= max_nodes)%Z.
Proof.
  intros Hf Hsp. unfold validate_proposal. case_match eqn:Hrev; [done|]. bool_to_prop.
  rewrite bool_decide_false by (intros He; by rewrite He in Hsp).
  destruct (first_scope_error _ _ _); [done|]. rewrite Hsp.
  destruct (project _ _ _) as [?|p] eqn:Hp; [done|]. case_match eqn:Hlen; [done|].
  destruct (_would_cycle p (gp_task_specs proposal)) eqn:Hc; [done|]. intros _.
  apply project_inr in Hp as [-> _]. bool_to_prop. split; [done|].
  set (specs := gp_task_specs proposal) in *.
  assert (task_graph (add_tasks f tasks specs) = task_graph (add_tasks id tasks specs)) as Hg
    by (rewrite (task_graph_add f), (task_graph_add id) by auto; done).
  split; [|by rewrite <- length_task_graph, Hg, length_task_graph].
  rewrite Hg. intros Hcyc. unfold _would_cycle in Hc.
  assert (¬ cyclic (dep_graph (add_tasks id tasks specs) specs)) as Hn.
  { destruct (search_decides (dep_graph (add_tasks id tasks specs) specs)) as (b & st & Hs & Hb).
    rewrite Hs in Hc. subst b. intros Hx%Hb. done. }
  apply Hn. rewrite <- (task_graph_add id) by done. eapply cyclic_ext; [|exact Hcyc].
  intros k. rewrite !deps_of_task_graph. by rewrite add_tasks_idemp.
Qed.

(** C18: the cycle check is exact.  [_would_cycle] returns on every task map and list of
    proposed tasks, and answers [True] precisely when the dependencies of the projected
    graph (proposed tasks replacing existing ones of the same id) contain a cycle. *)
Theorem would_cycle_iff_cyclic tasks specs :
  is_Some (search (dep_graph tasks specs))
  ∧ (_would_cycle tasks specs = true
     ↔ ∃ x, tc (λ a b, b ∈ deps_of (dep_graph tasks specs) a) x x).
Proof.
  destruct (search_decides (dep_graph tasks specs)) as (b & st & Hs & Hb).
  unfold _would_cycle. rewrite Hs. split; [by eexists|exact Hb].
Qed.
