(* ===== verification/Profiles.v ===== *)
(** * Profiles: measured capability profiles
    (src/swarm/evals/profiles.py, src/swarm/evals/wilson.py)

    A [ProfileStore] accumulates evaluation results per profile key and derives a routing
    state from them; the scheduler admits work by [query].  The Wilson bound is computed
    in binary64 ([PyFloat]).  The labels of a run (harness, prompt, ...) are grouped in
    [RunLabels]; size features and decoding settings, which nothing reads, are dropped. *)
From S2P Require Import Prelude Collections Contracts PyFloat.
From Stdlib Require Import Floats.SpecFloat.
Open Scope Z_scope.

Record QualificationPolicy := mkQualificationPolicy {
  policy_version : string;
  provisional_min_distinct : Z;
  qualified_low_risk_min_distinct : Z;
  qualified_low_risk_wilson : float;
  qualified_medium_risk_min_distinct : Z;
  qualified_medium_risk_wilson : float;
  allow_qualified_on_starter_archive : bool
}.

Definition default_qualification : QualificationPolicy :=
  mkQualificationPolicy "qual-policy-v1" 2 30 (truediv 85 100) 60 (truediv 90 100) false.

Record EvalResult := mkEvalResult {
  er_distinct_case_id : string;
  er_route_fingerprint : string;
  er_correctness : option bool;
  er_policy_violation : bool
}.

Record RunLabels := mkRunLabels {
  rl_task_family : string;
  rl_size_band : string;
  rl_harness_version : string;
  rl_prompt_version : string;
  rl_tool_protocol : string;
  rl_dataset_version : string;
  rl_model_revision : string
}.

Record CapabilityProfile := mkProfile {
  cp_profile_key : string;
  cp_route_fingerprint : string;
  cp_task_family : string;
  cp_harness_version : string;
  cp_prompt_version : string;
  cp_tool_protocol : string;
  cp_dataset_version : string;
  cp_distinct_case_count : Z;
  cp_repeated_run_count : Z;
  cp_pass_count : Z;
  cp_lower_bound : option float;
  cp_routing_state : RoutingState
}.
#[export] Instance eta_CapabilityProfile : Eta CapabilityProfile := λ r,
  mkProfile (cp_profile_key r) (cp_route_fingerprint r) (cp_task_family r)
    (cp_harness_version r) (cp_prompt_version r) (cp_tool_protocol r) (cp_dataset_version r)
    (cp_distinct_case_count r) (cp_repeated_run_count r) (cp_pass_count r) (cp_lower_bound r)
    (cp_routing_state r).

Record ProfileStore := mkProfileStore {
  ps_policy : QualificationPolicy;
  ps_profiles : dict CapabilityProfile;
  ps_results : list EvalResult;
  ps_distinct_cases : gmap string (gset string);
  ps_repeat_counts : gmap string Z;
  ps_pass_distinct : gmap string (gset string);
  ps_policy_failures : gmap string Z;
  ps_simulated : gset string
}.
#[export] Instance eta_ProfileStore : Eta ProfileStore := λ r,
  mkProfileStore (ps_policy r) (ps_profiles r) (ps_results r) (ps_distinct_cases r)
    (ps_repeat_counts r) (ps_pass_distinct r) (ps_policy_failures r) (ps_simulated r).

Definition new_store (pol : QualificationPolicy) : ProfileStore :=
  mkProfileStore pol [] [] ∅ ∅ ∅ ∅ ∅.

(** ** Operations *)
Definition f_1_96 : float := truediv 196 100.
Definition f_4 : float := float_of_Z 4.
Definition fsqrt : float → float := SFsqrt 53 1024.

Definition wilson_lower_bound (successes n : Z) (z : float) : result (option float) :=
  if n <=? 0 then Ok None
  else if (successes <? 0) || (n <? successes) then Err (ValueError "successes must be in [0, n]")
  else
    let p := truediv successes n in
    let fn := float_of_Z n in
    let z2 := fmul z z in
    let denom := fadd f_1 (fdiv z2 fn) in
    let centre := fadd p (fdiv z2 (fmul f_2 fn)) in
    let margin := fmul z (fsqrt (fdiv (fadd (fmul p (fsub f_1 p)) (fdiv z2 (fmul f_4 fn))) fn)) in
    Ok (Some (fdiv (fsub centre margin) denom)).

(** ["|".join([...])]. *)
Definition profile_key (route_fingerprint : string) (l : RunLabels) : string :=
  route_fingerprint +:+ "|" +:+ rl_task_family l +:+ "|" +:+ rl_size_band l +:+ "|"
  +:+ rl_model_revision l +:+ "|" +:+ rl_harness_version l +:+ "|" +:+ rl_prompt_version l
  +:+ "|" +:+ rl_tool_protocol l +:+ "|" +:+ rl_dataset_version l.

Definition count_of (m : gmap string Z) (key : string) : Z := default 0 (m !! key).
Definition set_of (m : gmap string (gset string)) (key : string) : gset string :=
  default ∅ (m !! key).

Definition _derive_state (s : ProfileStore) (key : string) (distinct_n : Z) (lower : option float)
    : RoutingState :=
  let pol := ps_policy s in
  let at_least n w := match lower with
                      | Some lo => (n <=? distinct_n) && fleb w lo
                      | None => false
                      end in
  if 0 <? count_of (ps_policy_failures s) key then RoutingState.QUARANTINED
  else if distinct_n <? provisional_min_distinct pol then RoutingState.UNASSESSED
  else if negb (allow_qualified_on_starter_archive pol) then
    if provisional_min_distinct pol <=? distinct_n then RoutingState.PROVISIONAL
    else RoutingState.UNASSESSED
  else if at_least (qualified_medium_risk_min_distinct pol) (qualified_medium_risk_wilson pol)
  then RoutingState.QUALIFIED
  else if at_least (qualified_low_risk_min_distinct pol) (qualified_low_risk_wilson pol)
  then RoutingState.QUALIFIED
  else RoutingState.PROVISIONAL.

(** The counters after one live result. *)
Definition tally (result : EvalResult) (key : string) (s : ProfileStore) : ProfileStore :=
  let case := er_distinct_case_id result in
  let cases := set_of (ps_distinct_cases s) key in
  let s := s <| ps_results := ps_results s ++ [result] |>
             <| ps_distinct_cases := <[key := {[case]} ∪ cases]> (ps_distinct_cases s) |> in
  let s := if decide (case ∈ cases)
           then s <| ps_repeat_counts := <[key := count_of (ps_repeat_counts s) key + 1]>
                                           (ps_repeat_counts s) |>
           else s in
  let s := match er_correctness result with
           | Some true => s <| ps_pass_distinct := <[key := {[case]} ∪ set_of (ps_pass_distinct s) key]>
                                                   (ps_pass_distinct s) |>
           | _ => s
           end in
  if er_policy_violation result
  then s <| ps_policy_failures := <[key := count_of (ps_policy_failures s) key + 1]>
                                    (ps_policy_failures s) |>
  else s.

Definition profile_of (key : string) (result : EvalResult) (l : RunLabels)
    (distinct repeated pass : Z) (lower : option float) (state : RoutingState) : CapabilityProfile :=
  mkProfile key (er_route_fingerprint result) (rl_task_family l) (rl_harness_version l)
    (rl_prompt_version l) (rl_tool_protocol l) (rl_dataset_version l) distinct repeated pass
    lower state.

Definition size_Z (s : gset string) : Z := Z.of_nat (size s).

Definition record_result (result : EvalResult) (l : RunLabels) (simulated : bool)
    : M ProfileStore CapabilityProfile :=
  let key := profile_key (er_route_fingerprint result) l in
  if simulated then
    modify (λ s, s <| ps_simulated := {[key]} ∪ ps_simulated s |>);;
    mret (profile_of key result l 0 0 0 None RoutingState.UNASSESSED)
  else
    modify (tally result key);;
    s ← get_state;
    let distinct_n := size_Z (set_of (ps_distinct_cases s) key) in
    let pass_n := size_Z (set_of (ps_pass_distinct s) key) in
    lower ← of_result (wilson_lower_bound pass_n distinct_n f_1_96);
    let state := _derive_state s key distinct_n lower in
    let profile := profile_of key result l distinct_n (count_of (ps_repeat_counts s) key) pass_n
                     lower state in
    put_state (s <| ps_profiles := dict_set (ps_profiles s) key profile |>);;
    mret profile.

(** Every profile of the route is marked stale in place; the keys are returned in order. *)
Definition stale_if (route_fingerprint : string) (p : CapabilityProfile) : CapabilityProfile :=
  if bool_decide (cp_route_fingerprint p = route_fingerprint)
  then p <| cp_routing_state := RoutingState.STALE |> else p.

Definition mark_alias_stale (route_fingerprint : string) (s : ProfileStore)
    : list string * ProfileStore :=
  ((List.filter (λ kp, bool_decide (cp_route_fingerprint kp.2 = route_fingerprint))
      (ps_profiles s)).*1,
   s <| ps_profiles := (λ kp : string * _, (kp.1, stale_if route_fingerprint kp.2))
                         <$> ps_profiles s |>).

Definition state_order (s : RoutingState) : Z :=
  match s with
  | RoutingState.UNASSESSED => 0
  | RoutingState.PROVISIONAL => 1
  | RoutingState.REVIEW_ONLY => 2
  | RoutingState.QUALIFIED => 3
  | RoutingState.STALE => -1
  | RoutingState.QUARANTINED => -2
  end.

Definition matches_query (task_family : option string) (min_state : option RoutingState)
    (p : CapabilityProfile) : bool :=
  negb (match task_family with
        | Some f => negb (bool_decide (f = "")) && negb (bool_decide (cp_task_family p = f))
        | None => false
        end)
  && negb (match min_state with
           | Some m => state_order (cp_routing_state p) <? state_order m
           | None => false
           end)
  && negb (bool_decide (cp_routing_state p ∈ [RoutingState.QUARANTINED; RoutingState.STALE])
           && bool_decide (min_state ∈ [Some RoutingState.QUALIFIED; Some RoutingState.PROVISIONAL])).

Definition query (task_family : option string) (min_state : option RoutingState)
    (s : ProfileStore) : list CapabilityProfile :=
  List.filter (matches_query task_family min_state) (dict_values (ps_profiles s)).

(** ** Properties *)

(** Live operations of the store. *)
Inductive store_op :=
  | OpRecord (result : EvalResult) (l : RunLabels) (simulated : bool)
  | OpStale (route_fingerprint : string).

Definition apply_op (s : ProfileStore) (o : store_op) : ProfileStore :=
  match o with
  | OpRecord result l simulated => (record_result result l simulated s).2
  | OpStale fp => (mark_alias_stale fp s).2
  end.

(** Passed cases are among the distinct cases, so the Wilson bound is always defined; a
    profile is stored once, under its own key. *)
Record store_wf (s : ProfileStore) : Prop := {
  wf_passed : ∀ key, set_of (ps_pass_distinct s) key ⊆ set_of (ps_distinct_cases s) key;
  wf_failures : ∀ key, 0 <= count_of (ps_policy_failures s) key;
  wf_nodup : NoDup (dict_keys (ps_profiles s));
  wf_keyed : ∀ key p, (key, p) ∈ ps_profiles s → cp_profile_key p = key
}.

Lemma set_of_insert m key key' v :
  set_of (<[key := v]> m) key' = if decide (key = key') then v else set_of m key'.
Proof.
  unfold set_of. case_decide; subst; [by rewrite lookup_insert_eq|by rewrite lookup_insert_ne].
Qed.

Lemma count_of_insert m key key' v :
  count_of (<[key := v]> m) key' = if decide (key = key') then v else count_of m key'.
Proof.
  unfold count_of. case_decide; subst; [by rewrite lookup_insert_eq|by rewrite lookup_insert_ne].
Qed.

Lemma tally_fields result key s :
  let s' := tally result key s in
  let case := er_distinct_case_id result in
  ps_policy s' = ps_policy s ∧ ps_profiles s' = ps_profiles s
  ∧ ps_distinct_cases s' = <[key := {[case]} ∪ set_of (ps_distinct_cases s) key]> (ps_distinct_cases s)
  ∧ ps_pass_distinct s' = (match er_correctness result with
      | Some true => <[key := {[case]} ∪ set_of (ps_pass_distinct s) key]> (ps_pass_distinct s)
      | _ => ps_pass_distinct s end)
  ∧ ps_policy_failures s' = (if er_policy_violation result
      then <[key := count_of (ps_policy_failures s) key + 1]> (ps_policy_failures s)
      else ps_policy_failures s).
Proof. unfold tally. repeat case_match; simplify_eq; done. Qed.

Lemma tally_wf result key s : store_wf s → store_wf (tally result key s).
Proof.
  intros [Hpass Hfail Hnd Hk]. destruct (tally_fields result key s) as (_ & Hp & Hd & Hpd & Hf).
  split; rewrite ?Hp, ?Hd, ?Hpd, ?Hf; [| |done|done]; intros k.
  - specialize (Hpass k). rewrite set_of_insert.
    destruct (er_correctness result) as [[]|]; rewrite ?set_of_insert; case_decide; set_solver.
  - specialize (Hfail k). case_match; [|done]. rewrite count_of_insert. case_decide; subst; lia.
Qed.

Lemma wilson_defined p n : 0 <= p <= n → ∃ lo, wilson_lower_bound p n f_1_96 = Ok lo.
Proof.
  intros H. unfold wilson_lower_bound. destruct (n <=? 0) eqn:?; [by eexists|].
  destruct (p <? 0) eqn:?; bool_to_prop; [lia|]. destruct (n <? p) eqn:?; bool_to_prop; [lia|].
  by eexists.
Qed.

(** A live result always yields a profile, the one stored under its key. *)
Lemma record_live_run result l s :
  store_wf s →
  let key := profile_key (er_route_fingerprint result) l in
  let s1 := tally result key s in
  ∃ profile, record_result result l false s
    = (Ok profile, s1 <| ps_profiles := dict_set (ps_profiles s) key profile |>)
    ∧ cp_profile_key profile = key
    ∧ cp_distinct_case_count profile = size_Z (set_of (ps_distinct_cases s1) key)
    ∧ 0 <= cp_pass_count profile <= cp_distinct_case_count profile
    ∧ cp_routing_state profile = _derive_state s1 key (cp_distinct_case_count profile)
                                  (cp_lower_bound profile).
Proof.
  intros Hwf key s1. apply (tally_wf result key) in Hwf. fold s1 in Hwf.
  assert (0 <= size_Z (set_of (ps_pass_distinct s1) key)
          <= size_Z (set_of (ps_distinct_cases s1) key)) as Hle.
  { unfold size_Z. split; [lia|]. apply Nat2Z.inj_le, subseteq_size, (wf_passed _ Hwf). }
  unfold record_result. fold key. cbv zeta iota. erewrite bind_run by reflexivity.
  erewrite bind_run by reflexivity. fold s1.
  destruct (wilson_defined (size_Z (set_of (ps_pass_distinct s1) key))
    (size_Z (set_of (ps_distinct_cases s1) key))) as [lo Hlo]; [done|].
  erewrite bind_run by (unfold of_result; rewrite Hlo; reflexivity).
  erewrite bind_run by reflexivity.
  destruct (tally_fields result key s) as (_ & Hp & _). fold s1 in Hp. rewrite <- Hp.
  eexists. split; [reflexivity|done].
Qed.

(** Once a key has a policy failure its stored profile is quarantined or stale. *)
Definition quarantined (key : string) (s : ProfileStore) : Prop :=
  0 < count_of (ps_policy_failures s) key
  ∧ ∀ p, dict_get (ps_profiles s) key = Some p →
      cp_routing_state p ∈ [RoutingState.QUARANTINED; RoutingState.STALE].

Lemma record_live_wf result l s : store_wf s → store_wf (record_result result l false s).2.
Proof.
  intros Hwf. destruct (record_live_run result l s Hwf) as (p & -> & Hkey & _).
  set (key := profile_key _ l) in *. pose proof (tally_wf result key s Hwf) as [H1 H2 _ _].
  destruct Hwf as [_ _ Hnd Hk]. split; simpl; [done|done|auto with swarm|].
  intros k q [[-> ->]|Hq]%dict_elem_set; eauto.
Qed.

Lemma mark_stale_profiles fp s :
  ps_profiles (mark_alias_stale fp s).2
  = (λ kp : string * _, (kp.1, stale_if fp kp.2)) <$> ps_profiles s.
Proof. done. Qed.

Lemma mark_stale_wf fp s : store_wf s → store_wf (mark_alias_stale fp s).2.
Proof.
  intros [H1 H2 Hnd Hk]. split;
    [done|done|by rewrite mark_stale_profiles, dict_keys_fmap|].
  intros key p ([k q] & Heq & Hin)%list_elem_of_fmap. simplify_eq/=.
  unfold stale_if. case_match; simpl; eauto.
Qed.

Lemma apply_op_wf s o : store_wf s → store_wf (apply_op s o).
Proof.
  intros Hwf. destruct o as [result l []|fp].
  - by destruct Hwf.
  - by apply record_live_wf.
  - by apply mark_stale_wf.
Qed.

Lemma ops_wf ops s : store_wf s → store_wf (foldl apply_op s ops).
Proof. revert s; induction ops as [|o ops IH]; intros s Hwf; [done|]. by apply IH, apply_op_wf. Qed.

Lemma tally_failures result key key' s :
  store_wf s → 0 < count_of (ps_policy_failures s) key' →
  0 < count_of (ps_policy_failures (tally result key s)) key'.
Proof.
  intros [_ Hf _ _] H. destruct (tally_fields result key s) as (_ & _ & _ & _ & ->).
  case_match; [|done]. rewrite count_of_insert. case_decide; subst; lia.
Qed.

Lemma record_quarantined result l s key :
  store_wf s → 0 < count_of (ps_policy_failures (tally result (profile_key (er_route_fingerprint result) l) s)) key →
  (profile_key (er_route_fingerprint result) l ≠ key → quarantined key s) →
  quarantined key (record_result result l false s).2.
Proof.
  intros Hwf Hc Hother. destruct (record_live_run result l s Hwf) as (p & -> & _ & _ & _ & Hst).
  split; [done|]. intros q. simpl. rewrite dict_get_set. case_decide as Hk.
  - intros [= <-]. rewrite Hst, Hk. unfold _derive_state. rewrite Hk in Hc.
    rewrite (proj2 (Z.ltb_lt 0 _)) by done. set_solver.
  - apply Hother. done.
Qed.

Lemma apply_op_quarantined key s o :
  store_wf s → quarantined key s → quarantined key (apply_op s o).
Proof.
  intros Hwf Hq. pose proof Hq as [Hc Hp]. destruct o as [result l []|fp].
  - done.
  - apply record_quarantined; [done|by apply tally_failures|done].
  - split; [done|]. intros q. cbn [apply_op]. rewrite mark_stale_profiles, dict_get_fmap.
    intros (p & Hg & ->)%fmap_Some. unfold stale_if. case_match; [set_solver|by apply Hp].
Qed.

Lemma violation_quarantines result l s :
  store_wf s → er_policy_violation result = true →
  quarantined (profile_key (er_route_fingerprint result) l) (record_result result l false s).2.
Proof.
  intros Hwf Hv. apply record_quarantined; [done| |done].
  destruct (tally_fields result (profile_key (er_route_fingerprint result) l) s)
    as (_ & _ & _ & _ & ->).
  rewrite Hv, count_of_insert, decide_True by done. pose proof (wf_failures _ Hwf
    (profile_key (er_route_fingerprint result) l)). lia.
Qed.

Lemma ops_quarantined key ops s :
  store_wf s → quarantined key s → quarantined key (foldl apply_op s ops).
Proof.
  revert s; induction ops as [|o ops IH]; intros s Hwf Hq; [done|].
  apply IH; [by apply apply_op_wf|by apply apply_op_quarantined].
Qed.

Lemma query_excludes family min_state s key p :
  store_wf s → quarantined key s →
  min_state ∈ [RoutingState.PROVISIONAL; RoutingState.QUALIFIED] →
  p ∈ query family (Some min_state) s → cp_profile_key p ≠ key.
Proof.
  intros Hwf [_ Hq] Hmin [Hin Hm]%list_elem_of_In%List.filter_In <-.
  apply list_elem_of_In, dict_values_elem in Hin as [k Hin].
  pose proof (wf_keyed _ Hwf _ _ Hin) as <-. apply dict_elem_get in Hin; [|apply Hwf].
  specialize (Hq p Hin). unfold matches_query in Hm.
  assert (state_order (cp_routing_state p) < state_order min_state) as Hlt.
  { repeat (apply elem_of_cons in Hq as [->|Hq]); [..|by apply elem_of_nil in Hq];
    repeat (apply elem_of_cons in Hmin as [->|Hmin]); try done; by apply elem_of_nil in Hmin. }
  apply Z.ltb_lt in Hlt. rewrite Hlt in Hm. by rewrite andb_false_r in Hm.
Qed.

(** a policy violation is never forgiven.  After a live result that violated policy is
    recorded for a profile key, no sequence of further results and staleness marks makes
    [query] return a profile of that key to a caller that asks for provisional or
    qualified routes, which is how the scheduler asks. *)
Theorem violation_excludes_profile result l ops s family min_state p :
  store_wf s → er_policy_violation result = true →
  min_state ∈ [RoutingState.PROVISIONAL; RoutingState.QUALIFIED] →
  p ∈ query family (Some min_state) (foldl apply_op (record_result result l false s).2 ops) →
  cp_profile_key p ≠ profile_key (er_route_fingerprint result) l.
Proof.
  intros Hwf Hv Hmin. pose proof (record_live_wf result l s Hwf) as Hwf1.
  apply query_excludes; [by apply ops_wf| |done].
  apply ops_quarantined; [done|by apply violation_quarantines].
Qed.

(** repeated runs add no evidence.  A live result for a case already seen leaves the
    number of distinct cases of its key unchanged, and no result of any kind moves the
    counters of another key; results counted as passed never exceed the distinct cases. *)
Theorem repeats_add_no_evidence result l s key :
  store_wf s →
  let k := profile_key (er_route_fingerprint result) l in
  let s' := (record_result result l false s).2 in
  (er_distinct_case_id result ∈ set_of (ps_distinct_cases s) k →
     set_of (ps_distinct_cases s') k = set_of (ps_distinct_cases s) k)
  ∧ (key ≠ k → set_of (ps_distinct_cases s') key = set_of (ps_distinct_cases s) key
       ∧ set_of (ps_pass_distinct s') key = set_of (ps_pass_distinct s) key
       ∧ dict_get (ps_profiles s') key = dict_get (ps_profiles s) key)
  ∧ ∃ profile, (record_result result l false s).1 = Ok profile
       ∧ dict_get (ps_profiles s') k = Some profile
       ∧ 0 <= cp_pass_count profile <= cp_distinct_case_count profile.
Proof.
  intros Hwf k s'. subst s'.
  destruct (record_live_run result l s Hwf) as (p & Hrun & _ & _ & Hle & _). fold k in Hrun.
  destruct (tally_fields result k s) as (_ & _ & Hd & Hp & _). rewrite Hrun. simpl.
  rewrite Hd. split_and!.
  - intros Hin. rewrite set_of_insert, decide_True by done. apply leibniz_equiv. set_solver.
  - intros Hne. rewrite set_of_insert, decide_False by done. split_and!; [done| |].
    + rewrite Hp. destruct (er_correctness result) as [[]|]; [|done..].
      by rewrite set_of_insert, decide_False.
    + by rewrite dict_get_set_ne.
  - exists p. split_and!; [done|apply dict_get_set_eq|apply Hle..].
Qed.

(** A small archive: two runs of one case and one of another, one of them a violation. *)
Definition demo_labels : RunLabels := mkRunLabels "coding" "small" "1" "1" "none" "starter-v1" "r1".
Definition demo_result (c : string) (ok violation : bool) : EvalResult :=
  mkEvalResult c "fp" (Some ok) violation.

Lemma new_store_wf pol : store_wf (new_store pol).
Proof.
  split; simpl; [done|intros k; unfold count_of; by rewrite lookup_empty|constructor|].
  by intros ? ? ?%elem_of_nil.
Qed.

Definition demo_store : ProfileStore :=
  foldl apply_op (new_store default_qualification)
    [OpRecord (demo_result "c1" true false) demo_labels false;
     OpRecord (demo_result "c2" true false) demo_labels false].

Lemma demo_store_wf : store_wf demo_store.
Proof. apply ops_wf, new_store_wf. Qed.

Lemma violation_excludes_profile_witness :
  query (Some "coding") (Some RoutingState.PROVISIONAL) demo_store ≠ []
  ∧ (∀ p, p ∈ query (Some "coding") (Some RoutingState.PROVISIONAL)
            (foldl apply_op (record_result (demo_result "c3" true true) demo_labels false demo_store).2
               [OpRecord (demo_result "c4" true false) demo_labels false]) →
          cp_profile_key p ≠ profile_key "fp" demo_labels).
Proof.
  split; [vm_compute; discriminate|]. intros p.
  apply (violation_excludes_profile (demo_result "c3" true true) demo_labels
    [OpRecord (demo_result "c4" true false) demo_labels false] demo_store (Some "coding")
    RoutingState.PROVISIONAL p demo_store_wf eq_refl). by left.
Defined.

Lemma repeats_add_no_evidence_witness :
  set_of (ps_distinct_cases (record_result (demo_result "c1" true false) demo_labels false
            demo_store).2) (profile_key "fp" demo_labels)
  = set_of (ps_distinct_cases demo_store) (profile_key "fp" demo_labels).
Proof.
  apply (repeats_add_no_evidence (demo_result "c1" true false) demo_labels demo_store ""
    demo_store_wf). vm_compute. done.
Defined.
