(* ===== verification/Authority.v ===== *)
(** * Authority: site epochs (src/swarm/recovery/authority.py)

    [SiteAuthorityService] keeps the current authority record of each site.  Dispatches,
    results and effects carry the epoch they were issued under and are refused unless it
    is the current one.  The digest of a record is [payload_hash] of four of its fields
    (contracts/common.py, a SHA-256 of canonical JSON): a parameter here.  Record ids and
    activation times, which nothing reads, are dropped; [now_iso] is
    [utc_now().isoformat()]. *)
From S2P Require Import Prelude Collections Contracts.
Open Scope Z_scope.

Module AuthorityState.
Inductive AuthorityState : Type := ACTIVE | RECOVERING | FENCED | RETIRED.
#[export] Instance AuthorityState_eq_dec : EqDecision AuthorityState.
Proof. solve_decision. Defined.
Definition value (x : AuthorityState) : string :=
  match x with
  | ACTIVE => "active" | RECOVERING => "recovering" | FENCED => "fenced" | RETIRED => "retired"
  end.
End AuthorityState.
Export (hints) AuthorityState.
Abbreviation AuthorityState := AuthorityState.AuthorityState.

Record SiteAuthority := mkSiteAuthority {
  sa_site_id : string;
  sa_epoch : Z;
  sa_state : AuthorityState;
  sa_policy_version : string;
  sa_content_digest : string;
  sa_source_site_id : option string;
  sa_recovery_id : option string;
  sa_fenced_at : option string
}.
#[export] Instance eta_SiteAuthority : Eta SiteAuthority := λ r,
  mkSiteAuthority (sa_site_id r) (sa_epoch r) (sa_state r) (sa_policy_version r)
    (sa_content_digest r) (sa_source_site_id r) (sa_recovery_id r) (sa_fenced_at r).

Record Transition := mkTransition {
  tn_site_id : string;
  tn_from_epoch : Z;
  tn_to_epoch : Z;
  tn_reason : string;
  tn_state : option string;
  tn_recovery_id : option string
}.

Record AuthorityBinding := mkBinding {
  ab_site_id : string;
  ab_site_epoch : Z;
  ab_authority_digest : string
}.

Record AuthorityService := mkAuthorityService {
  as_by_site : gmap string SiteAuthority;
  as_transitions : list Transition
}.
#[export] Instance eta_AuthorityService : Eta AuthorityService := λ r,
  mkAuthorityService (as_by_site r) (as_transitions r).

(** ** Operations *)
Section service.
Variable payload_hash : string → Z → string → string → string.

Definition digest (a : SiteAuthority) : string :=
  payload_hash (sa_site_id a) (sa_epoch a) (AuthorityState.value (sa_state a)) (sa_policy_version a).

Definition new_authority (site_id : string) (epoch : Z) (source recovery : option string)
    : SiteAuthority :=
  let auth := mkSiteAuthority site_id epoch AuthorityState.ACTIVE "v18" "" source recovery None in
  auth <| sa_content_digest := digest auth |>.

Definition bootstrap (site_id : string) (epoch : Z) : M AuthorityService SiteAuthority :=
  let auth := new_authority site_id epoch None None in
  modify (λ s, s <| as_by_site := <[site_id := auth]> (as_by_site s) |>);;
  mret auth.

Definition current (site_id : string) : M AuthorityService SiteAuthority :=
  s ← get_state;
  match as_by_site s !! site_id with
  | Some auth => mret auth
  | None => bootstrap site_id 1
  end.

Definition require_epoch (site_id : string) (epoch : Z) (action : string)
    : M AuthorityService SiteAuthority :=
  auth ← current site_id;
  raise_if (negb (bool_decide (sa_state auth = AuthorityState.ACTIVE)))
    (StaleEpochError ("site_not_active:" +:+ AuthorityState.value (sa_state auth) +:+ ":" +:+ action));;
  raise_if (negb (epoch =? sa_epoch auth))
    (StaleEpochError ("stale_epoch:action=" +:+ action +:+ ":got=" +:+ pretty epoch
                      +:+ ":want=" +:+ pretty (sa_epoch auth)));;
  mret auth.

Definition binding (site_id : string) : M AuthorityService AuthorityBinding :=
  auth ← current site_id;
  mret (mkBinding (sa_site_id auth) (sa_epoch auth)
    (if bool_decide (sa_content_digest auth = "") then digest auth else sa_content_digest auth)).

Definition fence (site_id reason now_iso : string) : M AuthorityService SiteAuthority :=
  auth ← current site_id;
  let auth := auth <| sa_state := AuthorityState.FENCED |> <| sa_fenced_at := Some now_iso |> in
  modify (λ s, s <| as_by_site := <[site_id := auth]> (as_by_site s) |>
                 <| as_transitions := as_transitions s ++
                    [mkTransition site_id (sa_epoch auth) (sa_epoch auth) reason
                       (Some (AuthorityState.value (sa_state auth))) None] |>);;
  mret auth.

(** The previous record is retired in place; the table gets a new one. *)
Definition advance_epoch (site_id reason : string) (recovery_id source_site_id : option string)
    : M AuthorityService SiteAuthority :=
  prev ← current site_id;
  let source := match source_site_id with
                | Some x => if bool_decide (x = "") then Some site_id else Some x
                | None => Some site_id
                end in
  let nxt := new_authority site_id (sa_epoch prev + 1) source recovery_id in
  modify (λ s, s <| as_by_site := <[site_id := nxt]> (as_by_site s) |>
                 <| as_transitions := as_transitions s ++
                    [mkTransition site_id (sa_epoch prev) (sa_epoch nxt) reason None recovery_id] |>);;
  mret nxt.

(** ** Properties *)
Inductive auth_op :=
  | AuthCurrent (site : string)
  | AuthRequire (site : string) (epoch : Z) (action : string)
  | AuthBinding (site : string)
  | AuthFence (site reason now_iso : string)
  | AuthAdvance (site reason : string) (recovery source : option string).

Definition auth_apply (s : AuthorityService) (o : auth_op) : AuthorityService :=
  match o with
  | AuthCurrent site => (current site s).2
  | AuthRequire site epoch action => (require_epoch site epoch action s).2
  | AuthBinding site => (binding site s).2
  | AuthFence site reason now_iso => (fence site reason now_iso s).2
  | AuthAdvance site reason recovery source => (advance_epoch site reason recovery source s).2
  end.

Definition epoch_of (s : AuthorityService) (site : string) : option Z :=
  sa_epoch <$> as_by_site s !! site.

(** The record [current] answers with, and the table after it. *)
Definition current_of (site : string) (s : AuthorityService) : SiteAuthority :=
  default (new_authority site 1 None None) (as_by_site s !! site).

Lemma current_run site s :
  ∃ s', current site s = (Ok (current_of site s), s')
    ∧ as_transitions s' = as_transitions s
    ∧ as_by_site s' = <[site := current_of site s]> (as_by_site s).
Proof.
  unfold current, current_of. erewrite bind_run by reflexivity.
  destruct (as_by_site s !! site) as [a|] eqn:Ha; simpl.
  - exists s. split_and!; [done..|]. by rewrite insert_id.
  - eexists. split; [reflexivity|done].
Qed.

Lemma require_epoch_run site epoch action s :
  (require_epoch site epoch action s).2 = (current site s).2
  ∧ (is_ok (require_epoch site epoch action s).1 = true
     ↔ sa_state (current_of site s) = AuthorityState.ACTIVE ∧ epoch = sa_epoch (current_of site s)).
Proof.
  destruct (current_run site s) as (s' & Hc & _).
  unfold require_epoch. erewrite bind_run by exact Hc. rewrite Hc.
  case_bool_decide as Hs; simpl; [|split; [done|split; [done|by intros []]]].
  erewrite bind_run by reflexivity. destruct (epoch =? _) eqn:He; bool_to_prop; simpl.
  - done.
  - split; [done|]. split; [done|by intros []].
Qed.

(** The epoch a site is at after any operation: never smaller. *)
Lemma auth_apply_epoch s o site e :
  epoch_of s site = Some e → ∃ e', epoch_of (auth_apply s o) site = Some e' ∧ e <= e'.
Proof.
  intros (a & Ha & ->)%fmap_Some.
  assert (∀ site' b, (sa_epoch (current_of site' s) <= sa_epoch b) →
    ∃ e', sa_epoch <$> (<[site' := b]> (as_by_site s)) !! site = Some e' ∧ sa_epoch a <= e') as Hins.
  { intros site' b Hle. destruct (decide (site' = site)) as [->|Hne].
    - rewrite lookup_insert_eq. eexists. split; [done|]. unfold current_of in Hle.
      by rewrite Ha in Hle.
    - rewrite lookup_insert_ne, Ha by done. by eexists. }
  assert (∀ site', ∃ e', epoch_of (current site' s).2 site = Some e' ∧ sa_epoch a <= e') as Hcur.
  { intros site'. destruct (current_run site' s) as (s' & -> & _ & Hm). unfold epoch_of.
    simpl. rewrite Hm. by apply Hins. }
  destruct o as [x|x ep act|x|x r n|x r rec src]; simpl.
  - apply Hcur.
  - rewrite (proj1 (require_epoch_run x ep act s)). apply Hcur.
  - specialize (Hcur x). unfold binding. destruct (current_run x s) as (s' & Hc & _).
    erewrite bind_run by exact Hc. by rewrite Hc in Hcur.
  - unfold fence. destruct (current_run x s) as (s' & Hc & _ & Hm).
    erewrite bind_run by exact Hc. unfold epoch_of. simpl. rewrite Hm, insert_insert_eq.
    by apply Hins.
  - unfold advance_epoch. destruct (current_run x s) as (s' & Hc & _ & Hm).
    erewrite bind_run by exact Hc. unfold epoch_of. simpl. rewrite Hm, insert_insert_eq.
    apply Hins. simpl. lia.
Qed.

Lemma auth_ops_epoch ops s site e :
  epoch_of s site = Some e → ∃ e', epoch_of (foldl auth_apply s ops) site = Some e' ∧ e <= e'.
Proof.
  revert s e; induction ops as [|o ops IH]; intros s e He; [by exists e|].
  destruct (auth_apply_epoch s o site e He) as (e1 & H1 & Hle1).
  destruct (IH _ _ H1) as (e2 & H2 & Hle2). exists e2. split; [done|lia].
Qed.

(** an advanced epoch stays fenced.  Once a site's epoch has been advanced, no
    operation of the service (lookups, fences, further advances, in any order) lets the
    old epoch or an earlier one pass [require_epoch] again: it raises [StaleEpochError]. *)
Theorem advanced_epoch_is_fenced site reason recovery source ops s e action :
  e <= sa_epoch (current_of site s) →
  let s' := foldl auth_apply (advance_epoch site reason recovery source s).2 ops in
  ∃ msg, (require_epoch site e action s').1 = Err (StaleEpochError msg).
Proof.
  intros He s'.
  assert (epoch_of (advance_epoch site reason recovery source s).2 site
          = Some (sa_epoch (current_of site s) + 1)) as Hadv.
  { unfold advance_epoch. destruct (current_run site s) as (s1 & Hc & _).
    erewrite bind_run by exact Hc. unfold epoch_of. simpl. by rewrite lookup_insert_eq. }
  destruct (auth_ops_epoch ops _ _ _ Hadv) as (e' & He' & Hle). fold s' in He'.
  apply fmap_Some in He' as (a & Ha & ->).
  assert (current_of site s' = a) as Hcur by (unfold current_of; by rewrite Ha).
  destruct (current_run site s') as (s2 & Hc & _). rewrite Hcur in Hc.
  unfold require_epoch. erewrite bind_run by exact Hc.
  case_bool_decide; simpl; [|by eexists]. erewrite bind_run by reflexivity.
  rewrite (proj2 (Z.eqb_neq e (sa_epoch a))) by lia. simpl. by eexists.
Qed.
End service.

Lemma advanced_epoch_is_fenced_witness :
  ∃ msg, (require_epoch (λ _ _ _ _, "digest") "site" 1 "dispatch"
    (foldl (auth_apply (λ _ _ _ _, "digest"))
       (advance_epoch (λ _ _ _ _, "digest") "site" "failover" None None (mkAuthorityService ∅ [])).2
       [AuthFence "site" "split_brain" "t"; AuthAdvance "site" "recovered" None None])).1
    = Err (StaleEpochError msg).
Proof.
  apply (advanced_epoch_is_fenced (λ _ _ _ _, "digest") "site" "failover" None None
    [AuthFence "site" "split_brain" "t"; AuthAdvance "site" "recovered" None None]
    (mkAuthorityService ∅ []) 1 "dispatch"). vm_compute. discriminate.
Defined.
