(* ===== verification/Scheduler.v ===== *)
(** * Scheduler: choosing ready work (src/swarm/controller/scheduler.py)

    [choose_ready] of the [AdaptiveScheduler]: the tick and hysteresis counters, the site
    epoch fence, the drain fence, the slot arithmetic and the selection loop, with the
    profile store it consults.  The explanation dict has three shapes, one constructor
    each.  Fairness debts are binary64 floats. *)
From S2P Require Import Prelude Collections Contracts PyFloat Profiles Authority.
Open Scope Z_scope.

Record SchedulerConfig := mkSchedulerConfig {
  control_reserve_slots : Z;
  overload_cooldown_ticks : Z;
  priority_aging_per_tick : Z;
  max_concurrency : Z;
  backpressure_min_slots : Z
}.
Definition default_scheduler : SchedulerConfig := mkSchedulerConfig 1 3 1 8 1.

Record Scheduler := mkScheduler {
  sch_profiles : ProfileStore;
  sch_config : SchedulerConfig;
  sch_tick : Z;
  sch_cooldown_remaining : Z;
  sch_last_overload : bool;
  sch_mission_fairness : gmap string float;
  sch_draining : bool;
  sch_site_authority : option AuthorityService;
  sch_site_id : option string;
  sch_site_epoch : option Z
}.
#[export] Instance eta_Scheduler : Eta Scheduler := λ r,
  mkScheduler (sch_profiles r) (sch_config r) (sch_tick r) (sch_cooldown_remaining r)
    (sch_last_overload r) (sch_mission_fairness r) (sch_draining r) (sch_site_authority r)
    (sch_site_id r) (sch_site_epoch r).

Inductive Explanation : Type :=
  | Draining (site_epoch : option Z)
  | WaitingPrivacy (hysteresis_hold : bool)
  | Scheduled (tick ready selected usable_slots control_reserve : Z) (hysteresis_hold : bool)
      (fairness_debt : float) (task_ids : list string) (site_epoch : option Z) (draining : bool).

(** ** Operations *)
Definition note_overload (s : Scheduler) : Scheduler :=
  s <| sch_last_overload := true |>
    <| sch_cooldown_remaining := overload_cooldown_ticks (sch_config s) |>.

Definition begin_drain (s : Scheduler) : Scheduler := s <| sch_draining := true |>.
Definition end_drain (s : Scheduler) : Scheduler := s <| sch_draining := false |>.

Definition tick (s : Scheduler) : Scheduler :=
  let s := s <| sch_tick := sch_tick s + 1 |> in
  if 0 <? sch_cooldown_remaining s then
    let s := s <| sch_cooldown_remaining := sch_cooldown_remaining s - 1 |> in
    if sch_cooldown_remaining s =? 0 then s <| sch_last_overload := false |> else s
  else s.

(** The epoch fence: nothing to check without an authority service and a site id. *)
Definition require_site (payload_hash : string → Z → string → string → string)
    (epoch : option Z) : M Scheduler () :=
  s ← get_state;
  match sch_site_authority s, sch_site_id s with
  | Some auth, Some site =>
    e ← require epoch (StaleEpochError "site_epoch_required_for_dispatch");
    match require_epoch payload_hash site e "dispatch" auth with
    | (r, auth') =>
      put_state (s <| sch_site_authority := Some auth' |>);;
      of_result (match r with Ok _ => Ok () | Err exc => Err exc end)
    end
  | _, _ => mret ()
  end.

(** The sort key: aged priority, then creation time. *)
Definition key_leb (aging : Z) (a b : TaskSpec) : bool :=
  (ts_priority a - aging <? ts_priority b - aging)
  || ((ts_priority a - aging =? ts_priority b - aging) && str_leb (ts_created_at a) (ts_created_at b)).

Definition ready_tasks (tasks : list TaskSpec) : list TaskSpec :=
  List.filter (λ t, bool_decide (ts_status t = TaskStatus.READY)
                    && forallb (λ _, true) (ts_dependency_ids t)) tasks.

Definition slots_of (cfg : SchedulerConfig) (cooling : bool) (inference_slots worker_slots : Z) : Z :=
  let slots := Z.min (Z.min inference_slots worker_slots) (max_concurrency cfg) in
  let slots := if cooling then Z.max (backpressure_min_slots cfg) (slots / 2) else slots in
  if inference_slots <=? backpressure_min_slots cfg
  then Z.min slots (backpressure_min_slots cfg) else slots.

Definition usable_of (cfg : SchedulerConfig) (cooling : bool) (inference_slots worker_slots : Z) : Z :=
  Z.max 0 (slots_of cfg cooling inference_slots worker_slots - control_reserve_slots cfg).

(** The qualification gate. *)
Definition qualified (profiles : ProfileStore) (t : TaskSpec) : bool :=
  negb (match query (Some (ts_task_family t)) (Some RoutingState.PROVISIONAL) profiles with
        | [] => true | _ => false end
        && negb (bool_decide (ts_task_family t ∈ ["extraction"; "classification"]))).

Fixpoint select (profiles : ProfileStore) (usable : Z) (selected aged : list TaskSpec)
    : list TaskSpec :=
  match aged with
  | [] => selected
  | t :: rest =>
    if usable <=? Z.of_nat (length selected) then selected
    else if qualified profiles t then select profiles usable (selected ++ [t]) rest
    else select profiles usable selected rest
  end.

Definition choose_ready (payload_hash : string → Z → string → string → string)
    (mission : Mission) (tasks : list TaskSpec) (inference_slots worker_slots : Z)
    (privacy_ok : bool) (site_epoch : option Z) : M Scheduler (list TaskSpec * Explanation) :=
  modify tick;;
  s ← get_state;
  let epoch := match site_epoch with Some e => Some e | None => sch_site_epoch s end in
  require_site payload_hash epoch;;
  s ← get_state;
  let hold := 0 <? sch_cooldown_remaining s in
  if sch_draining s then mret ([], Draining epoch)
  else if negb privacy_ok then mret ([], WaitingPrivacy hold)
  else
    let ready := ready_tasks tasks in
    let aged := sort_by (key_leb (sch_tick s * priority_aging_per_tick (sch_config s))) ready in
    let usable := usable_of (sch_config s) hold inference_slots worker_slots in
    let debt := default f_0 (sch_mission_fairness s !! ms_id mission) in
    let selected := select (sch_profiles s) usable [] aged in
    let n := Z.of_nat (length selected) in
    let debt' := fadd debt (float_of_Z n) in
    put_state (s <| sch_mission_fairness := <[ms_id mission := debt']> (sch_mission_fairness s) |>);;
    mret (selected, Scheduled (sch_tick s) (Z.of_nat (length ready)) n usable
                      (control_reserve_slots (sch_config s)) hold debt' (ts_id <$> selected)
                      epoch (sch_draining s)).

(** ** The selection loop *)
Lemma select_spec profiles usable selected aged :
  ∃ picked rest, select profiles usable selected aged = selected ++ List.filter (qualified profiles) picked
    ∧ aged = picked ++ rest
    ∧ (rest = [] ∨ usable <= Z.of_nat (length (select profiles usable selected aged)))
    ∧ (Z.of_nat (length selected) <= Z.max 0 usable →
       Z.of_nat (length (select profiles usable selected aged)) <= Z.max 0 usable).
Proof.
  revert selected; induction aged as [|t aged IH]; intros selected; simpl.
  { exists [], []. simpl. rewrite app_nil_r. auto. }
  destruct (usable <=? _) eqn:Hu; bool_to_prop.
  { exists [], (t :: aged). simpl. rewrite app_nil_r. auto. }
  destruct (qualified profiles t) eqn:Hq.
  - destruct (IH (selected ++ [t])) as (picked & rest & Heq & -> & Hfull & Hle).
    exists (t :: picked), rest. rewrite Heq. cbn. rewrite Hq, <- app_assoc. rewrite Heq in Hfull, Hle.
    rewrite <- app_assoc in Hfull, Hle. split_and!; [done..|].
    intros _. apply Hle. rewrite length_app. simpl. lia.
  - destruct (IH selected) as (picked & rest & Heq & -> & Hfull & Hle).
    exists (t :: picked), rest. rewrite Heq. cbn. rewrite Hq. rewrite Heq in Hfull, Hle. auto.
Qed.

Lemma key_leb_total aging a b : key_leb aging a b = true ∨ key_leb aging b a = true.
Proof.
  unfold key_leb. destruct (Z.lt_trichotomy (ts_priority a) (ts_priority b)) as [H|[H|H]].
  - left. apply orb_true_iff. left. apply Z.ltb_lt. lia.
  - destruct (str_leb_total (ts_created_at a) (ts_created_at b)) as [Hs|Hs]; [left|right];
      apply orb_true_iff; right; apply andb_true_iff; (split; [apply Z.eqb_eq; lia|done]).
  - right. apply orb_true_iff. left. apply Z.ltb_lt. lia.
Qed.

Lemma key_leb_iff aging a b :
  key_leb aging a b = true ↔
  ts_priority a < ts_priority b
  ∨ (ts_priority a = ts_priority b ∧ str_leb (ts_created_at a) (ts_created_at b) = true).
Proof.
  unfold key_leb. rewrite orb_true_iff, andb_true_iff, Z.ltb_lt, Z.eqb_eq. intuition lia.
Qed.

Lemma key_leb_trans aging a b c :
  key_leb aging a b = true → key_leb aging b c = true → key_leb aging a c = true.
Proof.
  rewrite !key_leb_iff. intros [H1|[H1 S1]] [H2|[H2 S2]]; [left; lia..|].
  right. split; [lia|by eapply str_leb_trans].
Qed.

Lemma sort_by_ext {A} (leb1 leb2 : A → A → bool) l :
  (∀ a b, leb1 a b = leb2 a b) → sort_by leb1 l = sort_by leb2 l.
Proof.
  intros H. induction l as [|x l IH]; simpl; [done|]. rewrite IH. clear IH.
  induction (sort_by leb2 l) as [|y l' IHl]; simpl; [done|]. by rewrite H, IHl.
Qed.

Lemma aging_is_uniform aging l : sort_by (key_leb aging) l = sort_by (key_leb 0) l.
Proof.
  apply sort_by_ext. intros a b. apply eq_iff_eq_true.
  by rewrite !key_leb_iff.
Qed.

(** ** Properties *)

(** Everything but the counters, the fairness debts and the authority table. *)
Definition same_setup (s s' : Scheduler) : Prop :=
  sch_profiles s' = sch_profiles s ∧ sch_config s' = sch_config s
  ∧ sch_draining s' = sch_draining s ∧ sch_site_id s' = sch_site_id s
  ∧ sch_site_epoch s' = sch_site_epoch s.

Lemma tick_setup s : same_setup s (tick s).
Proof. unfold tick. by repeat case_match. Qed.

Lemma require_site_setup payload_hash epoch s :
  same_setup s (require_site payload_hash epoch s).2
  ∧ sch_tick (require_site payload_hash epoch s).2 = sch_tick s
  ∧ sch_cooldown_remaining (require_site payload_hash epoch s).2 = sch_cooldown_remaining s
  ∧ sch_mission_fairness (require_site payload_hash epoch s).2 = sch_mission_fairness s.
Proof.
  unfold require_site, mbind, M_bind, get_state. repeat case_match; simplify_eq; try done;
    unfold require, raise, mret, M_ret, put_state, of_result in *; repeat case_match;
    simplify_eq; done.
Qed.

(** The outcome of a scheduling round that was not fenced, drained or held. *)
Lemma choose_ready_run payload_hash mission tasks inf wrk priv ep s sel expl s' :
  choose_ready payload_hash mission tasks inf wrk priv ep s = (Ok (sel, expl), s') →
  same_setup s s' ∧
  (sel = [] ∧ (sch_draining s = true ∨ priv = false) ∨
   sch_draining s = false ∧
   ∃ aging, sel = select (sch_profiles s)
       (usable_of (sch_config s) (0 <? sch_cooldown_remaining (tick s)) inf wrk) []
       (sort_by (key_leb aging) (ready_tasks tasks))).
Proof.
  unfold choose_ready. intros H. run_inv.
  match goal with H : require_site _ ?e ?s0 = (_, ?s1) |- _ =>
    destruct (require_site_setup payload_hash e s0) as (Hs & Ht & Hc & _); rewrite H in Hs, Ht, Hc end.
  simpl in *. destruct (tick_setup s) as (T1 & T2 & T3 & T4 & T5).
  destruct Hs as (S1 & S2 & S3 & S4 & S5).
  match goal with H : (if sch_draining ?t then _ else _) _ = _ |- _ => rename t into s1 end.
  destruct (sch_draining s1) eqn:Hd.
  { run_inv. split; [split_and!; congruence|]. left. split; [done|]. left. congruence. }
  destruct priv; simpl in *; [|run_inv; split; [split_and!; congruence|by left; auto]].
  run_inv. split; [split_and!; simpl; congruence|]. right. split; [congruence|].
  rewrite <- T1, <- T2, <- S1, <- S2, <- Hc. by eexists.
Qed.

Lemma filter_sorted {A} (R : A → A → Prop) (f : A → bool) l :
  StronglySorted R l → StronglySorted R (List.filter f l).
Proof.
  induction 1 as [|x l Hl IH Hx]; simpl; [constructor|]. destruct (f x); [|done].
  constructor; [done|]. rewrite List.Forall_forall in *.
  intros y [Hy _]%List.filter_In. auto.
Qed.

Lemma prefix_sorted {A} (R : A → A → Prop) (l1 l2 : list A) :
  StronglySorted R (l1 ++ l2) → StronglySorted R l1.
Proof.
  induction l1 as [|x l1 IH]; simpl; [constructor|].
  inversion 1 as [|? ? Hs Hx]; subst. constructor; [auto|]. by apply Forall_app in Hx as [? _].
Qed.

Lemma slots_bound cfg hold inf wrk :
  0 <= backpressure_min_slots cfg →
  slots_of cfg hold inf wrk
    <= Z.max (backpressure_min_slots cfg) (Z.min (Z.min inf wrk) (max_concurrency cfg))
  ∧ (hold = false → slots_of cfg hold inf wrk <= Z.min (Z.min inf wrk) (max_concurrency cfg)).
Proof.
  intros Hb. unfold slots_of. set (m := Z.min (Z.min inf wrk) (max_concurrency cfg)).
  assert (m / 2 <= Z.max 0 m) as Hm.
  { destruct (Z.le_gt_cases 0 m); [|assert (m / 2 < 0) by (apply Z.div_lt_upper_bound; lia); lia].
    assert (m / 2 <= m) by (apply Z.div_le_upper_bound; lia). lia. }
  split; [|intros ->]; repeat case_match; lia.
Qed.

(** A round selects at most what the slots leave beside the control reserve. *)
Lemma scheduling_room payload_hash mission tasks inf wrk priv ep s sel expl s' :
  0 <= backpressure_min_slots (sch_config s) →
  choose_ready payload_hash mission tasks inf wrk priv ep s = (Ok (sel, expl), s') →
  sel = [] ∨ Z.of_nat (length sel) + control_reserve_slots (sch_config s)
             <= Z.max (backpressure_min_slots (sch_config s)) (Z.min (Z.min inf wrk) (max_concurrency (sch_config s))).
Proof.
  intros Hb H. apply choose_ready_run in H as [_ [[-> _]|(Hd & aging & ->)]]; [by left|].
  set (hold := 0 <? sch_cooldown_remaining (tick s)). destruct (slots_bound (sch_config s) hold inf wrk Hb) as [Hs _].
  match goal with |- context [select ?p ?u [] ?l] => destruct (select_spec p u [] l) as (_ & _ & _ & _ & _ & Hle); set (sel := select p u [] l) in * end.
  specialize (Hle ltac:(simpl; lia)). unfold usable_of in Hle. destruct sel; [by left|]. right. cbn [length] in *. lia.
Qed.

(** scheduling is safe, fair in order and work-conserving.  Every task a round selects
    is a ready task of the mission that passes the qualification gate; tasks are picked by
    priority and then age; together with the control reserve they fit the inference,
    worker and concurrency limits (or the backpressure minimum while cooling down after an
    overload); and a round that is neither drained nor held for privacy leaves a qualified
    ready task behind only when the slots are used up. *)
Theorem scheduling_round payload_hash mission tasks inf wrk priv ep s sel expl s' :
  0 <= backpressure_min_slots (sch_config s) →
  choose_ready payload_hash mission tasks inf wrk priv ep s = (Ok (sel, expl), s') →
  let cfg := sch_config s in
  let capacity := Z.min (Z.min inf wrk) (max_concurrency cfg) in
  (∀ t, t ∈ sel → t ∈ tasks ∧ ts_status t = TaskStatus.READY
                  ∧ qualified (sch_profiles s) t = true)
  ∧ StronglySorted (λ a b, key_leb 0 a b = true) sel
  ∧ (sel = [] ∨ Z.of_nat (length sel) + control_reserve_slots cfg
                <= Z.max (backpressure_min_slots cfg) capacity)
  ∧ (sel = [] ∨ 0 < sch_cooldown_remaining (tick s)
     ∨ Z.of_nat (length sel) + control_reserve_slots cfg <= capacity)
  ∧ (sch_draining s = true → sel = [])
  ∧ (sch_draining s = false → priv = true →
     (∀ t, t ∈ tasks → ts_status t = TaskStatus.READY → qualified (sch_profiles s) t = true → t ∈ sel)
     ∨ usable_of cfg (0 <? sch_cooldown_remaining (tick s)) inf wrk <= Z.of_nat (length sel)).
Proof.
  intros Hb H cfg capacity. apply choose_ready_run in H as [_ [[-> Hwhy]|(Hd & aging & ->)]].
  { split_and!; auto; [by intros ? ?%elem_of_nil|constructor|]. intros; destruct Hwhy; congruence. }
  rewrite aging_is_uniform. set (hold := 0 <? sch_cooldown_remaining (tick s)).
  pose proof (sort_by_sorted _ (key_leb_total 0) (key_leb_trans 0) (ready_tasks tasks)) as Hsort.
  pose proof (elem_of_sort_by (key_leb 0)) as Hin.
  destruct (select_spec (sch_profiles s) (usable_of (sch_config s) hold inf wrk) []
    (sort_by (key_leb 0) (ready_tasks tasks))) as (picked & rest & Hsel & Hsp & Hfull & Hle).
  rewrite Hsel in *. simpl in *. rewrite Hsp in Hsort.
  specialize (Hle ltac:(lia)). set (sel := List.filter _ picked) in *.
  destruct (slots_bound cfg hold inf wrk Hb) as [Hs1 Hs2]. unfold usable_of in Hle. fold cfg in Hle.
  assert (sel = [] ∨ 1 <= Z.of_nat (length sel)) as Hlen.
  { destruct sel; [by left|right; simpl; lia]. }
  split_and!.
  - intros t [Ht Hq]%list_elem_of_In%List.filter_In. apply list_elem_of_In in Ht.
    assert (t ∈ ready_tasks tasks) as Hr.
    { rewrite <- Hin, Hsp. apply elem_of_app. by left. }
    unfold ready_tasks in Hr. apply list_elem_of_In, List.filter_In in Hr as [Hr Hst].
    bool_to_prop. split_and!; [by apply list_elem_of_In|done|done].
  - apply filter_sorted. by eapply prefix_sorted.
  - destruct Hlen as [|Hlen]; [by left|]. right. fold capacity in Hs1. lia.
  - destruct Hlen as [|Hlen]; [by left|]. right. destruct hold eqn:Hh; subst hold.
    { left. bool_to_prop. done. }
    right. specialize (Hs2 eq_refl). fold capacity in Hs2. lia.
  - congruence.
  - intros _ _. destruct Hfull as [->|Hfull]; [|by right]. left. intros t Ht Hst Hq.
    apply list_elem_of_In, List.filter_In. split; [|done]. apply list_elem_of_In.
    rewrite app_nil_r in Hsp. rewrite <- Hsp, Hin. apply list_elem_of_In, List.filter_In.
    split; [by apply list_elem_of_In|]. rewrite bool_decide_true by done. simpl.
    by apply forallb_forall.
Qed.

(** Three ready tasks, four slots of which one is the control reserve. *)
Definition demo_scheduler : Scheduler :=
  mkScheduler demo_store default_scheduler 0 0 false ∅ false None None None.
Definition demo_task (id created family : string) (prio : Z) (deps : list string) (st : TaskStatus)
    : TaskSpec :=
  mkTaskSpec id "proj" "m1" created None ("do " +:+ id) family deps [] prio st [].
Definition demo_mission : Mission := mkMission "1.0" "m1" 0 "p1" "tr_1" None "goal" [] [] [] "rp" 3600 16 4 100 None MissionStatus.RUNNING 1 0 None.
Definition demo_tasks : list TaskSpec :=
  [demo_task "t1" "2024-02" "coding" 5 [] TaskStatus.READY;
   demo_task "t2" "2024-01" "coding" 5 [] TaskStatus.READY;
   demo_task "t3" "2024-03" "poetry" 1 [] TaskStatus.READY;
   demo_task "t4" "2024-03" "extraction" 9 [] TaskStatus.READY].

Lemma scheduling_round_witness :
  let r := choose_ready (λ _ _ _ _, "h") demo_mission demo_tasks 3 4 true None demo_scheduler in
  (match r.1 with Ok (sel, _) => ts_id <$> sel | Err _ => [] end) = ["t2"; "t1"]
  ∧ match r.1 with
    | Ok (sel, _) => StronglySorted (λ a b, key_leb 0 a b = true) sel
    | Err _ => False
    end.
Proof.
  intros r. split; [vm_compute; reflexivity|].
  destruct r as [[[sel expl]|e] s'] eqn:Hr; [|vm_compute in Hr; discriminate].
  apply (scheduling_round (λ _ _ _ _, "h") demo_mission demo_tasks 3 4 true None demo_scheduler
    sel expl s'); [vm_compute; discriminate|exact Hr].
Defined.

(** priority aging has no effect.  The scheduler subtracts the same amount from the
    priority of every ready task of a round, so the order of a round at any tick is the
    order by raw priority and creation time: no task ever overtakes another by waiting. *)
Theorem aging_never_reorders ticks per_tick tasks :
  sort_by (key_leb (ticks * per_tick)) (ready_tasks tasks) = sort_by (key_leb 0) (ready_tasks tasks).
Proof. apply aging_is_uniform. Qed.
