(* ===== verification/Backpressure.v ===== *)
(** * Backpressure: the bounded queue in front of the scheduler (runtime/backpressure.py)

    [BackpressureScheduler]: work with deadlines in a bounded queue, quotas per provider, and
    [dispatch], which asks the [AdaptiveScheduler] for ready work and falls back to the front
    of the queue when it selects none.  Readings of the monotonic clock are floats; [clock n]
    is the n-th.  [stats] only renders the counters.

    [queue_work_is_conserved]: work that was accepted is dispatched, expires, is cancelled or is
    still queued, and each piece once.  [outstanding_work_is_within_quota]: a provider never has
    more work outstanding than its quota.  The runs at the end show what the fallback ignores. *)
From S2P Require Import Prelude Collections Contracts PyFloat Profiles Authority Scheduler.
Open Scope Z_scope.

(** ** Data *)
Record ProviderQuota := mkQuota {
  pq_provider_id : string;
  pq_max_in_flight : Z;
  pq_max_per_minute : Z;
  pq_in_flight : Z;
  pq_window_started : float;
  pq_window_count : Z
}.
#[export] Instance eta_ProviderQuota : Eta ProviderQuota := λ q,
  mkQuota (pq_provider_id q) (pq_max_in_flight q) (pq_max_per_minute q) (pq_in_flight q) (pq_window_started q) (pq_window_count q).
Record QueuedWork := mkWork {
  qw_task : TaskSpec;
  qw_enqueued_at : float;
  qw_deadline_at : option float;
  qw_cancelled : bool;
  qw_provider_id : string
}.
#[export] Instance eta_QueuedWork : Eta QueuedWork := λ w,
  mkWork (qw_task w) (qw_enqueued_at w) (qw_deadline_at w) (qw_cancelled w) (qw_provider_id w).
Record Backpressure := mkBackpressure {
  bp_inner : Scheduler;
  bp_queue : list QueuedWork;
  bp_quotas : dict ProviderQuota;
  bp_default_timeout_s : float;
  bp_max_queue : Z;
  bp_rejected_backpressure : Z;
  bp_timed_out : Z;
  bp_cancelled : Z;
  bp_completed : Z;
  bp_reads : nat
}.
#[export] Instance eta_Backpressure : Eta Backpressure := λ b,
  mkBackpressure (bp_inner b) (bp_queue b) (bp_quotas b) (bp_default_timeout_s b) (bp_max_queue b)
    (bp_rejected_backpressure b) (bp_timed_out b) (bp_cancelled b) (bp_completed b) (bp_reads b).
(** What [dispatch] adds to the explanation of the scheduler; [dr_fallback] is the number selected
    when it fell back to the queue. *)
Record DispatchReport := mkReport {
  dr_inner : Explanation;
  dr_fallback : option Z;
  dr_dispatched : Z;
  dr_queue_depth : Z;
  dr_rejected_backpressure : Z;
  dr_timed_out : Z;
  dr_cancelled : Z;
  dr_quotas : dict (Z * Z)
}.

Section backpressure.
Context (clock : nat → float) (payload_hash : string → Z → string → string → string).
Abbreviation B := (M Backpressure).

Definition monotonic : B float := λ s, (Ok (clock (bp_reads s)), s <| bp_reads ::= S |>).

(** ** Quotas *)
Definition new_quota (provider_id : string) (max_in_flight max_per_minute : Z) (now : float) : ProviderQuota :=
  mkQuota provider_id max_in_flight max_per_minute 0 now 0.
Definition try_acquire (now : float) (q : ProviderQuota) : bool * ProviderQuota :=
  let q := if fleb (float_of_Z 60) (fsub now (pq_window_started q))
           then q <| pq_window_started := now |> <| pq_window_count := 0 |> else q in
  if pq_max_in_flight q <=? pq_in_flight q then (false, q)
  else if pq_max_per_minute q <=? pq_window_count q then (false, q)
  else (true, q <| pq_in_flight ::= Z.succ |> <| pq_window_count ::= Z.succ |>).
Definition release (q : ProviderQuota) : ProviderQuota := q <| pq_in_flight := Z.max 0 (pq_in_flight q - 1) |>.

(** [__post_init__] and [make_scale_scheduler]. *)
Definition post_init (b : Backpressure) : Backpressure :=
  match dict_get (bp_quotas b) "ollama" with
  | Some _ => b
  | None => b <| bp_quotas := dict_set (bp_quotas b) "ollama" (new_quota "ollama" 4 120 (clock (bp_reads b))) |> <| bp_reads ::= S |>
  end.
Definition new_backpressure (inner : Scheduler) (max_queue : Z) : Backpressure :=
  post_init (mkBackpressure inner [] [] (float_of_Z 120) max_queue 0 0 0 0 0).
Definition make_scale_scheduler (profiles : ProfileStore) (max_concurrency max_queue ollama_in_flight : Z) : Backpressure :=
  let inner := mkScheduler profiles (mkSchedulerConfig 1 3 1 max_concurrency 1) 0 0 false ∅ false None None None in
  let sched := new_backpressure inner max_queue in
  sched <| bp_quotas := dict_set (bp_quotas sched) "ollama" (new_quota "ollama" ollama_in_flight 180 (clock (bp_reads sched))) |>
        <| bp_reads ::= S |>.

(** ** The queue *)
Definition enqueue (task : TaskSpec) (provider_id : string) (timeout_s : option float) : B bool :=
  s ← get_state;
  if bp_max_queue s <=? Z.of_nat (length (bp_queue s)) then
    modify (λ s, s <| bp_rejected_backpressure ::= Z.succ |>);; mret false
  else
    let timeout := default (bp_default_timeout_s s) timeout_s in
    now ← monotonic;
    modify (λ s, s <| bp_queue ::= λ q, q ++ [mkWork task now (if fltb f_0 timeout then Some (fadd now timeout) else None) false provider_id] |>);;
    mret true.

Definition marks (task_id : string) (w : QueuedWork) : bool := bool_decide (ts_id (qw_task w) = task_id) && negb (qw_cancelled w).
Definition cancel (task_id : string) : B bool :=
  s ← get_state;
  let marked := List.filter (marks task_id) (bp_queue s) in
  put_state (s <| bp_queue ::= fmap (λ w, if marks task_id w then w <| qw_cancelled := true |> else w) |>
               <| bp_cancelled ::= Z.add (Z.of_nat (length marked)) |>);;
  mret (bool_decide (marked ≠ [])).

Definition expired (now : float) (w : QueuedWork) : bool :=
  negb (qw_cancelled w) && match qw_deadline_at w with Some d => fltb d now | None => false end.
Definition kept (now : float) (w : QueuedWork) : bool := negb (qw_cancelled w) && negb (expired now w).
Definition _purge_expired : B () :=
  now ← monotonic;
  modify (λ s, s <| bp_queue := List.filter (kept now) (bp_queue s) |>
                 <| bp_timed_out ::= Z.add (Z.of_nat (length (List.filter (expired now) (bp_queue s)))) |>).

(** ** Dispatch *)
Definition as_ready (w : QueuedWork) : TaskSpec := (qw_task w) <| ts_status := TaskStatus.READY |>.
(** The number of slots of the fallback. *)
Definition fallback_slots (inner : Scheduler) (inference_slots worker_slots : Z) : Z :=
  let slots := Z.min (Z.min inference_slots worker_slots) (max_concurrency (sch_config inner)) in
  let usable := Z.max 0 (slots - control_reserve_slots (sch_config inner)) in
  if 0 <? sch_cooldown_remaining inner then (if usable =? 0 then 0 else Z.max 1 (usable / 2)) else usable.

(** The loop that empties the queue: what is dispatched and what remains. *)
Fixpoint pull (selected_ids : list string) (queue : list QueuedWork) : B (list QueuedWork * list QueuedWork) :=
  match queue with
  | [] => mret ([], [])
  | item :: rest =>
    if qw_cancelled item || negb (bool_decide (ts_id (qw_task item) ∈ selected_ids)) then
      '(dispatched, remaining) ← pull selected_ids rest;
      mret (dispatched, if qw_cancelled item then remaining else item :: remaining)
    else
      fresh ← monotonic;
      s ← get_state;
      let quota := default (new_quota (qw_provider_id item) 4 60 fresh) (dict_get (bp_quotas s) (qw_provider_id item)) in
      now ← monotonic;
      let '(ok, quota) := try_acquire now quota in
      modify (λ s, s <| bp_quotas := dict_set (bp_quotas s) (qw_provider_id item) quota |>
                     <| bp_rejected_backpressure ::= if ok then id else Z.succ |>);;
      '(dispatched, remaining) ← pull selected_ids rest;
      mret (if ok : bool then (item :: dispatched, remaining) else (dispatched, item :: remaining))
  end.

Definition on_inner {A} : M Scheduler A → B A := zoom bp_inner (λ c s, s <| bp_inner := c |>).
Definition dispatch (mission : Mission) (inference_slots worker_slots : Z) : B (list QueuedWork * DispatchReport) :=
  _purge_expired;;
  s ← get_state;
  let ready_tasks := as_ready <$> List.filter (λ w, negb (qw_cancelled w)) (bp_queue s) in
  '(chosen, explanation) ← on_inner (choose_ready payload_hash mission ready_tasks inference_slots worker_slots true None);
  s ← get_state;
  let fallback := bool_decide (chosen = []) && negb (bool_decide (ready_tasks = [])) in
  let selected := if fallback then take (Z.to_nat (fallback_slots (bp_inner s) inference_slots worker_slots)) ready_tasks else chosen in
  '(dispatched, remaining) ← pull (ts_id <$> selected) (bp_queue s);
  modify (λ s, s <| bp_queue := remaining |>);;
  s ← get_state;
  mret (dispatched, mkReport explanation (if fallback then Some (Z.of_nat (length selected)) else None)
    (Z.of_nat (length dispatched)) (Z.of_nat (length (bp_queue s))) (bp_rejected_backpressure s) (bp_timed_out s) (bp_cancelled s)
    ((λ kv : string * ProviderQuota, (kv.1, (pq_in_flight kv.2, pq_window_count kv.2))) <$> bp_quotas s)).

Definition complete (provider_id : string) : B () :=
  modify (λ s, (match dict_get (bp_quotas s) provider_id with
                | Some q => s <| bp_quotas := dict_set (bp_quotas s) provider_id (release q) |>
                | None => s end) <| bp_completed ::= Z.succ |>).
End backpressure.

(** ** The dispatch loop *)
Definition alive (w : QueuedWork) : bool := negb (qw_cancelled w).
Definition live (s : Backpressure) : list QueuedWork := List.filter alive (bp_queue s).
Definition flight (p : string) (s : Backpressure) : Z := match dict_get (bp_quotas s) p with Some q => pq_in_flight q | None => 0 end.
(** A provider without a quota is given the default one when its work is dispatched. *)
Definition quota_of (p : string) (s : Backpressure) : Z := match dict_get (bp_quotas s) p with Some q => pq_max_in_flight q | None => 4 end.
Definition of_provider (p : string) (w : QueuedWork) : bool := bool_decide (qw_provider_id w = p).
Definition amount {A} (f : A → bool) (l : list A) : Z := Z.of_nat (length (List.filter f l)).

Record within_limits (q : ProviderQuota) : Prop := {
  wl_flight : 0 <= pq_in_flight q <= Z.max 0 (pq_max_in_flight q);
  wl_window : 0 <= pq_window_count q <= Z.max 0 (pq_max_per_minute q)
}.
Definition quotas_ok (s : Backpressure) : Prop := ∀ p q, dict_get (bp_quotas s) p = Some q → within_limits q.

Lemma amount_app {A} (f : A → bool) l1 l2 : amount f (l1 ++ l2) = amount f l1 + amount f l2.
Proof. unfold amount. rewrite List.filter_app, length_app. lia. Qed.
Lemma amount_cons {A} (f : A → bool) x l : amount f (x :: l) = (if f x then 1 else 0) + amount f l.
Proof. unfold amount. cbn. destruct (f x); cbn [length]; lia. Qed.
Lemma amount_split {A} (f g : A → bool) l : amount f l = amount (λ x, f x && g x) l + amount (λ x, f x && negb (g x)) l.
Proof. induction l as [|x l IH]; [done|]. rewrite !amount_cons. destruct (f x), (g x); cbn; lia. Qed.
Lemma amount_ext {A} (f g : A → bool) l : (∀ x, f x = g x) → amount f l = amount g l.
Proof. intros H. unfold amount. by rewrite (List.filter_ext f g H). Qed.

Lemma try_acquire_spec now q : within_limits q →
  let r := try_acquire now q in
  within_limits r.2 ∧ pq_max_in_flight r.2 = pq_max_in_flight q ∧ pq_in_flight r.2 = pq_in_flight q + (if r.1 : bool then 1 else 0).
Proof.
  intros [[] []]. unfold try_acquire. destruct (fleb _ _); cbn; repeat case_match; cbn in *; bool_to_prop;
    split_and!; try (constructor; cbn); try lia; done.
Qed.

Lemma alive_cons w queue : List.filter alive (w :: queue) = if qw_cancelled w then List.filter alive queue else w :: List.filter alive queue.
Proof. cbn. unfold alive. by destruct (qw_cancelled w). Qed.

(** What the loop keeps and what it does to the quotas. *)
Record pulled (ids : list string) (queue : list QueuedWork) (s s' : Backpressure) (d r : list QueuedWork) : Prop := {
  pl_queue : bp_queue s' = bp_queue s;
  pl_timed_out : bp_timed_out s' = bp_timed_out s;
  pl_cancelled : bp_cancelled s' = bp_cancelled s;
  pl_max_queue : bp_max_queue s' = bp_max_queue s;
  pl_perm : d ++ r ≡ₚ List.filter alive queue;
  pl_dispatched : d `sublist_of` queue;
  pl_remaining : r `sublist_of` List.filter alive queue;
  pl_selected : Forall (λ w, qw_cancelled w = false ∧ ts_id (qw_task w) ∈ ids) d;
  pl_quotas : quotas_ok s → quotas_ok s' ∧ ∀ p, quota_of p s' = quota_of p s ∧ flight p s' = flight p s + amount (of_provider p) d
}.
Section dispatch_lemmas.
Context (clock : nat → float) (payload_hash : string → Z → string → string → string).

Lemma acquire_quotas p (s s' : Backpressure) now fresh :
  let q := default (new_quota p 4 60 fresh) (dict_get (bp_quotas s) p) in
  bp_quotas s' = dict_set (bp_quotas s) p (try_acquire now q).2 → quotas_ok s →
  quotas_ok s' ∧ ∀ p', quota_of p' s' = quota_of p' s
    ∧ flight p' s' = flight p' s + (if bool_decide (p = p') && (try_acquire now q).1 then 1 else 0).
Proof.
  intros q Hq Hok. assert (within_limits q) as Hw.
  { unfold q. destruct (dict_get (bp_quotas s) p) eqn:Hp; [by eapply Hok|]. by constructor. }
  destruct (try_acquire_spec now q Hw) as (H1 & H2 & H3). split.
  - intros p' q'. rewrite Hq, dict_get_set. case_decide; [by intros [= <-]|apply Hok].
  - intros p'. unfold quota_of, flight. rewrite Hq, dict_get_set. case_decide as Hp.
    + subst p'. rewrite H2, H3, bool_decide_true by done. unfold q. destruct (dict_get (bp_quotas s) p); by split.
    + rewrite bool_decide_false by done. cbn. split; [done|]. lia.
Qed.

Lemma pull_run ids queue s : ∃ d r s', pull clock ids queue s = (Ok (d, r), s') ∧ pulled ids queue s s' d r.
Proof.
  revert s. induction queue as [|w queue IH]; intros s.
  { exists [], [], s. split; [done|]. constructor; try done. intros Hok. split; [done|]. intros p. split; [done|]. unfold amount. cbn. lia. }
  cbn [pull]. destruct (qw_cancelled w || _) eqn:Hw.
  - destruct (IH s) as (d & r & s' & Hr & []). exists d, (if qw_cancelled w then r else w :: r), s'.
    split; [by erewrite bind_run by exact Hr|]. constructor; try done; rewrite ?alive_cons; destruct (qw_cancelled w); cbn;
      try done; [|by apply sublist_cons|by apply sublist_cons|by apply sublist_skip].
    rewrite <- Permutation_middle. by apply Permutation_skip.
  - apply orb_false_iff in Hw as [Hc Hid%negb_false_iff%bool_decide_eq_true].
    do 3 (erewrite bind_run by reflexivity). cbv beta zeta.
    set (q := default _ _). set (now := clock _). destruct (try_acquire now q) as [ok q'] eqn:Ha.
    erewrite bind_run by reflexivity. set (s2 := set_field _ _ _) in *.
    match goal with |- context [(pull clock ids queue ≫= _) ?x] => destruct (IH x) as (d & r & s' & Hr & Hpl); set (s1 := x) in * end.
    exists (if ok then w :: d else d), (if ok then r else w :: r), s'. erewrite bind_run by exact Hr. split; [by destruct ok|].
    assert (quotas_ok s → quotas_ok s1 ∧ ∀ p', quota_of p' s1 = quota_of p' s
      ∧ flight p' s1 = flight p' s + (if bool_decide (qw_provider_id w = p') && ok then 1 else 0)) as Hacq.
    { intros Hok. destruct (acquire_quotas (qw_provider_id w) s s1 now (clock (bp_reads s))) as [H1 H2]; [|done|].
      - change (default _ (dict_get (bp_quotas s) _)) with q. by rewrite Ha.
      - split; [done|]. intros p'. specialize (H2 p'). change (default _ (dict_get (bp_quotas s) _)) with q in H2. by rewrite Ha in H2. }
    destruct Hpl. constructor; try done; rewrite ?alive_cons, ?Hc.
    + destruct ok; cbn; [by apply Permutation_skip|]. rewrite <- Permutation_middle. by apply Permutation_skip.
    + destruct ok; [by apply sublist_skip|by apply sublist_cons].
    + destruct ok; [by apply sublist_cons|by apply sublist_skip].
    + destruct ok; [by constructor|done].
    + intros [Hok1 H1]%Hacq. destruct (pl_quotas0 Hok1) as [Hok2 H2]. split; [done|]. intros p'.
      destruct (H1 p') as [Q1 F1], (H2 p') as [Q2 F2]. split; [congruence|]. rewrite F2, F1. destruct ok; rewrite ?andb_true_r, ?andb_false_r; [|lia].
      rewrite amount_cons. unfold of_provider at 2. lia.
Qed.

(** The slots a round may fill. *)
Definition room (inner : Scheduler) (inf wrk : Z) : Z :=
  Z.max 0 (Z.max (backpressure_min_slots (sch_config inner)) (Z.min (Z.min inf wrk) (max_concurrency (sch_config inner)))
           - control_reserve_slots (sch_config inner)).
Lemma fallback_room inner inf wrk : 0 <= fallback_slots inner inf wrk <= room inner inf wrk.
Proof.
  unfold fallback_slots, room. set (usable := Z.max 0 _).
  assert (usable / 2 <= usable) by (apply Z.div_le_upper_bound; lia). repeat case_match; bool_to_prop; lia.
Qed.
Lemma chosen_room mission tasks inf wrk s sel expl s' : 0 <= backpressure_min_slots (sch_config s) →
  choose_ready payload_hash mission tasks inf wrk true None s = (Ok (sel, expl), s') →
  Z.of_nat (length sel) <= room s inf wrk ∧ sch_config s' = sch_config s.
Proof.
  intros Hb H. split.
  - destruct (scheduling_room payload_hash mission tasks inf wrk true None s sel expl s' Hb H) as [->|Hlen]; unfold room; cbn; lia.
  - by apply choose_ready_run in H as [(_ & Hc & _) _].
Qed.

(** Whatever the scheduler selects, or its fallback: [dispatch] returns what the loop pulls from the
    purged queue, or raises what the scheduler raised and leaves that queue. *)
Definition purged (s s1 : Backpressure) : Prop :=
  bp_queue s1 = List.filter (kept (clock (bp_reads s))) (bp_queue s)
  ∧ bp_timed_out s1 = bp_timed_out s + amount (expired (clock (bp_reads s))) (bp_queue s)
  ∧ bp_cancelled s1 = bp_cancelled s ∧ bp_quotas s1 = bp_quotas s ∧ bp_max_queue s1 = bp_max_queue s.
Lemma dispatch_run mission inf wrk s :
  ∃ s1, purged s s1 ∧
  match dispatch clock payload_hash mission inf wrk s with
  | (Ok (d, rep), s') => ∃ ids r s2, pulled ids (bp_queue s1) s1 s2 d r
      ∧ s' = s2 <| bp_queue := r |> 
      ∧ (0 <= backpressure_min_slots (sch_config (bp_inner s)) → Z.of_nat (length ids) <= room (bp_inner s) inf wrk)
  | (Err _, s') => s' = s1
  end.
Proof.
  unfold dispatch. erewrite bind_run by reflexivity. erewrite bind_run by reflexivity. cbv beta zeta.
  match goal with |- context [on_inner ?m] => set (choose := m) end.
  match goal with |- context [(on_inner choose ≫= _) ?x] => set (s0 := x) end.
  destruct (on_inner choose s0) as [r s1] eqn:Hc. assert (∃ inner, s1 = s0 <| bp_inner := inner |>) as [inner Hs1].
  { unfold on_inner, zoom in Hc. destruct (choose _) as [r0 c]. injection Hc as <- <-. by eexists. }
  exists s1. split.
  { rewrite Hs1. split_and!; try done. unfold amount. cbn. lia. }
  destruct r as [[chosen expl]|e]; [|by rewrite (bind_run_err _ _ _ _ _ Hc)].
  rewrite (bind_run _ _ _ _ _ Hc). erewrite bind_run by reflexivity. cbv beta zeta.
  match goal with |- context [pull clock ?l _] => set (ids := l) end.
  destruct (pull_run ids (bp_queue s1) s1) as (d & r & s2 & Hr & Hpl). rewrite (bind_run _ _ _ _ _ Hr).
  exists ids, r, s2. split_and!; [done..|]. intros Hb. unfold ids. rewrite length_fmap. unfold on_inner, zoom in Hc.
  destruct (choose (bp_inner s0)) as [r0 c] eqn:Hch. injection Hc as -> Hs2. destruct (chosen_room _ _ _ _ _ _ _ _ Hb Hch) as [Hlen Hcfg].
  assert (bp_inner s1 = c) as -> by (by rewrite <- Hs2).
  destruct (bool_decide (chosen = []) && _); [|done]. rewrite length_take. destruct (fallback_room c inf wrk) as [H0 H1].
  unfold room in H1. rewrite Hcfg in H1. unfold room. lia.
Qed.
End dispatch_lemmas.

(** ** Histories *)
Inductive bp_op :=
  | Enqueue (task : TaskSpec) (provider_id : string) (timeout_s : option float)
  | Cancel (task_id : string)
  | Dispatch (mission : Mission) (inference_slots worker_slots : Z)
  | Complete (provider_id : string).
Inductive bp_reply :=
  | Enqueued (accepted : bool)
  | Cancelled (found : bool)
  | Dispatched (work : list QueuedWork) (report : DispatchReport)
  | Completed.
Definition accepted_of (o : bp_op) (r : result bp_reply) : list TaskSpec :=
  match o, r with Enqueue t _ _, Ok (Enqueued true) => [t] | _, _ => [] end.
Definition dispatched_of (r : result bp_reply) : list QueuedWork :=
  match r with Ok (Dispatched work _) => work | _ => [] end.
Definition completes (p : string) (o : bp_op) : bool := match o with Complete q => bool_decide (q = p) | _ => false end.

Section histories.
Context (clock : nat → float) (payload_hash : string → Z → string → string → string).

Definition bp_exec (o : bp_op) : M Backpressure bp_reply :=
  match o with
  | Enqueue t p timeout => b ← enqueue clock t p timeout; mret (Enqueued b)
  | Cancel id => b ← cancel id; mret (Cancelled b)
  | Dispatch m inf wrk => '(work, report) ← dispatch clock payload_hash m inf wrk; mret (Dispatched work report)
  | Complete p => complete p;; mret Completed
  end.
Definition accepted (ops : list bp_op) (s : Backpressure) : list TaskSpec := concat (zip_with accepted_of ops (replies bp_exec ops s)).
Definition dispatched (ops : list bp_op) (s : Backpressure) : list QueuedWork := concat (dispatched_of <$> replies bp_exec ops s).

(** What one call does to the queue and the counters. *)
Record conserves (accepted : list TaskSpec) (work : list QueuedWork) (s s' : Backpressure) : Prop := {
  cs_tasks : (qw_task <$> work) ++ (qw_task <$> live s') ⊆+ (qw_task <$> live s) ++ accepted;
  cs_count : Z.of_nat (length work) + Z.of_nat (length (live s')) + bp_timed_out s' + bp_cancelled s'
             = Z.of_nat (length (live s)) + Z.of_nat (length accepted) + bp_timed_out s + bp_cancelled s;
  cs_max : bp_max_queue s' = bp_max_queue s;
  cs_bound : Z.of_nat (length (bp_queue s)) <= Z.max 0 (bp_max_queue s) → Z.of_nat (length (bp_queue s')) <= Z.max 0 (bp_max_queue s)
}.
Lemma conserves_trans A1 A2 W1 W2 s1 s2 s3 : conserves A1 W1 s1 s2 → conserves A2 W2 s2 s3 → conserves (A1 ++ A2) (W1 ++ W2) s1 s3.
Proof.
  intros [T1 C1 M1 B1] [T2 C2 M2 B2]. constructor; rewrite ?fmap_app, ?length_app; [|lia|congruence|by rewrite M1 in B2; auto].
  rewrite <- app_assoc. etrans; [apply submseteq_skips_l, T2|]. rewrite !app_assoc. by apply submseteq_skips_r.
Qed.

Lemma enqueue_conserves t p timeout s :
  conserves (accepted_of (Enqueue t p timeout) (bp_exec (Enqueue t p timeout) s).1) [] s (bp_exec (Enqueue t p timeout) s).2.
Proof.
  unfold bp_exec, enqueue, mbind, M_bind, get_state, modify, mret, M_ret. destruct (Z.leb_spec (bp_max_queue s) (Z.of_nat (length (bp_queue s)))); cbn.
  - constructor; unfold live; cbn; rewrite ?app_nil_r; done || lia.
  - constructor; unfold live; cbn; try done; rewrite ?List.filter_app, ?fmap_app, ?length_app; cbn; [done|lia|lia].
Qed.
Lemma cancel_live id queue : let f w := if marks id w then w <| qw_cancelled := true |> else w in
  (qw_task <$> List.filter alive (f <$> queue)) `sublist_of` (qw_task <$> List.filter alive queue)
  ∧ Z.of_nat (length (List.filter alive (f <$> queue))) + amount (marks id) queue = Z.of_nat (length (List.filter alive queue)).
Proof.
  intros f. induction queue as [|w queue [IH1 IH2]]; [done|]. rewrite fmap_cons, !alive_cons, amount_cons.
  assert (f w = if marks id w then w <| qw_cancelled := true |> else w) as -> by done.
  destruct (marks id w) eqn:Hm; cbn [qw_cancelled].
  - apply andb_true_iff in Hm as [_ Hc%negb_true_iff]. rewrite Hc. cbn. split; [by apply sublist_cons|lia].
  - destruct (qw_cancelled w); [by split|]. rewrite !fmap_cons. cbn [length]. split; [by apply sublist_skip|lia].
Qed.
Lemma cancel_conserves id s : conserves [] [] s (bp_exec (Cancel id) s).2.
Proof.
  destruct (cancel_live id (bp_queue s)) as [H1 H2].
  assert ((bp_exec (Cancel id) s).2 = s <| bp_queue ::= fmap (λ w, if marks id w then w <| qw_cancelled := true |> else w) |>
    <| bp_cancelled ::= Z.add (amount (marks id) (bp_queue s)) |>) as -> by done.
  cbn -[amount] in H1, H2. constructor; unfold live; cbn -[amount]; rewrite ?app_nil_r; [by apply sublist_submseteq|lia|done|by rewrite length_fmap].
Qed.
Lemma purge_live now queue : List.filter alive (List.filter (kept now) queue) = List.filter (kept now) queue
  ∧ Z.of_nat (length (List.filter (kept now) queue)) + amount (expired now) queue = Z.of_nat (length (List.filter alive queue)).
Proof.
  induction queue as [|w queue [IH1 IH2]]; [done|]. rewrite amount_cons, alive_cons. cbn [List.filter].
  assert (kept now w = negb (qw_cancelled w) && negb (expired now w)) as -> by done. destruct (qw_cancelled w) eqn:Hc.
  - assert (expired now w = false) as -> by (unfold expired; by rewrite Hc). cbn [negb andb]. split; [done|lia].
  - destruct (expired now w); cbn [negb andb length]; [split; [done|lia]|]. rewrite alive_cons, Hc, IH1. cbn [length]. split; [done|lia].
Qed.
Lemma dispatch_conserves m inf wrk s :
  conserves [] (dispatched_of (bp_exec (Dispatch m inf wrk) s).1) s (bp_exec (Dispatch m inf wrk) s).2.
Proof.
  destruct (dispatch_run clock payload_hash m inf wrk s) as (s1 & (Hq & Ht & Hc & _ & Hm) & Hrun).
  destruct (purge_live (clock (bp_reads s)) (bp_queue s)) as [Hal Hlen].
  assert (live s1 = List.filter (kept (clock (bp_reads s))) (bp_queue s)) as Hl1 by (unfold live; by rewrite Hq).
  assert (List.filter (kept (clock (bp_reads s))) (bp_queue s) `sublist_of` live s) as Hsub.
  { unfold live. clear. induction (bp_queue s) as [|w q IH]; [done|]. rewrite alive_cons. cbn [List.filter]. unfold kept at 1.
    destruct (qw_cancelled w); cbn [negb andb]; [done|]. destruct (negb _); [by apply sublist_skip|by apply sublist_cons]. }
  unfold bp_exec. destruct (dispatch clock payload_hash m inf wrk s) as [[[d rep]|e] s'] eqn:Hd.
  - destruct Hrun as (ids & r & s2 & Hpl & -> & _). erewrite bind_run by exact Hd. cbn [fst snd dispatched_of mret M_ret].
    destruct Hpl. fold (live s1) in pl_perm0, pl_remaining0. rewrite Hl1 in pl_perm0, pl_remaining0.
    assert (List.filter alive r = r) as Hr.
    { assert (Forall (λ w, alive w = true) r) as Hall; [|clear -Hall; induction Hall as [|w r Hw _ IH]; [done|]; cbn; by rewrite Hw, IH].
      apply Forall_forall. intros w Hw. eapply elem_of_sublist in Hw; [|exact pl_remaining0]. rewrite <- Hal in Hw.
      by apply list_elem_of_In, filter_In in Hw as [_ Hw]. }
    constructor; cbn -[live].
    + unfold live at 1. cbn. rewrite Hr, <- fmap_app, pl_perm0, app_nil_r. by apply fmap_submseteq, sublist_submseteq.
    + unfold live at 1. cbn. rewrite Hr, pl_timed_out0, pl_cancelled0, Ht, Hc.
      apply Permutation_length in pl_perm0. rewrite length_app in pl_perm0. unfold live. lia.
    + congruence.
    + intros Hb. apply sublist_length in pl_remaining0, Hsub. assert (length (live s) <= length (bp_queue s))%nat by apply filter_length_le. lia.
  - subst s'. erewrite bind_run_err by exact Hd. cbn [fst snd dispatched_of]. constructor; rewrite ?Hl1, ?Ht, ?Hc, ?Hm, ?app_nil_r; cbn.
    + by apply fmap_submseteq, sublist_submseteq.
    + unfold live. lia.
    + done.
    + intros Hb. rewrite Hq. apply sublist_length in Hsub. assert (length (live s) <= length (bp_queue s))%nat by apply filter_length_le. lia.
Qed.
Lemma complete_conserves p s : conserves [] [] s (bp_exec (Complete p) s).2.
Proof.
  assert (∃ q n, (bp_exec (Complete p) s).2 = s <| bp_quotas := q |> <| bp_completed := n |>) as (q & n & ->).
  { exists (match dict_get (bp_quotas s) p with Some q => dict_set (bp_quotas s) p (release q) | None => bp_quotas s end), (Z.succ (bp_completed s)).
    unfold bp_exec, complete, modify, mbind, M_bind. by destruct (dict_get (bp_quotas s) p). }
  constructor; unfold live; cbn; rewrite ?app_nil_r; done || lia.
Qed.

Lemma exec_conserves o s : conserves (accepted_of o (bp_exec o s).1) (dispatched_of (bp_exec o s).1) s (bp_exec o s).2.
Proof.
  destruct o as [t p timeout|id|m inf wrk|p].
  - assert (dispatched_of (bp_exec (Enqueue t p timeout) s).1 = []) as ->; [|apply enqueue_conserves].
    unfold bp_exec, mbind, M_bind. by destruct (enqueue clock t p timeout s) as [[]].
  - apply cancel_conserves.
  - apply dispatch_conserves.
  - apply complete_conserves.
Qed.
Lemma history_conserves ops s : conserves (accepted ops s) (dispatched ops s) s (after bp_exec ops s).
Proof.
  revert s. induction ops as [|o ops IH]; intros s.
  - constructor; unfold live; cbn; rewrite ?app_nil_r; done || lia.
  - unfold accepted, dispatched. cbn. eapply conserves_trans; [apply exec_conserves|apply IH].
Qed.

Lemma exec_quotas o s p : quotas_ok s → let r := bp_exec o s in
  quotas_ok r.2 ∧ quota_of p r.2 = quota_of p s
  ∧ flight p s + amount (of_provider p) (dispatched_of r.1) - (if completes p o then 1 else 0) <= flight p r.2.
Proof.
  intros Hok r. destruct o as [t q timeout|id|m inf wrk|q].
  - assert (bp_quotas r.2 = bp_quotas s ∧ dispatched_of r.1 = []) as [Hq Hd].
    { unfold r, bp_exec, enqueue, mbind, M_bind, get_state, modify, mret, M_ret. by destruct (_ <=? _). }
    unfold quotas_ok, quota_of, flight. rewrite Hq, Hd. split_and!; [done..|]. unfold amount. cbn. lia.
  - assert (bp_quotas r.2 = bp_quotas s ∧ dispatched_of r.1 = []) as [Hq Hd] by done.
    unfold quotas_ok, quota_of, flight. rewrite Hq, Hd. split_and!; [done..|]. unfold amount. cbn. lia.
  - destruct (dispatch_run clock payload_hash m inf wrk s) as (s1 & (_ & _ & _ & Hq & _) & Hrun).
    assert (quotas_ok s1 ∧ quota_of p s1 = quota_of p s ∧ flight p s1 = flight p s) as (Hok1 & Hq1 & Hf1)
      by (unfold quotas_ok, quota_of, flight; by rewrite Hq).
    unfold r, bp_exec. destruct (dispatch clock payload_hash m inf wrk s) as [[[d rep]|e] s'] eqn:Hd.
    + destruct Hrun as (ids & rest & s2 & Hpl & -> & _). erewrite bind_run by exact Hd. cbn [fst snd dispatched_of mret M_ret completes].
      destruct (pl_quotas _ _ _ _ _ _ Hpl Hok1) as [Hok2 Hf]. destruct (Hf p) as [Hq2 Hf2].
      split; [exact Hok2|]. split; [change (quota_of p s2 = quota_of p s); congruence|].
      change (flight p (s2 <| bp_queue := rest |>)) with (flight p s2). lia.
    + subst s'. erewrite bind_run_err by exact Hd. cbn [fst snd dispatched_of completes]. split_and!; [done..|]. unfold amount. cbn. lia.
  - assert (bp_quotas r.2 = match dict_get (bp_quotas s) q with Some x => dict_set (bp_quotas s) q (release x) | None => bp_quotas s end) as Hq.
    { unfold r, bp_exec, complete, modify, mbind, M_bind. by destruct (dict_get (bp_quotas s) q). }
    assert (dispatched_of r.1 = []) as -> by done. unfold quotas_ok, quota_of, flight. rewrite Hq. cbn [completes].
    assert (amount (of_provider p) [] = 0) as -> by done.
    destruct (dict_get (bp_quotas s) q) as [x|] eqn:Hx; [|split_and!; [done..|case_bool_decide; lia]].
    pose proof (Hok _ _ Hx) as [[] []]. split_and!.
    + intros p' q'. rewrite dict_get_set. case_decide; [intros [= <-]|apply Hok]. constructor; cbn; lia.
    + rewrite dict_get_set. case_decide; [subst p; by rewrite Hx|done].
    + rewrite dict_get_set. case_decide; [subst p; rewrite Hx, bool_decide_true by done; cbn; lia|rewrite bool_decide_false by done; lia].
Qed.

(** A scheduler nothing was done with. *)
Record fresh (s : Backpressure) : Prop := {
  fr_queue : bp_queue s = [];
  fr_timed_out : bp_timed_out s = 0;
  fr_cancelled : bp_cancelled s = 0;
  fr_quotas : ∀ p q, dict_get (bp_quotas s) p = Some q → pq_in_flight q = 0 ∧ pq_window_count q = 0
}.
Lemma new_backpressure_fresh inner max_queue : fresh (new_backpressure clock inner max_queue).
Proof.
  constructor; try done. intros p q. change (bp_quotas _) with (dict_set [] "ollama" (new_quota "ollama" 4 120 (clock 0))).
  rewrite dict_get_set. by case_decide; [intros [= <-]|].
Qed.
Lemma make_scale_scheduler_fresh profiles conc max_queue flight : fresh (make_scale_scheduler clock profiles conc max_queue flight).
Proof.
  constructor; try done. intros p q. change (bp_quotas _) with
    (dict_set (dict_set [] "ollama" (new_quota "ollama" 4 120 (clock 0))) "ollama" (new_quota "ollama" flight 180 (clock 1))).
  rewrite !dict_get_set. by case_decide; [intros [= <-]|].
Qed.
Lemma fresh_quotas s : fresh s → quotas_ok s.
Proof. intros [_ _ _ H] p q Hq. destruct (H _ _ Hq) as [H1 H2]. constructor; lia. Qed.

(** C26: However work is queued, cancelled, dispatched and completed: the tasks that were dispatched and those
    live in the queue are, each once, tasks that were accepted; all accepted work is dispatched,
    timed out, cancelled or still live, by count; and the queue never exceeds its bound. *)
Theorem queue_work_is_conserved ops s0 : fresh s0 →
  let s := after bp_exec ops s0 in
  (qw_task <$> dispatched ops s0) ++ (qw_task <$> live s) ⊆+ accepted ops s0
  ∧ Z.of_nat (length (accepted ops s0))
    = Z.of_nat (length (dispatched ops s0)) + Z.of_nat (length (live s)) + bp_timed_out s + bp_cancelled s
  ∧ Z.of_nat (length (bp_queue s)) <= Z.max 0 (bp_max_queue s0).
Proof.
  intros [Hq Ht Hc _] s. destruct (history_conserves ops s0) as [H1 H2 H3 H4]. fold s in H1, H2, H3, H4.
  assert (live s0 = []) as Hl by (unfold live; by rewrite Hq). rewrite Hl in H1, H2. cbn in H1, H2.
  split_and!; [done|lia|]. apply H4. rewrite Hq. cbn. lia.
Qed.

(** However work is queued, cancelled, dispatched and completed, the work of a provider that was dispatched
    and not completed is within the provider's quota. *)
Theorem outstanding_work_is_within_quota ops s0 p : fresh s0 →
  amount (of_provider p) (dispatched ops s0) - amount (completes p) ops <= Z.max 0 (quota_of p s0).
Proof.
  intros Hf.
  assert (∀ s, quotas_ok s → quotas_ok (after bp_exec ops s) ∧ quota_of p (after bp_exec ops s) = quota_of p s
    ∧ flight p s + amount (of_provider p) (dispatched ops s) - amount (completes p) ops <= flight p (after bp_exec ops s)) as H.
  { induction ops as [|o ops IH]; intros s Hok.
    - split_and!; [done..|]. unfold amount. cbn. lia.
    - destruct (exec_quotas o s p Hok) as (Hok1 & Hq1 & Hf1). destruct (IH _ Hok1) as (Hok2 & Hq2 & Hf2).
      cbn [after]. split_and!; [done|congruence|]. unfold dispatched in *. cbn [replies fmap list_fmap concat].
      rewrite amount_app, amount_cons. cbn in Hf2. lia. }
  destruct (H s0 (fresh_quotas _ Hf)) as (Hok & Hq & Hfl).
  assert (0 <= flight p s0) as H0. { unfold flight. case_match eqn:E; [|lia]. by destruct (fr_quotas _ Hf _ _ E) as [-> _]. }
  rewrite <- Hq. unfold flight, quota_of in H0, Hfl |- *. destruct (dict_get (bp_quotas (after bp_exec ops s0)) p) as [q|] eqn:Hp; [|lia].
  destruct (Hok _ _ Hp) as [[] _]. lia.
Qed.

(** A dispatch returns work in the order of the queue, none of it cancelled or past its deadline, and
    leaves neither in the queue; when the tasks in the queue are distinct it fits the slots that
    the control reserve leaves. *)
Theorem dispatch_is_bounded mission inf wrk s d rep s' :
  dispatch clock payload_hash mission inf wrk s = (Ok (d, rep), s') →
  d `sublist_of` bp_queue s
  ∧ (∀ w, w ∈ d ∨ w ∈ bp_queue s' → qw_cancelled w = false ∧ expired (clock (bp_reads s)) w = false)
  ∧ (NoDup (ts_id ∘ qw_task <$> bp_queue s) → 0 <= backpressure_min_slots (sch_config (bp_inner s)) →
     Z.of_nat (length d) <= room (bp_inner s) inf wrk).
Proof.
  intros Hd. destruct (dispatch_run clock payload_hash mission inf wrk s) as (s1 & (Hq & _) & Hrun). rewrite Hd in Hrun.
  destruct Hrun as (ids & r & s2 & Hpl & -> & Hroom).
  assert (bp_queue s1 `sublist_of` bp_queue s) as Hsub.
  { rewrite Hq. clear. induction (bp_queue s) as [|w q IH]; cbn; [done|]. destruct (kept _ w); [by apply sublist_skip|by apply sublist_cons]. }
  pose proof (pl_dispatched _ _ _ _ _ _ Hpl) as Hdq. split_and!.
  - by etrans.
  - assert (∀ w, w ∈ bp_queue s1 → qw_cancelled w = false ∧ expired (clock (bp_reads s)) w = false) as Hkept.
    { intros w. rewrite Hq. intros [_ Hk]%list_elem_of_In%filter_In. unfold kept in Hk. by bool_to_prop. }
    intros w [Hw|Hw]; apply Hkept; [by eapply elem_of_sublist|]. cbn in Hw.
    eapply elem_of_sublist in Hw; [|exact (pl_remaining _ _ _ _ _ _ Hpl)]. apply list_elem_of_In, filter_In in Hw as [Hw _]. by apply list_elem_of_In.
  - intros Hnd Hb. etrans; [|by apply Hroom]. apply inj_le. rewrite <- (length_fmap (ts_id ∘ qw_task)).
    apply NoDup_incl_length.
    + apply NoDup_ListNoDup. eapply sublist_NoDup; [exact Hnd|]. by rewrite Hdq, Hsub.
    + intros x Hx. apply list_elem_of_In, list_elem_of_fmap in Hx as (w & -> & Hw). apply list_elem_of_In.
      pose proof (pl_selected _ _ _ _ _ _ Hpl) as Hsel. rewrite Forall_forall in Hsel. by apply Hsel.
Qed.
End histories.

(** ** Runs *)
Module BackpressureSample.
Definition seconds (n : nat) : float := float_of_Z (Z.of_nat n).
Definition no_hash (_ : string) (_ : Z) (_ _ : string) : string := "h".
Abbreviation go := (bp_exec seconds no_hash).
Definition work (id : string) : TaskSpec := demo_task id "2024-01" "poetry" 1 [] TaskStatus.PROPOSED.
Definition small : Backpressure := make_scale_scheduler seconds (sch_profiles demo_scheduler) 3 3 1.
Definition queue_two : list bp_op := [Enqueue (work "t1") "ollama" None; Enqueue (work "t2") "ollama" None].
(** Two tasks, a third refused as the queue is full after it, one cancelled, one dispatched. *)
Definition busy : list bp_op :=
  queue_two ++ [Enqueue (work "t3") "ollama" (Some (float_of_Z 1)); Enqueue (work "t4") "ollama" None; Cancel "t2"; Dispatch demo_mission 4 4].

Lemma queue_work_is_conserved_witness :
  (qw_task <$> dispatched seconds no_hash busy small) = [work "t1"]
  ∧ Z.of_nat (length (accepted seconds no_hash busy small))
    = Z.of_nat (length (dispatched seconds no_hash busy small)) + Z.of_nat (length (live (after go busy small)))
      + bp_timed_out (after go busy small) + bp_cancelled (after go busy small).
Proof.
  split; [vm_compute; reflexivity|].
  exact (proj1 (proj2 (queue_work_is_conserved seconds no_hash busy small (make_scale_scheduler_fresh seconds _ _ _ _)))).
Defined.

Definition two_rounds : list bp_op := queue_two ++ [Dispatch demo_mission 4 4; Dispatch demo_mission 4 4].
Lemma outstanding_work_is_within_quota_witness :
  length (dispatched seconds no_hash two_rounds small) = 1%nat
  ∧ amount (of_provider "ollama") (dispatched seconds no_hash two_rounds small) - amount (completes "ollama") two_rounds <= 1.
Proof.
  split; [vm_compute; reflexivity|].
  exact (outstanding_work_is_within_quota seconds no_hash two_rounds small "ollama" (make_scale_scheduler_fresh seconds _ _ _ _)).
Defined.

Lemma dispatch_is_bounded_witness :
  let s := after go queue_two small in
  match (dispatch seconds no_hash demo_mission 4 4 s).1 with
  | Ok (d, _) => qw_task <$> d = [work "t1"] ∧ d `sublist_of` bp_queue s
  | Err _ => False
  end.
Proof.
  intros s. destruct (dispatch seconds no_hash demo_mission 4 4 s) as [[[d rep]|e] s'] eqn:Hd.
  - split; [|exact (proj1 (dispatch_is_bounded seconds no_hash demo_mission 4 4 s d rep s' Hd))].
    apply (f_equal fst) in Hd. vm_compute in Hd. injection Hd as <- _. reflexivity.
  - apply (f_equal fst) in Hd. vm_compute in Hd. discriminate.
Defined.

(** A scheduler that drains selects nothing, and the fallback dispatches from the queue all the same. *)
Example draining_still_dispatches :
  let s := after go queue_two small <| bp_inner ::= begin_drain |> in
  match (go (Dispatch demo_mission 4 4) s).1 with
  | Ok (Dispatched w report) => (qw_task <$> w = [work "t1"]) ∧ dr_inner report = Draining None
  | _ => False
  end.
Proof. vm_compute. by split. Qed.

(** One usable slot, and a task that was queued twice: both pieces are dispatched. *)
Example a_task_queued_twice_exceeds_the_slots :
  let s := after go [Enqueue (work "t1") "ollama" None; Enqueue (work "t1") "groq" None] small in
  match (go (Dispatch demo_mission 2 2) s).1 with
  | Ok (Dispatched w _) => length w = 2%nat ∧ room (bp_inner s) 2 2 = 1
  | _ => False
  end.
Proof. vm_compute. by split. Qed.
End BackpressureSample.
