(* ===== verification/Controller.v ===== *)
(** * Controller: the mission controller (src/swarm/controller/mission.py)

    [Controller] holds the missions, their task maps, the proposals, the attempts and the
    verifications, and owns the scheduler (whose profile store it shares).  A proposal is
    validated against the current task map and mission revision when it is committed.
    Fresh ids are arguments. *)
From S2P Require Import Prelude Collections Contracts PyFloat.
From S2P Require Import Profiles Authority Scheduler Graph.
Open Scope Z_scope.

Inductive GraphExplanation : Type :=
  | Committed (proposal_id operation : string) (accepted : bool) (reason : string)
      (merged_into : option string)
  | Schedule (explanation : Explanation).

Record Controller := mkController {
  mc_scheduler : Scheduler;
  mc_missions : dict Mission;
  mc_tasks : dict (dict TaskSpec);
  mc_proposals : dict GraphProposal;
  mc_attempts : dict TaskAttempt;
  mc_verifications : dict string;
  mc_graph_explanations : list GraphExplanation;
  mc_inference_slots : Z;
  mc_worker_slots : Z
}.
#[export] Instance eta_Controller : Eta Controller := λ r,
  mkController (mc_scheduler r) (mc_missions r) (mc_tasks r) (mc_proposals r) (mc_attempts r)
    (mc_verifications r) (mc_graph_explanations r) (mc_inference_slots r) (mc_worker_slots r).

(** ** Operations *)
Definition submit_mission (mission : Mission) : M Controller Mission :=
  let mission := mission <| ms_status := MissionStatus.PLANNING |> in
  modify (λ c, c <| mc_missions := dict_set (mc_missions c) (ms_id mission) mission |>
                 <| mc_tasks := dict_setdefault (mc_tasks c) (ms_id mission) [] |>);;
  mret mission.

Definition propose_graph_change (proposal : GraphProposal) : M Controller GraphProposal :=
  modify (λ c, c <| mc_proposals := dict_set (mc_proposals c) (gp_proposal_id proposal) proposal |>);;
  mret proposal.

Definition mark_ready (spec : TaskSpec) : TaskSpec := spec <| ts_status := TaskStatus.READY |>.

Definition task_map (c : Controller) (mission_id : string) : dict TaskSpec :=
  default [] (dict_get (mc_tasks c) mission_id).

(** [self.missions[mission.id] = mission], with the next revision and status running. *)
Definition bump_revision (mission : Mission) : M Controller Z :=
  let mission := mission <| ms_revision := ms_revision mission + 1 |>
                         <| ms_status := MissionStatus.RUNNING |> in
  modify (λ c, c <| mc_missions := dict_set (mc_missions c) (ms_id mission) mission |>);;
  mret (ms_revision mission).

Definition commit_validated_revision (proposal_id : string) : M Controller Z :=
  c ← get_state;
  proposal ← require (dict_get (mc_proposals c) proposal_id) (KeyError proposal_id);
  mission ← require (dict_get (mc_missions c) (gp_mission_id proposal))
              (KeyError (gp_mission_id proposal));
  modify (λ c, c <| mc_tasks := dict_setdefault (mc_tasks c) (ms_id mission) [] |>);;
  c ← get_state;
  let tasks := task_map c (ms_id mission) in
  let result := validate_proposal proposal tasks (ms_revision mission)
                  (to_set (ms_data_scope_ids mission)) (ms_max_graph_nodes mission) in
  modify (λ c, c <| mc_graph_explanations := mc_graph_explanations c ++
    [Committed proposal_id (GraphOperation.value (gp_operation proposal)) (vr_accepted result)
       (vr_reason result) (vr_merged_into result)] |>);;
  if negb (vr_accepted result) then
    if truthy (vr_merged_into result) then mret (ms_revision mission)
    else raise (ValueError (vr_reason result))
  else if is_spawn (gp_operation proposal) then
    modify (λ c, c <| mc_tasks := dict_set (mc_tasks c) (ms_id mission)
                        (add_tasks mark_ready tasks (gp_task_specs proposal)) |>);;
    bump_revision mission
  else if bool_decide (gp_operation proposal = GraphOperation.STOP) then
    modify (λ c, c <| mc_missions := dict_set (mc_missions c) (ms_id mission)
                        (mission <| ms_status := MissionStatus.CANCELLED |>) |>);;
    mret (ms_revision mission)
  else bump_revision mission.

(** The dependency check of one task: stops at the first dependency that is missing or
    neither accepted nor being verified. *)
Definition deps_ok (tasks : dict TaskSpec) (t : TaskSpec) : bool :=
  forallb (λ dep, match dict_get tasks dep with
                  | None => false
                  | Some parent => bool_decide (ts_status parent ∈
                                     [TaskStatus.ACCEPTED; TaskStatus.VERIFYING])
                  end) (ts_dependency_ids t).

(** One pass over the tasks: those whose dependencies hold, proposed ones promoted. *)
Fixpoint resolve_loop (mission_id : string) (tasks acc : list TaskSpec)
    : M Controller (list TaskSpec) :=
  match tasks with
  | [] => mret acc
  | t :: rest =>
    if negb (bool_decide (ts_status t = TaskStatus.READY))
       && negb (bool_decide (ts_status t = TaskStatus.PROPOSED))
    then resolve_loop mission_id rest acc
    else
      c ← get_state;
      if deps_ok (task_map c mission_id) t then
        if bool_decide (ts_status t = TaskStatus.PROPOSED) then
          let t := mark_ready t in
          put_state (c <| mc_tasks := dict_set (mc_tasks c) mission_id
                            (dict_set (task_map c mission_id) (ts_id t) t) |>);;
          resolve_loop mission_id rest (acc ++ [t])
        else resolve_loop mission_id rest (acc ++ [t])
      else resolve_loop mission_id rest acc
  end.

Definition on_scheduler {A} : M Scheduler A → M Controller A :=
  zoom mc_scheduler (λ s c, c <| mc_scheduler := s |>).

Definition choose_ready_work (payload_hash : string → Z → string → string → string)
    (mission_id : string) : M Controller (list TaskSpec) :=
  c ← get_state;
  mission ← require (dict_get (mc_missions c) mission_id) (KeyError mission_id);
  ready ← resolve_loop mission_id (dict_values (task_map c mission_id)) [];
  '(selected, explanation) ← on_scheduler (choose_ready payload_hash mission ready
      (mc_inference_slots c) (mc_worker_slots c) true None);
  modify (λ c, c <| mc_graph_explanations := mc_graph_explanations c ++ [Schedule explanation] |>);;
  mret selected.

(** The task [task_id] is accepted in every mission that has it. *)
Definition accept_in (task_id : string) (tasks : dict TaskSpec) : dict TaskSpec :=
  match dict_get tasks task_id with
  | Some t => dict_set tasks task_id (t <| ts_status := TaskStatus.ACCEPTED |>)
  | None => tasks
  end.

Definition record_verification (attempt_id receipt_id : string) : M Controller () :=
  modify (λ c, c <| mc_verifications := dict_set (mc_verifications c) attempt_id receipt_id |>);;
  c ← get_state;
  match dict_get (mc_attempts c) attempt_id with
  | None => mret ()
  | Some attempt =>
    let attempt := attempt <| ta_verification_receipt_id := Some receipt_id |> in
    modify (λ c, c <| mc_attempts := dict_set (mc_attempts c) attempt_id attempt |>
                   <| mc_tasks := (λ kt : string * _, (kt.1, accept_in (ta_task_id attempt) kt.2))
                                    <$> mc_tasks c |>)
  end.

Definition register_attempt (attempt : TaskAttempt) (c : Controller) : Controller :=
  c <| mc_attempts := dict_set (mc_attempts c) (ta_attempt_id attempt) attempt |>.

(** [None] when every task passed, otherwise the mission the loop returns. *)
Fixpoint completion_loop (attempts : list TaskAttempt) (mission : Mission) (tasks : list TaskSpec)
    : option Mission :=
  match tasks with
  | [] => None
  | t :: rest =>
    let verified := existsb (λ a, bool_decide (ta_task_id a = ts_id t)
                                  && truthy (ta_verification_receipt_id a)) attempts in
    if bool_decide (ts_status t ∈ [TaskStatus.FAILED; TaskStatus.REJECTED])
    then Some (mission <| ms_status := MissionStatus.FAILED |>)
    else if negb (bool_decide (ts_status t ∈ [TaskStatus.ACCEPTED; TaskStatus.CANCELLED;
                                               TaskStatus.SUPERSEDED]))
    then Some mission
    else if bool_decide (ts_status t = TaskStatus.ACCEPTED) && negb verified then Some mission
    else completion_loop attempts mission rest
  end.

Definition try_complete (receipt_id mission_id : string) : M Controller Mission :=
  c ← get_state;
  mission ← require (dict_get (mc_missions c) mission_id) (KeyError mission_id);
  let tasks := dict_values (task_map c mission_id) in
  match tasks with
  | [] => mret mission
  | _ =>
    match completion_loop (dict_values (mc_attempts c)) mission tasks with
    | Some m => mret m
    | None =>
      let completed := mission <| ms_status := MissionStatus.COMPLETED |>
                               <| ms_acceptance_receipt_id := Some receipt_id |> in
      put_state (c <| mc_missions := dict_set (mc_missions c) mission_id completed |>);;
      mret completed
    end
  end.

Definition expand_capacity (inference workers : Z) (c : Controller) : Controller :=
  c <| mc_inference_slots := inference |> <| mc_worker_slots := workers |>.

Definition note_inference_exhaustion (c : Controller) : Controller :=
  c <| mc_scheduler := note_overload (mc_scheduler c) |>.

Definition spawn_proposal (proposal_id : string) (mission : Mission) (children : list TaskSpec)
    : GraphProposal :=
  mkGraphProposal proposal_id (ms_id mission) (ms_revision mission) GraphOperation.SPAWN children.
