(* ===== verification/ControllerProps.v ===== *)
(** * ControllerProps: what the mission controller guarantees

    Invariants of every reachable controller (acyclic, bounded task graphs; acceptance
    only with a recorded verification), what a dispatched task may depend on, optimistic
    concurrency of proposals and completion of missions; then concrete runs that show
    where the controller does not keep what its comments say. *)
From S2P Require Import Prelude Collections Contracts PyFloat.
From S2P Require Import Profiles Authority Scheduler Graph Controller.
Open Scope Z_scope.

(** ** Well-formed task maps *)
Record map_ok (tm : dict TaskSpec) : Prop := {
  mo_nodup : NoDup (dict_keys tm);
  mo_ids : ∀ k t, dict_get tm k = Some t → ts_id t = k;
  mo_acyclic : ¬ cyclic (task_graph tm)
}.

(** Task maps that differ in the statuses of their tasks only. *)
Definition restatus (tm tm' : dict TaskSpec) : Prop :=
  dict_keys tm' = dict_keys tm ∧
  ∀ k, (mark_ready <$> dict_get tm' k) = (mark_ready <$> dict_get tm k).

Lemma restatus_ok tm tm' : restatus tm tm' → map_ok tm → map_ok tm'.
Proof.
  intros [Hk H] [Hnd Hid Hac]. split; [by rewrite Hk| |].
  - intros k t Ht. specialize (H k). rewrite Ht in H. symmetry in H.
    apply fmap_Some in H as (t0 & G & Heq). rewrite <- (Hid _ _ G).
    change (ts_id (mark_ready t) = ts_id (mark_ready t0)). by rewrite Heq.
  - intros Hc. apply Hac. eapply cyclic_ext; [|exact Hc]. intros k.
    rewrite !deps_of_task_graph. specialize (H k).
    destruct (dict_get tm k) as [t|], (dict_get tm' k) as [t'|]; try done; simpl.
    injection H. intros. done.
Qed.

(** Promotion of proposed tasks: the only change a scheduling pass makes. *)
Definition promoted (tm tm' : dict TaskSpec) : Prop :=
  dict_keys tm' = dict_keys tm ∧
  ∀ k, dict_get tm' k = dict_get tm k
       ∨ ∃ t, dict_get tm k = Some t ∧ ts_status t = TaskStatus.PROPOSED
              ∧ dict_get tm' k = Some (mark_ready t).

#[export] Instance promoted_preorder : PreOrder promoted.
Proof.
  split; [by intros tm; split; auto|].
  intros a b c [Hk1 H1] [Hk2 H2]. split; [congruence|]. intros k.
  destruct (H2 k) as [E2|(t2 & G2 & P2 & R2)]; destruct (H1 k) as [E1|(t1 & G1 & P1 & R1)].
  - left. congruence.
  - right. exists t1. rewrite E2. auto.
  - right. exists t2. rewrite <- E1. auto.
  - rewrite R1 in G2. simplify_eq.
Qed.

Lemma promoted_length tm tm' : promoted tm tm' → length tm' = length tm.
Proof.
  intros [Hk _]. unfold dict_keys in Hk.
  rewrite <- (length_fmap fst tm'), <- (length_fmap fst tm). congruence.
Qed.

Lemma promoted_ok tm tm' : promoted tm tm' → map_ok tm → map_ok tm'.
Proof.
  intros [Hk H]. apply restatus_ok. split; [done|]. intros k.
  destruct (H k) as [->|(t & -> & _ & ->)]; simpl; [done|by destruct t].
Qed.

(** Tasks that are not proposed are left alone. *)
Lemma promoted_keeps tm tm' k t :
  promoted tm tm' → dict_get tm k = Some t → ts_status t ≠ TaskStatus.PROPOSED →
  dict_get tm' k = Some t.
Proof. intros [_ H] G Hs. destruct (H k) as [->|(t' & G' & Hp & _)]; congruence. Qed.

Lemma promoted_accepted tm tm' k t :
  promoted tm tm' → dict_get tm' k = Some t → ts_status t = TaskStatus.ACCEPTED →
  dict_get tm k = Some t.
Proof. intros [_ H] G Hs. destruct (H k) as [<-|(t' & G' & Hp & R)]; [done|]. rewrite R in G. by simplify_eq. Qed.

Lemma deps_ok_promoted tm tm' t : promoted tm tm' → deps_ok tm t = true → deps_ok tm' t = true.
Proof.
  intros Hp. unfold deps_ok. rewrite !forallb_forall. intros H dep Hd. specialize (H dep Hd).
  destruct (dict_get tm dep) as [p|] eqn:Hg; [|done].
  rewrite (promoted_keeps _ _ _ _ Hp Hg); [done|]. intros Hs. rewrite Hs in H.
  vm_compute in H. discriminate.
Qed.

Lemma promote_one tm t :
  dict_get tm (ts_id t) = Some t → ts_status t = TaskStatus.PROPOSED →
  promoted tm (dict_set tm (ts_id t) (mark_ready t)).
Proof.
  intros G Hs. split.
  - rewrite dict_keys_set. unfold dict_mem. by rewrite G.
  - intros k. rewrite dict_get_set. case_decide as Hk; [subst k|by left].
    right. exists t. done.
Qed.

(** ** The scheduling pass *)

(** The controllers a pass over mission [mid] can produce from [c]. *)
Record passed (mid : string) (c c' : Controller) : Prop := {
  pa_frame : ∃ ts, c' = c <| mc_tasks := ts |>;
  pa_other : ∀ mid', mid' ≠ mid → dict_get (mc_tasks c') mid' = dict_get (mc_tasks c) mid';
  pa_present : is_Some (dict_get (mc_tasks c') mid) ↔ is_Some (dict_get (mc_tasks c) mid);
  pa_map : promoted (task_map c mid) (task_map c' mid)
}.

#[export] Instance passed_preorder mid : PreOrder (passed mid).
Proof.
  split.
  - intros c. split; [exists (mc_tasks c); by destruct c|done..].
  - intros c1 c2 c3 [[t1 ->] H1 P1 M1] [[t2 ->] H2 P2 M2]. split.
    + exists t2. done.
    + intros mid' Hne. rewrite H2 by done. auto.
    + tauto.
    + by etrans.
Qed.

Lemma promote_passed mid c t :
  dict_get (task_map c mid) (ts_id t) = Some t → ts_status t = TaskStatus.PROPOSED →
  passed mid c (c <| mc_tasks := dict_set (mc_tasks c) mid
    (dict_set (task_map c mid) (ts_id t) (mark_ready t)) |>).
Proof.
  intros G Hs.
  assert (is_Some (dict_get (mc_tasks c) mid)) as Hsome.
  { unfold task_map in G. destruct (dict_get (mc_tasks c) mid); [by eexists|done]. }
  split; simpl; [by eexists|..].
  - intros mid' Hne. by apply dict_get_set_ne.
  - rewrite dict_get_set_eq. split; [done|by eexists].
  - unfold task_map at 2. simpl. rewrite dict_get_set_eq. by apply promote_one.
Qed.

(** What the pass may hand to the scheduler. *)
Definition dispatchable (c : Controller) (mid : string) (t : TaskSpec) : Prop :=
  ts_status t = TaskStatus.READY ∧ dict_get (task_map c mid) (ts_id t) = Some t
  ∧ deps_ok (task_map c mid) t = true.

Lemma dispatchable_passed mid c c' t :
  passed mid c c' → dispatchable c mid t → dispatchable c' mid t.
Proof.
  intros [_ _ _ Hm] (Hs & G & Hd). split_and!; [done| |by eapply deps_ok_promoted].
  eapply promoted_keeps; eauto. by rewrite Hs.
Qed.

Lemma resolve_loop_spec mid tasks acc c :
  NoDup (ts_id <$> tasks) → (∀ t, t ∈ tasks → dict_get (task_map c mid) (ts_id t) = Some t) →
  (∀ t, t ∈ acc → dispatchable c mid t) →
  ∃ ready c', resolve_loop mid tasks acc c = (Ok ready, c') ∧ passed mid c c'
    ∧ ∀ t, t ∈ ready → dispatchable c' mid t.
Proof.
  revert acc c; induction tasks as [|t tasks IH]; intros acc c Hnd Hg Hacc; simpl.
  { by exists acc, c. }
  apply NoDup_cons in Hnd as [Ht Hnd].
  assert (dict_get (task_map c mid) (ts_id t) = Some t) as Gt by (apply Hg; by left).
  assert (∀ t', t' ∈ tasks → dict_get (task_map c mid) (ts_id t') = Some t') as Hg'
    by (intros; apply Hg; by right).
  case_match eqn:Hst; [by apply IH|]. erewrite bind_run by reflexivity.
  destruct (deps_ok (task_map c mid) t) eqn:Hd; [|by apply IH].
  destruct (bool_decide (ts_status t = TaskStatus.PROPOSED)) eqn:Hp.
  - apply bool_decide_eq_true in Hp. erewrite bind_run by reflexivity. pose proof (promote_passed mid c t Gt Hp) as Hpass.
    match type of Hpass with passed _ _ ?x => set (c1 := x) in * end.
    destruct (IH (acc ++ [mark_ready t]) c1 Hnd) as (ready & c' & Hrun & Hpass' & Hready).
    + intros t' Ht'. unfold c1, task_map at 1. simpl. rewrite dict_get_set_eq. simpl.
      rewrite dict_get_set_ne; [by apply Hg'|]. intros Heq. apply Ht.
      rewrite Heq. by apply list_elem_of_fmap_2.
    + intros t' [Ht'| ->%list_elem_of_singleton]%elem_of_app.
      * eapply dispatchable_passed; [exact Hpass|auto].
      * split_and!; [done| |].
        -- unfold c1, task_map at 1. simpl. rewrite dict_get_set_eq. simpl. apply dict_get_set_eq.
        -- eapply (deps_ok_promoted (task_map c mid)); [apply Hpass|exact Hd].
    + exists ready, c'. split_and!; [done|by etrans|done].
  - apply IH; [done|done|]. intros t' [Ht'| ->%list_elem_of_singleton]%elem_of_app; [auto|].
    split_and!; [|done|done]. rewrite andb_true_r in Hst. bool_to_prop. done.
Qed.

Lemma snapshot_ok tm :
  map_ok tm → NoDup (ts_id <$> dict_values tm)
  ∧ ∀ t, t ∈ dict_values tm → dict_get tm (ts_id t) = Some t.
Proof.
  intros [Hnd Hid _].
  assert (∀ k t, (k, t) ∈ tm → ts_id t = k) as Hk.
  { intros k t Hin. apply Hid. by apply dict_elem_get. }
  split.
  - replace (ts_id <$> dict_values tm) with (dict_keys tm); [done|].
    unfold dict_values, dict_keys. rewrite <- list_fmap_compose. apply list_fmap_ext.
    intros i [k t] Hi. symmetry. apply Hk. by eapply list_elem_of_lookup_2.
  - intros t [k Hin]%dict_values_elem. rewrite (Hk k t Hin). by apply dict_elem_get.
Qed.

Lemma map_ok_nil : map_ok [].
Proof.
  split; [constructor|done|]. intros [x Hx].
  assert (∀ a b, ¬ edge (task_graph []) a b) as H by (intros a b ?%elem_of_nil; done).
  destruct Hx; by eapply H.
Qed.

(** ** The invariant of the controller *)
Definition same_core (c c' : Controller) : Prop :=
  mc_missions c' = mc_missions c ∧ mc_tasks c' = mc_tasks c ∧ mc_attempts c' = mc_attempts c.

Definition verified (c : Controller) (task_id : string) : Prop :=
  ∃ aid a r, dict_get (mc_attempts c) aid = Some a ∧ ta_task_id a = task_id
    ∧ ta_verification_receipt_id a = Some r.

(** [fresh]: attempts are registered once; [lim]: the node limits each mission id was
    submitted with. *)
Section invariant.
Context (fresh : Prop) (lim : string → Z → Prop).

Record controller_inv (c : Controller) : Prop := {
  ci_mission_ids : ∀ mid m, dict_get (mc_missions c) mid = Some m →
    ms_id m = mid ∧ lim mid (ms_max_graph_nodes m);
  ci_maps : ∀ mid tm, dict_get (mc_tasks c) mid = Some tm → map_ok tm
    ∧ (tm = [] ∨ ∃ n, lim mid n ∧ Z.of_nat (length tm) <= n);
  ci_accepted : fresh → ∀ mid tm k t, dict_get (mc_tasks c) mid = Some tm →
    dict_get tm k = Some t → ts_status t = TaskStatus.ACCEPTED → verified c k
}.

Lemma task_map_ok c mid : controller_inv c → map_ok (task_map c mid).
Proof.
  intros Hinv. unfold task_map. destruct (dict_get (mc_tasks c) mid) as [tm|] eqn:Hg; simpl.
  - by apply (ci_maps _ Hinv mid).
  - apply map_ok_nil.
Qed.

Lemma same_core_inv c c' : same_core c c' → controller_inv c → controller_inv c'.
Proof.
  intros (H1 & H2 & H3) [Hm Hmaps Hacc]. split; unfold verified; rewrite ?H1, ?H2, ?H3; done.
Qed.

Lemma set_map_inv c mid tm :
  controller_inv c → map_ok tm →
  (tm = [] ∨ ∃ n, lim mid n ∧ Z.of_nat (length tm) <= n) →
  (fresh → ∀ k t, dict_get tm k = Some t → ts_status t = TaskStatus.ACCEPTED → verified c k) →
  controller_inv (c <| mc_tasks := dict_set (mc_tasks c) mid tm |>).
Proof.
  intros [Hm Hmaps Hacc] Hok Hb Ha. split; simpl; [done|..].
  - intros mid' tm'. rewrite dict_get_set. case_decide; [|by apply Hmaps].
    intros [= <-]. by subst.
  - intros Hf mid' tm' k t. rewrite dict_get_set. case_decide; [|by apply Hacc].
    intros [= <-]. by apply Ha.
Qed.

Lemma set_mission_inv c mid m' :
  controller_inv c → ms_id m' = mid → lim mid (ms_max_graph_nodes m') →
  controller_inv (c <| mc_missions := dict_set (mc_missions c) mid m' |>).
Proof.
  intros [Hm Hmaps Hacc] Hid Hmax. split; simpl; [|done..].
  intros mid' m''. rewrite dict_get_set. case_decide; [|by apply Hm]. by intros [= <-]; subst.
Qed.

Lemma setdefault_inv c mid :
  controller_inv c →
  let c' := c <| mc_tasks := dict_setdefault (mc_tasks c) mid [] |> in
  controller_inv c' ∧ task_map c' mid = task_map c mid.
Proof.
  intros Hinv. unfold task_map, dict_setdefault. simpl.
  destruct (dict_get (mc_tasks c) mid) as [tm|] eqn:Hg.
  - rewrite Hg. split; [|done]. by eapply same_core_inv; [|exact Hinv].
  - rewrite dict_get_set_eq. split; [|done].
    eapply set_map_inv; [done|apply map_ok_nil|by left|done].
Qed.

Lemma add_tasks_lookup f specs d k t :
  dict_get (add_tasks f d specs) k = Some t →
  (∃ s, s ∈ specs ∧ ts_id s = k ∧ t = f s) ∨ dict_get d k = Some t.
Proof.
  unfold add_tasks. revert d; induction specs as [|s specs IH]; intros d; simpl; [by right|].
  intros [(s' & Hs' & ? & ?)|H]%IH.
  - left. exists s'. split; [by right|done].
  - rewrite dict_get_set in H. case_decide; [|by right]. left. exists s.
    simplify_eq. split; [by left|done].
Qed.

Lemma add_tasks_nodup f specs d : NoDup (dict_keys d) → NoDup (dict_keys (add_tasks f d specs)).
Proof.
  unfold add_tasks. revert d; induction specs as [|s specs IH]; intros d Hd; simpl; [done|].
  apply IH. auto with swarm.
Qed.

(** ** Every operation keeps the invariant *)
Lemma commit_inv c pid : controller_inv c → controller_inv (commit_validated_revision pid c).2.
Proof.
  intros Hinv. unfold commit_validated_revision. erewrite bind_run by reflexivity.
  destruct (dict_get (mc_proposals c) pid) as [proposal|]; [|done].
  erewrite bind_run by reflexivity.
  destruct (dict_get (mc_missions c) (gp_mission_id proposal)) as [m|] eqn:Hm; [|done].
  destruct (ci_mission_ids _ Hinv _ _ Hm) as [Hid Hlim]. rewrite <- Hid in Hm, Hlim.
  erewrite bind_run by reflexivity.
  destruct (setdefault_inv c (ms_id m) Hinv) as [Hinv1 Htm].
  erewrite bind_run by reflexivity. erewrite bind_run by reflexivity.
  set (c1 := c <| mc_tasks := dict_setdefault (mc_tasks c) (ms_id m) [] |>) in *.
  change (dict_get (mc_missions c1) (ms_id m) = Some m) in Hm. rewrite Htm. clear Htm.
  pose proof (task_map_ok c (ms_id m) Hinv) as Htm.
  erewrite bind_run by reflexivity. set (result := validate_proposal _ _ _ _ _).
  match goal with |- controller_inv (_ ?x).2 => set (c2 := x) end.
  assert (controller_inv c2) as Hinv2 by (by eapply same_core_inv; [|exact Hinv1]).
  assert (dict_get (mc_missions c2) (ms_id m) = Some m) as Hm2 by exact Hm.
  destruct (vr_accepted result) eqn:Hacc; simpl; [|by case_match].
  destruct (is_spawn (gp_operation proposal)) eqn:Hsp.
  - destruct (spawn_accepted_graph proposal (task_map c (ms_id m)) (ms_revision m)
      (to_set (ms_data_scope_ids m)) (ms_max_graph_nodes m) mark_ready) as (_ & Hac & Hlen); [done..|].
    erewrite bind_run by reflexivity. cbn [bump_revision].
    apply (set_mission_inv _ (ms_id m)); [|done|exact Hlim].
    apply set_map_inv; [exact Hinv2| |right; by exists (ms_max_graph_nodes m)|].
    + destruct Htm as [Hnd Hids _]. split; [by apply add_tasks_nodup| |done].
      intros k t [(s & _ & <- & ->)|Hk]%add_tasks_lookup; [done|auto].
    + intros Hf k t [(s & _ & <- & ->)|Hk]%add_tasks_lookup Hst; [done|].
      unfold task_map in Hk. destruct (dict_get (mc_tasks c) (ms_id m)) as [tm|] eqn:Hg; [|done].
      by eapply (ci_accepted _ Hinv).
  - case_bool_decide; by apply (set_mission_inv c2 (ms_id m)).
Qed.

(** A repeated id replaces the stored mission and keeps its tasks. *)
Lemma submit_inv c mission :
  lim (ms_id mission) (ms_max_graph_nodes mission) → controller_inv c →
  controller_inv (submit_mission mission c).2.
Proof.
  intros Hlim Hinv.
  apply (set_mission_inv c (ms_id mission) (mission <| ms_status := MissionStatus.PLANNING |>))
    in Hinv as [Hinv' _]%(setdefault_inv _ (ms_id mission)); [exact Hinv'|done..].
Qed.

Lemma passed_inv mid c c' : passed mid c c' → controller_inv c → controller_inv c'.
Proof.
  intros [[ts ->] Hother Hsome Hp] Hinv. simpl in *. pose proof Hinv as [Hm Hmaps Hacc].
  assert (∀ tm', dict_get ts mid = Some tm' → ∃ tm, dict_get (mc_tasks c) mid = Some tm
            ∧ promoted tm tm') as Hmid.
  { intros tm' Htm'. unfold task_map in Hp. simpl in Hp. rewrite Htm' in Hp.
    destruct Hsome as [Hsome _]. rewrite Htm' in Hsome. destruct Hsome as [tm Htm]; [by eexists|].
    exists tm. by rewrite Htm in Hp. }
  split; simpl; [done|..].
  - intros mid' tm' Htm'. destruct (decide (mid' = mid)) as [->|Hne].
    + destruct (Hmid tm' Htm') as (tm & Htm & Hpr). destruct (Hmaps _ _ Htm) as (Hok & Hb).
      split; [by eapply promoted_ok|].
      pose proof (promoted_length _ _ Hpr) as Hlen. rewrite Hlen.
      destruct Hb as [->|Hb]; [|by right]. left. by destruct tm'.
    + rewrite Hother in Htm' by done. by apply Hmaps.
  - intros Hf mid' tm' k t Htm' Hk Hst. destruct (decide (mid' = mid)) as [->|Hne].
    + destruct (Hmid tm' Htm') as (tm & Htm & Hpr). eapply (Hacc Hf mid tm k t); [done| |done].
      by eapply promoted_accepted.
    + rewrite Hother in Htm' by done. by eapply Hacc.
Qed.

(** The scheduler's part of a dispatch changes the scheduler only. *)
Lemma choose_ready_work_run ph mid c sel c' :
  controller_inv c → choose_ready_work ph mid c = (Ok sel, c') →
  ∃ m ready c1 expl sch', dict_get (mc_missions c) mid = Some m ∧ passed mid c c1
    ∧ (∀ t, t ∈ ready → dispatchable c1 mid t)
    ∧ choose_ready ph m ready (mc_inference_slots c) (mc_worker_slots c) true None
        (mc_scheduler c1) = (Ok (sel, expl), sch')
    ∧ same_core c1 c'.
Proof.
  intros Hinv. unfold choose_ready_work. erewrite bind_run by reflexivity.
  destruct (dict_get (mc_missions c) mid) as [m|] eqn:Hm; [|done].
  erewrite bind_run by reflexivity.
  destruct (snapshot_ok _ (task_map_ok c mid Hinv)) as [Hnd Hsnap].
  destruct (resolve_loop_spec mid (dict_values (task_map c mid)) [] c Hnd Hsnap) as
    (ready & c1 & Hrun & Hpass & Hready); [by intros ? ?%elem_of_nil|].
  erewrite bind_run by exact Hrun. unfold on_scheduler, zoom, mbind at 1, M_bind.
  destruct (choose_ready _ _ _ _ _ _ _ _) as [[[sel' expl]|e] sch'] eqn:Hc; [|done].
  intros H. run_inv. exists m, ready, c1, expl, sch'. split_and!; done.
Qed.

Lemma choose_ready_work_inv ph mid c :
  controller_inv c → controller_inv (choose_ready_work ph mid c).2.
Proof.
  intros Hinv. unfold choose_ready_work. erewrite bind_run by reflexivity.
  destruct (dict_get (mc_missions c) mid) as [m|] eqn:Hm; [|done].
  erewrite bind_run by reflexivity.
  destruct (snapshot_ok _ (task_map_ok c mid Hinv)) as [Hnd Hsnap].
  destruct (resolve_loop_spec mid (dict_values (task_map c mid)) [] c Hnd Hsnap) as
    (ready & c1 & Hrun & Hpass & _); [by intros ? ?%elem_of_nil|].
  erewrite bind_run by exact Hrun. apply (passed_inv _ _ _ Hpass) in Hinv.
  unfold on_scheduler, zoom, mbind at 1, M_bind.
  destruct (choose_ready _ _ _ _ _ _ _ _) as [[[sel' expl]|e] sch'];
    (eapply same_core_inv; [|exact Hinv]); done.
Qed.

Lemma accept_in_restatus task_id tm : restatus tm (accept_in task_id tm).
Proof.
  unfold accept_in. destruct (dict_get tm task_id) as [t|] eqn:Hg; [|done]. split.
  - rewrite dict_keys_set. unfold dict_mem. by rewrite Hg.
  - intros k. rewrite dict_get_set. case_decide; [|done]. subst. by rewrite Hg.
Qed.

Lemma record_verification_inv c aid rid :
  controller_inv c → controller_inv (record_verification aid rid c).2.
Proof.
  intros Hinv. unfold record_verification. erewrite bind_run by reflexivity.
  erewrite bind_run by reflexivity. simpl.
  destruct (dict_get (mc_attempts c) aid) as [a|] eqn:Ha;
    [|by eapply same_core_inv; [|exact Hinv]]. simpl.
  destruct Hinv as [Hm Hmaps Hacc].
  assert (∀ k, verified c k ∨ k = ta_task_id a → ∀ c', mc_attempts c' = dict_set (mc_attempts c) aid
    (a <| ta_verification_receipt_id := Some rid |>) → verified c' k) as Hver.
  { intros k Hk c' Hc'. unfold verified. rewrite Hc'. destruct Hk as [(aid' & a' & r & H1 & H2 & H3)| ->].
    - destruct (decide (aid = aid')) as [<-|Hne].
      + exists aid. eexists _, rid. rewrite dict_get_set_eq. split; [done|]. split; [|done].
        simpl. congruence.
      + exists aid', a', r. by rewrite dict_get_set_ne.
    - exists aid. eexists _, rid. by rewrite dict_get_set_eq. }
  split; simpl; [done|..].
  - intros mid tm'. rewrite dict_get_fmap. intros (tm & Htm & ->)%fmap_Some.
    destruct (Hmaps mid tm Htm) as (Hok & Hb).
    pose proof (accept_in_restatus (ta_task_id a) tm) as Hre.
    split; [by eapply restatus_ok|].
    destruct Hb as [->|Hb]; [by left|right]. destruct Hre as [Hk _]. unfold dict_keys in Hk.
    by rewrite <- (length_fmap fst), Hk, length_fmap.
  - intros Hf mid tm' k t. rewrite dict_get_fmap. intros (tm & Htm & ->)%fmap_Some Hk Hst.
    eapply Hver; [|done]. unfold accept_in in Hk. destruct (dict_get tm (ta_task_id a)) eqn:Hg.
    + rewrite dict_get_set in Hk. case_decide; [by right|]. left. eauto.
    + left. eauto.
Qed.

Lemma try_complete_inv c rid mid : controller_inv c → controller_inv (try_complete rid mid c).2.
Proof.
  intros Hinv. unfold try_complete. erewrite bind_run by reflexivity.
  destruct (dict_get (mc_missions c) mid) as [m|] eqn:Hm; [|done].
  erewrite bind_run by reflexivity. cbv zeta.
  destruct (dict_values (task_map c mid)) eqn:Hv; [done|]. rewrite <- Hv.
  destruct (completion_loop _ _ _); [done|].
  by apply (set_mission_inv c mid); [done|apply (ci_mission_ids _ Hinv _ _ Hm)..].
Qed.

Lemma register_attempt_inv c a :
  (fresh → dict_get (mc_attempts c) (ta_attempt_id a) = None) → controller_inv c →
  controller_inv (register_attempt a c).
Proof.
  intros Hnew [Hm Hmaps Hacc]. split; simpl; [done|done|].
  intros Hf mid tm k t Htm Hk Hst.
  destruct (Hacc Hf mid tm k t Htm Hk Hst) as (aid & a' & r & H1 & H).
  exists aid, a', r. split; [|done]. simpl. rewrite dict_get_set_ne; [done|].
  specialize (Hnew Hf). congruence.
Qed.
End invariant.

Lemma controller_inv_mono fresh (lim lim' : string → Z → Prop) c :
  (∀ mid n, lim mid n → lim' mid n) → controller_inv fresh lim c → controller_inv fresh lim' c.
Proof.
  intros Hl [Hm Hmaps Hacc]. split; [..|done].
  - intros mid m Hg. destruct (Hm mid m Hg). auto.
  - intros mid tm Hg. destruct (Hmaps mid tm Hg) as [Hok Hb]. split; [done|]. naive_solver.
Qed.

(** ** Reachable controllers

    The operations happen in any order and with any arguments. *)
Inductive cop (ph : string → Z → string → string → string) : Controller → Controller → Prop :=
  | cop_propose proposal c : cop ph c (propose_graph_change proposal c).2
  | cop_commit pid c : cop ph c (commit_validated_revision pid c).2
  | cop_choose mid c : cop ph c (choose_ready_work ph mid c).2
  | cop_verify aid rid c : cop ph c (record_verification aid rid c).2
  | cop_complete rid mid c : cop ph c (try_complete rid mid c).2
  | cop_capacity inf wrk c : cop ph c (expand_capacity inf wrk c)
  | cop_overload c : cop ph c (note_inference_exhaustion c).

(** Steps that register each attempt under a fresh id; a mission id may be submitted
    again, which replaces the mission and keeps its tasks. *)
Inductive cstep (ph : string → Z → string → string → string) : Controller → Controller → Prop :=
  | cstep_submit mission c : cstep ph c (submit_mission mission c).2
  | cstep_attempt a c :
      dict_get (mc_attempts c) (ta_attempt_id a) = None → cstep ph c (register_attempt a c)
  | cstep_op c c' : cop ph c c' → cstep ph c c'.

Definition new_controller (s : Scheduler) : Controller := mkController s [] [] [] [] [] [] 4 4.

(** Runs with the missions submitted so far, the last one first; here attempts, too, may
    be registered again. *)
Inductive crun (ph : string → Z → string → string → string) (s : Scheduler)
    : list Mission → Controller → Prop :=
  | crun_new : crun ph s [] (new_controller s)
  | crun_submit subs mission c :
      crun ph s subs c → crun ph s (mission :: subs) (submit_mission mission c).2
  | crun_attempt subs a c : crun ph s subs c → crun ph s subs (register_attempt a c)
  | crun_op subs c c' : crun ph s subs c → cop ph c c' → crun ph s subs c'.

Definition limit_of (subs : list Mission) (mid : string) (n : Z) : Prop :=
  ∃ m, m ∈ subs ∧ ms_id m = mid ∧ ms_max_graph_nodes m = n.

Lemma cop_inv fresh lim ph c c' :
  controller_inv fresh lim c → cop ph c c' → controller_inv fresh lim c'.
Proof.
  intros Hinv Hs. destruct Hs.
  - by eapply same_core_inv; [|exact Hinv].
  - by apply commit_inv.
  - by apply choose_ready_work_inv.
  - by apply record_verification_inv.
  - by apply try_complete_inv.
  - by eapply same_core_inv; [|exact Hinv].
  - by eapply same_core_inv; [|exact Hinv].
Qed.

Abbreviation strict_inv := (controller_inv True (λ _ _, True)).

Lemma controller_reachable ph s c : rtc (cstep ph) (new_controller s) c → strict_inv c.
Proof.
  intros H. eapply (rtc_invariant (cstep ph) strict_inv); [|exact H|by split].
  intros a b Hinv Hs. destruct Hs as [mission c0|a0 c0 Hnew|c0 c1 Hop].
  - apply submit_inv; [exact I|done].
  - by apply register_attempt_inv.
  - by eapply cop_inv.
Qed.

Lemma crun_inv ph s subs c : crun ph s subs c → controller_inv False (limit_of subs) c.
Proof.
  induction 1 as [|subs mission c Hr IH|subs a c Hr IH|subs c c' Hr IH Hop].
  - by split.
  - apply submit_inv; [exists mission; set_solver|].
    eapply controller_inv_mono; [|exact IH]. intros mid n (m & Hm & H). exists m. set_solver.
  - by apply register_attempt_inv.
  - by eapply cop_inv.
Qed.

(** ** Properties *)

(** C17: task graphs stay acyclic and bounded.  Whatever missions are submitted, under new
    or repeated ids, and whatever proposals are made and committed, each mission's task
    graph has no dependency cycle, and at most as many tasks as the largest
    [max_graph_nodes] submitted under its id; so at most the stored mission's own limit,
    unless its id was submitted before with a larger one. *)
Theorem mission_graphs_stay_acyclic ph s subs c mid m :
  crun ph s subs c → dict_get (mc_missions c) mid = Some m →
  (¬ ∃ x, tc (λ a b, b ∈ deps_of (task_graph (task_map c mid)) a) x x)
  ∧ (∃ m', m' ∈ subs ∧ ms_id m' = mid
      ∧ Z.of_nat (length (task_map c mid)) <= Z.max 0 (ms_max_graph_nodes m'))
  ∧ ((∀ m', m' ∈ subs → ms_id m' = mid → ms_max_graph_nodes m' <= ms_max_graph_nodes m) →
     Z.of_nat (length (task_map c mid)) <= Z.max 0 (ms_max_graph_nodes m)).
Proof.
  intros Hr Hm. apply crun_inv in Hr. split; [apply (task_map_ok _ _ c mid Hr)|].
  assert (∃ m', m' ∈ subs ∧ ms_id m' = mid
      ∧ Z.of_nat (length (task_map c mid)) <= Z.max 0 (ms_max_graph_nodes m')) as Hb.
  { destruct (ci_mission_ids _ _ _ Hr mid m Hm) as [_ (m0 & Hin & Hid & _)].
    unfold task_map. destruct (dict_get (mc_tasks c) mid) as [tm|] eqn:Hg; simpl;
      [|exists m0; split_and!; [done|done|lia]].
    destruct (ci_maps _ _ _ Hr mid tm Hg) as (_ & [->|(n & (m' & Hin' & Hid' & <-) & Hb)]);
      [exists m0|exists m']; simpl; split_and!; done || lia. }
  split; [exact Hb|]. intros Hle. destruct Hb as (m' & Hin & Hid & Hb).
  specialize (Hle m' Hin Hid). lia.
Qed.

(** C40: acceptance needs verification.  In every reachable controller a task is accepted
    only when some attempt of that task carries a verification receipt. *)
Theorem acceptance_needs_verification ph s c mid k t :
  rtc (cstep ph) (new_controller s) c → dict_get (task_map c mid) k = Some t →
  ts_status t = TaskStatus.ACCEPTED →
  ∃ aid a r, dict_get (mc_attempts c) aid = Some a ∧ ta_task_id a = k
    ∧ ta_verification_receipt_id a = Some r.
Proof.
  intros Hr Hk Hst. apply controller_reachable in Hr. unfold task_map in Hk.
  destruct (dict_get (mc_tasks c) mid) as [tm|] eqn:Hg; [|done].
  by apply (ci_accepted _ _ _ Hr I mid tm k t).
Qed.

(** dispatch respects dependencies.  The tasks a reachable controller dispatches are
    ready tasks of the mission whose dependencies all exist in its task map and are
    accepted or being verified. *)
Theorem dispatch_respects_dependencies ph s c mid sel c' t :
  0 <= backpressure_min_slots (sch_config (mc_scheduler c)) →
  rtc (cstep ph) (new_controller s) c → choose_ready_work ph mid c = (Ok sel, c') → t ∈ sel →
  ts_status t = TaskStatus.READY ∧ dict_get (task_map c' mid) (ts_id t) = Some t
  ∧ ∀ dep, dep ∈ ts_dependency_ids t → ∃ parent, dict_get (task_map c' mid) dep = Some parent
      ∧ ts_status parent ∈ [TaskStatus.ACCEPTED; TaskStatus.VERIFYING].
Proof.
  intros Hb Hr Hrun Ht. apply controller_reachable in Hr.
  eapply choose_ready_work_run in Hrun as (m & ready & c1 & expl & sch' & _ & Hpass & Hready & Hch & Hcore);
    [|done].
  destruct (pa_frame _ _ _ Hpass) as [ts Hc1].
  assert (t ∈ ready) as Hin.
  { apply choose_ready_run in Hch as [_ [[-> _]|(_ & aging & ->)]]; [by apply elem_of_nil in Ht|].
    destruct (select_spec (sch_profiles (mc_scheduler c1)) (usable_of (sch_config (mc_scheduler c1))
      (0 <? sch_cooldown_remaining (tick (mc_scheduler c1))) (mc_inference_slots c) (mc_worker_slots c))
      [] (sort_by (key_leb aging) (ready_tasks ready))) as (picked & rest & Heq & Hsp & _).
    rewrite Heq in Ht. apply list_elem_of_In, List.filter_In in Ht as [Ht _].
    assert (t ∈ ready_tasks ready) as Hin'.
    { rewrite <- (elem_of_sort_by (key_leb aging)), Hsp. apply elem_of_app. left.
      by apply list_elem_of_In. }
    apply list_elem_of_In, List.filter_In in Hin' as [Hin' _]. by apply list_elem_of_In. }
  destruct (Hready t Hin) as (Hst & Hg & Hd). destruct Hcore as (_ & Htasks & _).
  assert (task_map c' mid = task_map c1 mid) as -> by (unfold task_map; by rewrite Htasks).
  split_and!; [done|done|]. intros dep Hdep. unfold deps_ok in Hd.
  rewrite forallb_forall in Hd. specialize (Hd dep). rewrite <- list_elem_of_In in Hd.
  specialize (Hd Hdep). destruct (dict_get (task_map c1 mid) dep) as [p|]; [|done].
  exists p. split; [done|]. by apply bool_decide_eq_true in Hd.
Qed.

Lemma accepted_revision proposal tasks rev scopes mx :
  vr_accepted (validate_proposal proposal tasks rev scopes mx) = true →
  gp_based_on_revision proposal = rev.
Proof. unfold validate_proposal. case_match eqn:Hrev; [done|]. bool_to_prop. done. Qed.

Lemma stale_reason proposal tasks rev scopes mx :
  gp_based_on_revision proposal ≠ rev →
  validate_proposal proposal tasks rev scopes mx = reject "stale_revision".
Proof. intros H. unfold validate_proposal. by rewrite (proj2 (Z.eqb_neq _ _) H). Qed.

Lemma commit_stale c pid proposal m :
  strict_inv c → dict_get (mc_proposals c) pid = Some proposal →
  dict_get (mc_missions c) (gp_mission_id proposal) = Some m →
  gp_based_on_revision proposal ≠ ms_revision m →
  ∃ c', commit_validated_revision pid c = (Err (ValueError "stale_revision"), c')
    ∧ mc_missions c' = mc_missions c
    ∧ ∀ mid, task_map c' mid = task_map c mid.
Proof.
  intros Hinv Hp Hm Hrev. unfold commit_validated_revision. erewrite bind_run by reflexivity.
  rewrite Hp. erewrite bind_run by reflexivity. rewrite Hm. do 4 erewrite bind_run by reflexivity.
  rewrite stale_reason by done. eexists. split; [reflexivity|]. split; [done|].
  intros mid. unfold task_map, dict_setdefault. simpl.
  destruct (dict_get (mc_tasks c) (ms_id m)) eqn:Hg; [done|]. rewrite dict_get_set.
  case_decide; subst; by rewrite ?Hg.
Qed.

Lemma commit_advances c pid proposal m r c' :
  dict_get (mc_proposals c) pid = Some proposal →
  dict_get (mc_missions c) (gp_mission_id proposal) = Some m →
  commit_validated_revision pid c = (Ok r, c') → r ≠ ms_revision m →
  gp_based_on_revision proposal = ms_revision m ∧ r = ms_revision m + 1
  ∧ mc_proposals c' = mc_proposals c
  ∧ ∃ m', dict_get (mc_missions c') (ms_id m) = Some m' ∧ ms_revision m' = ms_revision m + 1.
Proof.
  intros Hp Hm Hrun Hr. unfold commit_validated_revision in Hrun. run_inv.
  match goal with H : context [negb (vr_accepted ?v)] |- _ =>
    destruct (vr_accepted v) eqn:Hacc; simpl in H; [|case_match; run_inv; done] end.
  apply accepted_revision in Hacc. split; [done|].
  repeat case_match; unfold bump_revision in *; run_inv; try done;
    (split_and!; [done..|]; eexists; split; [simpl; apply dict_get_set_eq|done]).
Qed.

(** optimistic concurrency.  When a proposal is committed and advances its mission's
    revision, every other proposal based on the same revision is refused afterwards with
    [ValueError("stale_revision")], leaving missions and task maps as they are. *)
Theorem one_commit_per_revision ph s c p1 p2 P1 P2 m r c1 :
  rtc (cstep ph) (new_controller s) c →
  dict_get (mc_proposals c) p1 = Some P1 → dict_get (mc_proposals c) p2 = Some P2 →
  gp_mission_id P2 = gp_mission_id P1 → dict_get (mc_missions c) (gp_mission_id P1) = Some m →
  gp_based_on_revision P2 = gp_based_on_revision P1 →
  commit_validated_revision p1 c = (Ok r, c1) → r ≠ ms_revision m →
  r = ms_revision m + 1 ∧
  ∃ c2, commit_validated_revision p2 c1 = (Err (ValueError "stale_revision"), c2)
    ∧ mc_missions c2 = mc_missions c1 ∧ ∀ mid, task_map c2 mid = task_map c1 mid.
Proof.
  intros Hreach HP1 HP2 Hmid Hm Hrev Hrun Hne. apply controller_reachable in Hreach.
  pose proof (commit_inv _ _ c p1 Hreach) as Hinv1. rewrite Hrun in Hinv1.
  destruct (commit_advances c p1 P1 m r c1) as (Hb & -> & Hprops & m' & Hm' & Hr'); [done..|].
  split; [done|]. apply (commit_stale c1 p2 P2 m'); [done|congruence| |lia].
  rewrite Hmid. destruct (ci_mission_ids _ _ _ Hreach _ _ Hm) as [<- _]. done.
Qed.

(** The condition under which a mission completes. *)
Definition task_done (c : Controller) (t : TaskSpec) : Prop :=
  ts_status t ∈ [TaskStatus.CANCELLED; TaskStatus.SUPERSEDED]
  ∨ (ts_status t = TaskStatus.ACCEPTED ∧ ∃ a, a ∈ dict_values (mc_attempts c)
       ∧ ta_task_id a = ts_id t ∧ truthy (ta_verification_receipt_id a) = true).

Lemma completion_loop_None c mission tasks :
  completion_loop (dict_values (mc_attempts c)) mission tasks = None
  ↔ ∀ t, t ∈ tasks → task_done c t.
Proof.
  induction tasks as [|t tasks IH]; simpl.
  { split; [by intros _ ? ?%elem_of_nil|done]. }
  set (v := existsb _ _).
  assert (v = true ↔ ∃ a, a ∈ dict_values (mc_attempts c) ∧ ta_task_id a = ts_id t
            ∧ truthy (ta_verification_receipt_id a) = true) as Hv.
  { unfold v. rewrite existsb_exists. split; intros (a & Ha & H); exists a.
    - apply andb_true_iff in H as [H1%bool_decide_eq_true H2]. by rewrite list_elem_of_In.
    - rewrite <- list_elem_of_In, andb_true_iff, bool_decide_eq_true. done. }
  clearbody v. transitivity (task_done c t ∧ ∀ t', t' ∈ tasks → task_done c t').
  - rewrite <- IH. unfold task_done. rewrite <- Hv.
    destruct (ts_status t), v; simpl; set_solver.
  - split; [intros [? ?] t' [->|?]%elem_of_cons; auto|].
    intros H. split; [apply H; by left|]. intros. apply H. by right.
Qed.

(** missions complete exactly when their work is verified.  [try_complete] marks a
    mission that is not completed yet as completed precisely when it has tasks, each of
    them cancelled, superseded, or accepted with a verification receipt on one of its
    attempts; the completed mission is stored, and otherwise the controller is unchanged. *)
Theorem completion_iff_all_verified rid mid c m :
  dict_get (mc_missions c) mid = Some m → ms_status m ≠ MissionStatus.COMPLETED →
  ∃ m' c', try_complete rid mid c = (Ok m', c')
    ∧ (ms_status m' = MissionStatus.COMPLETED
       ↔ dict_values (task_map c mid) ≠ []
         ∧ ∀ t, t ∈ dict_values (task_map c mid) → task_done c t)
    ∧ (ms_status m' = MissionStatus.COMPLETED → dict_get (mc_missions c') mid = Some m')
    ∧ (ms_status m' ≠ MissionStatus.COMPLETED → c' = c).
Proof.
  intros Hm Hst. unfold try_complete. erewrite bind_run by reflexivity. rewrite Hm.
  erewrite bind_run by reflexivity. cbv zeta.
  pose proof (completion_loop_None c m (dict_values (task_map c mid))) as Hloop.
  destruct (dict_values (task_map c mid)) as [|t0 tl] eqn:Hv.
  { exists m, c. split; [done|]. naive_solver. }
  destruct (completion_loop _ m (t0 :: tl)) as [m1|] eqn:Hc.
  - assert (ms_status m1 ≠ MissionStatus.COMPLETED) as Hne.
    { clear -Hc Hst. revert Hc; generalize (t0 :: tl) as l.
      induction l as [|t l IH]; simpl; [done|]. repeat case_match; intros; simplify_eq; auto. }
    exists m1, c. split; [done|]. naive_solver.
  - erewrite bind_run by reflexivity. eexists _, _. split; [reflexivity|].
    split_and!; [|intros _; apply dict_get_set_eq|done]. naive_solver.
Qed.

(** ** A concrete mission: witnesses *)
Definition ph0 : string → Z → string → string → string := λ _ _ _ _, "h".
Definition demo_spawn (pid : string) (rev : Z) (op : GraphOperation) (specs : list TaskSpec)
    : GraphProposal := mkGraphProposal pid "m1" rev op specs.
Definition t1 : TaskSpec := demo_task "t1" "2024-01" "coding" 5 [] TaskStatus.PROPOSED.
Definition t2 : TaskSpec := demo_task "t2" "2024-02" "coding" 5 ["t1"] TaskStatus.PROPOSED.
Definition t3 : TaskSpec := demo_task "t3" "2024-03" "coding" 5 [] TaskStatus.PROPOSED.

Definition c_submitted : Controller :=
  (submit_mission demo_mission (new_controller demo_scheduler)).2.
Definition c_proposed : Controller :=
  (propose_graph_change (demo_spawn "p2" 1 GraphOperation.SPAWN [t3])
    (propose_graph_change (demo_spawn "p1" 1 GraphOperation.SPAWN [t1; t2]) c_submitted).2).2.
Definition c_committed : Controller := (commit_validated_revision "p1" c_proposed).2.
Definition demo_attempt (aid tid : string) : TaskAttempt :=
  mkTaskAttempt aid tid "ap" None None 0 AttemptStatus.RUNNING 0 None None None None.
Definition c_attempted : Controller := register_attempt (demo_attempt "a1" "t1") c_committed.
Definition c_verified : Controller := (record_verification "a1" "r1" c_attempted).2.

Lemma c_proposed_reachable : rtc (cstep ph0) (new_controller demo_scheduler) c_proposed.
Proof.
  apply (rtc_r _ (propose_graph_change (demo_spawn "p1" 1 GraphOperation.SPAWN [t1; t2]) c_submitted).2);
    [apply (rtc_r _ c_submitted)|apply cstep_op, cop_propose].
  - apply rtc_once. by apply cstep_submit.
  - apply cstep_op, cop_propose.
Qed.

Lemma c_verified_reachable : rtc (cstep ph0) (new_controller demo_scheduler) c_verified.
Proof.
  apply (rtc_r _ c_attempted); [apply (rtc_r _ c_committed)|apply cstep_op, cop_verify].
  - apply (rtc_r _ c_proposed); [apply c_proposed_reachable|apply cstep_op, cop_commit].
  - by apply cstep_attempt; vm_compute.
Qed.

(** The same mission submitted once more, now with room for one task only. *)
Definition narrowed : Mission := demo_mission <| ms_max_graph_nodes := 1 |>.
Definition c_narrowed : Controller := (submit_mission narrowed c_verified).2.

Lemma c_verified_run : crun ph0 demo_scheduler [demo_mission] c_verified.
Proof.
  apply (crun_op _ _ _ c_attempted); [|apply cop_verify]. apply crun_attempt.
  apply (crun_op _ _ _ c_proposed); [|apply cop_commit].
  eapply crun_op; [eapply crun_op; [|apply cop_propose]|apply cop_propose].
  apply crun_submit, crun_new.
Qed.

Lemma mission_graphs_stay_acyclic_witness :
  length (task_map c_narrowed "m1") = 2%nat
  ∧ (¬ ∃ x, tc (λ a b, b ∈ deps_of (task_graph (task_map c_narrowed "m1")) a) x x)
  ∧ ∃ m', m' ∈ [narrowed; demo_mission] ∧ ms_id m' = "m1"
      ∧ Z.of_nat (length (task_map c_narrowed "m1")) <= Z.max 0 (ms_max_graph_nodes m').
Proof.
  split; [vm_compute; reflexivity|].
  destruct (dict_get (mc_missions c_narrowed) "m1") as [m|] eqn:Hm;
    [|vm_compute in Hm; discriminate].
  destruct (mission_graphs_stay_acyclic ph0 demo_scheduler [narrowed; demo_mission] c_narrowed "m1" m
    (crun_submit _ _ _ _ _ c_verified_run) Hm) as (H1 & H2 & _).
  split; [exact H1|exact H2].
Defined.

Lemma acceptance_needs_verification_witness :
  ∃ aid a r, dict_get (mc_attempts c_verified) aid = Some a ∧ ta_task_id a = "t1"
    ∧ ta_verification_receipt_id a = Some r.
Proof.
  apply (acceptance_needs_verification ph0 demo_scheduler c_verified "m1" "t1"
    (t1 <| ts_status := TaskStatus.ACCEPTED |>) c_verified_reachable); vm_compute; reflexivity.
Defined.

Lemma dispatch_respects_dependencies_witness :
  let sel := [mark_ready t2] in
  (choose_ready_work ph0 "m1" c_verified).1 = Ok sel
  ∧ ∃ parent, dict_get (task_map (choose_ready_work ph0 "m1" c_verified).2 "m1") "t1" = Some parent
      ∧ ts_status parent ∈ [TaskStatus.ACCEPTED; TaskStatus.VERIFYING].
Proof.
  intros sel.
  assert ((choose_ready_work ph0 "m1" c_verified).1 = Ok sel) as H by (vm_compute; reflexivity).
  split; [exact H|].
  destruct (dispatch_respects_dependencies ph0 demo_scheduler c_verified "m1" sel
    (choose_ready_work ph0 "m1" c_verified).2 (mark_ready t2)) as (_ & _ & Hd).
  - vm_compute. discriminate.
  - exact c_verified_reachable.
  - exact (run_eq _ _ _ H).
  - by left.
  - apply Hd. by left.
Defined.

Lemma one_commit_per_revision_witness :
  ∃ c2, commit_validated_revision "p2" c_committed = (Err (ValueError "stale_revision"), c2).
Proof.
  assert ((commit_validated_revision "p1" c_proposed).1 = Ok 2) as H by (vm_compute; reflexivity).
  destruct (one_commit_per_revision ph0 demo_scheduler c_proposed "p1" "p2"
    (demo_spawn "p1" 1 GraphOperation.SPAWN [t1; t2]) (demo_spawn "p2" 1 GraphOperation.SPAWN [t3])
    (demo_mission <| ms_status := MissionStatus.PLANNING |>) 2 c_committed c_proposed_reachable)
    as (_ & c2 & Hc2 & _).
  - vm_compute. reflexivity.
  - vm_compute. reflexivity.
  - reflexivity.
  - vm_compute. reflexivity.
  - reflexivity.
  - exact (run_eq _ _ _ H).
  - vm_compute. discriminate.
  - exists c2. exact Hc2.
Defined.

(** One accepted and verified task: the mission completes. *)
Definition c_single : Controller :=
  (record_verification "a3" "r3"
    (register_attempt (demo_attempt "a3" "t3")
      (commit_validated_revision "p2" c_proposed).2)).2.

Lemma completion_iff_all_verified_witness :
  ∃ m' c', try_complete "ar1" "m1" c_single = (Ok m', c')
    ∧ ms_status m' = MissionStatus.COMPLETED.
Proof.
  destruct (completion_iff_all_verified "ar1" "m1" c_single
    (demo_mission <| ms_status := MissionStatus.RUNNING |> <| ms_revision := 2 |>))
    as (m' & c' & Hrun & Hiff & _).
  - vm_compute. reflexivity.
  - discriminate.
  - exists m', c'. split; [exact Hrun|]. apply Hiff. split; [vm_compute; discriminate|].
    vm_compute. intros t [->|?%elem_of_nil]%elem_of_cons; [|done].
    right. split; [reflexivity|]. eexists. split; [by left|done].
Defined.

(** ** What the controller does not keep

    A cancelled mission comes back: [STOP] leaves the revision as it is, so a spawn
    proposed earlier is still current, and committing it sets the mission running. *)
Theorem stopped_mission_revives :
  let c := (propose_graph_change (demo_spawn "p3" 1 GraphOperation.STOP []) c_proposed).2 in
  let c1 := (commit_validated_revision "p3" c).2 in
  let c2 := (commit_validated_revision "p1" c1).2 in
  (ms_status <$> dict_get (mc_missions c1) "m1") = Some MissionStatus.CANCELLED
  ∧ (commit_validated_revision "p1" c1).1 = Ok 2
  ∧ (ms_status <$> dict_get (mc_missions c2) "m1") = Some MissionStatus.RUNNING.
Proof. vm_compute. done. Qed.

(** A mission submitted again under its id keeps its tasks, so that a lower limit does not
    bind them. *)
Theorem resubmission_exceeds_limit :
  (ms_max_graph_nodes <$> dict_get (mc_missions c_narrowed) "m1") = Some 1
  ∧ length (task_map c_narrowed "m1") = 2%nat.
Proof. vm_compute. done. Qed.

(** A dependency revision is validated and counted, but not applied. *)
Theorem revised_dependencies_are_dropped :
  let revise := demo_spawn "p4" 2 GraphOperation.REVISE_DEPENDENCY
                  [t2 <| ts_dependency_ids := [] |>] in
  let c := (propose_graph_change revise c_committed).2 in
  (commit_validated_revision "p4" c).1 = Ok 3
  ∧ (ts_dependency_ids <$> dict_get (task_map (commit_validated_revision "p4" c).2 "m1") "t2")
    = Some ["t1"].
Proof. vm_compute. done. Qed.

(** A spawn may reuse an existing id: the accepted task becomes ready again. *)
Theorem spawn_reopens_accepted_task :
  let again := demo_spawn "p5" 2 GraphOperation.SPAWN [t1 <| ts_objective := "redo" |>] in
  let c := (propose_graph_change again c_verified).2 in
  (ts_status <$> dict_get (task_map c "m1") "t1") = Some TaskStatus.ACCEPTED
  ∧ (ts_status <$> dict_get (task_map (commit_validated_revision "p5" c).2 "m1") "t1")
    = Some TaskStatus.READY.
Proof. vm_compute. done. Qed.

(** A failed mission is reported to the caller but never stored. *)
Theorem failed_mission_is_not_stored :
  let c := c_single <| mc_tasks := [("m1", [("t3", t3 <| ts_status := TaskStatus.FAILED |>)])] |> in
  match try_complete "ar1" "m1" c with
  | (Ok m, c') => ms_status m = MissionStatus.FAILED
      ∧ (ms_status <$> dict_get (mc_missions c') "m1") = Some MissionStatus.RUNNING
  | _ => False
  end.
Proof. vm_compute. done. Qed.
