(* ===== verification/Allocator.v ===== *)
(** * Allocator: reservation intents, fairness and scheduling receipts
    (src/swarm/controller/reservations.py, fairness.py, scheduling_receipts.py,
    resource_allocator.py)

    Capacities, units, weights and debts are Python floats ([PyFloat]).  An intent is one
    object shared by its holder and the service; the service's table is where it is
    updated.  Ids and timestamps are arguments; the digest that [to_dict] adds to a receipt
    is left out with the rendering itself. *)
From S2P Require Import Prelude Collections Contracts PyFloat.
Open Scope Z_scope.

(** ** Reservations (reservations.py) *)
Record ReservationComponent := mkComponent {
  rc_kind : string;
  rc_resource_id : string;
  rc_units : float
}.
Definition rkey : Type := string * string.
Definition key_of (c : ReservationComponent) : rkey := (rc_kind c, rc_resource_id c).
Definition key_repr (k : rkey) : string :=
  "(" +:+ str_repr k.1 +:+ ", " +:+ str_repr k.2 +:+ ")".

Record ReservationIntent := mkIntent {
  ri_intent_id : string;
  ri_project_id : string;
  ri_mission_id : string;
  ri_attempt_id : string;
  ri_site_epoch : Z;
  ri_components : list ReservationComponent;
  ri_state : string
}.
#[export] Instance eta_ReservationIntent : Eta ReservationIntent := λ r,
  mkIntent (ri_intent_id r) (ri_project_id r) (ri_mission_id r) (ri_attempt_id r)
    (ri_site_epoch r) (ri_components r) (ri_state r).

Record ReservationService := mkReservationService {
  rv_current_epoch : Z;
  rv_backpressure_floor : float;
  rv_by_attempt : gmap string ReservationIntent;
  rv_capacity : gmap rkey float;
  rv_draining : bool
}.
#[export] Instance eta_ReservationService : Eta ReservationService := λ r,
  mkReservationService (rv_current_epoch r) (rv_backpressure_floor r) (rv_by_attempt r)
    (rv_capacity r) (rv_draining r).

Definition set_capacity (kind resource_id : string) (units : float) (s : ReservationService)
    : ReservationService :=
  s <| rv_capacity := <[(kind, resource_id) := units]> (rv_capacity s) |>.
Definition rv_begin_drain (s : ReservationService) : ReservationService := s <| rv_draining := true |>.
Definition rv_end_drain (s : ReservationService) : ReservationService := s <| rv_draining := false |>.

(** The fail-closed check of one component. *)
Definition check_component (c : ReservationComponent) : M ReservationService () :=
  s ← get_state;
  available ← require (rv_capacity s !! key_of c)
                (ReservationError ("unknown_resource:" +:+ key_repr (key_of c)));
  raise_if (fltb available (rc_units c))
    (ReservationError ("insufficient_capacity:" +:+ key_repr (key_of c)));;
  raise_if (fltb (fsub available (rc_units c)) (rv_backpressure_floor s))
    (ReservationError ("backpressure:" +:+ key_repr (key_of c))).

(** [self._capacity[key] -= component.units]. *)
Definition take_component (c : ReservationComponent) : M ReservationService () :=
  s ← get_state;
  available ← require (rv_capacity s !! key_of c) (KeyError (key_repr (key_of c)));
  put_state (s <| rv_capacity := <[key_of c := fsub available (rc_units c)]> (rv_capacity s) |>).

Definition reserve_intent (intent_id project_id mission_id attempt_id : string) (site_epoch : Z)
    (components : list ReservationComponent) : M ReservationService ReservationIntent :=
  s ← get_state;
  raise_if (negb (site_epoch =? rv_current_epoch s))
    (ReservationError ("stale_epoch:" +:+ pretty site_epoch));;
  raise_if (rv_draining s) (ReservationError "drain_active");;
  raise_if (bool_decide (is_Some (rv_by_attempt s !! attempt_id)))
    (ReservationError ("duplicate_attempt_reservation:" +:+ attempt_id));;
  for_each check_component components;;
  for_each take_component components;;
  let intent := mkIntent intent_id project_id mission_id attempt_id site_epoch components "reserved" in
  modify (λ s, s <| rv_by_attempt := <[attempt_id := intent]> (rv_by_attempt s) |>);;
  mret intent.

Definition give_back (c : ReservationComponent) (s : ReservationService) : ReservationService :=
  s <| rv_capacity := <[key_of c := fadd (default f_0 (rv_capacity s !! key_of c)) (rc_units c)]>
                        (rv_capacity s) |>.

Definition release_intent (attempt_id : string) : M ReservationService ReservationIntent :=
  s ← get_state;
  intent ← require (rv_by_attempt s !! attempt_id) (ReservationError "intent_missing");
  if bool_decide (ri_state intent = "released") then mret intent
  else
    let intent := intent <| ri_state := "released" |> in
    put_state (let s := foldl (λ s c, give_back c s) s (ri_components intent) in
               s <| rv_by_attempt := <[attempt_id := intent]> (rv_by_attempt s) |>);;
    mret intent.

Definition cancel_intent (attempt_id : string) (site_epoch : Z) : M ReservationService ReservationIntent :=
  s ← get_state;
  raise_if (negb (site_epoch =? rv_current_epoch s))
    (ReservationError ("stale_epoch:" +:+ pretty site_epoch));;
  release_intent attempt_id.

(** ** Fairness (fairness.py) *)
Record ProjectFairness := mkFairness {
  pf_project_id : string;
  pf_weight : float;
  pf_fairness_debt : float;
  pf_active_missions : Z
}.
#[export] Instance eta_ProjectFairness : Eta ProjectFairness := λ r,
  mkFairness (pf_project_id r) (pf_weight r) (pf_fairness_debt r) (pf_active_missions r).

Definition FairnessStore : Type := gmap string ProjectFairness.

Definition get_fairness (project_id : string) : M FairnessStore ProjectFairness :=
  s ← get_state;
  match s !! project_id with
  | Some st => mret st
  | None =>
    let st := mkFairness project_id f_1 f_0 0 in
    put_state (<[project_id := st]> s);; mret st
  end.

Definition note_dispatch (project_id : string) : M FairnessStore ProjectFairness :=
  st ← get_fairness project_id;
  let st := st <| pf_fairness_debt := fadd (pf_fairness_debt st) (fdiv f_1 (fmax (pf_weight st) f_0_01)) |>
               <| pf_active_missions := pf_active_missions st + 1 |> in
  modify (λ s, <[project_id := st]> s);; mret st.

Definition note_complete (project_id : string) : M FairnessStore ProjectFairness :=
  st ← get_fairness project_id;
  let st := st <| pf_active_missions := Z.max 0 (pf_active_missions st - 1) |>
               <| pf_fairness_debt := fmax f_0 (fsub (pf_fairness_debt st) f_0_5) |> in
  modify (λ s, <[project_id := st]> s);; mret st.

(** [scored.sort()] on (debt per weight, project id). *)
Definition score_leb (a b : float * string) : bool :=
  if fleb a.1 b.1 && fleb b.1 a.1 then str_leb a.2 b.2 else negb (fltb b.1 a.1).

Fixpoint score_loop (project_ids : list string) : M FairnessStore (list (float * string)) :=
  match project_ids with
  | [] => mret []
  | pid :: rest =>
    st ← get_fairness pid;
    scored ← score_loop rest;
    mret ((fdiv (pf_fairness_debt st) (fmax (pf_weight st) f_0_01), pid) :: scored)
  end.

Definition rank_projects (project_ids : list string) : M FairnessStore (list string) :=
  scored ← score_loop project_ids;
  mret (snd <$> sort_by score_leb scored).

(** ** Receipts and the allocator (scheduling_receipts.py, resource_allocator.py) *)
Record SchedulerReceipt := mkSchedulerReceipt {
  sr_receipt_id : string;
  sr_site_epoch : Z;
  sr_project_id : string;
  sr_mission_id : string;
  sr_task_id : option string;
  sr_decision : string;
  sr_reason : string;
  sr_fairness_debt : float;
  sr_reservation_intent_id : option string
}.

Definition record_receipt (r : SchedulerReceipt) : M (list SchedulerReceipt) SchedulerReceipt :=
  modify (λ items, items ++ [r]);; mret r.

Record AllocationRequest := mkAllocationRequest {
  al_project_id : string;
  al_mission_id : string;
  al_attempt_id : string;
  al_worker_class : string;
  al_provider_route : string;
  al_tool_units : float
}.

Record Allocator := mkAllocator {
  av_fairness : FairnessStore;
  av_reservations : ReservationService;
  av_receipts : list SchedulerReceipt;
  av_site_epoch : Z
}.
#[export] Instance eta_Allocator : Eta Allocator := λ r,
  mkAllocator (av_fairness r) (av_reservations r) (av_receipts r) (av_site_epoch r).

Definition components_of (req : AllocationRequest) : list ReservationComponent :=
  [mkComponent "worker" (al_worker_class req) f_1; mkComponent "provider" (al_provider_route req) f_1]
  ++ (if fleb (al_tool_units req) f_0 && fleb f_0 (al_tool_units req) then []
      else [mkComponent "tool" "gateway" (al_tool_units req)]).

Definition allocate (intent_id receipt_id : string) (req : AllocationRequest)
    : M Allocator (ReservationIntent * SchedulerReceipt) :=
  _ ← zoom av_fairness (λ f a, a <| av_fairness := f |>) (rank_projects [al_project_id req]);
  epoch ← gets av_site_epoch;
  intent ← zoom av_reservations (λ r a, a <| av_reservations := r |>)
    (reserve_intent intent_id (al_project_id req) (al_mission_id req) (al_attempt_id req) epoch
       (components_of req));
  st ← zoom av_fairness (λ f a, a <| av_fairness := f |>) (note_dispatch (al_project_id req));
  receipt ← zoom av_receipts (λ r a, a <| av_receipts := r |>)
    (record_receipt (mkSchedulerReceipt receipt_id epoch (al_project_id req) (al_mission_id req) None
       "dispatch" "allocator_v30" (pf_fairness_debt st) (Some (ri_intent_id intent))));
  mret (intent, receipt).

(** ** Properties of reservations *)
Lemma check_component_run c s :
  (check_component c s).2 = s
  ∧ (is_ok (check_component c s).1 = true →
     ∃ a, rv_capacity s !! key_of c = Some a ∧ fltb a (rc_units c) = false
          ∧ fltb (fsub a (rc_units c)) (rv_backpressure_floor s) = false).
Proof.
  unfold check_component. erewrite bind_run by reflexivity.
  destruct (rv_capacity s !! key_of c) as [a|]; [|done]. erewrite bind_run by reflexivity.
  unfold raise_if. destruct (fltb a (rc_units c)) eqn:H1; [done|].
  erewrite bind_run by reflexivity.
  destruct (fltb (fsub a (rc_units c)) (rv_backpressure_floor s)) eqn:H2; [done|].
  split; [done|]. intros _. eauto.
Qed.

Lemma check_components_run l s :
  (for_each check_component l s).2 = s
  ∧ (is_ok (for_each check_component l s).1 = true →
     ∀ c, c ∈ l → ∃ a, rv_capacity s !! key_of c = Some a ∧ fltb a (rc_units c) = false
          ∧ fltb (fsub a (rc_units c)) (rv_backpressure_floor s) = false).
Proof.
  induction l as [|c l [IH1 IH2]]; simpl; [split; [done|by intros _ ? ?%elem_of_nil]|].
  destruct (check_component_run c s) as [Hs Hok]. unfold mbind, M_bind.
  destruct (check_component c s) as [[[]|e] s1]; simpl in *; subst s1; [|done].
  split; [done|]. intros H d [->|Hd]%elem_of_cons; auto.
Qed.

(** The capacities after [l] was taken one by one. *)
Definition taken (s : ReservationService) (c : ReservationComponent) : ReservationService :=
  s <| rv_capacity := alter (λ a, fsub a (rc_units c)) (key_of c) (rv_capacity s) |>.

Lemma alter_insert_known (m : gmap rkey float) f k a :
  m !! k = Some a → alter f k m = <[k := f a]> m.
Proof.
  intros Ha. apply map_eq. intros k'. destruct (decide (k' = k)) as [->|Hne].
  - by rewrite lookup_insert_eq, lookup_alter_eq, Ha.
  - by rewrite lookup_insert_ne, lookup_alter_ne.
Qed.

Lemma take_loop_run l s :
  (∀ c, c ∈ l → is_Some (rv_capacity s !! key_of c)) →
  for_each take_component l s = (Ok (), foldl taken s l).
Proof.
  revert s; induction l as [|c l IH]; intros s H; simpl; [done|].
  destruct (H c) as [a Ha]; [by left|].
  assert (take_component c s = (Ok (), taken s c)) as Hc.
  { unfold take_component. erewrite bind_run by reflexivity. rewrite Ha.
    erewrite bind_run by reflexivity. unfold put_state, taken.
    by rewrite (alter_insert_known _ _ _ _ Ha). }
  erewrite bind_run by exact Hc. apply IH. intros d Hd. unfold taken. simpl.
  destruct (H d) as [b Hb]; [by right|].
  destruct (decide (key_of c = key_of d)) as [Heq|Hne];
    [rewrite Heq, lookup_alter_eq|rewrite lookup_alter_ne by done]; rewrite Hb; by eexists.
Qed.

Lemma taken_frame l s :
  rv_by_attempt (foldl taken s l) = rv_by_attempt s
  ∧ rv_backpressure_floor (foldl taken s l) = rv_backpressure_floor s
  ∧ rv_current_epoch (foldl taken s l) = rv_current_epoch s
  ∧ rv_draining (foldl taken s l) = rv_draining s.
Proof. revert s; induction l as [|c l IH]; intros s; simpl; [done|]. by destruct (IH (taken s c)) as (-> & -> & -> & ->). Qed.

Lemma taken_other l s k :
  k ∉ (key_of <$> l) → rv_capacity (foldl taken s l) !! k = rv_capacity s !! k.
Proof.
  revert s; induction l as [|c l IH]; intros s Hk; csimpl; [done|].
  apply not_elem_of_cons in Hk as [Hne Hk]. rewrite IH by done. simpl. by rewrite lookup_alter_ne.
Qed.

Lemma taken_lookup l s c :
  NoDup (key_of <$> l) → c ∈ l →
  rv_capacity (foldl taken s l) !! key_of c = (λ a, fsub a (rc_units c)) <$> rv_capacity s !! key_of c.
Proof.
  revert s; induction l as [|d l IH]; intros s Hnd Hc; [by apply elem_of_nil in Hc|].
  apply NoDup_cons in Hnd as [Hd Hnd]. csimpl. apply elem_of_cons in Hc as [->|Hc].
  - rewrite taken_other by done. simpl. by rewrite lookup_alter_eq.
  - rewrite IH by done. simpl. rewrite lookup_alter_ne; [done|]. intros Heq. apply Hd.
    rewrite Heq. by apply list_elem_of_fmap_2.
Qed.

Lemma reserve_intent_cases iid pid mid aid ep cs s :
  (∃ e, reserve_intent iid pid mid aid ep cs s = (Err (ReservationError e), s))
  ∨ (reserve_intent iid pid mid aid ep cs s
       = (Ok (mkIntent iid pid mid aid ep cs "reserved"),
          (foldl taken s cs) <| rv_by_attempt :=
             <[aid := mkIntent iid pid mid aid ep cs "reserved"]> (rv_by_attempt s) |>)
     ∧ ep = rv_current_epoch s ∧ rv_draining s = false ∧ rv_by_attempt s !! aid = None
     ∧ ∀ c, c ∈ cs → ∃ a, rv_capacity s !! key_of c = Some a ∧ fltb a (rc_units c) = false
          ∧ fltb (fsub a (rc_units c)) (rv_backpressure_floor s) = false).
Proof.
  unfold reserve_intent. erewrite bind_run by reflexivity. unfold raise_if.
  destruct (ep =? rv_current_epoch s) eqn:Hep; simpl; [|left; by eexists].
  erewrite bind_run by reflexivity. destruct (rv_draining s) eqn:Hd; [left; by eexists|].
  erewrite bind_run by reflexivity. case_bool_decide as Hdup; [left; by eexists|].
  erewrite bind_run by reflexivity. destruct (check_components_run cs s) as [Hs Hok].
  destruct (for_each check_component cs s) as [[[]|e] s1] eqn:Hc; simpl in Hs; subst s1.
  2: { left. erewrite bind_run_err by exact Hc.
       assert (∃ m, e = ReservationError m) as [m ->]; [|by eexists].
       clear -Hc. induction cs as [|c cs IH]; simpl in Hc; [done|].
       apply bind_Err in Hc as [Hc|([] & s1 & Hc1 & Hc2)].
       - unfold check_component in Hc. run_inv_err; eauto.
       - pose proof (proj1 (check_component_run c s)) as Hs. rewrite Hc1 in Hs. simpl in Hs. subst.
         auto. }
  right. specialize (Hok eq_refl). split; [|bool_to_prop; split_and!; auto;
    destruct (rv_by_attempt s !! aid); [exfalso; apply Hdup; by eexists|done]].
  erewrite bind_run by exact Hc. erewrite bind_run; [|apply take_loop_run].
  2: { intros c Hin. destruct (Hok c Hin) as (a & Ha & _). by eexists. }
  erewrite bind_run by reflexivity. destruct (taken_frame cs s) as [-> _]. done.
Qed.

(** reservations fail closed.  A refused reservation changes nothing.  A granted one is
    at the current epoch, outside a drain and the first of its attempt; when its components
    name distinct resources, each capacity drops by exactly the units asked for and stays
    at or above the backpressure floor, and no other capacity moves. *)
Theorem reservation_fails_closed iid pid mid aid ep cs s r s' :
  NoDup (key_of <$> cs) → reserve_intent iid pid mid aid ep cs s = (r, s') →
  match r with
  | Err _ => s' = s
  | Ok intent =>
      ep = rv_current_epoch s ∧ rv_draining s = false ∧ rv_by_attempt s !! aid = None
      ∧ rv_by_attempt s' !! aid = Some intent ∧ ri_components intent = cs
      ∧ (∀ c, c ∈ cs → ∃ a, rv_capacity s !! key_of c = Some a
           ∧ fltb a (rc_units c) = false
           ∧ rv_capacity s' !! key_of c = Some (fsub a (rc_units c))
           ∧ fltb (fsub a (rc_units c)) (rv_backpressure_floor s) = false)
      ∧ (∀ k, k ∉ (key_of <$> cs) → rv_capacity s' !! k = rv_capacity s !! k)
  end.
Proof.
  intros Hnd Hrun.
  destruct (reserve_intent_cases iid pid mid aid ep cs s) as [[e Hr]|(Hr & Hep & Hd & Hn & Hall)];
    rewrite Hr in Hrun; simplify_eq; [done|]. split_and!; [done..| | | |].
  - simpl. apply lookup_insert_eq.
  - done.
  - intros c Hc. destruct (Hall c Hc) as (a & Ha & Hlt & Hfl). exists a.
    split_and!; [done|done| |done]. simpl. by rewrite taken_lookup, Ha.
  - intros k Hk. simpl. by apply taken_other.
Qed.

(** Later operations of the service. *)
Inductive rv_op :=
  | RvCapacity (kind resource_id : string) (units : float)
  | RvDrain (on : bool)
  | RvReserve (iid pid mid aid : string) (ep : Z) (cs : list ReservationComponent)
  | RvCancel (aid : string) (ep : Z)
  | RvRelease (aid : string).

Definition rv_apply (s : ReservationService) (o : rv_op) : ReservationService :=
  match o with
  | RvCapacity k i u => set_capacity k i u s
  | RvDrain on => if on then rv_begin_drain s else rv_end_drain s
  | RvReserve iid pid mid aid ep cs => (reserve_intent iid pid mid aid ep cs s).2
  | RvCancel aid ep => (cancel_intent aid ep s).2
  | RvRelease aid => (release_intent aid s).2
  end.

Lemma give_back_attempts l s : rv_by_attempt (foldl (λ s c, give_back c s) s l) = rv_by_attempt s.
Proof. revert s; induction l as [|c l IH]; intros s; simpl; [done|]. by rewrite IH. Qed.

Lemma release_keeps_attempts aid s a :
  is_Some (rv_by_attempt s !! a) → is_Some (rv_by_attempt (release_intent aid s).2 !! a).
Proof.
  intros H. unfold release_intent. erewrite bind_run by reflexivity.
  destruct (rv_by_attempt s !! aid) as [i|] eqn:Hi; [|done]. erewrite bind_run by reflexivity.
  case_bool_decide; [done|]. erewrite bind_run by reflexivity.
  change (is_Some (<[aid := i <| ri_state := "released" |>]>
    (rv_by_attempt (foldl (λ s c, give_back c s) s (ri_components i))) !! a)).
  rewrite give_back_attempts. destruct (decide (aid = a)) as [->|Hne];
    [rewrite lookup_insert_eq; by eexists|by rewrite lookup_insert_ne].
Qed.

Lemma rv_apply_keeps s o a :
  is_Some (rv_by_attempt s !! a) → is_Some (rv_by_attempt (rv_apply s o) !! a).
Proof.
  intros H. destruct o as [k i u|on|iid pid mid aid ep cs|aid ep|aid].
  - done.
  - by destruct on.
  - cbn [rv_apply]. destruct (reserve_intent_cases iid pid mid aid ep cs s) as [[e ->]|(-> & _)];
      [done|]. simpl. destruct (decide (aid = a)) as [->|Hne];
      [rewrite lookup_insert_eq; by eexists|by rewrite lookup_insert_ne].
  - cbn [rv_apply]. unfold cancel_intent. erewrite bind_run by reflexivity. unfold raise_if.
    destruct (negb _); [done|]. erewrite bind_run by reflexivity. by apply release_keeps_attempts.
  - by apply release_keeps_attempts.
Qed.

(** an attempt reserves at most once.  After a reservation was granted to an attempt,
    every further reservation for it is refused, whatever happens in between, its own
    release included. *)
Theorem attempt_reserves_once iid pid mid aid ep cs s intent s1 ops iid' pid' mid' ep' cs' :
  reserve_intent iid pid mid aid ep cs s = (Ok intent, s1) →
  ∃ e, (reserve_intent iid' pid' mid' aid ep' cs' (foldl rv_apply s1 ops)).1
       = Err (ReservationError e).
Proof.
  intros Hrun.
  assert (is_Some (rv_by_attempt s1 !! aid)) as H1.
  { destruct (reserve_intent_cases iid pid mid aid ep cs s) as [[e Hr]|(Hr & _)];
      rewrite Hr in Hrun; simplify_eq. simpl. rewrite lookup_insert_eq. by eexists. }
  assert (is_Some (rv_by_attempt (foldl rv_apply s1 ops) !! aid)) as H2.
  { clear Hrun. revert s1 H1; induction ops as [|o ops IH]; intros s1 H1; [done|].
    apply IH. by apply rv_apply_keeps. }
  destruct (reserve_intent_cases iid' pid' mid' aid ep' cs' (foldl rv_apply s1 ops))
    as [[e ->]|(_ & _ & _ & Hn & _)]; [by eexists|]. rewrite Hn in H2. by destruct H2.
Qed.

(** ** Concrete runs *)
Definition demo_service : ReservationService :=
  set_capacity "worker" "local" (float_of_Z 3)
    (set_capacity "provider" "rt" f_2 (mkReservationService 1 f_0 ∅ ∅ false)).
Definition demo_components : list ReservationComponent :=
  [mkComponent "worker" "local" f_1; mkComponent "provider" "rt" f_1].

Lemma reservation_fails_closed_witness :
  let run := reserve_intent "i1" "p" "m" "a1" 1 demo_components demo_service in
  rv_capacity run.2 !! ("worker", "local") = Some f_2
  ∧ match run.1 with Ok intent => ri_components intent = demo_components | Err _ => False end.
Proof.
  intros run. split; [vm_compute; reflexivity|].
  assert (NoDup (key_of <$> demo_components)) as Hnd.
  { apply (bool_decide_unpack _). vm_compute. exact I. }
  pose proof (reservation_fails_closed "i1" "p" "m" "a1" 1 demo_components demo_service
    run.1 run.2 Hnd (surjective_pairing run)) as H.
  destruct run.1 as [intent|e] eqn:Hr; [|vm_compute in Hr; discriminate].
  apply H.
Defined.

Lemma attempt_reserves_once_witness :
  ∃ e, (reserve_intent "i2" "p" "m" "a1" 1 demo_components
          (foldl rv_apply (reserve_intent "i1" "p" "m" "a1" 1 demo_components demo_service).2
             [RvRelease "a1"])).1 = Err (ReservationError e).
Proof.
  apply (attempt_reserves_once "i1" "p" "m" "a1" 1 demo_components demo_service
    (mkIntent "i1" "p" "m" "a1" 1 demo_components "reserved")).
  apply run_eq. vm_compute. reflexivity.
Defined.

(** Components that name the same resource are checked one at a time against the same
    capacity: three units are granted out of two. *)
Theorem repeated_component_oversubscribes :
  let twice := [mkComponent "provider" "rt" f_2; mkComponent "provider" "rt" f_1] in
  let run := reserve_intent "i1" "p" "m" "a1" 1 twice demo_service in
  is_ok run.1 = true ∧ rv_capacity run.2 !! ("provider", "rt") = Some (float_of_Z (-1)).
Proof. vm_compute. done. Qed.
