(* ===== verification/Json.v ===== *)
(** * Json: the JSON values of JSONB columns and what Python does with them

    Free-form metadata (payloads, capabilities, checks, usage) is JSON.  [json] has the
    values the code distinguishes; numbers are integers (the modelled code never computes
    with a JSON float).  [py_str], [py_int], [py_truthy], [py_set] are Python's [str],
    [int], truth value and [set] on such values, errors included; [isoformat] is
    [datetime.isoformat] of an aware UTC instant. *)
From S2P Require Import Prelude Collections.
From Stdlib Require Import Ascii.

Inductive json : Type :=
  | JNull
  | JBool (b : bool)
  | JInt (n : Z)
  | JStr (s : string)
  | JList (l : list json)
  | JObj (d : list (string * json)).

(** Induction with the hypothesis for the nested lists. *)
Section json_ind.
Variable P : json → Prop.
Hypothesis Pnull : P JNull.
Hypothesis Pbool : ∀ b, P (JBool b).
Hypothesis Pint : ∀ n, P (JInt n).
Hypothesis Pstr : ∀ s, P (JStr s).
Hypothesis Plist : ∀ l, Forall P l → P (JList l).
Hypothesis Pobj : ∀ d : list (string * json), Forall (λ kv, P kv.2) d → P (JObj d).

Fixpoint json_ind' (j : json) : P j :=
  match j with
  | JNull => Pnull
  | JBool b => Pbool b
  | JInt n => Pint n
  | JStr s => Pstr s
  | JList l => Plist l ((fix go l := match l return Forall P l with
      | [] => List.Forall_nil _
      | x :: l' => List.Forall_cons _ _ _ (json_ind' x) (go l') end) l)
  | JObj d => Pobj d ((fix go d := match d return Forall (λ kv : string * json, P kv.2) d with
      | [] => List.Forall_nil _
      | (k, x) :: d' => List.Forall_cons _ (k, x) _ (json_ind' x) (go d') end) d)
  end.
End json_ind.

(** ** Truth, text and integers *)
Definition py_truthy (j : json) : bool :=
  match j with
  | JNull => false
  | JBool b => b
  | JInt n => negb (n =? 0)%Z
  | JStr s => negb (bool_decide (s = ""))
  | JList l => negb (bool_decide (length l = 0))
  | JObj d => negb (bool_decide (length d = 0))
  end.

Fixpoint join (sep : string) (l : list string) : string :=
  match l with
  | [] => ""
  | [x] => x
  | x :: l' => x +:+ sep +:+ join sep l'
  end.

Fixpoint py_repr (j : json) : string :=
  match j with
  | JNull => "None"
  | JBool true => "True"
  | JBool false => "False"
  | JInt n => pretty n
  | JStr s => str_repr s
  | JList l => "[" +:+ join ", " (map py_repr l) +:+ "]"
  | JObj d => "{" +:+ join ", " (map (λ kv, str_repr kv.1 +:+ ": " +:+ py_repr kv.2) d) +:+ "}"
  end.

Definition py_str (j : json) : string := match j with JStr s => s | _ => py_repr j end.

Definition is_space (c : ascii) : bool :=
  let n := nat_of_ascii c in (n =? 32)%nat || ((9 <=? n) && (n <=? 13))%nat || ((28 <=? n) && (n <=? 31))%nat
  || (n =? 133)%nat || (n =? 160)%nat.
Definition digit_of (c : ascii) : option Z :=
  let n := nat_of_ascii c in
  if ((48 <=? n) && (n <=? 57))%nat then Some (Z.of_nat n - 48)%Z else None.

(** Digits with single underscores between them; [prev] tells whether a digit precedes. *)
Fixpoint parse_digits (prev : bool) (acc : Z) (l : list ascii) : option Z :=
  match l with
  | [] => if prev then Some acc else None
  | c :: l' => match digit_of c with
               | Some d => parse_digits true (acc * 10 + d) l'
               | None => if prev && bool_decide (c = "_"%char) then parse_digits false acc l' else None
               end
  end.

Fixpoint drop_spaces (l : list ascii) : list ascii :=
  match l with
  | c :: l' => if is_space c then drop_spaces l' else l
  | [] => []
  end.

(** [s.strip()]. *)
Definition strip (s : string) : string :=
  String.string_of_list_ascii (reverse (drop_spaces (reverse (drop_spaces (String.list_ascii_of_string s))))).

(** [int(s)] of a string in base ten. *)
Definition parse_int (s : string) : option Z :=
  let l := reverse (drop_spaces (reverse (drop_spaces (String.list_ascii_of_string s)))) in
  match l with
  | "-"%char :: l' => Z.opp <$> parse_digits false 0 l'
  | "+"%char :: l' => parse_digits false 0 l'
  | _ => parse_digits false 0 l
  end.

Definition type_name (j : json) : string :=
  match j with
  | JNull => "NoneType" | JBool _ => "bool" | JInt _ => "int"
  | JStr _ => "str" | JList _ => "list" | JObj _ => "dict"
  end.

Definition py_int (j : json) : result Z :=
  match j with
  | JInt n => Ok n
  | JBool b => Ok (if b then 1 else 0)%Z
  | JStr s => match parse_int s with
              | Some n => Ok n
              | None => Err (ValueError ("invalid literal for int() with base 10: " +:+ str_repr s))
              end
  | _ => Err (TypeError ("int() argument must be a string, a bytes-like object or a real number, not '"
                         +:+ type_name j +:+ "'"))
  end.

(** ** Iteration and sets

    Elements of a set are hashable: neither lists nor dicts.  [True] equals 1 and [False]
    equals 0. *)
Definition py_iter (j : json) : result (list json) :=
  match j with
  | JList l => Ok l
  | JObj d => Ok (JStr <$> d.*1)
  | JStr s => Ok ((λ c, JStr (String c EmptyString)) <$> String.list_ascii_of_string s)
  | _ => Err (TypeError ("'" +:+ type_name j +:+ "' object is not iterable"))
  end.

Definition hashable (j : json) : bool := match j with JList _ | JObj _ => false | _ => true end.

Definition number_of (j : json) : option Z :=
  match j with JInt n => Some n | JBool b => Some (if b then 1 else 0)%Z | _ => None end.

Definition py_eqb (a b : json) : bool :=
  match a, b with
  | JNull, JNull => true
  | JStr s, JStr t => bool_decide (s = t)
  | _, _ => match number_of a, number_of b with
            | Some m, Some n => (m =? n)%Z
            | _, _ => false
            end
  end.

Definition py_set (j : json) : result (list json) :=
  match py_iter j with
  | Err e => Err e
  | Ok l => match find (λ x, negb (hashable x)) l with
            | Some x => Err (TypeError ("unhashable type: '" +:+ type_name x +:+ "'"))
            | None => Ok l
            end
  end.

(** [set(j or [])]. *)
Definition py_set_or (j : json) : result (list json) := py_set (if py_truthy j then j else JList []).

Definition py_mem (x : json) (l : list json) : bool := existsb (py_eqb x) l.
Definition py_subset (l1 l2 : list json) : bool := forallb (λ x, py_mem x l2) l1.

(** [d.get(key)] on a payload that may not be a dict ([payload if isinstance(payload, dict)
    else {}]). *)
Definition jget (j : json) (key : string) : json :=
  match j with
  | JObj d => default JNull (dict_get d key)
  | _ => JNull
  end.

Definition is_null (j : json) : bool := match j with JNull => true | _ => false end.

Definition to_lower (s : string) : string :=
  String.string_of_list_ascii ((λ c, let n := nat_of_ascii c in
    if ((65 <=? n) && (n <=? 90))%nat then ascii_of_nat (n + 32) else c)
    <$> String.list_ascii_of_string s).

(** ** Strings of pydantic models

    [str_strip_whitespace]: white space is Unicode's, here its code points below 256. *)
Definition white_space (c : ascii) : bool := let n := nat_of_ascii c in ((9 <=? n) && (n <=? 13) || (n =? 32) || (n =? 133) || (n =? 160))%nat.
Fixpoint drop_while (p : ascii → bool) (l : list ascii) : list ascii :=
  match l with c :: l' => if p c then drop_while p l' else l | [] => [] end.
Definition trim (s : string) : string :=
  String.string_of_list_ascii (reverse (drop_while white_space (reverse (drop_while white_space (String.list_ascii_of_string s))))).

(** ** Time *)
Open Scope Z_scope.

Definition pad (width : nat) (n : Z) : string :=
  let s := pretty n in
  String.string_of_list_ascii (replicate (width - String.length s) "0"%char) +:+ s.

(** The civil date of a day number (days since 1970-01-01). *)
Definition civil_of_days (day : Z) : Z * Z * Z :=
  let z := day + 719468 in
  let era := z / 146097 in
  let doe := z - era * 146097 in
  let yoe := (doe - doe / 1460 + doe / 36524 - doe / 146096) / 365 in
  let doy := doe - (365 * yoe + yoe / 4 - yoe / 100) in
  let mp := (5 * doy + 2) / 153 in
  let d := doy - (153 * mp + 2) / 5 + 1 in
  let m := if mp <? 10 then mp + 3 else mp - 9 in
  let y := yoe + era * 400 + (if m <=? 2 then 1 else 0) in
  (y, m, d).

(** [isoformat] of the aware UTC datetime at [us] microseconds. *)
Definition isoformat (us : Z) : string :=
  let secs := us / 1000000 in
  let frac := us mod 1000000 in
  let '(y, m, d) := civil_of_days (secs / 86400) in
  let sod := secs mod 86400 in
  pad 4 y +:+ "-" +:+ pad 2 m +:+ "-" +:+ pad 2 d +:+ "T" +:+ pad 2 (sod / 3600) +:+ ":"
  +:+ pad 2 (sod / 60 mod 60) +:+ ":" +:+ pad 2 (sod mod 60)
  +:+ (if frac =? 0 then "" else "." +:+ pad 6 frac) +:+ "+00:00".

Example iso_epoch : isoformat 0 = "1970-01-01T00:00:00+00:00".
Proof. vm_compute. reflexivity. Qed.
Example iso_leap : isoformat 1709210096000042 = "2024-02-29T12:34:56.000042+00:00".
Proof. vm_compute. reflexivity. Qed.
Example int_text : py_int (JStr " -1_000 ") = Ok (-1000).
Proof. vm_compute. reflexivity. Qed.
Example int_bad : py_int (JStr "1__0")
  = Err (ValueError "invalid literal for int() with base 10: '1__0'").
Proof. vm_compute. reflexivity. Qed.
Example repr_nested : py_str (JList [JStr "a"; JObj [("k", JBool true)]; JNull])
  = "['a', {'k': True}, None]".
Proof. vm_compute. reflexivity. Qed.
