(* ===== verification/JsonText.v ===== *)
(** * JsonText: JSON documents as text

    [json.dumps] and [json.loads] of the Python standard library, on the documents of [Json]:
    the files of checkpoints, missions and memories hold such text.  A character is a code
    point below 256; with [ensure_ascii], the default, everything outside the printable ASCII
    characters is escaped.  The parser reads the grammar of [json.loads] without fractions
    and exponents (documents with floating-point numbers are not modelled) and answers [None]
    where it raises.  Parsing what was printed gives the document back. *)
From S2P Require Import Prelude Collections Json.
From Stdlib Require Import Ascii.

Abbreviation chars := (list ascii).
Definition of_string : string → chars := String.list_ascii_of_string.
Definition to_string : chars → string := String.string_of_list_ascii.
Definition chr (n : nat) : ascii := ascii_of_nat n.

(** ** Printing *)
Definition hex4 (n : nat) : chars :=
  [hex_digit (n / 4096 mod 16); hex_digit (n / 256 mod 16); hex_digit (n / 16 mod 16); hex_digit (n mod 16)].
Definition escape_char (c : ascii) : chars :=
  let n := nat_of_ascii c in
  if (n =? 34)%nat then [chr 92; chr 34]
  else if (n =? 92)%nat then [chr 92; chr 92]
  else if (n =? 10)%nat then [chr 92; "n"%char]
  else if (n =? 13)%nat then [chr 92; "r"%char]
  else if (n =? 9)%nat then [chr 92; "t"%char]
  else if (n =? 12)%nat then [chr 92; "f"%char]
  else if (n =? 8)%nat then [chr 92; "b"%char]
  else if ((32 <=? n) && (n <=? 126))%nat then [c]
  else [chr 92; "u"%char] ++ hex4 n.
Fixpoint escape (s : chars) : chars := match s with [] => [] | c :: s' => escape_char c ++ escape s' end.
Definition quoted (s : string) : chars := chr 34 :: escape (of_string s) ++ [chr 34].

(** [indent], [separators] and [sort_keys] of [json.dumps]. *)
Record style := mkStyle {
  st_indent : option nat;
  st_item : chars;      (** between items *)
  st_key : chars;       (** between a key and its value *)
  st_sort : bool
}.
Definition default_style : style := mkStyle None (of_string ", ") (of_string ": ") false.
Definition sorted_style : style := mkStyle None (of_string ", ") (of_string ": ") true.
Definition compact_style : style := mkStyle None (of_string ",") (of_string ":") true.
Definition indent_style (n : nat) : style := mkStyle (Some n) (of_string ",") (of_string ": ") false.

Definition newline_at (st : style) (level : nat) : chars :=
  match st_indent st with Some n => chr 10 :: replicate (n * level) (chr 32) | None => [] end.
Definition key_leb (a b : string * json) : bool := str_leb a.1 b.1.

Fixpoint join_chars (sep : chars) (l : list chars) : chars :=
  match l with
  | [] => []
  | [x] => x
  | x :: l' => x ++ sep ++ join_chars sep l'
  end.

Definition bracketed (st : style) (level : nat) (left right : ascii) (items : list chars) : chars :=
  match items with
  | [] => [left; right]
  | _ => left :: newline_at st (S level) ++ join_chars (st_item st ++ newline_at st (S level)) items
         ++ newline_at st level ++ [right]
  end.

Fixpoint print (st : style) (level : nat) (j : json) : chars :=
  match j with
  | JNull => of_string "null"
  | JBool true => of_string "true"
  | JBool false => of_string "false"
  | JInt n => of_string (pretty n)
  | JStr s => quoted s
  | JList l => bracketed st level "["%char "]"%char (map (print st (S level)) l)
  | JObj d =>
    let pairs := map (λ kv, (kv.1, quoted kv.1 ++ st_key st ++ print st (S level) kv.2)) d in
    bracketed st level "{"%char "}"%char
      (if st_sort st then (sort_by (λ a b, str_leb a.1 b.1) pairs).*2 else pairs.*2)
  end.
Definition dumps (st : style) (j : json) : string := to_string (print st 0 j).

(** ** Parsing *)
Definition json_space (c : ascii) : bool :=
  let n := nat_of_ascii c in ((n =? 32) || (n =? 9) || (n =? 10) || (n =? 13))%nat.
Fixpoint skip (l : chars) : chars :=
  match l with c :: l' => if json_space c then skip l' else l | [] => [] end.

Definition hex_value (c : ascii) : option nat :=
  let n := nat_of_ascii c in
  if ((48 <=? n) && (n <=? 57))%nat then Some (n - 48)%nat
  else if ((97 <=? n) && (n <=? 102))%nat then Some (n - 87)%nat
  else if ((65 <=? n) && (n <=? 70))%nat then Some (n - 55)%nat
  else None.

(** The rest of a string after its opening quote: its characters and what follows it. *)
Fixpoint parse_string (l : chars) : option (chars * chars) :=
  match l with
  | [] => None
  | c :: l' =>
    if (nat_of_ascii c =? 34)%nat then Some ([], l')
    else if (nat_of_ascii c =? 92)%nat then
      match l' with
      | [] => None
      | e :: l2 =>
        let one (x : ascii) := match parse_string l2 with Some (s, r) => Some (x :: s, r) | None => None end in
        match nat_of_ascii e with
        | 34 => one (chr 34) | 92 => one (chr 92) | 47 => one (chr 47)
        | 98 => one (chr 8) | 102 => one (chr 12) | 110 => one (chr 10) | 114 => one (chr 13) | 116 => one (chr 9)
        | 117 =>
          match l2 with
          | a :: b :: c' :: d :: l3 =>
            match hex_value a, hex_value b, hex_value c', hex_value d with
            | Some a, Some b, Some c', Some d =>
              let n := (a * 4096 + b * 256 + c' * 16 + d)%nat in
              if (n <? 256)%nat then
                match parse_string l3 with Some (s, r) => Some (chr n :: s, r) | None => None end
              else None
            | _, _, _, _ => None
            end
          | _ => None
          end
        | _ => None
        end
      end
    else if (nat_of_ascii c <? 32)%nat then None
    else match parse_string l' with Some (s, r) => Some (c :: s, r) | None => None end
  end%nat.

Fixpoint parse_nat (acc : Z) (l : chars) : Z * chars :=
  match l with
  | c :: l' => match digit_of c with Some d => parse_nat (acc * 10 + d)%Z l' | None => (acc, l) end
  | [] => (acc, [])
  end.
(** Characters that would continue an integer to a floating-point number. *)
Definition float_mark (c : ascii) : bool :=
  let n := nat_of_ascii c in ((n =? 46) || (n =? 101) || (n =? 69))%nat.
Definition ends_number (l : chars) : bool := match l with c :: _ => negb (float_mark c) | [] => true end.
Definition parse_digits (l : chars) : option (Z * chars) :=
  match l with
  | c :: l' =>
    match digit_of c with
    | Some 0%Z => if ends_number l' then Some (0%Z, l') else None
    | Some _ => let '(n, r) := parse_nat 0 l in if ends_number r then Some (n, r) else None
    | None => None
    end
  | [] => None
  end.
Definition parse_number (l : chars) : option (Z * chars) :=
  match l with
  | c :: l' =>
    if (nat_of_ascii c =? 45)%nat
    then match parse_digits l' with Some (n, r) => Some ((- n)%Z, r) | None => None end
    else parse_digits l
  | [] => None
  end.

Definition literal (word : string) (l : chars) : option chars :=
  let w := of_string word in
  if bool_decide (take (length w) l = w) then Some (drop (length w) l) else None.

(** A value, the items of a list after the first bracket or comma, and the pairs of an
    object; [fuel] bounds the nesting and the number of items. *)
Fixpoint parse_value (fuel : nat) (l : chars) : option (json * chars) :=
  match fuel with
  | 0%nat => None
  | S f =>
    match l with
    | [] => None
    | c :: l' =>
      let n := nat_of_ascii c in
      if (n =? 34)%nat then
        match parse_string l' with Some (s, r) => Some (JStr (to_string s), r) | None => None end
      else if (n =? 91)%nat then
        match skip l' with
        | c' :: r => if (nat_of_ascii c' =? 93)%nat then Some (JList [], r)
                     else match parse_items f (c' :: r) with Some (xs, r') => Some (JList xs, r') | None => None end
        | [] => None
        end
      else if (n =? 123)%nat then
        match skip l' with
        | c' :: r => if (nat_of_ascii c' =? 125)%nat then Some (JObj [], r)
                     else match parse_pairs f [] (c' :: r) with Some (d, r') => Some (JObj d, r') | None => None end
        | [] => None
        end
      else match literal "null" l with
      | Some r => Some (JNull, r)
      | None => match literal "true" l with
        | Some r => Some (JBool true, r)
        | None => match literal "false" l with
          | Some r => Some (JBool false, r)
          | None => match parse_number l with Some (z, r) => Some (JInt z, r) | None => None end
          end
        end
      end
    end
  end
with parse_items (fuel : nat) (l : chars) : option (list json * chars) :=
  match fuel with
  | 0%nat => None
  | S f =>
    match parse_value f l with
    | Some (x, r) =>
      match skip r with
      | c :: r' =>
        if (nat_of_ascii c =? 93)%nat then Some ([x], r')
        else if (nat_of_ascii c =? 44)%nat then
          match parse_items f (skip r') with Some (xs, r2) => Some (x :: xs, r2) | None => None end
        else None
      | [] => None
      end
    | None => None
    end
  end
with parse_pairs (fuel : nat) (acc : dict json) (l : chars) : option (dict json * chars) :=
  match fuel with
  | 0%nat => None
  | S f =>
    match l with
    | q :: l' =>
      if (nat_of_ascii q =? 34)%nat then
        match parse_string l' with
        | Some (k, r) =>
          match skip r with
          | c :: r1 =>
            if (nat_of_ascii c =? 58)%nat then
              match parse_value f (skip r1) with
              | Some (x, r2) =>
                let acc := dict_set acc (to_string k) x in
                match skip r2 with
                | c2 :: r3 =>
                  if (nat_of_ascii c2 =? 125)%nat then Some (acc, r3)
                  else if (nat_of_ascii c2 =? 44)%nat then parse_pairs f acc (skip r3)
                  else None
                | [] => None
                end
              | None => None
              end
            else None
          | [] => None
          end
        | None => None
        end
      else None
    | [] => None
    end
  end.

Definition loads (text : string) : option json :=
  match parse_value (S (String.length text)) (skip (of_string text)) with
  | Some (j, r) => match skip r with [] => Some j | _ => None end
  | None => None
  end.

Example dumps_sample :
  dumps (indent_style 2) (JObj [("a", JList [JInt 1; JInt (-20)]); ("b", JObj [])])
  = "{" +:+ to_string [chr 10] +:+ "  " +:+ to_string (quoted "a") +:+ ": [" +:+ to_string [chr 10] +:+ "    1,"
    +:+ to_string [chr 10] +:+ "    -20" +:+ to_string [chr 10] +:+ "  ]," +:+ to_string [chr 10] +:+ "  "
    +:+ to_string (quoted "b") +:+ ": {}" +:+ to_string [chr 10] +:+ "}".
Proof. vm_compute. reflexivity. Qed.
Example loads_sample : loads (dumps (indent_style 2) (JObj [("a", JList [JInt 0; JStr "x y"]); ("b", JNull)]))
  = Some (JObj [("a", JList [JInt 0; JStr "x y"]); ("b", JNull)]).
Proof. vm_compute. reflexivity. Qed.

(** ** Parsing what was printed *)
Lemma hex_value_digit n : (n < 16)%nat → hex_value (hex_digit n) = Some n.
Proof. intros H. do 16 (destruct n as [|n]; [reflexivity|]). lia. Qed.

Lemma parse_escaped c r : parse_string (escape_char c ++ r)
  = match parse_string r with Some (s, r') => Some (c :: s, r') | None => None end.
Proof. destruct c as [[] [] [] [] [] [] [] []]; reflexivity. Qed.

Lemma parse_string_escape s r : parse_string (escape s ++ chr 34 :: r) = Some (s, r).
Proof. induction s as [|c s IH]; [done|]. cbn [escape]. by rewrite <- app_assoc, parse_escaped, IH. Qed.

(** *** Numbers *)
Lemma digit_of_pretty n : (n < 10)%N → digit_of (pretty_N_char n) = Some (Z.of_N n).
Proof.
  intros H. assert (n = 0 ∨ n = 1 ∨ n = 2 ∨ n = 3 ∨ n = 4 ∨ n = 5 ∨ n = 6 ∨ n = 7 ∨ n = 8 ∨ n = 9)%N as Hn by lia.
  destruct Hn as [->|[->|[->|[->|[->|[->|[->|[->|[->| ->]]]]]]]]]; reflexivity.
Qed.

(** The digits of a positive number: the first is not zero, and reading them computes it. *)
Lemma pretty_digits x : (0 < x)%N → ∃ ds,
  (∀ s, of_string (pretty_N_go x s) = ds ++ of_string s)
  ∧ (∃ c ds' d, ds = c :: ds' ∧ digit_of c = Some d ∧ d ≠ 0%Z)
  ∧ ∃ k, ∀ acc r, parse_nat acc (ds ++ r) = parse_nat (acc * k + Z.of_N x)%Z r.
Proof.
  induction (N.lt_wf_0 x) as [x _ IH]; intros Hx.
  set (c := pretty_N_char (x `mod` 10)). assert (x `mod` 10 < 10)%N as Hm by (by apply N.mod_lt).
  assert (digit_of c = Some (Z.of_N (x `mod` 10))) as Hc by (by apply digit_of_pretty).
  pose proof (N.div_mod' x 10) as Hdm. assert (x `div` 10 = 0 ∨ 0 < x `div` 10)%N as [Hz|Hp] by lia.
  - exists [c]. split_and!.
    + intros s. rewrite pretty_N_go_step by done. by rewrite Hz, pretty_N_go_0.
    + exists c, [], (Z.of_N (x `mod` 10)). split_and!; [done|done|lia].
    + exists 10%Z. intros acc r. cbn [app parse_nat]. rewrite Hc. f_equal. lia.
  - destruct (IH (x `div` 10)%N) as (ds & Hs & (c0 & ds' & d & -> & Hd & Hd0) & k & Hk); [by apply N.div_lt|done|].
    exists ((c0 :: ds') ++ [c]). split_and!.
    + intros s. rewrite pretty_N_go_step, Hs by done. by rewrite <- app_assoc.
    + by exists c0, (ds' ++ [c]), d.
    + exists (k * 10)%Z. intros acc r. rewrite <- app_assoc, Hk. cbn [app parse_nat]. rewrite Hc. f_equal. lia.
Qed.

(** What may follow a number without becoming part of it. *)
Definition follows (r : chars) : Prop :=
  match r with [] => True | c :: _ => digit_of c = None ∧ float_mark c = false end.
Lemma follows_nat n r : follows r → parse_nat n r = (n, r).
Proof. destruct r as [|c r]; [done|]. intros [H _]. cbn. by rewrite H. Qed.
Lemma follows_ends r : follows r → ends_number r = true.
Proof. destruct r as [|c r]; [done|]. intros [_ H]. cbn. by rewrite H. Qed.

Lemma parse_positive p r : follows r → parse_digits (of_string (pretty (N.pos p)) ++ r) = Some (Z.pos p, r)
  ∧ ∃ c l, of_string (pretty (N.pos p)) = c :: l ∧ is_Some (digit_of c).
Proof.
  intros Hr. change (pretty (N.pos p)) with (pretty_N_go (N.pos p) "").
  destruct (pretty_digits (N.pos p)) as (ds & Hs & (c & ds' & d & -> & Hd & Hd0) & k & Hk); [done|].
  rewrite Hs. cbn [of_string String.list_ascii_of_string]. rewrite app_nil_r. split; [|by eauto].
  unfold parse_digits. cbn [app]. rewrite Hd. change (c :: ds' ++ r) with ((c :: ds') ++ r).
  destruct d; [done|..]; rewrite Hk, follows_nat, follows_ends by done; f_equal; f_equal; lia.
Qed.
Lemma parse_number_pretty n r : follows r → parse_number (of_string (pretty n) ++ r) = Some (n, r).
Proof.
  intros Hr. destruct n as [|p|p].
  - cbn. by rewrite follows_ends.
  - destruct (parse_positive p r Hr) as [Hp (c & l & Hc & Hd)]. change (pretty (Z.pos p)) with (pretty (N.pos p)).
    rewrite Hc in *. unfold parse_number. cbn [app] in *. destruct (Nat.eqb_spec (nat_of_ascii c) 45) as [E|]; [|exact Hp].
    unfold digit_of in Hd. rewrite E in Hd. by destruct Hd.
  - destruct (parse_positive p r Hr) as [Hp _]. change (of_string (pretty (Z.neg p))) with ("-"%char :: of_string (pretty (N.pos p))).
    unfold parse_number. cbn [app]. cbn -[parse_digits]. by rewrite Hp.
Qed.

(** *** Documents *)
Fixpoint wf_json (j : json) : Prop :=
  match j with
  | JList l => (fix go l := match l with [] => True | x :: l' => wf_json x ∧ go l' end) l
  | JObj d => NoDup d.*1 ∧ (fix go d := match d with [] => True | kv :: d' => wf_json kv.2 ∧ go d' end) d
  | _ => True
  end.
Lemma wf_list l : wf_json (JList l) ↔ Forall wf_json l.
Proof. cbn. induction l as [|x l IH]; [by split|]. rewrite Forall_cons, <- IH. done. Qed.
Lemma wf_obj d : wf_json (JObj d) ↔ NoDup d.*1 ∧ Forall (λ kv, wf_json kv.2) d.
Proof.
  cbn. apply and_iff_compat_l. induction d as [|x l IH]; [by split|]. rewrite Forall_cons, <- IH. done.
Qed.

(** The number of values of a document, which bounds the fuel parsing takes. *)
Fixpoint jsize (j : json) : nat :=
  match j with
  | JList l => S (list_sum (map (λ x, S (jsize x)) l))
  | JObj d => S (list_sum (map (λ kv, S (jsize kv.2)) d))
  | _ => 1
  end.

Definition spaces (l : chars) : Prop := Forall (λ c, json_space c = true) l.
Record good_style (st : style) : Prop := {
  gs_item : ∃ ws, st_item st = ","%char :: ws ∧ spaces ws;
  gs_key : ∃ ws, st_key st = ":"%char :: ws ∧ spaces ws;
  gs_sort : st_sort st = false
}.
Lemma newline_spaces st level : spaces (newline_at st level).
Proof.
  unfold newline_at. destruct (st_indent st); [|constructor]. constructor; [done|].
  apply Forall_forall. by intros c [-> _]%elem_of_replicate.
Qed.
Lemma skip_spaces ws c r : spaces ws → json_space c = false → skip (ws ++ c :: r) = c :: r.
Proof. intros Hws Hc. induction Hws as [|x ws Hx _ IH]; cbn; [by rewrite Hc|]. by rewrite Hx. Qed.
Lemma spaces_app a b : spaces a → spaces b → spaces (a ++ b).
Proof. intros. by apply Forall_app. Qed.

(** Blanks and closing marks end a number. *)
Lemma follows_space ws c r : spaces ws → follows [c] → follows (ws ++ c :: r).
Proof.
  intros Hws Hc. destruct Hws as [|x ws Hx _]; [exact Hc|]. revert Hx.
  destruct x as [[] [] [] [] [] [] [] []]; try discriminate; by intros _.
Qed.

(** A printed value starts with a character that is neither a blank nor a closing bracket. *)
Definition starts (l : chars) : Prop := ∃ c l', l = c :: l' ∧ json_space c = false
  ∧ (nat_of_ascii c =? 93)%nat = false ∧ (nat_of_ascii c =? 125)%nat = false.
Lemma digit_starts c l d : digit_of c = Some d → starts (c :: l).
Proof. intros H. exists c, l. revert H. destruct c as [[] [] [] [] [] [] [] []]; try discriminate; done. Qed.
Lemma print_starts st level j : starts (print st level j).
Proof.
  destruct j as [|[]|n|s|l|d]; cbn [print].
  - by eexists _, _. - by eexists _, _. - by eexists _, _.
  - destruct n as [|p|p]; [by eexists _, _| |by eexists _, _].
    destruct (parse_positive p [] I) as [_ (c & l & Hc & d & Hd)]. change (pretty (Z.pos p)) with (pretty (N.pos p)).
    rewrite Hc. by eapply digit_starts.
  - by eexists _, _.
  - destruct (map _ l); by eexists _, _.
  - destruct (if st_sort st then _ else _); by eexists _, _.
Qed.

Lemma skip_starts ws l : spaces ws → starts l → skip (ws ++ l) = l.
Proof. intros Hws (c & l' & -> & Hc & _). by apply skip_spaces. Qed.
Lemma starts_app l r : starts l → starts (l ++ r).
Proof. intros (c & l' & -> & H). by exists c, (l' ++ r). Qed.
Lemma join_starts sep x xs : starts x → starts (join_chars sep (x :: xs)).
Proof. intros Hx. cbn. destruct xs; [done|]. by apply starts_app. Qed.

Lemma dict_set_new {V} (d : dict V) k v : (k ∉ d.*1) → dict_set d k v = d ++ [(k, v)].
Proof.
  induction d as [|[k' v'] d IH]; intros H; [done|]. cbn in *. apply not_elem_of_cons in H as [Hk H].
  rewrite decide_False by congruence. by rewrite IH.
Qed.
Lemma join_cons sep x y l : join_chars sep (x :: y :: l) = x ++ sep ++ join_chars sep (y :: l).
Proof. done. Qed.

Lemma to_string_app a b : to_string (a ++ b) = to_string a +:+ to_string b.
Proof. induction a as [|c a IH]; [done|]. cbn. by rewrite IH. Qed.
Lemma of_to_string l : of_string (to_string l) = l.
Proof. apply String.list_ascii_of_string_of_list_ascii. Qed.
Lemma skip_all ws : spaces ws → skip ws = [].
Proof. induction 1 as [|c ws Hc _ IH]; [done|]. cbn. by rewrite Hc. Qed.
Lemma follows_nil : follows [].
Proof. done. Qed.

Section roundtrip.
Variable st : style.
Hypothesis Hst : good_style st.

Definition parses (level : nat) (j : json) : Prop := ∀ fuel r,
  (jsize j <= fuel)%nat → follows r → parse_value fuel (print st level j ++ r) = Some (j, r).

(** One item, then the closing bracket or a comma. *)
Lemma item_last level x ws fuel r : parses level x → (jsize x <= fuel)%nat → spaces ws →
  parse_items (S fuel) (print st level x ++ ws ++ "]"%char :: r) = Some ([x], r).
Proof.
  intros Hx Hf Hws. cbn [parse_items]. rewrite Hx; [|done|by apply follows_space].
  by rewrite skip_spaces.
Qed.
Lemma item_more level x ws l fuel : parses level x → (jsize x <= fuel)%nat → spaces ws → starts l →
  parse_items (S fuel) (print st level x ++ ","%char :: ws ++ l)
  = match parse_items fuel l with Some (xs, r) => Some (x :: xs, r) | None => None end.
Proof.
  intros Hx Hf Hws Hl. cbn [parse_items]. rewrite Hx by done.
  change (skip (","%char :: ws ++ l)) with (","%char :: ws ++ l). cbv iota beta.
  rewrite skip_starts by done. reflexivity.
Qed.

Lemma items_parse level xs : xs ≠ [] → Forall (parses level) xs → ∀ fuel ws r,
  (list_sum (map (λ x, S (jsize x)) xs) <= fuel)%nat → spaces ws →
  parse_items fuel (join_chars (st_item st ++ newline_at st level) (map (print st level) xs) ++ ws ++ "]"%char :: r)
  = Some (xs, r).
Proof.
  destruct Hst as [(ws0 & Ei & Hws0) _ _]. intros Hne Hxs. induction Hxs as [|x xs Hx Hxs IH]; [done|]. clear Hne.
  intros [|fuel] ws r Hf Hws; cbn [map list_sum foldr] in Hf; [lia|]. destruct xs as [|y xs].
  - apply item_last; [done|lia|done].
  - specialize (IH ltac:(done) fuel ws r).
    change (map (print st level) (x :: y :: xs)) with (print st level x :: print st level y :: map (print st level) xs).
    change (map (print st level) (y :: xs)) with (print st level y :: map (print st level) xs) in IH.
    rewrite join_cons. pose proof (join_starts (st_item st ++ newline_at st level) _ (map (print st level) xs)
      (print_starts st level y)) as Hstarts.
    set (rest := join_chars _ _) in *. clearbody rest. rewrite Ei, <- !app_assoc.
    change ((","%char :: ws0) ++ newline_at st level ++ rest ++ ws ++ "]"%char :: r)
      with (","%char :: ws0 ++ newline_at st level ++ rest ++ ws ++ "]"%char :: r).
    rewrite (app_assoc ws0). rewrite item_more; [|done|unfold list_sum in *; lia| |by apply starts_app].
    + rewrite IH; [done| |done]. unfold list_sum in *. cbn [foldr map] in *. lia.
    + apply spaces_app; [done|apply newline_spaces].
Qed.

(** One pair, then the closing brace or a comma. *)
Definition pair_text (level : nat) (kv : string * json) : chars := quoted kv.1 ++ st_key st ++ print st level kv.2.
Lemma pair_starts level kv : starts (pair_text level kv).
Proof. by eexists _, _. Qed.

Lemma pair_next level kv fuel acc l : parses level kv.2 → (jsize kv.2 <= fuel)%nat → follows l →
  parse_pairs (S fuel) acc (pair_text level kv ++ l)
  = match skip l with
    | c2 :: r3 =>
      if (nat_of_ascii c2 =? 125)%nat then Some (dict_set acc kv.1 kv.2, r3)
      else if (nat_of_ascii c2 =? 44)%nat then parse_pairs fuel (dict_set acc kv.1 kv.2) (skip r3) else None
    | [] => None
    end.
Proof.
  intros Hx Hf Hl. destruct Hst as [_ (ws & Ek & Hws) _]. destruct kv as [k x]. cbn [fst snd] in *.
  unfold pair_text, quoted. cbn [fst snd]. rewrite Ek. cbn [app]. rewrite <- !app_assoc. cbn [app].
  cbn [parse_pairs]. rewrite parse_string_escape. change (nat_of_ascii (chr 34) =? 34)%nat with true. cbv iota.
  rewrite <- app_assoc.
  change (skip (":"%char :: ws ++ print st level x ++ l)) with (":"%char :: ws ++ print st level x ++ l).
  cbv iota beta. change (nat_of_ascii ":" =? 58)%nat with true. cbv iota.
  rewrite skip_starts, Hx; [|done|done|done|apply starts_app, print_starts].
  unfold to_string, of_string. by rewrite String.string_of_list_ascii_of_string.
Qed.

Lemma pairs_parse level d : d ≠ [] → Forall (λ kv, parses level kv.2) d → ∀ fuel acc ws r,
  (list_sum (map (λ kv, S (jsize kv.2)) d) <= fuel)%nat → spaces ws → NoDup (acc.*1 ++ d.*1) →
  parse_pairs fuel acc (join_chars (st_item st ++ newline_at st level) (map (pair_text level) d) ++ ws ++ "}"%char :: r)
  = Some (acc ++ d, r).
Proof.
  destruct Hst as [(ws0 & Ei & Hws0) _ _]. intros Hne Hd. induction Hd as [|kv d Hx Hd IH]; [done|]. clear Hne.
  intros [|fuel] acc ws r Hf Hws Hnd; cbn [map list_sum foldr] in Hf; [lia|].
  assert (dict_set acc kv.1 kv.2 = acc ++ [kv]) as Hset.
  { destruct kv as [k x]. apply dict_set_new. cbn in Hnd. apply NoDup_app in Hnd as (_ & Hk & _). intros Hin.
    apply (Hk k Hin). by left. }
  destruct d as [|kv' d].
  - cbn [map join_chars]. rewrite pair_next; [|done|lia|by apply follows_space]. rewrite skip_spaces by done.
    by rewrite Hset.
  - change (map (pair_text level) (kv :: kv' :: d)) with (pair_text level kv :: pair_text level kv' :: map (pair_text level) d).
    specialize (IH ltac:(done) fuel (acc ++ [kv]) ws r).
    change (map (pair_text level) (kv' :: d)) with (pair_text level kv' :: map (pair_text level) d) in IH.
    rewrite join_cons. pose proof (join_starts (st_item st ++ newline_at st level) _ (map (pair_text level) d)
      (pair_starts level kv')) as Hstarts.
    set (rest := join_chars _ _) in *. clearbody rest. rewrite Ei, <- !app_assoc.
    change ((","%char :: ws0) ++ newline_at st level ++ rest ++ ws ++ "}"%char :: r)
      with (","%char :: ws0 ++ newline_at st level ++ rest ++ ws ++ "}"%char :: r).
    rewrite (app_assoc ws0). rewrite pair_next; [|done|unfold list_sum in *; lia|done].
    match goal with |- context [skip (","%char :: ?l)] => change (skip (","%char :: l)) with (","%char :: l) end.
    cbv iota beta. change (nat_of_ascii "," =? 125)%nat with false. change (nat_of_ascii "," =? 44)%nat with true. cbv iota.
    rewrite skip_starts; [|by apply spaces_app; [|apply newline_spaces]|by apply starts_app].
    rewrite Hset, IH; [by rewrite <- app_assoc| |done|].
    + unfold list_sum in *. cbn [foldr map] in *. lia.
    + rewrite fmap_app, <- app_assoc. exact Hnd.
Qed.

(** A printed list or object, up to its closing mark. *)
Lemma bracketed_cons level a b x xs : bracketed st level a b (x :: xs)
  = a :: newline_at st (S level) ++ join_chars (st_item st ++ newline_at st (S level)) (x :: xs)
    ++ newline_at st level ++ [b].
Proof. done. Qed.

Lemma number_value c l fuel : (nat_of_ascii c =? 45)%nat || bool_decide (is_Some (digit_of c)) = true →
  parse_value (S fuel) (c :: l) = match parse_number (c :: l) with Some (z, r) => Some (JInt z, r) | None => None end.
Proof. destruct c as [[] [] [] [] [] [] [] []]; intros H; try (vm_compute in H; discriminate H); reflexivity. Qed.
Lemma pretty_head (n : Z) : ∃ c l, of_string (pretty n) = c :: l ∧ (nat_of_ascii c =? 45)%nat || bool_decide (is_Some (digit_of c)) = true.
Proof.
  destruct n as [|p|p]; [by eexists _, _| |by eexists _, _].
  destruct (parse_positive p [] I) as [_ (c & l & Hc & Hd)]. exists c, l. split; [exact Hc|].
  rewrite bool_decide_true by done. apply orb_true_r.
Qed.

Lemma print_obj level d : print st level (JObj d) = bracketed st level "{" "}" (map (pair_text (S level)) d).
Proof. cbn [print]. rewrite (gs_sort _ Hst). f_equal. rewrite map_map. reflexivity. Qed.

Lemma print_parses j : wf_json j → ∀ level, parses level j.
Proof.
  induction j as [|b|n|s|l IH|d IH] using json_ind'; intros Hwf level [|fuel] r Hf Hr; try (cbn in Hf; lia).
  - done.
  - by destruct b.
  - destruct (pretty_head n) as (c & l & Hc & Hn). pose proof (parse_number_pretty n r Hr) as Hp.
    cbn [print]. rewrite Hc in *. cbn [app] in *. by rewrite number_value, Hp.
  - cbn [print parse_value]. unfold quoted. cbn [app]. rewrite <- app_assoc. cbn [app].
    change (nat_of_ascii (chr 34) =? 34)%nat with true. cbv iota. rewrite parse_string_escape.
    unfold to_string, of_string. by rewrite String.string_of_list_ascii_of_string.
  - apply wf_list in Hwf. destruct l as [|x l]; [done|].
    cbn [print map]. rewrite bracketed_cons. cbn [app]. rewrite <- !app_assoc. cbn [app parse_value].
    change (nat_of_ascii "[" =? 34)%nat with false. change (nat_of_ascii "[" =? 91)%nat with true. cbv iota.
    pose proof (join_starts (st_item st ++ newline_at st (S level)) _ (map (print st (S level)) l)
      (print_starts st (S level) x)) as Hstarts.
    rewrite skip_starts; [|apply newline_spaces|by apply starts_app].
    destruct (starts_app _ (newline_at st level ++ "]"%char :: r) Hstarts) as (c & l' & El & _ & Hc & _).
    rewrite El, Hc, <- El.
    rewrite (items_parse (S level) (x :: l)); [done|done| | |apply newline_spaces].
    + rewrite Forall_forall in Hwf, IH |- *. auto.
    + cbn [jsize] in Hf. lia.
  - apply wf_obj in Hwf as [Hnd Hwf]. destruct d as [|kv d]; [cbn [print]; by destruct (st_sort st)|].
    rewrite print_obj. change (map (pair_text (S level)) (kv :: d)) with (pair_text (S level) kv :: map (pair_text (S level)) d).
    rewrite bracketed_cons. cbn [app]. rewrite <- !app_assoc. cbn [app parse_value].
    change (nat_of_ascii "{" =? 34)%nat with false. change (nat_of_ascii "{" =? 91)%nat with false.
    change (nat_of_ascii "{" =? 123)%nat with true. cbv iota.
    pose proof (join_starts (st_item st ++ newline_at st (S level)) _ (map (pair_text (S level)) d)
      (pair_starts (S level) kv)) as Hstarts.
    rewrite skip_starts; [|apply newline_spaces|by apply starts_app].
    destruct (starts_app _ (newline_at st level ++ "}"%char :: r) Hstarts) as (c & l' & El & _ & _ & Hc).
    rewrite El, Hc, <- El.
    rewrite (pairs_parse (S level) (kv :: d)); [done|done| | |apply newline_spaces|done].
    + rewrite Forall_forall in Hwf, IH |- *. auto.
    + cbn [jsize] in Hf. lia.
Qed.

(** The fuel [loads] takes is enough. *)
Lemma join_length sep l : sep ≠ [] → (list_sum (map length l) + pred (length l) <= length (join_chars sep l))%nat.
Proof.
  intros Hs. induction l as [|x [|y l] IH]; [cbn; lia|cbn; lia|]. rewrite join_cons, !length_app.
  assert (1 <= length sep)%nat by (destruct sep; [done|cbn; lia]). unfold list_sum in *. cbn [map foldr length] in *. lia.
Qed.

Lemma sizes_sum {A} (size len : A → nat) l : Forall (λ x, size x <= len x)%nat l →
  (list_sum (map (λ x, S (size x)) l) <= length l + list_sum (map len l))%nat.
Proof. induction 1; unfold list_sum in *; cbn [map foldr length] in *; lia. Qed.

Lemma bracketed_length {A} level a b (f : A → chars) (size : A → nat) l :
  Forall (λ x, size x <= length (f x))%nat l →
  (S (list_sum (map (λ x, S (size x)) l)) <= length (bracketed st level a b (map f l)))%nat.
Proof.
  intros Hl. destruct Hst as [(ws & Ei & _) _ _]. apply (sizes_sum size (λ x, length (f x))) in Hl.
  destruct l as [|x l]; [cbn; lia|]. change (map f (x :: l)) with (f x :: map f l). rewrite bracketed_cons.
  pose proof (join_length (st_item st ++ newline_at st (S level)) (map f (x :: l))) as Hj.
  rewrite map_map, length_map in Hj. change (map f (x :: l)) with (f x :: map f l) in Hj.
  cbn [length]. rewrite !length_app. cbn [length] in *.
  assert (st_item st ++ newline_at st (S level) ≠ []) as Hne by (by rewrite Ei). specialize (Hj Hne). lia.
Qed.

Lemma size_length j level : (jsize j <= length (print st level j))%nat.
Proof.
  revert level; induction j as [|b|n|s|l IH|d IH] using json_ind'; intros level.
  - cbn; lia. - destruct b; cbn; lia.
  - cbn [print jsize]. destruct (pretty_head n) as (c & l & -> & _). cbn. lia.
  - cbn. lia.
  - cbn [print jsize]. apply bracketed_length. eapply Forall_impl; [exact IH|]. intros x Hx. apply Hx.
  - rewrite print_obj. cbn [jsize]. apply (bracketed_length level _ _ (pair_text (S level)) (λ kv, jsize kv.2)).
    eapply Forall_impl; [exact IH|]. intros [k x] Hx. cbn [snd] in *. unfold pair_text. cbn [fst snd].
    rewrite !length_app. specialize (Hx (S level)). lia.
Qed.

Lemma length_to_string l : String.length (to_string l) = length l.
Proof. induction l as [|c l IH]; [done|]. cbn. by f_equal. Qed.

(** Parsing what was printed gives the document back, for every style without sorting, also with
    white space after it. *)
Lemma loads_dumps_space j ws : wf_json j → spaces ws → follows ws → loads (dumps st j +:+ to_string ws) = Some j.
Proof.
  intros Hwf Hws Hf. unfold loads, dumps. rewrite <- to_string_app, length_to_string, of_to_string.
  pose proof (print_starts st 0 j) as Hs. pose proof (skip_starts [] _ (Forall_nil_2 _) (starts_app _ ws Hs)) as Hskip. cbn in Hskip.
  rewrite Hskip, (print_parses j Hwf 0 (S (length (print st 0 j ++ ws))) ws); [| |done].
  - by rewrite (skip_all ws Hws).
  - rewrite length_app. pose proof (size_length j 0). lia.
Qed.
Lemma loads_dumps j : wf_json j → loads (dumps st j) = Some j.
Proof.
  intros Hwf. pose proof (loads_dumps_space j [] Hwf (Forall_nil_2 _) follows_nil) as H.
  unfold dumps in *. by rewrite <- to_string_app, app_nil_r in H.
Qed.
End roundtrip.

Lemma good_default : good_style default_style.
Proof. split; [exists [" "%char]; by repeat constructor|exists [" "%char]; by repeat constructor|done]. Qed.
Lemma good_indent n : good_style (indent_style n).
Proof. split; [exists []; by repeat constructor|exists [" "%char]; by repeat constructor|done]. Qed.

(** What the parser makes is a document with each key once. *)
Lemma parse_wf fuel :
  (∀ l j r, parse_value fuel l = Some (j, r) → wf_json j)
  ∧ (∀ l js r, parse_items fuel l = Some (js, r) → Forall wf_json js)
  ∧ (∀ acc l d r, wf_json (JObj acc) → parse_pairs fuel acc l = Some (d, r) → wf_json (JObj d)).
Proof.
  induction fuel as [|f (IHv & IHi & IHp)]; [done|]. split_and!.
  - intros l j r. cbn -[wf_json parse_items parse_pairs]. intros H.
    repeat (case_match; try discriminate; simplify_eq; try exact I).
    + apply wf_list. by eapply IHi.
    + split; constructor.
    + eapply IHp; [|done]. split; constructor.
  - intros l js r. cbn -[wf_json parse_value]. intros H.
    repeat (case_match; try discriminate; simplify_eq); (constructor; [by eapply IHv|]); [constructor|by eapply IHi].
  - intros acc l d r Hacc. cbn -[wf_json parse_value]. intros H.
    repeat (case_match; try discriminate; simplify_eq); [|eapply IHp; [|done]];
      apply wf_obj in Hacc as [Hnd Hf]; (apply wf_obj; split; [by apply dict_set_nodup|]);
      apply Forall_forall; intros [k' x'] Hk; apply dict_elem_set in Hk as [[-> ->]|Hk];
      [by eapply IHv|by rewrite Forall_forall in Hf; apply (Hf _ Hk)|by eapply IHv|by rewrite Forall_forall in Hf; apply (Hf _ Hk)].
Qed.
Lemma loads_wf text j : loads text = Some j → wf_json j.
Proof.
  unfold loads. destruct (parse_value _ _) as [[j' r]|] eqn:E; [|done]. destruct (skip r); [|done].
  intros [= <-]. by eapply (proj1 (parse_wf _)).
Qed.
