(* ===== verification/Models.v ===== *)
(** * Models: typed models and their JSON documents

    [model_dump(mode="json")] and [model_validate] of the pydantic models that the stores
    write to files, from codecs of their fields.  A codec knows which values are valid, that
    is what validation can produce: strings without white space around them, dicts with each
    key once.  Validation is lax: a number may be given as a string, a flag as a number; what
    is accepted beyond the type itself is a parameter ([Lax]).  A model is an object with
    exactly its fields, those with a default may be absent. *)
From S2P Require Import Prelude Collections Json JsonText.
From Stdlib Require Import Ascii.

(** ** Trimmed strings *)
Lemma drop_while_head p l : match drop_while p l with c :: _ => p c = false | [] => True end.
Proof. induction l as [|c l IH]; [done|]. cbn. destruct (p c) eqn:E; [exact IH|done]. Qed.
Lemma drop_while_id p l : match l with c :: _ => p c = false | [] => True end → drop_while p l = l.
Proof. destruct l as [|c l]; [done|]. cbn. by intros ->. Qed.
Lemma drop_while_snoc p l c : p c = false → drop_while p (l ++ [c]) = drop_while p l ++ [c].
Proof. intros Hc. induction l as [|x l IH]; cbn; [by rewrite Hc|]. by destruct (p x). Qed.

Lemma trim_list_head p l : let l' := reverse (drop_while p (reverse (drop_while p l))) in
  match l' with c :: _ => p c = false | [] => True end.
Proof.
  cbn. pose proof (drop_while_head p l) as H. destruct (drop_while p l) as [|c l']; [done|].
  rewrite reverse_cons, drop_while_snoc by done. by rewrite reverse_snoc.
Qed.

Lemma trim_trim s : trim (trim s) = trim s.
Proof.
  unfold trim. rewrite String.list_ascii_of_string_of_list_ascii. set (l := String.list_ascii_of_string s).
  rewrite (drop_while_id white_space (reverse (drop_while white_space (reverse (drop_while white_space l)))))
    by exact (trim_list_head white_space l).
  by rewrite reverse_involutive, (drop_while_id _ (drop_while _ _)) by apply drop_while_head.
Qed.

Lemma drop_plain l : forallb (λ c, negb (white_space c)) l = true → drop_while white_space l = l.
Proof. intros H. apply drop_while_id. destruct l; [done|]. cbn in H. apply andb_true_iff in H as [H _]. by destruct (white_space _). Qed.
Lemma trim_plain s : forallb (λ c, negb (white_space c)) (of_string s) = true → trim s = s.
Proof.
  intros H. unfold trim. rewrite (drop_plain (String.list_ascii_of_string s)) by done.
  rewrite drop_plain; [by rewrite reverse_involutive; apply String.string_of_list_ascii_of_string|].
  apply forallb_forall. intros c Hc. rewrite forallb_forall in H. apply H.
  apply list_elem_of_In. apply list_elem_of_In in Hc. by rewrite elem_of_reverse in Hc.
Qed.

(** ** Codecs *)
Record codec (A : Type) := mkCodec {
  enc : A → json;
  dec : json → option A;
  valid : A → Prop;
  dec_enc : ∀ a, valid a → dec (enc a) = Some a;
  dec_valid : ∀ j a, wf_json j → dec j = Some a → valid a;
  enc_wf : ∀ a, valid a → wf_json (enc a)
}.
Arguments enc {A} _ _.
Arguments dec {A} _ _.
Arguments valid {A} _ _.
#[export] Hint Resolve dec_valid enc_wf : swarm.

(** What lax validation accepts for an [int] or a [bool] beyond the type itself. *)
Class Lax := {
  lax_int : json → option Z;
  lax_bool : json → option bool
}.

#[local] Obligation Tactic := idtac.
#[local] Unset Program Cases.

Section codecs.
Context {lax : Lax}.

Program Definition str_codec : codec string := {|
  enc s := JStr s;
  dec j := match j with JStr s => Some (trim s) | _ => None end;
  valid s := trim s = s
|}.
Next Obligation. cbn. intros s Hs. by rewrite Hs. Qed.
Next Obligation. intros [] a _; try discriminate. intros [= <-]. apply trim_trim. Qed.
Next Obligation. done. Qed.

Program Definition int_codec : codec Z := {|
  enc n := JInt n;
  dec j := match j with JInt n => Some n | _ => lax_int j end;
  valid _ := True
|}.
Solve All Obligations with done.

Program Definition bool_codec : codec bool := {|
  enc b := JBool b;
  dec j := match j with JBool b => Some b | _ => lax_bool j end;
  valid _ := True
|}.
Solve All Obligations with done.

(** A string enumeration. *)
Section enum.
Context {E : Type} (all : list E) (value : E → string).
Hypothesis of_value : ∀ e, find (λ x, bool_decide (value x = value e)) all = Some e.
Program Definition enum_codec : codec E := {|
  enc e := JStr (value e);
  dec j := match j with JStr s => find (λ x, bool_decide (value x = s)) all | _ => None end;
  valid _ := True
|}.
Next Obligation. intros e _. apply of_value. Qed.
Solve All Obligations with done.
End enum.

Section option.
Context {A : Type} (c : codec A) (Hnull : ∀ a, enc c a ≠ JNull).
Program Definition option_codec : codec (option A) := {|
  enc o := match o with Some a => enc c a | None => JNull end;
  dec j := match j with JNull => Some None | _ => Some <$> dec c j end;
  valid o := match o with Some a => valid c a | None => True end
|}.
Next Obligation.
  intros [a|] Ha; [|done]. cbn. pose proof (Hnull a) as Hn. pose proof (dec_enc _ c a Ha) as Hd.
  destruct (enc c a); [done|..]; by rewrite Hd.
Qed.
Next Obligation.
  intros j [a|] Hj; [|done]. destruct j; [discriminate|..]; intros Hd; apply fmap_Some in Hd as (a0 & Hd & [= <-]);
    by eapply dec_valid.
Qed.
Next Obligation. intros [a|] Ha; [by apply enc_wf|done]. Qed.
End option.

Section lists.
Context {A : Type} (c : codec A).
Program Definition list_codec : codec (list A) := {|
  enc l := JList (enc c <$> l);
  dec j := match j with JList l => mapM (dec c) l | _ => None end;
  valid := Forall (valid c)
|}.
Next Obligation.
  intros l Hl. cbn. induction Hl as [|a l Ha Hl IH]; [done|]. cbn [fmap list_fmap mapM].
  rewrite dec_enc by done. cbn. by rewrite IH.
Qed.
Next Obligation.
  intros j l Hj Hd. destruct j as [| | | |js|]; try discriminate. apply wf_list in Hj.
  apply mapM_Some in Hd. induction Hd as [|j a js l Hja Hd IH]; [constructor|].
  apply Forall_cons in Hj as [Hj1 Hj2]. constructor; [by eapply dec_valid|by apply IH].
Qed.
Next Obligation.
  intros l Hl. apply wf_list, Forall_fmap. eapply Forall_impl; [exact Hl|]. intros a Ha. by apply enc_wf.
Qed.
End lists.
End codecs.

(** ** Dicts and models *)
Section objects.
Context {lax : Lax}.
#[local] Obligation Tactic := idtac.

(** A dict with string keys: validation trims the keys, and a key that then comes again
    replaces the value in place. *)
Definition insert_all {V} (kvs : list (string * V)) : dict V :=
  foldl (λ acc kv, dict_set acc kv.1 kv.2) [] kvs.
Definition dec_entry {A} (c : codec A) (kv : string * json) : option (string * A) :=
  a ← dec c kv.2; Some (trim kv.1, a).

Lemma insert_all_nodup {V} (kvs : list (string * V)) : NoDup (insert_all kvs).*1.
Proof.
  unfold insert_all. assert (NoDup (@nil (string * V)).*1) as H by constructor. revert H.
  generalize (@nil (string * V)). induction kvs as [|kv kvs IH]; intros acc Hacc; [done|].
  cbn. by apply IH, dict_set_nodup.
Qed.
Lemma insert_all_id {V} (kvs : list (string * V)) : NoDup kvs.*1 → insert_all kvs = kvs.
Proof.
  unfold insert_all. change kvs with ([] ++ kvs) at 1 3. generalize (@nil (string * V)).
  induction kvs as [|[k v] kvs IH]; intros acc Hnd; cbn; [by rewrite app_nil_r|].
  rewrite fmap_app in Hnd. cbn in Hnd. rewrite dict_set_new.
  - change ((k, v) :: kvs) with ([(k, v)] ++ kvs). rewrite app_assoc. apply IH.
    by rewrite !fmap_app, <- app_assoc.
  - apply NoDup_app in Hnd as (_ & Hnd & _). intros Hk. by eapply (Hnd k Hk); left.
Qed.
Lemma insert_all_elem {V} (kvs : list (string * V)) k v : (k, v) ∈ insert_all kvs → (k, v) ∈ kvs.
Proof.
  unfold insert_all. change kvs with ([] ++ kvs) at 2. generalize (@nil (string * V)).
  induction kvs as [|[k' v'] kvs IH]; intros acc; cbn; [by rewrite app_nil_r|].
  intros [H|H]%IH%elem_of_app; apply elem_of_app; [|by right; right].
  apply dict_elem_set in H as [[-> ->]|H]; [by right; left|by left].
Qed.

Program Definition dict_codec {A} (c : codec A) : codec (dict A) := {|
  enc d := JObj ((λ kv, (kv.1, enc c kv.2)) <$> d);
  dec j := match j with JObj d => insert_all <$> mapM (dec_entry c) d | _ => None end;
  valid d := NoDup d.*1 ∧ Forall (λ kv, trim kv.1 = kv.1 ∧ valid c kv.2) d
|}.
Next Obligation.
  intros A c d [Hnd Hd]. cbn.
  assert (mapM (dec_entry c) ((λ kv, (kv.1, enc c kv.2)) <$> d) = Some d) as ->.
  { apply mapM_Some. clear Hnd. induction Hd as [|[k a] d [Hk Ha] Hd IH]; cbn; constructor; [|exact IH].
    unfold dec_entry. cbn [fst snd] in *. by rewrite dec_enc, Hk. }
  cbn. by rewrite insert_all_id.
Qed.
Next Obligation.
  intros A c j d Hj Hd. destruct j as [| | | | |js]; try discriminate. apply wf_obj in Hj as [_ Hj].
  apply fmap_Some in Hd as (kvs & Hd & ->). split; [apply insert_all_nodup|].
  apply Forall_forall. intros [k a] Hk%insert_all_elem. cbn. apply mapM_Some in Hd.
  apply list_elem_of_lookup in Hk as [i Hi]. destruct (Forall2_lookup_r _ _ _ _ _ Hd Hi) as ([k0 j0] & Hj0 & Hk0).
  unfold dec_entry in Hk0. apply bind_Some in Hk0 as (a0 & Ha & [= <- <-]). cbn in Ha. split; [apply trim_trim|].
  eapply dec_valid; [|exact Ha]. by apply (Forall_lookup_1 _ _ _ _ Hj Hj0).
Qed.
Next Obligation.
  intros A c d [Hnd Hd]. apply wf_obj. rewrite <- list_fmap_compose. split; [exact Hnd|].
  apply Forall_fmap. eapply Forall_impl; [exact Hd|]. intros kv [_ Hv]. cbn. by apply enc_wf.
Qed.

(** [Any]: the document itself. *)
Program Definition any_codec : codec json := {| enc j := j; dec j := Some j; valid := wf_json |}.
Next Obligation. done. Qed.
Next Obligation. by intros j a Hj [= <-]. Qed.
Next Obligation. done. Qed.

(** A field of a model, with its default if it has one; a model forbids other fields. *)
Definition get_field {A} (c : codec A) (absent : option A) (d : dict json) (k : string) : option A :=
  match dict_get d k with Some j => dec c j | None => absent end.
Definition only_fields (names : list string) (d : dict json) : bool := forallb (λ k, one_of k names) (dict_keys d).

Lemma get_field_valid {A} (c : codec A) absent d k a :
  wf_json (JObj d) → get_field c absent d k = Some a → (∀ b, absent = Some b → valid c b) → valid c a.
Proof.
  intros [_ Hd]%wf_obj Hf Ha. unfold get_field in Hf. destruct (dict_get d k) as [j|] eqn:Hg; [|by apply Ha].
  eapply dec_valid; [|exact Hf]. apply dict_get_elem in Hg.
  rewrite Forall_forall in Hd. by apply (Hd _ Hg).
Qed.
Lemma get_field_enc {A} (c : codec A) absent d k a :
  dict_get d k = Some (enc c a) → valid c a → get_field c absent d k = Some a.
Proof. intros H Ha. unfold get_field. rewrite H. by apply dec_enc. Qed.
End objects.

(** ** Substrings of printed documents *)
Definition lower (c : ascii) : ascii :=
  let n := nat_of_ascii c in if ((65 <=? n) && (n <=? 90))%nat then ascii_of_nat (n + 32) else c.

Definition infix (w l : chars) : Prop := ∃ a b, l = a ++ w ++ b.
Lemma infix_app_l w a l : infix w l → infix w (a ++ l).
Proof. intros (x & y & ->). exists (a ++ x), y. by rewrite <- app_assoc. Qed.
Lemma infix_app_r w l b : infix w l → infix w (l ++ b).
Proof. intros (x & y & ->). exists x, (y ++ b). by rewrite <- !app_assoc. Qed.
Lemma infix_refl l : infix l l.
Proof. exists [], []. by rewrite app_nil_r. Qed.
Lemma infix_trans a b c : infix a b → infix b c → infix a c.
Proof. intros H (x & y & ->). by apply infix_app_l, infix_app_r. Qed.
Lemma infix_fmap (f : ascii → ascii) w l : infix w l → infix (f <$> w) (f <$> l).
Proof. intros (a & b & ->). exists (f <$> a), (f <$> b). by rewrite !fmap_app. Qed.
#[export] Hint Resolve infix_app_l infix_app_r infix_refl : swarm.

Lemma of_string_app s t : of_string (s +:+ t) = of_string s ++ of_string t.
Proof.
  induction s as [|c s IH]; [done|].
  change (of_string (String c s +:+ t)) with (c :: of_string (s +:+ t)). by rewrite IH.
Qed.
Lemma to_of_string s : to_string (of_string s) = s.
Proof. apply String.string_of_list_ascii_of_string. Qed.
(** Concrete ids, for runs: the n-th is n letters. *)
Definition unary (n : nat) : string := to_string (replicate n "a"%char).
Lemma unary_inj : Inj (=) (=) unary.
Proof. intros n m H. apply (f_equal String.length) in H. unfold unary in H. by rewrite !length_to_string, !length_replicate in H. Qed.
Lemma unary_plain n : forallb (λ c, negb (white_space c)) (of_string (unary n)) = true.
Proof. unfold unary. rewrite of_to_string. by induction n. Qed.
Lemma of_string_lower s : of_string (to_lower s) = lower <$> of_string s.
Proof. apply of_to_string. Qed.

Lemma prefix_spec w s : String.prefix w s = true ↔ ∃ b, of_string s = of_string w ++ b.
Proof.
  revert s; induction w as [|c w IH]; intros s; cbn; [split; [by exists (of_string s)|intros _; by destruct s]|].
  destruct s as [|d s]; [split; [done|by intros [b ?]]|]. cbn. destruct (ascii_dec c d) as [<-|Hn].
  - rewrite IH. split; intros [b Hb]; exists b; [by rewrite Hb|by injection Hb].
  - split; [done|]. intros [b Hb]. by injection Hb as ->.
Qed.
Lemma contains_spec w s : contains w s = true ↔ infix (of_string w) (of_string s).
Proof.
  assert (∀ s, String.prefix w s = true → infix (of_string w) (of_string s)) as Hpre.
  { intros s' (b & Hb)%prefix_spec. exists [], b. done. }
  induction s as [|c s IH].
  - cbn [contains]. rewrite orb_false_r. split; [apply Hpre|]. intros (a & b & H). apply prefix_spec.
    symmetry in H. apply app_nil in H as [_ [-> ->]%app_nil]. by exists [].
  - cbn [contains]. rewrite orb_true_iff, IH. split.
    + intros [H|H]; [by apply Hpre|]. by apply (infix_app_l _ [c]).
    + intros ([|c' a] & b & H); [left; apply prefix_spec; by exists b|right]. injection H as -> H. by exists a, b.
Qed.

(** The strings of a document, keys included. *)
Fixpoint texts (j : json) : list string :=
  match j with
  | JStr s => [s]
  | JList l => (fix go l := match l with [] => [] | x :: l' => texts x ++ go l' end) l
  | JObj d => (fix go d := match d with [] => [] | kv :: d' => kv.1 :: texts kv.2 ++ go d' end) d
  | _ => []
  end.
Lemma texts_list l s : s ∈ texts (JList l) → ∃ x, x ∈ l ∧ s ∈ texts x.
Proof.
  cbn. induction l as [|x l IH]; [by intros ?%elem_of_nil|].
  intros [H|(y & Hy & Hs)%IH]%elem_of_app; [exists x|exists y]; (split; [|done]); by constructor.
Qed.
Lemma texts_obj d s : s ∈ texts (JObj d) → ∃ kv, kv ∈ d ∧ (s = kv.1 ∨ s ∈ texts kv.2).
Proof.
  cbn. induction d as [|kv d IH]; [by intros ?%elem_of_nil|].
  intros [->|[H|(y & Hy & Hs)%IH]%elem_of_app]%elem_of_cons; [exists kv|exists kv|exists y]; (split; [by constructor|]); auto.
Qed.

Lemma join_chars_infix sep l x : x ∈ l → infix x (join_chars sep l).
Proof.
  induction l as [|y [|z l] IH]; [by intros ?%elem_of_nil|by intros ->%list_elem_of_singleton; apply infix_refl|].
  change (join_chars sep (y :: z :: l)) with (y ++ sep ++ join_chars sep (z :: l)).
  intros [->|H]%elem_of_cons; auto with swarm.
Qed.
Lemma bracketed_infix st level a b items x : x ∈ items → infix x (bracketed st level a b items).
Proof.
  intros Hx. destruct items as [|y items]; [by apply elem_of_nil in Hx|].
  apply (infix_app_l _ [a]). apply (join_chars_infix (st_item st ++ newline_at st (S level))) in Hx.
  auto with swarm.
Qed.
Lemma quoted_infix s : infix (escape (of_string s)) (quoted s).
Proof. apply (infix_app_l _ [chr 34]). auto with swarm. Qed.

Lemma print_texts st j s : s ∈ texts j → ∀ level, infix (escape (of_string s)) (print st level j).
Proof.
  induction j as [|b|n|t|l IH|d IH] using json_ind'; try (by intros ?%elem_of_nil).
  - intros ->%list_elem_of_singleton level. apply quoted_infix.
  - intros (x & Hx & Hs)%texts_list level. rewrite Forall_forall in IH.
    eapply infix_trans; [by apply (IH x Hx Hs (S level))|]. apply bracketed_infix, list_elem_of_fmap. by exists x.
  - intros (kv & Hkv & Hs)%texts_obj level. rewrite Forall_forall in IH. cbn [print].
    set (text := quoted kv.1 ++ st_key st ++ print st (S level) kv.2).
    apply (infix_trans _ text).
    + destruct Hs as [->|Hs]; [apply infix_app_r, quoted_infix|]. by apply infix_app_l, infix_app_l, IH.
    + apply bracketed_infix. set (pairs := map _ d). assert ((kv.1, text) ∈ pairs) as Hp.
      { apply list_elem_of_fmap. by exists kv. }
      destruct (st_sort st); apply list_elem_of_fmap; exists (kv.1, text); (split; [done|]); [|done].
      by apply elem_of_sort_by.
Qed.

(** Characters that stay as they are in a printed string. *)
Definition plain (c : ascii) : bool :=
  let n := nat_of_ascii c in ((32 <=? n) && (n <=? 126) && negb (n =? 34) && negb (n =? 92))%nat.
Lemma plain_lower c : plain (lower c) = true → escape_char c = [c].
Proof. destruct c as [[] [] [] [] [] [] [] []]; reflexivity || discriminate. Qed.

Lemma escape_app a b : escape (a ++ b) = escape a ++ escape b.
Proof. induction a as [|c a IH]; [done|]. cbn. by rewrite IH, app_assoc. Qed.
Lemma escape_plain a : forallb plain (lower <$> a) = true → escape a = a.
Proof.
  induction a as [|c a IH]; [done|]. cbn. intros [Hc Ha]%andb_true_iff. by rewrite plain_lower, IH.
Qed.

(** A marker in any string of a document shows in the printed document. *)
Lemma marker_shows st w s j : forallb plain (of_string w) = true → s ∈ texts j →
  contains w (to_lower s) = true → contains w (to_lower (dumps st j)) = true.
Proof.
  intros Hw Hs. rewrite !contains_spec, !of_string_lower. intros (a & b & Hab). unfold dumps. rewrite of_to_string.
  eapply infix_trans; [|apply infix_fmap; by apply (print_texts st j s Hs)].
  apply fmap_app_inv in Hab as (a' & r & -> & Hr & ->). symmetry in Hr. apply fmap_app_inv in Hr as (w' & b' & Hw' & -> & ->).
  rewrite !escape_app, (escape_plain w') by by rewrite <- Hw'. rewrite !fmap_app, <- Hw'. auto with swarm.
Qed.
