(* ===== verification/Regex.v ===== *)
(** * Regex: the regular expressions the code matches texts with

    Python's [re] for the patterns of the program: a backtracking matcher, in which an
    alternative is tried after the one before it failed and a greedy repetition gives up its
    last round first.  A position is the text that remains and whether it is the start of the
    string.  Texts are ASCII, as [\w] and ignoring case are read here.

    [go_sound] and [go_complete]: the matcher succeeds exactly if the pattern relates the position
    to one at which the continuation succeeds, so that [search] decides whether a text has a
    match ([regex_search_spec]). *)
From S2P Require Import Prelude Collections Json JsonText Models.
From Stdlib Require Import Ascii.

Inductive regex :=
  | Cls (p : ascii → bool)
  | Cat (a b : regex)
  | Alt (a b : regex)
  | Star (greedy : bool) (a : regex)
  | Opt (a : regex)
  | Bol
  | Eol.

(** [m star_a k]: another round and then the rest, or the rest at once; [n] bounds the rounds,
    each of which reads something. *)
Section star.
Context {X : Type} (once : bool → chars → (bool → chars → option X) → option X).
Definition or_else (x y : option X) : option X := match x with Some _ => x | None => y end.
Fixpoint star_loop (greedy : bool) (n : nat) (start : bool) (l : chars) (k : bool → chars → option X) : option X :=
  let again := match n with
    | O => None
    | S n => once start l (λ start' l', if (length l' <? length l)%nat then star_loop greedy n start' l' k else None)
    end in
  if greedy then or_else again (k start l) else or_else (k start l) again.
End star.

Fixpoint go {X} (r : regex) (start : bool) (l : chars) (k : bool → chars → option X) : option X :=
  match r with
  | Cls p => match l with c :: l' => if p c then k false l' else None | [] => None end
  | Cat a b => go a start l (λ start' l', go b start' l' k)
  | Alt a b => or_else (go a start l k) (go b start l k)
  | Star greedy a => star_loop (go a) greedy (length l) start l k
  | Opt a => or_else (go a start l k) (k start l)
  | Bol => if start then k start l else None
  | Eol => if bool_decide (l = []) || bool_decide (l = [chr 10]) then k start l else None
  end.

(** The first position at which [r] matches and the continuation succeeds. *)
Fixpoint first_match {X} (r : regex) (start : bool) (l : chars) (k : bool → chars → option X) : option X :=
  or_else (go r start l k) (match l with [] => None | _ :: l' => first_match r false l' k end).
Definition search (r : regex) (s : string) : bool := bool_decide (is_Some (first_match r true (of_string s) (λ _ _, Some ()))).

(** [re.findall] of a pattern that matches no empty text. *)
Fixpoint find_from (r : regex) (fuel : nat) (start : bool) (l : chars) : list string :=
  match fuel with
  | O => []
  | S fuel =>
    match go r start l (λ _ l', Some l') with
    | Some l' => to_string (take (length l - length l') l) :: find_from r fuel false l'
    | None => match l with [] => [] | _ :: l' => find_from r fuel false l' end
    end
  end.
Definition findall (r : regex) (s : string) : list string := find_from r (S (length (of_string s))) true (of_string s).

(** ** Patterns *)
Definition between (lo hi : nat) (c : ascii) : bool := ((lo <=? nat_of_ascii c) && (nat_of_ascii c <=? hi))%nat.
Definition word_char (c : ascii) : bool := between 48 57 c || between 65 90 c || between 97 122 c || bool_decide (c = "_"%char).
Definition char_in (s : string) (c : ascii) : bool := bool_decide (c ∈ of_string s).
Definition Any : regex := Cls (λ _, true).
Definition eps : regex := Star true (Cls (λ _, false)).
Definition many (a : regex) : regex := Cat a (Star true a).
Fixpoint cats (l : list regex) : regex := match l with [] => eps | [a] => a | a :: l' => Cat a (cats l') end.
Fixpoint alts (l : list regex) : regex := match l with [] => Cls (λ _, false) | [a] => a | a :: l' => Alt a (alts l') end.
Definition literal (s : string) : regex := cats ((λ c, Cls (λ d, bool_decide (d = c))) <$> of_string s).
(** A literal with [re.I]. *)
Definition literal_i (s : string) : regex := cats ((λ c, Cls (λ d, bool_decide (lower d = lower c))) <$> of_string s).

(** ** What a pattern means *)
Inductive matches : regex → bool → chars → bool → chars → Prop :=
  | m_cls (p : ascii → bool) st c l : p c = true → matches (Cls p) st (c :: l) false l
  | m_cat a b st l st1 l1 st2 l2 : matches a st l st1 l1 → matches b st1 l1 st2 l2 → matches (Cat a b) st l st2 l2
  | m_alt_l a b st l st1 l1 : matches a st l st1 l1 → matches (Alt a b) st l st1 l1
  | m_alt_r a b st l st1 l1 : matches b st l st1 l1 → matches (Alt a b) st l st1 l1
  | m_star_nil g a st l : matches (Star g a) st l st l
  | m_star_cons g a st l st1 l1 st2 l2 : matches a st l st1 l1 → (length l1 < length l)%nat → matches (Star g a) st1 l1 st2 l2 →
      matches (Star g a) st l st2 l2
  | m_opt_nil a st l : matches (Opt a) st l st l
  | m_opt a st l st1 l1 : matches a st l st1 l1 → matches (Opt a) st l st1 l1
  | m_bol l : matches Bol true l true l
  | m_eol st l : l = [] ∨ l = [chr 10] → matches Eol st l st l.
#[local] Hint Constructors matches : core.

Lemma or_else_Some {X} (x y : option X) z : or_else x y = Some z → x = Some z ∨ y = Some z.
Proof. destruct x; auto. Qed.
Lemma or_else_is_Some {X} (x y : option X) : is_Some (or_else x y) ↔ is_Some x ∨ is_Some y.
Proof. destruct x; cbn; [|split; [by right|intros [[? [=]]|?]; done]]. split; [by left|]. by eexists. Qed.

Section meaning.
Context {X : Type}.
Implicit Types k : bool → chars → option X.

Lemma go_sound r st l k x : go r st l k = Some x → ∃ st' l', matches r st l st' l' ∧ k st' l' = Some x.
Proof.
  revert st l k. induction r as [p|a IHa b IHb|a IHa b IHb|g a IHa|a IHa| |]; intros st l k; cbn [go].
  - destruct l as [|c l]; [done|]. destruct (p c) eqn:Hp; [|done]. eauto.
  - intros (st1 & l1 & H1 & (st2 & l2 & H2 & Hk)%IHb)%IHa. eauto.
  - intros [(st1 & l1 & H & Hk)%IHa|(st1 & l1 & H & Hk)%IHb]%or_else_Some; eauto.
  - generalize (length l) as n. intros n. revert st l. induction n as [|n IH]; intros st l; cbn [star_loop];
      (destruct g; intros [H|H]%or_else_Some; try done; try by eauto).
    all: apply IHa in H as (st1 & l1 & Hm & H); destruct (_ <? _)%nat eqn:Hlt; [|done];
      apply Nat.ltb_lt in Hlt; destruct (IH _ _ H) as (st2 & l2 & Hm2 & Hk); eauto.
  - intros [(st1 & l1 & H & Hk)%IHa|H]%or_else_Some; eauto.
  - destruct st; [|done]. eauto.
  - destruct (bool_decide (l = []) || bool_decide (l = [chr 10])) eqn:Hl; [|done]. apply orb_true_iff in Hl.
    rewrite !bool_decide_eq_true in Hl. eauto.
Qed.
Lemma go_complete r st l st' l' k : matches r st l st' l' → is_Some (k st' l') → is_Some (go r st l k).
Proof.
  revert st l st' l' k. induction r as [p|a IHa b IHb|a IHa b IHb|g a IHa|a IHa| |]; intros st l st' l' k Hm Hk; cbn [go].
  - inversion Hm as [? ? ? ? Hp| | | | | | | | |]; subst. by rewrite Hp.
  - inversion Hm; subst. eapply IHa; [done|]. by eapply IHb.
  - apply or_else_is_Some. inversion Hm; subst; [left; by eapply IHa|right; by eapply IHb].
  - assert (∀ n, (length l <= n)%nat → is_Some (star_loop (go a) g n st l k)) as H; [|by apply H].
    intros n Hn. remember (Star g a) as r eqn:Hr. revert n Hn. induction Hm as [| | | |g' a' st l|g' a' st l st1 l1 st2 l2 Ha _ Hlt _ IH| | | |];
      try discriminate; injection Hr as -> ->; intros n Hn.
    + destruct n, g; cbn [star_loop]; apply or_else_is_Some; auto.
    + destruct n as [|n]; [destruct l; cbn in *; lia|]. assert (is_Some (go a st l (λ start' l',
        if (length l' <? length l)%nat then star_loop (go a) g n start' l' k else None))) as Hs.
      { eapply IHa; [done|]. rewrite (proj2 (Nat.ltb_lt _ _) Hlt). apply IH; [done|done|lia]. }
      cbn [star_loop]. destruct g; apply or_else_is_Some; auto.
  - apply or_else_is_Some. inversion Hm; subst; [by right|left; by eapply IHa].
  - by inversion Hm; subst.
  - inversion Hm as [| | | | | | | | |? ? Hl]; subst. destruct Hl as [->| ->]; done.
Qed.
End meaning.

(** A text has a match: there is a position in it, the first of the string or a later one. *)
Definition position (s : chars) (st : bool) (l : chars) : Prop := ∃ a, s = a ++ l ∧ st = bool_decide (a = []).
Lemma regex_search_spec r s : search r s = true ↔ ∃ st l st' l', position (of_string s) st l ∧ matches r st l st' l'.
Proof.
  unfold search. rewrite bool_decide_eq_true.
  assert (∀ st l, is_Some (first_match r st l (λ _ _, Some ())) ↔
    (∃ st' l', matches r st l st' l') ∨ ∃ c a l1 st' l', l = c :: a ++ l1 ∧ matches r false l1 st' l') as H.
  { intros st l. revert st. induction l as [|c l IH]; intros st; cbn [first_match]; rewrite or_else_is_Some.
    - split; [intros [[x (st' & l' & Hm & _)%go_sound]|[? [=]]]; eauto|].
      intros [(st' & l' & Hm)|(c & a & l1 & st' & l' & [=] & _)]. left. by eapply go_complete.
    - rewrite IH. split.
      + intros [[x (st' & l' & Hm & _)%go_sound]|[(st' & l' & Hm)|(d & a & l1 & st' & l' & -> & Hm)]];
          [by eauto|right; by exists c, [], l, st', l'|right; by exists c, (d :: a), l1, st', l'].
      + intros [(st' & l' & Hm)|(d & a & l1 & st' & l' & [= <- ->] & Hm)]; [left; by eapply go_complete|right].
        destruct a as [|d a]; [left; eauto|]. right. by exists d, a, l1, st', l'. }
  rewrite H. split.
  - intros [(st' & l' & Hm)|(c & a & l1 & st' & l' & Hl & Hm)].
    + exists true, (of_string s), st', l'. split; [by exists []|done].
    + exists false, l1, st', l'. split; [by exists (c :: a)|done].
  - intros (st & l & st' & l' & ([|c a] & -> & ->) & Hm); [left; eauto|]. right. by exists c, a, l, st', l'.
Qed.

Lemma find_from_elem r fuel st l s : s ∈ find_from r fuel st l →
  ∃ st1 l1 l2, go r st1 l1 (λ _ l', Some l') = Some l2 ∧ s = to_string (take (length l1 - length l2) l1) ∧ l1 `suffix_of` l.
Proof.
  revert st l. induction fuel as [|fuel IH]; intros st l; cbn [find_from]; [by intros ?%elem_of_nil|].
  destruct (go r st l _) as [l2|] eqn:Hg.
  - intros [->|(st1 & l1 & l3 & H & Hs & Hsuf)%IH]%elem_of_cons; [by exists st, l, l2|]. exists st1, l1, l3. split_and!; [done..|].
    etrans; [exact Hsuf|]. apply go_sound in Hg as (st' & l' & Hm & [= <-]). clear -Hm. induction Hm; try done.
    + by apply suffix_cons_r.
    + by etrans.
    + by etrans.
  - destruct l as [|c l]; [by intros ?%elem_of_nil|]. intros (st1 & l1 & l2 & H & Hs & Hsuf)%IH. exists st1, l1, l2.
    split_and!; [done..|by apply suffix_cons_r].
Qed.

(** Examples, against the patterns of the code. *)
Definition python_files : regex := Cat (many (Cls (λ c, word_char c || char_in "./-" c))) (literal ".py").
Example findall_paths : findall python_files "fix a/b.py, c.pyc and .py x.py.py" = ["a/b.py"; "c.py"; "x.py.py"].
Proof. vm_compute. reflexivity. Qed.
Definition path_mentions : regex :=
  let seg := many (Cls (λ c, word_char c || char_in ".-" c)) in Cat (many (Cat seg (literal "/"))) (Cat seg (literal ".py")).
Example findall_mentions : findall path_mentions "see a//b/c.py/d ../x.py y.py" = ["b/c.py"; "../x.py"].
Proof. vm_compute. reflexivity. Qed.
