(* ===== verification/Planner.v ===== *)
(** * Planner: the task graphs that missions start with

    mission/planner.py and mission/teams.py: the fixed graph of a software mission, and the
    graph of a team whose size follows the goal.  What an inspection of the repository finds is
    an argument ([RepoInspection]; [inspect_repo] reads the file system and runs git).  Ids and
    clock readings advance a counter: [hex n] is the n-th [uuid4().hex], [clock n] the n-th
    reading.  Fields of a task that [TaskSpec] of [Contracts] leaves out are in [PlannedTask].

    [planned_missions_start]: the controller commits either graph exactly if the mission has the
    repository scope and room for its nodes; [teams_are_bounded] and [team_graph_has_stages]: the
    size of a team and the order its graph imposes. *)
From S2P Require Import Prelude Collections Contracts PyFloat Profiles Authority Scheduler Graph Controller ControllerProps Json JsonText Models Regex.
From Stdlib Require Import Ascii.
Open Scope Z_scope.

(** ** Data *)
Module RiskLevel.
Inductive RiskLevel : Type := LOW | MEDIUM | HIGH | CRITICAL.
#[export] Instance RiskLevel_eq_dec : EqDecision RiskLevel.
Proof. solve_decision. Defined.
End RiskLevel.
Abbreviation RiskLevel := RiskLevel.RiskLevel.
Record SizeFeatures := mkSize {
  sf_file_count : Z;
  sf_dependency_depth : Z;
  sf_tool_steps_estimate : Z;
  sf_risk_level : RiskLevel;
  sf_language : string;
  sf_source_complexity : string
}.
Record PlannedTask := mkPlanned {
  pt_spec : TaskSpec;
  pt_size_features : SizeFeatures;
  pt_inputs : dict json;
  pt_output_schema_id : string;
  pt_acceptance_check_ids : list string;
  pt_role_hint : string;
  pt_attempt_limit : Z
}.
Record RepoInspection := mkInspection {
  ri_root : string;
  ri_git_head : option string;
  ri_has_pyproject : bool;
  ri_has_tests : bool;
  ri_top_entries : list string;
  ri_notes : list string
}.
Definition json_of_option (o : option string) : json := match o with Some s => JStr s | None => JNull end.
Definition inspection_dict (i : RepoInspection) : json :=
  JObj [("root", JStr (ri_root i)); ("git_head", json_of_option (ri_git_head i)); ("has_pyproject", JBool (ri_has_pyproject i));
        ("has_tests", JBool (ri_has_tests i)); ("top_entries", JList (JStr <$> ri_top_entries i)); ("notes", JList (JStr <$> ri_notes i))].

Section planner.
Context (hex : nat → string) (clock : nat → Z).
Abbreviation D := (M nat).
Definition new_id (prefix : string) : D string := λ n, (Ok (prefix +:+ hex n), S n).
Definition utc_now : D Z := λ n, (Ok (clock n), S n).

(** ** A software mission and its graph *)
Definition build_software_mission (goal project_id : string) : D Mission :=
  id ← new_id "";
  trace_id ← new_id "tr_";
  now ← utc_now;
  mret (mkMission "1.0" id now (trim project_id) trace_id None (trim goal)
    ["Structured task graph executed with dependency order"; "Workers ran in isolated git worktrees";
     "Verification commands executed against real files"; "Mission report persisted with cost accounting"]
    ["repo_read"; "repo_edit"; "local_command"; "local_inference"] ["scope_repo"] "rp_v0_1_local"
    1800 16 4 24 (Some 200000) MissionStatus.DRAFT 1 0 None).

Definition planned (mission : Mission) (size : SizeFeatures) (id objective family : string) (inputs : dict json)
    (schema : string) (checks deps : list string) (role : string) (caps : list string) (attempt_limit priority : Z) : D PlannedTask :=
  now ← utc_now;
  mret (mkPlanned (mkTaskSpec id (ms_project_id mission) (ms_id mission) (isoformat now) None objective family deps ["scope_repo"]
    priority TaskStatus.PROPOSED caps) size inputs schema checks role attempt_limit).
Definition proposed (mission : Mission) (tasks : list PlannedTask) : D GraphProposal :=
  proposal_id ← new_id "gp_";
  mret (mkGraphProposal proposal_id (ms_id mission) (ms_revision mission) GraphOperation.SPAWN (pt_spec <$> tasks)).

Definition plan_task_graph (mission : Mission) (inspection : RepoInspection) : D (GraphProposal * list PlannedTask) :=
  inspect_id ← new_id "tsk_";
  implement_id ← new_id "tsk_";
  verify_id ← new_id "tsk_";
  review_id ← new_id "tsk_";
  let size := mkSize (Z.of_nat (length (ri_top_entries inspection))) 3 8 RiskLevel.MEDIUM "python" "repo_mission" in
  let goal := ("goal", JStr (ms_objective mission)) in
  inspect ← planned mission size inspect_id "Inspect repository layout and identify files to change for the goal" "inspect"
    [goal; ("inspection", inspection_dict inspection)] "schema_inspect_findings" ["findings_nonempty"] [] "inspector" ["repo_read"] 2 10;
  implement ← planned mission size implement_id "Implement the required change in an isolated worktree" "implement" [goal]
    "schema_patch" ["diff_nonempty"] [inspect_id] "implementer" ["repo_read"; "repo_edit"; "local_inference"] 3 20;
  verify ← planned mission size verify_id "Run configured verification (tests/lint) in the worker worktree" "verify" []
    "schema_verify" ["commands_recorded"] [implement_id] "verifier" ["local_command"] 3 30;
  review ← planned mission size review_id "Review diff, synthesize outcome, and accept or request repair" "review" []
    "schema_review" ["decision_recorded"] [verify_id] "reviewer" ["repo_read"] 2 40;
  let tasks := [inspect; implement; verify; review] in
  proposal ← proposed mission tasks;
  mret (proposal, tasks).

(** ** Teams *)
Definition ROLE_CAPS (role : string) : list string :=
  if bool_decide (role = "worker") then ["repo_read"; "repo_edit"; "local_inference"; "local_command"] else ["repo_read"; "local_inference"].
Record TeamRole := mkRole { tr_role : string; tr_count : Z; tr_task_family : string; tr_rationale : string }.
Record DynamicTeamPlan := mkTeam {
  tp_mission_id : string;
  tp_complexity_score : Z;
  tp_roles : list TeamRole;
  tp_max_agents : Z;
  tp_rationale : string;
  tp_signals : dict json
}.
Definition agent_count (t : DynamicTeamPlan) : Z := foldr Z.add 0 (tr_count <$> tp_roles t).
Definition role_dict (r : TeamRole) : json :=
  JObj [("role", JStr (tr_role r)); ("count", JInt (tr_count r)); ("task_family", JStr (tr_task_family r)); ("rationale", JStr (tr_rationale r))].
Definition team_dict (t : DynamicTeamPlan) : json :=
  JObj [("mission_id", JStr (tp_mission_id t)); ("complexity_score", JInt (tp_complexity_score t)); ("max_agents", JInt (tp_max_agents t));
        ("agent_count", JInt (agent_count t)); ("roles", JList (role_dict <$> tp_roles t)); ("rationale", JStr (tp_rationale t));
        ("signals", JObj (tp_signals t))].

(** [sorted(set(re.findall(...)))]. *)
Definition named_files (goal : string) : list string := sort_by str_leb (remove_dups (findall python_files goal)).
Definition mentions (words : list string) (goal : string) : bool := existsb (λ w, contains w goal) words.
Definition set_if (b : bool) (k : string) (v : json) (d : dict json) : dict json := if b then dict_set d k v else d.
Definition estimate_complexity (goal : string) (inspection : RepoInspection) : Z * dict json :=
  let g := to_lower goal in
  let scale := mentions ["refactor"; "migrate"; "multi"; "scale"; "parallel"; "swarm"] g in
  let quality := mentions ["test"; "verify"; "review"; "audit"] g in
  let files := named_files goal in
  let named := negb (bool_decide (files = [])) in
  let dogfood := mentions ["selfdev_issue"; "off-by-one"] g in
  let score := 2 + (if 120 <? Z.of_nat (length (of_string goal)) then 1 else 0) + (if scale then 2 else 0) + (if quality then 1 else 0)
    + (if ri_has_tests inspection then 1 else 0) + (if ri_has_pyproject inspection then 1 else 0)
    + (if named then Z.min 3 (Z.of_nat (length files)) else 0) in
  let score := if dogfood then Z.max score 3 else score in
  let signals := [("goal_len", JInt (Z.of_nat (length (of_string goal)))); ("top_entries", JInt (Z.of_nat (length (ri_top_entries inspection))))] in
  let signals := set_if scale "scale_keywords" (JBool true) signals in
  let signals := set_if quality "quality_keywords" (JBool true) signals in
  let signals := set_if (ri_has_tests inspection) "has_tests" (JBool true) signals in
  let signals := set_if named "named_files" (JList (JStr <$> take 12 files)) signals in
  let signals := set_if dogfood "dogfood_target" (JBool true) signals in
  (Z.max 1 (Z.min 10 score), signals).

(** [while total > max_agents and n > floor: n -= 1; total -= 1]; [fuel] is at least [n - floor]. *)
Fixpoint shrink (fuel : nat) (max_agents floor n total : Z) : Z * Z :=
  match fuel with
  | O => (n, total)
  | S fuel => if (max_agents <? total) && (floor <? n) then shrink fuel max_agents floor (n - 1) (total - 1) else (n, total)
  end.
(** The counts of specialists and workers. *)
Definition team_size (complexity named max_agents min_workers : Z) : Z * Z :=
  let workers := Z.min (Z.max min_workers (complexity / 2)) (Z.max 1 (max_agents / 2)) in
  let specialists := if 5 <=? complexity then 1 else 0 in
  let specialists := if named =? 0 then specialists
    else Z.min 2 (Z.max specialists (if named / 3 =? 0 then 1 else named / 3)) in
  let total := 1 + specialists + workers + 1 in
  let '(workers, total) := shrink (Z.to_nat workers) max_agents 1 workers total in
  let '(specialists, total) := shrink (Z.to_nat specialists) max_agents 0 specialists total in
  (specialists, workers).
Definition form_dynamic_team (mission : Mission) (inspection : RepoInspection) (max_agents min_workers : Z) : DynamicTeamPlan :=
  let '(complexity, signals) := estimate_complexity (ms_objective mission) inspection in
  let named := match dict_get signals "named_files" with Some (JList l) => Z.of_nat (length l) | _ => 0 end in
  let '(specialists, workers) := team_size complexity named max_agents min_workers in
  let roles := [mkRole "supervisor" 1 "supervise" "coordinate subteams and accept/reject branches"]
    ++ (if specialists =? 0 then [] else [mkRole "specialist" specialists "specialize" "domain analysis before worker fan-out"])
    ++ [mkRole "worker" workers "implement" (pretty workers +:+ " parallel/sequential workers for complexity=" +:+ pretty complexity);
        mkRole "reviewer" 1 "review" "independent review / consensus vote"] in
  let rationale := "Dynamic team for complexity=" +:+ pretty complexity +:+ ": "
    +:+ join ", " ((λ r, pretty (tr_count r) +:+ "×" +:+ tr_role r) <$> roles) +:+ " (cap=" +:+ pretty max_agents +:+ ")" in
  mkTeam (ms_id mission) complexity roles max_agents rationale signals.

(** ** The graph of a team *)
Record Lanes := mkLanes {
  ln_specialist_ids : list string;
  ln_worker_ids : list string;
  ln_review_ids : list string;
  ln_tasks : list PlannedTask
}.
(** One turn of the loop over the roles and their lanes. *)
Definition add_lane (mission : Mission) (size : SizeFeatures) (team : DynamicTeamPlan) (inspect_id : string)
    (role : TeamRole) (i : nat) (acc : Lanes) : D Lanes :=
  tid ← new_id "tsk_";
  let lane := pretty (Z.of_nat i + 1) in
  let add deps family objective caps priority :=
    planned mission size tid objective family
      [("goal", JStr (ms_objective mission)); ("team_role", JStr (tr_role role)); ("lane", JInt (Z.of_nat i + 1)); ("team_plan", team_dict team)]
      ("schema_" +:+ family) ["recorded"] deps (tr_role role) caps 2 priority in
  if bool_decide (tr_role role = "supervisor") then
    t ← add [inspect_id] "supervise" "Supervise team progress and record coordination notes" (ROLE_CAPS "supervisor") 15;
    mret (mkLanes (ln_specialist_ids acc) (ln_worker_ids acc) (ln_review_ids acc) (ln_tasks acc ++ [t]))
  else if bool_decide (tr_role role = "specialist") then
    t ← add [inspect_id] "specialize" ("Specialize analysis lane " +:+ lane +:+ " for the mission goal") (ROLE_CAPS "specialist") 18;
    mret (mkLanes (ln_specialist_ids acc ++ [tid]) (ln_worker_ids acc) (ln_review_ids acc) (ln_tasks acc ++ [t]))
  else if bool_decide (tr_role role = "worker") then
    t ← add ([inspect_id] ++ ln_specialist_ids acc) "implement" ("Worker lane " +:+ lane +:+ ": implement or validate assigned slice")
          (ROLE_CAPS "worker") (20 + Z.of_nat i);
    mret (mkLanes (ln_specialist_ids acc) (ln_worker_ids acc ++ [tid]) (ln_review_ids acc) (ln_tasks acc ++ [t]))
  else
    t ← add (match ln_worker_ids acc with [] => [inspect_id] | ids => ids end) "review"
          ("Reviewer " +:+ lane +:+ ": critique worker outputs and vote accept/reject") (ROLE_CAPS "reviewer") (40 + Z.of_nat i);
    mret (mkLanes (ln_specialist_ids acc) (ln_worker_ids acc) (ln_review_ids acc ++ [tid]) (ln_tasks acc ++ [t])).
Fixpoint add_lanes (mission : Mission) (size : SizeFeatures) (team : DynamicTeamPlan) (inspect_id : string)
    (lanes : list (TeamRole * nat)) (acc : Lanes) : D Lanes :=
  match lanes with
  | [] => mret acc
  | (role, i) :: rest => acc ← add_lane mission size team inspect_id role i acc; add_lanes mission size team inspect_id rest acc
  end.
Definition lanes_of (roles : list TeamRole) : list (TeamRole * nat) := roles ≫= λ r, (λ i, (r, i)) <$> seq 0 (Z.to_nat (tr_count r)).

Definition plan_dynamic_task_graph (mission : Mission) (inspection : RepoInspection) (max_agents : Z)
    : D (GraphProposal * list PlannedTask * DynamicTeamPlan) :=
  let team := form_dynamic_team mission inspection max_agents 1 in
  let size := mkSize (Z.of_nat (length (ri_top_entries inspection))) 4 (Z.max 8 (agent_count team * 2))
    (if tp_complexity_score team <? 7 then RiskLevel.MEDIUM else RiskLevel.HIGH) "python" "dynamic_team" in
  inspect_id ← new_id "tsk_";
  inspect ← planned mission size inspect_id "Inspect repository and publish shared findings for subteams" "inspect"
    [("goal", JStr (ms_objective mission)); ("inspection", inspection_dict inspection)] "schema_inspect_findings"
    ["findings_nonempty"] [] "inspector" ["repo_read"] 2 5;
  lanes ← add_lanes mission size team inspect_id (lanes_of (tp_roles team)) (mkLanes [] [] [] [inspect]);
  verify_id ← new_id "tsk_";
  verify ← planned mission size verify_id "Run verification commands after dynamic team execution" "verify" [] "schema_verify"
    ["commands_recorded"]
    (match ln_review_ids lanes, ln_worker_ids lanes with [], [] => [inspect_id] | [], ids => ids | ids, _ => ids end)
    "verifier" ["local_command"] 3 50;
  let tasks := ln_tasks lanes ++ [verify] in
  proposal ← proposed mission tasks;
  mret (proposal, tasks, team).
End planner.

(** ** Graphs listed in dependency order *)
(** Each task has a new id and depends on tasks listed before it. *)
Fixpoint layered (seen : list string) (specs : list TaskSpec) : Prop :=
  match specs with
  | [] => True
  | s :: rest => (ts_id s ∉ seen) ∧ (∀ d, d ∈ ts_dependency_ids s → d ∈ seen) ∧ layered (seen ++ [ts_id s]) rest
  end.
Lemma layered_app seen l1 l2 : layered seen (l1 ++ l2) ↔ layered seen l1 ∧ layered (seen ++ (ts_id <$> l1)) l2.
Proof.
  revert seen. induction l1 as [|s l1 IH]; intros seen; cbn; [rewrite app_nil_r; tauto|].
  rewrite IH, <- (assoc_L (++)). cbn. tauto.
Qed.
Lemma layered_nodup seen specs : NoDup seen → layered seen specs → NoDup (seen ++ (ts_id <$> specs)).
Proof.
  revert seen. induction specs as [|s specs IH]; intros seen Hnd; cbn; [by rewrite app_nil_r|]. intros (Hs & _ & Hl).
  replace (seen ++ ts_id s :: (ts_id <$> specs)) with ((seen ++ [ts_id s]) ++ (ts_id <$> specs)) by (by rewrite <- (assoc_L (++))).
  apply IH; [|done]. apply NoDup_app. split_and!; [done| |apply NoDup_singleton]. by intros x Hx ->%list_elem_of_singleton.
Qed.
Lemma layered_before seen specs s d : layered seen specs → s ∈ specs → d ∈ ts_dependency_ids s →
  ∃ i j : nat, (seen ++ (ts_id <$> specs)) !! i = Some (ts_id s) ∧ (seen ++ (ts_id <$> specs)) !! j = Some d ∧ (j < i)%nat.
Proof.
  revert seen. induction specs as [|t specs IH]; intros seen; [by intros _ ?%elem_of_nil|]. cbn. intros (_ & Hd & Hl) Hs Hdep.
  replace (seen ++ ts_id t :: (ts_id <$> specs)) with ((seen ++ [ts_id t]) ++ (ts_id <$> specs)) by (by rewrite <- (assoc_L (++))).
  apply elem_of_cons in Hs as [->|Hs]; [|by apply IH].
  apply Hd, list_elem_of_lookup_1 in Hdep as [j Hj]. exists (length seen), j. split_and!.
  - rewrite lookup_app_l by (rewrite length_app; cbn; lia). rewrite lookup_app_r by lia. by rewrite Nat.sub_diag.
  - apply lookup_lt_Some in Hj as Hlt. rewrite !lookup_app_l; [done|lia|rewrite length_app; cbn; lia].
  - by apply lookup_lt_Some in Hj.
Qed.
Lemma dep_graph_elem tasks specs x y : y ∈ deps_of (dep_graph tasks specs) x →
  (∃ s, s ∈ specs ∧ ts_id s = x ∧ y ∈ ts_dependency_ids s) ∨ ∃ t, dict_get tasks x = Some t ∧ y ∈ ts_dependency_ids t.
Proof.
  rewrite <- (task_graph_add id) by done. rewrite deps_of_task_graph. destruct (dict_get (add_tasks id tasks specs) x) as [t|] eqn:Ht; cbn.
  - intros Hy. apply add_tasks_lookup in Ht as [(s & Hs & <- & ->)|Ht]; [left|right]; eauto.
  - by intros ?%elem_of_nil.
Qed.
Lemma layered_acyclic specs : layered [] specs → _would_cycle (add_tasks id [] specs) specs = false.
Proof.
  intros Hl. apply not_true_iff_false. intros (x & Hx)%would_cycle_iff_cyclic.
  set (before := λ a b, ∃ i j : nat, (ts_id <$> specs) !! i = Some a ∧ (ts_id <$> specs) !! j = Some b ∧ (j < i)%nat).
  pose proof (layered_nodup [] specs (NoDup_nil_2) Hl) as Hnd. cbn in Hnd.
  assert (∀ a b, b ∈ deps_of (dep_graph (add_tasks id [] specs) specs) a → before a b) as Hedge.
  { intros a b [(s & Hs & <- & Hd)|(t & Ht & Hd)]%dep_graph_elem; [by apply (layered_before [] specs)|].
    apply add_tasks_lookup in Ht as [(s & Hs & <- & ->)|[=]]. by apply (layered_before [] specs). }
  assert (∀ a b, tc (λ a b, b ∈ deps_of (dep_graph (add_tasks id [] specs) specs) a) a b → before a b) as Htc.
  { induction 1 as [a b Hab|a b c Hab _ (j & k & Hj & Hk & Hlt)]; [by apply Hedge|].
    apply Hedge in Hab as (i & j' & Hi & Hj' & Hlt'). assert (j = j') as -> by (by eapply NoDup_lookup).
    exists i, k. split_and!; [done..|lia]. }
  destruct (Htc x x Hx) as (i & j & Hi & Hj & Hlt). assert (i = j) by (by eapply NoDup_lookup). lia.
Qed.
Lemma add_layered f seen (d : dict TaskSpec) specs : dict_keys d = seen → layered seen specs →
  add_tasks f d specs = d ++ ((λ s : TaskSpec, (ts_id s, f s)) <$> specs).
Proof.
  unfold add_tasks. revert seen d. induction specs as [|s specs IH]; intros seen d Hk; cbn; [by rewrite app_nil_r|]. intros (Hs & _ & Hl).
  assert (dict_set d (ts_id s) (f s) = d ++ [(ts_id s, f s)]) as Hset.
  { clear -Hk Hs. rewrite <- Hk in Hs. clear Hk. induction d as [|[k v] d IHd]; [done|]. cbn in *.
    apply not_elem_of_cons in Hs as [Hne Hs]. unfold dict_set in *. cbn. rewrite decide_False by done. f_equal. by apply IHd. }
  rewrite Hset, (IH (seen ++ [ts_id s])); [by rewrite <- (assoc_L (++))| |done]. rewrite <- Hk. unfold dict_keys. by rewrite fmap_app.
Qed.

(** ** Starting a mission *)
(** [submit_mission], [propose_graph_change] and [commit_validated_revision], as [MissionRuntime.run] calls them. *)
Definition start_mission (mission : Mission) (proposal : GraphProposal) : M Controller Z :=
  submit_mission mission;; propose_graph_change proposal;; commit_validated_revision (gp_proposal_id proposal).
(** The mission has the scope of the planned tasks. *)
Definition has_repo_scope (m : Mission) : bool := bool_decide (ms_data_scope_ids m = []) || bool_decide ("scope_repo" ∈ ms_data_scope_ids m).
(** A proposal that spawns tasks of the repository scope, listed in dependency order. *)
Record planned_for (m : Mission) (p : GraphProposal) : Prop := {
  pf_mission : gp_mission_id p = ms_id m;
  pf_revision : gp_based_on_revision p = ms_revision m;
  pf_operation : gp_operation p = GraphOperation.SPAWN;
  pf_scopes : Forall (λ s, ts_scopes s = ["scope_repo"]) (gp_task_specs p);
  pf_nonempty : gp_task_specs p ≠ [];
  pf_layered : layered [] (gp_task_specs p)
}.
Definition ready_tasks (p : GraphProposal) : dict TaskSpec := (λ s, (ts_id s, mark_ready s)) <$> gp_task_specs p.

Lemma first_scope m p : planned_for m p →
  is_Some (first_scope_error [] (to_set (ms_data_scope_ids m)) (gp_task_specs p)) ↔ has_repo_scope m = false.
Proof.
  intros [_ _ _ Hs Hne _].
  assert (∀ s, ts_scopes s = ["scope_repo"] → is_Some (scope_error [] (to_set (ms_data_scope_ids m)) s) ↔ has_repo_scope m = false) as H.
  { intros s Hs'. unfold scope_error. rewrite Hs'. assert (∀ l, existsb (λ dep, match dict_get [] dep with None => false
      | Some parent => bool_decide (to_set ["scope_repo"] ≠ ∅) && bool_decide (to_set (ts_scopes parent) ≠ ∅)
          && bool_decide (to_set ["scope_repo"] ∩ to_set (ts_scopes parent) = ∅) end) l = false) as -> by (by induction l).
    assert (to_set ["scope_repo"] = {["scope_repo"]}) as -> by (unfold to_set; set_solver). unfold has_repo_scope, to_set.
    destruct (ms_data_scope_ids m) as [|x l]; [cbn; split; [by intros []|done]|].
    rewrite (bool_decide_false (_ :: _ = [])) by done. cbn [orb]. set (S := list_to_set (x :: l) : gset string).
    assert (S ≠ ∅) as HS by (unfold S; set_solver). rewrite (bool_decide_true (S ≠ ∅)) by done.
    destruct (decide ("scope_repo" ∈ x :: l)) as [Hin|Hin].
    - assert ({["scope_repo"]} ⊆ S) by (unfold S; set_solver). rewrite (bool_decide_true (_ ⊆ S)), (bool_decide_true (_ ∈ _)) by done. cbn.
      split; [by intros []|done].
    - assert (¬ {["scope_repo"]} ⊆ S) by (unfold S; set_solver). assert ({["scope_repo"]} ∩ S = ∅) by (unfold S; set_solver).
      rewrite (bool_decide_false (_ ⊆ S)), (bool_decide_true (_ = ∅)), (bool_decide_false (_ ∈ _)) by done. cbn. split; [done|]. by eexists. }
  destruct (gp_task_specs p) as [|s specs]; [done|]. clear Hne. revert s Hs. induction specs as [|s' specs IH]; intros s Hs;
    apply Forall_cons in Hs as [Hs Hall]; pose proof (H s Hs) as H1; cbn [first_scope_error].
  - destruct (scope_error _ _ s); [done|]. rewrite <- H1. done.
  - destruct (scope_error _ _ s) as [e|]; [rewrite <- H1; split; by eexists|]. by apply IH.
Qed.
Lemma no_duplicates specs projected : project [] projected specs = inr (add_tasks id projected specs).
Proof. revert projected. induction specs as [|s specs IH]; intros projected; [done|]. cbn. apply IH. Qed.

Lemma validate_planned m p : planned_for m p →
  let v := validate_proposal p [] (ms_revision m) (to_set (ms_data_scope_ids m)) (ms_max_graph_nodes m) in
  if has_repo_scope m && (Z.of_nat (length (gp_task_specs p)) <=? ms_max_graph_nodes m)
  then v = accept "spawn_ok" else ∃ why, v = reject why.
Proof.
  intros Hp. pose proof (first_scope m p Hp) as Hs. destruct Hp as [_ Hrev Hop _ _ Hl]. unfold validate_proposal. cbv zeta.
  rewrite Hrev, Z.eqb_refl, Hop. cbn [negb]. rewrite bool_decide_false by done.
  destruct (first_scope_error _ _ _) as [e|].
  - rewrite (proj1 Hs) by by eexists. cbn. by eexists.
  - destruct (has_repo_scope m); [|by destruct (proj2 Hs eq_refl)]. assert (is_spawn GraphOperation.SPAWN = true) as -> by done.
    rewrite no_duplicates, layered_acyclic by done. rewrite (add_layered id [] [] _ eq_refl Hl). cbn [app]. rewrite length_fmap, Z.ltb_antisym.
    cbn [andb]. destruct (_ <=? _); cbn; [done|by eexists].
Qed.
Lemma empty_setdefault c mid : task_map c mid = [] →
  task_map (c <| mc_tasks := dict_setdefault (mc_tasks c) mid [] |>) mid = [].
Proof.
  unfold task_map, dict_setdefault. cbn. destruct (dict_get (mc_tasks c) mid) eqn:E; [by rewrite E|]. by rewrite dict_get_set_eq.
Qed.
Lemma commit_planned c pid p m : dict_get (mc_proposals c) pid = Some p → dict_get (mc_missions c) (gp_mission_id p) = Some m →
  task_map c (ms_id m) = [] → planned_for m p →
  let '(r, c') := commit_validated_revision pid c in
  if has_repo_scope m && (Z.of_nat (length (gp_task_specs p)) <=? ms_max_graph_nodes m)
  then r = Ok (ms_revision m + 1) ∧ task_map c' (ms_id m) = ready_tasks p
  else (∃ why, r = Err (ValueError why)) ∧ task_map c' (ms_id m) = [].
Proof.
  intros Hp Hm Hc Hpl. unfold commit_validated_revision. erewrite bind_run by reflexivity. rewrite Hp. erewrite bind_run by reflexivity.
  rewrite Hm. do 3 (erewrite bind_run by reflexivity). apply empty_setdefault in Hc. rewrite Hc. cbv zeta.
  erewrite bind_run by reflexivity. pose proof (validate_planned m p Hpl) as Hv. cbv zeta in Hv.
  destruct (has_repo_scope m && _).
  - rewrite Hv. cbn [accept vr_accepted negb]. rewrite (pf_operation _ _ Hpl).
    change (is_spawn GraphOperation.SPAWN) with true. cbv iota. erewrite bind_run by reflexivity. split; [done|].
    unfold task_map. cbn [bump_revision]. unfold mbind, M_bind, modify, mret, M_ret. cbn. rewrite dict_get_set_eq. cbn.
    by rewrite (add_layered mark_ready [] [] _ eq_refl (pf_layered _ _ Hpl)).
  - destruct Hv as [why ->]. split; [by eexists|exact Hc].
Qed.
Lemma start_run mission p c : planned_for mission p → task_map c (ms_id mission) = [] →
  let '(r, c') := start_mission mission p c in
  if has_repo_scope mission && (Z.of_nat (length (gp_task_specs p)) <=? ms_max_graph_nodes mission)
  then r = Ok (ms_revision mission + 1) ∧ task_map c' (ms_id mission) = ready_tasks p
  else (∃ why, r = Err (ValueError why)) ∧ task_map c' (ms_id mission) = [].
Proof.
  intros Hp Hc. unfold start_mission. do 2 (erewrite bind_run by reflexivity).
  match goal with |- context [commit_validated_revision ?pid ?x] =>
    assert (dict_get (mc_proposals x) pid = Some p) as H1 by (cbn; apply dict_get_set_eq);
    assert (dict_get (mc_missions x) (gp_mission_id p) = Some (mission <| ms_status := MissionStatus.PLANNING |>)) as H2
      by (cbn; rewrite (pf_mission _ _ Hp); apply dict_get_set_eq);
    assert (task_map x (ms_id mission) = []) as H3 by exact (empty_setdefault c _ Hc);
    assert (planned_for (mission <| ms_status := MissionStatus.PLANNING |>) p) as H4 by (by destruct Hp);
    pose proof (commit_planned x pid p _ H1 H2 H3 H4) as H; destruct (commit_validated_revision pid x) as [r c']
  end.
  exact H.
Qed.

(** ** What the planners list *)
Section planned.
Context (hex : nat → string) (clock : nat → Z).
Hypothesis hex_inj : Inj (=) (=) hex.
(** Task ids drawn before the counter was [n]. *)
Definition drawn (n : nat) (ids : list string) : Prop := ∀ x, x ∈ ids → ∃ j, (j < n)%nat ∧ x = "tsk_" +:+ hex j.
Lemma drawn_fresh n ids : drawn n ids → "tsk_" +:+ hex n ∉ ids.
Proof. intros H (j & Hj & Heq)%H. apply (inj (String.app "tsk_")), hex_inj in Heq. lia. Qed.
Lemma drawn_snoc n m ids : drawn n ids → (n < m)%nat → drawn m (ids ++ ["tsk_" +:+ hex n]).
Proof. intros H Hlt x [(j & Hj & ->)%H| ->%list_elem_of_singleton]%elem_of_app; [exists j|exists n]; split; lia || done. Qed.

Definition scoped (tasks : list PlannedTask) : Prop := Forall (λ t, ts_scopes (pt_spec t) = ["scope_repo"]) tasks.
Lemma proposal_planned mission tasks n p : (proposed hex mission tasks n).1 = Ok p →
  tasks ≠ [] → scoped tasks → layered [] (pt_spec <$> tasks) → planned_for mission p ∧ gp_task_specs p = pt_spec <$> tasks.
Proof.
  intros [= <-] Hne Hs Hl. split; [|done]. constructor; try done; cbn.
  - by apply Forall_fmap.
  - by destruct tasks.
Qed.

Lemma software_graph mission inspection n : ∃ proposal tasks n',
  plan_task_graph hex clock mission inspection n = (Ok (proposal, tasks), n') ∧ planned_for mission proposal
  ∧ gp_task_specs proposal = pt_spec <$> tasks
  ∧ (λ t, (ts_task_family (pt_spec t), ts_priority (pt_spec t))) <$> tasks = [("inspect", 10); ("implement", 20); ("verify", 30); ("review", 40)]
  ∧ pt_inputs <$> tasks = [[("goal", JStr (ms_objective mission)); ("inspection", inspection_dict inspection)]; [("goal", JStr (ms_objective mission))]; []; []].
Proof.
  do 3 eexists. split; [unfold plan_task_graph; cbv zeta; repeat (erewrite bind_run by reflexivity); reflexivity|]. split; [|by split].
  assert (∀ i j, i ≠ j → "tsk_" +:+ hex i ≠ "tsk_" +:+ hex j) as Hne by (intros i j Hij H; apply Hij; by apply (inj (String.app "tsk_")), hex_inj in H).
  constructor; try done.
  - by repeat constructor.
  - cbn -[String.app]. rewrite !not_elem_of_cons. split_and!; try (apply Hne; lia); try apply not_elem_of_nil; try done;
      intros d Hd; by repeat (apply elem_of_cons in Hd as [->|Hd]; [set_solver|]); by apply elem_of_nil in Hd.
Qed.

(** The lanes of one role. *)
Definition extend (role : string) (ids : list string) (new : list PlannedTask) (acc : Lanes) : Lanes :=
  mkLanes (if bool_decide (role = "specialist") then ln_specialist_ids acc ++ ids else ln_specialist_ids acc)
    (if bool_decide (role = "worker") then ln_worker_ids acc ++ ids else ln_worker_ids acc)
    (if bool_decide (role = "reviewer") then ln_review_ids acc ++ ids else ln_review_ids acc) (ln_tasks acc ++ new).
Definition lane_deps (role inspect_id : string) (acc : Lanes) : list string :=
  if bool_decide (role = "worker") then [inspect_id] ++ ln_specialist_ids acc
  else if bool_decide (role = "reviewer") then match ln_worker_ids acc with [] => [inspect_id] | ids => ids end
  else [inspect_id].
Definition ids_of (tasks : list PlannedTask) : list string := (ts_id ∘ pt_spec) <$> tasks.
Record lane_of (role : string) (deps : list string) (t : PlannedTask) : Prop := {
  la_role : pt_role_hint t = role;
  la_deps : ts_dependency_ids (pt_spec t) = deps;
  la_scopes : ts_scopes (pt_spec t) = ["scope_repo"]
}.
Definition a_role (role : string) : Prop := role ∈ ["supervisor"; "specialist"; "worker"; "reviewer"].
Lemma lane_run mission size team inspect_id role i acc n : a_role (tr_role role) →
  ∃ t, add_lane hex clock mission size team inspect_id role i acc n = (Ok (extend (tr_role role) ["tsk_" +:+ hex n] [t] acc), S (S n))
    ∧ ts_id (pt_spec t) = "tsk_" +:+ hex n ∧ lane_of (tr_role role) (lane_deps (tr_role role) inspect_id acc) t.
Proof.
  unfold a_role. rewrite !elem_of_cons. intros [H|[H|[H|[H|H%elem_of_nil]]]]; [..|done]; unfold add_lane, extend, lane_deps; rewrite H; cbn [bool_decide];
    (eexists; split; [reflexivity|]; by split).
Qed.
Lemma lane_deps_extend role inspect_id ids new acc : lane_deps role inspect_id (extend role ids new acc) = lane_deps role inspect_id acc.
Proof. unfold lane_deps, extend. cbn. by destruct (decide (role = "worker")) as [->|]; [|rewrite !(bool_decide_false (role = "worker")) by done]. Qed.
Lemma lanes_run mission size team inspect_id role k c acc n : a_role (tr_role role) →
  ∃ new, add_lanes hex clock mission size team inspect_id ((λ i, (role, i)) <$> seq k c) acc n
      = (Ok (extend (tr_role role) (ids_of new) new acc), (n + 2 * c)%nat)
    ∧ ids_of new = (λ i, "tsk_" +:+ hex (n + 2 * i)%nat) <$> seq 0 c
    ∧ Forall (lane_of (tr_role role) (lane_deps (tr_role role) inspect_id acc)) new.
Proof.
  intros Hr. revert k acc n. induction c as [|c IH]; intros k acc n.
  { exists []. split; [|by split]. cbn. unfold extend. rewrite !app_nil_r, Nat.add_0_r. unfold mret, M_ret. by repeat case_bool_decide; destruct acc. }
  destruct (lane_run mission size team inspect_id role k acc n Hr) as (t & Ht & Hid & Hlane).
  destruct (IH (S k) (extend (tr_role role) ["tsk_" +:+ hex n] [t] acc) (S (S n))) as (new & Hnew & Hids & Hall).
  exists (t :: new). split_and!.
  - cbn [seq fmap list_fmap add_lanes]. erewrite bind_run by exact Ht. rewrite Hnew. f_equal; [|lia]. f_equal. unfold extend, ids_of. cbn.
    rewrite Hid. repeat case_bool_decide; by rewrite <- !(assoc_L (++)).
  - change (ids_of (t :: new)) with (ts_id (pt_spec t) :: ids_of new). rewrite Hid, Hids. cbn [seq fmap list_fmap].
    rewrite Nat.mul_0_r, Nat.add_0_r. f_equal. rewrite <- seq_shift, <- list_fmap_compose. apply list_fmap_ext.
    intros i x _. cbn. do 2 f_equal. lia.
  - constructor; [done|]. by rewrite lane_deps_extend in Hall.
Qed.

(** The tasks of a team's graph, by role. *)
Definition of_role (role : string) (tasks : list PlannedTask) : list PlannedTask := List.filter (λ t, bool_decide (pt_role_hint t = role)) tasks.
Lemma of_role_app role l1 l2 : of_role role (l1 ++ l2) = of_role role l1 ++ of_role role l2.
Proof. apply List.filter_app. Qed.
Lemma of_role_all role deps l role' : Forall (lane_of role deps) l → of_role role' l = if bool_decide (role = role') then l else [].
Proof.
  intros H. induction H as [|t l [Hr _ _] _ IH]; [by destruct (bool_decide _)|].
  unfold of_role in *. cbn. rewrite IH, Hr. by case_bool_decide.
Qed.
Lemma lanes_layered seen deps n c new role : drawn n seen → (∀ d, d ∈ deps → d ∈ seen) →
  ids_of new = (λ i, "tsk_" +:+ hex (n + 2 * i)%nat) <$> seq 0 c → Forall (lane_of role deps) new →
  layered seen (pt_spec <$> new) ∧ drawn (n + 2 * c) (seen ++ ids_of new).
Proof.
  revert seen n new. induction c as [|c IH]; intros seen n [|t new]; try done.
  - intros Hd _ _ _. split; [done|]. cbn. by rewrite app_nil_r, Nat.add_0_r.
  - intros Hd Hsub Hids [[_ Hdeps _] Hall]%Forall_cons. unfold ids_of in Hids. cbn in Hids. rewrite Nat.add_0_r in Hids. injection Hids as Hid Hids.
    destruct (IH (seen ++ [ts_id (pt_spec t)]) (S (S n)) new) as [Hl Hdr].
    + rewrite Hid. apply (drawn_snoc n); [|lia]. exact Hd.
    + intros d Hin. apply elem_of_app. left. by apply Hsub.
    + unfold ids_of. change (list_fmap PlannedTask string (ts_id ∘ pt_spec) new) with ((ts_id ∘ pt_spec) <$> new) in Hids. rewrite Hids.
      rewrite <- seq_shift, <- list_fmap_compose. apply list_fmap_ext. intros i x _. cbn. do 2 f_equal. lia.
    + done.
    + split.
      * cbn. split_and!; [rewrite Hid; by apply drawn_fresh|rewrite Hdeps; exact Hsub|exact Hl].
      * intros x Hx. replace (n + 2 * S c)%nat with (S (S n) + 2 * c)%nat by lia. apply Hdr. by rewrite <- (assoc_L (++)).
Qed.

Lemma add_lanes_app mission size team inspect_id l1 l2 acc n acc' n' :
  add_lanes hex clock mission size team inspect_id l1 acc n = (Ok acc', n') →
  add_lanes hex clock mission size team inspect_id (l1 ++ l2) acc n = add_lanes hex clock mission size team inspect_id l2 acc' n'.
Proof.
  revert acc n. induction l1 as [|[r i] l1 IH]; intros acc n; cbn [app add_lanes]; [by intros [= -> ->]|].
  unfold mbind, M_bind. destruct (add_lane _ _ _ _ _ _ _ _ _ _) as [[a|e] s1]; [apply IH|done].
Qed.
End planned.

(** ** The size of a team *)
Lemma shrink_spec fuel cap floor n total : floor <= n → n - floor <= Z.of_nat fuel →
  let '(n', total') := shrink fuel cap floor n total in
  floor <= n' <= n ∧ total' - n' = total - n ∧ (cap < total' → n' = floor) ∧ (n' < n → cap <= total').
Proof.
  revert n total. induction fuel as [|fuel IH]; intros n total Hn Hf; cbn [shrink]; [split_and!; lia|].
  destruct ((cap <? total) && (floor <? n)) eqn:Hb.
  - apply andb_true_iff in Hb as [H1 H2]. apply Z.ltb_lt in H1, H2. specialize (IH (n - 1) (total - 1)).
    destruct (shrink fuel cap floor (n - 1) (total - 1)) as [n' total']. destruct IH as (H3 & H4 & H5 & H6); [lia..|].
    split_and!; [lia..|exact H5|]. intros _. destruct (decide (n' < n - 1)); [by apply H6|lia].
  - apply andb_false_iff in Hb as [H|H]; apply Z.ltb_ge in H; split_and!; lia.
Qed.
Lemma team_size_spec complexity named cap min_workers : 2 <= complexity <= 10 → 0 <= named →
  let '(s, w) := team_size complexity named cap min_workers in
  0 <= s <= 2 ∧ 1 <= w <= Z.max 5 min_workers ∧ 2 + s + w <= Z.max 3 cap.
Proof.
  intros Hc Hn. unfold team_size.
  assert (1 <= complexity / 2 <= 5) as Hd by (split; [apply Z.div_le_lower_bound; lia|apply Z.div_le_upper_bound; lia]).
  set (w0 := Z.min _ _). set (s0 := if named =? 0 then _ else _).
  assert (1 <= w0 <= Z.max 5 min_workers) as Hw by (unfold w0; lia).
  assert (0 <= s0 <= 2) as Hs.
  { unfold s0. assert (0 <= named / 3) by (apply Z.div_pos; lia). destruct (named =? 0), (5 <=? complexity), (named / 3 =? 0) eqn:?; bool_to_prop; lia. }
  pose proof (shrink_spec (Z.to_nat w0) cap 1 w0 (1 + s0 + w0 + 1)) as H1.
  destruct (shrink (Z.to_nat w0) cap 1 w0 (1 + s0 + w0 + 1)) as [w1 t1]. destruct H1 as (Hw1 & Ht1 & Hf1 & _); [lia..|].
  pose proof (shrink_spec (Z.to_nat s0) cap 0 s0 t1) as H2.
  destruct (shrink (Z.to_nat s0) cap 0 s0 t1) as [s1 t2]. destruct H2 as (Hs1 & Ht2 & Hf2 & Hg2); [lia..|].
  split_and!; [lia..|]. destruct (decide (cap < t2)); [|lia]. rewrite (Hf2 ltac:(lia)) in *.
  destruct (decide (w1 = 1)); [lia|]. assert (¬ cap < t1) by (intros ?%Hf1; lia). lia.
Qed.

Lemma complexity_bounds goal inspection : 2 <= (estimate_complexity goal inspection).1 <= 10.
Proof.
  unfold estimate_complexity. cbn [fst]. set (b1 := 120 <? _). set (b2 := mentions _ _). set (b3 := mentions _ _).
  set (f := negb _). set (d := mentions _ _). set (n := Z.of_nat (length (named_files goal))). assert (0 <= n) by lia.
  destruct b1, b2, b3, f, d, (ri_has_tests inspection), (ri_has_pyproject inspection); lia.
Qed.
Definition team_counts (mission : Mission) (inspection : RepoInspection) (cap min_workers : Z) : Z * Z :=
  let '(complexity, signals) := estimate_complexity (ms_objective mission) inspection in
  team_size complexity (match dict_get signals "named_files" with Some (JList l) => Z.of_nat (length l) | _ => 0 end) cap min_workers.
Lemma team_shape mission inspection cap min_workers :
  let t := form_dynamic_team mission inspection cap min_workers in let '(s, w) := team_counts mission inspection cap min_workers in
  0 <= s <= 2 ∧ 1 <= w <= Z.max 5 min_workers ∧ 2 + s + w <= Z.max 3 cap
  ∧ tp_mission_id t = ms_id mission ∧ tp_max_agents t = cap ∧ 2 <= tp_complexity_score t <= 10
  ∧ (λ r, (tr_role r, tr_count r)) <$> tp_roles t
    = [("supervisor", 1)] ++ (if s =? 0 then [] else [("specialist", s)]) ++ [("worker", w); ("reviewer", 1)].
Proof.
  pose proof (complexity_bounds (ms_objective mission) inspection) as Hc. unfold form_dynamic_team, team_counts.
  destruct (estimate_complexity (ms_objective mission) inspection) as [cx signals]. cbn [fst] in Hc.
  set (named := match dict_get signals "named_files" with Some _ => _ | None => _ end).
  assert (0 <= named) as Hn by (unfold named; repeat case_match; lia).
  pose proof (team_size_spec cx named cap min_workers Hc Hn) as Ht. destruct (team_size cx named cap min_workers) as [s w].
  destruct Ht as (Hs & Hw & Hcap). cbv zeta.
  cbn [tp_roles tp_complexity_score tp_mission_id tp_max_agents]. split_and!; try done; try lia. by destruct (s =? 0).
Qed.

(** ** The graph of a team *)
(** What a task of a role depends on. *)
Definition stage_deps (tasks : list PlannedTask) (role : string) : list string :=
  let ids r := ids_of (of_role r tasks) in
  if bool_decide (role = "inspector") then []
  else if bool_decide (role = "worker") then ids "inspector" ++ ids "specialist"
  else if bool_decide (role = "reviewer") then ids "worker"
  else if bool_decide (role = "verifier") then ids "reviewer"
  else ids "inspector".
Definition lanes_for (r : TeamRole) (count : Z) : list (TeamRole * nat) := (λ i, (r, i)) <$> seq 0 (Z.to_nat count).
Lemma lanes_by_shape roles s w : 0 <= s →
  (λ r, (tr_role r, tr_count r)) <$> roles = [("supervisor", 1)] ++ (if s =? 0 then [] else [("specialist", s)]) ++ [("worker", w); ("reviewer", 1)] →
  ∃ r1 r2 r3 r4, lanes_of roles = lanes_for r1 1 ++ lanes_for r2 s ++ lanes_for r3 w ++ lanes_for r4 1
    ∧ tr_role r1 = "supervisor" ∧ tr_role r2 = "specialist" ∧ tr_role r3 = "worker" ∧ tr_role r4 = "reviewer".
Proof.
  intros Hs H.
  destruct (Z.eqb_spec s 0) as [->|Hne]; cbn in H.
  - destruct roles as [|r1 [|r3 [|r4 [|]]]]; try discriminate. injection H as H1 H1' H3 H3' H4 H4'.
    exists r1, (mkRole "specialist" 0 "" ""), r3, r4. split; [|by split_and!]. unfold lanes_of, lanes_for. cbn. by rewrite H1', H3', H4'.
  - destruct roles as [|r1 [|r2 [|r3 [|r4 [|]]]]]; try discriminate. injection H as H1 H1' H2 H2' H3 H3' H4 H4'.
    exists r1, r2, r3, r4. split; [|by split_and!]. unfold lanes_of, lanes_for. cbn. by rewrite H1', H2', H3', H4', app_nil_r.
Qed.
Record staged (s w : Z) (tasks : list PlannedTask) : Prop := {
  sg_deps : Forall (λ t, ts_dependency_ids (pt_spec t) = stage_deps tasks (pt_role_hint t)) tasks;
  sg_counts : (λ r, Z.of_nat (length (of_role r tasks))) <$> ["inspector"; "supervisor"; "specialist"; "worker"; "reviewer"; "verifier"]
    = [1; 1; s; w; 1; 1];
  sg_length : Z.of_nat (length tasks) = s + w + 4;
  sg_scopes : scoped tasks;
  sg_layered : layered [] (pt_spec <$> tasks)
}.

Section team_graph.
Context (hex : nat → string) (clock : nat → Z).
Hypothesis hex_inj : Inj (=) (=) hex.

Lemma team_lanes mission size team inspect_id roles s w acc n : 0 <= s → 1 <= w →
  (λ r, (tr_role r, tr_count r)) <$> roles = [("supervisor", 1)] ++ (if s =? 0 then [] else [("specialist", s)]) ++ [("worker", w); ("reviewer", 1)] →
  acc = mkLanes [] [] [] acc.(ln_tasks) →
  ∃ sup spec work rev n1 n2 n3 n4, add_lanes hex clock mission size team inspect_id (lanes_of roles) acc n
      = (Ok (mkLanes (ids_of spec) (ids_of work) (ids_of rev) (ln_tasks acc ++ sup ++ spec ++ work ++ rev)), n4)
    ∧ Forall (lane_of "supervisor" [inspect_id]) sup ∧ Forall (lane_of "specialist" [inspect_id]) spec
    ∧ Forall (lane_of "worker" (inspect_id :: ids_of spec)) work ∧ Forall (lane_of "reviewer" (ids_of work)) rev
    ∧ ids_of sup = (λ i, "tsk_" +:+ hex (n + 2 * i)%nat) <$> seq 0 1 ∧ n1 = (n + 2)%nat
    ∧ ids_of spec = (λ i, "tsk_" +:+ hex (n1 + 2 * i)%nat) <$> seq 0 (Z.to_nat s) ∧ n2 = (n1 + 2 * Z.to_nat s)%nat
    ∧ ids_of work = (λ i, "tsk_" +:+ hex (n2 + 2 * i)%nat) <$> seq 0 (Z.to_nat w) ∧ n3 = (n2 + 2 * Z.to_nat w)%nat
    ∧ ids_of rev = (λ i, "tsk_" +:+ hex (n3 + 2 * i)%nat) <$> seq 0 1 ∧ n4 = (n3 + 2)%nat.
Proof.
  intros Hs Hw Hshape Hacc. destruct (lanes_by_shape roles s w Hs Hshape) as (r1 & r2 & r3 & r4 & -> & H1 & H2 & H3 & H4).
  assert (∀ r role, tr_role r = role → a_role role → a_role (tr_role r)) as Ha by (by intros r ? ->).
  destruct (lanes_run hex clock mission size team inspect_id r1 0 1 acc n) as (sup & Hr1 & Hi1 & Ha1); [apply (Ha _ _ H1); unfold a_role; set_solver|].
  rewrite H1 in Hr1, Ha1. set (acc1 := extend _ _ _ _) in Hr1.
  destruct (lanes_run hex clock mission size team inspect_id r2 0 (Z.to_nat s) acc1 (n + 2 * 1)) as (spec & Hr2 & Hi2 & Ha2);
    [apply (Ha _ _ H2); unfold a_role; set_solver|]. rewrite H2 in Hr2, Ha2. set (acc2 := extend _ _ _ _) in Hr2.
  destruct (lanes_run hex clock mission size team inspect_id r3 0 (Z.to_nat w) acc2 (n + 2 * 1 + 2 * Z.to_nat s)) as (work & Hr3 & Hi3 & Ha3);
    [apply (Ha _ _ H3); unfold a_role; set_solver|]. rewrite H3 in Hr3, Ha3. set (acc3 := extend _ _ _ _) in Hr3.
  destruct (lanes_run hex clock mission size team inspect_id r4 0 1 acc3 (n + 2 * 1 + 2 * Z.to_nat s + 2 * Z.to_nat w)) as (rev & Hr4 & Hi4 & Ha4);
    [apply (Ha _ _ H4); unfold a_role; set_solver|]. rewrite H4 in Hr4, Ha4.
  exists sup, spec, work, rev. do 4 eexists. split_and!; try reflexivity.
  - unfold lanes_for. change (Z.to_nat 1) with 1%nat. rewrite (add_lanes_app hex clock _ _ _ _ _ _ _ _ _ _ Hr1).
    rewrite (add_lanes_app hex clock _ _ _ _ _ _ _ _ _ _ Hr2), (add_lanes_app hex clock _ _ _ _ _ _ _ _ _ _ Hr3), Hr4.
    unfold acc3, acc2, acc1, extend. rewrite Hacc. cbn. rewrite <- !(assoc_L (++)). done.
  - exact Ha1.
  - exact Ha2.
  - revert Ha3. unfold lane_deps, acc2, acc1, extend. rewrite Hacc. done.
  - revert Ha4. unfold lane_deps, acc3, acc2, acc1, extend. rewrite Hacc. cbn. destruct (ids_of work) as [|x l] eqn:Hwork; [|done].
    exfalso. apply (f_equal length) in Hi3. rewrite length_fmap, length_seq in Hi3. cbn in Hi3. lia.
  - exact Hi1.
  - by rewrite Hi2, Nat.mul_1_r.
  - by rewrite Hi3, Nat.mul_1_r.
  - by rewrite Hi4, Nat.mul_1_r.
Qed.

#[local] Ltac decide_roles :=
  repeat first [rewrite bool_decide_true by done | rewrite bool_decide_false by done]; cbn [app]; rewrite ?app_nil_r.
(** The parts of a team's graph, put together. *)
Lemma parts_staged (inspect verify : PlannedTask) sup spec work rev (s w : Z) m n n1 n2 n3 n4 k : 0 <= s → 1 <= w →
  let i := ts_id (pt_spec inspect) in
  i = "tsk_" +:+ hex m → (m < n)%nat → lane_of "inspector" [] inspect →
  Forall (lane_of "supervisor" [i]) sup → Forall (lane_of "specialist" [i]) spec →
  Forall (lane_of "worker" (i :: ids_of spec)) work → Forall (lane_of "reviewer" (ids_of work)) rev →
  ids_of sup = (λ j, "tsk_" +:+ hex (n + 2 * j)%nat) <$> seq 0 1 → n1 = (n + 2)%nat →
  ids_of spec = (λ j, "tsk_" +:+ hex (n1 + 2 * j)%nat) <$> seq 0 (Z.to_nat s) → n2 = (n1 + 2 * Z.to_nat s)%nat →
  ids_of work = (λ j, "tsk_" +:+ hex (n2 + 2 * j)%nat) <$> seq 0 (Z.to_nat w) → n3 = (n2 + 2 * Z.to_nat w)%nat →
  ids_of rev = (λ j, "tsk_" +:+ hex (n3 + 2 * j)%nat) <$> seq 0 1 → n4 = (n3 + 2)%nat →
  lane_of "verifier" (ids_of rev) verify → ts_id (pt_spec verify) = "tsk_" +:+ hex k → (n4 <= k)%nat →
  staged s w (([inspect] ++ sup ++ spec ++ work ++ rev) ++ [verify]).
Proof.
  intros Hs Hw i Hi Hm Hins Hsup Hspec Hwork Hrev I1 -> I2 E2 I3 E3 I4 E4 Hver Hv Hk.
  assert (∀ l ids, ids_of l = ids → length l = length ids) as Hlen by (intros l ids <-; unfold ids_of; by rewrite length_fmap).
  pose proof (Hlen _ _ I1) as L1. pose proof (Hlen _ _ I2) as L2. pose proof (Hlen _ _ I3) as L3. pose proof (Hlen _ _ I4) as L4.
  rewrite length_fmap, length_seq in L1, L2, L3, L4.
  set (tasks := ([inspect] ++ _) ++ _).
  assert (∀ role, of_role role tasks = (if bool_decide ("inspector" = role) then [inspect] else []) ++ (if bool_decide ("supervisor" = role) then sup else [])
    ++ (if bool_decide ("specialist" = role) then spec else []) ++ (if bool_decide ("worker" = role) then work else [])
    ++ (if bool_decide ("reviewer" = role) then rev else []) ++ (if bool_decide ("verifier" = role) then [verify] else [])) as Hof.
  { intros role. unfold tasks. rewrite !of_role_app, <- !(assoc_L (++)).
    rewrite (of_role_all _ _ [inspect] role (Forall_cons_2 _ _ _ Hins (Forall_nil_2 _))), (of_role_all _ _ sup role Hsup), (of_role_all _ _ spec role Hspec).
    by rewrite (of_role_all _ _ work role Hwork), (of_role_all _ _ rev role Hrev), (of_role_all _ _ [verify] role (Forall_cons_2 _ _ _ Hver (Forall_nil_2 _))). }
  assert (of_role "inspector" tasks = [inspect]) as O1 by (rewrite Hof; by decide_roles).
  assert (of_role "supervisor" tasks = sup) as O2 by (rewrite Hof; by decide_roles).
  assert (of_role "specialist" tasks = spec) as O3 by (rewrite Hof; by decide_roles).
  assert (of_role "worker" tasks = work) as O4 by (rewrite Hof; by decide_roles).
  assert (of_role "reviewer" tasks = rev) as O5 by (rewrite Hof; by decide_roles).
  assert (of_role "verifier" tasks = [verify]) as O6 by (rewrite Hof; by decide_roles).
  clear Hof. constructor.
  - assert (∀ role deps l, Forall (lane_of role deps) l → stage_deps tasks role = deps →
      Forall (λ t, ts_dependency_ids (pt_spec t) = stage_deps tasks (pt_role_hint t)) l) as Hstage.
    { intros role deps l Hl He. eapply Forall_impl; [exact Hl|]. intros t [-> -> _]. by rewrite He. }
    assert (∀ P (l1 l2 : list PlannedTask), Forall P l1 → Forall P l2 → Forall P (l1 ++ l2)) as Hsplit by (intros; by apply Forall_app).
    unfold tasks at 2. repeat apply Hsplit.
    + apply (Hstage "inspector" []); [by repeat constructor; apply Hins|done].
    + apply (Hstage "supervisor" [i]); [done|]. unfold stage_deps. rewrite O1. by decide_roles.
    + apply (Hstage "specialist" [i]); [done|]. unfold stage_deps. rewrite O1. by decide_roles.
    + apply (Hstage "worker" (i :: ids_of spec)); [done|]. unfold stage_deps. rewrite O1, O3. by decide_roles.
    + apply (Hstage "reviewer" (ids_of work)); [done|]. unfold stage_deps. rewrite O4. by decide_roles.
    + apply (Hstage "verifier" (ids_of rev)); [by repeat constructor; apply Hver|]. unfold stage_deps. rewrite O5. by decide_roles.
  - cbn [fmap list_fmap]. rewrite O1, O2, O3, O4, O5, O6, L1, L2, L3, L4. cbn [length]. by rewrite !Z2Nat.id by lia.
  - unfold tasks. rewrite !length_app, L1, L2, L3, L4. cbn. lia.
  - assert (∀ role deps l, Forall (lane_of role deps) l → scoped l) as Hscope by (intros role deps l Hl; eapply Forall_impl; [exact Hl|]; by intros t [_ _ ?]).
    pose proof (Hscope _ _ [inspect] (proj2 (Forall_singleton _ _) Hins)). pose proof (Hscope _ _ [verify] (proj2 (Forall_singleton _ _) Hver)).
    unfold scoped, tasks in *. rewrite !Forall_app. split_and!; try done; by eapply Hscope.
  - assert (drawn hex n [i]) as D0 by (intros x ->%list_elem_of_singleton; by exists m).
    assert (∀ l, (ts_id <$> (pt_spec <$> l)) = ids_of l) as Hids by (intros l; unfold ids_of; by rewrite <- list_fmap_compose).
    destruct (lanes_layered hex hex_inj [i] [i] n 1 sup "supervisor" D0) as [Y1 D1]; [done..|].
    destruct (lanes_layered hex hex_inj ([i] ++ ids_of sup) [i] (n + 2) (Z.to_nat s) spec "specialist") as [Y2 D2]; [exact D1|set_solver|done..|].
    destruct (lanes_layered hex hex_inj (([i] ++ ids_of sup) ++ ids_of spec) (i :: ids_of spec) n2 (Z.to_nat w) work "worker") as [Y3 D3];
      [by rewrite E2|set_solver|done..|].
    destruct (lanes_layered hex hex_inj ((([i] ++ ids_of sup) ++ ids_of spec) ++ ids_of work) (ids_of work) n3 1 rev "reviewer") as [Y4 D4];
      [by rewrite E3|set_solver|done..|].
    unfold tasks. rewrite !fmap_app, !layered_app, !fmap_app, !Hids. cbn [fmap list_fmap layered]. fold i. rewrite <- !(assoc_L (++)) in *.
    split_and!; try done.
    + apply not_elem_of_nil.
    + rewrite (la_deps _ _ _ Hins). by intros d ?%elem_of_nil.
    + rewrite Hv. intros (j & Hj & Heq)%D4. apply (inj (String.app "tsk_")), hex_inj in Heq. lia.
    + rewrite (la_deps _ _ _ Hver). cbn. set_solver.
Qed.

Lemma dynamic_graph mission inspection cap n : ∃ proposal tasks n',
  plan_dynamic_task_graph hex clock mission inspection cap n = (Ok (proposal, tasks, form_dynamic_team mission inspection cap 1), n')
  ∧ planned_for mission proposal ∧ gp_task_specs proposal = pt_spec <$> tasks
  ∧ let '(s, w) := team_counts mission inspection cap 1 in staged s w tasks.
Proof.
  unfold plan_dynamic_task_graph. pose proof (team_shape mission inspection cap 1) as Hshape. cbv zeta in Hshape.
  destruct (team_counts mission inspection cap 1) as [s w]. set (team := form_dynamic_team _ _ _ _) in *.
  destruct Hshape as (Hs & Hw & _ & _ & _ & _ & Hroles). cbv zeta. set (size := mkSize _ _ _ _ _ _).
  erewrite bind_run by reflexivity. erewrite bind_run by reflexivity. set (inspect := mkPlanned _ _ _ _ _ _ _).
  destruct (team_lanes mission size team ("tsk_" +:+ hex n) (tp_roles team) s w (mkLanes [] [] [] [inspect]) (S (S n)) (proj1 Hs) (proj1 Hw) Hroles eq_refl)
    as (sup & spec & work & rev & n1 & n2 & n3 & n4 & Hrun & A1 & A2 & A3 & A4 & I1 & E1 & I2 & E2 & I3 & E3 & I4 & E4).
  erewrite bind_run by exact Hrun. erewrite bind_run by reflexivity. cbn [ln_review_ids ln_worker_ids ln_tasks].
  assert (length (ids_of rev) = 1%nat) as Hrev by (by rewrite I4). destruct (ids_of rev) as [|x [|]] eqn:Hids; try done. cbv iota.
  erewrite bind_run by reflexivity. set (verify := mkPlanned _ _ _ _ _ _ _).
  assert (staged s w (([inspect] ++ sup ++ spec ++ work ++ rev) ++ [verify])) as Hst.
  { eapply (parts_staged inspect verify sup spec work rev s w n (S (S n)) n1 n2 n3 n4 n4); try done; try lia; by rewrite Hids. }
  set (tasks := (_ ++ _) ++ [verify]) in *. erewrite bind_run by reflexivity. do 3 eexists. split; [reflexivity|].
  split; [|by split]. constructor; try done; cbn [gp_task_specs].
  - apply Forall_fmap. apply (sg_scopes _ _ _ Hst).
  - apply (sg_layered _ _ _ Hst).
Qed.

(** ** Properties *)
Inductive planner := Software | Team (max_agents : Z).
Definition plan (k : planner) (mission : Mission) (inspection : RepoInspection) : M nat (GraphProposal * list PlannedTask) :=
  match k with
  | Software => plan_task_graph hex clock mission inspection
  | Team max_agents => '(proposal, tasks, _) ← plan_dynamic_task_graph hex clock mission inspection max_agents; mret (proposal, tasks)
  end.

(** C34: Both planners return, and what they propose for a mission that has no tasks yet is committed by the
    controller exactly if the mission has the repository scope and room for the tasks: then the
    revision is the next one and the mission's tasks are the planned ones, ready and in the planned
    order; otherwise the commit raises and the mission still has none. *)
Theorem planned_missions_start k mission inspection n c : task_map c (ms_id mission) = [] →
  ∃ proposal tasks n', plan k mission inspection n = (Ok (proposal, tasks), n') ∧
  let '(r, c') := start_mission mission proposal c in
  if has_repo_scope mission && (Z.of_nat (length tasks) <=? ms_max_graph_nodes mission)
  then r = Ok (ms_revision mission + 1)
    ∧ task_map c' (ms_id mission) = (λ t, (ts_id (pt_spec t), mark_ready (pt_spec t))) <$> tasks
  else (∃ why, r = Err (ValueError why)) ∧ task_map c' (ms_id mission) = [].
Proof.
  intros Hc. assert (∃ proposal tasks n', plan k mission inspection n = (Ok (proposal, tasks), n') ∧ planned_for mission proposal
    ∧ gp_task_specs proposal = pt_spec <$> tasks) as (proposal & tasks & n' & Hrun & Hp & Hspecs).
  { destruct k as [|cap].
    - destruct (software_graph hex clock hex_inj mission inspection n) as (p & ts & n' & ? & ? & ? & _ & _). by exists p, ts, n'.
    - destruct (dynamic_graph mission inspection cap n) as (p & ts & n' & H & ? & ? & _). exists p, ts, n'. split; [|done].
      unfold plan. by erewrite bind_run by exact H. }
  exists proposal, tasks, n'. split; [done|]. pose proof (start_run mission proposal c Hp Hc) as H.
  unfold ready_tasks in H. by rewrite Hspecs, length_fmap, <- list_fmap_compose in H.
Qed.

(** The graph of a team has one inspection, one supervisor, the team's specialists and workers, one
    reviewer and one verification; its tasks have ids of their own, each is listed after what it
    depends on, and a task depends on exactly the tasks of the stage before: specialists on the
    inspection, workers on it and all specialists, the reviewer on all workers, the verification on
    the reviewer. *)
Theorem team_graph_has_stages mission inspection cap n : ∃ proposal tasks n',
  plan_dynamic_task_graph hex clock mission inspection cap n = (Ok (proposal, tasks, form_dynamic_team mission inspection cap 1), n')
  ∧ let '(s, w) := team_counts mission inspection cap 1 in staged s w tasks.
Proof. destruct (dynamic_graph mission inspection cap n) as (p & ts & n' & H & _ & _ & Hs). by exists p, ts, n'. Qed.
End team_graph.

(** A team has a supervisor, a reviewer, one to five workers and at most two specialists, and is within
    the cap unless the cap is below three; its complexity is between two and ten. *)
Theorem teams_are_bounded mission inspection cap :
  let t := form_dynamic_team mission inspection cap 1 in let '(s, w) := team_counts mission inspection cap 1 in
  agent_count t = 2 + s + w ∧ 0 <= s <= 2 ∧ 1 <= w <= 5 ∧ agent_count t <= Z.max 3 cap ∧ 2 <= tp_complexity_score t <= 10.
Proof.
  pose proof (team_shape mission inspection cap 1) as H. cbv zeta in *. destruct (team_counts mission inspection cap 1) as [s w].
  destruct H as (Hs & Hw & Hcap & _ & _ & Hcx & Hroles). assert (agent_count (form_dynamic_team mission inspection cap 1) = 2 + s + w) as ->; [|lia].
  unfold agent_count. replace (tr_count <$> tp_roles (form_dynamic_team mission inspection cap 1)) with (snd <$> ((λ r, (tr_role r, tr_count r)) <$>
    tp_roles (form_dynamic_team mission inspection cap 1))) by (by rewrite <- list_fmap_compose). rewrite Hroles.
  destruct (Z.eqb_spec s 0) as [->|]; cbn -[Z.add]; lia.
Qed.

(** ** Runs *)
Module PlannerSample.
Definition repo : RepoInspection := mkInspection "/repo" None true true ["src"; "tests"] [].
Definition zero_clock (_ : nat) : Z := 0.
Definition mission_of (goal : string) : Mission :=
  match (build_software_mission unary zero_clock goal "proj_local" 0%nat).1 with Ok m => m | Err _ => demo_mission end.
Definition empty : Controller := new_controller demo_scheduler.
Definition big : Mission := mission_of "Refactor src/a.py, src/b.py and src/c.py and verify them".

Lemma planned_missions_start_witness :
  has_repo_scope big = true ∧ task_map empty (ms_id big) = []
  ∧ ∃ proposal tasks n', plan unary zero_clock (Team 32) big repo 3%nat = (Ok (proposal, tasks), n')
    ∧ (start_mission big proposal empty).1 = Ok 2 ∧ length tasks = 10%nat.
Proof.
  split; [reflexivity|]. split; [reflexivity|].
  destruct (planned_missions_start unary zero_clock unary_inj (Team 32) big repo 3%nat empty eq_refl) as (p & ts & n' & Hrun & H).
  exists p, ts, n'. split; [exact Hrun|]. assert (length ts = 10%nat) as Hl.
  { apply (f_equal (λ x : _ * nat, match x.1 with Ok (_, ts) => length ts | Err _ => 0%nat end)) in Hrun. vm_compute in Hrun. by symmetry. }
  rewrite Hl in H. change (has_repo_scope big) with true in H. change (ms_max_graph_nodes big) with 16 in H.
  destruct (start_mission big p empty) as [r c']. split; [exact (proj1 H)|exact Hl].
Defined.

Lemma team_graph_has_stages_witness :
  team_counts big repo 32 1 = (1, 5)
  ∧ ∃ proposal tasks team n', plan_dynamic_task_graph unary zero_clock big repo 32 3%nat = (Ok (proposal, tasks, team), n') ∧ staged 1 5 tasks.
Proof.
  assert (team_counts big repo 32 1 = (1, 5)) as Hc by (vm_compute; reflexivity). split; [exact Hc|].
  destruct (team_graph_has_stages unary zero_clock unary_inj big repo 32 3%nat) as (p & ts & n' & Hrun & H). rewrite Hc in H.
  exists p, ts, (form_dynamic_team big repo 32 1), n'. split; [exact Hrun|exact H].
Defined.

(** The cap is not kept below three, although the team is to fit under it. *)
Example small_caps_are_exceeded : agent_count (form_dynamic_team big repo 1 1) = 3.
Proof. vm_compute. reflexivity. Qed.
End PlannerSample.
