(* ===== verification/Checkpoint.v ===== *)
(** * Checkpoint: session checkpoints and their store

    runtime/checkpoint.py.  A checkpoint is the serializable state of an agent session; the
    store keeps checkpoints in memory and, when it has a root directory, as JSON files.  The
    directory is a map from paths to text, a path being the root and the name of the file
    (ids are plain names, as [new_id] makes them).  What a process wrote is in the map when
    another process loads it; [restart] is that process.

    Shown: a checkpoint that was saved under a root is read back equal by a process that has
    only the files; what [load] makes of any file is a valid checkpoint of the model; no
    string or key of a saved checkpoint contains a marker of a credential or of a client. *)
From S2P Require Import Prelude Collections Contracts Json JsonText Models.
From Stdlib Require Import Ascii.

Definition all_task_statuses : list TaskStatus :=
  [TaskStatus.PROPOSED; TaskStatus.READY; TaskStatus.LEASED; TaskStatus.RUNNING; TaskStatus.WAITING_CHILDREN;
   TaskStatus.WAITING_CAPACITY; TaskStatus.WAITING_APPROVAL; TaskStatus.VERIFYING; TaskStatus.ACCEPTED;
   TaskStatus.REJECTED; TaskStatus.FAILED; TaskStatus.CANCELLED; TaskStatus.SUPERSEDED].
Definition all_attempt_statuses : list AttemptStatus :=
  [AttemptStatus.PENDING; AttemptStatus.RUNNING; AttemptStatus.SUCCEEDED; AttemptStatus.FAILED;
   AttemptStatus.CANCELLED; AttemptStatus.UNKNOWN].

Record SessionCheckpoint := mkSessionCheckpoint {
  cp_schema_version : string;
  cp_checkpoint_id : string;
  cp_session_id : string;
  cp_agent_profile_id : string;
  cp_task_id : string;
  cp_attempt_id : string;
  cp_route_id : option string;
  cp_task_status : TaskStatus;
  cp_attempt_status : AttemptStatus;
  cp_model_calls : Z;
  cp_tool_operation_ids : list string;
  cp_artifact_refs : list string;
  cp_finding_ids : list string;
  cp_waiting_for_children : list string;
  cp_cancel_requested : bool;
  cp_decision_trace : list (dict json);
  cp_resource_usage : dict Z;
  cp_created_at : string
}.

Section model.
Context {lax : Lax}.

Lemma task_status_of_value e : find (λ x, bool_decide (TaskStatus.value x = TaskStatus.value e)) all_task_statuses = Some e.
Proof. by destruct e. Qed.
Lemma attempt_status_of_value e :
  find (λ x, bool_decide (AttemptStatus.value x = AttemptStatus.value e)) all_attempt_statuses = Some e.
Proof. by destruct e. Qed.
Definition task_status_codec : codec TaskStatus := enum_codec all_task_statuses TaskStatus.value task_status_of_value.
Definition attempt_status_codec : codec AttemptStatus :=
  enum_codec all_attempt_statuses AttemptStatus.value attempt_status_of_value.
Lemma str_not_null s : enc str_codec s ≠ JNull.
Proof. done. Qed.
Definition optional_str : codec (option string) := option_codec str_codec str_not_null.
Definition strs : codec (list string) := list_codec str_codec.
Definition trace_codec : codec (list (dict json)) := list_codec (dict_codec any_codec).
Definition usage_codec : codec (dict Z) := dict_codec int_codec.

(** [self.model_dump(mode="json")]. *)
Definition model_dump (c : SessionCheckpoint) : json := JObj [
  ("schema_version", enc str_codec (cp_schema_version c));
  ("checkpoint_id", enc str_codec (cp_checkpoint_id c));
  ("session_id", enc str_codec (cp_session_id c));
  ("agent_profile_id", enc str_codec (cp_agent_profile_id c));
  ("task_id", enc str_codec (cp_task_id c));
  ("attempt_id", enc str_codec (cp_attempt_id c));
  ("route_id", enc optional_str (cp_route_id c));
  ("task_status", enc task_status_codec (cp_task_status c));
  ("attempt_status", enc attempt_status_codec (cp_attempt_status c));
  ("model_calls", enc int_codec (cp_model_calls c));
  ("tool_operation_ids", enc strs (cp_tool_operation_ids c));
  ("artifact_refs", enc strs (cp_artifact_refs c));
  ("finding_ids", enc strs (cp_finding_ids c));
  ("waiting_for_children", enc strs (cp_waiting_for_children c));
  ("cancel_requested", enc bool_codec (cp_cancel_requested c));
  ("decision_trace", enc trace_codec (cp_decision_trace c));
  ("resource_usage", enc usage_codec (cp_resource_usage c));
  ("created_at", enc str_codec (cp_created_at c))].
Definition field_names : list string :=
  ["schema_version"; "checkpoint_id"; "session_id"; "agent_profile_id"; "task_id"; "attempt_id"; "route_id";
   "task_status"; "attempt_status"; "model_calls"; "tool_operation_ids"; "artifact_refs"; "finding_ids";
   "waiting_for_children"; "cancel_requested"; "decision_trace"; "resource_usage"; "created_at"].

(** [SessionCheckpoint.model_validate]; [fresh] and [now] are what the default factories of
    the id and of the time give. *)
Definition model_validate (fresh now : string) (j : json) : option SessionCheckpoint :=
  match j with
  | JObj d =>
    if negb (only_fields field_names d) then None else
    v ← get_field str_codec (Some "1.0") d "schema_version";
    id ← get_field str_codec (Some fresh) d "checkpoint_id";
    sid ← get_field str_codec None d "session_id";
    pid ← get_field str_codec None d "agent_profile_id";
    tid ← get_field str_codec None d "task_id";
    aid ← get_field str_codec None d "attempt_id";
    rid ← get_field optional_str (Some None) d "route_id";
    ts ← get_field task_status_codec (Some TaskStatus.RUNNING) d "task_status";
    ats ← get_field attempt_status_codec (Some AttemptStatus.RUNNING) d "attempt_status";
    calls ← get_field int_codec (Some 0%Z) d "model_calls";
    ops ← get_field strs (Some []) d "tool_operation_ids";
    arts ← get_field strs (Some []) d "artifact_refs";
    fids ← get_field strs (Some []) d "finding_ids";
    waiting ← get_field strs (Some []) d "waiting_for_children";
    cancel ← get_field bool_codec (Some false) d "cancel_requested";
    trace ← get_field trace_codec (Some []) d "decision_trace";
    usage ← get_field usage_codec (Some []) d "resource_usage";
    at_ ← get_field str_codec (Some now) d "created_at";
    Some (mkSessionCheckpoint v id sid pid tid aid rid ts ats calls ops arts fids waiting cancel trace usage at_)
  | _ => None
  end.

(** What validation establishes of a checkpoint. *)
Record valid_checkpoint (c : SessionCheckpoint) : Prop := {
  vc_version : valid str_codec (cp_schema_version c);
  vc_id : valid str_codec (cp_checkpoint_id c);
  vc_session : valid str_codec (cp_session_id c);
  vc_profile : valid str_codec (cp_agent_profile_id c);
  vc_task : valid str_codec (cp_task_id c);
  vc_attempt : valid str_codec (cp_attempt_id c);
  vc_route : valid optional_str (cp_route_id c);
  vc_ops : valid strs (cp_tool_operation_ids c);
  vc_artifacts : valid strs (cp_artifact_refs c);
  vc_findings : valid strs (cp_finding_ids c);
  vc_waiting : valid strs (cp_waiting_for_children c);
  vc_trace : valid trace_codec (cp_decision_trace c);
  vc_usage : valid usage_codec (cp_resource_usage c);
  vc_created : valid str_codec (cp_created_at c)
}.

Lemma validate_dump fresh now c : valid_checkpoint c → model_validate fresh now (model_dump c) = Some c.
Proof.
  intros []. unfold model_validate, model_dump. cbn [only_fields negb]. cbn -[get_field].
  repeat (erewrite get_field_enc; [|reflexivity|done]; cbn -[get_field]). by destruct c.
Qed.

Lemma validate_valid fresh now j c : trim fresh = fresh → trim now = now → wf_json j →
  model_validate fresh now j = Some c → valid_checkpoint c.
Proof.
  intros Hf Hn Hj H. unfold model_validate in H. destruct j as [| | | | |d]; try discriminate.
  destruct (negb _); [discriminate|].
  repeat match goal with H : (_ ≫= _) = Some _ |- _ =>
    apply bind_Some in H as (? & ?%(get_field_valid _ _ _ _ _ Hj) & H); [|intros b; try discriminate; intros [= <-];
      done || (by repeat constructor)] end.
  injection H as <-. by split.
Qed.
End model.

Definition banned_markers : list string := ["sk-"; "api_key="; "secret="; "runtime_client"; "bearer "].

Record CheckpointStore := mkCheckpointStore {
  cs_root : option string;
  cs_files : gmap string string;          (** the directory tree: texts by path *)
  cs_mem : gmap string SessionCheckpoint
}.

Section store.
Context {lax : Lax}.

(** [SessionCheckpoint.to_serializable]. *)
Definition to_serializable (c : SessionCheckpoint) : result json :=
  let data := model_dump c in
  let blob := to_lower (dumps sorted_style data) in
  match find (λ banned, contains banned blob) banned_markers with
  | Some banned => Err (RuntimeError ("checkpoint_leak:" +:+ strip banned))
  | None => Ok data
  end.

Definition path_of (root checkpoint_id : string) : string := root +:+ "/" +:+ checkpoint_id +:+ ".json".

Definition save (c : SessionCheckpoint) : M CheckpointStore string :=
  payload ← of_result (to_serializable c);
  modify (λ s, mkCheckpointStore (cs_root s) (cs_files s) (<[cp_checkpoint_id c := c]> (cs_mem s))) ;;
  root ← gets cs_root;
  match root with
  | Some root => modify (λ s, mkCheckpointStore (cs_root s)
      (<[path_of root (cp_checkpoint_id c) := dumps (indent_style 2) payload]> (cs_files s)) (cs_mem s))
  | None => mret ()
  end ;;
  mret (cp_checkpoint_id c).

Definition load (fresh now : string) (checkpoint_id : string) : M CheckpointStore SessionCheckpoint :=
  mem ← gets cs_mem;
  match mem !! checkpoint_id with
  | Some c => mret c
  | None =>
    root ← gets cs_root;
    root ← require root (KeyError checkpoint_id);
    files ← gets cs_files;
    text ← require (files !! path_of root checkpoint_id) (Exn "FileNotFoundError" (path_of root checkpoint_id));
    data ← require (loads text) (Exn "JSONDecodeError" checkpoint_id);
    cp ← require (model_validate fresh now data) (ValidationError "SessionCheckpoint");
    modify (λ s, mkCheckpointStore (cs_root s) (cs_files s) (<[checkpoint_id := cp]> (cs_mem s))) ;;
    mret cp
  end.

(** A new process over the same directory: [CheckpointStore(root)]. *)
Definition restart : M CheckpointStore () := modify (λ s, mkCheckpointStore (cs_root s) (cs_files s) ∅).

(** ** What a saved document can be read back to *)
Lemma dump_wf c : valid_checkpoint c → wf_json (model_dump c).
Proof.
  intros []. apply wf_obj. split; [apply (bool_decide_unpack _); vm_compute; reflexivity|].
  unfold model_dump. repeat (apply Forall_cons; split; [cbn [snd]; by apply enc_wf|]). constructor.
Qed.

Lemma saved_text_loads fresh now c : valid_checkpoint c →
  loads (dumps (indent_style 2) (model_dump c)) = Some (model_dump c)
  ∧ model_validate fresh now (model_dump c) = Some c.
Proof. intros Hc. split; [apply loads_dumps; [apply good_indent|by apply dump_wf]|by apply validate_dump]. Qed.

Lemma to_serializable_Ok c j : to_serializable c = Ok j → j = model_dump c.
Proof. unfold to_serializable. destruct (find _ _); [discriminate|]. by intros [= <-]. Qed.

(** A document that passed the check has no marker in any of its strings. *)
Lemma serializable_clean c j w s : to_serializable c = Ok j → w ∈ banned_markers → s ∈ texts j →
  contains w (to_lower s) = false.
Proof.
  intros Hj Hw Hs. pose proof (to_serializable_Ok _ _ Hj) as ->. apply not_true_iff_false. intros Hc.
  apply (marker_shows sorted_style) with (j := model_dump c) in Hc; [| |done].
  - unfold to_serializable in Hj. destruct (find _ banned_markers) eqn:E; [discriminate|].
    apply list_elem_of_In, (find_none _ _ E) in Hw. congruence.
  - assert (Forall (λ w, forallb plain (of_string w) = true) banned_markers) as H by (by repeat constructor).
    rewrite Forall_forall in H. by apply H.
Qed.

(** ** The store as a process uses it *)
Inductive store_op :=
| Save (c : SessionCheckpoint)
| Load (fresh now checkpoint_id : string)
| Restart.
Inductive reply := Saved (checkpoint_id : string) | Loaded (c : SessionCheckpoint) | Restarted.

Definition exec (o : store_op) : M CheckpointStore reply :=
  match o with
  | Save c => id ← save c; mret (Saved id)
  | Load fresh now id => c ← load fresh now id; mret (Loaded c)
  | Restart => restart ;; mret Restarted
  end.
Definition valid_op (o : store_op) : Prop :=
  match o with
  | Save c => valid_checkpoint c
  | Load fresh now _ => trim fresh = fresh ∧ trim now = now
  | Restart => True
  end.

(** What the store promises when it has a root: a map from ids to what was saved last. *)
Definition spec_exec (root : string) (o : store_op) : M (gmap string SessionCheckpoint) reply :=
  match o with
  | Save c => of_result (to_serializable c) ;; modify (<[cp_checkpoint_id c := c]>) ;; mret (Saved (cp_checkpoint_id c))
  | Load _ _ id => m ← get_state; c ← require (m !! id) (Exn "FileNotFoundError" (path_of root id)); mret (Loaded c)
  | Restart => mret Restarted
  end.

Lemma path_of_inj root a b : path_of root a = path_of root b → a = b.
Proof.
  intros H. apply (f_equal of_string) in H. unfold path_of in H. rewrite !of_string_app in H.
  apply app_inv_head, app_inv_head, app_inv_tail in H. rewrite <- (to_of_string a), <- (to_of_string b). by f_equal.
Qed.

Record backs (root : string) (m : gmap string SessionCheckpoint) (s : CheckpointStore) : Prop := {
  bk_root : cs_root s = Some root;
  bk_file : ∀ id c, m !! id = Some c →
    valid_checkpoint c ∧ cs_files s !! path_of root id = Some (dumps (indent_style 2) (model_dump c));
  bk_absent : ∀ id, m !! id = None → cs_files s !! path_of root id = None;
  bk_mem : ∀ id c, cs_mem s !! id = Some c → m !! id = Some c
}.

(** What one call does, as one equation. *)
Definition saved (c : SessionCheckpoint) (s : CheckpointStore) : CheckpointStore :=
  mkCheckpointStore (cs_root s)
    match cs_root s with
    | Some root => <[path_of root (cp_checkpoint_id c) := dumps (indent_style 2) (model_dump c)]> (cs_files s)
    | None => cs_files s
    end (<[cp_checkpoint_id c := c]> (cs_mem s)).
Lemma save_run c s : save c s = match to_serializable c with
  | Ok _ => (Ok (cp_checkpoint_id c), saved c s) | Err e => (Err e, s) end.
Proof.
  unfold save, saved, mbind, M_bind, of_result. destruct (to_serializable c) as [j|e] eqn:Hj; [|done].
  apply to_serializable_Ok in Hj as ->. unfold modify, gets. by destruct (cs_root s).
Qed.
Lemma load_hit fresh now id c s : cs_mem s !! id = Some c → load fresh now id s = (Ok c, s).
Proof. intros H. unfold load, mbind, M_bind, gets. by rewrite H. Qed.
Lemma load_file fresh now id root text s : cs_mem s !! id = None → cs_root s = Some root →
  cs_files s !! path_of root id = Some text →
  load fresh now id s = match loads text with
    | Some data => match model_validate fresh now data with
      | Some c => (Ok c, mkCheckpointStore (Some root) (cs_files s) (<[id := c]> (cs_mem s)))
      | None => (Err (ValidationError "SessionCheckpoint"), s) end
    | None => (Err (Exn "JSONDecodeError" id), s) end.
Proof.
  intros Hm Hr Hf. unfold load, mbind, M_bind, gets. rewrite Hm, Hr. cbn. rewrite Hf. cbn.
  destruct (loads text); [|done]. cbn. destruct (model_validate _ _ _); [|done]. unfold modify, mret, M_ret. cbn. by rewrite Hr.
Qed.
Lemma load_missing fresh now id root s : cs_mem s !! id = None → cs_root s = Some root →
  cs_files s !! path_of root id = None →
  load fresh now id s = (Err (Exn "FileNotFoundError" (path_of root id)), s).
Proof. intros Hm Hr Hf. unfold load, mbind, M_bind, gets. rewrite Hm, Hr. cbn. by rewrite Hf. Qed.

Lemma saved_backed root m s c : valid_checkpoint c → backs root m s →
  backs root (<[cp_checkpoint_id c := c]> m) (saved c s).
Proof.
  intros Hc [Hr Hf Ha Hm]. unfold saved. rewrite Hr. split; cbn [cs_root cs_files cs_mem]; [done|..].
  - intros id c' [[<- <-]|[Hn H]]%lookup_insert_Some; [split; [done|apply lookup_insert_eq]|].
    rewrite lookup_insert_ne by (intros ?%path_of_inj; done). by apply Hf.
  - intros id [Hn H]%lookup_insert_None. rewrite lookup_insert_ne by (intros ?%path_of_inj; done). by apply Ha.
  - intros id c' [[<- <-]|[Hn H]]%lookup_insert_Some; [apply lookup_insert_eq|].
    rewrite lookup_insert_ne by done. by apply Hm.
Qed.
Lemma loaded_backed fresh now root m s id : backs root m s →
  (load fresh now id s).1 = match m !! id with Some c => Ok c | None => Err (Exn "FileNotFoundError" (path_of root id)) end
  ∧ backs root m (load fresh now id s).2.
Proof.
  intros B. pose proof B as [Hr Hf Ha Hm]. destruct (cs_mem s !! id) as [c|] eqn:Hmem.
  - rewrite (load_hit _ _ _ c) by done. by rewrite (Hm _ _ Hmem).
  - destruct (m !! id) as [c|] eqn:Hc.
    + destruct (Hf _ _ Hc) as [Hv Ht]. rewrite (load_file _ _ _ root _ _ Hmem Hr Ht).
      destruct (saved_text_loads fresh now c Hv) as [-> ->]. split; [done|]. split; cbn; [done|done|done|].
      intros id' c' [[<- <-]|[Hn H]]%lookup_insert_Some; [done|by apply Hm].
    + rewrite (load_missing _ _ _ root) by auto. done.
Qed.

Lemma exec_backed root m s o : valid_op o → backs root m s →
  (exec o s).1 = (spec_exec root o m).1 ∧ backs root (spec_exec root o m).2 (exec o s).2.
Proof.
  intros Ho B. destruct o as [c|fresh now id|]; cbn [exec spec_exec].
  - unfold mbind, M_bind, of_result. rewrite save_run. destruct (to_serializable c); [|done].
    split; [done|]. by apply saved_backed.
  - destruct (loaded_backed fresh now root m s id B) as [Hl Hb]. unfold mbind, M_bind, get_state.
    destruct (load fresh now id s) as [r s']. cbn in Hl, Hb. subst r. by destruct (m !! id).
  - split; [done|]. destruct B as [Hr Hf Ha Hm]. by split.
Qed.

Lemma empty_backed root : backs root ∅ (mkCheckpointStore (Some root) ∅ ∅).
Proof. by split. Qed.

(** Whatever directory a process finds, what it holds in memory stays valid. *)
Definition mem_valid (s : CheckpointStore) : Prop := ∀ id c, cs_mem s !! id = Some c → valid_checkpoint c.
Definition valid_reply (r : result reply) : Prop := match r with Ok (Loaded c) => valid_checkpoint c | _ => True end.
Lemma insert_mem_valid s root files id c : valid_checkpoint c → mem_valid s →
  mem_valid (mkCheckpointStore root files (<[id := c]> (cs_mem s))).
Proof. intros Hc Hs id' c'. cbn [cs_mem]. intros [[<- <-]|[_ H]]%lookup_insert_Some; [done|by eapply Hs]. Qed.
Lemma exec_valid s o : valid_op o → mem_valid s → valid_reply (exec o s).1 ∧ mem_valid (exec o s).2.
Proof.
  intros Ho Hs. destruct o as [c|fresh now id|]; cbn [exec]; unfold mbind, M_bind; [| |done].
  - rewrite save_run. destruct (to_serializable c); [|done]. split; [done|]. by apply insert_mem_valid.
  - destruct Ho as [Hfr Hn]. destruct (cs_mem s !! id) as [c|] eqn:Hm.
    { rewrite (load_hit _ _ _ c) by done. split; [by apply (Hs _ _ Hm)|done]. }
    destruct (cs_root s) as [root|] eqn:Hr; [|unfold load, mbind, M_bind, gets; by rewrite Hm, Hr].
    destruct (cs_files s !! path_of root id) as [text|] eqn:Hf; [|by rewrite (load_missing _ _ _ root)].
    rewrite (load_file _ _ _ root text) by done. destruct (loads text) as [j|] eqn:Hj; [|done].
    destruct (model_validate fresh now j) as [c|] eqn:Hc; [|done].
    assert (valid_checkpoint c) as Hv by (eapply validate_valid; [exact Hfr|exact Hn|by eapply loads_wf|exact Hc]).
    split; [exact Hv|by apply insert_mem_valid].
Qed.

(** Files hold only documents that passed the check. *)
Definition files_clean (s : CheckpointStore) : Prop := ∀ path text, cs_files s !! path = Some text →
  ∃ c, valid_checkpoint c ∧ to_serializable c = Ok (model_dump c) ∧ text = dumps (indent_style 2) (model_dump c).
Lemma exec_clean s o : valid_op o → files_clean s → files_clean (exec o s).2.
Proof.
  intros Ho Hs. destruct o as [c|fresh now id|]; cbn [exec]; unfold mbind, M_bind; [| |done].
  - rewrite save_run. destruct (to_serializable c) eqn:Hc; [|done]. pose proof (to_serializable_Ok _ _ Hc) as ->.
    intros path text. unfold saved. cbn. destruct (cs_root s) as [root|]; [|apply Hs].
    intros [[_ <-]|[_ H]]%lookup_insert_Some; [by exists c|by eapply Hs].
  - unfold load, mbind, M_bind, gets.
    destruct (cs_mem s !! id); [done|]. destruct (cs_root s); [|done]. cbn. destruct (_ !! _); [|done]. cbn.
    destruct (loads _); [|done]. cbn. by destruct (model_validate _ _ _).
Qed.

(** The store with a root directory refines a map from ids to checkpoints: over any sequence
    of saves, loads and restarts from an empty directory, every reply is that of the map, so
    that a checkpoint is read back as it was saved, after restarts too. *)
Theorem checkpoint_store_refines_map root ops : Forall valid_op ops →
  replies exec ops (mkCheckpointStore (Some root) ∅ ∅) = replies (spec_exec root) ops ∅.
Proof.
  intros Hops. apply (replies_sim _ _ (λ s m, backs root m s)); [|apply empty_backed].
  intros o s m Ho B. apply exec_backed; [|exact B]. rewrite Forall_forall in Hops. by apply Hops.
Qed.

(** C36: Whatever files a process finds under its root, every checkpoint that load returns is a
    valid one of the model: its strings are trimmed, its dicts have each key once. *)
Theorem loaded_checkpoints_are_valid root files ops : Forall valid_op ops →
  Forall valid_reply (replies exec ops (mkCheckpointStore root files ∅)).
Proof.
  intros Hops. apply (replies_forall _ mem_valid); [|done].
  intros o s Ho Hs. apply exec_valid; [|exact Hs]. rewrite Forall_forall in Hops. by apply Hops.
Qed.

(** No file of the store, parsed, has a string or key with a marker of a credential or of a
    runtime client, in any case. *)
Theorem no_marker_is_persisted root ops path text j s w : Forall valid_op ops →
  cs_files (after exec ops (mkCheckpointStore root ∅ ∅)) !! path = Some text →
  loads text = Some j → s ∈ texts j → w ∈ banned_markers → contains w (to_lower s) = false.
Proof.
  intros Hops Hf Hj Hs Hw.
  assert (files_clean (after exec ops (mkCheckpointStore root ∅ ∅))) as Hc.
  { apply (after_invariant _ files_clean); [|done]. intros o t Ho Ht. apply exec_clean; [|exact Ht].
    rewrite Forall_forall in Hops. by apply Hops. }
  destruct (Hc _ _ Hf) as (c & Hv & Hser & ->). destruct (saved_text_loads "" "" c Hv) as [Hl _].
  rewrite Hl in Hj. injection Hj as <-. by eapply serializable_clean.
Qed.
End store.

(** ** Concrete runs *)
Module CheckpointSample.
#[local] Instance strict : Lax := {| lax_int _ := None; lax_bool _ := None |}.
Definition sample : SessionCheckpoint := mkSessionCheckpoint "1.0" "cp_1" "as_1" "prof" "t1" "at_1" (Some "r1")
  TaskStatus.RUNNING AttemptStatus.SUCCEEDED 1 ["op_1"] [] ["f_1"] [] false
  [[("event", JStr "started"); ("route_id", JStr "r1")]] [("model_calls", 1%Z)] "2024-02-29T12:34:56+00:00".
Definition leaking : SessionCheckpoint := mkSessionCheckpoint "1.0" "cp_2" "as_1" "prof" "t1" "at_1" None
  TaskStatus.RUNNING AttemptStatus.RUNNING 0 [] [] [] [] false [[("event", JStr "Bearer xyz")]] [] "now".
Definition calls : list store_op := [Save sample; Restart; Load "cp_9" "now" "cp_1"; Save leaking; Load "cp_9" "now" "cp_2"].

Ltac prove_valid := split; repeat first
  [ reflexivity | exact I | apply conj | apply Forall_nil_2 | apply Forall_cons_2
  | apply (bool_decide_unpack _); vm_compute; reflexivity ].
Lemma sample_valid : valid_checkpoint sample.
Proof. prove_valid. Qed.
Lemma leaking_valid : valid_checkpoint leaking.
Proof. prove_valid. Qed.
Lemma calls_valid : Forall valid_op calls.
Proof. repeat (apply Forall_cons_2; [first [exact sample_valid | exact leaking_valid | done]|]). constructor. Qed.

(** The sample is read back by a new process; a checkpoint with a marker is refused. *)
Example sample_run : replies exec calls (mkCheckpointStore (Some "var") ∅ ∅)
  = [Ok (Saved "cp_1"); Ok Restarted; Ok (Loaded sample); Err (RuntimeError "checkpoint_leak:bearer");
     Err (Exn "FileNotFoundError" "var/cp_2.json")].
Proof. vm_compute. reflexivity. Qed.

Lemma checkpoint_store_refines_map_witness :
  replies exec calls (mkCheckpointStore (Some "var") ∅ ∅) = replies (spec_exec "var") calls ∅.
Proof. apply (checkpoint_store_refines_map "var" calls). exact calls_valid. Defined.

Definition found : gmap string string :=
  {["var/cp_3.json" := dumps default_style (JObj [("session_id", JStr " as_3 "); ("agent_profile_id", JStr "p");
     ("task_id", JStr "t"); ("attempt_id", JStr "a")])]}.
Lemma loaded_checkpoints_are_valid_witness :
  Forall valid_reply (replies exec [Load "cp_9" "now" "cp_3"] (mkCheckpointStore (Some "var") found ∅)).
Proof. apply (loaded_checkpoints_are_valid (Some "var") found [Load "cp_9" "now" "cp_3"]). by repeat constructor. Defined.

Lemma no_marker_is_persisted_witness : contains "sk-" (to_lower "succeeded") = false.
Proof.
  apply (no_marker_is_persisted (Some "var") calls "var/cp_1.json" (dumps (indent_style 2) (model_dump sample))
    (model_dump sample) "succeeded" "sk-").
  - exact calls_valid.
  - vm_compute. reflexivity.
  - vm_compute. reflexivity.
  - apply (list_elem_of_lookup_2 _ 17). vm_compute. reflexivity.
  - by constructor.
Defined.
End CheckpointSample.
