(* ===== verification/Capacity.v ===== *)
(** * Capacity: slots for agent sessions and the registry of profiles

    runtime/capacity.py and runtime/registry.py.  The pool counts a session as runnable when
    it is active and not waiting for children.  The registry keeps one framework registration
    per role and version of instructions, however many profiles and sessions use it, within
    [max_registrations].

    Shown: when only active sessions are marked and none is cleared while it waits, at most
    [max_concurrent_sessions] are runnable ([clear_waiting] checks nothing: a run shows it pass
    the bound); registrations never exceed their bound, a profile keeps its registration, and
    its key is the profile's own, which two pairs of role and version may share. *)
From S2P Require Import Prelude Collections Contracts.
Open Scope Z_scope.

Record ResourceLimits := mkResourceLimits {
  max_model_calls : Z;
  max_tool_calls : Z;
  max_wall_time_seconds : Z;
  max_concurrent_sessions : Z
}.
Definition default_limits : ResourceLimits := mkResourceLimits 20 50 3600 32.

Record CapacityPool := mkCapacityPool {
  cq_limits : ResourceLimits;
  active_sessions : gset string;
  waiting_sessions : gset string
}.
#[export] Instance eta_CapacityPool : Eta CapacityPool := λ r,
  mkCapacityPool (cq_limits r) (active_sessions r) (waiting_sessions r).

Definition runnable_count (p : CapacityPool) : Z :=
  Z.of_nat (size (active_sessions p)) - Z.of_nat (size (waiting_sessions p)).
Definition acquire (session_id : string) : M CapacityPool () :=
  p ← get_state;
  if bool_decide (session_id ∈ active_sessions p) then mret () else
  raise_if (max_concurrent_sessions (cq_limits p) <=? runnable_count p) (RuntimeError "capacity_exhausted");;
  modify (λ p, p <| active_sessions ::= union {[session_id]} |>).
Definition mark_waiting_children (session_id : string) (p : CapacityPool) : CapacityPool :=
  p <| waiting_sessions ::= union {[session_id]} |>.
Definition clear_waiting (session_id : string) (p : CapacityPool) : CapacityPool :=
  p <| waiting_sessions ::= λ w, w ∖ {[session_id]} |>.
Definition release_slot (session_id : string) (p : CapacityPool) : CapacityPool :=
  p <| active_sessions ::= λ a, a ∖ {[session_id]} |> <| waiting_sessions ::= λ w, w ∖ {[session_id]} |>.

(** ** Registrations *)
Record AgentProfile := mkAgentProfile {
  ap_id : string;
  ap_role : string;
  ap_instructions_version : string;
  ap_tool_scope : list string;
  ap_context_policy : string;
  ap_delegation_policy : string;
  ap_quality_requirements : list string
}.
Record AgentSession := mkAgentSession {
  as_id : string;
  as_agent_profile_id : string;
  as_assigned_task_id : option string;
  as_checkpoint_ref : option string;
  as_profile_revision : Z;
  as_route_history : list string;
  as_status : string
}.
#[export] Instance eta_AgentSession : Eta AgentSession := λ r,
  mkAgentSession (as_id r) (as_agent_profile_id r) (as_assigned_task_id r) (as_checkpoint_ref r)
    (as_profile_revision r) (as_route_history r) (as_status r).
Record RegistrationIdentity := mkRegistrationIdentity {
  ri_registration_id : string;
  ri_agent_profile_id : string;
  ri_role : string;
  ri_instructions_version : string
}.
Record SessionRegistry := mkSessionRegistry {
  sr_max_registrations : Z;
  sr_profiles : gmap string AgentProfile;
  sr_registrations : gmap string RegistrationIdentity;
  sr_sessions : gmap string AgentSession;
  sr_by_profile : gmap string string
}.
#[export] Instance eta_SessionRegistry : Eta SessionRegistry := λ r,
  mkSessionRegistry (sr_max_registrations r) (sr_profiles r) (sr_registrations r) (sr_sessions r) (sr_by_profile r).
Definition new_registry : SessionRegistry := mkSessionRegistry 64 ∅ ∅ ∅ ∅.

Definition registration_count (r : SessionRegistry) : Z := Z.of_nat (size (sr_registrations r)).
Definition session_count (r : SessionRegistry) : Z := Z.of_nat (size (sr_sessions r)).
Definition registration_key (p : AgentProfile) : string :=
  "reg_" +:+ ap_role p +:+ "_" +:+ ap_instructions_version p.
Definition bind_profile (p : AgentProfile) (reg_id : string) : M SessionRegistry () :=
  modify (λ r, r <| sr_profiles ::= <[ap_id p := p]> |> <| sr_by_profile ::= <[ap_id p := reg_id]> |>).

Definition register_profile (p : AgentProfile) : M SessionRegistry RegistrationIdentity :=
  r ← get_state;
  match sr_by_profile r !! ap_id p with
  | Some existing => require (sr_registrations r !! existing) (KeyError existing)
  | None =>
    raise_if (sr_max_registrations r <=? registration_count r) (RuntimeError "registration_cap_exceeded");;
    let reg_id := registration_key p in
    match sr_registrations r !! reg_id with
    | Some found => bind_profile p reg_id;; mret found
    | None =>
      let made := mkRegistrationIdentity reg_id (ap_id p) (ap_role p) (ap_instructions_version p) in
      modify (λ r, r <| sr_registrations ::= <[reg_id := made]> |>);;
      bind_profile p reg_id;;
      mret made
    end
  end.

(** [fresh] is [new_id("as_")]. *)
Definition open_session (fresh : string) (p : AgentProfile) (task_id : option string) : M SessionRegistry AgentSession :=
  register_profile p;;
  let session := mkAgentSession fresh (ap_id p) task_id None 1 [] "idle" in
  modify (λ r, r <| sr_sessions ::= <[fresh := session]> |>);;
  mret session.
Definition get_session (session_id : string) : M SessionRegistry AgentSession :=
  r ← get_state; require (sr_sessions r !! session_id) (KeyError session_id).

(** ** The bound on runnable sessions *)
Definition pool_inv (p : CapacityPool) : Prop :=
  waiting_sessions p ⊆ active_sessions p ∧ runnable_count p <= max_concurrent_sessions (cq_limits p).

(** The uses of the pool by one process: a waiting session is never cleared. *)
Inductive pool_use : CapacityPool → CapacityPool → Prop :=
| use_acquire s p : pool_use p (acquire s p).2
| use_mark s p : s ∈ active_sessions p → pool_use p (mark_waiting_children s p)
| use_clear s p : (s ∉ waiting_sessions p) → pool_use p (clear_waiting s p)
| use_release s p : pool_use p (release_slot s p).

Lemma acquire_run s p : acquire s p =
  if bool_decide (s ∈ active_sessions p) then (Ok (), p)
  else if max_concurrent_sessions (cq_limits p) <=? runnable_count p then (Err (RuntimeError "capacity_exhausted"), p)
  else (Ok (), p <| active_sessions ::= union {[s]} |>).
Proof.
  unfold acquire, mbind, M_bind, get_state. destruct (bool_decide _); [done|]. by destruct (_ <=? _).
Qed.

Lemma size_remove (s : string) (X : gset string) :
  Z.of_nat (size (X ∖ {[s]})) = Z.of_nat (size X) - if bool_decide (s ∈ X) then 1 else 0.
Proof.
  case_bool_decide as H.
  - rewrite size_difference, size_singleton by set_solver. pose proof (subseteq_size {[s]} X ltac:(set_solver)) as Hs.
    rewrite size_singleton in Hs. lia.
  - rewrite difference_disjoint_L by set_solver. lia.
Qed.
Lemma size_add (s : string) (X : gset string) :
  Z.of_nat (size ({[s]} ∪ X)) = Z.of_nat (size X) + if bool_decide (s ∈ X) then 0 else 1.
Proof.
  case_bool_decide as H; [rewrite subseteq_union_1_L by set_solver; lia|].
  rewrite size_union, size_singleton by set_solver. lia.
Qed.

Lemma release_runnable s p : waiting_sessions p ⊆ active_sessions p →
  runnable_count (release_slot s p) <= runnable_count p ∧ waiting_sessions (release_slot s p) ⊆ active_sessions (release_slot s p).
Proof.
  intros Hw. unfold runnable_count, release_slot. cbn. rewrite !size_remove. split; [|set_solver].
  repeat case_bool_decide; try lia. set_solver.
Qed.

Lemma pool_use_inv p p' : 0 <= max_concurrent_sessions (cq_limits p) → pool_use p p' → pool_inv p →
  pool_inv p' ∧ cq_limits p' = cq_limits p.
Proof.
  intros Hpos Hu [Hw Hr]. destruct Hu as [s p|s p Hs|s p Hs|s p].
  - rewrite acquire_run. case_bool_decide as Ha; [done|]. destruct (Z.leb_spec (max_concurrent_sessions (cq_limits p)) (runnable_count p)); [done|].
    unfold pool_inv, runnable_count in *. cbn. rewrite size_add, bool_decide_false by done. split_and!; [set_solver|lia|done].
  - unfold pool_inv, runnable_count in *. cbn. rewrite size_add. split_and!; [set_solver| |done]. case_bool_decide; lia.
  - unfold pool_inv, runnable_count in *. cbn. rewrite size_remove, bool_decide_false by done. split_and!; [set_solver|lia|done].
  - destruct (release_runnable s p Hw) as [Hle Hsub]. split; [split; [exact Hsub|]|done]. cbn. lia.
Qed.

Lemma empty_pool_inv limits : 0 <= max_concurrent_sessions limits → pool_inv (mkCapacityPool limits ∅ ∅).
Proof. intros H. split; [set_solver|]. unfold runnable_count. cbn. by rewrite !size_empty. Qed.

(** However sessions acquire, wait and release slots, at most the configured number of them
    is runnable, and acquire refuses exactly a session that is not active at the bound. *)
Theorem runnable_sessions_are_bounded limits p s : 0 <= max_concurrent_sessions limits →
  rtc pool_use (mkCapacityPool limits ∅ ∅) p →
  0 <= runnable_count p <= max_concurrent_sessions limits
  ∧ ((acquire s p).1 = Err (RuntimeError "capacity_exhausted")
     ↔ (s ∉ active_sessions p) ∧ runnable_count p = max_concurrent_sessions limits).
Proof.
  intros Hpos Hp.
  assert (pool_inv p ∧ cq_limits p = limits) as [[Hw Hr] Hl].
  { eapply (rtc_invariant pool_use (λ p, pool_inv p ∧ cq_limits p = limits)); [|exact Hp|by split; [apply empty_pool_inv|]].
    intros a b [Ha <-] Hab. by apply pool_use_inv. }
  rewrite Hl in Hr. pose proof (subseteq_size _ _ Hw). split; [unfold runnable_count in *; lia|].
  rewrite acquire_run, Hl. case_bool_decide as Ha; [by split; [|intros [? _]]|].
  destruct (Z.leb_spec (max_concurrent_sessions limits) (runnable_count p)); cbn; (split; [|done || (intros [_ ?]; lia)]).
  - intros _. split; [done|lia].
  - done.
Qed.

(** ** Registrations *)
Record registry_inv (r : SessionRegistry) : Prop := {
  ri_bound : registration_count r <= sr_max_registrations r;
  ri_bound_to : ∀ pid reg, sr_by_profile r !! pid = Some reg → ∃ p,
    sr_profiles r !! pid = Some p ∧ ap_id p = pid ∧ reg = registration_key p ∧ is_Some (sr_registrations r !! reg);
  ri_key : ∀ reg i, sr_registrations r !! reg = Some i → ri_registration_id i = reg
}.

(** What registration keeps: bindings and registrations already made. *)
Record registry_le (r r' : SessionRegistry) : Prop := {
  rl_max : sr_max_registrations r' = sr_max_registrations r;
  rl_bindings : sr_by_profile r ⊆ sr_by_profile r';
  rl_registrations : sr_registrations r ⊆ sr_registrations r'
}.
#[export] Instance registry_le_preorder : PreOrder registry_le.
Proof.
  split; [by intros r; split|]. intros a b c [H1 H2 H3] [H4 H5 H6].
  split; [congruence|by etrans|by etrans].
Qed.

(** A profile that was not known, bound to its key in registrations [regs]. *)
Lemma bind_inv (p : AgentProfile) r regs : registry_inv r → sr_by_profile r !! ap_id p = None →
  sr_registrations r ⊆ regs → is_Some (regs !! registration_key p) →
  Z.of_nat (size regs) <= sr_max_registrations r →
  (∀ reg i, regs !! reg = Some i → ri_registration_id i = reg) →
  let r' := r <| sr_registrations := regs |> <| sr_profiles ::= <[ap_id p := p]> |>
              <| sr_by_profile ::= <[ap_id p := registration_key p]> |> in
  registry_inv r' ∧ registry_le r r'.
Proof.
  intros [Hb Ht Hk] Hnew Hsub Hreg Hsize Hkeys r'. split; split; cbn; try done.
  - intros pid reg [[<- <-]|[Hn Hpid]]%lookup_insert_Some; [exists p; by rewrite lookup_insert_eq|].
    destruct (Ht _ _ Hpid) as (q & Hq & Hid & -> & Hr). exists q. rewrite lookup_insert_ne by done.
    split_and!; [done..|]. destruct Hr as [i Hr]. exists i. by eapply lookup_weaken.
  - by apply insert_subseteq.
Qed.

Lemma register_profile_inv p r : registry_inv r →
  registry_inv (register_profile p r).2 ∧ registry_le r (register_profile p r).2.
Proof.
  intros I. pose proof I as [Hb Ht Hk]. unfold register_profile, mbind, M_bind, get_state.
  destruct (sr_by_profile r !! ap_id p) as [reg|] eqn:Hp; [by destruct (sr_registrations r !! reg)|].
  destruct (Z.leb_spec (sr_max_registrations r) (registration_count r)); [done|].
  destruct (sr_registrations r !! registration_key p) as [i|] eqn:Hreg.
  - apply (bind_inv p r (sr_registrations r)); eauto.
  - apply (bind_inv p r (<[registration_key p := _]> (sr_registrations r))); auto.
    + by apply insert_subseteq.
    + rewrite lookup_insert_eq. eauto.
    + rewrite map_size_insert_None by done. unfold registration_count in *. lia.
    + intros reg i [[<- <-]|[_ Hi]]%lookup_insert_Some; [done|by apply Hk].
Qed.

Inductive registry_use : SessionRegistry → SessionRegistry → Prop :=
| use_register p r : registry_use r (register_profile p r).2
| use_open fresh p task r : registry_use r (open_session fresh p task r).2.

Lemma open_session_run fresh p task r : open_session fresh p task r = match register_profile p r with
  | (Ok _, r') => (Ok (mkAgentSession fresh (ap_id p) task None 1 [] "idle"),
                   r' <| sr_sessions ::= <[fresh := mkAgentSession fresh (ap_id p) task None 1 [] "idle"]> |>)
  | (Err e, r') => (Err e, r') end.
Proof. unfold open_session, mbind, M_bind. by destruct (register_profile p r) as [[|] ?]. Qed.

Lemma registry_use_inv r r' : registry_use r r' → registry_inv r → registry_inv r' ∧ registry_le r r'.
Proof.
  intros Hu I. destruct Hu as [p r|fresh p task r]; [by apply register_profile_inv|].
  rewrite open_session_run. destruct (register_profile_inv p r I) as [I' L].
  destruct (register_profile p r) as [[|] r']; [|done]. cbn in *. destruct I', L. by split; split.
Qed.
Lemma new_registry_inv : registry_inv new_registry.
Proof. by split. Qed.

(** Sessions and profiles may be opened in any number and order: the framework has at most
    [max_registrations] registrations, a profile that was registered stays bound to the same
    registration, whose key is the one of its role and version. *)
Theorem registrations_are_bounded_and_stable r r' pid reg :
  rtc registry_use new_registry r → rtc registry_use r r' → sr_by_profile r !! pid = Some reg →
  registration_count r' <= 64 ∧ sr_by_profile r' !! pid = Some reg
  ∧ ∃ i p, sr_registrations r !! reg = Some i ∧ sr_registrations r' !! reg = Some i
      ∧ sr_profiles r !! pid = Some p ∧ reg = registration_key p ∧ ri_registration_id i = reg.
Proof.
  intros Hr Hr' Hb.
  assert (∀ a b, rtc registry_use a b → registry_inv a → registry_inv b ∧ registry_le a b) as Hrtc.
  { intros a b. induction 1 as [a|a b c Hab _ IH]; intros I; [done|].
    destruct (registry_use_inv _ _ Hab I) as [I' L]. destruct (IH I') as [I'' L']. split; [done|by etrans]. }
  destruct (Hrtc _ _ Hr new_registry_inv) as [I L0]. destruct (Hrtc _ _ Hr' I) as [I' [Hm Hbs Hrs]].
  destruct (ri_bound_to r I _ _ Hb) as (p & Hp & _ & -> & [i Hi]). split_and!.
  - pose proof (ri_bound r' I') as Hbd. rewrite Hm, (rl_max _ _ L0) in Hbd. exact Hbd.
  - by eapply lookup_weaken.
  - exists i, p. split_and!; [done|by eapply lookup_weaken|done|done|by apply (ri_key r I)].
Qed.

(** ** Concrete runs *)
Module CapacitySample.
Definition one_slot : ResourceLimits := mkResourceLimits 20 50 3600 1.
Definition pool1 : CapacityPool := (acquire "as_1" (mkCapacityPool one_slot ∅ ∅)).2.
Definition pool2 : CapacityPool := (acquire "as_2" (mark_waiting_children "as_1" pool1)).2.
Lemma pool2_used : rtc pool_use (mkCapacityPool one_slot ∅ ∅) pool2.
Proof.
  eapply rtc_l; [apply (use_acquire "as_1")|]. eapply rtc_l; [apply (use_mark "as_1")|].
  - apply (bool_decide_unpack _). vm_compute. reflexivity.
  - eapply rtc_l; [apply (use_acquire "as_2")|]. apply rtc_refl.
Qed.
Lemma runnable_sessions_are_bounded_witness : 0 <= runnable_count pool2 <= 1
  ∧ ((acquire "as_3" pool2).1 = Err (RuntimeError "capacity_exhausted")
     ↔ ("as_3" ∉ active_sessions pool2) ∧ runnable_count pool2 = 1).
Proof. apply (runnable_sessions_are_bounded one_slot pool2 "as_3"); [cbn; lia|exact pool2_used]. Defined.

(** [clear_waiting] of a session that waits makes it runnable without a slot. *)
Example cleared_session_exceeds_the_bound : runnable_count (clear_waiting "as_1" pool2) = 2.
Proof. vm_compute. reflexivity. Qed.

Definition prof (id role version : string) : AgentProfile := mkAgentProfile id role version [] "default" "none" [].
Definition reg1 : SessionRegistry := (open_session "as_1" (prof "ap_1" "data" "v1_2") None new_registry).2.
Definition reg2 : SessionRegistry := (register_profile (prof "ap_2" "data_v1" "2") reg1).2.
Lemma registrations_are_bounded_and_stable_witness :
  registration_count reg2 <= 64 ∧ sr_by_profile reg2 !! "ap_1" = Some "reg_data_v1_2"
  ∧ ∃ i p, sr_registrations reg1 !! "reg_data_v1_2" = Some i ∧ sr_registrations reg2 !! "reg_data_v1_2" = Some i
      ∧ sr_profiles reg1 !! "ap_1" = Some p ∧ "reg_data_v1_2" = registration_key p ∧ ri_registration_id i = "reg_data_v1_2".
Proof.
  apply (registrations_are_bounded_and_stable reg1 reg2 "ap_1" "reg_data_v1_2").
  - apply rtc_once, (use_open "as_1").
  - apply rtc_once, use_register.
  - vm_compute. reflexivity.
Defined.

(** Two profiles of different roles share a registration: the underscore of the key is not
    escaped, and the second profile is registered under the role of the first. *)
Example roles_can_share_a_registration :
  (ri_role <$> sr_registrations reg2 !! default "" (sr_by_profile reg2 !! "ap_2")) = Some "data".
Proof. vm_compute. reflexivity. Qed.

(** At the bound a profile is refused although its registration exists. *)
Definition full : SessionRegistry := (register_profile (prof "ap_1" "data" "1") (new_registry <| sr_max_registrations := 1 |>)).2.
Example full_registry_refuses_a_shared_registration :
  (register_profile (prof "ap_2" "data" "1") full).1 = Err (RuntimeError "registration_cap_exceeded")
  ∧ is_Some (sr_registrations full !! registration_key (prof "ap_2" "data" "1")).
Proof. split; [vm_compute; reflexivity|]. eexists. vm_compute. reflexivity. Qed.
End CapacitySample.
