(* ===== verification/Objectives.v ===== *)
(** * Objectives: persistent objectives and the missions they propose

    objectives/__init__.py and objectives/contracts.py.  An objective is an object that
    [_objectives] and [_versions] share: [pause] and [revoke] write to the one object, so the
    version list shows the change.  Objects therefore live in a heap, and both tables hold
    references.  [_triggers] is kept in insertion order; proposals are held by [_proposals]
    alone.  Each reading of the clock advances a counter ([clock n] is the n-th reading, in
    microseconds) and so does each drawn id.  [datetime.fromisoformat], which only the expiry
    of an objective needs, is a parameter: any reading of the text as an instant or an error.
    Comparing [timestamp()] floats with a cutoff 3600 seconds back is comparing the instants:
    in one binade of the float the cutoff is exact and rounding is the same on both sides.

    Shown: at most [rate_limit_per_hour] triggers of an objective fall into any hour; per
    objective and dedupe key there is one trigger, and a repeated one adds nothing (the proposal
    is a model that strips its strings, so it carries the key without outer white space); a
    proposal is admitted once, from an objective that is then active and not stopped, and the
    count of active missions is the number of admitted proposals. *)
From S2P Require Import Prelude Collections PyFloat Json.
From Stdlib Require Import Ascii.
Open Scope Z_scope.

Record ObjectiveContract := mkObjective {
  oc_objective_id : string;
  oc_project_id : string;
  oc_version : Z;
  oc_goal : string;
  oc_trigger_policy : string;
  oc_schedule_cron : option string;
  oc_event_types : list string;
  oc_rate_limit_per_hour : Z;
  oc_max_active_missions : Z;
  oc_allowed_mission_templates : list string;
  oc_tool_envelope : list string;
  oc_data_envelope : list string;
  oc_provider_envelope : list string;
  oc_spend_usd_ceiling : float;
  oc_state : string;
  oc_stop_conditions : list string;
  oc_expires_at : option string;
  oc_created_at : string
}.
#[export] Instance eta_ObjectiveContract : Eta ObjectiveContract := λ x,
  mkObjective (oc_objective_id x) (oc_project_id x) (oc_version x) (oc_goal x) (oc_trigger_policy x)
    (oc_schedule_cron x) (oc_event_types x) (oc_rate_limit_per_hour x) (oc_max_active_missions x)
    (oc_allowed_mission_templates x) (oc_tool_envelope x) (oc_data_envelope x) (oc_provider_envelope x)
    (oc_spend_usd_ceiling x) (oc_state x) (oc_stop_conditions x) (oc_expires_at x) (oc_created_at x).

Record MissionProposal := mkProposal {
  mp_proposal_id : string;
  mp_objective_id : string;
  mp_objective_version : Z;
  mp_project_id : string;
  mp_goal : string;
  mp_template_id : string;
  mp_state : string;
  mp_mission_id : option string;
  mp_dedupe_key : string;
  mp_created_at : Z
}.
#[export] Instance eta_MissionProposal : Eta MissionProposal := λ x,
  mkProposal (mp_proposal_id x) (mp_objective_id x) (mp_objective_version x) (mp_project_id x) (mp_goal x)
    (mp_template_id x) (mp_state x) (mp_mission_id x) (mp_dedupe_key x) (mp_created_at x).

Record Trigger := mkTrigger {
  tg_objective : string;
  tg_dedupe_key : string;
  tg_proposal_id : string;
  tg_trigger_kind : string;
  tg_at : Z
}.

Record ObjectiveRepository := mkRepository {
  or_heap : list ObjectiveContract;
  or_objectives : gmap string nat;
  or_versions : gmap string (list nat);
  or_triggers : list Trigger;
  or_trigger_times : gmap string (list Z);
  or_proposals : gmap string MissionProposal;
  or_active_by_objective : gmap string Z;
  or_stop_hits : gmap string (gset string);
  or_draws : nat;
  or_reads : nat
}.
#[export] Instance eta_ObjectiveRepository : Eta ObjectiveRepository := λ x,
  mkRepository (or_heap x) (or_objectives x) (or_versions x) (or_triggers x) (or_trigger_times x)
    (or_proposals x) (or_active_by_objective x) (or_stop_hits x) (or_draws x) (or_reads x).
Definition new_repository : ObjectiveRepository := mkRepository [] ∅ ∅ [] ∅ ∅ ∅ ∅ 0 0.

Definition ObjectiveError : string → exn := Exn "ObjectiveError".
Definition hour : Z := 3600 * 1000000.

Section objectives.
Context (hex : nat → string) (clock : nat → Z) (fromisoformat : string → result Z).

Definition draw (prefix : string) : M ObjectiveRepository string := λ s,
  (Ok (prefix +:+ hex (or_draws s)), s <| or_draws ::= S |>).
Definition read_clock : M ObjectiveRepository Z := λ s, (Ok (clock (or_reads s)), s <| or_reads ::= S |>).

Definition versions_of (s : ObjectiveRepository) (objective_id : string) : list ObjectiveContract :=
  omap (λ i, or_heap s !! i) (default [] (or_versions s !! objective_id)).

Definition create (objective : ObjectiveContract) : M ObjectiveRepository ObjectiveContract :=
  raise_if (fltb (oc_spend_usd_ceiling objective) (float_of_Z 0)) (ObjectiveError "invalid_spend_ceiling");;
  raise_if (fltb (float_of_Z 0) (oc_spend_usd_ceiling objective)) (ObjectiveError "paid_spend_requires_operator_auth");;
  s ← get_state;
  let id := oc_objective_id objective in
  raise_if (existsb (λ prior, oc_version prior =? oc_version objective) (versions_of s id))
    (ObjectiveError "objective_version_immutable");;
  let i := length (or_heap s) in
  put_state (s <| or_heap ::= λ h, h ++ [objective] |>
               <| or_objectives ::= <[id := i]> |>
               <| or_versions ::= <[id := default [] (or_versions s !! id) ++ [i]]> |>);;
  mret objective.

(** [get]: a reference to the current object of the id. *)
Definition get_ref (objective_id : string) : M ObjectiveRepository nat :=
  s ← get_state;
  require (or_objectives s !! objective_id) (ObjectiveError "objective_missing").
Definition deref (i : nat) : M ObjectiveRepository ObjectiveContract :=
  s ← get_state;
  require (or_heap s !! i) (KeyError "object").
Definition get_objective (objective_id : string) : M ObjectiveRepository ObjectiveContract :=
  i ← get_ref objective_id; deref i.
(** [obj.state = st]. *)
Definition set_objective_state (i : nat) (st : string) : M ObjectiveRepository () :=
  modify (λ s, s <| or_heap ::= alter (λ o : ObjectiveContract, o <| oc_state := st |>) i |>).

Definition pause (objective_id : string) : M ObjectiveRepository ObjectiveContract :=
  i ← get_ref objective_id; set_objective_state i "paused";; deref i.
Definition revoke (objective_id : string) : M ObjectiveRepository ObjectiveContract :=
  i ← get_ref objective_id; set_objective_state i "revoked";; deref i.

Definition mark_stop (objective_id condition : string) : M ObjectiveRepository ObjectiveContract :=
  i ← get_ref objective_id;
  modify (λ s, s <| or_stop_hits ::= <[objective_id := default ∅ (or_stop_hits s !! objective_id) ∪ {[condition]}]> |>);;
  obj ← deref i;
  (if one_of condition (oc_stop_conditions obj) || one_of "*" (oc_stop_conditions obj)
   then set_objective_state i "revoked" else mret ());;
  deref i.

(** One of the three scopes of [intersect_authority]: an empty envelope lets everything through. *)
Definition intersect_one (name : string) (requested : option (gset string)) (envelope : list string)
    : M ObjectiveRepository (gset string) :=
  let env : gset string := list_to_set envelope in
  let req := default env requested in
  raise_if (negb (bool_decide (env = ∅)) && bool_decide (req ∩ env = ∅))
    (ObjectiveError ("authority_intersection_empty:" +:+ name));;
  mret (if bool_decide (env = ∅) then req else req ∩ env).
Definition intersect_authority (objective_id : string) (tools data providers : option (gset string))
    : M ObjectiveRepository (gset string * gset string * gset string) :=
  obj ← get_objective objective_id;
  t ← intersect_one "tools" tools (oc_tool_envelope obj);
  d ← intersect_one "data" data (oc_data_envelope obj);
  p ← intersect_one "providers" providers (oc_provider_envelope obj);
  mret (t, d, p).

(** [value.replace("Z", "+00:00")]. *)
Fixpoint replace_z (s : string) : string :=
  match s with
  | EmptyString => ""
  | String c s' => if bool_decide (c = "Z"%char) then "+00:00" +:+ replace_z s' else String c (replace_z s')
  end.
Definition _parse_iso (value : option string) : result (option Z) :=
  match value with
  | Some v => if bool_decide (v = "") then Ok None
              else match fromisoformat (replace_z v) with Ok t => Ok (Some t) | Err e => Err e end
  | None => Ok None
  end.

Definition stopped (s : ObjectiveRepository) (obj : ObjectiveContract) : bool :=
  existsb (λ c, bool_decide (c ∈ default ∅ (or_stop_hits s !! oc_objective_id obj))) (oc_stop_conditions obj).
Definition _enforce_active (i : nat) : M ObjectiveRepository () :=
  obj ← deref i;
  raise_if (negb (bool_decide (oc_state obj = "active"))) (ObjectiveError ("objective_not_active:" +:+ oc_state obj));;
  expires ← of_result (_parse_iso (oc_expires_at obj));
  match expires with
  | Some t =>
    now ← read_clock;
    if t <=? now then set_objective_state i "expired";; raise (ObjectiveError "objective_expired") else mret ()
  | None => mret ()
  end;;
  s ← get_state;
  if stopped s obj then set_objective_state i "revoked";; raise (ObjectiveError "stop_condition_met") else mret ().

Definition kept_times (now : Z) (window : list Z) : list Z := List.filter (λ t, now - hour <=? t) window.
Definition _enforce_rate (objective_id : string) (limit : Z) : M ObjectiveRepository () :=
  now ← read_clock;
  s ← get_state;
  let kept := kept_times now (default [] (or_trigger_times s !! objective_id)) in
  put_state (s <| or_trigger_times ::= <[objective_id := kept]> |>);;
  raise_if (limit <=? Z.of_nat (length kept)) (ObjectiveError "rate_limit_per_hour").

Definition has_key (objective_id dedupe_key : string) (t : Trigger) : bool :=
  bool_decide (tg_objective t = objective_id) && bool_decide (tg_dedupe_key t = dedupe_key).

(** The template of a new proposal. *)
Definition chosen_template (template_id : option string) (obj : ObjectiveContract) : string :=
  match template_id with
  | Some t => if bool_decide (t = "") then hd "generic" (oc_allowed_mission_templates obj) else t
  | None => hd "generic" (oc_allowed_mission_templates obj)
  end.

Definition check_policy (obj : ObjectiveContract) (trigger_kind : string) : M ObjectiveRepository () :=
  let under p := bool_decide (oc_trigger_policy obj = p) in
  raise_if (under "schedule" && negb (bool_decide (trigger_kind = "schedule"))) (ObjectiveError "trigger_policy_denied");;
  raise_if (under "event" && negb (bool_decide (trigger_kind = "event"))) (ObjectiveError "trigger_policy_denied");;
  raise_if (under "schedule" && negb (truthy (oc_schedule_cron obj))) (ObjectiveError "schedule_cron_required");;
  raise_if (under "event" && bool_decide (oc_event_types obj = [])) (ObjectiveError "event_types_required").

(** A repeated trigger: a copy of the proposal, marked and not stored. *)
Definition duplicate (t : Trigger) (dedupe_key : string) : M ObjectiveRepository MissionProposal :=
  s ← get_state;
  match or_proposals s !! tg_proposal_id t with
  | Some e =>
    id ← draw "mpr_"; now ← read_clock;
    mret (mkProposal id (mp_objective_id e) (mp_objective_version e) (mp_project_id e) (mp_goal e)
            (mp_template_id e) "duplicate" (trim <$> mp_mission_id e) (trim dedupe_key) now)
  | None => raise (ObjectiveError "duplicate_trigger")
  end.

Definition propose (obj : ObjectiveContract) (objective_id dedupe_key trigger_kind tmpl : string)
    : M ObjectiveRepository MissionProposal :=
  id ← draw "mpr_"; created ← read_clock;
  let proposal := mkProposal id (oc_objective_id obj) (oc_version obj) (oc_project_id obj) (oc_goal obj) (trim tmpl)
                    "proposed" None (trim dedupe_key) created in
  at_ ← read_clock;
  modify (λ s, s <| or_proposals ::= <[id := proposal]> |>
                 <| or_triggers ::= λ l, l ++ [mkTrigger objective_id dedupe_key id trigger_kind at_] |>);;
  now ← read_clock;
  modify (λ s, s <| or_trigger_times ::= <[objective_id := default [] (or_trigger_times s !! objective_id) ++ [now]]> |>);;
  mret proposal.

(** The checks of [trigger] on the objective alone. *)
Definition ready_objective (objective_id trigger_kind : string) : M ObjectiveRepository ObjectiveContract :=
  i ← get_ref objective_id;
  _enforce_active i;;
  obj ← deref i;
  check_policy obj trigger_kind;;
  mret obj.

Definition trigger (objective_id dedupe_key trigger_kind : string) (template_id : option string)
    : M ObjectiveRepository MissionProposal :=
  obj ← ready_objective objective_id trigger_kind;
  s ← get_state;
  match find (has_key objective_id dedupe_key) (or_triggers s) with
  | Some t => duplicate t dedupe_key
  | None =>
    _enforce_rate objective_id (oc_rate_limit_per_hour obj);;
    s ← get_state;
    raise_if (oc_max_active_missions obj <=? default 0 (or_active_by_objective s !! objective_id))
      (ObjectiveError "max_active_missions");;
    let tmpl := chosen_template template_id obj in
    raise_if (negb (bool_decide (oc_allowed_mission_templates obj = [])) && negb (one_of tmpl (oc_allowed_mission_templates obj)))
      (ObjectiveError "template_not_allowed");;
    propose obj objective_id dedupe_key trigger_kind tmpl
  end.

Definition admit_to_mission (proposal_id : string) (mission_id : option string) : M ObjectiveRepository MissionProposal :=
  s ← get_state;
  proposal ← require (or_proposals s !! proposal_id) (ObjectiveError "proposal_missing");
  raise_if (negb (one_of (mp_state proposal) ["proposed"; "duplicate"])) (ObjectiveError ("proposal_state:" +:+ mp_state proposal));;
  raise_if (bool_decide (mp_state proposal = "duplicate")) (ObjectiveError "duplicate_cannot_admit");;
  i ← get_ref (mp_objective_id proposal);
  _enforce_active i;;
  mid ← (if truthy mission_id then mret (default "" mission_id) else draw "mis_");
  let admitted := proposal <| mp_mission_id := Some mid |> <| mp_state := "admitted" |> in
  modify (λ s, s <| or_proposals ::= <[proposal_id := admitted]> |>
                 <| or_active_by_objective ::= <[mp_objective_id proposal :=
                      default 0 (or_active_by_objective s !! mp_objective_id proposal) + 1]> |>);;
  mret admitted.
End objectives.

(** ** Invariants *)
Inductive objective_op :=
  | Create (objective : ObjectiveContract)
  | Pause (objective_id : string)
  | Revoke (objective_id : string)
  | MarkStop (objective_id condition : string)
  | Trig (objective_id dedupe_key trigger_kind : string) (template_id : option string)
  | Admit (proposal_id : string) (mission_id : option string).

Section props.
Context (hex : nat → string) (clock : nat → Z) (fromisoformat : string → result Z).

Definition exec (o : objective_op) : M ObjectiveRepository () :=
  match o with
  | Create obj => create obj;; mret ()
  | Pause id => pause id;; mret ()
  | Revoke id => revoke id;; mret ()
  | MarkStop id c => mark_stop id c;; mret ()
  | Trig id key kind tmpl => trigger hex clock fromisoformat id key kind tmpl;; mret ()
  | Admit pid mid => admit_to_mission hex clock fromisoformat pid mid;; mret ()
  end.

Definition limits (s : ObjectiveRepository) (id : string) : list Z := oc_rate_limit_per_hour <$> versions_of s id.
Definition tables (s : ObjectiveRepository) : Prop := ∀ id i, or_objectives s !! id = Some i →
  ∃ o, or_heap s !! i = Some o ∧ oc_objective_id o = id ∧ i ∈ default [] (or_versions s !! id).

(** What no operation but [trigger] and [admit_to_mission] goes beyond. *)
Record quiet (s s' : ObjectiveRepository) : Prop := {
  q_triggers : or_triggers s' = or_triggers s;
  q_times : or_trigger_times s' = or_trigger_times s;
  q_proposals : or_proposals s' = or_proposals s;
  q_active : or_active_by_objective s' = or_active_by_objective s;
  q_reads : (or_reads s <= or_reads s')%nat;
  q_draws : (or_draws s <= or_draws s')%nat;
  q_limits : ∀ id, limits s id ⊆ limits s' id;
  q_tables : tables s → tables s'
}.
#[local] Instance quiet_preorder : PreOrder quiet.
Proof.
  split; [intros s; by constructor|]. intros s1 s2 s3 [] []. constructor; try congruence; try lia; try set_solver; auto.
Qed.

Lemma limits_elem s id n : n ∈ limits s id ↔
  ∃ i o, i ∈ default [] (or_versions s !! id) ∧ or_heap s !! i = Some o ∧ n = oc_rate_limit_per_hour o.
Proof.
  unfold limits, versions_of. rewrite list_elem_of_fmap. setoid_rewrite list_elem_of_omap.
  split; [intros (o & -> & i & Hi & Ho)|intros (i & o & Hi & Ho & ->)]; eauto 6.
Qed.

(** A change of heap and version lists that keeps what is there. *)
Lemma quiet_heap s s' :
  or_triggers s' = or_triggers s → or_trigger_times s' = or_trigger_times s → or_proposals s' = or_proposals s →
  or_active_by_objective s' = or_active_by_objective s → or_reads s' = or_reads s → or_draws s' = or_draws s →
  (∀ i o, or_heap s !! i = Some o → ∃ o', or_heap s' !! i = Some o'
    ∧ oc_rate_limit_per_hour o' = oc_rate_limit_per_hour o ∧ oc_objective_id o' = oc_objective_id o) →
  (∀ id, default [] (or_versions s !! id) ⊆ default [] (or_versions s' !! id)) →
  (∀ id i, or_objectives s' !! id = Some i → or_objectives s !! id = Some i ∨
    (∃ o, or_heap s' !! i = Some o ∧ oc_objective_id o = id) ∧ i ∈ default [] (or_versions s' !! id)) → quiet s s'.
Proof.
  intros ?????? Hh Hv Ho. constructor; try done; try lia.
  - intros id n (i & o & Hi & Hio & ->)%limits_elem. destruct (Hh _ _ Hio) as (o' & Ho' & Hl & _).
    apply limits_elem. exists i, o'. split; [by apply Hv|]. by rewrite Hl.
  - intros Ht id i [Hi|[[o [Hi Hid]] Hin]]%Ho; [|by exists o].
    destruct (Ht _ _ Hi) as (o & Hio & Hid & Hin). destruct (Hh _ _ Hio) as (o' & Ho' & _ & Hid').
    exists o'. split_and!; [done|congruence|by apply Hv].
Qed.

Lemma quiet_state i st : moves quiet (set_objective_state i st).
Proof.
  intros s. apply quiet_heap; try done; [|by left].
  intros j o Hj. cbn. destruct (decide (i = j)) as [->|Hne].
  - rewrite list_lookup_alter_eq, Hj. by eexists.
  - rewrite list_lookup_alter_ne by done. by eexists.
Qed.
Lemma quiet_read : moves quiet (read_clock clock).
Proof. intros s. constructor; cbn; try done. lia. Qed.
Lemma quiet_draw p : moves quiet (draw hex p).
Proof. intros s. constructor; cbn; try done. lia. Qed.
Lemma quiet_deref i : moves quiet (deref i).
Proof. unfold deref. repeat moves_step. Qed.
Lemma quiet_ref id : moves quiet (get_ref id).
Proof. unfold get_ref. repeat moves_step. Qed.
#[local] Hint Resolve quiet_state quiet_read quiet_draw quiet_deref quiet_ref : swarm.

Ltac quiet_run := repeat first [moves_step | solve [auto with swarm]].

Lemma quiet_active i : moves quiet (_enforce_active clock fromisoformat i).
Proof. unfold _enforce_active. quiet_run. Qed.
Lemma quiet_stop id c : moves quiet (mark_stop id c).
Proof.
  unfold mark_stop. moves_step; [auto with swarm|].
  moves_step; [|quiet_run]. apply moves_modify. intros s. by apply quiet_heap; eauto.
Qed.
Lemma quiet_create o : moves quiet (create o).
Proof.
  unfold create. do 2 (apply moves_bind; [tc_solve|apply (moves_raise_if quiet)|intros []]).
  intros s. apply (moves_at quiet); [apply (moves_get quiet)|]. intros a s0 Ha. apply get_state_Ok in Ha as [-> ->].
  apply (moves_at quiet); [apply (moves_raise_if quiet)|]. intros [] s0 [_ ->]%raise_if_Ok.
  erewrite bind_run by reflexivity. apply quiet_heap; try done; cbn.
  - intros i x Hi. exists x. split; [by apply lookup_app_l_Some|done].
  - intros id. destruct (decide (id = oc_objective_id o)) as [->|Hne].
    + rewrite lookup_insert_eq. cbn. set_solver.
    + by rewrite lookup_insert_ne.
  - intros id i Hi. destruct (decide (id = oc_objective_id o)) as [->|Hne].
    + rewrite lookup_insert_eq in Hi. injection Hi as <-. right. rewrite lookup_insert_eq. cbn.
      rewrite list_lookup_middle by done. split; [by exists o|set_solver].
    + rewrite lookup_insert_ne in Hi by done. by left.
Qed.
Lemma quiet_duplicate t k : moves quiet (duplicate hex clock t k).
Proof. unfold duplicate. quiet_run. Qed.
#[local] Hint Resolve quiet_active quiet_stop quiet_create quiet_duplicate : swarm.

Definition count {A} (p : A → bool) (l : list A) : nat := length (List.filter p l).
Lemma count_app {A} (p : A → bool) l1 l2 : count p (l1 ++ l2) = (count p l1 + count p l2)%nat.
Proof. unfold count. by rewrite List.filter_app, length_app. Qed.
Lemma count_snoc {A} (p : A → bool) l x : count p (l ++ [x]) = (count p l + if p x then 1 else 0)%nat.
Proof. rewrite count_app. unfold count at 2. cbn. by destruct (p x). Qed.
Lemma count_le {A} (p q : A → bool) l : (∀ x, p x = true → q x = true) → (count p l <= count q l)%nat.
Proof.
  intros H. induction l as [|x l IH]; [done|]. unfold count in *. cbn.
  destruct (p x) eqn:Hp; [rewrite (H _ Hp); cbn; lia|]. destruct (q x); cbn; lia.
Qed.
Lemma count_all {A} (p : A → bool) l : (count p l <= length l)%nat.
Proof. unfold count. induction l as [|x l IH]; cbn; [done|]. destruct (p x); cbn; lia. Qed.
Lemma count_filter {A} (p q : A → bool) l : (∀ x, p x = true → q x = true) → count p (List.filter q l) = count p l.
Proof.
  intros H. induction l as [|x l IH]; [done|]. unfold count in *. cbn. destruct (q x) eqn:Hq.
  - cbn. destruct (p x); cbn; by rewrite IH.
  - destruct (p x) eqn:Hp; [by rewrite (H _ Hp) in Hq|done].
Qed.

#[local] Arguments count : simpl never.

(** An objective from which missions may be proposed and admitted at an instant. *)
Definition open_at (s : ObjectiveRepository) (now : Z) (o : ObjectiveContract) : Prop :=
  oc_state o = "active" ∧ stopped s o = false
  ∧ ∃ e, _parse_iso fromisoformat (oc_expires_at o) = Ok e ∧ ∀ t, e = Some t → now < t.

Lemma active_Ok i s s' : _enforce_active clock fromisoformat i s = (Ok (), s') →
  ∃ o, or_heap s !! i = Some o ∧ open_at s (clock (or_reads s)) o ∧ or_heap s' = or_heap s ∧ or_objectives s' = or_objectives s.
Proof.
  unfold _enforce_active. intros (o & s1 & Hd & H)%bind_Ok. unfold deref in Hd.
  apply bind_Ok in Hd as (? & ? & [-> ->]%get_state_Ok & [Ho ->]%require_Ok).
  apply bind_Ok in H as ([] & ? & [Hst ->]%raise_if_Ok & H).
  apply bind_Ok in H as (e & ? & [He ->]%of_result_Ok & H). apply bind_Ok in H as ([] & s2 & H1 & H).
  exists o. split; [done|]. apply negb_false_iff, bool_decide_eq_true in Hst.
  assert (s2 = s ∨ s2 = s <| or_reads ::= S |>) as Hs2.
  { destruct e as [t|]; [|apply mret_Ok in H1 as [_ ->]; by left].
    apply bind_Ok in H1 as (now & s3 & [= <- <-] & H1). destruct (t <=? _); [|apply mret_Ok in H1 as [_ ->]; by right].
    by apply bind_Ok in H1 as (? & ? & _ & ?%raise_Ok). }
  apply bind_Ok in H as (? & ? & [-> ->]%get_state_Ok & H). destruct (stopped s2 o) eqn:Hstop.
  { by apply bind_Ok in H as (? & ? & _ & ?%raise_Ok). }
  apply mret_Ok in H as [_ ->]. split; [|by destruct Hs2 as [->| ->]]. split_and!; [done|by destruct Hs2 as [->| ->]|].
  exists e. split; [done|]. intros t ->. apply bind_Ok in H1 as (now & s3 & [= <- <-] & H1).
  destruct (Z.leb_spec t (clock (or_reads s))); [|done]. by apply bind_Ok in H1 as (? & ? & _ & ?%raise_Ok).
Qed.

Lemma quiet_moves {A} (m : M ObjectiveRepository A) s r s' : moves quiet m → m s = (r, s') → quiet s s'.
Proof. intros Hm He. specialize (Hm s). by rewrite He in Hm. Qed.

(** A call that fails leaves what [quiet] lets change. *)
Definition quiet_err {A} (m : M ObjectiveRepository A) : Prop := ∀ s e s', m s = (Err e, s') → quiet s s'.
Lemma quiet_err_bind {A B} (m : M ObjectiveRepository A) (k : A → M ObjectiveRepository B) :
  moves quiet m → (∀ a, quiet_err (k a)) → quiet_err (m ≫= k).
Proof.
  intros Hm Hk s e s' [H|(a & s1 & H1 & H2)]%bind_Err; [by eapply quiet_moves|].
  etrans; [by eapply quiet_moves|by eapply Hk].
Qed.
Lemma quiet_err_ok {A} (f : ObjectiveRepository → ObjectiveRepository) (a : A) : quiet_err (modify f;; mret a).
Proof. by intros s e s' [?%modify_Err|(? & ? & _ & ?%mret_Err)]%bind_Err. Qed.
Lemma admit_err pid mid : quiet_err (admit_to_mission hex clock fromisoformat pid mid).
Proof.
  unfold admit_to_mission. do 7 (apply quiet_err_bind; [first [solve [auto with swarm]|by repeat moves_step|
    destruct (truthy mid); [apply moves_ret, _|apply quiet_draw]]|intros]). apply quiet_err_ok.
Qed.

(** What a successful admission did. *)
Lemma admit_Ok pid mid s p s' : admit_to_mission hex clock fromisoformat pid mid s = (Ok p, s') →
  ∃ p0 i o s1, or_proposals s !! pid = Some p0 ∧ mp_state p0 = "proposed"
    ∧ or_objectives s !! mp_objective_id p0 = Some i ∧ or_heap s !! i = Some o ∧ open_at s (clock (or_reads s)) o
    ∧ quiet s s1 ∧ mp_state p = "admitted" ∧ p = p0 <| mp_mission_id := mp_mission_id p |> <| mp_state := "admitted" |>
    ∧ s' = s1 <| or_proposals ::= <[pid := p]> |>
              <| or_active_by_objective ::= <[mp_objective_id p0 := default 0 (or_active_by_objective s1 !! mp_objective_id p0) + 1]> |>.
Proof.
  unfold admit_to_mission. intros (? & ? & [-> ->]%get_state_Ok & H)%bind_Ok.
  apply bind_Ok in H as (p0 & ? & [Hp ->]%require_Ok & H). apply bind_Ok in H as ([] & ? & [H1 ->]%raise_if_Ok & H).
  apply bind_Ok in H as ([] & ? & [H2 ->]%raise_if_Ok & H). apply bind_Ok in H as (i & s0 & Hi & H).
  unfold get_ref in Hi. apply bind_Ok in Hi as (? & ? & [-> ->]%get_state_Ok & [Hi ->]%require_Ok).
  apply bind_Ok in H as ([] & s1 & Ha & H). destruct (active_Ok _ _ _ Ha) as (o & Ho & Hopen & _).
  apply bind_Ok in H as (m & s2 & Hm & H). apply bind_Ok in H as ([] & s3 & ->%modify_Ok & [-> ->]%mret_Ok).
  exists p0, i, o, s2. split_and!; try done.
  - apply bool_decide_eq_false in H2. apply negb_false_iff, bool_decide_eq_true in H1. set_solver.
  - etrans; [exact (quiet_moves _ _ _ _ (quiet_active i) Ha)|]. eapply quiet_moves; [|exact Hm].
    destruct (truthy mid); [apply moves_ret, _|apply quiet_draw].
Qed.

Lemma ready_Ok id kind s o s' : ready_objective clock fromisoformat id kind s = (Ok o, s') →
  ∃ i, or_objectives s' !! id = Some i ∧ or_heap s' !! i = Some o.
Proof.
  unfold ready_objective. intros (i & ? & Hi & H)%bind_Ok.
  unfold get_ref in Hi. apply bind_Ok in Hi as (? & ? & [-> ->]%get_state_Ok & [Hi ->]%require_Ok).
  apply bind_Ok in H as ([] & s1 & Ha & H). destruct (active_Ok _ _ _ Ha) as (o1 & Ho & _ & Hh & Hobj).
  apply bind_Ok in H as (o2 & ? & Hd & H). unfold deref in Hd.
  apply bind_Ok in Hd as (? & ? & [-> ->]%get_state_Ok & [Ho' ->]%require_Ok).
  apply bind_Ok in H as ([] & s2 & Hc & [-> ->]%mret_Ok). assert (s2 = s1) as -> by (unfold check_policy in Hc; run_inv; done).
  exists i. by rewrite Hobj.
Qed.
Lemma quiet_ready id kind : moves quiet (ready_objective clock fromisoformat id kind).
Proof. unfold ready_objective, check_policy. quiet_run. Qed.

(** The triggers of an objective since an instant, and in the hour from an instant on. *)
Definition since (id : string) (x : Z) (g : Trigger) : bool := bool_decide (tg_objective g = id) && (x <=? tg_at g).
Definition in_hour (id : string) (x : Z) (g : Trigger) : bool := since id x g && (tg_at g <=? x + hour).

Definition admitted_of (id : string) (kv : string * MissionProposal) : Prop :=
  mp_state kv.2 = "admitted" ∧ mp_objective_id kv.2 = id.
#[local] Instance admitted_of_dec id kv : Decision (admitted_of id kv).
Proof. apply _. Defined.
Definition admitted_count (s : ObjectiveRepository) (id : string) : nat := size (filter (admitted_of id) (or_proposals s)).

Hypothesis clock_mono : ∀ i j, (i <= j)%nat → clock i <= clock j.
Hypothesis hex_inj : Inj (=) (=) hex.

(** The invariant, with some admitted proposals that stay as they are. *)
Section kept.
Context (K : gmap string MissionProposal) (K_admitted : ∀ pid p, K !! pid = Some p → mp_state p = "admitted").

Record wf (s : ObjectiveRepository) : Prop := {
  wf_kept : K ⊆ or_proposals s;
  wf_tables : tables s;
  wf_recorded : ∀ id x, clock (or_reads s) - hour <= x →
    (count (since id x) (or_triggers s) <= count (λ t, (x <=? t)%Z) (default [] (or_trigger_times s !! id)))%nat;
  wf_window : ∀ id x, count (in_hour id x) (or_triggers s) = 0%nat ∨
    ∃ l, l ∈ limits s id ∧ Z.of_nat (count (in_hour id x) (or_triggers s)) <= l;
  wf_keys : NoDup ((λ g, (tg_objective g, tg_dedupe_key g)) <$> or_triggers s);
  wf_source : ∀ pid p, or_proposals s !! pid = Some p → ∃ g, g ∈ or_triggers s ∧ tg_proposal_id g = pid
    ∧ tg_objective g = mp_objective_id p ∧ trim (tg_dedupe_key g) = mp_dedupe_key p;
  wf_ids : ∀ pid p, or_proposals s !! pid = Some p → mp_proposal_id p = pid
    ∧ ∃ k, (k < or_draws s)%nat ∧ pid = "mpr_" +:+ hex k;
  wf_states : ∀ pid p, or_proposals s !! pid = Some p → mp_state p = "proposed" ∨ mp_state p = "admitted";
  wf_active : ∀ id, default 0 (or_active_by_objective s !! id) = Z.of_nat (admitted_count s id)
}.


Lemma kept_insert (m : gmap string MissionProposal) pid p :
  K ⊆ m → (∀ q, m !! pid = Some q → mp_state q ≠ "admitted") → K ⊆ <[pid := p]> m.
Proof using K_admitted.
  intros HK Hp. apply map_subseteq_spec. intros k q Hkq. rewrite lookup_insert_ne; [by eapply lookup_weaken|].
  intros <-. apply (Hp q); [by eapply lookup_weaken|by eapply K_admitted].
Qed.

Lemma wf_quiet s s' : quiet s s' → wf s → wf s'.
Proof.
  intros [Ht Hm Hp Ha Hr Hd Hl Htab] [???????? Hact]. constructor; rewrite ?Ht, ?Hm, ?Hp, ?Ha; auto.
  - intros id x Hx. apply wf_recorded0. specialize (clock_mono _ _ Hr). lia.
  - intros id x. destruct (wf_window0 id x) as [?|(l & ? & ?)]; [by left|]. right. exists l. split; [by apply Hl|done].
  - intros pid p (? & k & ? & ?)%wf_ids0. split; [done|]. exists k. split; [lia|done].
  - intros id. rewrite Hact. unfold admitted_count. by rewrite Hp.
Qed.

Lemma enforce_rate_run id limit s :
  let kept := kept_times (clock (or_reads s)) (default [] (or_trigger_times s !! id)) in
  _enforce_rate clock id limit s =
  (if limit <=? Z.of_nat (length kept) then Err (ObjectiveError "rate_limit_per_hour") else Ok (),
   s <| or_reads ::= S |> <| or_trigger_times ::= <[id := kept]> |>).
Proof.
  intros kept. unfold _enforce_rate. erewrite bind_run by reflexivity. erewrite bind_run by reflexivity.
  erewrite bind_run by reflexivity. unfold raise_if. cbn. fold kept. by destruct (limit <=? _).
Qed.

Lemma wf_rate id limit s : wf s → wf (_enforce_rate clock id limit s).2.
Proof.
  intros [? Htab Hrec Hwin ?????]. rewrite enforce_rate_run. constructor; cbn; auto.
  intros id' x Hx. assert (clock (or_reads s) <= clock (S (or_reads s))) as Hc by (apply clock_mono; lia).
  destruct (decide (id = id')) as [<-|Hne].
  - rewrite lookup_insert_eq. cbn. unfold kept_times. rewrite count_filter; [apply Hrec; lia|]. intros t. lia.
  - rewrite lookup_insert_ne by done. apply Hrec. lia.
Qed.

Lemma propose_run obj id key kind tmpl s :
  let pid := "mpr_" +:+ hex (or_draws s) in
  let p := mkProposal pid (oc_objective_id obj) (oc_version obj) (oc_project_id obj) (oc_goal obj) (trim tmpl)
             "proposed" None (trim key) (clock (or_reads s)) in
  propose hex clock obj id key kind tmpl s =
  (Ok p, s <| or_draws ::= S |> <| or_reads := S (S (S (or_reads s))) |>
           <| or_proposals ::= <[pid := p]> |>
           <| or_triggers ::= λ l, l ++ [mkTrigger id key pid kind (clock (S (or_reads s)))] |>
           <| or_trigger_times ::= <[id := default [] (or_trigger_times s !! id) ++ [clock (S (S (or_reads s)))]]> |>).
Proof. reflexivity. Qed.

Lemma fresh_proposal s : wf s → or_proposals s !! ("mpr_" +:+ hex (or_draws s)) = None.
Proof.
  intros Hwf. destruct (or_proposals s !! _) as [p|] eqn:Hp; [|done].
  destruct (wf_ids _ Hwf _ _ Hp) as (_ & k & Hk & He). apply (inj (String.app "mpr_")), hex_inj in He. lia.
Qed.

Lemma wf_propose obj id key kind tmpl s : wf s →
  oc_objective_id obj = id → oc_rate_limit_per_hour obj ∈ limits s id →
  Z.of_nat (length (default [] (or_trigger_times s !! id))) < oc_rate_limit_per_hour obj →
  find (has_key id key) (or_triggers s) = None →
  wf (propose hex clock obj id key kind tmpl s).2.
Proof.
  intros Hwf Hid Hlim Hlen Hnew. pose proof (fresh_proposal _ Hwf) as Hfresh. rewrite propose_run.
  destruct Hwf as [HK Htab Hrec Hwin Hkeys Hsrc Hids Hst Hact].
  assert (∀ k, (or_reads s <= k)%nat → clock (or_reads s) <= clock k) as Hle by (intros; apply clock_mono; lia).
  assert (clock (S (or_reads s)) <= clock (S (S (or_reads s)))) as Hat by (apply clock_mono; lia).
  assert (clock (S (S (or_reads s))) <= clock (S (S (S (or_reads s))))) as Hnext by (apply clock_mono; lia).
  pose proof (Hle (S (or_reads s))) as H1. constructor; cbn; auto.
  - apply kept_insert; [done|]. intros q Hq. congruence.
  - intros id' x Hx. rewrite count_snoc. specialize (Hrec id' x). unfold since at 2. cbn [tg_objective tg_at].
    destruct (decide (id = id')) as [<-|Hne].
    + rewrite lookup_insert_eq, bool_decide_true by done. cbn. rewrite count_snoc.
      destruct (Z.leb_spec x (clock (S (or_reads s)))); destruct (Z.leb_spec x (clock (S (S (or_reads s))))); cbn; lia.
    + rewrite lookup_insert_ne, bool_decide_false by done. cbn. lia.
  - intros id' x. rewrite count_snoc. destruct (in_hour id' x _) eqn:Hin; [|rewrite Nat.add_0_r; apply Hwin].
    unfold in_hour, since in Hin. cbn [tg_objective tg_at] in Hin.
    apply andb_prop in Hin as [[<-%bool_decide_eq_true Hx]%andb_prop Hx2]. right. exists (oc_rate_limit_per_hour obj).
    split; [done|]. specialize (Hrec id x).
    pose proof (count_all (λ t, x <=? t) (default [] (or_trigger_times s !! id))) as Hb.
    pose proof (count_le (in_hour id x) (since id x) (or_triggers s) (λ g Hg, proj1 (andb_prop _ _ Hg))) as Hc. lia.
  - rewrite fmap_app. apply NoDup_app. split_and!; [done| |by repeat constructor; set_solver].
    intros [a b] (g & [= -> ->] & Hg)%list_elem_of_fmap [= Ha Hb]%list_elem_of_singleton.
    apply list_elem_of_In, (find_none _ _ Hnew) in Hg. unfold has_key in Hg. by rewrite !bool_decide_true in Hg.
  - intros pid p [[<- <-]|[Hne Hp]]%lookup_insert_Some.
    + eexists. split; [apply elem_of_app; right; by left|done].
    + destruct (Hsrc _ _ Hp) as (g & Hg & ?). exists g. split; [apply elem_of_app; by left|done].
  - intros pid p [[<- <-]|[Hne Hp]]%lookup_insert_Some.
    + split; [done|]. exists (or_draws s). split; [lia|done].
    + destruct (Hids _ _ Hp) as (? & k & ? & ?). split; [done|]. exists k. split; [lia|done].
  - intros pid p [[<- <-]|[Hne Hp]]%lookup_insert_Some; [by left|by eapply Hst].
  - intros id'. rewrite Hact. unfold admitted_count. cbn. rewrite map_filter_insert_False, delete_id; [done| |by intros [[=] _]].
    done.
Qed.

Lemma wf_admit pid mid s : wf s → wf (admit_to_mission hex clock fromisoformat pid mid s).2.
Proof.
  intros Hwf. destruct (admit_to_mission _ _ _ _ _ _) as [[p|e] s'] eqn:He; cbn.
  - apply admit_Ok in He as (p0 & i & o & s1 & Hp & Hst & _ & _ & _ & Hq & Hadm & Heq & ->).
    rewrite <- (q_proposals _ _ Hq) in Hp. apply (wf_quiet _ _ Hq) in Hwf as [HK ???? Hsrc Hids Hsts Hact].
    assert (mp_objective_id p = mp_objective_id p0 ∧ mp_dedupe_key p = mp_dedupe_key p0 ∧ mp_proposal_id p = mp_proposal_id p0)
      as (Ho & Hk & Hpid) by (by rewrite Heq).
    constructor; cbn; auto.
    + apply kept_insert; [done|]. congruence.
    + intros k q [[<- <-]|[_ Hq']]%lookup_insert_Some; [rewrite Ho, Hk|]; by apply Hsrc.
    + intros k q [[<- <-]|[_ Hq']]%lookup_insert_Some; [rewrite Hpid|]; by apply Hids.
    + intros k q [[<- <-]|[_ Hq']]%lookup_insert_Some; [by right|by eapply Hsts].
    + intros id. unfold admitted_count. cbn. destruct (decide (mp_objective_id p0 = id)) as [<-|Hne].
      * rewrite lookup_insert_eq. cbn. rewrite map_filter_insert_True by (by split; [|rewrite <- Ho]).
        rewrite map_size_insert_None, Hact; [unfold admitted_count; lia|]. apply map_lookup_filter_None. right.
        intros q Hq' [Ha _]. cbn in Ha. congruence.
      * rewrite lookup_insert_ne by done. rewrite Hact. unfold admitted_count.
        rewrite map_filter_insert_False by (intros [_ Hq']; cbn in Hq'; congruence).
        rewrite map_filter_delete, delete_id; [done|]. apply map_lookup_filter_None. right.
        intros q Hq' [_ Ha]. cbn in Ha. congruence.
  - eapply wf_quiet; [|exact Hwf]. by eapply admit_err.
Qed.

Lemma wf_at {A B} (m : M ObjectiveRepository A) (k : A → M ObjectiveRepository B) s :
  wf (m s).2 → (∀ a s1, m s = (Ok a, s1) → wf s1 → wf (k a s1).2) → wf ((m ≫= k) s).2.
Proof. unfold mbind, M_bind. destruct (m s) as [[a|e] s1]; auto. Qed.
Lemma wf_moves {A} (m : M ObjectiveRepository A) s : moves quiet m → wf s → wf (m s).2.
Proof. intros Hm. apply wf_quiet, Hm. Qed.

Lemma wf_trigger id key kind tmpl s : wf s → wf (trigger hex clock fromisoformat id key kind tmpl s).2.
Proof.
  intros Hwf. unfold trigger. apply wf_at; [by apply wf_moves; [apply quiet_ready|]|]. intros o s1 Hr Hwf1.
  destruct (ready_Ok _ _ _ _ _ Hr) as (i & Hi & Ho).
  destruct (wf_tables _ Hwf1 _ _ Hi) as (o' & Ho' & Hid & Hin). rewrite Ho in Ho'. injection Ho' as <-.
  assert (oc_rate_limit_per_hour o ∈ limits s1 id) as Hlim by (apply limits_elem; eauto). clear Hr.
  apply wf_at; [done|]. intros ? ? [-> ->]%get_state_Ok _. destruct (find _ _) as [g|] eqn:Hf.
  { by apply wf_moves; [apply quiet_duplicate|]. }
  apply wf_at; [by apply wf_rate|]. intros [] s2 Hr Hwf2. rewrite enforce_rate_run in Hr.
  destruct (Z.leb_spec (oc_rate_limit_per_hour o) (Z.of_nat (length (kept_times (clock (or_reads s1)) (default [] (or_trigger_times s1 !! id))))))
    as [|Hlt]; [discriminate|]. injection Hr as <-.
  apply wf_at; [done|]. intros ? ? [-> ->]%get_state_Ok _.
  apply wf_at; [by apply wf_moves; [moves_step|]|]. intros [] ? [_ ->]%raise_if_Ok _.
  apply wf_at; [by apply wf_moves; [moves_step|]|]. intros [] ? [_ ->]%raise_if_Ok _.
  apply wf_propose; try done. cbn. by rewrite lookup_insert_eq.
Qed.

Lemma exec_wf o s : wf s → wf (exec o s).2.
Proof.
  intros Hwf. destruct o; cbn [exec]; (apply wf_at; [|by intros ? ? _ ?]);
    first [by apply wf_trigger|by apply wf_admit|apply wf_moves; [|done]]; try solve [auto with swarm].
  all: unfold pause, revoke; quiet_run.
Qed.
Lemma after_wf ops s : wf s → wf (after exec ops s).
Proof. apply after_invariant. intros. by apply exec_wf. Qed.
End kept.

Lemma wf_new : wf ∅ new_repository.
Proof.
  constructor; cbn; try done; try (intros; by left); try (by intros ?? ?%lookup_empty_Some); constructor.
Qed.
Lemma reachable_wf ops : wf ∅ (after exec ops new_repository).
Proof. apply after_wf; [by intros ?? ?%lookup_empty_Some|apply wf_new]. Qed.
Lemma wf_keep K s : wf ∅ s → K ⊆ or_proposals s → wf K s.
Proof. by intros [] ?; constructor. Qed.

(** C38: Whatever objectives are created, versioned, paused and triggered, at most as many triggers of an
    objective fall into any one hour as a version of the objective allows per hour. *)
Theorem triggers_are_rate_limited ops id x :
  let s := after exec ops new_repository in
  let n := length (List.filter (in_hour id x) (or_triggers s)) in
  n = 0%nat ∨ ∃ v, v ∈ versions_of s id ∧ Z.of_nat n <= oc_rate_limit_per_hour v.
Proof.
  intros s n. destruct (wf_window _ _ (reachable_wf ops) id x) as [H|(l & Hl & Hn)]; [by left|right].
  apply list_elem_of_fmap in Hl as (v & -> & Hv). by exists v.
Qed.

(** A recorded trigger is the one its objective and key are looked up to. *)
Lemma wf_find K s g : wf K s → g ∈ or_triggers s → find (has_key (tg_objective g) (tg_dedupe_key g)) (or_triggers s) = Some g.
Proof.
  intros Hwf Hg. destruct (find _ _) as [g'|] eqn:Hf.
  - apply find_some in Hf as [Hg' [H1%bool_decide_eq_true H2%bool_decide_eq_true]%andb_prop].
    apply list_elem_of_In, list_elem_of_lookup in Hg' as [j Hj]. apply list_elem_of_lookup in Hg as [i Hi].
    assert (i = j) as ->; [|congruence]. eapply (NoDup_lookup _ i j (tg_objective g, tg_dedupe_key g)); [exact (wf_keys _ _ Hwf)|..];
      rewrite list_lookup_fmap, ?Hi, ?Hj; cbn; congruence.
  - apply list_elem_of_In, (find_none _ _ Hf) in Hg. unfold has_key in Hg. by rewrite !bool_decide_true in Hg.
Qed.

Lemma duplicate_Ok g key s p s' : duplicate hex clock g key s = (Ok p, s') →
  mp_state p = "duplicate" ∧ mp_proposal_id p = "mpr_" +:+ hex (or_draws s).
Proof.
  unfold duplicate. intros (? & ? & [-> ->]%get_state_Ok & H)%bind_Ok. destruct (or_proposals s !! _) as [e|]; [|by apply raise_Ok in H].
  apply bind_Ok in H as (pid & s1 & [= <- <-] & H). by apply bind_Ok in H as (now & s2 & _ & [-> ->]%mret_Ok).
Qed.

(** A trigger that was recorded before: a marked copy or an error, and nothing is added. *)
Lemma retrigger K s g kind tmpl : wf K s → g ∈ or_triggers s →
  let run := trigger hex clock fromisoformat (tg_objective g) (tg_dedupe_key g) kind tmpl s in
  quiet s run.2 ∧ ∀ p, run.1 = Ok p → mp_state p = "duplicate" ∧ or_proposals s !! mp_proposal_id p = None.
Proof.
  intros Hwf Hin run. pose proof (wf_find _ _ _ Hwf Hin) as Hg.
  assert (∀ s1, quiet s s1 → or_proposals s !! ("mpr_" +:+ hex (or_draws s1)) = None) as Hnew.
  { intros s1 Hq. rewrite <- (q_proposals _ _ Hq). eapply fresh_proposal, wf_quiet; [exact Hq|exact Hwf]. }
  unfold run, trigger. pose proof (quiet_ready (tg_objective g) kind s) as Hq.
  destruct (ready_objective _ _ _ _ s) as [[o|e] s1] eqn:He; cbn in Hq;
    [|erewrite bind_run_err by exact He; split; [exact Hq|intros ? [=]]].
  erewrite bind_run by exact He. erewrite bind_run by reflexivity. rewrite (q_triggers _ _ Hq), Hg. split; [etrans; [exact Hq|apply quiet_duplicate]|].
  intros p Hd. destruct (duplicate_Ok g (tg_dedupe_key g) s1 p (duplicate hex clock g (tg_dedupe_key g) s1).2) as [Hst ->];
    [by apply run_eq|auto].
Qed.

(** In every repository the operations reach, each stored proposal is that of a recorded trigger,
    whose key it carries stripped of white space; no other trigger is recorded for that objective
    and key; and a trigger that repeats them stores nothing: it fails, or returns a copy marked
    as a duplicate whose id names no stored proposal. *)
Theorem proposals_are_deduplicated ops pid p0 :
  let s := after exec ops new_repository in
  or_proposals s !! pid = Some p0 →
  ∃ g, g ∈ or_triggers s ∧ tg_proposal_id g = pid ∧ mp_objective_id p0 = tg_objective g ∧ mp_dedupe_key p0 = trim (tg_dedupe_key g)
  ∧ (∀ g', g' ∈ or_triggers s → tg_objective g' = tg_objective g → tg_dedupe_key g' = tg_dedupe_key g → g' = g)
  ∧ ∀ kind tmpl,
    let run := trigger hex clock fromisoformat (tg_objective g) (tg_dedupe_key g) kind tmpl s in
    or_proposals run.2 = or_proposals s ∧ or_triggers run.2 = or_triggers s
    ∧ or_active_by_objective run.2 = or_active_by_objective s
    ∧ ∀ p, run.1 = Ok p → mp_state p = "duplicate" ∧ or_proposals s !! mp_proposal_id p = None.
Proof.
  intros s Hp. pose proof (reachable_wf ops) as Hwf. fold s in Hwf.
  destruct (wf_source _ _ Hwf _ _ Hp) as (g & Hg & Hpid & Ho & Hk). exists g. split_and!; [done..| |].
  - intros g' Hg' Ho' Hk'. pose proof (wf_find _ _ _ Hwf Hg') as Hf. rewrite Ho', Hk', (wf_find _ _ _ Hwf Hg) in Hf.
    by injection Hf.
  - intros kind tmpl run. destruct (retrigger _ _ _ kind tmpl Hwf Hg) as [Hq Hr]. by destruct Hq.
Qed.

(** C39: A proposal is admitted only while it is proposed and its objective is active, unexpired and not
    stopped; it is admitted once, whatever is called afterwards; and the count of active missions
    of every objective is the number of its admitted proposals. *)
Theorem admissions_are_governed ops pid mid p s' :
  let s := after exec ops new_repository in
  admit_to_mission hex clock fromisoformat pid mid s = (Ok p, s') →
  (∃ p0 i o, or_proposals s !! pid = Some p0 ∧ mp_state p0 = "proposed"
    ∧ or_objectives s !! mp_objective_id p0 = Some i ∧ or_heap s !! i = Some o ∧ open_at s (clock (or_reads s)) o)
  ∧ (∀ id, default 0 (or_active_by_objective s' !! id) = Z.of_nat (admitted_count s' id))
  ∧ ∀ ops' mid', (admit_to_mission hex clock fromisoformat pid mid' (after exec ops' s')).1
      = Err (ObjectiveError "proposal_state:admitted").
Proof.
  intros s Ha. pose proof (reachable_wf ops) as Hwf. fold s in Hwf.
  pose proof (wf_admit ∅ (λ _ _ H, match lookup_empty_Some _ _ H with end) pid mid s Hwf) as Hwf'. rewrite Ha in Hwf'. cbn in Hwf'.
  destruct (admit_Ok _ _ _ _ _ Ha) as (p0 & i & o & s1 & Hp & Hst & Hi & Ho & Hopen & _ & Hadm & _ & Hs').
  split; [by exists p0, i, o|]. split; [apply Hwf'|]. intros ops' mid'.
  assert (or_proposals s' !! pid = Some p) as Hp' by (rewrite Hs'; apply lookup_insert_eq).
  assert (wf {[pid := p]} (after exec ops' s')) as Hend.
  { apply after_wf; [by intros ?? [<- <-]%lookup_singleton_Some|]. apply wf_keep; [done|]. by apply map_singleton_subseteq_l. }
  apply wf_kept, map_singleton_subseteq_l in Hend. unfold admit_to_mission.
  erewrite bind_run by reflexivity. rewrite Hend. erewrite bind_run by reflexivity. rewrite Hadm. reflexivity.
Qed.
End props.

(** ** A run *)
Module ObjectiveSample.
Definition hexs (n : nat) : string := pretty (N.of_nat n).
Definition ticks (n : nat) : Z := Z.of_nat n * 1000000.
Definition no_dates (_ : string) : result Z := Err (ValueError "Invalid isoformat string").
Lemma hexs_inj : Inj (=) (=) hexs.
Proof. intros m n H%(inj pretty). lia. Qed.
Lemma ticks_mono i j : (i <= j)%nat → ticks i <= ticks j.
Proof. unfold ticks. lia. Qed.

Definition digest_mail : ObjectiveContract :=
  mkObjective "obj_1" "p1" 1 "digest the mail" "manual" None [] 2 1 ["digest"] [] [] [] (float_of_Z 0) "active" ["budget"] None "".
Abbreviation go := (exec hexs ticks no_dates).
Definition history : list objective_op :=
  [Create digest_mail; Trig "obj_1" "monday" "manual" None; Trig "obj_1" "tuesday" "manual" (Some "digest");
   Trig "obj_1" "wednesday" "manual" None].
Abbreviation triggered := (after go history new_repository).

Lemma triggers_are_rate_limited_witness :
  length (List.filter (in_hour "obj_1" 0) (or_triggers triggered)) = 2%nat
  ∧ (length (List.filter (in_hour "obj_1" 0) (or_triggers triggered)) = 0%nat
     ∨ ∃ v, v ∈ versions_of triggered "obj_1"
         ∧ Z.of_nat (length (List.filter (in_hour "obj_1" 0) (or_triggers triggered))) <= oc_rate_limit_per_hour v).
Proof.
  split; [vm_compute; reflexivity|].
  exact (triggers_are_rate_limited hexs ticks no_dates ticks_mono hexs_inj history "obj_1" 0).
Defined.

Lemma proposals_are_deduplicated_witness : ∃ p0 g, or_proposals triggered !! "mpr_0" = Some p0
  ∧ tg_proposal_id g = "mpr_0" ∧ mp_dedupe_key p0 = trim (tg_dedupe_key g)
  ∧ (trigger hexs ticks no_dates (tg_objective g) (tg_dedupe_key g) "manual" None triggered).2.(or_proposals)
    = or_proposals triggered.
Proof.
  assert (is_Some (or_proposals triggered !! "mpr_0")) as [p0 Hp] by (by apply (bool_decide_unpack _); vm_compute).
  destruct (proposals_are_deduplicated hexs ticks no_dates ticks_mono hexs_inj history "mpr_0" p0 Hp) as (g & _ & Hpid & _ & Hk & _ & Hr).
  exists p0, g. split_and!; [exact Hp|exact Hpid|exact Hk|]. exact (proj1 (Hr "manual" None)).
Defined.

(** Keys are compared as they are given and stored stripped: two proposals have one key. *)
Example stored_keys_repeat :
  let s := after go [Create digest_mail; Trig "obj_1" "monday" "manual" None; Trig "obj_1" "monday " "manual" None] new_repository in
  (mp_dedupe_key <$> or_proposals s !! "mpr_0", mp_dedupe_key <$> or_proposals s !! "mpr_1") = (Some "monday", Some "monday").
Proof. by vm_compute. Qed.

Abbreviation admission := (admit_to_mission hexs ticks no_dates "mpr_0" None triggered).
Lemma admissions_are_governed_witness : ∃ p, admission.1 = Ok p
  ∧ (admit_to_mission hexs ticks no_dates "mpr_0" None (after go [Pause "obj_1"] admission.2)).1
    = Err (ObjectiveError "proposal_state:admitted").
Proof.
  eexists. split; [vm_compute; reflexivity|].
  eapply (admissions_are_governed hexs ticks no_dates ticks_mono hexs_inj history "mpr_0" None _ admission.2).
  vm_compute. reflexivity.
Defined.

(** [max_active_missions] is compared when a mission is proposed and not when it is admitted: two
    proposals made while none was active give two active missions of an objective that allows one. *)
Example active_missions_exceed_the_limit :
  or_active_by_objective (after go (history ++ [Admit "mpr_0" None; Admit "mpr_1" None]) new_repository) !! "obj_1" = Some 2
  ∧ oc_max_active_missions digest_mail = 1.
Proof. by vm_compute. Qed.

(** A ceiling that is not a number is neither negative nor positive, and is accepted. *)
Example unordered_ceiling_is_accepted :
  is_ok (create (digest_mail <| oc_spend_usd_ceiling := fdiv (float_of_Z 0) (float_of_Z 0) |>) new_repository).1 = true.
Proof. by vm_compute. Qed.

(** The stored versions are the objects the operations write to: a version's state changes. *)
Example versions_are_rewritten :
  oc_state <$> versions_of (after go [Create digest_mail; Revoke "obj_1"] new_repository) "obj_1" = ["revoked"].
Proof. by vm_compute. Qed.
End ObjectiveSample.
