(* ===== verification/Workspace.v ===== *)
(** * Workspace: shared findings, context, events and artifacts

    src/swarm/workspace: findings.py ([FindingStore]), context.py ([ContextAssembler]),
    events.py ([EventBus]), artifacts.py ([ArtifactStore]) and service.py
    ([SharedWorkspace]).  Findings are kept in insertion order; an event bus delivers to
    listeners, which act on a state [X] of their own; blobs are files by path, and [sha256]
    is a parameter.  The confidence of a finding, which nothing here reads, is left out. *)
From S2P Require Import Prelude Collections Contracts Json.
From Stdlib Require Import Ascii.
Open Scope Z_scope.

Module FindingStatus.
Inductive FindingStatus : Type := HYPOTHESIS | CORROBORATED | DISPUTED | ACCEPTED | SUPERSEDED.
#[export] Instance FindingStatus_eq_dec : EqDecision FindingStatus.
Proof. solve_decision. Defined.
Definition value (x : FindingStatus) : string :=
  match x with
  | HYPOTHESIS => "hypothesis"
  | CORROBORATED => "corroborated"
  | DISPUTED => "disputed"
  | ACCEPTED => "accepted"
  | SUPERSEDED => "superseded"
  end.
End FindingStatus.
Export (hints) FindingStatus.
Abbreviation FindingStatus := FindingStatus.FindingStatus.

Record Finding := mkFinding {
  fd_id : string;
  fd_created_at : Z;
  fd_project_id : string;
  fd_content : option string;
  fd_artifact_ref : option string;
  fd_source_ids : list string;
  fd_author : string;
  fd_task_id : string;
  fd_status : FindingStatus;
  fd_supersedes : option string;
  fd_acl : list string
}.
#[export] Instance eta_Finding : Eta Finding := λ r,
  mkFinding (fd_id r) (fd_created_at r) (fd_project_id r) (fd_content r) (fd_artifact_ref r) (fd_source_ids r)
    (fd_author r) (fd_task_id r) (fd_status r) (fd_supersedes r) (fd_acl r).

(** ** Findings (findings.py) *)
Record FindingRecord := mkFindingRecord {
  fr_finding : Finding;
  fr_scopes : list string;
  fr_topics : list string;
  fr_source_deleted : bool
}.
#[export] Instance eta_FindingRecord : Eta FindingRecord := λ r,
  mkFindingRecord (fr_finding r) (fr_scopes r) (fr_topics r) (fr_source_deleted r).
Abbreviation FindingStore := (dict FindingRecord).

(** [l or d] on lists. *)
Definition or_list {A} (l d : list A) : list A := match l with [] => d | _ => l end.
(** The object under a key, changed in place. *)
Definition dict_alter {V} (f : V → V) (d : dict V) (k : string) : dict V :=
  match dict_get d k with Some v => dict_set d k (f v) | None => d end.

Definition supersede (r : FindingRecord) : FindingRecord :=
  if bool_decide (fd_status (fr_finding r) = FindingStatus.SUPERSEDED) then r
  else r <| fr_finding ::= λ f, f <| fd_status := FindingStatus.SUPERSEDED |> |>.
Definition append (finding : Finding) (scopes topics : list string) (store : FindingStore) : FindingStore :=
  let scopes := or_list scopes (or_list (fd_acl finding) [fd_project_id finding]) in
  let store := match fd_supersedes finding with
               | Some prior => if bool_decide (prior = "") then store else dict_alter supersede store prior
               | None => store end in
  dict_set store (fd_id finding) (mkFindingRecord finding scopes topics false).
Definition get_finding (finding_id : string) (store : FindingStore) : option Finding :=
  fr_finding <$> dict_get store finding_id.
Definition mark_source_deleted (finding_id : string) (store : FindingStore) : FindingStore :=
  dict_alter (λ r, r <| fr_source_deleted := true |>) store finding_id.

Definition intersects (a b : list string) : bool := existsb (λ x, one_of x b) a.

(** [blob.count(q)], [q] not empty: occurrences without overlap. *)
Fixpoint count_from (fuel : nat) (q blob : string) : Z :=
  match fuel with
  | 0%nat => 0
  | S f => if String.prefix q blob then 1 + count_from f q (String.substring (String.length q) (String.length blob) blob)
           else match blob with EmptyString => 0 | String _ rest => count_from f q rest end
  end.
Definition count (q blob : string) : Z := count_from (S (String.length blob)) q blob.

Definition status_score (s : FindingStatus) : Z :=
  match s with
  | FindingStatus.ACCEPTED => 10
  | FindingStatus.CORROBORATED => 5
  | FindingStatus.DISPUTED => 1
  | FindingStatus.SUPERSEDED => -5
  | FindingStatus.HYPOTHESIS => 0
  end.
Definition visible (project_id : string) (allowed_scopes : list string) (statuses : list FindingStatus)
    (r : FindingRecord) : bool :=
  bool_decide (fd_project_id (fr_finding r) = project_id)
  && (intersects allowed_scopes (fr_scopes r) || one_of "*" allowed_scopes)
  && (bool_decide (statuses = []) || bool_decide (fd_status (fr_finding r) ∈ statuses)).
Definition blob_of (r : FindingRecord) : string :=
  let f := fr_finding r in
  to_lower (join " " [default "" (fd_content f); join " " (fd_source_ids f); join " " (fr_topics r)]).
Definition score_record (q : string) (r : FindingRecord) : option (Z * Finding) :=
  let blob := blob_of r in
  let rank := status_score (fd_status (fr_finding r)) - (if fr_source_deleted r then 20 else 0) in
  if bool_decide (q = "") then Some (rank, fr_finding r)
  else if contains q blob then Some (count q blob + rank, fr_finding r) else None.

(** [statuses] empty is the absent argument: any status. *)
Definition query_scoped (project_id : string) (allowed_scopes : list string) (query : string)
    (statuses : list FindingStatus) (store : FindingStore) : list Finding :=
  let q := strip (to_lower query) in
  let hits := omap (λ r, if visible project_id allowed_scopes statuses r then score_record q r else None) (dict_values store) in
  (sort_by (λ a b, b.1 <=? a.1) hits).*2.

(** ** Context (context.py) *)
Record ContextBudget := mkContextBudget {
  max_findings : Z;
  max_chars : Z;
  include_hypotheses : bool
}.
Definition default_budget : ContextBudget := mkContextBudget 8 4000 false.

Record ContextBundle := mkContextBundle {
  xb_id : string;
  xb_mission_id : string;
  xb_task_id : string;
  xb_graph_revision : Z;
  xb_excerpts : list (dict json);
  xb_provenance : list string;
  xb_omission_notes : list string;
  xb_token_estimate : option Z;
  xb_policy_version : string
}.

(** The lists and counters that the loops of [build] fill. *)
Record assembly := mkAssembly {
  am_excerpts : list (dict json);
  am_provenance : list string;
  am_omission : list string;
  am_used_chars : Z;
  am_included : Z
}.
#[export] Instance eta_assembly : Eta assembly := λ r,
  mkAssembly (am_excerpts r) (am_provenance r) (am_omission r) (am_used_chars r) (am_included r).

Definition len (s : string) : Z := Z.of_nat (String.length s).
Definition piece (f : Finding) : dict json :=
  [("finding_id", JStr (fd_id f)); ("status", JStr (FindingStatus.value (fd_status f)));
   ("content", JStr (default "" (fd_content f))); ("source_ids", JList (JStr <$> fd_source_ids f));
   ("untrusted_external_text", JBool true)].
Definition omit (note : string) (a : assembly) : assembly := a <| am_omission ::= λ o, o ++ [note] |>.
Definition add_finding (budget : ContextBudget) (a : assembly) (f : Finding) : assembly :=
  if max_findings budget <=? am_included a then omit ("truncated_findings_after=" +:+ fd_id f) a
  else
    let size := len (default "" (fd_content f)) in
    if max_chars budget <? am_used_chars a + size then omit ("truncated_chars_at=" +:+ fd_id f) a
    else a <| am_excerpts ::= λ e, e ++ [piece f] |>
           <| am_provenance ::= λ p, p ++ fd_source_ids f ++ (if truthy (fd_artifact_ref f) then option_list (fd_artifact_ref f) else []) |>
           <| am_used_chars ::= Z.add size |> <| am_included ::= Z.add 1 |>.
(** [str(tool.get("summary") or tool)]. *)
Definition tool_text (tool : dict json) : string :=
  let summary := default JNull (dict_get tool "summary") in
  py_str (if py_truthy summary then summary else JObj tool).
Definition add_tool (budget : ContextBudget) (a : assembly) (i : nat) (tool : dict json) : assembly :=
  let text := tool_text tool in
  if max_chars budget <? am_used_chars a + len text then omit ("omitted_tool_output_" +:+ pretty i) a
  else a <| am_excerpts ::= λ e, e ++ [[("tool_output", JObj tool); ("untrusted_external_text", JBool true)]] |>
         <| am_used_chars ::= Z.add (len text) |>.
Fixpoint add_tools (budget : ContextBudget) (a : assembly) (i : nat) (tools : list (dict json)) : assembly :=
  match tools with [] => a | t :: tools' => add_tools budget (add_tool budget a i t) (S i) tools' end.

(** [list(dict.fromkeys(l))]. *)
Fixpoint distinct (seen l : list string) : list string :=
  match l with
  | [] => []
  | x :: l' => if one_of x seen then distinct seen l' else x :: distinct (x :: seen) l'
  end.

Definition lacks_sources (e : dict json) : bool :=
  negb (py_truthy (default JNull (dict_get e "source_ids"))) && py_truthy (default JNull (dict_get e "finding_id")).

(** The findings of the task's project that the scopes let through. *)
Definition scope_filter (task : TaskSpec) (allowed_scopes : list string) (f : Finding) : bool :=
  let acl := or_list (fd_acl f) [ts_project_id task] in
  intersects acl (ts_scopes task) || intersects acl allowed_scopes.
Definition scoped_findings (task : TaskSpec) (allowed_scopes : list string) (budget : ContextBudget)
    (store : FindingStore) : list Finding :=
  let statuses := [FindingStatus.ACCEPTED; FindingStatus.CORROBORATED; FindingStatus.DISPUTED]
                  ++ (if include_hypotheses budget then [FindingStatus.HYPOTHESIS] else []) in
  let scopes := or_list (filter (λ s, one_of s (ts_scopes task)) allowed_scopes) allowed_scopes in
  filter (λ f, scope_filter task allowed_scopes f) (query_scoped (ts_project_id task) scopes "" statuses store).

Definition assemble (budget : ContextBudget) (findings : list Finding) (tools : list (dict json)) : assembly :=
  add_tools budget (foldl (add_finding budget) (mkAssembly [] [] [] 0 0) findings) 0 tools.
Definition notes (a : assembly) : list string :=
  am_omission a
  ++ (if bool_decide (am_omission a = []) then [] else ["certainty_reduced_due_to_truncation"])
  ++ (if existsb lacks_sources (am_excerpts a) then ["some_findings_lack_source_ids_treat_as_uncertain"] else []).

Definition build (fresh : string) (text_only : bool) (task : TaskSpec) (allowed_scopes : list string)
    (budget : ContextBudget) (prior_tool_outputs : list (dict json)) (graph_revision : Z) (policy_version : string)
    (store : FindingStore) : result ContextBundle :=
  if negb text_only then Err (RuntimeError "embedding_mode_requires_broker") else
  let a := assemble budget (scoped_findings task allowed_scopes budget store) prior_tool_outputs in
  Ok (mkContextBundle fresh (ts_mission_id task) (ts_id task) graph_revision (am_excerpts a)
        (distinct [] (am_provenance a)) (notes a) (Some (Z.max 1 (am_used_chars a / 4))) policy_version).

(** ** Events (events.py) *)
Record EventEnvelope := mkEventEnvelope {
  ev_id : string;
  ev_occurred_at : Z;
  ev_mission_id : option string;
  ev_task_id : option string;
  ev_project_id : string;
  ev_actor : string;
  ev_type : string;
  ev_payload : dict json;
  ev_attempt_id : option string;
  ev_causation_id : option string;
  ev_correlation_id : option string;
  ev_dedupe_key : option string
}.
(** An envelope with the optional fields left out. *)
Definition new_event (id : string) (now : Z) (mission_id task_id : option string) (project_id actor type : string)
    (payload : dict json) : EventEnvelope :=
  mkEventEnvelope id now mission_id task_id project_id actor type payload None None None None.
Record Subscription := mkSubscription {
  sb_subscription_id : string;
  sb_project_id : string;
  sb_event_types : list string;
  sb_mission_id : option string;
  sb_task_id : option string;
  sb_scopes : list string
}.
Definition Listener (X : Type) : Type := EventEnvelope → M X ().
Record EventBus (X : Type) := mkEventBus {
  eb_subs : dict Subscription;
  eb_listeners : gmap string (list (Listener X));
  eb_log : list EventEnvelope
}.
Arguments mkEventBus {X} _ _ _.
Arguments eb_subs {X} _.
Arguments eb_listeners {X} _.
Arguments eb_log {X} _.
#[export] Instance eta_EventBus X : Eta (EventBus X) := λ r, mkEventBus (eb_subs r) (eb_listeners r) (eb_log r).

(** [if o and o != x] lets [x] through when the subscription names nothing. *)
Definition admits (o x : option string) : bool := negb (truthy o) || bool_decide (o = x).
Definition matches (event : EventEnvelope) (sub : Subscription) : bool :=
  bool_decide (sb_project_id sub = ev_project_id event)
  && (one_of (ev_type event) (sb_event_types sub) || one_of "*" (sb_event_types sub))
  && admits (sb_mission_id sub) (ev_mission_id event) && admits (sb_task_id sub) (ev_task_id event).

Section bus.
Context {X : Type}.

Definition subscribe (sub : Subscription) (listener : option (Listener X)) (b : EventBus X) : EventBus X :=
  let id := sb_subscription_id sub in
  let b := b <| eb_subs ::= λ d, dict_set d id sub |> in
  match listener with
  | Some l => b <| eb_listeners ::= <[id := default [] (eb_listeners b !! id) ++ [l]]> |>
  | None => b
  end.

(** The listeners of one matching subscription, then the rest. *)
Fixpoint deliver (listeners : gmap string (list (Listener X))) (event : EventEnvelope) (subs : dict Subscription) : M X (list string) :=
  match subs with
  | [] => mret []
  | (id, sub) :: subs' =>
    if matches event sub then
      for_each (λ l : Listener X, l event) (default [] (listeners !! id));;
      rest ← deliver listeners event subs';
      mret (id :: rest)
    else deliver listeners event subs'
  end.
Definition publish (event : EventEnvelope) : M (EventBus X * X) (list string) :=
  modify (λ w, (w.1 <| eb_log ::= λ l, l ++ [event] |>, w.2));;
  b ← gets fst;
  zoom snd (λ x w, (w.1, x)) (deliver (eb_listeners b) event (eb_subs b)).

(** [rows[-limit:]]: the slice from the end, which for a limit of 0 is everything. *)
Definition last_rows {A} (limit : Z) (rows : list A) : list A :=
  let n := Z.of_nat (length rows) in
  drop (Z.to_nat (if 0 <? limit then Z.max 0 (n - limit) else - limit)) rows.
Definition history (project_id : string) (event_type : option string) (limit : Z) (b : EventBus X) : list EventEnvelope :=
  let rows := filter (λ e, ev_project_id e = project_id) (eb_log b) in
  let rows := if truthy event_type then filter (λ e, Some (ev_type e) = event_type) rows else rows in
  last_rows limit rows.
End bus.

(** ** Artifacts (artifacts.py) *)
Record ArtifactRef := mkArtifactRef {
  art_id : string;
  art_content_hash : string;
  art_uri : string;
  art_media_type : string;
  art_byte_length : Z;
  art_owner_scope : string;
  art_retention_class : string;
  art_created_at : Z
}.
#[export] Instance eta_ArtifactRef : Eta ArtifactRef := λ r,
  mkArtifactRef (art_id r) (art_content_hash r) (art_uri r) (art_media_type r) (art_byte_length r)
    (art_owner_scope r) (art_retention_class r) (art_created_at r).
Record ArtifactStore := mkArtifactStore {
  ax_root : string;
  ax_files : gmap string string;        (** bytes by path *)
  ax_meta : gmap string ArtifactRef;
  ax_deleted : gset string
}.
#[export] Instance eta_ArtifactStore : Eta ArtifactStore := λ r,
  mkArtifactStore (ax_root r) (ax_files r) (ax_meta r) (ax_deleted r).

Section artifacts.
Variable content_hash : string → string.   (** hex digest of SHA-256 *)

Definition blob_path (root digest : string) : string :=
  root +:+ "/" +:+ String.substring 0 2 digest +:+ "/" +:+ digest.
Definition put_ref (ref : ArtifactRef) (s : ArtifactStore) : ArtifactStore :=
  s <| ax_meta ::= <[art_id ref := ref]> |> <| ax_deleted ::= λ d, d ∖ {[art_id ref]} |>.
Definition put (fresh : string) (now : Z) (content media_type owner_scope retention_class : string)
    (expected_hash : option string) : M ArtifactStore ArtifactRef :=
  let digest := content_hash content in
  match expected_hash with
  | Some h => raise_if (negb (bool_decide (h = digest)))
                (Exn "ChecksumMismatchError" ("expected=" +:+ h +:+ " actual=" +:+ digest))
  | None => mret ()
  end;;
  s ← get_state;
  let path := blob_path (ax_root s) digest in
  match ax_files s !! path with
  | None => modify (λ s, s <| ax_files ::= <[path := content]> |>)
  | Some data => raise_if (negb (bool_decide (content_hash data = digest))) (Exn "ChecksumMismatchError" "corrupt_on_disk")
  end;;
  let ref := mkArtifactRef fresh digest ("file://" +:+ path) media_type (Z.of_nat (String.length content))
               owner_scope retention_class now in
  modify (put_ref ref);;
  mret ref.

Definition resolve (artifact_id : string) (allowed_scopes : list string) : M ArtifactStore ArtifactRef :=
  s ← get_state;
  raise_if (bool_decide (artifact_id ∈ ax_deleted s)) (Exn "FileNotFoundError" ("artifact_deleted:" +:+ artifact_id));;
  ref ← require (ax_meta s !! artifact_id) (KeyError artifact_id);
  raise_if (negb (one_of (art_owner_scope ref) allowed_scopes) && negb (one_of "*" allowed_scopes))
    (PermissionError ("artifact_scope_denied:" +:+ art_owner_scope ref));;
  mret ref.
(** [uri.removeprefix("file://")]. *)
Definition path_of_uri (uri : string) : string :=
  if String.prefix "file://" uri then String.substring 7 (String.length uri) uri else uri.
Definition get_bytes (artifact_id : string) (allowed_scopes : list string) : M ArtifactStore string :=
  ref ← resolve artifact_id allowed_scopes;
  s ← get_state;
  data ← require (ax_files s !! path_of_uri (art_uri ref)) (Exn "FileNotFoundError" (path_of_uri (art_uri ref)));
  raise_if (negb (bool_decide (content_hash data = art_content_hash ref))) (Exn "ChecksumMismatchError" "read_checksum_failed");;
  mret data.
Definition delete_artifact (artifact_id : string) (retention_ok : bool) : M ArtifactStore () :=
  s ← get_state;
  match ax_meta s !! artifact_id with
  | None => mret ()
  | Some ref =>
    raise_if (bool_decide (art_retention_class ref = "legal_hold") && negb retention_ok) (PermissionError "retention_blocks_delete");;
    modify (λ s, s <| ax_deleted ::= union {[artifact_id]} |>)
  end.
End artifacts.

(** ** The workspace (service.py) *)
Record SharedWorkspace (X : Type) := mkSharedWorkspace {
  sw_artifacts : ArtifactStore;
  sw_findings : FindingStore;
  sw_events : EventBus X;
  sw_text_only : bool;
  sw_default_scopes : list string;
  sw_temp_worker_files : gset string;
  sw_listeners : X                       (** what the listeners act on *)
}.
Arguments mkSharedWorkspace {X} _ _ _ _ _ _ _.
Arguments sw_artifacts {X} _.
Arguments sw_findings {X} _.
Arguments sw_events {X} _.
Arguments sw_text_only {X} _.
Arguments sw_default_scopes {X} _.
Arguments sw_temp_worker_files {X} _.
Arguments sw_listeners {X} _.
#[export] Instance eta_SharedWorkspace X : Eta (SharedWorkspace X) := λ r,
  mkSharedWorkspace (sw_artifacts r) (sw_findings r) (sw_events r) (sw_text_only r) (sw_default_scopes r)
    (sw_temp_worker_files r) (sw_listeners r).

(** [s.split(":", 1)[0] if ":" in s else other]. *)
Fixpoint before_colon (s : string) : option string :=
  match s with
  | EmptyString => None
  | String c s' => if bool_decide (c = ":"%char) then Some "" else String c <$> before_colon s'
  end.

Section service.
Context {X : Type}.
Variable sha256 : string → string.
Abbreviation W := (SharedWorkspace X).

Definition on_events {A} : M (EventBus X * X) A → M W A :=
  zoom (λ w, (sw_events w, sw_listeners w)) (λ bx w, w <| sw_events := bx.1 |> <| sw_listeners := bx.2 |>).
Definition on_artifacts {A} : M ArtifactStore A → M W A := zoom sw_artifacts (λ a w, w <| sw_artifacts := a |>).

(** [ev] is the id and [now] the time of the event. *)
Definition append_finding (ev : string) (now : Z) (finding : Finding) : M W Finding :=
  let scopes := or_list (fd_acl finding) [fd_project_id finding] in
  modify (λ w, w <| sw_findings ::= append finding scopes [] |>);;
  on_events (publish (new_event ev now None (Some (fd_task_id finding)) (fd_project_id finding) (fd_author finding)
    "finding.appended" [("finding_id", JStr (fd_id finding)); ("status", JStr (FindingStatus.value (fd_status finding)));
                        ("content_is_untrusted_data", JBool true)]));;
  mret finding.

Definition query_workspace (scopes : list string) (query : string) (w : W) : list Finding :=
  match scopes with
  | [] => []
  | first :: _ => query_scoped (default first (before_colon first)) scopes query [] (sw_findings w)
  end.

Definition build_context (ev ctx : string) (now : Z) (task : TaskSpec) : M W ContextBundle :=
  w ← get_state;
  let allowed := ts_scopes task ++ sw_default_scopes w in
  bundle ← of_result (build ctx (sw_text_only w) task allowed default_budget [] 1 "ctx-v1" (sw_findings w));
  on_events (publish (new_event ev now (Some (ts_mission_id task)) (Some (ts_id task)) (ts_project_id task) "workspace"
    "context.built" [("excerpt_count", JInt (Z.of_nat (length (xb_excerpts bundle))));
                     ("omission_notes", JList (JStr <$> xb_omission_notes bundle)); ("text_only", JBool (sw_text_only w))]));;
  mret bundle.

Definition put_artifact (ev fresh : string) (now : Z) (artifact : ArtifactRef) (content : string) : M W ArtifactRef :=
  let h := art_content_hash artifact in
  let expected := if one_of h [""; "pending"] then None else Some h in
  stored ← on_artifacts (put sha256 fresh now content (art_media_type artifact) (art_owner_scope artifact)
                           (art_retention_class artifact) expected);
  let final := if bool_decide (art_id artifact = "") then stored else stored <| art_id := art_id artifact |> in
  on_artifacts (modify (put_ref final));;
  on_events (publish (new_event ev now None None (default "proj_unknown" (before_colon (art_owner_scope artifact)))
    "workspace" "artifact.stored" [("artifact_id", JStr (art_id final)); ("content_hash", JStr (art_content_hash final))]));;
  mret final.
Definition resolve_artifact (artifact_id : string) : M W ArtifactRef := on_artifacts (resolve artifact_id ["*"]).
Definition register_temp_worker_file (path : string) : M W () :=
  modify (λ w, w <| sw_temp_worker_files ::= union {[path]} |>).
Definition assert_text_only_no_network : M W () :=
  w ← get_state; raise_if (negb (sw_text_only w)) (RuntimeError "network_or_embedding_mode_enabled").
End service.
