(* ===== verification/WorkspaceProps.v ===== *)
(** * WorkspaceProps: what the shared workspace promises

    Queries are exact: they return the findings of the project that the scopes and statuses
    admit and the query matches, best score first.  A context bundle stays within its budget
    and says what it left out.  An artifact that was stored is read back with the digest it
    was stored under, whatever else is stored or deleted.  The runs at the end show where the
    code departs from its comments. *)
From S2P Require Import Prelude Collections Contracts Json Workspace.
From Stdlib Require Import Ascii.
Open Scope Z_scope.

(** ** Queries *)
Definition hit (q : string) (r : FindingRecord) : Prop := q = "" ∨ contains q (blob_of r) = true.

Lemma score_record_hit q r : hit q r ↔ ∃ z, score_record q r = Some (z, fr_finding r).
Proof.
  unfold score_record, hit. case_bool_decide as Hq; [naive_solver|].
  destruct (contains q (blob_of r)); naive_solver.
Qed.
Lemma score_record_finding q r z f : score_record q r = Some (z, f) → f = fr_finding r ∧ hit q r.
Proof. unfold score_record, hit. case_bool_decide; [naive_solver|]. destruct (contains _ _) eqn:?; naive_solver. Qed.

Lemma query_elem project allowed query statuses store f :
  f ∈ query_scoped project allowed query statuses store ↔
  ∃ r, r ∈ dict_values store ∧ visible project allowed statuses r = true ∧ hit (strip (to_lower query)) r ∧ f = fr_finding r.
Proof.
  unfold query_scoped. rewrite list_elem_of_fmap. setoid_rewrite elem_of_sort_by. setoid_rewrite list_elem_of_omap. split.
  - intros ([z f'] & -> & r & Hr & Hs). cbn. destruct (visible _ _ _ r) eqn:Hv; [|discriminate].
    apply score_record_finding in Hs as [-> Hh]. by exists r.
  - intros (r & Hr & Hv & [z Hz]%score_record_hit & ->). exists (z, fr_finding r). split; [done|].
    exists r. by rewrite Hv.
Qed.

Lemma visible_spec project allowed statuses r : visible project allowed statuses r = true ↔
  fd_project_id (fr_finding r) = project ∧ ((∃ s, s ∈ allowed ∧ s ∈ fr_scopes r) ∨ "*" ∈ allowed)
  ∧ (statuses = [] ∨ fd_status (fr_finding r) ∈ statuses).
Proof.
  unfold visible, intersects, one_of. rewrite !andb_true_iff, !orb_true_iff, existsb_exists, !bool_decide_eq_true.
  setoid_rewrite bool_decide_eq_true. setoid_rewrite list_elem_of_In. naive_solver.
Qed.

(** Whatever a caller asks for, a query returns exactly the findings of its project whose
    record shares a scope with the allowed ones, with an admitted status and a match. *)
Theorem query_is_exactly_the_visible_findings project allowed query statuses store f :
  f ∈ query_scoped project allowed query statuses store ↔
  ∃ id r, (id, r) ∈ store ∧ fr_finding r = f ∧ fd_project_id f = project
    ∧ ((∃ s, s ∈ allowed ∧ s ∈ fr_scopes r) ∨ "*" ∈ allowed)
    ∧ (statuses = [] ∨ fd_status f ∈ statuses) ∧ hit (strip (to_lower query)) r.
Proof.
  rewrite query_elem. setoid_rewrite visible_spec. setoid_rewrite dict_values_elem.
  split; [intros (r & [id Hr] & (Hp & Hs & Ht) & Hh & ->)|intros (id & r & Hr & <- & Hp & Hs & Ht & Hh)]; eauto 10.
Qed.

(** ** Contexts *)
Definition size_of (f : Finding) : Z := len (default "" (fd_content f)).
Definition noted (f : Finding) (note : string) : Prop :=
  note = "truncated_findings_after=" +:+ fd_id f ∨ note = "truncated_chars_at=" +:+ fd_id f.

(** What the loop over findings maintains: the findings kept are a sublist, each of the others
    has its note. *)
Record gathered (budget : ContextBudget) (kept : list Finding) (fs : list Finding) (a : assembly) : Prop := {
  ga_excerpts : am_excerpts a = piece <$> kept;
  ga_sub : kept `sublist_of` fs;
  ga_chars : am_used_chars a = sum_by size_of kept;
  ga_bound : am_used_chars a <= Z.max 0 (max_chars budget);
  ga_count : am_included a = Z.of_nat (length kept);
  ga_max : am_included a <= Z.max 0 (max_findings budget);
  ga_notes : ∀ f, f ∈ fs → f ∈ kept ∨ ∃ n, n ∈ am_omission a ∧ noted f n;
  ga_exact : am_omission a = [] ↔ kept = fs
}.

Lemma sublist_snoc {A} (k l : list A) x : k `sublist_of` l → (k ++ [x]) `sublist_of` (l ++ [x]).
Proof. intros. by apply sublist_app. Qed.
Lemma sublist_snoc_skip {A} (k l : list A) x : k `sublist_of` l → k `sublist_of` (l ++ [x]).
Proof. intros H. etrans; [exact H|]. by apply sublist_inserts_r. Qed.
Lemma snoc_neq {A} (k l : list A) x : k `sublist_of` l → k ≠ l ++ [x].
Proof. intros H%sublist_length ->. rewrite length_app in H. cbn in H. lia. Qed.

Lemma omit_gathered budget kept fs a f n : noted f n → gathered budget kept fs a →
  gathered budget kept (fs ++ [f]) (omit n a).
Proof.
  intros Hn [He Hs Hc Hb Hi Hm Ho Hx]. split; cbn; auto.
  - by apply sublist_snoc_skip.
  - intros g [Hg| ->%list_elem_of_singleton]%elem_of_app.
    + destruct (Ho g Hg) as [?|(m & Hm' & ?)]; [by left|right]. exists m. split; [apply elem_of_app; by left|done].
    + right. exists n. split; [apply elem_of_app; right; by left|done].
  - split; [intros H; by apply app_nil in H as []|]. intros H. by apply snoc_neq in H.
Qed.

Lemma add_gathered budget kept fs a f : gathered budget kept fs a →
  ∃ kept', gathered budget kept' (fs ++ [f]) (add_finding budget a f).
Proof.
  intros G. unfold add_finding. destruct (Z.leb_spec (max_findings budget) (am_included a)).
  { exists kept. apply omit_gathered; [by left|done]. }
  destruct (Z.ltb_spec (max_chars budget) (am_used_chars a + len (default "" (fd_content f)))).
  { exists kept. apply omit_gathered; [by right|done]. }
  destruct G as [He Hs Hc Hb Hi Hm Ho Hx]. exists (kept ++ [f]). split; cbn.
  - by rewrite He, fmap_app.
  - by apply sublist_snoc.
  - rewrite sum_by_app, Hc. cbn. unfold size_of at 3. lia.
  - lia.
  - rewrite Hi, length_app. cbn. lia.
  - lia.
  - intros g [Hg| ->%list_elem_of_singleton]%elem_of_app; [|left; apply elem_of_app; right; by left].
    destruct (Ho g Hg) as [?|?]; [left; apply elem_of_app; by left|by right].
  - rewrite Hx. split; [by intros ->|]. intros E. by apply app_inj_tail in E as [].
Qed.

Lemma gather budget fs : ∃ kept, gathered budget kept fs (foldl (add_finding budget) (mkAssembly [] [] [] 0 0) fs).
Proof.
  induction fs as [|f fs [kept IH]] using rev_ind.
  - exists []. split; cbn; try done; try lia. intros f H. by apply elem_of_nil in H.
  - rewrite foldl_snoc. by eapply add_gathered.
Qed.

Definition tool_piece (tool : dict json) : dict json :=
  [("tool_output", JObj tool); ("untrusted_external_text", JBool true)].
Definition tool_size (tool : dict json) : Z := len (tool_text tool).

(** The loop over tool outputs, from any assembly. *)
Record extended (budget : ContextBudget) (kept tools : list (dict json)) (a a' : assembly) : Prop := {
  ex_excerpts : am_excerpts a' = am_excerpts a ++ (tool_piece <$> kept);
  ex_sub : kept `sublist_of` tools;
  ex_chars : am_used_chars a' = am_used_chars a + sum_by tool_size kept;
  ex_bound : am_used_chars a' <= Z.max (am_used_chars a) (max_chars budget);
  ex_notes : ∃ extra, am_omission a' = am_omission a ++ extra ∧ (extra = [] ↔ kept = tools)
}.

Lemma add_tools_extended budget tools : ∀ a i, ∃ kept, extended budget kept tools a (add_tools budget a i tools).
Proof.
  induction tools as [|t tools IH]; intros a i; cbn [add_tools].
  { exists []. split; cbn; [by rewrite app_nil_r|done|lia|lia|]. exists []. by rewrite app_nil_r. }
  unfold add_tool. destruct (Z.ltb_spec (max_chars budget) (am_used_chars a + len (tool_text t))) as [Hlt|Hge].
  - destruct (IH (omit ("omitted_tool_output_" +:+ pretty i) a) (S i)) as (kept & [He Hs Hc Hb (extra & Hx & Hn)]).
    exists kept. split; [exact He|by apply sublist_cons|exact Hc|exact Hb|].
    exists (("omitted_tool_output_" +:+ pretty i) :: extra). split; [by rewrite Hx; cbn; rewrite <- app_assoc|].
    split; [done|]. intros ->. apply sublist_length in Hs. cbn in Hs. lia.
  - match goal with |- context [add_tools budget ?b (S i) tools] => destruct (IH b (S i)) as (kept & [He Hs Hc Hb (extra & Hx & Hn)]) end.
    exists (t :: kept). split; cbn in *.
    + by rewrite He, <- app_assoc.
    + by apply sublist_skip.
    + rewrite Hc. unfold tool_size at 2. lia.
    + lia.
    + exists extra. split; [done|]. rewrite Hn. split; [by intros ->|by intros [= ->]].
Qed.

(** Every bundle keeps to its budget of findings and characters, and nothing is left out in
    silence: a finding that is not among the excerpts has a note of its own, and whenever
    anything was omitted the bundle says that certainty is reduced. *)
Theorem context_is_bounded_and_says_what_it_omits fresh text_only task allowed budget tools rev policy store bundle :
  build fresh text_only task allowed budget tools rev policy store = Ok bundle →
  let findings := scoped_findings task allowed budget store in
  ∃ kept kept_tools,
    xb_excerpts bundle = (piece <$> kept) ++ (tool_piece <$> kept_tools)
    ∧ kept `sublist_of` findings ∧ kept_tools `sublist_of` tools
    ∧ Z.of_nat (length kept) <= Z.max 0 (max_findings budget)
    ∧ sum_by size_of kept + sum_by tool_size kept_tools <= Z.max 0 (max_chars budget)
    ∧ (∀ f, f ∈ findings → f ∈ kept ∨ ∃ n, n ∈ xb_omission_notes bundle ∧ noted f n)
    ∧ ((kept = findings ∧ kept_tools = tools) ∨ "certainty_reduced_due_to_truncation" ∈ xb_omission_notes bundle).
Proof.
  unfold build. destruct text_only; [|discriminate]. cbn [negb]. intros [= <-].
  cbn [xb_excerpts xb_omission_notes]. unfold assemble. set (findings := scoped_findings task allowed budget store). destruct (gather budget findings) as (kept & [He Hs Hc Hb Hi Hm Ho Hx]).
  set (a := foldl _ _ findings) in *. destruct (add_tools_extended budget tools a 0) as (kt & [He' Hs' Hc' Hb' (extra & Hx' & Hn)]).
  set (a' := add_tools budget a 0 tools) in *. exists kept, kt. split_and!; [by rewrite He', He|done|done|lia|lia| |].
  - intros f [?|(n & Hn' & ?)]%Ho; [by left|right]. exists n. split; [|done].
    unfold notes. rewrite Hx'. repeat (apply elem_of_app; left). done.
  - unfold notes. case_bool_decide as Hnil; [left|right; apply elem_of_app; right; apply elem_of_app; left; by left].
    rewrite Hx' in Hnil. apply app_nil in Hnil as [H1 H2]. split; [by apply Hx|by apply Hn].
Qed.

(** A context holds findings of the task's project only, of an admitted status, and only ones
    that share a scope with the task or with the scopes the caller allows. *)
Lemma context_findings task allowed budget store f : f ∈ scoped_findings task allowed budget store →
  fd_project_id f = ts_project_id task
  ∧ (fd_status f ≠ FindingStatus.SUPERSEDED)
  ∧ (fd_status f = FindingStatus.HYPOTHESIS → include_hypotheses budget = true)
  ∧ ∃ r, r ∈ dict_values store ∧ fr_finding r = f ∧ (∃ s, (s ∈ fr_scopes r ∨ s = "*") ∧ s ∈ allowed).
Proof.
  unfold scoped_findings. intros [_ Hq]%list_elem_of_filter.
  apply query_elem in Hq as (r & Hr & (Hp & Hs & Ht)%visible_spec & _ & ->). split_and!; [done|..].
  - destruct Ht as [Ht|Ht]; [by destruct (include_hypotheses budget)|]. intros E. rewrite E in Ht.
    destruct (include_hypotheses budget); by repeat (apply elem_of_cons in Ht as [Ht|Ht]; [discriminate|]); apply elem_of_nil in Ht.
  - intros E. destruct Ht as [Ht|Ht]; [by destruct (include_hypotheses budget)|]. rewrite E in Ht.
    destruct (include_hypotheses budget); [done|].
    by repeat (apply elem_of_cons in Ht as [Ht|Ht]; [discriminate|]); apply elem_of_nil in Ht.
  - exists r. split_and!; [done..|].
    assert (∀ s, s ∈ or_list (filter (λ s, one_of s (ts_scopes task)) allowed) allowed → s ∈ allowed) as Hsub.
    { intros s. unfold or_list. destruct (filter _ allowed) eqn:E; [done|]. rewrite <- E. by intros [_ ?]%list_elem_of_filter. }
    destruct Hs as [(s & Hs & Hr')|Hs]; [exists s|exists "*"]; auto.
Qed.

(** ** Artifacts *)
Section artifact_props.
Variable content_hash : string → string.

Lemma substring_all q m : (String.length q <= m)%nat → String.substring 0 m q = q.
Proof. revert m; induction q as [|c q IH]; intros [|m] H; cbn in *; [done|done|lia|]. f_equal. apply IH. lia. Qed.
Lemma uri_path p : path_of_uri ("file://" +:+ p) = p.
Proof.
  unfold path_of_uri. assert (String.prefix "file://" ("file://" +:+ p) = true) as -> by (by destruct p).
  change (String.substring 0 (7 + String.length p) p = p). apply substring_all. lia.
Qed.

(** The blob a reference points to is on disk. *)
Definition backed (s : ArtifactStore) (ref : ArtifactRef) : Prop :=
  ∃ data, ax_files s !! path_of_uri (art_uri ref) = Some data ∧ content_hash data = art_content_hash ref.

Lemma put_ok fresh now content mt owner ret expected s ref s' :
  put content_hash fresh now content mt owner ret expected s = (Ok ref, s') →
  art_id ref = fresh ∧ art_owner_scope ref = owner ∧ art_content_hash ref = content_hash content
  ∧ backed s' ref ∧ ax_meta s' !! fresh = Some ref ∧ (fresh ∉ ax_deleted s')
  ∧ ax_files s ⊆ ax_files s'.
Proof.
  unfold put. intros H. run_inv.
  match goal with H : _ s = (Ok _, ?t) |- _ => assert (t = s) as -> by (destruct expected; by run_inv) end.
  unfold backed. cbn [art_id art_owner_scope art_content_hash art_uri]. rewrite uri_path. unfold put_ref. cbn [ax_files ax_meta ax_deleted set_field].
  set (path := blob_path _ _) in *. destruct (ax_files s !! path) as [data|] eqn:Hf; run_inv; bool_to_prop.
  - split_and!; [done|done|done|exists data; by split|apply lookup_insert_eq|set_solver|done].
  - split_and!; [done|done|done|exists content; split; [apply lookup_insert_eq|done]|apply lookup_insert_eq|set_solver|].
    cbn. by apply insert_subseteq.
Qed.

Lemma put_grows fresh now content mt owner ret expected s :
  let s' := (put content_hash fresh now content mt owner ret expected s).2 in
  ax_files s ⊆ ax_files s' ∧ (∀ id, id ≠ fresh → ax_meta s' !! id = ax_meta s !! id ∧ (id ∈ ax_deleted s' ↔ id ∈ ax_deleted s)).
Proof.
  intros s'. destruct (put content_hash fresh now content mt owner ret expected s) as [[ref|e] t] eqn:Hp; subst s'; cbn.
  - destruct (put_ok _ _ _ _ _ _ _ _ _ _ Hp) as (Hid & _ & _ & _ & _ & _ & Hsub). split; [done|].
    unfold put in Hp. run_inv. intros id Hne. unfold put_ref. cbn [art_id ax_meta ax_deleted set_field].
    match goal with H : _ s = (Ok _, ?t) |- _ => assert (t = s) as -> by (destruct expected; by run_inv) end.
    set (path := blob_path _ _) in *. destruct (ax_files s !! path); run_inv; (split; [by apply lookup_insert_ne|set_solver]).
  - assert (t = s) as ->; [|done]. unfold put in Hp. run_inv_err; [destruct expected; by run_inv_err|].
    match goal with H : _ s = (Ok _, ?t) |- _ => assert (t = s) as -> by (destruct expected; by run_inv) end.
    set (path := blob_path _ _) in *. destruct (ax_files s !! path); by run_inv_err.
Qed.

(** What others do with the store: they store, alias and delete other artifacts. *)
Inductive artifact_step (mine : string) : ArtifactStore → ArtifactStore → Prop :=
| art_put fresh now content mt owner ret expected s : fresh ≠ mine →
    artifact_step mine s (put content_hash fresh now content mt owner ret expected s).2
| art_alias ref s : art_id ref ≠ mine → artifact_step mine s (put_ref ref s)
| art_delete id ok s : id ≠ mine → artifact_step mine s (delete_artifact id ok s).2.

Definition holds (id owner digest : string) (data : string) (s : ArtifactStore) : Prop :=
  ∃ ref, ax_meta s !! id = Some ref ∧ (id ∉ ax_deleted s) ∧ art_owner_scope ref = owner
    ∧ art_content_hash ref = digest ∧ ax_files s !! path_of_uri (art_uri ref) = Some data ∧ content_hash data = digest.

Lemma step_holds id owner digest data s s' : artifact_step id s s' → holds id owner digest data s → holds id owner digest data s'.
Proof.
  intros Hs (ref & Hm & Hd & Ho & Hh & Hf & Hc). exists ref. destruct Hs as [fresh now content mt ow ret expected s Hn|ref' s Hn|id' ok s Hn].
  - destruct (put_grows fresh now content mt ow ret expected s) as [Hsub Hmeta].
    destruct (Hmeta id) as [Hm' Hd']; [done|]. split_and!; [by rewrite Hm'|by rewrite Hd'|done|done|by eapply lookup_weaken|done].
  - unfold put_ref. cbn. split_and!; [by rewrite lookup_insert_ne|set_solver|done|done|done|done].
  - unfold delete_artifact, mbind, M_bind, get_state. destruct (ax_meta s !! id'); [|done].
    destruct (bool_decide _ && negb ok); [done|]. cbn. split_and!; [done|set_solver|done|done|done|done].
Qed.

Lemma holds_read id owner digest data s : holds id owner digest data s →
  get_bytes content_hash id [owner] s = (Ok data, s).
Proof.
  intros (ref & Hm & Hd & Ho & Hh & Hf & Hc). unfold get_bytes, resolve, mbind, M_bind, get_state.
  rewrite bool_decide_false by done. cbn. rewrite Hm. cbn. unfold one_of. rewrite bool_decide_true by (rewrite Ho; by left). cbn.
  rewrite Hf. cbn. by rewrite Hc, Hh, bool_decide_true.
Qed.

(** An artifact that was stored is read back under its scope with the digest it was stored
    under, whatever other artifacts are stored, aliased or deleted in between; it is the
    content itself unless another content has the same digest. *)
Theorem stored_artifact_is_read_back fresh now content mt owner ret expected s ref s1 s2 :
  put content_hash fresh now content mt owner ret expected s = (Ok ref, s1) → rtc (artifact_step fresh) s1 s2 →
  ∃ data, get_bytes content_hash fresh [owner] s2 = (Ok data, s2) ∧ content_hash data = content_hash content
    ∧ ((∀ other, content_hash other = content_hash content → other = content) → data = content).
Proof.
  intros Hp Hrtc. destruct (put_ok _ _ _ _ _ _ _ _ _ _ Hp) as (Hid & Ho & Hh & (data & Hf & Hc) & Hm & Hd & _).
  assert (holds fresh owner (content_hash content) data s2) as Hold.
  { eapply (rtc_invariant (artifact_step fresh) (holds fresh owner (content_hash content) data)); [|exact Hrtc|].
    - intros a b Ha Hab. by eapply step_holds.
    - exists ref. rewrite <- Hh. split_and!; done. }
  exists data. split; [by eapply holds_read|]. rewrite <- Hh. split; [done|]. intros Hinj. apply Hinj. congruence.
Qed.
End artifact_props.

(** Appending a finding marks the one it supersedes, and changes no other. *)
Lemma append_supersedes finding scopes topics store prior id : fd_supersedes finding = Some prior → prior ≠ "" →
  id ≠ fd_id finding →
  dict_get (append finding scopes topics store) id
  = if decide (id = prior) then supersede <$> dict_get store id else dict_get store id.
Proof.
  intros Hs Hp Hid. unfold append. rewrite Hs, bool_decide_false by done. rewrite dict_get_set_ne by done.
  unfold dict_alter. destruct (dict_get store prior) as [r|] eqn:Hr.
  - rewrite dict_get_set. case_decide as E; case_decide as E'; try congruence. subst. by rewrite Hr.
  - case_decide as E; [subst; by rewrite Hr|done].
Qed.

(** ** Concrete runs *)
Module WorkspaceSample.
Definition finding (id project content : string) (status : FindingStatus) (supersedes : option string) (acl : list string) : Finding :=
  mkFinding id 0 project (Some content) None ["src"] "as_1" "t1" status supersedes acl.
Definition store1 : FindingStore :=
  append (finding "f2" "p" "longer text" FindingStatus.CORROBORATED None ["s1"]) [] []
    (append (finding "f1" "p" "text" FindingStatus.ACCEPTED None ["s1"]) [] [] []).
Definition task1 (scopes : list string) : TaskSpec := mkTaskSpec "t1" "p" "m1" "2024" None "do" "code" [] scopes 0 TaskStatus.READY [].
Definition small : ContextBudget := mkContextBudget 8 10 false.
Definition bundle1 : ContextBundle :=
  match build "ctx_1" true (task1 ["s1"]) ["s1"] small [] 1 "ctx-v1" store1 with Ok b => b | Err _ => mkContextBundle "" "" "" 0 [] [] [] None "" end.

Lemma context_is_bounded_and_says_what_it_omits_witness :
  ∃ kept kept_tools,
    xb_excerpts bundle1 = (piece <$> kept) ++ (tool_piece <$> kept_tools)
    ∧ kept `sublist_of` scoped_findings (task1 ["s1"]) ["s1"] small store1 ∧ kept_tools `sublist_of` []
    ∧ Z.of_nat (length kept) <= Z.max 0 (max_findings small)
    ∧ sum_by size_of kept + sum_by tool_size kept_tools <= Z.max 0 (max_chars small)
    ∧ (∀ f, f ∈ scoped_findings (task1 ["s1"]) ["s1"] small store1 →
         f ∈ kept ∨ ∃ n, n ∈ xb_omission_notes bundle1 ∧ noted f n)
    ∧ ((kept = scoped_findings (task1 ["s1"]) ["s1"] small store1 ∧ kept_tools = [])
       ∨ "certainty_reduced_due_to_truncation" ∈ xb_omission_notes bundle1).
Proof.
  apply (context_is_bounded_and_says_what_it_omits "ctx_1" true (task1 ["s1"]) ["s1"] small [] 1 "ctx-v1" store1 bundle1).
  vm_compute. reflexivity.
Defined.
Example bundle1_notes : xb_omission_notes bundle1 = ["truncated_chars_at=f2"; "certainty_reduced_due_to_truncation"].
Proof. vm_compute. reflexivity. Qed.

(** A finding of another project supersedes one of this project. *)
Example other_project_supersedes :
  fd_status <$> get_finding "f1" (append (finding "g1" "q" "x" FindingStatus.HYPOTHESIS (Some "f1") ["q"]) [] [] store1)
  = Some FindingStatus.SUPERSEDED.
Proof. vm_compute. reflexivity. Qed.

(** A task without scopes gets the findings of the default scopes. *)
Example unscoped_task_gets_default_scopes :
  length (scoped_findings (task1 []) ["s1"] default_budget store1) = 2%nat.
Proof. vm_compute. reflexivity. Qed.

(** A subscription for a scope receives events of any scope, and a history limited to no
    event returns them all. *)
Definition event1 : EventEnvelope := new_event "ev_1" 0 None None "p" "a" "finding.appended" [].
Definition bus1 : EventBus () := mkEventBus [("sub", mkSubscription "sub" "p" ["*"] None None ["secret-scope"])] ∅ [].
Example subscription_scopes_are_ignored : (publish event1 (bus1, ())).1 = Ok ["sub"].
Proof. vm_compute. reflexivity. Qed.
Example history_without_limit : length (history "p" None 0 (publish event1 (bus1, ())).2.1) = 1%nat.
Proof. vm_compute. reflexivity. Qed.

(** Stored through the workspace, an artifact has two ids; deleting one leaves the other. *)
Definition digest (s : string) : string := "d" +:+ s.
Definition ws : SharedWorkspace () :=
  mkSharedWorkspace (mkArtifactStore "root" ∅ ∅ ∅) [] (mkEventBus [] ∅ []) true [] ∅ ().
Definition ws1 : SharedWorkspace () :=
  (put_artifact digest "ev_1" "art_fresh" 0 (mkArtifactRef "art_mine" "pending" "" "text/plain" 0 "p:s" "mission" 0) "data" ws).2.
Example deleted_artifact_has_another_id :
  let s := (delete_artifact "art_mine" false (sw_artifacts ws1)).2 in
  (get_bytes digest "art_mine" ["p:s"] s).1 = Err (Exn "FileNotFoundError" "artifact_deleted:art_mine")
  ∧ (get_bytes digest "art_fresh" ["p:s"] s).1 = Ok "data".
Proof. vm_compute. split; reflexivity. Qed.

Definition art0 : ArtifactStore := mkArtifactStore "root" ∅ ∅ ∅.
Abbreviation put1 := (put digest "art_1" 0 "data" "text/plain" "p:s" "mission" (Some "ddata") art0).
Definition art1 : ArtifactStore := put1.2.
Definition art2 : ArtifactStore := (delete_artifact "art_2" false (put digest "art_2" 0 "data" "text/plain" "p:t" "mission" None art1).2).2.
Lemma stored_artifact_is_read_back_witness :
  ∃ data, get_bytes digest "art_1" ["p:s"] art2 = (Ok data, art2) ∧ digest data = digest "data"
    ∧ ((∀ other, digest other = digest "data" → other = "data") → data = "data").
Proof.
  eapply (stored_artifact_is_read_back digest "art_1" 0 "data" "text/plain" "p:s" "mission" (Some "ddata") art0 _ art1 art2).
  - vm_compute. reflexivity.
  - eapply rtc_l; [by apply (art_put _ _ "art_2" 0 "data" "text/plain" "p:t" "mission" None)|].
    apply rtc_once. by apply (art_delete _ _ "art_2" false).
Defined.
End WorkspaceSample.
