(* ===== verification/Learning.v ===== *)
(** * Learning: governed learning proposals and operational events

    learning/__init__.py: a proposal moves through the states of [TRANSITIONS]; a state of a
    proposal that was stored is changed by [transition] alone.  [observability/ops_events.py]:
    the log of operational events, with redacted details.

    Shown: the recorded transitions of a proposal form a path of the table that ends in its
    state; a proposal that reached a canary, or anything after it, has an independent review
    and a sealed holdout; rejected, contaminated and rolled back proposals stay so; a logged
    detail under a secret-like key is redacted. *)
From S2P Require Import Prelude Collections Json Models Workspace.
Open Scope Z_scope.

(** ** Learning proposals *)
Record LearningProposal := mkLearning {
  lp_proposal_id : string;
  lp_project_id : string;
  lp_version : Z;
  lp_change_summary : string;
  lp_state : string;
  lp_sealed_holdout_ref : option string;
  lp_calibration_ref : option string;
  lp_review_ref : option string;
  lp_canary_ref : option string;
  lp_created_at : string
}.
#[export] Instance eta_LearningProposal : Eta LearningProposal := λ x,
  mkLearning (lp_proposal_id x) (lp_project_id x) (lp_version x) (lp_change_summary x) (lp_state x)
    (lp_sealed_holdout_ref x) (lp_calibration_ref x) (lp_review_ref x) (lp_canary_ref x) (lp_created_at x).

Definition TRANSITIONS : dict (list string) := [
  ("proposed", ["validated"; "rejected"]);
  ("validated", ["calibrating"; "rejected"]);
  ("calibrating", ["frozen"; "rejected"]);
  ("frozen", ["held_out_eval"; "rejected"]);
  ("held_out_eval", ["review"; "rejected"; "contaminated"]);
  ("review", ["canary"; "rejected"]);
  ("canary", ["accepted"; "rolled_back"; "rejected"]);
  ("accepted", ["drift_revalidation"]);
  ("drift_revalidation", ["accepted"; "rolled_back"; "contaminated"]);
  ("rolled_back", []); ("rejected", []); ("contaminated", [])].
Definition allowed (st : string) : list string := default [] (dict_get TRANSITIONS st).

Record LearningRepository := mkLearningRepo {
  lr_items : gmap string LearningProposal;
  lr_history : list (string * string * string)
}.
#[export] Instance eta_LearningRepository : Eta LearningRepository := λ x, mkLearningRepo (lr_items x) (lr_history x).
Definition new_learning : LearningRepository := mkLearningRepo ∅ [].
Definition LearningError : string → exn := Exn "LearningError".

Definition create_learning (p : LearningProposal) : M LearningRepository LearningProposal :=
  raise_if (truthy (lp_sealed_holdout_ref p) && contains "answer=" (default "" (lp_sealed_holdout_ref p)))
    (LearningError "holdout_plaintext_forbidden");;
  modify (λ s, s <| lr_items ::= <[lp_proposal_id p := p]> |>);;
  mret p.
Definition get_learning (proposal_id : string) : M LearningRepository LearningProposal :=
  s ← get_state;
  require (lr_items s !! proposal_id) (LearningError "proposal_missing").
Definition transition (proposal_id new_state note : string) : M LearningRepository LearningProposal :=
  item ← get_learning proposal_id;
  raise_if (negb (one_of new_state (allowed (lp_state item))))
    (LearningError ("illegal_transition:" +:+ lp_state item +:+ "->" +:+ new_state));;
  raise_if (bool_decide (new_state = "canary") && negb (truthy (lp_review_ref item))) (LearningError "independent_review_required");;
  raise_if (bool_decide (new_state = "held_out_eval") && negb (truthy (lp_sealed_holdout_ref item)))
    (LearningError "sealed_holdout_required");;
  let prev := lp_state item in
  let item := item <| lp_state := new_state |> in
  modify (λ s, s <| lr_items ::= <[proposal_id := item]> |>
                 <| lr_history ::= λ h, h ++ [(proposal_id, prev, if bool_decide (note = "") then new_state
                                                                else new_state +:+ ":" +:+ note)] |>);;
  mret item.
Definition rollback (proposal_id : string) : M LearningRepository LearningProposal :=
  item ← get_learning proposal_id;
  raise_if (negb (one_of (lp_state item) ["canary"; "accepted"; "drift_revalidation"]))
    (LearningError ("rollback_illegal_from:" +:+ lp_state item));;
  transition proposal_id "rolled_back" "".

Inductive learning_op :=
  | LCreate (p : LearningProposal)
  | LTransition (proposal_id new_state note : string)
  | LRollback (proposal_id : string).
Definition lexec (o : learning_op) : M LearningRepository () :=
  match o with
  | LCreate p => create_learning p;; mret ()
  | LTransition pid st note => transition pid st note;; mret ()
  | LRollback pid => rollback pid;; mret ()
  end.

(** States that follow a review, and states that follow the evaluation on the holdout. *)
Definition reviewed_states : list string := ["canary"; "accepted"; "drift_revalidation"; "rolled_back"].
Definition held_out_states : list string := ["held_out_eval"; "review"; "contaminated"] ++ reviewed_states.
Definition final_states : list string := ["rejected"; "contaminated"; "rolled_back"].

Record governed (p : LearningProposal) : Prop := {
  gv_reviewed : lp_state p ∈ reviewed_states → truthy (lp_review_ref p) = true;
  gv_held_out : lp_state p ∈ held_out_states → truthy (lp_sealed_holdout_ref p) = true;
  gv_sealed : ∀ r, lp_sealed_holdout_ref p = Some r → contains "answer=" r = false
}.

(** The edges of the table; it leads into the states above only through guarded ones. *)
Definition edges : list (string * string) := concat (map (λ kv : string * list string, pair kv.1 <$> kv.2) TRANSITIONS).
Lemma allowed_edge st st' : st' ∈ allowed st → (st, st') ∈ edges.
Proof.
  unfold allowed, edges. destruct (dict_get TRANSITIONS st) as [l|] eqn:Hd; cbn [default from_option id]; [|by intros ?%elem_of_nil].
  intros Hst. apply list_elem_of_In, in_concat. exists (pair st <$> l). split; apply list_elem_of_In.
  - apply list_elem_of_fmap. exists (st, l). split; [done|by apply dict_get_elem].
  - apply list_elem_of_fmap. by exists st'.
Qed.
Lemma edges_forall (P : string * string → Prop) `{!∀ e, Decision (P e)} st st' :
  bool_decide (Forall P edges) = true → st' ∈ allowed st → P (st, st').
Proof. intros Hall%bool_decide_eq_true Hst%allowed_edge. rewrite Forall_forall in Hall. by apply Hall. Qed.
Lemma into_reviewed st st' : st' ∈ allowed st → st' ∈ reviewed_states → st' = "canary" ∨ st ∈ reviewed_states.
Proof. apply (edges_forall (λ e, e.2 ∈ reviewed_states → e.2 = "canary" ∨ e.1 ∈ reviewed_states)). by vm_compute. Qed.
Lemma into_held_out st st' : st' ∈ allowed st → st' ∈ held_out_states → st' = "held_out_eval" ∨ st ∈ held_out_states.
Proof. apply (edges_forall (λ e, e.2 ∈ held_out_states → e.2 = "held_out_eval" ∨ e.1 ∈ held_out_states)). by vm_compute. Qed.
Lemma from_final st st' : st' ∈ allowed st → st ∉ final_states.
Proof. apply (edges_forall (λ e, e.1 ∉ final_states)). by vm_compute. Qed.

(** The recorded transitions of a proposal, from its creation to a state. *)
Definition names_state (label st : string) : Prop := label = st ∨ ∃ note, label = st +:+ ":" +:+ note.
Inductive path (pid : string) : list (string * string * string) → string → Prop :=
  | path_start : path pid [] "proposed"
  | path_other h st e : path pid h st → e.1.1 ≠ pid → path pid (h ++ [e]) st
  | path_step h st st' label : path pid h st → st' ∈ allowed st → names_state label st' → path pid (h ++ [(pid, st, label)]) st'.

Definition created (o : learning_op) : option string := match o with LCreate p => Some (lp_proposal_id p) | _ => None end.
Definition created_new (o : learning_op) : Prop := match o with LCreate p => lp_state p = "proposed" | _ => True end.

(** What one call does to the proposals. *)
Inductive learning_step (s s' : LearningRepository) : option string → Prop :=
  | step_none c : s' = s → learning_step s s' c
  | step_create p : lp_state p = "proposed" → (∀ r, lp_sealed_holdout_ref p = Some r → contains "answer=" r = false) →
      lr_items s' = <[lp_proposal_id p := p]> (lr_items s) → lr_history s' = lr_history s →
      learning_step s s' (Some (lp_proposal_id p))
  | step_move pid p st label : lr_items s !! pid = Some p → st ∈ allowed (lp_state p) →
      (st = "canary" → truthy (lp_review_ref p) = true) → (st = "held_out_eval" → truthy (lp_sealed_holdout_ref p) = true) →
      names_state label st → lr_items s' = <[pid := p <| lp_state := st |>]> (lr_items s) →
      lr_history s' = lr_history s ++ [(pid, lp_state p, label)] → learning_step s s' None.

Lemma transition_step pid st note s : learning_step s (transition pid st note s).2 None.
Proof.
  unfold transition, get_learning. destruct (lr_items s !! pid) as [p|] eqn:Hp; last first.
  { erewrite bind_run_err; [by apply step_none|]. erewrite bind_run by reflexivity. rewrite Hp. reflexivity. }
  erewrite bind_run; last first. { erewrite bind_run by reflexivity. rewrite Hp. reflexivity. }
  destruct (one_of st (allowed (lp_state p))) eqn:Ha; [|by apply step_none]. erewrite bind_run by reflexivity.
  destruct (bool_decide (st = "canary") && _) eqn:Hc; [by apply step_none|]. erewrite bind_run by reflexivity.
  destruct (bool_decide (st = "held_out_eval") && _) eqn:Hh; [by apply step_none|]. erewrite bind_run by reflexivity.
  apply bool_decide_eq_true in Ha.
  eapply (step_move _ _ pid p st (if bool_decide (note = "") then st else st +:+ ":" +:+ note)); try done.
  - intros He. rewrite bool_decide_true in Hc by done. by apply negb_false_iff in Hc.
  - intros He. rewrite bool_decide_true in Hh by done. by apply negb_false_iff in Hh.
  - unfold names_state. destruct (bool_decide (note = "")); eauto.
Qed.
Lemma lexec_step o s : created_new o → learning_step s (lexec o s).2 (created o).
Proof.
  assert (∀ {A} (m : M LearningRepository A), ((m;; mret ()) s).2 = (m s).2) as Hret.
  { intros A m. unfold mbind, M_bind. by destruct (m s) as [[]]. }
  destruct o as [p|pid st note|pid]; cbn [lexec created created_new]; rewrite Hret; intros Hp.
  - unfold create_learning. destruct (_ && _) eqn:Hs; [by apply step_none|]. erewrite bind_run by reflexivity.
    apply step_create; try done. intros h Hh. rewrite Hh in Hs. cbn in Hs. case_bool_decide; [by subst|done].
  - apply transition_step.
  - unfold rollback. destruct (get_learning pid s) as [[p|e] s1] eqn:Hg; last first.
    { erewrite bind_run_err by exact Hg. unfold get_learning in Hg. apply step_none. by run_inv_err. }
    erewrite bind_run by exact Hg. assert (s1 = s) as -> by (unfold get_learning in Hg; by run_inv).
    destruct (negb _); [by apply step_none|]. erewrite bind_run by reflexivity. apply transition_step.
Qed.

Section lifecycle.
Implicit Types s : LearningRepository.

Definition well_governed s : Prop := ∀ pid,
  match lr_items s !! pid with
  | Some p => path pid (lr_history s) (lp_state p) ∧ governed p
  | None => path pid (lr_history s) "proposed"
  end.

Lemma governed_move p st : governed p → st ∈ allowed (lp_state p) →
  (st = "canary" → truthy (lp_review_ref p) = true) → (st = "held_out_eval" → truthy (lp_sealed_holdout_ref p) = true) →
  governed (p <| lp_state := st |>).
Proof.
  intros [Hr Hh Hs] Ha Hc He. constructor; cbn; [| |done].
  - intros Hst. destruct (into_reviewed _ _ Ha Hst); auto.
  - intros Hst. destruct (into_held_out _ _ Ha Hst); auto.
Qed.

Lemma step_governed s s' c : learning_step s s' c → (∀ pid, c = Some pid → lr_items s !! pid = None) →
  well_governed s → well_governed s'.
Proof.
  intros Hstep Hnew Hs. destruct Hstep as [c ->|p Hp Hseal Hi Hh|pid p st label Hp Ha Hc He Hl Hi Hh]; [done|..];
    intros q; rewrite Hi, Hh; specialize (Hs q).
  - destruct (decide (q = lp_proposal_id p)) as [->|Hne].
    + rewrite lookup_insert_eq. rewrite (Hnew _ eq_refl) in Hs. rewrite Hp. split; [done|].
      constructor; rewrite ?Hp; [by intros H%(bool_decide_eq_true_2 _)..|done].
    + by rewrite lookup_insert_ne.
  - destruct (decide (q = pid)) as [->|Hne].
    + rewrite lookup_insert_eq. rewrite Hp in Hs. destruct Hs as [Hpath Hg]. split; [by apply path_step|by apply governed_move].
    + rewrite lookup_insert_ne by done. destruct (lr_items s !! q) as [p'|]; [destruct Hs as [Hs ?]; split; [|done]|]; by apply path_other.
Qed.

Lemma step_items s s' c pid : learning_step s s' c → c ≠ Some pid → lr_items s !! pid = None → lr_items s' !! pid = None.
Proof.
  intros Hstep Hc Hn. destruct Hstep as [c ->|p _ _ Hi _|q p st label Hp _ _ _ _ Hi _]; [done|..]; rewrite Hi, lookup_insert_ne;
    congruence.
Qed.
Lemma step_final s s' c pid p : learning_step s s' c → c ≠ Some pid → lr_items s !! pid = Some p → lp_state p ∈ final_states →
  lr_items s' !! pid = Some p.
Proof.
  intros Hstep Hc Hp Hf. destruct Hstep as [c ->|q _ _ Hi _|q p' st label Hq Ha _ _ _ Hi _]; [done|..];
    rewrite Hi, lookup_insert_ne; try congruence.
  intros ->. assert (p' = p) as -> by congruence. by apply from_final in Ha.
Qed.

Lemma after_governed ops s : Forall created_new ops → NoDup (omap created ops) →
  (∀ pid, pid ∈ omap created ops → lr_items s !! pid = None) → well_governed s → well_governed (after lexec ops s).
Proof.
  revert s. induction ops as [|o ops IH]; intros s Hnew Hnd Habs Hs; cbn [after]; [done|].
  apply Forall_cons in Hnew as [Ho Hnew]. pose proof (lexec_step o s Ho) as Hstep. cbn in Hnd, Habs.
  apply IH; [done| | |].
  - destruct (created o); [by apply NoDup_cons in Hnd as [_ ?]|done].
  - intros pid Hpid. eapply step_items; [exact Hstep| |].
    + intros Hc. rewrite Hc in Hnd. by apply NoDup_cons in Hnd as [? _].
    + apply Habs. destruct (created o); [by right|done].
  - eapply step_governed; [exact Hstep| |done]. intros pid Hc. apply Habs. rewrite Hc. by left.
Qed.

(** However proposals are created (each id once, in the first state), moved and rolled back: the
    recorded transitions of each form a path of the table to its state; none is in a canary, or
    anywhere after it, without a review, nor evaluated without a sealed holdout, which never
    holds an answer; and rejected, contaminated and rolled back proposals are never changed. *)
Theorem learning_is_governed ops pid p :
  Forall created_new ops → NoDup (omap created ops) →
  lr_items (after lexec ops new_learning) !! pid = Some p →
  path pid (lr_history (after lexec ops new_learning)) (lp_state p) ∧ governed p
  ∧ (lp_state p ∈ final_states → ∀ ops', Forall created_new ops' → pid ∉ omap created ops' →
      lr_items (after lexec ops' (after lexec ops new_learning)) !! pid = Some p).
Proof.
  intros Hnew Hnd Hp. assert (well_governed (after lexec ops new_learning)) as Hs.
  { apply after_governed; try done. intros q. unfold new_learning. cbn. constructor. }
  specialize (Hs pid). rewrite Hp in Hs. destruct Hs as [Hpath Hg]. split_and!; [done..|].
  intros Hf ops' Hnew' Hpid. apply (after_invariant lexec (λ s, lr_items s !! pid = Some p)); [|done].
  intros o s Ho Hs. rewrite Forall_forall in Hnew'. eapply step_final; [by apply lexec_step, Hnew'| |done|done].
  intros Hc. apply Hpid, list_elem_of_omap. eauto.
Qed.
End lifecycle.

(** ** Operational events *)
Record OpsEvent := mkOpsEvent {
  oe_event_id : string;
  oe_kind : string;
  oe_component : string;
  oe_project_id : option string;
  oe_tenant_id : option string;
  oe_site_epoch : option Z;
  oe_correlation_id : option string;
  oe_detail : dict json;
  oe_at : Z
}.
Definition SECRET_FRAGMENTS : list string := ["secret"; "api_key"; "token"; "password"; "authorization"; "credential"].
Definition secret_key (k : string) : bool := existsb (λ f, contains f (to_lower k)) SECRET_FRAGMENTS.
#[global] Arguments secret_key : simpl never.
Definition _redact (detail : dict json) : dict json :=
  (λ kv, (kv.1, if secret_key kv.1 then JStr "[redacted]" else kv.2)) <$> detail.

(** [emit]: [id] and [now] are the drawn id and the reading of the clock. *)
Definition emit (id : string) (now : Z) (kind component : string) (project_id tenant_id : option string)
    (site_epoch : option Z) (correlation_id : option string) (detail : option (dict json)) : M (list OpsEvent) OpsEvent :=
  let event := mkOpsEvent id kind component project_id tenant_id site_epoch correlation_id (_redact (default [] detail)) now in
  modify (λ l, l ++ [event]);;
  mret event.
Definition list_ops_events (project_id kind : option string) (limit : Z) (events : list OpsEvent) : list OpsEvent :=
  let rows := match project_id with Some _ => List.filter (λ e, bool_decide (oe_project_id e = project_id)) events | None => events end in
  let rows := match kind with Some k => List.filter (λ e, bool_decide (oe_kind e = k)) rows | None => rows end in
  last_rows limit rows.
Definition assert_dashboard_mutation_via_action {S} (surface : string) (uses_action_boundary : bool) : M S () :=
  raise_if (one_of surface ["dashboard"; "console"; "ui"] && negb uses_action_boundary)
    (PermissionError "dashboard_mutation_requires_action_boundary").

Lemma last_rows_suffix {A} limit (rows : list A) : ∃ l, rows = l ++ last_rows limit rows.
Proof. unfold last_rows. eexists. symmetry. apply take_drop. Qed.
Lemma last_rows_length {A} limit (rows : list A) : 0 < limit → Z.of_nat (length (last_rows limit rows)) <= limit.
Proof. intros H. unfold last_rows. rewrite length_drop. destruct (Z.ltb_spec 0 limit); lia. Qed.

(** However events are emitted, a listing for a project has events of that project only, in order and at
    most [limit] of them, and no listed event has a detail under a secret-like key but the mark. *)
Theorem ops_events_are_redacted events calls project limit :
  events = after (λ c : M (list OpsEvent) OpsEvent, c) calls [] →
  Forall (λ c, ∃ id now kind comp p t e corr d, c = emit id now kind comp p t e corr d) calls →
  0 < limit →
  let listed := list_ops_events (Some project) None limit events in
  sublist listed events ∧ Z.of_nat (length listed) <= limit
  ∧ ∀ e, e ∈ listed → oe_project_id e = Some project
      ∧ ∀ k v, (k, v) ∈ oe_detail e → secret_key k = true → v = JStr "[redacted]".
Proof.
  intros -> Hcalls Hlim listed.
  assert (Forall (λ e, ∀ k v, (k, v) ∈ oe_detail e → secret_key k = true → v = JStr "[redacted]")
    (after (λ c : M (list OpsEvent) OpsEvent, c) calls [])) as Hred.
  { apply (after_invariant _ (Forall _)); [|constructor]. intros c s Hc Hs. rewrite Forall_forall in Hcalls.
    destruct (Hcalls _ Hc) as (id & now & kind & comp & p & t & e & corr & d & ->). apply Forall_app. split; [done|].
    apply Forall_singleton. cbn. intros k v (kv & [= -> ->] & _)%list_elem_of_fmap Hk. by rewrite Hk. }
  set (evs := after _ calls []) in *. set (rows := List.filter (λ e, bool_decide (oe_project_id e = Some project)) evs).
  assert (listed = last_rows limit rows) as -> by done. destruct (last_rows_suffix limit rows) as [l Hl].
  assert (sublist rows evs) as Hsub.
  { unfold rows. clear. induction evs as [|e evs IH]; cbn; [constructor|]. case_bool_decide; by constructor. }
  split_and!; [etrans; [|exact Hsub]; rewrite Hl at 2; by apply sublist_inserts_l|by apply last_rows_length|].
  intros e He. assert (e ∈ rows) as Hin by (rewrite Hl; apply elem_of_app; by right).
  apply list_elem_of_In, List.filter_In in Hin as [Hev Hp%bool_decide_eq_true]. split; [done|].
  rewrite Forall_forall in Hred. by apply Hred, list_elem_of_In.
Qed.

Module LearningSample.
Definition proposal : LearningProposal :=
  mkLearning "lrn_1" "p1" 1 "prefer the local model" "proposed" (Some "vault:1") None (Some "review:7") None "".
Definition ops : list learning_op :=
  [LCreate proposal; LTransition "lrn_1" "validated" ""; LTransition "lrn_1" "calibrating" "";
   LTransition "lrn_1" "frozen" ""; LTransition "lrn_1" "held_out_eval" ""; LTransition "lrn_1" "review" "ok";
   LTransition "lrn_1" "canary" ""; LRollback "lrn_1"].
Abbreviation done_ := (after lexec ops new_learning).
Definition ended : LearningProposal := proposal <| lp_state := "rolled_back" |>.
Lemma learning_is_governed_witness :
  lr_items done_ !! "lrn_1" = Some ended ∧ path "lrn_1" (lr_history done_) "rolled_back" ∧ governed ended
  ∧ lr_items (after lexec [LTransition "lrn_1" "accepted" ""] done_) !! "lrn_1" = Some ended.
Proof.
  destruct (learning_is_governed ops "lrn_1" ended) as (Hpath & Hg & Hfin).
  - repeat constructor.
  - vm_compute. repeat constructor. set_solver.
  - vm_compute. reflexivity.
  - split_and!; [vm_compute; reflexivity|exact Hpath|exact Hg|]. apply Hfin; [|by repeat constructor|by intros ?%elem_of_nil].
    unfold final_states, ended. right. right. left.
Defined.

(** A proposal created again under its id starts over: nothing is compared with the stored one. *)
Example created_again_starts_over :
  lp_state <$> lr_items (after lexec (ops ++ [LCreate proposal]) new_learning) !! "lrn_1" = Some "proposed".
Proof. by vm_compute. Qed.

Definition call : M (list OpsEvent) OpsEvent :=
  emit "oev_1" 0 "worker.joined" "fleet" (Some "p1") None None None (Some [("api_key", JStr "k"); ("node", JObj [("password", JStr "p")])]).
Lemma ops_events_are_redacted_witness : ∃ e,
  list_ops_events (Some "p1") None 100 (after (λ c : M (list OpsEvent) OpsEvent, c) [call] []) = [e]
  ∧ ∀ k v, (k, v) ∈ oe_detail e → secret_key k = true → v = JStr "[redacted]".
Proof.
  eexists. split; [vm_compute; reflexivity|].
  eapply (ops_events_are_redacted (after (λ c : M (list OpsEvent) OpsEvent, c) [call] []) [call] "p1" 100).
  - reflexivity.
  - constructor; [unfold call; eauto 12|constructor].
  - done.
  - vm_compute. by left.
Defined.

(** Only the outer keys are looked at: a secret one level down is logged as it is. *)
Example nested_secrets_are_logged :
  omap (λ e, dict_get (oe_detail e) "node") (call []).2 = [JObj [("password", JStr "p")]].
Proof. by vm_compute. Qed.
End LearningSample.
