(* ===== verification/MissionStore.v ===== *)
(** * MissionStore: mission records on disk and acceptance of results

    mission/store.py, mission/acceptance.py and the [Mission] model of contracts/mission.py.
    A record is a dataclass that [load] fills from whatever JSON the file has, so its fields
    are JSON values and their use may raise.  The directory is a map from paths to texts; a
    path is the root and the mission id, as the code joins them (ids with a separator are not
    resolved further).  Documents have no floats ([json] has none).  How pydantic writes and
    reads a [datetime] is the class [Dates].

    Shown: a valid mission is read back from its dump; a saved record is read back equal up to
    [updated_at]; a review accepts exactly when there are checks and the produced values equal
    all of them. *)
From S2P Require Import Prelude Collections Contracts Json JsonText Models Checkpoint.
From Stdlib Require Import Ascii.
Open Scope Z_scope.

(** ** The Mission model *)
Class Dates := {
  dump_datetime : Z → string;
  read_datetime : json → option Z;
  read_dump : ∀ t, read_datetime (JStr (dump_datetime t)) = Some t
}.

Definition all_mission_statuses : list MissionStatus :=
  [MissionStatus.DRAFT; MissionStatus.PLANNING; MissionStatus.RUNNING; MissionStatus.WAITING_CAPACITY;
   MissionStatus.WAITING_INPUT; MissionStatus.WAITING_APPROVAL; MissionStatus.VERIFYING; MissionStatus.COMPLETED;
   MissionStatus.FAILED; MissionStatus.CANCELLED].
Lemma mission_status_of_value e :
  find (λ x, bool_decide (MissionStatus.value x = MissionStatus.value e)) all_mission_statuses = Some e.
Proof. by destruct e. Qed.

Section model.
Context {lax : Lax} {dates : Dates}.

#[local] Obligation Tactic := idtac.
Program Definition datetime_codec : codec Z := {|
  enc t := JStr (dump_datetime t);
  dec j := read_datetime j;
  valid _ := True
|}.
Next Obligation. intros t _. apply read_dump. Qed.
Solve All Obligations with done.

Definition mission_status_codec : codec MissionStatus := enum_codec all_mission_statuses MissionStatus.value mission_status_of_value.
Lemma int_not_null n : enc int_codec n ≠ JNull.
Proof. done. Qed.
Definition optional_int : codec (option Z) := option_codec int_codec int_not_null.

(** [mission.model_dump(mode="json")]. *)
Definition mission_dump (m : Mission) : json := JObj [
  ("schema_version", enc str_codec (ms_schema_version m));
  ("id", enc str_codec (ms_id m));
  ("created_at", enc datetime_codec (ms_created_at m));
  ("project_id", enc str_codec (ms_project_id m));
  ("trace_id", enc str_codec (ms_trace_id m));
  ("payload_hash", enc optional_str (ms_payload_hash m));
  ("objective", enc str_codec (ms_objective m));
  ("acceptance_criteria", enc strs (ms_acceptance_criteria m));
  ("allowed_capabilities", enc strs (ms_allowed_capabilities m));
  ("data_scope_ids", enc strs (ms_data_scope_ids m));
  ("resource_policy_id", enc str_codec (ms_resource_policy_id m));
  ("max_wall_time_seconds", enc int_codec (ms_max_wall_time_seconds m));
  ("max_graph_nodes", enc int_codec (ms_max_graph_nodes m));
  ("max_active_sessions", enc int_codec (ms_max_active_sessions m));
  ("max_model_calls", enc int_codec (ms_max_model_calls m));
  ("total_token_envelope", enc optional_int (ms_total_token_envelope m));
  ("status", enc mission_status_codec (ms_status m));
  ("revision", enc int_codec (ms_revision m));
  ("cancellation_generation", enc int_codec (ms_cancellation_generation m));
  ("acceptance_receipt_id", enc optional_str (ms_acceptance_receipt_id m))].
Definition mission_fields : list string :=
  ["schema_version"; "id"; "created_at"; "project_id"; "trace_id"; "payload_hash"; "objective"; "acceptance_criteria";
   "allowed_capabilities"; "data_scope_ids"; "resource_policy_id"; "max_wall_time_seconds"; "max_graph_nodes";
   "max_active_sessions"; "max_model_calls"; "total_token_envelope"; "status"; "revision"; "cancellation_generation";
   "acceptance_receipt_id"].

(** The validator [_positive]. *)
Definition positive (n : Z) : option Z := if n <? 1 then None else Some n.

(** [Mission.model_validate]; [id], [trace] and [now] are what the default factories give. *)
Definition mission_validate (id trace : string) (now : Z) (j : json) : option Mission :=
  match j with
  | JObj d =>
    if negb (only_fields mission_fields d) then None else
    v ← get_field str_codec (Some "1.0") d "schema_version";
    id ← get_field str_codec (Some id) d "id";
    at_ ← get_field datetime_codec (Some now) d "created_at";
    pid ← get_field str_codec None d "project_id";
    trace ← get_field str_codec (Some trace) d "trace_id";
    hash ← get_field optional_str (Some None) d "payload_hash";
    objective ← get_field str_codec None d "objective";
    criteria ← get_field strs (Some []) d "acceptance_criteria";
    caps ← get_field strs (Some []) d "allowed_capabilities";
    scopes ← get_field strs (Some []) d "data_scope_ids";
    policy ← get_field str_codec None d "resource_policy_id";
    wall ← get_field int_codec None d "max_wall_time_seconds";
    nodes ← get_field int_codec None d "max_graph_nodes";
    nodes ← positive nodes;
    sessions ← get_field int_codec None d "max_active_sessions";
    sessions ← positive sessions;
    calls ← get_field int_codec None d "max_model_calls";
    calls ← positive calls;
    tokens ← get_field optional_int (Some None) d "total_token_envelope";
    status ← get_field mission_status_codec (Some MissionStatus.DRAFT) d "status";
    revision ← get_field int_codec (Some 1) d "revision";
    gen ← get_field int_codec (Some 0) d "cancellation_generation";
    receipt ← get_field optional_str (Some None) d "acceptance_receipt_id";
    Some (mkMission v id at_ pid trace hash objective criteria caps scopes policy wall nodes sessions calls tokens status
            revision gen receipt)
  | _ => None
  end.

Record valid_mission (m : Mission) : Prop := {
  vm_version : valid str_codec (ms_schema_version m);
  vm_id : valid str_codec (ms_id m);
  vm_project : valid str_codec (ms_project_id m);
  vm_trace : valid str_codec (ms_trace_id m);
  vm_hash : valid optional_str (ms_payload_hash m);
  vm_objective : valid str_codec (ms_objective m);
  vm_criteria : valid strs (ms_acceptance_criteria m);
  vm_capabilities : valid strs (ms_allowed_capabilities m);
  vm_scopes : valid strs (ms_data_scope_ids m);
  vm_policy : valid str_codec (ms_resource_policy_id m);
  vm_nodes : 1 <= ms_max_graph_nodes m;
  vm_sessions : 1 <= ms_max_active_sessions m;
  vm_calls : 1 <= ms_max_model_calls m;
  vm_receipt : valid optional_str (ms_acceptance_receipt_id m)
}.

Lemma positive_ok n : 1 <= n → positive n = Some n.
Proof. unfold positive. intros. by destruct (Z.ltb_spec n 1); [lia|]. Qed.

Lemma valid_tokens o : valid optional_int o.
Proof. by destruct o. Qed.
#[local] Hint Resolve valid_tokens : core.

Lemma mission_round_trip id trace now m : valid_mission m → mission_validate id trace now (mission_dump m) = Some m.
Proof.
  intros []. unfold mission_validate, mission_dump. cbn [only_fields negb]. cbn -[get_field positive].
  repeat (first [erewrite get_field_enc; [|reflexivity|done]|rewrite positive_ok by done]; cbn -[get_field positive]).
  by destruct m.
Qed.
Lemma mission_dump_wf m : valid_mission m → wf_json (mission_dump m).
Proof.
  intros []. apply wf_obj. split; [apply (bool_decide_unpack _); vm_compute; reflexivity|].
  unfold mission_dump. repeat (apply Forall_cons; split; [cbn [snd]; by apply enc_wf|]). constructor.
Qed.
End model.

(** ** Records *)
Record MissionRecord := mkMissionRecord {
  re_mission_id : json;
  re_goal : json;
  re_status : json;
  re_created_at : json;
  re_updated_at : json;
  re_revision : json;
  re_project_id : json;
  re_source : json;
  re_contract : json;
  re_plan : json;
  re_tasks : json;
  re_timeline : json;
  re_agents : json;
  re_artifacts : json;
  re_validation : json;
  re_retries : json;
  re_model_assignments : json;
  re_cost : json;
  re_result : json
}.
#[export] Instance eta_MissionRecord : Eta MissionRecord := λ x,
  mkMissionRecord (re_mission_id x) (re_goal x) (re_status x) (re_created_at x) (re_updated_at x) (re_revision x)
    (re_project_id x) (re_source x) (re_contract x) (re_plan x) (re_tasks x) (re_timeline x) (re_agents x) (re_artifacts x)
    (re_validation x) (re_retries x) (re_model_assignments x) (re_cost x) (re_result x).

(** [record.to_dict()]. *)
Definition record_dict (r : MissionRecord) : dict json := [
  ("mission_id", re_mission_id r); ("goal", re_goal r); ("status", re_status r); ("created_at", re_created_at r);
  ("updated_at", re_updated_at r); ("revision", re_revision r); ("project_id", re_project_id r); ("source", re_source r);
  ("contract", re_contract r); ("plan", re_plan r); ("tasks", re_tasks r); ("timeline", re_timeline r);
  ("agents", re_agents r); ("artifacts", re_artifacts r); ("validation", re_validation r); ("retries", re_retries r);
  ("model_assignments", re_model_assignments r); ("cost", re_cost r); ("result", re_result r)].

(** [MissionRecord] of the known keys of a document: a TypeError for a missing field without a default. *)
Definition required (d : dict json) (k : string) : result json :=
  match dict_get d k with
  | Some j => Ok j
  | None => Err (TypeError ("MissionRecord.__init__() missing 1 required positional argument: '" +:+ k +:+ "'"))
  end.
Definition optional (d : dict json) (k : string) (absent : json) : json := default absent (dict_get d k).
Definition record_of (d : dict json) : M unit MissionRecord :=
  id ← of_result (required d "mission_id");
  goal ← of_result (required d "goal");
  status ← of_result (required d "status");
  created ← of_result (required d "created_at");
  updated ← of_result (required d "updated_at");
  mret (mkMissionRecord id goal status created updated (optional d "revision" (JInt 1)) (optional d "project_id" JNull)
    (optional d "source" (JStr "mission_store")) (optional d "contract" (JObj [])) (optional d "plan" (JObj []))
    (optional d "tasks" (JList [])) (optional d "timeline" (JList [])) (optional d "agents" (JList []))
    (optional d "artifacts" (JObj [])) (optional d "validation" (JObj [])) (optional d "retries" (JList []))
    (optional d "model_assignments" (JList [])) (optional d "cost" (JObj [])) (optional d "result" (JObj []))).

(** ** The store *)
Abbreviation files := (gmap string string).
Definition newline : string := to_string [chr 10].
Definition mission_path (root mission_id : string) : string := root +:+ "/" +:+ mission_id +:+ ".json".
Definition FileNotFoundError : string → exn := Exn "FileNotFoundError".
Definition JSONDecodeError : string → exn := Exn "JSONDecodeError".
Definition AttributeError : string → exn := Exn "AttributeError".

(** [j.items()], [j.get(...)] and the like of a value that need not be a dict. *)
Definition as_dict (j : json) (method : string) : result (dict json) :=
  match j with
  | JObj d => Ok d
  | _ => Err (AttributeError ("'" +:+ type_name j +:+ "' object has no attribute '" +:+ method +:+ "'"))
  end.

(** [save]: [now] is the reading of the clock; the id of a record that is saved is a string. *)
Definition save_record (root : string) (now : Z) (r : MissionRecord) (fs : files) : MissionRecord * files :=
  let path := mission_path root (py_str (re_mission_id r)) in
  let r := r <| re_updated_at := JStr (isoformat now) |> in
  (r, <[path := dumps (indent_style 2) (JObj (record_dict r)) +:+ newline]> fs).

Definition load_record (root mission_id : string) (fs : files) : result MissionRecord :=
  match fs !! mission_path root mission_id with
  | None => Err (FileNotFoundError (mission_path root mission_id))
  | Some text =>
    match loads text with
    | None => Err (JSONDecodeError mission_id)
    | Some raw => match as_dict raw "items" with
                  | Ok d => (record_of d ()).1
                  | Err e => Err e
                  end
    end
  end.

(** [record.timeline.append(...)]. *)
Definition append_timeline (now : Z) (event : string) (detail : json) (r : MissionRecord) : result MissionRecord :=
  match re_timeline r with
  | JList l => Ok (r <| re_timeline := JList (l ++ [JObj [("at", JStr (isoformat now)); ("event", JStr event); ("detail", detail)]]) |>)
  | j => Err (AttributeError ("'" +:+ type_name j +:+ "' object has no attribute 'append'"))
  end.

(** [list_missions] over the paths of the directory, in the order of [sorted(glob)]: files that do
    not parse and ids seen before are skipped. *)
Fixpoint list_rows (paths : list string) (fs : files) (seen : list string) : result (list (dict json)) :=
  match paths with
  | [] => Ok []
  | path :: paths' =>
    match fs !! path ≫= loads with
    | None => list_rows paths' fs seen
    | Some data =>
      match as_dict data "get" with
      | Err e => Err e
      | Ok d =>
        let mid := jget data "mission_id" in
        if negb (py_truthy mid) then list_rows paths' fs seen
        else if negb (hashable mid) then Err (TypeError ("unhashable type: '" +:+ type_name mid +:+ "'"))
        else if match mid with JStr s => one_of s seen | _ => false end then list_rows paths' fs seen
        else match list_rows paths' fs (py_str mid :: seen) with
             | Ok rows => Ok ([("mission_id", mid); ("status", jget data "status"); ("goal", jget data "goal");
                               ("updated_at", jget data "updated_at"); ("path", JStr path)] :: rows)
             | Err e => Err e
             end
      end
    end
  end.
Definition in_directory (root path : string) : bool :=
  String.prefix (root +:+ "/") path && match of_string path with [] => false | _ => true end
  && bool_decide (to_string (take 5 (reverse (of_string path))) = "nosj.").
Definition list_missions (root : string) (fs : files) : result (list (dict json)) :=
  list_rows (sort_by str_leb (List.filter (in_directory root) (elements (dom fs)))) fs [].

Lemma mission_path_inj root a b : mission_path root a = mission_path root b → a = b.
Proof. apply path_of_inj. Qed.

(** What a record needs to be written and read: documents with each key once. *)
Definition wf_record (r : MissionRecord) : Prop := Forall (λ kv, wf_json kv.2) (record_dict r).

Lemma record_dict_wf r : wf_record r → wf_json (JObj (record_dict r)).
Proof. intros Hr. apply wf_obj. split; [|done]. apply (bool_decide_unpack _). vm_compute. reflexivity. Qed.
Lemma wf_fields r k j : wf_record r → (k, j) ∈ record_dict r → wf_json j.
Proof. unfold wf_record. rewrite Forall_forall. intros H Hk. exact (H _ Hk). Qed.
(** The fields of a record, one by one. *)
Ltac split_fields := repeat match goal with
  | H : Forall _ (_ :: _) |- _ => apply Forall_cons in H as [? H]; cbn [snd] in *
  | |- Forall _ (_ :: _) => apply Forall_cons; split; [cbn [snd]; first [assumption|done]|]
  | |- Forall _ [] => constructor
  end.
Lemma wf_dict_set d k v : wf_json (JObj d) → wf_json v → wf_json (JObj (dict_set d k v)).
Proof.
  intros [Hnd Hd]%wf_obj Hv. apply wf_obj. split; [by apply dict_set_nodup|]. apply Forall_forall. intros [k' v'] Hk.
  apply dict_elem_set in Hk as [[-> ->]|Hk]; [done|]. rewrite Forall_forall in Hd. by apply (Hd _ Hk).
Qed.
Lemma wf_strings l : wf_json (JList (JStr <$> l)).
Proof. apply wf_list, Forall_fmap, Forall_true. done. Qed.
Lemma record_of_dict r : (record_of (record_dict r) ()).1 = Ok r.
Proof. by destruct r. Qed.

(** What was saved is read back, with the time of saving, whatever else is in the directory. *)
Lemma load_saved root now r fs id : wf_record r → re_mission_id r = JStr id →
  load_record root id (save_record root now r fs).2 = Ok (r <| re_updated_at := JStr (isoformat now) |>).
Proof.
  intros Hr Hid. unfold load_record, save_record. rewrite Hid. cbn [snd py_str].
  rewrite lookup_insert_eq. unfold newline. rewrite loads_dumps_space; [|apply good_indent| |by repeat constructor|done].
  - cbn [as_dict]. apply record_of_dict.
  - apply record_dict_wf. revert Hr. unfold wf_record, record_dict. rewrite !Forall_cons. cbn. tauto.
Qed.
Lemma load_other root now r fs id id' : re_mission_id r = JStr id → id' ≠ id →
  load_record root id' (save_record root now r fs).2 = load_record root id' fs.
Proof.
  intros Hid Hne. unfold load_record, save_record. rewrite Hid. cbn [snd py_str].
  rewrite lookup_insert_ne; [done|]. intros H%mission_path_inj. by symmetry in H.
Qed.

(** ** Acceptance (acceptance.py) *)
Definition SUPPORTED_TASK_FAMILIES : list string := ["inspect"; "implement"; "verify"; "review"; "extract"; "triage"; "plan"].
Record SupportDecision := mkSupport { sd_supported : bool; sd_family : string; sd_reason : string }.
Record ReviewDecision := mkReview { rd_accepted : bool; rd_reasons : list string; rd_checks : dict bool }.
Definition support_dict (d : SupportDecision) : json :=
  JObj [("supported", JBool (sd_supported d)); ("family", JStr (sd_family d)); ("reason", JStr (sd_reason d))].
Definition review_dict (d : ReviewDecision) : json :=
  JObj [("accepted", JBool (rd_accepted d)); ("reasons", JList (JStr <$> rd_reasons d));
        ("checks", JObj ((λ kv, (kv.1, JBool kv.2)) <$> rd_checks d))].

Definition classify_task_support (task_family : string) : SupportDecision :=
  let family := to_lower (strip task_family) in
  if bool_decide (family = "") then mkSupport false family "missing_task_family"
  else if negb (one_of family SUPPORTED_TASK_FAMILIES) then mkSupport false family ("unsupported_task_family:" +:+ family)
  else mkSupport true family "supported".

(** Python's [==] on documents: numbers by value, dicts whatever the order of their keys. *)
Fixpoint json_eqb (a b : json) : bool :=
  match a, b with
  | JList l, JList l' => (fix go l l' := match l, l' with
      | [], [] => true
      | x :: l1, y :: l1' => json_eqb x y && go l1 l1'
      | _, _ => false end) l l'
  | JObj d, JObj d' => (length d =? length d')%nat && (fix go d := match d with
      | [] => true
      | (k, x) :: d1 => match dict_get d' k with Some y => json_eqb x y | None => false end && go d1 end) d
  | _, _ => py_eqb a b
  end.

(** The loop over the required checks: each with its outcome. *)
Definition run_checks (required produced : dict json) : dict bool :=
  insert_all ((λ kv, (kv.1, json_eqb (default JNull (dict_get produced kv.1)) kv.2)) <$> required).
Definition failed_checks (checks : dict bool) : list string := fst <$> List.filter (λ kv, negb kv.2) checks.

Definition is_true (j : json) : bool := match j with JBool true => true | _ => false end.
Definition review_attempt (produced : dict json) (required_checks : option (dict json)) (force_wrong : bool) : ReviewDecision :=
  let required := default [] required_checks in
  let produced_checks := match dict_get produced "checks" with Some (JObj d) => d | _ => produced end in
  if force_wrong || is_true (default JNull (dict_get produced "intentionally_wrong")) then
    mkReview false ["wrong_result_rejected"] [("wrong_result", false)]
  else if is_true (default JNull (dict_get produced "unsupported")) then
    let reason := default JNull (dict_get produced "unsupported_reason") in
    mkReview false [py_str (if py_truthy reason then reason else JStr "unsupported_task")] [("supported", false)]
  else match required with
  | [] => mkReview false ["no_independent_checks"] [("independent_review", false)]
  | _ =>
    let checks := run_checks required produced_checks in
    let failed := (λ k, "check_failed:" +:+ k) <$> failed_checks checks in
    match failed with
    | [] => mkReview true ["all_independent_checks_passed"] checks
    | _ => mkReview false (failed ++ ["wrong_result_rejected"]) checks
    end
  end.

(** The loop decides each required check by comparing the produced value with the expected one. *)
Lemma run_checks_spec required produced : NoDup required.*1 →
  run_checks required produced = (λ kv, (kv.1, json_eqb (default JNull (dict_get produced kv.1)) kv.2)) <$> required.
Proof. intros Hnd. unfold run_checks. apply insert_all_id. by rewrite <- list_fmap_compose. Qed.

Lemma failed_spec required produced k : NoDup required.*1 →
  k ∈ failed_checks (run_checks required produced)
  ↔ ∃ v, (k, v) ∈ required ∧ json_eqb (default JNull (dict_get produced k)) v = false.
Proof.
  intros Hnd. rewrite run_checks_spec by done. unfold failed_checks. rewrite list_elem_of_fmap.
  setoid_rewrite list_elem_of_In. setoid_rewrite List.filter_In. setoid_rewrite <- list_elem_of_In.
  setoid_rewrite list_elem_of_fmap. split.
  - intros (kv & -> & ([k0 v0] & -> & Hin) & Hn). exists v0. split; [done|]. by apply negb_true_iff in Hn.
  - intros (v & Hin & Hj). exists (k, false). split; [done|]. split; [|done]. exists (k, v). cbn. by rewrite Hj.
Qed.

Definition marked (produced : dict json) (force_wrong : bool) : Prop :=
  force_wrong = true ∨ dict_get produced "intentionally_wrong" = Some (JBool true)
  ∨ dict_get produced "unsupported" = Some (JBool true).
Lemma is_true_spec o : is_true (default JNull o) = true ↔ o = Some (JBool true).
Proof. destruct o as [[| [] | | | |]|]; cbn; split; congruence. Qed.

Lemma review_marked produced required_checks force_wrong :
  marked produced force_wrong → rd_accepted (review_attempt produced required_checks force_wrong) = false.
Proof.
  intros Hm. unfold review_attempt. destruct (force_wrong || _) eqn:Hw; [done|].
  apply orb_false_iff in Hw as [-> Hw%not_true_iff_false]. rewrite is_true_spec in Hw.
  destruct Hm as [|[|Hu]]; [done..|]. apply is_true_spec in Hu. by rewrite Hu.
Qed.
Lemma review_unmarked produced required_checks force_wrong : ¬ marked produced force_wrong →
  default [] required_checks ≠ [] →
  let checks := run_checks (default [] required_checks)
    match dict_get produced "checks" with Some (JObj d) => d | _ => produced end in
  let failed := (λ k, "check_failed:" +:+ k) <$> failed_checks checks in
  review_attempt produced required_checks force_wrong
  = match failed with
    | [] => mkReview true ["all_independent_checks_passed"] checks
    | _ => mkReview false (failed ++ ["wrong_result_rejected"]) checks
    end.
Proof.
  intros Hm Hreq checks failed. unfold review_attempt.
  destruct (force_wrong || _) eqn:Hw.
  { destruct Hm. unfold marked. apply orb_true_iff in Hw as [->|Hw%is_true_spec]; auto. }
  destruct (is_true (default JNull (dict_get produced "unsupported"))) eqn:Hu.
  { destruct Hm. unfold marked. apply is_true_spec in Hu. auto. }
  by destruct (default [] required_checks).
Qed.

(** A review accepts exactly when the result is not marked wrong or unsupported, there is at least one
    required check, and every required check is produced with an equal value; a rejection of an
    unmarked result names exactly the checks that failed. *)
Theorem review_accepts_exactly produced required_checks force_wrong :
  NoDup (default [] required_checks : dict json).*1 →
  let required : dict json := default [] required_checks in
  let produced_checks := match dict_get produced "checks" with Some (JObj d) => d | _ => produced end in
  let decision := review_attempt produced required_checks force_wrong in
  (rd_accepted decision = true ↔ ¬ marked produced force_wrong ∧ required ≠ []
    ∧ ∀ k v, (k, v) ∈ required → json_eqb (default JNull (dict_get produced_checks k)) v = true)
  ∧ (¬ marked produced force_wrong → required ≠ [] → ∀ k v, (k, v) ∈ required →
      ("check_failed:" +:+ k ∈ rd_reasons decision ↔ json_eqb (default JNull (dict_get produced_checks k)) v = false)).
Proof.
  intros Hnd required produced_checks decision.
  assert (∀ k v, (k, v) ∈ required → k ∈ failed_checks (run_checks required produced_checks)
    ↔ json_eqb (default JNull (dict_get produced_checks k)) v = false) as Hfail.
  { intros k v Hk. rewrite failed_spec by done. split; [|by exists v]. intros (v' & Hk' & Hj).
    pose proof (dict_elem_get _ _ _ Hnd Hk). pose proof (dict_elem_get _ _ _ Hnd Hk'). congruence. }
  assert (¬ marked produced force_wrong → required ≠ [] → decision = _) as Hdec by (intros; by apply review_unmarked).
  fold required produced_checks in Hdec. split.
  - split.
    + intros Hacc. assert (¬ marked produced force_wrong) as Hm.
      { intros Hm. apply (review_marked _ required_checks) in Hm. fold decision in Hm. congruence. }
      assert (required ≠ []) as Hreq.
      { intros Hreq. revert Hacc. unfold decision, review_attempt. fold required. rewrite Hreq. by repeat case_match. }
      split_and!; [done..|]. intros k v Hk. rewrite (Hdec Hm Hreq) in Hacc. apply not_false_iff_true. intros Hj%Hfail; [|done].
      destruct (failed_checks _); [by apply elem_of_nil in Hj|done].
    + intros (Hm & Hreq & Hall). rewrite (Hdec Hm Hreq). destruct (failed_checks _) as [|k l] eqn:Hf; [done|].
      assert (k ∈ failed_checks (run_checks required produced_checks)) as Hk by (rewrite Hf; by left).
      apply failed_spec in Hk as (v & Hk & Hj); [|done]. by rewrite (Hall _ _ Hk) in Hj.
  - intros Hm Hreq k v Hk. rewrite (Hdec Hm Hreq), <- (Hfail _ _ Hk).
    set (l := failed_checks _). transitivity ("check_failed:" +:+ k ∈ (λ k, "check_failed:" +:+ k) <$> l).
    + destruct l as [|k0 l]; cbn -[String.app]; [split; intros H; [by apply list_elem_of_singleton in H|by apply elem_of_nil in H]|].
      rewrite elem_of_cons, elem_of_app, list_elem_of_singleton, elem_of_cons. set_solver.
    + rewrite list_elem_of_fmap. split; [|by exists k]. by intros (k' & Hk'%(inj (String.app "check_failed:")) & ?); subst.
Qed.
