(* ===== verification/RepoWorker.v ===== *)
(** * RepoWorker: what a worker does for the tasks of a software mission

    mission/worker.py: inspecting, implementing, verifying and reviewing in a git worktree, as
    programs over the operations of [wop]: reading and writing files, creating a worktree and
    its diff, running commands, asking a model (mission/inference.py and
    mission/brokered_inference.py), all of which may raise.  Paths are [pathlib]'s pure paths.
    Texts are ASCII.  [float_json] is how a cost shows in a document, which has no floats here.

    The lemmas say of each handler what it wrote, ran and asked, and what a successful result
    implies; [MissionRun] puts them together. *)
From S2P Require Import Prelude Collections Contracts PyFloat Json JsonText Models Regex Checkpoint MissionStore Graph Controller ControllerProps Planner Programs.
From Stdlib Require Import Ascii.
Open Scope Z_scope.

(** ** Paths *)
Record path := mkPath { pa_root : string; pa_parts : list string }.
#[export] Instance path_eq_dec : EqDecision path.
Proof. solve_decision. Defined.
(** [cur] is the part being read, in reverse; empty parts and ["."] are dropped. *)
Definition keep_part (part : string) (parts : list string) : list string :=
  if bool_decide (part = "") || bool_decide (part = ".") then parts else part :: parts.
Fixpoint split_parts (cur l : chars) : list string :=
  match l with
  | [] => keep_part (to_string (reverse cur)) []
  | c :: l' => if bool_decide (c = "/"%char) then keep_part (to_string (reverse cur)) (split_parts [] l') else split_parts (c :: cur) l'
  end.
(** [Path(s)]: exactly two leading slashes are a root of their own. *)
Definition path_of (s : string) : path :=
  mkPath (if String.prefix "///" s then "/" else if String.prefix "//" s then "//" else if String.prefix "/" s then "/" else "")
    (split_parts [] (of_string s)).
Definition pjoin (a b : path) : path := if bool_decide (pa_root b = "") then mkPath (pa_root a) (pa_parts a ++ pa_parts b) else b.
Definition path_str (p : path) : string :=
  let s := pa_root p +:+ join "/" (pa_parts p) in if bool_decide (s = "") then "." else s.
Definition pname (p : path) : string := default "" (last (pa_parts p)).
Definition parent (p : path) : path := mkPath (pa_root p) (take (length (pa_parts p) - 1) (pa_parts p)).

(** ** Data *)
Record WorktreeHandle := mkHandle {
  wt_path : path;
  wt_branch : string;
  wt_worker_id : string;
  wt_mission_id : string;
  wt_task_id : string
}.
Definition handle_dict (h : WorktreeHandle) : json :=
  JObj [("path", JStr (path_str (wt_path h))); ("branch", JStr (wt_branch h)); ("worker_id", JStr (wt_worker_id h));
        ("mission_id", JStr (wt_mission_id h)); ("task_id", JStr (wt_task_id h))].
Record InferenceResult := mkInference {
  ir_ok : bool;
  ir_text : string;
  ir_model : string;
  ir_route_id : string;
  ir_prompt_tokens : option Z;
  ir_completion_tokens : option Z;
  ir_cost_usd : float;
  ir_error : option string
}.
Record CommandResult := mkCommand {
  cr_cmd : list string;
  cr_exit_code : Z;
  cr_stdout : string;
  cr_stderr : string
}.
Record WorkerResult := mkWorkerResult {
  wk_worker_id : string;
  wk_task_id : string;
  wk_task_family : string;
  wk_ok : bool;
  wk_summary : string;
  wk_artifacts : dict json;
  wk_inference : option InferenceResult;
  wk_cost_usd : float;
  wk_started_at : string;
  wk_finished_at : string
}.

(** [s[:n]] and [s[-n:]]. *)
Definition first_n (n : nat) (s : string) : string := to_string (take n (of_string s)).
Definition last_n (n : nat) (s : string) : string := let l := of_string s in to_string (drop (length l - n) l).
Definition json_of_opt_int (o : option Z) : json := match o with Some n => JInt n | None => JNull end.

(** The operations a mission performs. *)
Inductive wop : Type → Type :=
  | Now : wop Z
  | Draw : wop nat
  | InspectRepo : wop RepoInspection
  | RoutePlan : wop (dict string * json)
  | MissionBroker : wop ()
  | WriteRecord (r : MissionRecord) : wop ()
  | WriteReports (r : MissionRecord) (mission_id : string) : wop (dict json)
  | Exists (p : path) : wop bool
  | IsDir (p : path) : wop bool
  | ReadText (p : path) : wop string
  | MakeDirs (p : path) : wop ()
  | WriteText (p : path) (text : string) : wop ()
  | CreateWorktree (mission_id task_id worker_id : string) : wop WorktreeHandle
  | RemoveWorktree (h : WorktreeHandle) : wop ()
  | WorktreeDiff (h : WorktreeHandle) : wop string
  | RunCmd (cwd : path) (cmd : list string) (timeout : Z) : wop CommandResult
  | Chat (messages : list (string * string)) (model : string) (max_tokens : Z) : wop InferenceResult.
Abbreviation W := (prog wop).

Record RepoWorker := mkWorker {
  rw_repo : path;
  rw_model : string;
  rw_model_by_family : dict string;
  rw_worker_id : string;
  rw_parser_dogfood_fixture : bool
}.
Definition AssertionError : exn := Exn "AssertionError" "".

Section worker.
Context (float_json : float → json).

Definition inference_dict (i : InferenceResult) : json :=
  JObj [("ok", JBool (ir_ok i)); ("text", JStr (first_n 4000 (ir_text i))); ("model", JStr (ir_model i)); ("route_id", JStr (ir_route_id i));
        ("prompt_tokens", json_of_opt_int (ir_prompt_tokens i)); ("completion_tokens", json_of_opt_int (ir_completion_tokens i));
        ("cost_usd", float_json (ir_cost_usd i)); ("error", json_of_option (ir_error i))].
Definition inference_json (o : option InferenceResult) : json := match o with Some i => inference_dict i | None => JNull end.
(** The document of [_run_cmd]. *)
Definition command_ok (c : CommandResult) : bool := cr_exit_code c =? 0.
Definition command_dict (c : CommandResult) : json :=
  JObj [("cmd", JList (JStr <$> cr_cmd c)); ("exit_code", JInt (cr_exit_code c)); ("ok", JBool (command_ok c));
        ("stdout", JStr (last_n 8000 (cr_stdout c))); ("stderr", JStr (last_n 4000 (cr_stderr c)))].
Definition worker_result_dict (r : WorkerResult) : json :=
  JObj [("worker_id", JStr (wk_worker_id r)); ("task_id", JStr (wk_task_id r)); ("task_family", JStr (wk_task_family r));
        ("ok", JBool (wk_ok r)); ("summary", JStr (wk_summary r)); ("artifacts", JObj (wk_artifacts r));
        ("inference", inference_json (wk_inference r)); ("cost_usd", float_json (wk_cost_usd r));
        ("started_at", JStr (wk_started_at r)); ("finished_at", JStr (wk_finished_at r))].

(** [re.search(r"```(?:python)?\n(.*?)```", text, re.S)], its group. *)
Definition fence_group (text : string) : option string :=
  first_match (cats [literal "```"; Opt (literal "python"); literal newline]) true (of_string text)
    (λ st l1, go (Star false Any) st l1 (λ st l2, go (literal "```") st l2 (λ _ _, Some (to_string (take (length l1 - length l2) l1))))).
Fixpoint find_sub (needle : string) (hay : chars) : option nat :=
  if String.prefix needle (to_string hay) then Some O
  else match hay with [] => None | _ :: hay' => S <$> find_sub needle hay' end.
Definition docstring_quote : string := to_string (replicate 3 dquote).
Definition _extract_python_file (text : string) : option string :=
  match fence_group text with
  | Some group => Some (strip group +:+ newline)
  | None =>
    if contains "def inclusive_range_count" text && contains "return" text then
      match (match find_sub docstring_quote (of_string text) with Some n => Some n | None => find_sub "def inclusive_range_count" (of_string text) end) with
      | Some start => Some (strip (to_string (drop start (of_string text))) +:+ newline)
      | None => None
      end
    else None
  end.

Definition OFF_BY_ONE_REL : path := path_of "sandbox/selfdev_issue/parser_helper.py".
Definition OFF_BY_ONE_TEST_REL : path := path_of "sandbox/selfdev_issue/parser_helper_test.py".
Definition _model_for (w : RepoWorker) (task_family : string) : string :=
  match dict_get (rw_model_by_family w) task_family with Some m => if bool_decide (m = "") then rw_model w else m | None => rw_model w end.
(** [inputs.get(a) or inputs.get(b)], if it is a string that is not blank. *)
Definition input_path (inputs : dict json) (a b : string) : option path :=
  let first := default JNull (dict_get inputs a) in
  match (if py_truthy first then first else default JNull (dict_get inputs b)) with
  | JStr raw => if bool_decide (strip raw = "") then None else Some (path_of (strip raw))
  | _ => None
  end.
Definition _resolve_target_rel (w : RepoWorker) (task : PlannedTask) : option path :=
  match input_path (pt_inputs task) "target_file" "target_path" with
  | Some p => Some p
  | None => if rw_parser_dogfood_fixture w then Some OFF_BY_ONE_REL else None
  end.
Definition _resolve_test_rel (w : RepoWorker) (task : PlannedTask) : option path :=
  match input_path (pt_inputs task) "test_file" "test_path" with
  | Some p => Some p
  | None => if rw_parser_dogfood_fixture w then Some OFF_BY_ONE_TEST_REL else None
  end.
(** A result, with the readings of the clock for when it started and finished. *)
Definition result_of (w : RepoWorker) (task : PlannedTask) (family : string) (ok : bool) (summary : string) (artifacts : dict json)
    (inference : option InferenceResult) (cost : float) : W WorkerResult :=
  finished ← call Now;
  started ← call Now;
  mret (mkWorkerResult (rw_worker_id w) (ts_id (pt_spec task)) family ok summary artifacts inference cost (isoformat started) (isoformat finished)).

(** ** Inspecting *)
(** The files mentioned in the goal that exist. *)
Fixpoint existing (repo : path) (mentioned : list string) : W (list string) :=
  match mentioned with
  | [] => mret []
  | m :: rest =>
    let cand := path_of m in
    there ← call (Exists (pjoin repo cand));
    found ← existing repo rest;
    mret (if there : bool then path_str cand :: found else found)
  end.
Definition goal_of (task : PlannedTask) (otherwise : json) : string :=
  let goal := default JNull (dict_get (pt_inputs task) "goal") in
  let goal := if py_truthy goal then goal else otherwise in
  if py_truthy goal then py_str goal else "".
Definition _inspect (w : RepoWorker) (task : PlannedTask) (mission_id : string) : W WorkerResult :=
  let fixture := rw_parser_dogfood_fixture w in
  let findings := [("mission_id", JStr mission_id); ("goal", default JNull (dict_get (pt_inputs task) "goal")); ("candidate_files", JList []);
    ("strategy", JStr (if fixture then "parser_dogfood_fixture" else "task_provided_paths")); ("parser_dogfood_fixture", JBool fixture)] in
  '(candidates, findings) ←
    (match _resolve_target_rel w task with
     | Some target_rel =>
       let target := pjoin (rw_repo w) target_rel in
       there ← call (Exists target);
       if there : bool then
         text ← call (ReadText target);
         let findings := dict_set findings "file_preview" (JStr (first_n 500 text)) in
         mret ([path_str target_rel],
           if fixture then dict_set findings "off_by_one_suspected" (JBool (contains "end - start" text && negb (contains "+ 1" text))) else findings)
       else mret ([], findings)
     | None =>
       candidates ← existing (rw_repo w) (findall path_mentions (goal_of task JNull));
       mret (candidates, dict_set findings "strategy" (JStr "goal_path_scan"))
     end);
  ledger_there ← call (Exists (pjoin (rw_repo w) (path_of "src/swarm/cost/ledger.py")));
  let hint := negb ledger_there in
  let findings := dict_set (dict_set findings "candidate_files" (JList (JStr <$> candidates))) "missing_cost_ledger" (JBool hint) in
  let ok := negb (bool_decide (candidates = [])) || hint in
  result_of w task "inspect" ok (if ok then "inspection_complete" else "inspection_no_candidates") [("findings", JObj findings)] None f_0.

(** ** Implementing *)
(** The first candidate of an earlier inspection. *)
Definition first_candidate (r : WorkerResult) : option path :=
  if bool_decide (wk_task_family r = "inspect") then
    match jget (default JNull (dict_get (wk_artifacts r) "findings")) "candidate_files" with
    | JList (c :: _) => Some (path_of (py_str c))
    | _ => None
    end
  else None.
Fixpoint first_some {A B} (f : A → option B) (l : list A) : option B :=
  match l with [] => None | x :: l' => match f x with Some y => Some y | None => first_some f l' end end.
Definition target_of (w : RepoWorker) (task : PlannedTask) (prior : dict WorkerResult) : option path :=
  match _resolve_target_rel w task with Some p => Some p | None => first_some first_candidate (dict_values prior) end.
Definition implement_prompt (w : RepoWorker) (task : PlannedTask) (target_rel : path) (original : string) : string :=
  if rw_parser_dogfood_fixture w then
    "You are fixing a Python bug in SwarmAI. Return ONLY the full corrected " +:+ "file contents for parser_helper.py. Function inclusive_range_count(start, end) "
    +:+ "must count integers from start to end inclusive. Current file:" +:+ newline +:+ newline +:+ original
  else
    "You are editing " +:+ path_str target_rel +:+ " in a software mission. " +:+ "Goal: " +:+ goal_of task (JStr (ts_objective (pt_spec task))) +:+ newline
    +:+ "Return ONLY the full corrected file contents." +:+ newline +:+ newline +:+ "Current file:" +:+ newline +:+ original.
Definition implement_failed (w : RepoWorker) (task : PlannedTask) (handle : WorktreeHandle) (target_rel : path) (inference : InferenceResult)
    : W (WorkerResult * WorktreeHandle) :=
  result ← result_of w task "implement" false "implement_failed_no_known_answer_fallback"
    [("worktree", handle_dict handle); ("changed_files", JList []); ("diff", JStr ""); ("used_model_fallback", JBool false);
     ("known_answer_forbidden", JBool true); ("parser_dogfood_fixture", JBool (rw_parser_dogfood_fixture w)); ("target_file", JStr (path_str target_rel));
     ("model_output_excerpt", JStr (first_n 500 (ir_text inference)))] (Some inference) f_0;
  mret (result, handle).
Definition implement_applied (w : RepoWorker) (task : PlannedTask) (handle : WorktreeHandle) (target_rel : path) (original patched : string)
    (inference : InferenceResult) : W (WorkerResult * WorktreeHandle) :=
  let target := pjoin (wt_path handle) target_rel in
  call (MakeDirs (parent target));;
  call (WriteText target patched);;
  diff ← call (WorktreeDiff handle);
  result ← result_of w task "implement" (negb (bool_decide (strip diff = "")) || negb (bool_decide (patched = original))) "implement_applied"
    [("worktree", handle_dict handle); ("changed_files", JList [JStr (path_str target_rel)]); ("diff", JStr (last_n 12000 diff));
     ("used_model_fallback", JBool false); ("known_answer_forbidden", JBool true); ("parser_dogfood_fixture", JBool (rw_parser_dogfood_fixture w))]
    (Some inference) (ir_cost_usd inference);
  mret (result, handle).
Definition implement_without (w : RepoWorker) (task : PlannedTask) (handle : WorktreeHandle) : W (WorkerResult * WorktreeHandle) :=
  result ← result_of w task "implement" false "implement_requires_target_or_fixture_parser_dogfood"
    [("worktree", handle_dict handle); ("changed_files", JList []); ("diff", JStr ""); ("parser_dogfood_fixture", JBool (rw_parser_dogfood_fixture w));
     ("hint", JStr ("Pass --fixture-parser-dogfood for the sandbox off-by-one sample, " +:+ "or set task inputs target_file for a generic mission path."))]
    None f_0;
  mret (result, handle).
(** [_implement] once it has a worktree. *)
Definition implement_in (w : RepoWorker) (task : PlannedTask) (handle : WorktreeHandle) (prior : dict WorkerResult) : W (WorkerResult * WorktreeHandle) :=
  match target_of w task prior with
  | None => implement_without w task handle
  | Some target_rel =>
    let target := pjoin (wt_path handle) target_rel in
    there ← call (Exists target);
    original ← (if there : bool then call (ReadText target) else mret "");
    inference ← call (Chat [("system", "Return only valid Python source for the file."); ("user", implement_prompt w task target_rel original)]
      (_model_for w "implement") 800);
    match (if ir_ok inference then _extract_python_file (ir_text inference) else None) with
    | None => implement_failed w task handle target_rel inference
    | Some patched =>
      if rw_parser_dogfood_fixture w && negb (contains "end - start + 1" patched) then implement_failed w task handle target_rel inference
      else implement_applied w task handle target_rel original patched inference
    end
  end.
Definition _implement (w : RepoWorker) (task : PlannedTask) (mission_id : string) (shared : option WorktreeHandle) (prior : dict WorkerResult)
    : W (WorkerResult * WorktreeHandle) :=
  handle ← match shared with Some h => mret h | None => call (CreateWorktree mission_id (ts_id (pt_spec task)) (rw_worker_id w)) end;
  implement_in w task handle prior.

(** ** Verifying *)
Definition _verify (w : RepoWorker) (task : PlannedTask) (handle : WorktreeHandle) : W WorkerResult :=
  let fixture := rw_parser_dogfood_fixture w in
  let test_rel := _resolve_test_rel w task in
  unit_run ← match test_rel with
    | None => mret []
    | Some rel =>
      let test_file := pjoin (wt_path handle) rel in
      there ← call (Exists test_file);
      if there : bool then c ← call (RunCmd (parent test_file) ["python"; pname test_file] 30); mret [c] else mret []
    end;
  tests ← call (IsDir (pjoin (wt_path handle) (path_of "tests/mission")));
  project ← (if tests : bool then call (Exists (pjoin (wt_path handle) (path_of "pyproject.toml"))) else mret false);
  mission_run ← (if project : bool then
      c ← call (RunCmd (wt_path handle) ["uv"; "run"; "pytest"; "tests/mission"; "-q"; "--tb=line"] 180); mret [c]
    else mret []);
  let commands := unit_run ++ mission_run in
  let artifacts := [("commands", JList (command_dict <$> commands)); ("worktree", handle_dict handle); ("parser_dogfood_fixture", JBool fixture)] in
  if bool_decide (commands = []) && negb fixture && bool_decide (test_rel = None) then
    result_of w task "verify" false "verify_requires_test_file_or_fixture_parser_dogfood" artifacts None f_0
  else
    let ok := negb (bool_decide (commands = [])) && forallb command_ok commands in
    result_of w task "verify" ok (if ok then "verify_complete" else "verify_failed") artifacts None f_0.

(** ** Reviewing *)
Definition of_family (family : string) (prior : dict WorkerResult) : option WorkerResult :=
  List.find (λ r, bool_decide (wk_task_family r = family)) (dict_values prior).
Definition passed_ok (r : option WorkerResult) : bool := match r with Some r => wk_ok r | None => false end.
Definition banned_diff (diff : string) : bool :=
  existsb (λ token, contains token (to_lower diff)) ["api_key"; "begin private key"; "aws_secret"; ".env="].
(** [list(dict.fromkeys(l))]. *)
Definition dedup (l : list string) : list string := (insert_all ((λ x, (x, ())) <$> l)).*1.
Definition _review (w : RepoWorker) (task : PlannedTask) (handle : WorktreeHandle) (prior : dict WorkerResult) : W WorkerResult :=
  diff ← call (WorktreeDiff handle);
  let verify := of_family "verify" prior in
  let implement := of_family "implement" prior in
  let banned := banned_diff diff in
  let rejected := banned || negb (passed_ok verify) || negb (passed_ok implement) in
  let reasons := (if banned then ["secret_like_content_in_diff"] else []) ++ (if passed_ok verify then [] else ["verification_failed"])
    ++ (if passed_ok implement then [] else ["implementation_missing"]) ++ (if rejected then [] else ["verification_passed_and_diff_clean"]) in
  review_inference ← (if rejected then mret None
    else i ← call (Chat [("user", "Summarize in 2 sentences whether this inclusive_range_count " +:+ "fix is correct. Diff:" +:+ newline +:+ first_n 3000 diff)]
                    (_model_for w "review") 120); mret (Some i));
  let produced := [("checks", JObj [("verification_passed", JBool (passed_ok verify)); ("implementation_present", JBool (passed_ok implement));
      ("diff_clean", JBool (negb banned))]); ("intentionally_wrong", JBool rejected)] in
  let independent := review_attempt produced
    (Some [("verification_passed", JBool true); ("implementation_present", JBool true); ("diff_clean", JBool true)]) false in
  let accepted := negb rejected && rd_accepted independent in
  let reasons := if rd_accepted independent then reasons else dedup (reasons ++ rd_reasons independent) in
  let decision := if accepted then "accept" else "reject" in
  result_of w task "review" accepted decision
    [("decision", JStr decision); ("reasons", JList (JStr <$> reasons)); ("diff_excerpt", JStr (first_n 4000 diff));
     ("competing_solutions", JList [JObj [("worker_id", match implement with Some r => JStr (wk_worker_id r) | None => JNull end);
                                          ("ok", JBool (passed_ok implement))]]);
     ("review_notes", inference_json review_inference); ("independent_review", review_dict independent)]
    review_inference (match review_inference with Some i => ir_cost_usd i | None => f_0 end).

Definition run_task (w : RepoWorker) (task : PlannedTask) (mission_id : string) (prior : dict WorkerResult) (shared : option WorktreeHandle)
    : W (WorkerResult * option WorktreeHandle) :=
  let family := ts_task_family (pt_spec task) in
  let support := classify_task_support family in
  if negb (sd_supported support) then
    r ← result_of w task family false (sd_reason support) [("support", support_dict support); ("unsupported", JBool true)] None f_0; mret (r, shared)
  else if bool_decide (family = "inspect") then r ← _inspect w task mission_id; mret (r, shared)
  else if bool_decide (family = "implement") then '(r, h) ← _implement w task mission_id shared prior; mret (r, Some h)
  else if bool_decide (family = "verify") then h ← prequire shared AssertionError; r ← _verify w task h; mret (r, shared)
  else if bool_decide (family = "review") then h ← prequire shared AssertionError; r ← _review w task h prior; mret (r, shared)
  else r ← result_of w task family false ("handler_not_implemented:" +:+ family) [("support", support_dict support); ("handler_missing", JBool true)] None f_0;
    mret (r, shared).
End worker.

(** ** What a history shows *)
Abbreviation history := (list (event wop)).
Definition command_of (ev : event wop) : option CommandResult :=
  match ev with Ev R o r => match o in wop R return result R → option CommandResult with
    | RunCmd _ _ _ => λ r, match r with Ok c => Some c | Err _ => None end | _ => λ _, None end r end.
Definition diff_of (ev : event wop) : option string :=
  match ev with Ev R o r => match o in wop R return result R → option string with
    | WorktreeDiff _ => λ r, match r with Ok d => Some d | Err _ => None end | _ => λ _, None end r end.
Definition created_by (ev : event wop) : option WorktreeHandle :=
  match ev with Ev R o r => match o in wop R return result R → option WorktreeHandle with
    | CreateWorktree _ _ _ => λ r, match r with Ok h => Some h | Err _ => None end | _ => λ _, None end r end.
Definition chat_of (ev : event wop) : option InferenceResult :=
  match ev with Ev R o r => match o in wop R return result R → option InferenceResult with
    | Chat _ _ _ => λ r, match r with Ok i => Some i | Err _ => None end | _ => λ _, None end r end.
Definition write_of (ev : event wop) : option path :=
  match ev with Ev _ o _ => match o with WriteText p _ => Some p | _ => None end end.
Definition is_chat (ev : event wop) : bool := match ev with Ev _ o _ => match o with Chat _ _ _ => true | _ => false end end.
Definition is_creation (ev : event wop) : bool := match ev with Ev _ o _ => match o with CreateWorktree _ _ _ => true | _ => false end end.
Definition is_removal (wt : WorktreeHandle) (ev : event wop) : Prop := match ev with Ev _ o _ => match o with RemoveWorktree h => h = wt | _ => False end end.
Definition raised (e : exn) (ev : event wop) : Prop := match ev with Ev _ _ r => match r with Err e' => e' = e | Ok _ => False end end.

(** The newest write; what was run, and whether a clean diff was seen, since then. *)
Fixpoint last_write (h : history) : option path :=
  match h with [] => None | ev :: h' => match write_of ev with Some p => Some p | None => last_write h' end end.
Fixpoint commands_since (h : history) : list CommandResult :=
  match h with
  | [] => []
  | ev :: h' => match write_of ev with
                | Some _ => []
                | None => match command_of ev with Some c => c :: commands_since h' | None => commands_since h' end
                end
  end.
Fixpoint clean_since (h : history) : bool :=
  match h with
  | [] => false
  | ev :: h' => match write_of ev with
                | Some _ => false
                | None => match diff_of ev with Some d => negb (banned_diff d) || clean_since h' | None => clean_since h' end
                end
  end.
Definition chats (h : history) : nat := length (List.filter is_chat h).
Definition creations (h : history) : nat := length (List.filter is_creation h).
Definition writes (h : history) : nat := length (omap write_of h).
Definition created (h : history) : list WorktreeHandle := omap created_by h.

(** Where files are written, directories made and commands run, and which worktrees are created, read and removed;
    [T] says which files of the worktree. *)
Definition in_worktree (T : path → Prop) (h : history) (p : path) : Prop := ∃ wt rel, wt ∈ created h ∧ T rel ∧ p = pjoin (wt_path wt) rel.
Definition isolated (T : path → Prop) (h : history) (R : Type) (o : wop R) : Prop :=
  match o with
  | WriteText p _ => in_worktree T h p
  | MakeDirs d => ∃ p, in_worktree T h p ∧ d = parent p
  | RunCmd cwd _ _ => ∃ wt, wt ∈ created h ∧ (cwd = wt_path wt ∨ cwd = parent (pjoin (wt_path wt) OFF_BY_ONE_TEST_REL))
  | WorktreeDiff wt => wt ∈ created h
  | CreateWorktree _ _ _ => creations h = 0%nat
  | RemoveWorktree wt => wt ∈ created h
  | _ => True
  end.

(** [quiet h h']: from [h] to [h'] nothing was written, run, asked or created. *)
Record quiet (h h' : history) : Prop := {
  qu_suffix : h `suffix_of` h';
  qu_write : last_write h' = last_write h;
  qu_commands : commands_since h' = commands_since h;
  qu_clean : clean_since h = true → clean_since h' = true;
  qu_chats : chats h' = chats h;
  qu_writes : writes h' = writes h;
  qu_creations : creations h' = creations h;
  qu_created : created h' = created h
}.
Lemma quiet_refl h : quiet h h.
Proof. by split. Qed.
Lemma quiet_trans h1 h2 h3 : quiet h1 h2 → quiet h2 h3 → quiet h1 h3.
Proof. intros [] []. split; try congruence; [by etrans|auto]. Qed.
Lemma quiet_ev h ev : write_of ev = None → command_of ev = None → is_chat ev = false → is_creation ev = false → created_by ev = None →
  quiet h (ev :: h).
Proof.
  intros Hw Hc Hch Hcr Hby. split; [by apply suffix_cons_r|..]; unfold chats, creations, writes, created; cbn; rewrite ?Hw, ?Hc, ?Hch, ?Hcr, ?Hby; try done.
  intros ->. destruct (diff_of ev); [by rewrite orb_true_r|done].
Qed.

(** [spec k j h p Q]: whatever the replies, [p] asks at most [k] times and writes at most [j] times, only
    into created worktrees; it ends with [Q] or raises what an operation raised. *)
Definition blamed (h : history) (e : exn) : Prop := ∃ ev, ev ∈ h ∧ raised e ev.
Record within (k j : nat) (h h' : history) : Prop := {
  wi_chats : (chats h' <= chats h + k)%nat;
  wi_writes : (writes h' <= writes h + j)%nat
}.
Section specs.
Context (T : path → Prop).
Definition spec {A} (k j : nat) (h : history) (p : W A) (Q : history → A → Prop) : Prop :=
  allowed (isolated T) h p (λ h' r, within k j h h' ∧ match r with Ok a => Q h' a | Err e => blamed h' e end).

Lemma within_trans k1 j1 k2 j2 h1 h2 h3 : within k1 j1 h1 h2 → within k2 j2 h2 h3 → within (k1 + k2) (j1 + j2) h1 h3.
Proof. intros [] []. split; lia. Qed.
Lemma within_quiet h h' : quiet h h' → within 0 0 h h'.
Proof. intros []. split; lia. Qed.
Lemma spec_mono {A} k j k' j' h (p : W A) (Q Q' : history → A → Prop) : (k <= k')%nat → (j <= j')%nat → (∀ h' a, Q h' a → Q' h' a) →
  spec k j h p Q → spec k' j' h p Q'.
Proof.
  intros Hk Hj HQ. apply allowed_mono. intros h' r [[] H]. split; [split; lia|]. destruct r; [by apply HQ|done].
Qed.
Lemma spec_bind {A B} k1 j1 k2 j2 h (p : W A) (f : A → W B) Q1 Q :
  spec k1 j1 h p Q1 → (∀ h' a, Q1 h' a → spec k2 j2 h' (f a) Q) → spec (k1 + k2) (j1 + j2) h (p ≫= f) Q.
Proof.
  intros Hp Hf. apply allowed_bind. eapply allowed_mono; [|exact Hp]. intros h1 [a|e] [Hw H]; cbv beta iota.
  - eapply allowed_mono; [|by apply Hf]. intros h2 r [Hw2 H2]. split; [by eapply within_trans|done].
  - split; [|done]. destruct Hw. split; lia.
Qed.
Lemma spec_ret {A} h (a : A) Q : Q h a → spec 0 0 h (mret a) Q.
Proof. intros HQ. split; [split; lia|done]. Qed.
Lemma spec_call {R} k j h (o : wop R) (Q : history → R → Prop) : isolated T h R o →
  (∀ r, within k j h (Ev R o r :: h)) → (∀ a, Q (Ev R o (Ok a) :: h) a) → spec k j h (call o) Q.
Proof.
  intros Hi Hw HQ. apply allowed_call; [done|]. intros [a|e]; (split; [by apply Hw|]); [by apply HQ|].
  exists (Ev R o (Err e)). split; [by left|done].
Qed.
(** Operations that write no file and run, ask and create nothing. *)
Definition calm {R} (o : wop R) : Prop :=
  match o with WriteText _ _ | CreateWorktree _ _ _ | RemoveWorktree _ | RunCmd _ _ _ | Chat _ _ _ => False | _ => True end.
(** Those that only look or note something down. *)
Definition passive {R} (o : wop R) : Prop := match o with MakeDirs _ | WorktreeDiff _ => False | _ => calm o end.
Lemma calm_quiet {R} h (o : wop R) r : calm o → quiet h (Ev R o r :: h).
Proof. destruct o; intros []; by apply quiet_ev. Qed.
Lemma spec_calm {R} h (o : wop R) : isolated T h R o → calm o → spec 0 0 h (call o) (λ h' a, h' = Ev R o (Ok a) :: h ∧ quiet h h').
Proof.
  intros Hi Ho. apply spec_call; [done|..].
  - intros r. by apply within_quiet, calm_quiet.
  - intros a. split; [done|]. by apply calm_quiet.
Qed.
Lemma spec_passive {R} h (o : wop R) : passive o → spec 0 0 h (call o) (λ h' a, h' = Ev R o (Ok a) :: h ∧ quiet h h').
Proof. intros Ho. by apply spec_calm; destruct o. Qed.
(** [p] is passive throughout. *)
Definition looks {A} (h : history) (p : W A) (R : A → Prop) : Prop := spec 0 0 h p (λ h' a, quiet h h' ∧ R a).
Lemma looks_call {R} h (o : wop R) : passive o → looks h (call o) (λ _, True).
Proof. intros Ho. eapply spec_mono; [done..| |by apply spec_passive]. by intros h' a [_ ?]. Qed.
Lemma looks_calm {R} h (o : wop R) : isolated T h R o → calm o → looks h (call o) (λ _, True).
Proof. intros Hi Ho. eapply spec_mono; [done..| |by apply spec_calm]. by intros h' a [_ ?]. Qed.
Lemma looks_ret {A} h (a : A) (R : A → Prop) : R a → looks h (mret a) R.
Proof. intros HR. apply spec_ret. split; [apply quiet_refl|done]. Qed.
Lemma looks_bind {A B} h (p : W A) (f : A → W B) (R1 : A → Prop) (R : B → Prop) :
  looks h p R1 → (∀ h' a, R1 a → looks h' (f a) R) → looks h (p ≫= f) R.
Proof.
  intros Hp Hf. eapply (spec_bind 0 0 0 0); [exact Hp|]. intros h1 a [Hq HR]. eapply spec_mono; [done..| |by apply Hf].
  intros h2 b [Hq2 ?]. split; [by eapply quiet_trans|done].
Qed.
Lemma spec_after {A B} k j h (p : W A) (f : A → W B) (R : A → Prop) Q :
  looks h p R → (∀ h' a, quiet h h' → R a → spec k j h' (f a) Q) → spec k j h (p ≫= f) Q.
Proof. intros Hp Hf. eapply (spec_bind 0 0 k j); [exact Hp|]. intros h1 a [? ?]. by apply Hf. Qed.

Lemma looks_result h w task family ok summary artifacts inference cost :
  looks h (result_of w task family ok summary artifacts inference cost)
    (λ r, wk_task_family r = family ∧ wk_ok r = ok ∧ wk_artifacts r = artifacts ∧ wk_inference r = inference ∧ wk_cost_usd r = cost).
Proof.
  unfold result_of. eapply looks_bind; [by apply looks_call|]. intros h1 t1 _. eapply looks_bind; [by apply looks_call|].
  intros h2 t2 _. by apply looks_ret.
Qed.

(** ** What the handlers do *)
(** From [h] to [h'] nothing was written or created. *)
Record steady (h h' : history) : Prop := {
  sd_suffix : h `suffix_of` h';
  sd_write : last_write h' = last_write h;
  sd_clean : clean_since h = true → clean_since h' = true;
  sd_creations : creations h' = creations h;
  sd_created : created h' = created h
}.
Lemma quiet_steady h h' : quiet h h' → steady h h'.
Proof. by intros []. Qed.
Lemma steady_refl h : steady h h.
Proof. by split. Qed.
Lemma steady_trans h1 h2 h3 : steady h1 h2 → steady h2 h3 → steady h1 h3.
Proof. intros [] []. split; try congruence; [by etrans|auto]. Qed.
Definition asked (h : history) (i : InferenceResult) : Prop := ∃ ev, ev ∈ h ∧ chat_of ev = Some i.
Lemma asked_suffix h h' i : h `suffix_of` h' → asked h i → asked h' i.
Proof. intros [l ->] (ev & Hev & Hi). exists ev. split; [|done]. apply elem_of_app. by right. Qed.
(** A result whose inference, if it has one, is the reply of a question. *)
Definition answered (h : history) (r : WorkerResult) : Prop := ∀ i, wk_inference r = Some i → asked h i.

Section handlers.
Context (float_json : float → json) (w : RepoWorker) (task : PlannedTask) (mission_id : string).

Lemma looks_existing repo mentioned h : looks h (existing repo mentioned) (λ found, ∀ x, x ∈ found → ∃ m, m ∈ mentioned ∧ x = path_str (path_of m)).
Proof.
  revert h. induction mentioned as [|m rest IH]; intros h; cbn [existing].
  - apply looks_ret. by intros x ?%elem_of_nil.
  - eapply looks_bind; [by apply looks_call|]. intros h1 there _. eapply looks_bind; [apply IH|]. intros h2 found Hf. apply looks_ret.
    intros x. destruct there; [intros [->|Hx]%elem_of_cons; [by exists m; split; [left|]|]|intros Hx];
      (destruct (Hf x Hx) as (m' & ? & ?); exists m'; split; [by right|done]).
Qed.
(** What an inspection may propose: the target of the task or files that the goal mentions. *)
Definition candidate (c : string) : Prop :=
  (∃ rel, _resolve_target_rel w task = Some rel ∧ c = path_str rel)
  ∨ _resolve_target_rel w task = None ∧ ∃ m, m ∈ findall path_mentions (goal_of task JNull) ∧ c = path_str (path_of m).
Definition proposes (r : WorkerResult) : Prop := ∀ rel, first_candidate r = Some rel → ∃ c, candidate c ∧ rel = path_of c.
Lemma looks_inspect h : looks h (_inspect w task mission_id) (λ r, wk_task_family r = "inspect" ∧ wk_inference r = None ∧ proposes r).
Proof.
  unfold _inspect. eapply (looks_bind _ _ _ (λ cf, ∀ x, x ∈ cf.1 → candidate x)).
  - destruct (_resolve_target_rel w task) as [rel|] eqn:Hrel.
    + eapply looks_bind; [by apply looks_call|]. intros h1 [] _; [|by apply looks_ret; intros x ?%elem_of_nil].
      eapply looks_bind; [by apply looks_call|]. intros h2 text _. apply looks_ret. intros x ->%list_elem_of_singleton. left. by exists rel.
    + eapply looks_bind; [apply looks_existing|]. intros h1 found Hf. apply looks_ret. intros x Hx. right. split; [done|]. by apply Hf.
  - intros h1 [candidates findings] Hc. eapply looks_bind; [by apply looks_call|]. intros h2 there _.
    eapply spec_mono; [done..| |apply looks_result]. intros h3 r (Hq & Hf & _ & Ha & Hi & _). split; [done|]. split_and!; [done..|].
    intros rel. unfold first_candidate. rewrite Hf, Ha. cbn.
    rewrite bool_decide_true, decide_True by done. cbn. rewrite dict_get_set_ne, dict_get_set_eq by done. cbn.
    destruct candidates as [|c l]; [done|]. cbn. intros [= <-]. exists c. split; [apply Hc; by left|done].
Qed.

Definition handed (shared : option WorktreeHandle) (h h' : history) (wt : WorktreeHandle) : Prop :=
  match shared with
  | Some s => s = wt ∧ created h' = created h ∧ creations h' = creations h
  | None => created h' = wt :: created h ∧ creations h' = S (creations h)
  end.
Lemma looks_failed h handle rel i : looks h (implement_failed w task handle rel i)
  (λ rw, wk_task_family rw.1 = "implement" ∧ wk_ok rw.1 = false ∧ wk_inference rw.1 = Some i ∧ rw.2 = handle).
Proof. unfold implement_failed. eapply looks_bind; [apply looks_result|]. intros h1 r (? & ? & ? & ? & ?). by apply looks_ret. Qed.

Record implemented (shared : option WorktreeHandle) (prior : dict WorkerResult) (h h' : history) (rw : WorkerResult * WorktreeHandle) : Prop := {
  im_family : wk_task_family rw.1 = "implement";
  im_handed : handed shared h h' rw.2;
  im_answered : answered h' rw.1;
  im_ok : wk_ok rw.1 = true → commands_since h' = [] ∧ ∃ rel, target_of w task prior = Some rel ∧ last_write h' = Some (pjoin (wt_path rw.2) rel)
}.
Lemma handed_quiet shared h h1 h2 wt : quiet h1 h2 → handed shared h h1 wt → handed shared h h2 wt.
Proof. intros []. unfold handed. by rewrite qu_created0, qu_creations0. Qed.
Lemma looks_applied_rest handle rel (original patched : string) inference h : handle ∈ created h →
  looks h (diff ← call (WorktreeDiff handle);
    result ← result_of w task "implement" (negb (bool_decide (strip diff = "")) || negb (bool_decide (patched = original))) "implement_applied"
      [("worktree", handle_dict handle); ("changed_files", JList [JStr (path_str rel)]); ("diff", JStr (last_n 12000 diff));
       ("used_model_fallback", JBool false); ("known_answer_forbidden", JBool true); ("parser_dogfood_fixture", JBool (rw_parser_dogfood_fixture w))]
      (Some inference) (ir_cost_usd inference);
    mret (result, handle))
    (λ rw, wk_task_family rw.1 = "implement" ∧ wk_inference rw.1 = Some inference ∧ rw.2 = handle).
Proof.
  intros Hin. eapply looks_bind; [by apply looks_calm|]. intros h1 diff _. eapply looks_bind; [apply looks_result|].
  intros h2 r (? & _ & _ & ? & _). by apply looks_ret.
Qed.
Lemma spec_applied handle rel original patched inference h : handle ∈ created h → T rel → asked h inference →
  spec 0 1 h (implement_applied w task handle rel original patched inference) (λ h' rw,
    wk_task_family rw.1 = "implement" ∧ rw.2 = handle ∧ created h' = created h ∧ creations h' = creations h ∧ answered h' rw.1
    ∧ commands_since h' = [] ∧ last_write h' = Some (pjoin (wt_path handle) rel)).
Proof.
  intros Hin HT Hask. unfold implement_applied.
  assert (in_worktree T h (pjoin (wt_path handle) rel)) as Hp by (by exists handle, rel).
  eapply spec_after; [by apply looks_calm; [exists (pjoin (wt_path handle) rel)|]|]. intros h1 [] [Hs1 _ _ _ _ _ Hcr1 Hc1] _.
  eapply (spec_bind 0 1 0 0 _ _ _ (λ h2 _, created h2 = created h ∧ creations h2 = creations h ∧ h1 `suffix_of` h2
    ∧ commands_since h2 = [] ∧ last_write h2 = Some (pjoin (wt_path handle) rel))).
  - apply spec_call; [exists handle, rel; split; [by rewrite Hc1|by split]|intros r; by split; unfold chats, writes; cbn; lia|]. intros []. split_and!; [done..| |done|done].
    by apply suffix_cons_r.
  - intros h2 [] (Hc & Hcr & Hs2 & Hcs & Hlw). eapply spec_mono; [done..| |apply looks_applied_rest; by rewrite Hc].
    intros h3 rw ([] & Hf & Hi & Hh). split_and!; [done|done|congruence..| |congruence|congruence].
    intros i. rewrite Hi. intros [= <-]. eapply asked_suffix; [|exact Hask]. by do 2 (etrans; [eassumption|]).
Qed.
Lemma spec_implement_in handle prior h : handle ∈ created h → (∀ rel, target_of w task prior = Some rel → T rel) →
  spec 1 1 h (implement_in w task handle prior) (λ h' rw,
    wk_task_family rw.1 = "implement" ∧ rw.2 = handle ∧ created h' = created h ∧ creations h' = creations h ∧ answered h' rw.1
    ∧ (wk_ok rw.1 = true → commands_since h' = []
         ∧ ∃ rel, target_of w task prior = Some rel ∧ last_write h' = Some (pjoin (wt_path handle) rel))).
Proof.
  intros Hin HT. unfold implement_in. destruct (target_of w task prior) as [rel|].
  - cbv zeta. eapply spec_after; [by apply looks_call|]. intros h1 there Hq1 _.
    eapply (spec_after _ _ _ _ _ (λ _, True)); [destruct there; [by apply looks_call|by apply looks_ret]|]. intros h2 original Hq2 _.
    pose proof (quiet_trans _ _ _ Hq1 Hq2) as Hq. clear Hq1 Hq2.
    eapply (spec_bind 1 0 0 1 _ _ _ (λ h3 i, created h3 = created h ∧ creations h3 = creations h ∧ asked h3 i)).
    { destruct Hq. apply spec_call; [done|intros r; split; unfold chats, writes in *; cbn; lia|]. intros i. split_and!; [done..|].
      eexists. split; [by left|done]. }
    intros h3 inference (Hc & Hcr & Hask).
    assert (∀ rel', spec 0 1 h3 (implement_failed w task handle rel' inference) (λ h' rw,
      wk_task_family rw.1 = "implement" ∧ rw.2 = handle ∧ created h' = created h ∧ creations h' = creations h ∧ answered h' rw.1
      ∧ (wk_ok rw.1 = true → commands_since h' = []
           ∧ ∃ rel0, Some rel = Some rel0 ∧ last_write h' = Some (pjoin (wt_path handle) rel0)))) as Hfail.
    { intros rel'. eapply (spec_mono 0 0); [lia|lia| |apply looks_failed]. intros h4 rw ([] & Hf & Ho & Hi & Hh).
      split_and!; [done|done|congruence..| |congruence]. intros i. rewrite Hi. intros [= <-]. by eapply asked_suffix. }
    destruct (if ir_ok inference then _ else None) as [patched|]; [|apply Hfail]. destruct (_ && _); [apply Hfail|].
    eapply spec_mono; [done..| |apply spec_applied; [by rewrite Hc|by apply HT|done]]. intros h4 rw (? & ? & ? & ? & ? & ? & ?).
    split_and!; [done|done|congruence..|done|]. intros _. split; [done|]. by exists rel.
  - unfold implement_without. eapply (spec_mono 0 0); [lia|lia| |eapply (looks_bind _ _ _ _ (λ rw, wk_task_family rw.1 = "implement"
      ∧ wk_ok rw.1 = false ∧ wk_inference rw.1 = None ∧ rw.2 = handle)); [apply looks_result|]].
    + intros h1 rw ([] & Hf & Ho & Hi & Hh). split_and!; [done..| |congruence]. intros i. by rewrite Hi.
    + intros h1 r (? & ? & _ & ? & _). by apply looks_ret.
Qed.
Lemma spec_implement shared prior h : (shared = None → creations h = 0%nat) → (∀ wt, shared = Some wt → wt ∈ created h) →
  (∀ rel, target_of w task prior = Some rel → T rel) → spec 1 1 h (_implement w task mission_id shared prior) (λ h' rw,
    wk_task_family rw.1 = "implement" ∧ handed shared h h' rw.2 ∧ answered h' rw.1
    ∧ (wk_ok rw.1 = true → commands_since h' = []
         ∧ ∃ rel, target_of w task prior = Some rel ∧ last_write h' = Some (pjoin (wt_path rw.2) rel))).
Proof.
  intros Hnone Hsome HT. unfold _implement. eapply (spec_bind 0 0 1 1 _ _ _ (λ h1 wt, handed shared h h1 wt ∧ wt ∈ created h1)).
  - destruct shared as [s|].
    + apply spec_ret. split; [done|]. by apply Hsome.
    + apply spec_call; [by apply Hnone|intros r; split; unfold chats, writes; cbn; lia|]. intros wt. split; [done|]. by left.
  - intros h1 wt [Hh Hin]. eapply spec_mono; [done..| |by apply spec_implement_in].
    intros h2 rw (Hf & -> & Hc & Hcr & Ha & Hok). split_and!; [done| |done|done]. unfold handed in *. by rewrite Hc, Hcr.
Qed.

(** Commands that were run: the replies, oldest first. *)
Definition ran (h h' : history) (cs : list CommandResult) : Prop := steady h h' ∧ commands_since h' = reverse cs ++ commands_since h.
Lemma ran_quiet h h' : quiet h h' → ran h h' [].
Proof. intros Hq. split; [by apply quiet_steady|]. apply Hq. Qed.
Lemma ran_trans h1 h2 h3 cs ds : ran h1 h2 cs → ran h2 h3 ds → ran h1 h3 (cs ++ ds).
Proof. intros [S1 C1] [S2 C2]. split; [by eapply steady_trans|]. by rewrite C2, C1, reverse_app, (assoc_L (++)). Qed.
Lemma spec_command h cwd cmd timeout : isolated T h _ (RunCmd cwd cmd timeout) → spec 0 0 h (c ← call (RunCmd cwd cmd timeout); mret [c]) (ran h).
Proof.
  intros Hi. eapply (spec_bind 0 0 0 0 _ _ _ (λ h' c, ran h h' [c])).
  - apply spec_call; [done|intros r; split; unfold chats, writes; cbn; lia|]. intros c. split; [|done]. split; try done. by apply suffix_cons_r.
  - intros h' c Hr. by apply spec_ret.
Qed.
Lemma spec_verify handle h : handle ∈ created h → (∀ rel, _resolve_test_rel w task = Some rel → rel = OFF_BY_ONE_TEST_REL) → spec 0 0 h (_verify w task handle) (λ h' r,
  wk_task_family r = "verify" ∧ wk_inference r = None ∧ ∃ cs, ran h h' cs ∧ (wk_ok r = true → cs ≠ [] ∧ Forall (λ c, command_ok c = true) cs)).
Proof.
  intros Hin Htest. unfold _verify. cbv zeta. eapply (spec_bind 0 0 0 0 _ _ _ (ran h)).
  - destruct (_resolve_test_rel w task) as [rel|]; [|apply spec_ret, ran_quiet, quiet_refl].
    eapply spec_after; [by apply looks_call|]. intros h1 [] Hq _; [|by apply spec_ret, ran_quiet].
    eapply spec_mono; [done..| |apply spec_command; exists handle; rewrite (qu_created _ _ Hq), (Htest rel eq_refl); split; [done|by right]]. intros h2 cs Hr. by apply (ran_trans h h1 h2 [] cs (ran_quiet _ _ Hq)).
  - intros h1 unit_run Hr1. eapply spec_after; [by apply looks_call|]. intros h2 tests Hq2 _.
    eapply (spec_after _ _ _ _ _ (λ _, True)); [destruct tests; [by apply looks_call|by apply looks_ret]|]. intros h3 project Hq3 _.
    pose proof (ran_trans _ _ _ _ _ Hr1 (ran_quiet _ _ (quiet_trans _ _ _ Hq2 Hq3))) as Hr3. rewrite app_nil_r in Hr3.
    eapply (spec_bind 0 0 0 0 _ _ _ (λ h4 mission_run, ran h h4 (unit_run ++ mission_run))).
    + destruct project; [|apply spec_ret; by rewrite app_nil_r]. 
      eapply spec_mono; [done..| |apply spec_command; exists handle; rewrite (sd_created _ _ (proj1 Hr3)); split; [done|by left]].
      intros h4 cs Hr. by eapply ran_trans.
    + intros h4 mission_run Hr4. destruct (_ && _ && _); (eapply spec_mono; [done..| |apply looks_result]);
        intros h5 r (Hq & Hf & Ho & _ & Hi & _); (split_and!; [done..|]); exists (unit_run ++ mission_run);
        pose proof (ran_trans _ _ _ _ _ Hr4 (ran_quiet _ _ Hq)) as Hr5; rewrite app_nil_r in Hr5; (split; [exact Hr5|]); rewrite Ho; [done|].
      intros [Hne Hall]%andb_true_iff. apply negb_true_iff, bool_decide_eq_false in Hne. split; [done|].
      apply Forall_forall. rewrite forallb_forall in Hall. intros c Hc. by apply Hall, list_elem_of_In.
Qed.

Lemma clean_diff h d handle : banned_diff d = false → clean_since (Ev _ (WorktreeDiff handle) (Ok d) :: h) = true.
Proof. intros Hd. cbn -[banned_diff]. by rewrite Hd. Qed.
Lemma spec_review handle prior h : handle ∈ created h → spec 1 0 h (_review float_json w task handle prior) (λ h' r,
  wk_task_family r = "review" ∧ answered h' r ∧ steady h h' ∧ commands_since h' = commands_since h
  ∧ (wk_ok r = true → passed_ok (of_family "verify" prior) = true ∧ passed_ok (of_family "implement" prior) = true ∧ clean_since h' = true)).
Proof.
  intros Hin. unfold _review. eapply (spec_bind 0 0 1 0); [by apply (spec_calm _ (WorktreeDiff handle))|]. intros h1 diff [-> Hq]. cbv zeta.
  set (rejected := _ || _). set (h1 := Ev _ _ _ :: h) in *.
  eapply (spec_bind 1 0 0 0 _ _ _ (λ h2 o, steady h1 h2 ∧ commands_since h2 = commands_since h1 ∧ ∀ i, o = Some i → asked h2 i)).
  - destruct rejected; [eapply (spec_mono 0 0); [lia|lia| |by apply (spec_ret _ None (λ h' o, h' = h1 ∧ o = None))];
      intros h2 o [-> ->]; split_and!; [apply steady_refl|done|done]|].
    eapply (spec_bind 1 0 0 0 _ _ _ (λ h2 i, steady h1 h2 ∧ commands_since h2 = commands_since h1 ∧ asked h2 i)).
    + apply spec_call; [done|intros r; split; unfold chats, writes; cbn; lia|]. intros i. split_and!; [|done|].
      * split; try done. by apply suffix_cons_r.
      * eexists. split; [by left|done].
    + intros h2 i (? & ? & ?). apply spec_ret. split_and!; [done..|]. by intros ? [= <-].
  - intros h2 o (Hs & Hc & Ha). eapply spec_mono; [done..| |apply looks_result]. intros h3 r (Hq3 & Hf & Ho & _ & Hi & _). split_and!.
    + done.
    + intros i. rewrite Hi. intros Hoi. eapply asked_suffix; [apply Hq3|by apply Ha].
    + eapply steady_trans; [by apply quiet_steady|]. eapply steady_trans; [done|by apply quiet_steady].
    + rewrite (qu_commands _ _ Hq3), Hc. apply Hq.
    + rewrite Ho. intros [Hr _]%andb_true_iff. unfold rejected in Hr. apply negb_true_iff, orb_false_iff in Hr as [[Hb Hv]%orb_false_iff Hi'].
      apply negb_false_iff in Hv, Hi'. split_and!; [done..|]. apply (qu_clean _ _ Hq3), (sd_clean _ _ Hs). by apply clean_diff.
Qed.
End handlers.
End specs.
