(* ===== verification/MissionRun.v ===== *)
(** * MissionRun: a mission from its goal to an accepted or failed result

    [MissionRuntime.run] of mission/runtime.py over the planner, the controller, the worker and
    the record of the mission, with the cost ledger of cost/ledger.py.  [run] is a program over
    the operations of [RepoWorker] with a local state ([Run]) that survives exceptions, as the
    [finally] clause reads it.  The mission broker is built by an operation; the evidence
    router's plan is the reply of one.  [float_json] and [total] are how a cost and the rounded
    sum of costs show; floats are summed by the interpreter and not modelled. *)
From S2P Require Import Prelude Collections Contracts PyFloat Profiles Authority Scheduler Json JsonText Models Regex Graph Controller ControllerProps.
From S2P Require Import Planner Checkpoint MissionStore Programs RepoWorker.
From Stdlib Require Import Ascii.
Open Scope Z_scope.

(** ** Costs *)
Record CostEntry := mkCost {
  ce_source : string;
  ce_route_id : string;
  ce_model : string;
  ce_requests : Z;
  ce_prompt_tokens : option Z;
  ce_completion_tokens : option Z;
  ce_cost_usd : float;
  ce_at : string
}.
Record CostLedger := mkLedger { cl_spend_policy : string; cl_allow_paid : bool; cl_entries : list CostEntry }.
Definition add_cost (entry : CostEntry) (l : CostLedger) : result CostLedger :=
  if fltb f_0 (ce_cost_usd entry) && negb (cl_allow_paid l) then Err (PermissionError "paid_cost_denied_under_zero_spend_policy")
  else Ok (mkLedger (cl_spend_policy l) (cl_allow_paid l) (cl_entries l ++ [entry])).

(** ** The record of a run *)
Record TaskRow := mkRow {
  tk_id : string;
  tk_family : string;
  tk_objective : string;
  tk_dependency_ids : list string;
  tk_status : TaskStatus;
  tk_ok : option bool;
  tk_assigned_model : string;
  tk_summary : option string
}.
Record RunRecord := mkRunRecord {
  rr_mission_id : string;
  rr_goal : string;
  rr_status : MissionStatus;
  rr_created_at : string;
  rr_updated_at : string;
  rr_revision : Z;
  rr_plan : json;
  rr_tasks : list TaskRow;
  rr_timeline : list json;
  rr_agents : list json;
  rr_artifacts : dict json;
  rr_validation : json;
  rr_retries : list json;
  rr_model_assignments : list json;
  rr_cost : json;
  rr_result : json
}.
#[export] Instance eta_RunRecord : Eta RunRecord := λ x,
  mkRunRecord (rr_mission_id x) (rr_goal x) (rr_status x) (rr_created_at x) (rr_updated_at x) (rr_revision x) (rr_plan x) (rr_tasks x)
    (rr_timeline x) (rr_agents x) (rr_artifacts x) (rr_validation x) (rr_retries x) (rr_model_assignments x) (rr_cost x) (rr_result x).
Definition row_dict (r : TaskRow) : json :=
  JObj ([("id", JStr (tk_id r)); ("task_family", JStr (tk_family r)); ("objective", JStr (tk_objective r));
         ("dependency_ids", JList (JStr <$> tk_dependency_ids r)); ("status", JStr (TaskStatus.value (tk_status r)));
         ("ok", match tk_ok r with Some b => JBool b | None => JNull end); ("assigned_model", JStr (tk_assigned_model r))]
        ++ match tk_summary r with Some s => [("summary", JStr s)] | None => [] end).
(** The [MissionRecord] it is. *)
Definition render (r : RunRecord) : MissionRecord :=
  mkMissionRecord (JStr (rr_mission_id r)) (JStr (rr_goal r)) (JStr (MissionStatus.value (rr_status r))) (JStr (rr_created_at r))
    (JStr (rr_updated_at r)) (JInt (rr_revision r)) JNull (JStr "mission_store") (JObj []) (rr_plan r) (JList (row_dict <$> rr_tasks r))
    (JList (rr_timeline r)) (JList (rr_agents r)) (JObj (rr_artifacts r)) (rr_validation r) (JList (rr_retries r))
    (JList (rr_model_assignments r)) (rr_cost r) (rr_result r).

(** ** Local state *)
Record Run := mkRun {
  rn_record : RunRecord;
  rn_prior : dict WorkerResult;
  rn_shared : option WorktreeHandle;
  rn_ledger : CostLedger;
  rn_ordered : option (list PlannedTask);
  rn_accepted : bool;
  rn_summary : string
}.
#[export] Instance eta_Run : Eta Run := λ x,
  mkRun (rn_record x) (rn_prior x) (rn_shared x) (rn_ledger x) (rn_ordered x) (rn_accepted x) (rn_summary x).
(** Programs with the local state: an exception leaves it as it was when it was raised. *)
Definition L (A : Type) : Type := Run → W (result A * Run).
#[export] Instance L_ret : MRet L := λ A a s, Done (Ok (Ok a, s)).
#[export] Instance L_bind : MBind L := λ A B f m s,
  pbind (m s) (λ rs : result A * Run, match rs.1 with Ok a => f a rs.2 | Err e => Done (Ok (Err e, rs.2)) end).
Definition lift {A} (p : W A) : L A := λ s, ptry (pbind p (λ a, Done (Ok (Ok a, s)))) (λ e, Done (Ok (Err e, s))).
Definition lraise {A} (e : exn) : L A := λ s, Done (Ok (Err e, s)).
Definition get_run : L Run := λ s, Done (Ok (Ok s, s)).
Definition update (f : Run → Run) : L () := λ s, Done (Ok (Ok tt, f s)).
Definition on_record (f : RunRecord → RunRecord) : L () := update (λ s, s <| rn_record ::= f |>).

Section runtime.
Context (hex : nat → string) (clock : nat → Z) (float_json : float → json) (total : list float → json).

Definition entry_dict (e : CostEntry) : json :=
  JObj [("source", JStr (ce_source e)); ("route_id", JStr (ce_route_id e)); ("model", JStr (ce_model e)); ("requests", JInt (ce_requests e));
        ("prompt_tokens", json_of_opt_int (ce_prompt_tokens e)); ("completion_tokens", json_of_opt_int (ce_completion_tokens e));
        ("cost_usd", float_json (ce_cost_usd e)); ("at", JStr (ce_at e))].
Definition ledger_dict (l : CostLedger) : dict json :=
  [("spend_policy", JStr (cl_spend_policy l)); ("allow_paid", JBool (cl_allow_paid l)); ("total_usd", total (ce_cost_usd <$> cl_entries l));
   ("entries", JList (entry_dict <$> cl_entries l))].

(** [store.append_timeline] and [store.save]. *)
Definition timeline (event : string) (detail : json) : L () :=
  now ← lift (call Now);
  on_record (λ r, r <| rr_timeline ::= λ l, l ++ [JObj [("at", JStr (isoformat now)); ("event", JStr event); ("detail", detail)]] |>).
Definition save : L () :=
  now ← lift (call Now);
  on_record (λ r, r <| rr_updated_at := isoformat now |>);;
  s ← get_run;
  lift (call (WriteRecord (render (rn_record s)))).

Record Runtime := mkRuntime {
  rt_repo : path;
  rt_model : string;
  rt_max_repair_rounds : Z;
  rt_use_evidence_router : bool;
  rt_parser_dogfood_fixture : bool
}.

(** ** The rounds *)
Definition settle_row (task_id : string) (result : WorkerResult) (row : TaskRow) : TaskRow :=
  if bool_decide (tk_id row = task_id) then
    mkRow (tk_id row) (tk_family row) (tk_objective row) (tk_dependency_ids row) (if wk_ok result then TaskStatus.ACCEPTED else TaskStatus.FAILED)
      (Some (wk_ok result)) (tk_assigned_model row) (Some (wk_summary result))
  else row.
Definition reset_row (row : TaskRow) : TaskRow :=
  if one_of (tk_family row) ["implement"; "verify"; "review"] then
    mkRow (tk_id row) (tk_family row) (tk_objective row) (tk_dependency_ids row) TaskStatus.READY None (tk_assigned_model row) (tk_summary row)
  else row.
Definition record_inference (task_id : string) (i : InferenceResult) : L () :=
  on_record (λ r, r <| rr_model_assignments ::= λ l, l ++ [JObj [("task_id", JStr task_id); ("route_id", JStr (ir_route_id i)); ("model", JStr (ir_model i))]] |>);;
  now ← lift (call Now);
  s ← get_run;
  match add_cost (mkCost task_id (ir_route_id i) (ir_model i) 1 (ir_prompt_tokens i) (ir_completion_tokens i) (ir_cost_usd i) (isoformat now)) (rn_ledger s) with
  | Ok ledger => update (λ s, s <| rn_ledger := ledger |>)
  | Err e => lraise e
  end.
(** What is noted of a result; whether it is ok. *)
Definition note_result (round_idx : Z) (task : PlannedTask) (result : WorkerResult) (shared : option WorktreeHandle) : L bool :=
  let id := ts_id (pt_spec task) in
  let family := ts_task_family (pt_spec task) in
  update (λ s, s <| rn_shared := shared |> <| rn_prior ::= λ d, dict_set d id result |>);;
  timeline "task_finished" (JObj [("task_id", JStr id); ("family", JStr family); ("ok", JBool (wk_ok result));
    ("summary", JStr (wk_summary result)); ("worker_id", JStr (wk_worker_id result))]);;
  on_record (λ r, r <| rr_agents ::= λ l, l ++ [JObj [("worker_id", JStr (wk_worker_id result)); ("task_id", JStr id); ("family", JStr family)]] |>);;
  (match wk_inference result with Some i => record_inference id i | None => mret () end);;
  on_record (λ r, r <| rr_tasks ::= fmap (settle_row id result) |>);;
  (if wk_ok result then mret ()
   else on_record (λ r, r <| rr_retries ::= λ l, l ++ [JObj [("round", JInt round_idx); ("task_id", JStr id); ("family", JStr family);
     ("reason", JStr (wk_summary result))]] |>));;
  mret (wk_ok result).
(** One task of a round. *)
Definition round_task (worker : RepoWorker) (mission_id : string) (round_idx : Z) (task : PlannedTask) : L bool :=
  s ← get_run;
  '(result, shared) ← lift (run_task float_json worker task mission_id (rn_prior s) (rn_shared s));
  note_result round_idx task result shared.
(** The loop over the tasks: whether all that ran were ok. *)
Fixpoint round_tasks (worker : RepoWorker) (mission_id : string) (round_idx : Z) (tasks : list PlannedTask) : L bool :=
  match tasks with
  | [] => mret true
  | task :: rest =>
    let family := ts_task_family (pt_spec task) in
    if (0 <? round_idx) && bool_decide (family = "inspect") then round_tasks worker mission_id round_idx rest
    else
      ok ← round_task worker mission_id round_idx task;
      if negb ok && one_of family ["verify"; "review"] then mret false
      else others ← round_tasks worker mission_id round_idx rest; mret (ok && others)
  end.
Fixpoint rounds (worker : RepoWorker) (mission_id : string) (ordered : list PlannedTask) (round_idx : Z) (n : nat) : L () :=
  match n with
  | O => mret ()
  | S n =>
    timeline "execution_round" (JObj [("round", JInt round_idx)]);;
    update (λ s, s <| rn_ordered := Some ordered |>);;
    round_ok ← round_tasks worker mission_id round_idx ordered;
    s ← get_run;
    if round_ok && passed_ok (of_family "review" (rn_prior s)) then
      update (λ s, s <| rn_accepted := true |> <| rn_summary := "mission_accepted" |>)
    else
      update (λ s, s <| rn_summary := "repair_required" |>);;
      timeline "repair_scheduled" (JObj [("round", JInt (round_idx + 1))]);;
      on_record (λ r, r <| rr_tasks ::= fmap reset_row |>);;
      rounds worker mission_id ordered (round_idx + 1) n
  end.

(** ** After the rounds *)
Definition changed_files (prior : dict WorkerResult) : json :=
  match of_family "implement" prior with
  | Some r => let changed := default JNull (dict_get (wk_artifacts r) "changed_files") in if py_truthy changed then changed else JList []
  | None => JList []
  end.
Definition review_json (ordered : list PlannedTask) (prior : dict WorkerResult) : json :=
  match List.find (λ t, bool_decide (ts_task_family (pt_spec t) = "review")) ordered ≫= λ t, dict_get prior (ts_id (pt_spec t)) with
  | Some r => worker_result_dict float_json r
  | None => JNull
  end.
Definition worktree_json (o : option WorktreeHandle) : json := match o with Some h => handle_dict h | None => JNull end.
(** What the record says at the end, before the reports are written. *)
Definition concluded (s : Run) (ordered : list PlannedTask) (r : RunRecord) : RunRecord :=
  let accepted := rn_accepted s in
  let changed := changed_files (rn_prior s) in
  r <| rr_validation := JObj [("accepted", JBool accepted); ("review", review_json ordered (rn_prior s))] |>
    <| rr_result := JObj [("accepted", JBool accepted); ("summary", JStr (rn_summary s)); ("changed_files", changed);
         ("worktree", worktree_json (rn_shared s))] |>
    <| rr_status := if accepted then MissionStatus.COMPLETED else MissionStatus.FAILED |>
    <| rr_cost := JObj (dict_set (ledger_dict (rn_ledger s)) "requests" (JInt (Z.of_nat (length (cl_entries (rn_ledger s)))))) |>
    <| rr_artifacts := [("worker_results", JObj ((λ kr : string * WorkerResult, (kr.1, worker_result_dict float_json kr.2)) <$> rn_prior s))]
         ++ match rn_shared s with
            | Some h => if accepted then [("pending_apply", JObj [("status", JStr "pending_explicit_apply"); ("changed_files", changed);
                ("worktree", handle_dict h);
                ("note", JStr ("accepted worktree changes are isolated; " +:+ "automatic primary-checkout promotion is disabled"))])] else []
            | None => []
            end |>.
Definition conclude (mission_id : string) : L RunRecord :=
  s ← get_run;
  match rn_ordered s with
  | None => lraise (Exn "UnboundLocalError" "ordered")
  | Some ordered =>
    on_record (concluded s ordered);;
    (if rn_accepted s && match rn_shared s with Some _ => true | None => false end then
       timeline "apply_pending" (JObj [("changed_files", changed_files (rn_prior s)); ("auto_promote", JBool false)])
     else mret ());;
    s1 ← get_run;
    paths ← lift (call (WriteReports (render (rn_record s1)) mission_id));
    on_record (λ r, r <| rr_artifacts ::= λ d, dict_set d "reports" (JObj paths) |>);;
    timeline "mission_finished" (JObj [("accepted", JBool (rn_accepted s))]);;
    save;;
    s2 ← get_run;
    mret (rn_record s2)
  end.

(** ** The run *)
(** [try: ... finally: if shared_wt is not None: remove it, whatever that raises]. *)
Definition with_cleanup (p : W (result RunRecord * Run)) : W RunRecord :=
  '(r, s) ← p;
  match rn_shared s with
  | Some h => ptry (call (RemoveWorktree h)) (λ _, mret ())
  | None => mret ()
  end;;
  Done r.
(** The task, with what the controller stores of it. *)
Definition stored_tasks (planned : list PlannedTask) (tasks : dict TaskSpec) : list PlannedTask :=
  omap (λ spec, (λ t, mkPlanned spec (pt_size_features t) (pt_inputs t) (pt_output_schema_id t) (pt_acceptance_check_ids t) (pt_role_hint t) (pt_attempt_limit t))
      <$> List.find (λ t, bool_decide (ts_id (pt_spec t) = ts_id spec)) planned)
    (sort_by (λ a b, ts_priority a <=? ts_priority b) (dict_values tasks)).
Definition first_record (now1 now2 revision : Z) (goal default_model : string) (mission : Mission) (inspection : RepoInspection) (proposal : GraphProposal)
    (tasks : list PlannedTask) (model_by_family : dict string) (route_plan : json) : RunRecord :=
  mkRunRecord (ms_id mission) goal MissionStatus.RUNNING (isoformat now1) (isoformat now2) revision
    (JObj [("proposal_id", JStr (gp_proposal_id proposal)); ("operation", JStr (GraphOperation.value (gp_operation proposal)));
           ("rationale", JStr "V0.1 structured software mission: inspect → implement → verify → review"); ("inspection", inspection_dict inspection);
           ("task_ids", JList ((λ t, JStr (ts_id (pt_spec t))) <$> tasks)); ("route_plan", route_plan)])
    ((λ t, mkRow (ts_id (pt_spec t)) (ts_task_family (pt_spec t)) (ts_objective (pt_spec t)) (ts_dependency_ids (pt_spec t)) TaskStatus.READY None
        (default default_model (dict_get model_by_family (ts_task_family (pt_spec t)))) None) <$> tasks)
    [] [] [] (JObj []) [] []
    (JObj [("spend_policy", JStr "zero"); ("allow_paid", JBool false); ("total_usd", float_json f_0); ("requests", JInt 0)]) (JObj []).

(** [a or b or ...] on optional strings, the last of them always there. *)
Definition first_truthy (options : list (option string)) (otherwise : string) : string :=
  default otherwise (first_some (λ o : option string, if truthy o then o else None) options).
Definition worker_for (rt : Runtime) (default_model : string) (model_by_family : dict string) (worker_id : string) : RepoWorker :=
  mkWorker (rt_repo rt) default_model model_by_family worker_id (rt_parser_dogfood_fixture rt).
(** From the first entry of the timeline on. *)
Definition body (rt : Runtime) (worker : RepoWorker) (mission_id : string) (revision : Z) (route_plan : json) (ordered : list PlannedTask) : L RunRecord :=
  timeline "mission_started" (JObj [("revision", JInt revision); ("model", JStr (rw_model worker)); ("route_plan", route_plan)]);;
  save;;
  lift (call MissionBroker);;
  rounds worker mission_id ordered 0 (Z.to_nat (rt_max_repair_rounds rt + 1));;
  conclude mission_id.
Definition run_mission (rt : Runtime) (goal : string) (c : Controller) : W RunRecord :=
  inspection ← call InspectRepo;
  n ← call Draw;
  let planned :=
    (mission ← build_software_mission hex clock goal "proj_local";
     '(proposal, tasks) ← plan_task_graph hex clock (mission <| ms_status := MissionStatus.PLANNING |>) inspection;
     mret (mission, proposal, tasks)) n in
  '(mission, proposal, tasks) ← Done planned.1;
  let '(committed, c) := start_mission mission proposal c in
  revision ← Done committed;
  '(model_by_family, route_plan) ← (if rt_use_evidence_router rt then call RoutePlan else mret ([], JNull));
  let default_model := first_truthy [dict_get model_by_family "implement"; dict_get model_by_family "inspect"] (rt_model rt) in
  now1 ← call Now;
  now2 ← call Now;
  let record := first_record now1 now2 revision goal default_model mission inspection proposal tasks model_by_family route_plan in
  let worker := worker_for rt default_model model_by_family ("wrk_" +:+ hex planned.2) in
  with_cleanup (body rt worker (ms_id mission) revision route_plan (stored_tasks tasks (task_map c (ms_id mission)))
    (mkRun record [] None (mkLedger "zero" false []) None false "incomplete")).

(** [apply_worktree_changes]: the files that were there. *)
Fixpoint apply_files (rt : Runtime) (handle : WorktreeHandle) (changed : list string) : W (list string) :=
  match changed with
  | [] => mret []
  | rel :: rest =>
    let src := pjoin (wt_path handle) (path_of rel) in
    there ← call (Exists src);
    (if there : bool then
       call (MakeDirs (parent (pjoin (rt_repo rt) (path_of rel))));;
       text ← call (ReadText src);
       call (WriteText (pjoin (rt_repo rt) (path_of rel)) text)
     else mret ());;
    applied ← apply_files rt handle rest;
    mret (if there : bool then rel :: applied else applied)
  end.
Definition apply_worktree_changes (rt : Runtime) (handle : WorktreeHandle) (changed : list string) (approved : bool) : W (list string) :=
  if negb approved then praise (PermissionError "explicit_apply_requires_approved_true") else apply_files rt handle changed.
End runtime.
