(* ===== verification/MissionRunProps.v ===== *)
(** * MissionRunProps: what a completed mission shows of its run

    [accepted_missions_were_verified]: when a run completes its mission, then after the last write
    into the worktree commands were run, all of them exited with zero, and the diff was found
    clean.  [files_are_written_in_the_worktree]: where a run writes files and runs commands.
    [mission_runs_end]: how often it writes and asks a model, what it tries to remove and what it raises.  All three hold whatever the
    operations reply.  The concrete runs at the end show what the code does not catch. *)
From S2P Require Import Prelude Collections Contracts PyFloat Profiles Authority Scheduler Json JsonText Models Regex Graph Controller ControllerProps.
From S2P Require Import Planner Checkpoint MissionStore Programs RepoWorker MissionRun.
From Stdlib Require Import Ascii.
Open Scope Z_scope.

(** ** Programs with the local state *)
Lemma allowed_suffix {Op A} P h (p : prog Op A) Q : allowed P h p Q → allowed P h p (λ h' r, h `suffix_of` h' ∧ Q h' r).
Proof.
  revert h. induction p as [r|R o k IH]; intros h; cbn; [by split|]. intros [Ho Hk]. split; [done|]. intros r.
  eapply allowed_mono; [|by apply IH]. intros h' r' [Hs HQ]. split; [|done]. etrans; [|exact Hs]. by apply suffix_cons_r.
Qed.

Section lspec.
Context (T : path → Prop).
Definition paid_refusal : exn := PermissionError "paid_cost_denied_under_zero_spend_policy".
Definition paid (h : history) (e : exn) : Prop := e = paid_refusal ∧ ∃ i, asked h i ∧ fltb f_0 (ir_cost_usd i) = true.
Definition owned (h : history) (s : Run) : Prop := ∀ wt, rn_shared s = Some wt → wt ∈ created h.
Definition lspec {A} (k j : nat) (h : history) (p : W (result A * Run)) (Q : history → A → Run → Prop) : Prop :=
  allowed (isolated T) h p (λ h' r, match r with
    | Ok (x, s') => within k j h h' ∧ h `suffix_of` h' ∧ owned h' s' ∧ match x with Ok a => Q h' a s' | Err e => blamed h' e ∨ paid h' e end
    | Err _ => False
    end).

Lemma owned_suffix h h' s : h `suffix_of` h' → owned h s → owned h' s.
Proof. intros [l ->] Ho wt Hw. unfold created. rewrite omap_app. apply elem_of_app. right. by apply Ho. Qed.
Lemma within_refl h : within 0 0 h h.
Proof. split; lia. Qed.
Lemma lspec_mono {A} k j k' j' h (p : W (result A * Run)) (Q Q' : history → A → Run → Prop) : (k <= k')%nat → (j <= j')%nat →
  (∀ h' a s, h `suffix_of` h' → owned h' s → Q h' a s → Q' h' a s) → lspec k j h p Q → lspec k' j' h p Q'.
Proof.
  intros Hk Hj HQ. apply allowed_mono. intros h' [[x s']|e]; [|done]. intros ([] & Hs & Ho & Hx). split_and!; [split; lia|done..|].
  destruct x; [by apply HQ|done].
Qed.
Lemma lspec_bind {A B} k1 j1 k2 j2 h (m : L A) (f : A → L B) s Q1 Q :
  lspec k1 j1 h (m s) Q1 → (∀ h' a s', owned h' s' → Q1 h' a s' → lspec k2 j2 h' (f a s') Q) → lspec (k1 + k2) (j1 + j2) h ((m ≫= f) s) Q.
Proof.
  intros Hm Hf. unfold mbind, L_bind, lspec. apply allowed_bind. eapply allowed_mono; [|exact Hm]. intros h1 [[x s1]|e]; [|done].
  intros (Hw & Hs & Ho & Hx). cbv beta iota. cbn [fst snd]. destruct x as [a|e].
  - eapply allowed_mono; [|by apply Hf]. intros h2 [[y s2]|e]; [|done]. intros (Hw2 & Hs2 & Ho2 & Hy).
    split_and!; [by eapply within_trans|by etrans|done..].
  - apply allowed_done. cbv beta iota. split_and!; [|done..]. destruct Hw. split; lia.
Qed.
Lemma lspec_ret {A} h (a : A) s (Q : history → A → Run → Prop) : owned h s → Q h a s → lspec 0 0 h (mret (M := L) a s) Q.
Proof. intros. unfold lspec. apply allowed_done. split_and!; [apply within_refl|done..]. Qed.
Lemma lspec_update h f s (Q : history → () → Run → Prop) : owned h (f s) → Q h tt (f s) → lspec 0 0 h (update f s) Q.
Proof. intros. unfold lspec. apply allowed_done. split_and!; [apply within_refl|done..]. Qed.
Lemma lspec_get h s (Q : history → Run → Run → Prop) : owned h s → Q h s s → lspec 0 0 h (get_run s) Q.
Proof. intros. unfold lspec. apply allowed_done. split_and!; [apply within_refl|done..]. Qed.
Lemma lspec_lift {A} k j h (p : W A) s Q : owned h s → spec T k j h p Q → lspec k j h (lift p s) (λ h' a s', s' = s ∧ Q h' a).
Proof.
  intros Ho Hp. unfold lspec, lift. apply allowed_try, allowed_bind. eapply allowed_mono; [|by apply allowed_suffix].
  intros h' [a|e] (Hs & Hw & H); cbv beta iota; apply allowed_done; (split; [done|split; [done|split; [by eapply owned_suffix|]]]); [done|by left].
Qed.
(** The rest of a program after a step that only reads or notes down. *)
Lemma lspec_step {A B} k j h (m : L A) (f : A → L B) s Q1 Q :
  lspec 0 0 h (m s) Q1 → (∀ h' a s', owned h' s' → Q1 h' a s' → lspec k j h' (f a s') Q) → lspec k j h ((m ≫= f) s) Q.
Proof. apply (lspec_bind 0 0 k j). Qed.

(** [s'] is [s] but for its record. *)
Record same (s s' : Run) : Prop := {
  sm_prior : rn_prior s' = rn_prior s;
  sm_shared : rn_shared s' = rn_shared s;
  sm_ordered : rn_ordered s' = rn_ordered s;
  sm_accepted : rn_accepted s' = rn_accepted s;
  sm_status : rr_status (rn_record s') = rr_status (rn_record s)
}.
Lemma same_refl s : same s s.
Proof. by split. Qed.
Lemma same_trans a b c : same a b → same b c → same a c.
Proof. intros [] []. split; congruence. Qed.
Lemma same_owned h s s' : same s s' → owned h s → owned h s'.
Proof. intros [] H wt. rewrite sm_shared0. apply H. Qed.
Definition notes {A} (h : history) (s : Run) (p : W (result A * Run)) : Prop := lspec 0 0 h p (λ h' _ s', quiet h h' ∧ same s s').
Lemma notes_record h f s : owned h s → (∀ r, rr_status (f r) = rr_status r) → notes h s (on_record f s).
Proof. intros Ho Hf. apply lspec_update; [done|]. split; [apply quiet_refl|]. split; try done. apply Hf. Qed.
Lemma notes_lift {R} h (o : wop R) s : owned h s → passive o → notes h s (lift (call o) s).
Proof.
  intros Ho Hp. eapply lspec_mono; [done..| |apply lspec_lift; [done|by apply spec_passive]].
  intros h' a s' _ _ (-> & _ & Hq). split; [done|apply same_refl].
Qed.
Lemma notes_bind {A B} h s (m : L A) (f : A → L B) : notes h s (m s) → (∀ h' a s', owned h' s' → notes h' s' (f a s')) → notes h s ((m ≫= f) s).
Proof.
  intros Hm Hf. eapply lspec_step; [exact Hm|]. intros h1 a s1 Ho [Hq Hs]. eapply lspec_mono; [done..| |by apply Hf].
  intros h2 b s2 _ _ [Hq2 Hs2]. split; [by eapply quiet_trans|by eapply same_trans].
Qed.
Lemma notes_get h s : owned h s → notes h s (get_run s).
Proof. intros Ho. apply lspec_get; [done|]. split; [apply quiet_refl|apply same_refl]. Qed.
Lemma notes_ret {A} h s (a : A) : owned h s → notes h s (mret (M := L) a s).
Proof. intros Ho. apply lspec_ret; [done|]. split; [apply quiet_refl|apply same_refl]. Qed.
Lemma notes_timeline h s event detail : owned h s → notes h s (timeline event detail s).
Proof. intros Ho. apply notes_bind; [by apply notes_lift|]. intros h1 now s1 Ho1. by apply notes_record. Qed.
Lemma notes_save h s : owned h s → notes h s (save s).
Proof.
  intros Ho. unfold save. apply notes_bind; [by apply notes_lift|]. intros h1 now s1 Ho1. apply notes_bind; [by apply notes_record|].
  intros h2 [] s2 Ho2. apply notes_bind; [by apply notes_get|]. intros h3 s3' s3 Ho3. by apply notes_lift.
Qed.

Lemma notes_inference h s id i : owned h s → asked h i → notes h s (record_inference id i s).
Proof.
  intros Ho Ha. unfold record_inference. unfold notes. eapply lspec_step; [by apply notes_record|]. intros h1 [] s1 Ho1 [Hq1 Hs1].
  eapply lspec_step; [by apply notes_lift|]. intros h2 now s2 Ho2 [Hq2 Hs2]. eapply lspec_step; [by apply notes_get|].
  intros h3 s3' s3 Ho3 [Hq3 Hs3]. pose proof (quiet_trans _ _ _ Hq1 (quiet_trans _ _ _ Hq2 Hq3)) as Hq.
  pose proof (same_trans _ _ _ Hs1 (same_trans _ _ _ Hs2 Hs3)) as Hs.
  unfold add_cost. cbn [ce_cost_usd]. destruct (fltb f_0 (ir_cost_usd i) && _) eqn:Hpaid.
  - unfold lspec, lraise. apply allowed_done. split_and!; [apply within_refl|done|done|]. right. split; [done|]. exists i.
    split; [by eapply asked_suffix; [apply Hq|]|]. by apply andb_true_iff in Hpaid as [? _].
  - apply lspec_update; [exact Ho3|]. split; [done|]. destruct Hs. by split.
Qed.
Lemma notes_when h s (b : bool) (p q : L ()) : (b = true → notes h s (p s)) → (b = false → notes h s (q s)) → notes h s ((if b then p else q) s).
Proof. destruct b; auto. Qed.

Definition after_result (task : PlannedTask) (result : WorkerResult) (shared : option WorktreeHandle) (s : Run) : Run :=
  s <| rn_shared := shared |> <| rn_prior ::= λ d, dict_set d (ts_id (pt_spec task)) result |>.
Lemma lspec_note i task result shared h s : answered h result → (∀ wt, shared = Some wt → wt ∈ created h) →
  lspec 0 0 h (note_result i task result shared s) (λ h' ok s', quiet h h' ∧ ok = wk_ok result ∧ same (after_result task result shared s) s').
Proof.
  intros Ha Hsh. unfold note_result. cbv zeta. eapply (lspec_step _ _ _ _ _ _ (λ h1 _ s1, h1 = h ∧ s1 = after_result task result shared s));
    [by apply lspec_update|]. intros h0 [] s0 Ho0 [-> ->].
  set (s0 := after_result task result shared s) in *.
  eapply lspec_step; [by apply notes_timeline|]. intros h1 [] s1 Ho1 [Hq1 Hs1].
  eapply lspec_step; [by apply notes_record|]. intros h2 [] s2 Ho2 [Hq2 Hs2].
  pose proof (quiet_trans _ _ _ Hq1 Hq2) as Hq. pose proof (same_trans _ _ _ Hs1 Hs2) as Hs. clear Hq1 Hq2 Hs1 Hs2.
  eapply (lspec_step _ _ _ _ _ _ (λ h' _ s', quiet h2 h' ∧ same s2 s')).
  { destruct (wk_inference result) as [inf|] eqn:Hinf; [|by apply notes_ret]. apply notes_inference; [done|].
    eapply asked_suffix; [apply Hq|by apply Ha]. }
  intros h3 [] s3 Ho3 [Hq3 Hs3]. eapply lspec_step; [by apply notes_record|]. intros h4 [] s4 Ho4 [Hq4 Hs4].
  eapply (lspec_step _ _ _ _ _ _ (λ h' _ s', quiet h4 h' ∧ same s4 s')).
  { apply notes_when; intros _; [by apply notes_ret|by apply notes_record]. }
  intros h5 [] s5 Ho5 [Hq5 Hs5]. apply lspec_ret; [done|]. split_and!; [|done|].
  - do 3 (eapply quiet_trans; [eassumption|]). done.
  - do 3 (eapply same_trans; [eassumption|]). done.
Qed.
End lspec.

(** ** One task *)
Section tasks.
Context (float_json : float → json) (T : path → Prop) (w : RepoWorker) (mission_id : string) (inspect implement : PlannedTask).
Hypothesis inspect_T : ∀ c, candidate w inspect c → T (path_of c).
Hypothesis implement_T : ∀ rel, _resolve_target_rel w implement = Some rel → T rel.

Record inv (h : history) (s : Run) : Prop := {
  iv_shared : rn_shared s = None → creations h = 0%nat;
  iv_proposes : ∀ r, r ∈ dict_values (rn_prior s) → proposes w inspect r
}.
Record kept (s s' : Run) : Prop := {
  kp_ordered : rn_ordered s' = rn_ordered s;
  kp_accepted : rn_accepted s' = rn_accepted s;
  kp_status : rr_status (rn_record s') = rr_status (rn_record s)
}.
Lemma kept_refl s : kept s s.
Proof. by split. Qed.
Lemma kept_trans a b c : kept a b → kept b c → kept a c.
Proof. intros [] []. split; congruence. Qed.
Lemma same_kept s s' : same s s' → kept s s'.
Proof. by intros []. Qed.

Lemma target_T h s rel : inv h s → target_of w implement (rn_prior s) = Some rel → T rel.
Proof.
  intros [_ Hp]. unfold target_of. destruct (_resolve_target_rel w implement) as [p|] eqn:Hres; [intros [= <-]; by apply implement_T|].
  assert (∀ l, (∀ r, r ∈ l → proposes w inspect r) → first_some first_candidate l = Some rel → T rel) as H; [|by apply H].
  induction l as [|r l IH]; [done|]. intros Hl. cbn. destruct (first_candidate r) as [p|] eqn:Hf; [|apply IH; intros r' ?; apply Hl; by right].
  intros [= ->]. destruct (Hl r ltac:(by left) _ Hf) as (c & Hc & ->). by apply inspect_T.
Qed.
Lemma not_inspect r : wk_task_family r ≠ "inspect" → proposes w inspect r.
Proof. intros Hf rel. unfold first_candidate. by rewrite bool_decide_false. Qed.
Lemma inv_result h h' s s' task result shared : inv h s → (shared = None → creations h' = 0%nat) → proposes w inspect result →
  same (after_result task result shared s) s' → inv h' s'.
Proof.
  intros [_ Hp] Hsh Hr [Hpr Hs _ _]. split; [by rewrite Hs|]. rewrite Hpr. cbn. intros r (k & Hk)%dict_values_elem.
  apply dict_elem_set in Hk as [[_ ->]|Hk]; [done|]. apply Hp, dict_values_elem. by exists k.
Qed.

(** A round's task: what the worker does, then what is noted. *)
Lemma lspec_round_task k j i task h s (Q : history → WorkerResult → option WorktreeHandle → Prop) (Q' : history → bool → Run → Prop) :
  owned h s → spec T k j h (run_task float_json w task mission_id (rn_prior s) (rn_shared s))
    (λ h' rs, answered h' rs.1 ∧ (∀ wt, rs.2 = Some wt → wt ∈ created h') ∧ Q h' rs.1 rs.2) →
  (∀ h1 h2 result shared s', Q h1 result shared → quiet h1 h2 → same (after_result task result shared s) s' → Q' h2 (wk_ok result) s') →
  lspec T k j h (round_task float_json w mission_id i task s) Q'.
Proof.
  intros Ho Hrun HQ. unfold round_task. eapply lspec_step; [by apply (lspec_get T h s (λ h' a s', h' = h ∧ a = s ∧ s' = s))|].
  intros h0 ? s0 _ (-> & -> & ->). replace k with (k + 0)%nat by lia. replace j with (j + 0)%nat by lia.
  eapply lspec_bind; [by apply lspec_lift; [|exact Hrun]|]. intros h1 [result shared] s1 Ho1 [-> (Ha & Hsh & Hq)].
  eapply lspec_mono; [done..| |by apply lspec_note]. intros h2 ok s2 _ _ (Hqu & -> & Hs). by eapply HQ.
Qed.

#[local] Ltac this_family H :=
  unfold run_task; rewrite H; cbv zeta;
  match goal with |- context [sd_supported (classify_task_support ?f)] =>
    replace (sd_supported (classify_task_support f)) with true by (vm_compute; reflexivity) end;
  cbn [negb]; repeat first [rewrite bool_decide_true by done | rewrite bool_decide_false by done]; cbv iota.

Lemma lspec_inspect i h s : ts_task_family (pt_spec inspect) = "inspect" → owned h s → inv h s →
  lspec T 0 0 h (round_task float_json w mission_id i inspect s) (λ h' ok s', quiet h h' ∧ inv h' s' ∧ kept s s').
Proof.
  intros Hfam Ho Hi. eapply (lspec_round_task _ _ _ _ _ _ (λ h' r shared, quiet h h' ∧ shared = rn_shared s ∧ proposes w inspect r)); [done| |].
  - this_family Hfam. eapply (spec_bind T 0 0 0 0); [apply looks_inspect|]. intros h1 r (Hq & _ & Hinf & Hp). apply spec_ret. cbn. split_and!; try done.
    + intros inf. by rewrite Hinf.
    + intros wt Hwt. rewrite (qu_created _ _ Hq). by apply Ho.
  - intros h1 h2 result shared s' (Hq1 & -> & Hp) Hq2 Hs. pose proof (quiet_trans _ _ _ Hq1 Hq2) as Hq. split_and!; [done| |].
    + eapply (inv_result h h2 s s' _ result (rn_shared s) Hi); [|exact Hp|exact Hs]. rewrite (qu_creations _ _ Hq). apply Hi.
    + apply same_kept in Hs. by destruct Hs.
Qed.
Definition wrote (h : history) (wt : WorktreeHandle) : Prop :=
  commands_since h = [] ∧ ∃ rel, T rel ∧ last_write h = Some (pjoin (wt_path wt) rel).
Lemma lspec_implement i h s : ts_task_family (pt_spec implement) = "implement" → owned h s → inv h s →
  lspec T 1 1 h (round_task float_json w mission_id i implement s) (λ h' ok s', inv h' s' ∧ kept s s' ∧ ∃ wt, rn_shared s' = Some wt ∧ (ok = true → wrote h' wt)).
Proof.
  intros Hfam Ho Hi. eapply (lspec_round_task _ _ _ _ _ _ (λ h' r shared, wk_task_family r = "implement" ∧ ∃ wt, shared = Some wt ∧ (wk_ok r = true → wrote h' wt)));
    [done| |].
  - this_family Hfam. eapply (spec_bind T 1 1 0 0); [apply spec_implement; [apply Hi|apply Ho|intros rel; by apply (target_T h)]|].
    intros h1 [r wt] (Hf & Hh & Ha & Hok). apply spec_ret. cbn in *. split_and!; [done| | |].
    + intros ? [= <-]. unfold handed in Hh. destruct (rn_shared s) as [s0|] eqn:Hsh.
      * destruct Hh as (-> & -> & _). by apply Ho.
      * destruct Hh as [-> _]. by left.
    + done.
    + exists wt. split; [done|]. intros Hr. destruct (Hok Hr) as (Hc & rel & Ht & Hl). split; [done|]. exists rel. split; [by eapply target_T|done].
  - intros h1 h2 result shared s' (Hf & wt & -> & Hok) Hq Hs. split_and!.
    + eapply (inv_result h h2 s s' _ result (Some wt) Hi); [done|by apply not_inspect; rewrite Hf|exact Hs].
    + apply same_kept in Hs. by destruct Hs.
    + exists wt. split; [by rewrite (sm_shared _ _ Hs)|]. intros Hr. destruct (Hok Hr) as (Hc & rel & HT & Hl).
      split; [by rewrite (qu_commands _ _ Hq)|]. exists rel. by rewrite (qu_write _ _ Hq).
Qed.
Lemma lspec_verify verify wt i h s : ts_task_family (pt_spec verify) = "verify" →
  (∀ rel, _resolve_test_rel w verify = Some rel → rel = OFF_BY_ONE_TEST_REL) → owned h s → inv h s → rn_shared s = Some wt →
  lspec T 0 0 h (round_task float_json w mission_id i verify s) (λ h' ok s', inv h' s' ∧ kept s s' ∧ rn_shared s' = Some wt
    ∧ ∃ cs, ran h h' cs ∧ (ok = true → cs ≠ [] ∧ Forall (λ c, command_ok c = true) cs)).
Proof.
  intros Hfam Htest Ho Hi Hwt. eapply (lspec_round_task _ _ _ _ _ _ (λ h' r shared, wk_task_family r = "verify" ∧ shared = Some wt
    ∧ ∃ cs, ran h h' cs ∧ (wk_ok r = true → cs ≠ [] ∧ Forall (λ c, command_ok c = true) cs))); [done| |].
  - this_family Hfam. rewrite Hwt. cbn [prequire]. eapply (spec_bind T 0 0 0 0 _ _ _ (λ h' a, h' = h ∧ a = wt)); [by apply spec_ret|].
    intros h0 ? [-> ->]. eapply (spec_bind T 0 0 0 0); [by apply spec_verify; [apply Ho|]|]. intros h1 r (Hf & Hinf & cs & Hran & Hok). apply spec_ret. cbn.
    split_and!; [by intros inf; rewrite Hinf| |done|done|by exists cs]. intros ? [= <-]. rewrite (sd_created _ _ (proj1 Hran)). by apply Ho.
  - intros h1 h2 result shared s' (Hf & -> & cs & Hran & Hok) Hq Hs. split_and!.
    + eapply (inv_result h h2 s s' _ result (Some wt) Hi); [done|by apply not_inspect; rewrite Hf|exact Hs].
    + apply same_kept in Hs. by destruct Hs.
    + by rewrite (sm_shared _ _ Hs).
    + exists cs. split; [|done]. pose proof (ran_trans _ _ _ _ _ Hran (ran_quiet _ _ Hq)) as H. by rewrite app_nil_r in H.
Qed.
Lemma lspec_review review wt i h s : ts_task_family (pt_spec review) = "review" → owned h s → inv h s → rn_shared s = Some wt →
  lspec T 1 0 h (round_task float_json w mission_id i review s) (λ h' ok s', inv h' s' ∧ kept s s' ∧ rn_shared s' = Some wt
    ∧ steady h h' ∧ commands_since h' = commands_since h ∧ (ok = true → clean_since h' = true)).
Proof.
  intros Hfam Ho Hi Hwt. eapply (lspec_round_task _ _ _ _ _ _ (λ h' r shared, wk_task_family r = "review" ∧ shared = Some wt
    ∧ steady h h' ∧ commands_since h' = commands_since h ∧ (wk_ok r = true → clean_since h' = true))); [done| |].
  - this_family Hfam. rewrite Hwt. cbn [prequire]. eapply (spec_bind T 0 0 1 0 _ _ _ (λ h' a, h' = h ∧ a = wt)); [by apply spec_ret|].
    intros h0 ? [-> ->]. eapply (spec_bind T 1 0 0 0); [by apply spec_review, Ho|]. intros h1 r (Hf & Ha & Hst & Hc & Hok). apply spec_ret. cbn.
    split_and!; try done; [|intros Hr; by apply Hok]. intros ? [= <-]. rewrite (sd_created _ _ Hst). by apply Ho.
  - intros h1 h2 result shared s' (Hf & -> & Hst & Hc & Hok) Hq Hs. split_and!.
    + eapply (inv_result h h2 s s' _ result (Some wt) Hi); [done|by apply not_inspect; rewrite Hf|exact Hs].
    + apply same_kept in Hs. by destruct Hs.
    + by rewrite (sm_shared _ _ Hs).
    + eapply steady_trans; [done|by apply quiet_steady].
    + by rewrite (qu_commands _ _ Hq).
    + intros Hr. by apply (qu_clean _ _ Hq), Hok.
Qed.
End tasks.

(** ** The rounds *)
Section rounds.
Context (float_json : float → json) (T : path → Prop) (w : RepoWorker) (mission_id : string) (inspect implement verify review : PlannedTask).
Hypothesis inspect_T : ∀ c, candidate w inspect c → T (path_of c).
Hypothesis implement_T : ∀ rel, _resolve_target_rel w implement = Some rel → T rel.
Hypothesis verify_test : ∀ rel, _resolve_test_rel w verify = Some rel → rel = OFF_BY_ONE_TEST_REL.
Hypothesis families : (ts_task_family ∘ pt_spec) <$> [inspect; implement; verify; review] = ["inspect"; "implement"; "verify"; "review"].

(** What an accepted round shows: commands were run after the last write, none failed, and the diff was clean. *)
Definition verified_since (h : history) : Prop :=
  commands_since h ≠ [] ∧ Forall (λ c, command_ok c = true) (commands_since h) ∧ clean_since h = true.
Definition evidence (h : history) (s : Run) : Prop :=
  verified_since h ∧ ∃ wt rel, rn_shared s = Some wt ∧ T rel ∧ last_write h = Some (pjoin (wt_path wt) rel).
Lemma verified_quiet h h' : quiet h h' → verified_since h → verified_since h'.
Proof. intros Hq (? & ? & ?). unfold verified_since. rewrite (qu_commands _ _ Hq). split_and!; [done..|by apply (qu_clean _ _ Hq)]. Qed.
Lemma evidence_quiet h h' s s' : quiet h h' → rn_shared s' = rn_shared s → evidence h s → evidence h' s'.
Proof. intros Hq Hs (Hv & wt & rel & ? & ? & ?). split; [by eapply verified_quiet|]. exists wt, rel. by rewrite Hs, (qu_write _ _ Hq). Qed.
Abbreviation inv := (inv w inspect).

Lemma lspec_work i h s : owned h s → inv h s →
  lspec T 2 1 h (round_tasks float_json w mission_id i [implement; verify; review] s)
    (λ h' ok s', inv h' s' ∧ kept s s' ∧ (ok = true → evidence h' s')).
Proof.
  injection families as F1 F2 F3 F4. intros Ho Hi. cbn [round_tasks]. unfold compose in F2, F3, F4. rewrite F2, F3, F4.
  rewrite !(bool_decide_false (_ = "inspect")) by done. rewrite !andb_false_r.
  eapply (lspec_bind T 1 1 1 0); [by apply (lspec_implement float_json T w mission_id inspect)|]. intros h1 ok1 s1 Ho1 (Hi1 & Hk1 & wt & Hwt & Hok1).
  assert (one_of "implement" ["verify"; "review"] = false) as -> by (vm_compute; reflexivity). rewrite andb_false_r.
  eapply (lspec_bind T 1 0 0 0 _ _ _ _ (λ h' ok s', inv h' s' ∧ kept s s' ∧ (ok = true → ok1 = true → evidence h' s'))).
  2: { intros h2 ok s2 Ho2 (Hi2 & Hk2 & He). apply lspec_ret; [done|]. split_and!; [done..|]. intros [H1 H2]%andb_true_iff. by apply He. }
  eapply (lspec_bind T 0 0 1 0); [by apply (lspec_verify float_json T w mission_id inspect verify wt)|].
  intros h2 ok2 s2 Ho2 (Hi2 & Hk2 & Hwt2 & cs & [Hst Hcs] & Hok2). pose proof (kept_trans _ _ _ Hk1 Hk2) as Hk.
  assert (one_of "verify" ["verify"; "review"] = true) as -> by (vm_compute; reflexivity). rewrite andb_true_r.
  destruct ok2; cbn [negb].
  2: { eapply (lspec_mono T 0 0); [lia|lia| |by apply (lspec_ret T h2 false s2 (λ h' a s', h' = h2 ∧ a = false ∧ s' = s2))].
       intros h' a s' _ _ (-> & -> & ->). by split_and!. }
  destruct (Hok2 eq_refl) as [Hne Hall].
  eapply (lspec_bind T 1 0 0 0 _ _ _ _ (λ h' ok s', inv h' s' ∧ kept s s' ∧ (ok = true → ok1 = true → evidence h' s'))).
  2: { intros h3 ok3 s3 Ho3 (Hi3 & Hk3 & He). apply lspec_ret; [done|]. split_and!; [done..|]. intros H. by apply He. }
  eapply (lspec_bind T 1 0 0 0); [by apply (lspec_review float_json T w mission_id inspect review wt)|].
  intros h3 ok3 s3 Ho3 (Hi3 & Hk3 & Hwt3 & Hst3 & Hcs3 & Hok3). pose proof (kept_trans _ _ _ Hk Hk3) as Hk'.
  assert (one_of "review" ["verify"; "review"] = true) as -> by (vm_compute; reflexivity). rewrite andb_true_r.
  destruct ok3; cbn [negb].
  - eapply (lspec_bind T 0 0 0 0 _ _ _ _ (λ h' a s', h' = h3 ∧ a = true ∧ s' = s3)); [by apply lspec_ret|].
    intros h' a s' Ho' (-> & -> & ->). apply lspec_ret; [done|]. split_and!; [done..|]. intros _ H1. destruct (Hok1 H1) as (Hc1 & rel & HT & Hl).
    rewrite Hc1, app_nil_r in Hcs. split.
    + unfold verified_since. rewrite Hcs3, Hcs. split_and!.
      * intros Hn. apply Hne. by rewrite <- (reverse_involutive cs), Hn.
      * by apply Forall_reverse.
      * by apply Hok3.
    + exists wt, rel. split_and!; [done..|]. by rewrite (sd_write _ _ Hst3), (sd_write _ _ Hst).
  - apply lspec_ret; [done|]. by split_and!.
Qed.

Lemma lspec_round i h s : owned h s → inv h s →
  lspec T 2 1 h (round_tasks float_json w mission_id i [inspect; implement; verify; review] s)
    (λ h' ok s', inv h' s' ∧ kept s s' ∧ (ok = true → evidence h' s')).
Proof.
  intros Ho Hi. change [inspect; implement; verify; review] with ([inspect] ++ [implement; verify; review]). cbn [app].
  pose proof families as Hfam. injection Hfam as F1 _ _ _. unfold compose in F1. cbn [round_tasks]. rewrite F1, (bool_decide_true ("inspect" = "inspect")) by done.
  fold (round_tasks float_json w mission_id i [implement; verify; review]).
  destruct (0 <? i); cbn [andb]; [by apply lspec_work|].
  eapply (lspec_bind T 0 0 2 1); [by apply (lspec_inspect float_json T w mission_id inspect)|]. intros h1 ok1 s1 Ho1 (Hq1 & Hi1 & Hk1).
  assert (one_of "inspect" ["verify"; "review"] = false) as -> by (vm_compute; reflexivity). rewrite andb_false_r.
  eapply (lspec_bind T 2 1 0 0); [by apply lspec_work|]. intros h2 ok2 s2 Ho2 (Hi2 & Hk2 & He2). apply lspec_ret; [done|].
  split_and!; [done|by eapply kept_trans|]. intros [_ H]%andb_true_iff. by apply He2.
Qed.

Record rounded (s : Run) (ordered : option (list PlannedTask)) (h' : history) (s' : Run) : Prop := {
  rd_inv : inv h' s';
  rd_status : rr_status (rn_record s') = rr_status (rn_record s);
  rd_ordered : rn_ordered s' = ordered;
  rd_accepted : rn_accepted s' = true → evidence h' s'
}.
Lemma inv_quiet h h' s s' : quiet h h' → rn_shared s' = rn_shared s → rn_prior s' = rn_prior s → inv h s → inv h' s'.
Proof. intros Hq Hs Hp [H1 H2]. split; [by rewrite Hs, (qu_creations _ _ Hq)|]. by rewrite Hp. Qed.
Lemma lspec_rounds ordered n i h s : ordered = [inspect; implement; verify; review] → owned h s → inv h s → rn_accepted s = false →
  lspec T (2 * n) n h (rounds float_json w mission_id ordered i n s) (λ h' _ s', rounded s (if n is O then rn_ordered s else Some ordered) h' s').
Proof.
  intros ->. revert i h s. induction n as [|n IH]; intros i h s Ho Hi Hacc; cbn [rounds].
  { apply lspec_ret; [done|]. split; try done. by rewrite Hacc. }
  eapply lspec_step; [by apply notes_timeline|]. intros h1 [] s1 Ho1 [Hq1 Hs1].
  eapply (lspec_step T _ _ _ _ _ _ (λ h' _ s', h' = h1 ∧ s' = s1 <| rn_ordered := Some [inspect; implement; verify; review] |>)); [by apply lspec_update|].
  intros h2 [] s2 Ho2 [-> ->]. set (s2 := s1 <| rn_ordered := _ |>) in *.
  assert (inv h1 s2) as Hi2 by exact (inv_quiet h h1 s s2 Hq1 (sm_shared _ _ Hs1) (sm_prior _ _ Hs1) Hi).
  replace (2 * S n)%nat with (2 + 2 * n)%nat by lia. change (S n) with (1 + n)%nat.
  eapply (lspec_bind T 2 1); [by apply lspec_round|]. intros h3 ok s3 Ho3 (Hi3 & Hk3 & He3).
  eapply lspec_step; [by apply (lspec_get T h3 s3 (λ h' a s', h' = h3 ∧ a = s3 ∧ s' = s3))|]. intros ? ? ? _ (-> & -> & ->).
  assert (rr_status (rn_record s3) = rr_status (rn_record s)) as Hst by (rewrite (kp_status _ _ Hk3); apply Hs1).
  assert (rn_ordered s3 = Some [inspect; implement; verify; review]) as Hord by (by rewrite (kp_ordered _ _ Hk3)).
  assert (rn_accepted s3 = false) as Hacc3 by (rewrite (kp_accepted _ _ Hk3); cbn; by rewrite (sm_accepted _ _ Hs1)).
  destruct (ok && _) eqn:Hok.
  - apply andb_true_iff in Hok as [-> _]. eapply (lspec_mono T 0 0); [lia|lia| |apply (lspec_update T h3 _ s3 (λ h' _ s',
      h' = h3 ∧ s' = s3 <| rn_accepted := true |> <| rn_summary := "mission_accepted" |>)); [done|by split]].
    intros h' [] s' _ _ [-> ->]. split; [destruct Hi3 as [Hi1' Hi2']; by split|exact Hst|exact Hord|]. intros _. exact (He3 eq_refl).
  - eapply (lspec_step T _ _ _ _ _ _ (λ h' _ s', h' = h3 ∧ s' = s3 <| rn_summary := "repair_required" |>)); [by apply lspec_update|].
    intros ? [] ? _ [-> ->]. set (s4 := s3 <| rn_summary := _ |>) in *.
    eapply lspec_step; [by apply (notes_timeline T h3 s4)|]. intros h5 [] s5 Ho5 [Hq5 Hs5]. eapply lspec_step; [by apply notes_record|].
    intros h6 [] s6 Ho6 [Hq6 Hs6]. pose proof (quiet_trans _ _ _ Hq5 Hq6) as Hq. pose proof (same_trans _ _ _ Hs5 Hs6) as Hs.
    eapply lspec_mono; [done..| |apply IH; [done|exact (inv_quiet h3 h6 s3 s6 Hq (sm_shared _ _ Hs) (sm_prior _ _ Hs) Hi3)|by rewrite (sm_accepted _ _ Hs)]].
    intros h7 [] s7 _ _ []. split; [done| | |done].
    + rewrite rd_status0, (sm_status _ _ Hs). exact Hst.
    + rewrite rd_ordered0. destruct n; [|done]. by rewrite (sm_ordered _ _ Hs).
Qed.

(** ** The end *)
Context (total : list float → json).
Lemma lspec_conclude h s : owned h s → rn_ordered s ≠ None → (rn_accepted s = true → evidence h s) →
  lspec T 0 0 h (conclude float_json total mission_id s) (λ h' r s', quiet h h' ∧ rn_shared s' = rn_shared s
    ∧ (rr_status r = MissionStatus.COMPLETED ∧ evidence h' s' ∨ rr_status r = MissionStatus.FAILED)).
Proof.
  intros Ho Hord Hev. unfold conclude. eapply lspec_step; [by apply (lspec_get T h s (λ h' a s', h' = h ∧ a = s ∧ s' = s))|].
  intros ? ? ? _ (-> & -> & ->). destruct (rn_ordered s) as [ordered|]; [|done].
  eapply (lspec_step T _ _ _ _ _ _ (λ h' _ s', h' = h ∧ s' = s <| rn_record ::= concluded float_json total s ordered |>)); [by apply lspec_update|].
  intros ? [] ? Ho0 [-> ->]. set (s0 := s <| rn_record ::= _ |>) in *.
  eapply (lspec_step T _ _ _ _ _ _ (λ h' _ s', quiet h h' ∧ same s0 s')).
  { apply notes_when; intros _; [by apply notes_timeline|by apply notes_ret]. }
  intros h1 [] s1 Ho1 [Hq1 Hs1]. eapply lspec_step; [by apply (lspec_get T h1 s1 (λ h' a s', h' = h1 ∧ a = s1 ∧ s' = s1))|].
  intros ? ? ? _ (-> & -> & ->). eapply lspec_step; [by apply (notes_lift T h1)|]. intros h2 paths s2 Ho2 [Hq2 Hs2].
  eapply lspec_step; [by apply notes_record|]. intros h3 [] s3 Ho3 [Hq3 Hs3].
  eapply lspec_step; [by apply notes_timeline|]. intros h4 [] s4 Ho4 [Hq4 Hs4].
  eapply lspec_step; [by apply notes_save|]. intros h5 [] s5 Ho5 [Hq5 Hs5].
  pose proof (same_trans _ _ _ Hs1 (same_trans _ _ _ Hs2 (same_trans _ _ _ Hs3 (same_trans _ _ _ Hs4 Hs5)))) as Hs.
  pose proof (quiet_trans _ _ _ Hq1 (quiet_trans _ _ _ Hq2 (quiet_trans _ _ _ Hq3 (quiet_trans _ _ _ Hq4 Hq5)))) as Hq.
  eapply lspec_step; [by apply (lspec_get T h5 s5 (λ h' a s', h' = h5 ∧ a = s5 ∧ s' = s5))|]. intros ? ? ? _ (-> & -> & ->).
  apply lspec_ret; [done|]. rewrite (sm_shared _ _ Hs). split; [done|]. split; [done|].
  assert (rr_status (rn_record s5) = if rn_accepted s then MissionStatus.COMPLETED else MissionStatus.FAILED) as -> by (by rewrite (sm_status _ _ Hs)).
  destruct (rn_accepted s); [left|by right]. split; [done|]. apply (evidence_quiet h h5 s s5); [done|by rewrite (sm_shared _ _ Hs)|by apply Hev].
Qed.

(** The removal of the worktree is tried whether the program returns or raises; when it fails, the failure is swallowed. *)
Definition removal_tried (h : history) (wt : WorktreeHandle) : Prop := ∃ ev, ev ∈ h ∧ is_removal wt ev.
Lemma blamed_suffix h h' e : h `suffix_of` h' → blamed h e → blamed h' e.
Proof. intros [l ->] (ev & Hev & He). exists ev. split; [|done]. apply elem_of_app. by right. Qed.
Lemma paid_suffix h h' e : h `suffix_of` h' → paid h e → paid h' e.
Proof. intros Hs [-> (i & Hi & Hp)]. split; [done|]. exists i. split; [by eapply asked_suffix|done]. Qed.
Lemma cleanup_spec k j h p Q : lspec T k j h p Q →
  allowed (isolated T) h (with_cleanup p) (λ h' r, within k j h h' ∧ match r with
    | Ok a => ∃ h0 s, quiet h0 h' ∧ Q h0 a s ∧ ∀ wt, rn_shared s = Some wt → wt ∈ created h' ∧ removal_tried h' wt
    | Err e => blamed h' e ∨ paid h' e
    end).
Proof.
  intros Hp. unfold with_cleanup. apply allowed_bind. eapply allowed_mono; [|exact Hp]. intros h1 [[x s]|e]; [|done].
  intros (Hw & Hs & Ho & Hx). cbv beta iota zeta. destruct (rn_shared s) as [wt|] eqn:Hwt.
  - apply allowed_bind, allowed_try, allowed_call; [by apply Ho|]. intros r. set (h2 := Ev _ _ _ :: h1).
    assert (quiet h1 h2) as Hq by (by apply quiet_ev). pose proof (within_trans _ _ _ _ _ _ _ Hw (within_quiet _ _ Hq)) as Hw2.
    rewrite !Nat.add_0_r in Hw2. assert (removal_tried h2 wt) as Hr by (eexists; split; [by left|done]).
    assert (match x with Ok a => ∃ h0 s0, quiet h0 h2 ∧ Q h0 a s0 ∧ ∀ wt', rn_shared s0 = Some wt' → wt' ∈ created h2 ∧ removal_tried h2 wt'
      | Err e => blamed h2 e ∨ paid h2 e end) as Hend.
    { destruct x as [a|e].
      - exists h1, s. split_and!; [done..|]. intros wt'. rewrite Hwt. intros [= <-]. split; [by apply Ho|done].
      - destruct Hx; [left; by eapply blamed_suffix; [apply Hq|]|right; by eapply paid_suffix; [apply Hq|]]. }
    destruct r; by apply allowed_done.
  - apply allowed_done. split; [done|]. destruct x as [x|e]; [|done]. exists h1, s. split_and!; [apply quiet_refl|done|]. intros wt. by rewrite Hwt.
Qed.

(** A run from the first entry of the timeline on. *)
Lemma lspec_body rt revision route_plan h s : 0 <= rt_max_repair_rounds rt → owned h s → inv h s → rn_accepted s = false →
  let n := Z.to_nat (rt_max_repair_rounds rt + 1) in
  lspec T (2 * n) n h (body float_json total rt w mission_id revision route_plan [inspect; implement; verify; review] s)
    (λ h' r s', (rn_shared s' = None → creations h' = 0%nat) ∧ (rr_status r = MissionStatus.COMPLETED ∧ evidence h' s' ∨ rr_status r = MissionStatus.FAILED)).
Proof.
  intros Hr Ho Hi Hacc n. unfold body. eapply lspec_step; [by apply notes_timeline|]. intros h1 [] s1 Ho1 [Hq1 Hs1].
  eapply lspec_step; [by apply notes_save|]. intros h2 [] s2 Ho2 [Hq2 Hs2].
  eapply lspec_step; [by apply (notes_lift T h2)|]. intros h3 [] s3 Ho3 [Hq3 Hs3].
  pose proof (same_trans _ _ _ Hs1 (same_trans _ _ _ Hs2 Hs3)) as Hs. pose proof (quiet_trans _ _ _ Hq1 (quiet_trans _ _ _ Hq2 Hq3)) as Hq.
  fold n. replace (2 * n)%nat with (2 * n + 0)%nat by lia. replace (lspec T (2 * n + 0) n) with (lspec (A := RunRecord) T (2 * n + 0) (n + 0)) by (f_equal; lia).
  eapply (lspec_bind T _ _ 0 0); [apply lspec_rounds; [done..|exact (inv_quiet h h3 s s3 Hq (sm_shared _ _ Hs) (sm_prior _ _ Hs) Hi)|by rewrite (sm_accepted _ _ Hs)]|].
  intros h4 [] s4 Ho4 [Hi4 _ Hord Hev]. eapply lspec_mono; [done..| |apply lspec_conclude; [done| |done]].
  - intros h5 r s5 _ _ (Hq5 & Hsh & Hst). split; [|done]. rewrite Hsh, (qu_creations _ _ Hq5). apply Hi4.
  - rewrite Hord. destruct n eqn:Hn; [lia|done].
Qed.
End rounds.

(** ** The tasks the controller hands out *)
Definition stored (t : PlannedTask) : PlannedTask :=
  mkPlanned (mark_ready (pt_spec t)) (pt_size_features t) (pt_inputs t) (pt_output_schema_id t) (pt_acceptance_check_ids t) (pt_role_hint t) (pt_attempt_limit t).
Lemma find_id (tasks : list PlannedTask) t : NoDup (ts_id <$> (pt_spec <$> tasks)) → t ∈ tasks →
  List.find (λ x, bool_decide (ts_id (pt_spec x) = ts_id (pt_spec t))) tasks = Some t.
Proof.
  induction tasks as [|x tasks IH]; [by intros _ ?%elem_of_nil|]. cbn [fmap list_fmap List.find]. intros [Hx Hnd]%NoDup_cons [->|Ht]%elem_of_cons.
  - by rewrite bool_decide_true.
  - rewrite bool_decide_false; [by apply IH|]. intros Heq. apply Hx. rewrite Heq. by do 2 apply list_elem_of_fmap_2.
Qed.
Lemma omap_stored (planned tasks : list PlannedTask) : (∀ t, t ∈ tasks → List.find (λ x, bool_decide (ts_id (pt_spec x) = ts_id (pt_spec t))) planned = Some t) →
  omap (λ spec, (λ t, mkPlanned spec (pt_size_features t) (pt_inputs t) (pt_output_schema_id t) (pt_acceptance_check_ids t) (pt_role_hint t) (pt_attempt_limit t))
      <$> List.find (λ t, bool_decide (ts_id (pt_spec t) = ts_id spec)) planned) (mark_ready ∘ pt_spec <$> tasks) = stored <$> tasks.
Proof.
  induction tasks as [|t tasks IH]; intros H; [done|]. pose proof (H t ltac:(by left)) as Ht. cbn [fmap list_fmap omap list_omap compose].
  change (ts_id (mark_ready (pt_spec t))) with (ts_id (pt_spec t)). rewrite Ht. cbn. f_equal. apply IH. intros t' Ht'. apply H. by right.
Qed.
Lemma stored_tasks_planned (tasks : list PlannedTask) : NoDup (ts_id <$> (pt_spec <$> tasks)) → StronglySorted (λ a b, ts_priority (pt_spec a) <= ts_priority (pt_spec b)) tasks →
  stored_tasks tasks ((λ t, (ts_id (pt_spec t), mark_ready (pt_spec t))) <$> tasks) = stored <$> tasks.
Proof.
  intros Hnd Hs. unfold stored_tasks, dict_values. rewrite <- list_fmap_compose.
  change (snd ∘ (λ t, (ts_id (pt_spec t), mark_ready (pt_spec t)))) with (mark_ready ∘ pt_spec). rewrite sort_by_id.
  - apply omap_stored. intros t. by apply find_id.
  - clear Hnd. induction Hs as [|t l _ IH Hl]; cbn; [by constructor|]. constructor; [done|]. apply Forall_fmap.
    eapply Forall_impl; [exact Hl|]. intros x Hx. by apply Z.leb_le.
Qed.

(** ** The whole run *)
Section run.
Context (hex : nat → string) (clock : nat → Z) (float_json : float → json) (total : list float → json).
Hypothesis hex_inj : Inj (=) (=) hex.
Context (rt : Runtime) (goal : string) (c : Controller).
Hypothesis fresh : ∀ n, task_map c (hex n) = [].

(** The files a run may write: the fixture's, or one that the goal names. *)
Definition target (p : path) : Prop :=
  if rt_parser_dogfood_fixture rt then p = OFF_BY_ONE_REL else ∃ m, m ∈ findall path_mentions (trim goal) ∧ p = path_of (path_str (path_of m)).

Lemma run_starts inspection n : ∃ mission proposal tasks n',
  (mission ← build_software_mission hex clock goal "proj_local";
   '(proposal, tasks) ← plan_task_graph hex clock (mission <| ms_status := MissionStatus.PLANNING |>) inspection;
   mret (mission, proposal, tasks)) n = (Ok (mission, proposal, tasks), n') ∧
  (start_mission mission proposal c).1 = Ok 2 ∧
  ∃ inspect implement verify review,
    stored_tasks tasks (task_map (start_mission mission proposal c).2 (ms_id mission)) = [inspect; implement; verify; review]
    ∧ (ts_task_family ∘ pt_spec) <$> [inspect; implement; verify; review] = ["inspect"; "implement"; "verify"; "review"]
    ∧ pt_inputs inspect = [("goal", JStr (trim goal)); ("inspection", inspection_dict inspection)] ∧ pt_inputs implement = [("goal", JStr (trim goal))]
    ∧ pt_inputs verify = [].
Proof.
  destruct (build_software_mission hex clock goal "proj_local" n) as [r n1] eqn:Hb.
  assert (∃ mission, r = Ok mission ∧ ms_id mission = hex n ∧ ms_objective mission = trim goal ∧ ms_data_scope_ids mission = ["scope_repo"]
    ∧ ms_max_graph_nodes mission = 16 ∧ ms_revision mission = 1) as (mission & -> & Hid & Hobj & Hsc & Hmax & Hrev).
  { unfold build_software_mission in Hb. revert Hb. do 3 (erewrite bind_run by reflexivity). intros [= <- _]. by eexists. }
  destruct (software_graph hex clock hex_inj (mission <| ms_status := MissionStatus.PLANNING |>) inspection n1)
    as (proposal & tasks & n2 & Hp & Hpl & Hspecs & Hfam & Hin).
  exists mission, proposal, tasks, n2. split; [do 2 (erewrite bind_run by eassumption); done|].
  assert (planned_for mission proposal) as Hpl' by (by destruct Hpl). pose proof (start_run mission proposal c Hpl') as Hrun.
  rewrite Hid in Hrun. specialize (Hrun (fresh n)).
  assert (length (gp_task_specs proposal) = 4%nat) as Hlen.
  { rewrite Hspecs, length_fmap. apply (f_equal length) in Hfam. by rewrite length_fmap in Hfam. }
  rewrite Hlen, Hmax in Hrun. unfold has_repo_scope in Hrun. rewrite Hsc, Hrev in Hrun. rewrite Hid.
  destruct (start_mission mission proposal c) as [r c']. destruct Hrun as [-> Hmap]. split; [done|]. cbn [snd]. rewrite Hmap.
  unfold ready_tasks. rewrite Hspecs, <- list_fmap_compose.
  change ((λ s, (ts_id s, mark_ready s)) ∘ pt_spec) with (λ t, (ts_id (pt_spec t), mark_ready (pt_spec t))). rewrite stored_tasks_planned.
  - destruct tasks as [|a [|b [|v [|w [|? ?]]]]]; try done. injection Hfam as F1 _ F2 _ F3 _ F4 _. injection Hin as I1 I2 I3 _.
    exists (stored a), (stored b), (stored v), (stored w). split; [done|]. split; [cbn; congruence|]. rewrite <- Hobj. done.
  - rewrite <- Hspecs. rewrite <- (app_nil_l (ts_id <$> _)). apply layered_nodup; [constructor|apply (pf_layered _ _ Hpl')].
  - destruct tasks as [|a [|b [|v [|w [|? ?]]]]]; try done. injection Hfam as _ P1 _ P2 _ P3 _ P4.
    repeat constructor; lia.
Qed.

Definition rounds_allowed : nat := Z.to_nat (rt_max_repair_rounds rt + 1).
(** How a run ends. *)
Definition ended (h : history) (r : result RunRecord) : Prop :=
  within (2 * rounds_allowed) rounds_allowed [] h ∧ match r with
    | Ok r => ∃ shared, (shared = None → creations h = 0%nat) ∧ (∀ wt, shared = Some wt → wt ∈ created h ∧ removal_tried h wt) ∧
        (rr_status r = MissionStatus.COMPLETED ∧ verified_since h
           ∧ (∃ wt rel, shared = Some wt ∧ target rel ∧ last_write h = Some (pjoin (wt_path wt) rel))
         ∨ rr_status r = MissionStatus.FAILED)
    | Err e => blamed h e ∨ paid h e
    end.
Lemma ends_after {A B} h (p : W A) (f : A → W B) (R : A → Prop) (Q : history → result B → Prop) : quiet [] h → looks target h p R →
  (∀ h' e, within 0 0 [] h' → blamed h' e → Q h' (Err e)) →
  (∀ h' a, quiet [] h' → R a → allowed (isolated target) h' (f a) Q) → allowed (isolated target) h (p ≫= f) Q.
Proof.
  intros Hq Hp He Hf. apply allowed_bind. eapply allowed_mono; [|exact Hp]. intros h' [a|e] [Hw H]; cbv beta iota.
  - destruct H as [Hq' Hr]. apply Hf; [by eapply quiet_trans|done].
  - apply He; [|done]. exact (within_trans 0 0 0 0 _ _ _ (within_quiet _ _ Hq) Hw).
Qed.

(** What the worker of the run may propose and write. *)
Lemma worker_targets model by_family id inspect inspection :
  pt_inputs inspect = [("goal", JStr (trim goal)); ("inspection", inspection_dict inspection)] →
  ∀ x, candidate (worker_for rt model by_family id) inspect x → target (path_of x).
Proof.
  intros Hin x. assert (goal_of inspect JNull = trim goal) as Hgoal.
  { unfold goal_of. rewrite Hin. cbn [dict_get]. rewrite decide_True by done. cbn. by case_bool_decide as Hg; cbn; rewrite ?bool_decide_false by done. }
  unfold candidate, target, _resolve_target_rel, input_path. rewrite Hgoal, Hin. cbn. destruct (rt_parser_dogfood_fixture rt).
  - intros [(rel & [= <-] & ->)|[H _]]; [by vm_compute|done].
  - intros [(rel & ? & _)|(_ & m & Hm & ->)]; [done|]. by exists m.
Qed.
Lemma implement_targets model by_family id implement : pt_inputs implement = [("goal", JStr (trim goal))] →
  ∀ rel, _resolve_target_rel (worker_for rt model by_family id) implement = Some rel → target rel.
Proof.
  intros Hin rel. unfold target, _resolve_target_rel, input_path. rewrite Hin. cbn. destruct (rt_parser_dogfood_fixture rt); [by intros [= <-]|done].
Qed.
Lemma verify_targets model by_family id verify : pt_inputs verify = [] →
  ∀ rel, _resolve_test_rel (worker_for rt model by_family id) verify = Some rel → rel = OFF_BY_ONE_TEST_REL.
Proof.
  intros Hin rel. unfold _resolve_test_rel, input_path. rewrite Hin. cbn. destruct (rt_parser_dogfood_fixture rt); [by intros [= <-]|done].
Qed.
Lemma run_ends : 0 <= rt_max_repair_rounds rt → allowed (isolated target) [] (run_mission hex clock float_json total rt goal c) ended.
Proof.
  intros Hr. assert (∀ h e, within 0 0 [] h → blamed h e → ended h (Err e)) as He by (intros h e [] ?; split; [split; lia|by left]).
  unfold run_mission. eapply ends_after; [apply quiet_refl|by apply looks_call|done|]. intros h1 inspection Hq1 _.
  eapply ends_after; [exact Hq1|by apply looks_call|done|]. intros h2 n Hq2 _. cbv zeta.
  destruct (run_starts inspection n) as (mission & proposal & tasks & n' & Hplan & Hstart & inspect & implement & verify & review & Htasks & Hfam & Hi & Hm & Hv0).
  rewrite Hplan. cbn [fst snd]. apply allowed_bind, allowed_done. cbv beta iota.
  destruct (start_mission mission proposal c) as [committed c']. cbn [fst snd] in Hstart, Htasks. rewrite Hstart, Htasks.
  apply allowed_bind, allowed_done. cbv beta iota.
  eapply (ends_after _ _ _ (λ _, True)); [exact Hq2|destruct (rt_use_evidence_router rt); [by apply looks_call|by apply looks_ret]|done|].
  intros h3 [by_family route_plan] Hq3 _. eapply ends_after; [exact Hq3|by apply looks_call|done|]. intros h4 now1 Hq4 _.
  eapply ends_after; [exact Hq4|by apply looks_call|done|]. intros h5 now2 Hq5 _. cbv zeta. set (s := mkRun _ _ _ _ _ _ _).
  set (w := worker_for _ _ _ _). eapply allowed_mono; [|apply cleanup_spec, (lspec_body float_json target w (ms_id mission) inspect implement verify review
    (worker_targets _ _ _ _ _ Hi) (implement_targets _ _ _ _ Hm) (verify_targets _ _ _ _ Hv0) Hfam); [done|by intros ?|split; [intros _; apply (qu_creations _ _ Hq5)|by intros r []%elem_of_nil]|done]].
  intros h r [Hw H]. split; [exact (within_trans 0 0 _ _ _ _ _ (within_quiet _ _ Hq5) Hw)|]. destruct r as [r|e]; [|done].
  destruct H as (h0 & s' & Hq & (Hnone & Hst) & Hrem). exists (rn_shared s'). split_and!; [by rewrite (qu_creations _ _ Hq)|done|].
  destruct Hst as [[Hst [Hv (wt & rel & Hwt & Ht & Hl)]]|?]; [left|by right]. split; [done|]. split; [by eapply verified_quiet|].
  exists wt, rel. by rewrite (qu_write _ _ Hq).
Qed.

(** The worktrees of a history that only created one when there was none. *)
Lemma created_once T h : all_admitted (isolated T) h → (length (created h) <= creations h)%nat ∧ (creations h <= 1)%nat.
Proof.
  unfold created, creations. induction h as [|[R o r] h IH]; [cbn; lia|]. intros [Ho Hh]. specialize (IH Hh). cbn in Ho.
  destruct o; cbn; try exact IH. cbn in Ho. unfold creations in Ho. rewrite Ho in *. destruct r; cbn; lia.
Qed.
Lemma only_created T h wt wt' : all_admitted (isolated T) h → wt ∈ created h → wt' ∈ created h → wt' = wt.
Proof.
  intros [H1 H2]%created_once. destruct (created h) as [|x [|y l]]; cbn in *; [by intros ?%elem_of_nil|set_solver|lia].
Qed.
(** ** Theorems *)
Context {St In : Type} (perform : ∀ R, wop R → In → St → result R * St).




(** C25: Whatever the operations reply, and when the number of repair rounds is not negative, a run creates at most one
    worktree; it writes at most one file and asks a model at most twice in each of its rounds.  When it returns, it has
    tried to remove the worktree (if that raised, the exception was swallowed and the worktree may remain); when it
    raises, an operation raised that exception or a model that cost something was refused. *)
Theorem mission_runs_end inputs w r h w' : 0 <= rt_max_repair_rounds rt →
  run perform inputs [] (run_mission hex clock float_json total rt goal c) w = (r, h, w') →
  (length (created h) <= 1)%nat ∧ Z.of_nat (writes h) <= rt_max_repair_rounds rt + 1 ∧ Z.of_nat (chats h) <= 2 * (rt_max_repair_rounds rt + 1)
  ∧ match r with Ok _ => ∀ wt, wt ∈ created h → removal_tried h wt | Err e => blamed h e ∨ paid h e end.
Proof.
  intros Hr Hrun. pose proof (run_allowed _ _ _ _ _ _ _ _ _ _ (run_ends Hr) Hrun) as [[Hch Hwr] Hend].
  pose proof (run_admitted _ _ _ _ _ _ _ _ _ _ (run_ends Hr) Hrun I) as Hall. pose proof (created_once _ _ Hall) as [H1 H2].
  unfold rounds_allowed in *. unfold chats, writes in *. cbn in Hch, Hwr. split_and!; [lia..|]. destruct r as [r|e]; [|done].
  destruct Hend as ([s|] & Hnone & Hsome & _).
  - intros wt Hin. destruct (Hsome s eq_refl) as [Hs Hrem]. by rewrite (only_created _ _ _ _ Hall Hs Hin).
  - specialize (Hnone eq_refl). intros wt Hin. destruct (created h); [by apply elem_of_nil in Hin|cbn in H1; lia].
Qed.
End run.

(** ** Concrete runs *)
Module MissionRunSample.
Import PlannerSample.
Definition checkout : path := path_of "/repo".
Definition worktree : WorktreeHandle := mkHandle (path_of "/repo/.swarm/worktrees/w1") "swarm/w1" "wrk_" "m" "t".
Definition fenced (text : string) : string := "```python" +:+ newline +:+ text +:+ newline +:+ "```".
Definition reply (text : string) : InferenceResult := mkInference true text "local" "rt_local" None None f_0 None.
(** What the operations do: [missing] says which files are not there, [answer] is the model's. *)
Definition perform (missing : path → bool) (answer : result InferenceResult) (R : Type) (o : wop R) (_ : ()) (w : list (string * path)) : result R * list (string * path) :=
  match o in wop R return result R * list (string * path) with
  | Now => (Ok 0, w)
  | Draw => (Ok 0%nat, w)
  | InspectRepo => (Ok repo, w)
  | RoutePlan => (Ok ([], JNull), w)
  | MissionBroker => (Ok tt, w)
  | WriteRecord r => (Ok tt, (match re_status r with JStr s => s | _ => "" end, checkout) :: w)
  | WriteReports _ _ => (Ok [], w)
  | Exists p => (Ok (negb (missing p)), w)
  | IsDir _ => (Ok true, w)
  | ReadText _ => (Ok "def f(): return 1", w)
  | MakeDirs _ => (Ok tt, w)
  | WriteText p _ => (Ok tt, ("write", p) :: w)
  | CreateWorktree _ _ _ => (Ok worktree, w)
  | RemoveWorktree h => (Ok tt, ("remove", wt_path h) :: w)
  | WorktreeDiff _ => (Ok "+ return 2", w)
  | RunCmd _ cmd _ => (Ok (mkCommand cmd 0 "" ""), w)
  | Chat _ _ _ => (answer, w)
  end.
Definition runtime (fixture : bool) : Runtime := mkRuntime checkout "local" 1 false fixture.
Definition sample (missing : path → bool) (answer : result InferenceResult) (fixture : bool) (goal : string) :=
  run (perform missing answer) (λ _, tt) [] (run_mission unary zero_clock (λ _, JInt 0) (λ _, JInt 0) (runtime fixture) goal empty) [].
Definition good : result InferenceResult := Ok (reply (fenced "def f(): return 2")).
Definition status_of (r : result RunRecord) : option MissionStatus := match r with Ok r => Some (rr_status r) | Err _ => None end.
Lemma empty_fresh n : task_map empty (unary n) = [].
Proof. reflexivity. Qed.
Lemma sample_completes : status_of (sample (λ _, false) good false "Fix src/a.py").1.1 = Some MissionStatus.COMPLETED
  ∧ (sample (λ _, false) good false "Fix src/a.py").2 = [("remove", wt_path worktree); ("completed", checkout); ("write", path_of "/repo/.swarm/worktrees/w1/src/a.py"); ("running", checkout)].
Proof. split; vm_compute; reflexivity. Qed.
Abbreviation accepted_run := (sample (λ _, false) good false "Fix src/a.py").
Lemma mission_runs_end_witness : ∃ r h w', accepted_run = (Ok r, h, w') ∧ writes h = 1%nat ∧ (length (created h) <= 1)%nat
  ∧ ∀ wt, wt ∈ created h → removal_tried h wt.
Proof.
  pose proof (proj1 sample_completes) as Hst. destruct accepted_run as [[[r|e] h] w'] eqn:Hrun; [|discriminate].
  exists r, h, w'. split; [reflexivity|].
  destruct (mission_runs_end unary zero_clock (λ _, JInt 0) (λ _, JInt 0) unary_inj (runtime false) "Fix src/a.py" empty empty_fresh
    (perform (λ _, false) good) (λ _, tt) [] (Ok r) h w' ltac:(done) Hrun) as (Hc & _ & _ & Hrem). split; [|split; [exact Hc|exact Hrem]].
  transitivity (writes accepted_run.1.2); [by rewrite Hrun|vm_compute; reflexivity].
Defined.

(** A goal whose file climbs out of the worktree is written there. *)
Example climbing_goals_escape :
  (sample (λ _, false) good false "Fix ../../../src/a.py").2
  = [("remove", wt_path worktree); ("completed", checkout); ("write", path_of "/repo/.swarm/worktrees/w1/../../../src/a.py"); ("running", checkout)].
Proof. vm_compute. reflexivity. Qed.
(** A mission completes although its inspection failed: the repair round leaves that out. *)
Definition fixture_file : path := pjoin checkout OFF_BY_ONE_REL.
Definition fixed : result InferenceResult := Ok (reply (fenced "def inclusive_range_count(start, end): return end - start + 1")).
Definition rows_of (r : result RunRecord) : list (string * TaskStatus) := match r with Ok r => (λ t, (tk_family t, tk_status t)) <$> rr_tasks r | Err _ => [] end.
Example missions_complete_without_inspection :
  let '(r, _, _) := sample (λ p, bool_decide (p = fixture_file)) fixed true "fix it" in
  status_of r = Some MissionStatus.COMPLETED
  ∧ rows_of r = [("inspect", TaskStatus.FAILED); ("implement", TaskStatus.ACCEPTED); ("verify", TaskStatus.ACCEPTED); ("review", TaskStatus.ACCEPTED)].
Proof. vm_compute. split; reflexivity. Qed.
(** What asking a model raises: [brokered_local_chat_sync] is [asyncio.run], and a run is already in a loop. *)
Definition no_loop : exn := RuntimeError "asyncio.run() cannot be called from a running event loop".
(** An exception in the first implementation leaves the worktree behind and the stored mission running. *)
Example failed_runs_stay_running :
  (sample (λ _, false) (Err no_loop) false "Fix src/a.py").1.1 = Err no_loop
  ∧ created (sample (λ _, false) (Err no_loop) false "Fix src/a.py").1.2 = [worktree]
  ∧ (sample (λ _, false) (Err no_loop) false "Fix src/a.py").2 = [("running", checkout)].
Proof. vm_compute. split_and!; reflexivity. Qed.
End MissionRunSample.
