(* ===== verification/GraphRevisions.v ===== *)
(** * GraphRevisions: graph revisions in the database

    [MissionRepository] of db/repositories.py: inserting a mission and committing a graph
    proposal on the revision it was made for.  A unit of work reads through its session and
    writes when it commits, so a commit is a program whose reads and whose final flush
    interleave with other sessions ([Programs]).  The flush updates the columns that the session
    changed, inserts the new rows and fails as a whole on a key that exists: missions and tasks
    have their id as key, graph revisions their id and, by uq_graph_mission_revision, the mission
    with the revision.  What model_dump gives for missions, tasks and proposals is a parameter, as are the two fields of a
    proposal that the controller's contract leaves out.

    [graph_revisions_are_serial]: whatever sessions run and however they interleave, the revisions
    of a mission are consecutive, each based on the one before, and the mission has the last. *)
From S2P Require Import Prelude Collections Contracts PyFloat Profiles Authority Scheduler Json JsonText Models Checkpoint MissionStore Programs.
Open Scope Z_scope.

(** ** Rows (db/models.py) *)
Record MissionRow := mkMissionRow {
  mi_project_id : string;
  mi_schema_version : string;
  mi_objective : string;
  mi_status : string;
  mi_revision : Z;
  mi_cancellation_generation : Z;
  mi_resource_policy_id : string;
  mi_max_wall_time_seconds : Z;
  mi_max_graph_nodes : Z;
  mi_max_active_sessions : Z;
  mi_max_model_calls : Z;
  mi_total_token_envelope : option Z;
  mi_acceptance_receipt_id : option string;
  mi_payload : json
}.
#[export] Instance eta_MissionRow : Eta MissionRow := λ r,
  mkMissionRow (mi_project_id r) (mi_schema_version r) (mi_objective r) (mi_status r) (mi_revision r) (mi_cancellation_generation r)
    (mi_resource_policy_id r) (mi_max_wall_time_seconds r) (mi_max_graph_nodes r) (mi_max_active_sessions r) (mi_max_model_calls r)
    (mi_total_token_envelope r) (mi_acceptance_receipt_id r) (mi_payload r).
Record GraphRevisionRow := mkGraphRevisionRow {
  gr_mission_id : string;
  gr_revision : Z;
  gr_based_on_revision : Z;
  gr_author_session_id : string;
  gr_operation : string;
  gr_rationale_summary : string;
  gr_payload : json
}.
Record TaskRow := mkTaskRow {
  tr_project_id : string;
  tr_mission_id : string;
  tr_parent_task_id : option string;
  tr_objective : string;
  tr_task_family : string;
  tr_status : string;
  tr_graph_revision : Z;
  tr_priority : Z;
  tr_scopes : list string;
  tr_dependency_ids : list string;
  tr_payload : json
}.
Record Db := mkDb {
  db_missions : gmap string MissionRow;
  db_revisions : list (string * GraphRevisionRow);
  db_tasks : gmap string TaskRow
}.
#[export] Instance eta_Db : Eta Db := λ d, mkDb (db_missions d) (db_revisions d) (db_tasks d).

(** ** Units of work *)
(** A row to add, or an object that was loaded as [old] and now is [new]. *)
Inductive TaskWrite := AddTask (id : string) (row : TaskRow) | UpdateTask (id : string) (old new : TaskRow).
Record Unit := mkUnit {
  un_mission_id : string;
  un_revision : Z;
  un_revision_id : string;
  un_row : GraphRevisionRow;
  un_tasks : list TaskWrite
}.
Inductive gop : Type → Type :=
  | GetMission (id : string) : gop (option MissionRow)
  | GetTask (id : string) : gop (option TaskRow)
  | NewRevisionId : gop string
  | AddMission (id : string) (row : MissionRow) : gop ()
  | Commit (u : Unit) : gop ().
Abbreviation G := (prog gop).
Definition GraphRevisionConflict : string → exn := Exn "GraphRevisionConflict".
Definition StaleDataError : string → exn := Exn "StaleDataError".

Section repository.
Context (dump_mission : Mission → json) (dump_task : TaskSpec → json) (dump_proposal : GraphProposal → json) (author_session_id rationale_summary : GraphProposal → string).

Definition mission_row (m : Mission) : MissionRow :=
  mkMissionRow (ms_project_id m) (ms_schema_version m) (ms_objective m) (MissionStatus.value (ms_status m)) (ms_revision m)
    (ms_cancellation_generation m) (ms_resource_policy_id m) (ms_max_wall_time_seconds m) (ms_max_graph_nodes m) (ms_max_active_sessions m)
    (ms_max_model_calls m) (ms_total_token_envelope m) (ms_acceptance_receipt_id m) (dump_mission m).
Definition insert (m : Mission) : G () := call (AddMission (ms_id m) (mission_row m)).

Definition new_task (t : TaskSpec) (graph_revision : Z) : TaskRow :=
  mkTaskRow (ts_project_id t) (ts_mission_id t) (ts_parent_task_id t) (ts_objective t) (ts_task_family t) (TaskStatus.value (ts_status t))
    graph_revision (ts_priority t) (ts_scopes t) (ts_dependency_ids t) (dump_task t).
(** The columns that [_upsert_task] sets on a row that exists. *)
Definition overwrite (r : TaskRow) (t : TaskSpec) (graph_revision : Z) : TaskRow :=
  mkTaskRow (tr_project_id r) (tr_mission_id r) (tr_parent_task_id r) (ts_objective t) (tr_task_family r) (TaskStatus.value (ts_status t))
    graph_revision (ts_priority t) (ts_scopes t) (ts_dependency_ids t) (dump_task t).
(** The object of the session's identity map. *)
Fixpoint loaded (id : string) (writes : list TaskWrite) : option (TaskRow * TaskRow) :=
  match writes with
  | [] => None
  | UpdateTask id' old new :: rest => if bool_decide (id' = id) then Some (old, new) else loaded id rest
  | AddTask _ _ :: rest => loaded id rest
  end.
Definition set_loaded (id : string) (new : TaskRow) (w : TaskWrite) : TaskWrite :=
  match w with UpdateTask id' old _ => if bool_decide (id' = id) then UpdateTask id old new else w | _ => w end.
Definition _upsert_task (t : TaskSpec) (graph_revision : Z) (writes : list TaskWrite) : G (list TaskWrite) :=
  match loaded (ts_id t) writes with
  | Some (_, r) => mret (set_loaded (ts_id t) (overwrite r t graph_revision) <$> writes)
  | None =>
    existing ← call (GetTask (ts_id t));
    mret (writes ++ [match existing with
                     | None => AddTask (ts_id t) (new_task t graph_revision)
                     | Some r => UpdateTask (ts_id t) r (overwrite r t graph_revision)
                     end])
  end.
Fixpoint upsert_tasks (specs : list TaskSpec) (graph_revision : Z) (writes : list TaskWrite) : G (list TaskWrite) :=
  match specs with
  | [] => mret writes
  | t :: rest => writes ← _upsert_task t graph_revision writes; upsert_tasks rest graph_revision writes
  end.
(** [commit_graph_revision], and the commit of the session it was called in. *)
Definition commit_graph_revision (p : GraphProposal) : G GraphRevisionRow :=
  mission ← call (GetMission (gp_mission_id p));
  mission ← prequire mission (KeyError (gp_mission_id p));
  praise_if (negb (mi_revision mission =? gp_based_on_revision p))
    (GraphRevisionConflict ("expected revision " +:+ pretty (gp_based_on_revision p) +:+ ", found " +:+ pretty (mi_revision mission)));;
  let new_revision := mi_revision mission + 1 in
  id ← call NewRevisionId;
  let row := mkGraphRevisionRow (gp_mission_id p) new_revision (gp_based_on_revision p) (author_session_id p) (GraphOperation.value (gp_operation p))
    (rationale_summary p) (dump_proposal p) in
  writes ← upsert_tasks (gp_task_specs p) new_revision [];
  call (Commit (mkUnit (gp_mission_id p) new_revision id row writes));;
  mret row.
End repository.

(** ** The database *)
(** An UPDATE sets the columns that the session changed. *)
Definition changed {A} `{EqDecision A} (old new current : A) : A := if bool_decide (new = old) then current else new.
Definition update_task (old new cur : TaskRow) : TaskRow :=
  mkTaskRow (tr_project_id cur) (tr_mission_id cur) (tr_parent_task_id cur) (changed (tr_objective old) (tr_objective new) (tr_objective cur))
    (tr_task_family cur) (changed (tr_status old) (tr_status new) (tr_status cur))
    (changed (tr_graph_revision old) (tr_graph_revision new) (tr_graph_revision cur)) (changed (tr_priority old) (tr_priority new) (tr_priority cur))
    (changed (tr_scopes old) (tr_scopes new) (tr_scopes cur)) (changed (tr_dependency_ids old) (tr_dependency_ids new) (tr_dependency_ids cur))
    (if json_eqb (tr_payload new) (tr_payload old) then tr_payload cur else tr_payload new).
Definition write_task (w : TaskWrite) (tasks : gmap string TaskRow) : result (gmap string TaskRow) :=
  match w with
  | AddTask id row => match tasks !! id with Some _ => Err (IntegrityError id) | None => Ok (<[id := row]> tasks) end
  | UpdateTask id old new => match tasks !! id with Some cur => Ok (<[id := update_task old new cur]> tasks) | None => Err (StaleDataError id) end
  end.
Fixpoint write_tasks (ws : list TaskWrite) (tasks : gmap string TaskRow) : result (gmap string TaskRow) :=
  match ws with
  | [] => Ok tasks
  | w :: rest => match write_task w tasks with Ok tasks => write_tasks rest tasks | Err e => Err e end
  end.
Definition flush (u : Unit) (d : Db) : result () * Db :=
  match db_missions d !! un_mission_id u with
  | None => (Err (StaleDataError (un_mission_id u)), d)
  | Some m =>
    if existsb (λ kr, bool_decide (kr.1 = un_revision_id u) || bool_decide (gr_mission_id kr.2 = un_mission_id u) && (gr_revision kr.2 =? un_revision u)) (db_revisions d)
    then (Err (IntegrityError "uq_graph_mission_revision"), d)
    else match write_tasks (un_tasks u) (db_tasks d) with
         | Err e => (Err e, d)
         | Ok tasks => (Ok tt, mkDb (<[un_mission_id u := m <| mi_revision := un_revision u |>]> (db_missions d))
             (db_revisions d ++ [(un_revision_id u, un_row u)]) tasks)
         end
  end.
Definition perform (R : Type) (o : gop R) (fresh : string) (d : Db) : result R * Db :=
  match o in gop R return result R * Db with
  | GetMission id => (Ok (db_missions d !! id), d)
  | GetTask id => (Ok (db_tasks d !! id), d)
  | NewRevisionId => (Ok fresh, d)
  | AddMission id row =>
    match db_missions d !! id with Some _ => (Err (IntegrityError id), d) | None => (Ok tt, d <| db_missions ::= <[id := row]> |>) end
  | Commit u => flush u d
  end.

(** ** Revisions of a mission *)
Definition revisions_of (m : string) (d : Db) : list (Z * Z) :=
  (λ kr, (gr_revision kr.2, gr_based_on_revision kr.2)) <$> List.filter (λ kr : string * GraphRevisionRow, bool_decide (gr_mission_id kr.2 = m)) (db_revisions d).
(** [n] consecutive revisions after [r0]. *)
Definition consecutive (r0 : Z) (n : nat) : list (Z * Z) := (λ i : nat, (r0 + Z.of_nat i + 1, r0 + Z.of_nat i)) <$> seq 0 n.
(** The revisions of every mission are consecutive and end with the mission's own. *)
Definition serial (d : Db) : Prop :=
  (∀ m row, db_missions d !! m = Some row → ∃ r0 n, revisions_of m d = consecutive r0 n ∧ mi_revision row = r0 + Z.of_nat n)
  ∧ ∀ m, db_missions d !! m = None → revisions_of m d = [].

Abbreviation history := (list (event gop)).
Definition mission_read (ev : event gop) : option (string * MissionRow) :=
  match ev with Ev R o r => match o in gop R return result R → option (string * MissionRow) with
    | GetMission id => λ r, match r with Ok (Some row) => Some (id, row) | _ => None end
    | _ => λ _, None end r end.
(** What a commit writes, it based on the revision it had read. *)
Definition based (h : history) (R : Type) (o : gop R) : Prop :=
  match o with
  | Commit u => ∃ ev row, ev ∈ h ∧ mission_read ev = Some (un_mission_id u, row) ∧ un_revision u = mi_revision row + 1
      ∧ gr_mission_id (un_row u) = un_mission_id u ∧ gr_revision (un_row u) = un_revision u ∧ gr_based_on_revision (un_row u) = mi_revision row
  | _ => True
  end.
(** A revision that the mission had at some time. *)
Definition had (d : Db) (m : string) (r : Z) : Prop :=
  ∃ row, db_missions d !! m = Some row ∧ mi_revision row - Z.of_nat (length (revisions_of m d)) <= r <= mi_revision row.
Definition reads_had (d : Db) (h : history) : Prop := ∀ ev m row, ev ∈ h → mission_read ev = Some (m, row) → had d m (mi_revision row).

Lemma consecutive_S r0 n : consecutive r0 (S n) = consecutive r0 n ++ [(r0 + Z.of_nat n + 1, r0 + Z.of_nat n)].
Proof. unfold consecutive. by rewrite seq_S, fmap_app. Qed.
Lemma consecutive_elem r0 n r b : (r, b) ∈ consecutive r0 n ↔ r = b + 1 ∧ r0 <= b < r0 + Z.of_nat n.
Proof.
  unfold consecutive. rewrite list_elem_of_fmap. split.
  - intros (i & [= -> ->] & Hi%elem_of_seq). lia.
  - intros [-> Hb]. exists (Z.to_nat (b - r0)). split; [f_equal; lia|apply elem_of_seq; lia].
Qed.
Lemma revisions_of_app m d rs ms ts : revisions_of m (mkDb ms (db_revisions d ++ rs) ts) =
  revisions_of m d ++ ((λ kr, (gr_revision kr.2, gr_based_on_revision kr.2)) <$> List.filter (λ kr : string * GraphRevisionRow, bool_decide (gr_mission_id kr.2 = m)) rs).
Proof. unfold revisions_of. cbn. by rewrite List.filter_app, fmap_app. Qed.

(** A flush that succeeds adds the next revision of its mission. *)
Lemma flush_Ok u d d' : flush u d = (Ok tt, d') → gr_mission_id (un_row u) = un_mission_id u → gr_revision (un_row u) = un_revision u →
  ∃ row ts, db_missions d !! un_mission_id u = Some row ∧ (∀ b, (un_revision u, b) ∉ revisions_of (un_mission_id u) d)
  ∧ d' = mkDb (<[un_mission_id u := row <| mi_revision := un_revision u |>]> (db_missions d)) (db_revisions d ++ [(un_revision_id u, un_row u)]) ts.
Proof.
  unfold flush. intros Hf Hm Hr. destruct (db_missions d !! un_mission_id u) as [row|] eqn:Hrow; [|done].
  destruct (existsb _ _) eqn:Hex; [done|]. destruct (write_tasks _ _) as [ts|]; [|done]. injection Hf as <-. exists row, ts. split_and!; [done| |done].
  intros b Hb. apply list_elem_of_fmap in Hb as (kr & [= Heq _] & Hkr%list_elem_of_In%filter_In). destruct Hkr as [Hin Hmi].
  rewrite <- not_true_iff_false, existsb_exists in Hex. apply Hex. exists kr. split; [done|]. apply orb_true_iff. right.
  rewrite Hmi, <- Heq. by rewrite Z.eqb_refl.
Qed.
Lemma flush_Err u d e d' : flush u d = (Err e, d') → d' = d.
Proof. unfold flush. repeat case_match; by intros [= _ <-]. Qed.

Lemma revisions_of_flush m u d row ts : gr_mission_id (un_row u) = un_mission_id u →
  revisions_of m (mkDb (<[un_mission_id u := row]> (db_missions d)) (db_revisions d ++ [(un_revision_id u, un_row u)]) ts) =
  revisions_of m d ++ (if bool_decide (un_mission_id u = m) then [(gr_revision (un_row u), gr_based_on_revision (un_row u))] else []).
Proof. intros Hm. rewrite revisions_of_app. cbn. rewrite Hm. by case_bool_decide. Qed.
(** What a perform does to the revisions and to what had been read. *)
Record keeps_serial (d d' : Db) : Prop := { ks_serial : serial d'; ks_had : ∀ m r, had d m r → had d' m r }.
Lemma perform_keeps h R o i d r d' : serial d → reads_had d h → based h R o → perform R o i d = (r, d') → keeps_serial d d' ∧ reads_had d' (Ev R o r :: h).
Proof.
  intros Hs Hh Hb Hp. assert (keeps_serial d d') as Hk.
  { destruct o as [id|id| |id row|u]; cbn in Hp; try (by injection Hp as _ <-; by split).
    - destruct (db_missions d !! id) as [old|] eqn:Hold; injection Hp as _ <-; [by split|]. destruct Hs as [Hs Hnone]. split.
      + split; cbn; [|intros m [Hm _]%lookup_insert_None; by apply Hnone].
        intros m row' [[<- <-]|[Hne Hm]]%lookup_insert_Some; [|by apply Hs]. exists (mi_revision row), 0%nat. split; [|lia]. by apply Hnone.
      + intros m r' (row' & Hm & Hr). exists row'. split; [|done]. cbn. rewrite lookup_insert_ne; [done|]. intros ->. congruence.
    - destruct Hb as (ev & row & Hev & Hread & Hrev & Hm & Hr & Hbase). destruct r as [[]|e]; [|apply flush_Err in Hp as ->; by split].
      apply flush_Ok in Hp as (cur & ts & Hcur & Hnew & ->); [|done..]. destruct (Hh _ _ _ Hev Hread) as (cur' & Hcur' & Hle).
      rewrite Hcur in Hcur'. injection Hcur' as <-. destruct Hs as [Hs Hnone]. destruct (Hs _ _ Hcur) as (r0 & n & Hrevs & Hrn).
      rewrite Hrevs in *. unfold consecutive in Hle. rewrite length_fmap, length_seq in Hle.
      assert (mi_revision row = r0 + Z.of_nat n) as Heq.
      { destruct (decide (mi_revision row = r0 + Z.of_nat n)); [done|]. destruct (Hnew (mi_revision row)). apply consecutive_elem. lia. }
      split.
      + split; cbn [db_missions].
        * intros m row'. rewrite revisions_of_flush by done. intros [[<- <-]|[Hne Hm']]%lookup_insert_Some.
          -- exists r0, (S n). rewrite bool_decide_true, Hrevs, consecutive_S by done. split; [do 2 f_equal; f_equal; lia|cbn; lia].
          -- rewrite bool_decide_false, app_nil_r by done. by apply Hs.
        * intros m [Hm' Hne]%lookup_insert_None. rewrite revisions_of_flush by done. rewrite bool_decide_false, app_nil_r by done. by apply Hnone.
      + intros m r' (row' & Hm' & Hr'). unfold had. cbn [db_missions]. destruct (decide (un_mission_id u = m)) as [<-|Hne].
        * rewrite Hcur in Hm'. injection Hm' as <-. exists (cur <| mi_revision := un_revision u |>). rewrite lookup_insert_eq. split; [done|].
          rewrite revisions_of_flush, bool_decide_true, length_app by done. cbn. lia.
        * exists row'. rewrite lookup_insert_ne by done. split; [done|]. by rewrite revisions_of_flush, bool_decide_false, app_nil_r by done. }
  split; [done|]. intros ev m row [->|Hev]%elem_of_cons Hread; [|by eapply (ks_had _ _ Hk), Hh].
  destruct o as [id|id| |id row'|u]; cbn in Hread; try done. cbn in Hp. injection Hp as <- <-.
  destruct (db_missions d !! id) as [row'|] eqn:Hm; [|done]. injection Hread as <- <-. exists row'. split; [done|]. lia.
Qed.

(** ** Sessions *)
Section sessions.
Context (dump_mission : Mission → json) (dump_task : TaskSpec → json) (dump_proposal : GraphProposal → json) (author_session_id rationale_summary : GraphProposal → string).
Abbreviation commit := (commit_graph_revision dump_task dump_proposal author_session_id rationale_summary).
Inductive session : G () → Prop :=
  | session_insert m : session (insert dump_mission m)
  | session_commit p : session (commit p;; mret ()).

Lemma allowed_upserts specs n h ws Q : (∀ h' ws, h `suffix_of` h' → Q h' (Ok ws)) → (∀ h' e, Q h' (Err e)) →
  allowed based h (upsert_tasks dump_task specs n ws) Q.
Proof.
  revert h ws. induction specs as [|t specs IH]; intros h ws HQ He; cbn [upsert_tasks]; [by apply allowed_done, HQ|].
  apply allowed_bind. unfold _upsert_task. destruct (loaded _ _) as [[old new]|]; [by apply allowed_done, IH|].
  apply allowed_bind, allowed_call; [done|]. intros [r|e]; [|by apply He]. apply allowed_done, IH; [|done].
  intros h' ws' Hs. apply HQ. etrans; [|exact Hs]. by apply suffix_cons_r.
Qed.
Lemma session_based p : session p → keeps based (Thread [] p).
Proof.
  intros [m|g]; [by apply allowed_call|]. unfold keeps. cbn [th_history th_prog]. apply allowed_bind. unfold commit_graph_revision.
  apply allowed_bind, allowed_call; [done|]. intros [o|e]; [|done]. apply allowed_bind, allowed_require; [done|]. intros mission Hm. subst o.
  apply allowed_bind, allowed_raise_if; [done|]. intros Hrev%negb_false_iff%Z.eqb_eq. cbv zeta.
  apply allowed_bind, allowed_call; [done|]. intros [id|e]; [|done]. apply allowed_bind, allowed_upserts; [|done]. intros h ws Hs.
  apply allowed_bind, allowed_call; [|by intros [[]|e]]. exists (Ev _ (GetMission (gp_mission_id g)) (Ok (Some mission))), mission.
  split_and!; try done. destruct Hs as [l ->]. apply elem_of_app. right. right. by left.
Qed.

Definition sound (c : Db * list (thread gop)) : Prop :=
  serial c.1 ∧ Forall (keeps based) c.2 ∧ Forall (λ t, reads_had c.1 (th_history t)) c.2.
Lemma sound_step c c' : pool_step perform session c c' → sound c → sound c'.
Proof.
  intros Hstep (Hs & Hk & Hr). assert (Forall (keeps based) c'.2) as Hk' by (by eapply (pool_keeps perform based session); [apply session_based| |]).
  destruct Hstep as [d ts p Hp|d ts i h R o k inp r d' Hi Hop]; cbn in *.
  - split_and!; [done..|]. apply Forall_app. split; [done|]. apply Forall_singleton. by intros ev m row Hev%elem_of_nil.
  - pose proof (Forall_lookup_1 _ _ _ _ Hk Hi) as [Hb _]. pose proof (Forall_lookup_1 _ _ _ _ Hr Hi) as Hh. cbn in Hh.
    destruct (perform_keeps h R o inp d r d' Hs Hh Hb Hop) as [[Hs' Hhad] Hh']. split_and!; [done..|]. apply Forall_insert; [|done].
    eapply Forall_impl; [exact Hr|]. intros t Ht ev m row Hev Hread. by eapply Hhad, Ht.
Qed.

(** C19: Whatever sessions insert missions and commit graph proposals on an empty database, and however
    their reads and commits interleave, the revisions of a mission are consecutive, each based on the
    one before, and the last of them is the mission's: of two commits on one revision at most one succeeds. *)
Theorem graph_revisions_are_serial d ts m row : rtc (pool_step perform session) (mkDb ∅ [] ∅, []) (d, ts) → db_missions d !! m = Some row →
  ∃ r0 n, revisions_of m d = consecutive r0 n ∧ mi_revision row = r0 + Z.of_nat n.
Proof.
  intros Hsteps Hm. assert (sound (d, ts)) as [[Hs _] _]; [|by apply Hs].
  eapply (rtc_ind_r sound); [|by intros c c' _ Hc; apply sound_step|exact Hsteps].
  split_and!; [|constructor..]. split; [done|]. intros m' _. done.
Qed.
End sessions.

(** ** Concrete sessions *)
Module RevisionsSample.
Definition mission : Mission := demo_mission.
Definition spec (id : string) : TaskSpec := demo_task id "2026" "code" 10 [] TaskStatus.READY.
Definition proposal (based : Z) (specs : list TaskSpec) : GraphProposal := mkGraphProposal "gp_1" (ms_id mission) based GraphOperation.SPAWN specs.
Definition no_dump {A} (_ : A) : json := JNull.
Definition author (_ : GraphProposal) : string := "as_1".
Abbreviation commits p := (commit_graph_revision no_dump no_dump author author p).
Definition added : Db := mkDb {[ ms_id mission := mission_row no_dump mission ]} [] ∅.
Definition commit_run := run perform (λ _, "gr_1") [] (commits (proposal 1 [spec "t1"]);; mret ()) added.
Definition insert_run := run perform (λ _, "") [] (insert no_dump mission) (mkDb ∅ [] ∅).
Definition committed : Db := commit_run.2.
Abbreviation reachable c := (∃ ts, rtc (pool_step perform (session no_dump no_dump no_dump author author)) (mkDb ∅ [] ∅, []) (c, ts)).

Lemma committed_reachable : reachable committed.
Proof.
  exists ([Thread insert_run.1.2 (Done insert_run.1.1)] ++ [Thread commit_run.1.2 (Done commit_run.1.1)]). transitivity (added, [Thread insert_run.1.2 (Done insert_run.1.1)]).
  - eapply (run_launched perform _ (λ _, "") (insert no_dump mission) _ []); [exact (session_insert _ _ _ _ _ mission)|reflexivity].
  - eapply (run_launched perform _ (λ _, "gr_1")); [exact (session_commit _ _ _ _ _ (proposal 1 [spec "t1"]))|].
    fold commit_run. unfold committed. by destruct commit_run as [[r h] w'].
Qed.
Lemma graph_revisions_are_serial_witness : ∃ row, db_missions committed !! "m1" = Some row ∧ mi_revision row = 2 ∧ revisions_of "m1" committed = [(2, 1)]
  ∧ ∃ r0 n, [(2, 1)] = consecutive r0 n ∧ mi_revision row = r0 + Z.of_nat n.
Proof.
  assert (revisions_of "m1" committed = [(2, 1)]) as Hr by (vm_compute; reflexivity).
  assert (∃ row, db_missions committed !! "m1" = Some row ∧ mi_revision row = 2) as (row & Hm & H2) by (eexists; split; vm_compute; reflexivity).
  exists row. split; [exact Hm|]. split; [exact H2|]. split; [exact Hr|]. rewrite <- Hr. destruct committed_reachable as [ts Hts].
  exact (graph_revisions_are_serial no_dump no_dump no_dump author author committed ts "m1" row Hts Hm).
Defined.

(** Two sessions that both read revision 1: the second flush violates the constraint and changes nothing. *)
Definition unit_of (id task : string) : Unit :=
  mkUnit "m1" 2 id (mkGraphRevisionRow "m1" 2 1 "as_1" "spawn" "why" JNull) [AddTask task (new_task no_dump (spec task) 2)].
Example second_commit_fails : (flush (unit_of "gr_1" "t1") added).1 = Ok tt
  ∧ flush (unit_of "gr_2" "t2") (flush (unit_of "gr_1" "t1") added).2 = (Err (IntegrityError "uq_graph_mission_revision"), (flush (unit_of "gr_1" "t1") added).2).
Proof. vm_compute. by split. Qed.

(** A proposal that names a task of another mission changes that task. *)
Definition other : Mission := mission <| ms_id := "m2" |>.
Definition both : Db := committed <| db_missions ::= <["m2" := mission_row no_dump other]> |>.
Definition takeover : GraphProposal := mkGraphProposal "gp_2" "m2" 1 GraphOperation.SPAWN [(spec "t1") <| ts_mission_id := "m2" |> <| ts_objective := "replaced" |>].
Example commits_change_tasks_of_other_missions :
  let d := (run perform (λ _, "gr_2") [] (commits takeover) both).2 in
  (λ t, (tr_mission_id t, tr_objective t)) <$> (db_tasks both !! "t1") = Some ("m1", "do t1")
  ∧ (λ t, (tr_mission_id t, tr_objective t)) <$> (db_tasks d !! "t1") = Some ("m1", "replaced").
Proof. vm_compute. by split. Qed.
End RevisionsSample.
