(* ===== verification/Outbox.v ===== *)
(** * Outbox: delivering outbox rows, and reading events

    [OutboxRepository] and [EventRepository] of db/repositories.py and [OutboxPublisher] of
    db/outbox.py.  A table is the list of its rows as they were inserted; a stable workflow id
    is unique (uq_outbox_workflow_id), an event's dedupe key too (uq_event_dedupe).

    [drain] claims rows, hands each to the enqueue function and marks it; what it marked is
    written when its session commits, since sessions do not flush on their own (db/engine.py).
    Other sessions run in between: [ostep] interleaves claims, single deliveries, commits and lost
    sessions, with the rows of an open session locked and skipped by the claims of the others.  A
    session may drain any number of times before it commits; its own rows are still pending in the
    table, so that a further drain claims and delivers them again ([o_again]).

    [deliveries_are_accounted]: every successful delivery is that of a published row, of a row
    an open session holds, of a session that was lost, or one that its session tried again.  [event_pages_cover]: reading events
    page by page gives each of them once if no two have the same time.  The concrete runs show
    rows that are delivered twice by one session, rows that are never claimed, and events that
    are skipped. *)
From S2P Require Import Prelude Collections Contracts Json.
Open Scope Z_scope.

(** ** Outbox rows *)
Record OutboxRow := mkOutboxRow {
  ob_id : string;
  ob_stable_workflow_id : string;
  ob_aggregate_type : string;
  ob_aggregate_id : string;
  ob_event_type : string;
  ob_payload : dict json;
  ob_status : string;
  ob_attempts : Z;
  ob_last_error : option string;
  ob_created_at : Z;
  ob_published_at : option Z
}.
#[export] Instance eta_OutboxRow : Eta OutboxRow := λ r,
  mkOutboxRow (ob_id r) (ob_stable_workflow_id r) (ob_aggregate_type r) (ob_aggregate_id r) (ob_event_type r) (ob_payload r) (ob_status r)
    (ob_attempts r) (ob_last_error r) (ob_created_at r) (ob_published_at r).
Abbreviation table := (list OutboxRow).

(** [session.add] of a new row and the flush. *)
Definition enqueue (id stable_workflow_id aggregate_type aggregate_id event_type : string) (payload : dict json) (created_at : Z) : M table OutboxRow :=
  t ← get_state;
  raise_if (existsb (λ r, bool_decide (ob_id r = id) || bool_decide (ob_stable_workflow_id r = stable_workflow_id)) t) (IntegrityError "uq_outbox_workflow_id");;
  let row := mkOutboxRow id stable_workflow_id aggregate_type aggregate_id event_type payload "pending" 0 None created_at None in
  put_state (t ++ [row]);;
  mret row.
Definition pending (r : OutboxRow) : bool := bool_decide (ob_status r = "pending").
Definition published (r : OutboxRow) : bool := bool_decide (ob_status r = "published").
(** [locked]: the ids of rows that other sessions have claimed. *)
Definition claim_pending (limit : nat) (locked : list string) (t : table) : list OutboxRow :=
  take limit (sort_by (λ a b, ob_created_at a <=? ob_created_at b) (List.filter (λ r, pending r && negb (bool_decide (ob_id r ∈ locked))) t)).
Definition mark_published (now : Z) (r : OutboxRow) : OutboxRow := r <| ob_status := "published" |> <| ob_published_at := Some now |>.
Definition mark_failed (error : string) (r : OutboxRow) : OutboxRow :=
  r <| ob_status := "pending" |> <| ob_attempts := ob_attempts r + 1 |> <| ob_last_error := Some error |>.

(** ** The publisher *)
(** What the enqueue function did with one row. *)
Definition settle_row (outcome : result ()) (now : Z) (r : OutboxRow) : OutboxRow :=
  match outcome with Ok _ => mark_published now r | Err e => mark_failed (exn_message e) r end.
(** A session: what the database says, the objects it has loaded, and the publisher's list. *)
Record Session := mkSession { se_table : table; se_objects : table; se_published : list string }.
#[export] Instance eta_Session : Eta Session := λ s, mkSession (se_table s) (se_objects s) (se_published s).
Definition object_of (s : Session) (r : OutboxRow) : OutboxRow := default r (List.find (λ o, bool_decide (ob_id o = ob_id r)) (se_objects s)).
Definition set_object (o : OutboxRow) (objects : table) : table :=
  if existsb (λ o', bool_decide (ob_id o' = ob_id o)) objects then (λ o', if bool_decide (ob_id o' = ob_id o) then o else o') <$> objects else objects ++ [o].
(** [_enqueue] is a function of the row that may change a state of its own. *)
Section publisher.
Context {E : Type} (_enqueue : string → dict json → M E ()).
Fixpoint publish_all (now : Z) (rows : list OutboxRow) (count : Z) : M (Session * E) Z :=
  match rows with
  | [] => mret count
  | row :: rest => λ '(s, e),
    let o := object_of s row in
    let '(outcome, e) := _enqueue (ob_stable_workflow_id o) (ob_payload o) e in
    let s := s <| se_objects ::= set_object (settle_row outcome now o) |> in
    match outcome with
    | Ok _ => publish_all now rest (count + 1) (s <| se_published ::= λ l, l ++ [ob_stable_workflow_id o] |>, e)
    | Err _ => publish_all now rest count (s, e)
    end
  end.
Definition drain (now : Z) (limit : nat) (locked : list string) : M (Session * E) Z := λ '(s, e),
  publish_all now (claim_pending limit locked (se_table s)) 0 (s, e).
End publisher.

(** ** Sessions that interleave *)
(** The commit writes the changed objects. *)
Definition write_row (o : OutboxRow) (t : table) : table := (λ r, if bool_decide (ob_id r = ob_id o) then o else r) <$> t.
Definition write_rows (objects : list OutboxRow) (t : table) : table := foldr write_row t objects.
(** An open session: the rows it has settled and those it has still to deliver. *)
Abbreviation open_session := (list OutboxRow * list OutboxRow)%type.
Record Outbox := mkOutbox {
  os_table : table;
  os_sessions : list open_session;
  os_log : list string;      (** workflow ids the enqueue function took *)
  os_lost : list string;     (** of these, those a lost session had taken *)
  os_again : list string     (** and those that the same session tried once more *)
}.
Definition held (ss : list open_session) : list OutboxRow := ss ≫= λ s, s.1 ++ s.2.
Definition workflows (rows : list OutboxRow) : list string := ob_stable_workflow_id <$> List.filter published rows.
(** The rows a session has not settled yet. *)
Definition unseen (done rows : list OutboxRow) : list OutboxRow := List.filter (λ r, negb (bool_decide (ob_id r ∈ ob_id <$> done))) rows.
Inductive ostep : Outbox → Outbox → Prop :=
  | o_enqueue t ss log lost again id wf ty ag ev payload at_ r t' : enqueue id wf ty ag ev payload at_ t = (Ok r, t') →
      ostep (mkOutbox t ss log lost again) (mkOutbox t' ss log lost again)
  | o_claim t ss log lost again limit :
      ostep (mkOutbox t ss log lost again) (mkOutbox t (ss ++ [([], claim_pending limit (ob_id <$> held ss) t)]) log lost again)
  | o_claim_more t ss1 ss2 log lost again done limit :
      ostep (mkOutbox t (ss1 ++ (done, []) :: ss2) log lost again)
            (mkOutbox t (ss1 ++ (done, unseen done (claim_pending limit (ob_id <$> held (ss1 ++ ss2)) t)) :: ss2) log lost again)
  | o_deliver t ss1 ss2 log lost again done r todo now :
      ostep (mkOutbox t (ss1 ++ (done, r :: todo) :: ss2) log lost again)
            (mkOutbox t (ss1 ++ (done ++ [settle_row (Ok tt) now r], todo) :: ss2) (log ++ [ob_stable_workflow_id r]) lost again)
  | o_refuse t ss1 ss2 log lost again done r todo now e :
      ostep (mkOutbox t (ss1 ++ (done, r :: todo) :: ss2) log lost again)
            (mkOutbox t (ss1 ++ (done ++ [settle_row (Err e) now r], todo) :: ss2) log lost again)
  | o_again t ss1 ss2 log lost again done1 o done2 todo now outcome :
      ostep (mkOutbox t (ss1 ++ (done1 ++ o :: done2, todo) :: ss2) log lost again)
            (mkOutbox t (ss1 ++ (done1 ++ settle_row outcome now o :: done2, todo) :: ss2)
               (log ++ workflows [settle_row outcome now o]) lost (again ++ workflows [o]))
  | o_commit t ss1 ss2 log lost again done :
      ostep (mkOutbox t (ss1 ++ (done, []) :: ss2) log lost again) (mkOutbox (write_rows done t) (ss1 ++ ss2) log lost again)
  | o_lose t ss1 ss2 log lost again done todo :
      ostep (mkOutbox t (ss1 ++ (done, todo) :: ss2) log lost again) (mkOutbox t (ss1 ++ ss2) log (lost ++ workflows done) again).
Definition empty_outbox : Outbox := mkOutbox [] [] [] [] [].

(** ** What the steps keep *)
Definition same_row (a b : OutboxRow) : Prop := ob_id a = ob_id b ∧ ob_stable_workflow_id a = ob_stable_workflow_id b.
(** [o] is the object of a pending row of the table. *)
Definition row_of (t : table) (o : OutboxRow) : Prop := ∃ r, r ∈ t ∧ pending r = true ∧ same_row r o.
Record accounted (o : Outbox) : Prop := {
  ac_ids : NoDup (ob_id <$> os_table o);
  ac_workflows : NoDup (ob_stable_workflow_id <$> os_table o);
  ac_held : NoDup (ob_id <$> held (os_sessions o));
  ac_done : ∀ s r, s ∈ os_sessions o → r ∈ s.1 → row_of (os_table o) r;
  ac_todo : ∀ s r, s ∈ os_sessions o → r ∈ s.2 → r ∈ os_table o ∧ pending r = true;
  ac_log : os_log o ≡ₚ workflows (os_table o) ++ (os_sessions o ≫= λ s, workflows s.1) ++ os_lost o ++ os_again o
}.

Lemma workflows_app a b : workflows (a ++ b) = workflows a ++ workflows b.
Proof. unfold workflows. by rewrite List.filter_app, fmap_app. Qed.
Lemma settle_same outcome now r : same_row r (settle_row outcome now r).
Proof. by destruct outcome as [[]|e]. Qed.
Lemma workflows_ok now r : workflows [settle_row (Ok tt) now r] = [ob_stable_workflow_id r].
Proof. done. Qed.
Lemma workflows_err e now r : workflows [settle_row (Err e) now r] = [].
Proof. done. Qed.
Lemma pending_published r : pending r = true → published r = false.
Proof. unfold pending, published. intros ->%bool_decide_eq_true. done. Qed.
Lemma held_middle ss1 s ss2 : held (ss1 ++ s :: ss2) = held ss1 ++ (s.1 ++ s.2) ++ held ss2.
Proof. unfold held. by rewrite bind_app. Qed.
Lemma held_elem ss s r : s ∈ ss → r ∈ s.1 ++ s.2 → r ∈ held ss.
Proof. intros Hs Hr. apply list_elem_of_bind. by exists s. Qed.

Lemma claim_elem limit locked t r : r ∈ claim_pending limit locked t → r ∈ t ∧ pending r = true ∧ ob_id r ∉ locked.
Proof.
  unfold claim_pending. intros Hr%elem_of_take. destruct Hr as (i & Hr%list_elem_of_lookup_2 & _). apply elem_of_sort_by in Hr.
  apply list_elem_of_In, filter_In in Hr as [Hin%list_elem_of_In [Hp Hl]%andb_true_iff]. apply negb_true_iff, bool_decide_eq_false in Hl. done.
Qed.
Lemma claim_nodup limit locked t : NoDup (ob_id <$> t) → NoDup (ob_id <$> claim_pending limit locked t).
Proof.
  intros Hnd. unfold claim_pending. rewrite fmap_take. eapply sublist_NoDup; [|apply sublist_take]. rewrite (sort_by_perm _ _).
  clear limit. induction t as [|r t IH]; cbn; [constructor|]. apply NoDup_cons in Hnd as [Hr Hnd]. specialize (IH Hnd).
  destruct (pending r && _); [|done]. cbn. constructor; [|done]. intros (x & Heq & Hx%list_elem_of_In%filter_In)%list_elem_of_fmap.
  apply Hr. rewrite Heq. apply list_elem_of_fmap_2, list_elem_of_In, Hx.
Qed.

Lemma write_row_ids o t : ob_id <$> write_row o t = ob_id <$> t.
Proof. unfold write_row. rewrite <- list_fmap_compose. apply list_fmap_ext. intros i r _. cbn. by case_bool_decide. Qed.
Lemma write_rows_ids os t : ob_id <$> write_rows os t = ob_id <$> t.
Proof. induction os as [|o os IH]; [done|]. cbn. by rewrite write_row_ids. Qed.
Lemma write_rows_elem os t r : r ∈ t → ob_id r ∉ ob_id <$> os → r ∈ write_rows os t.
Proof.
  intros Hr. induction os as [|o os IH]; [done|]. cbn. intros [Hne Ho]%not_elem_of_cons. apply list_elem_of_fmap. exists r.
  rewrite bool_decide_false by done. split; [done|]. by apply IH.
Qed.
Lemma write_row_spec o t : NoDup (ob_id <$> t) → row_of t o →
  ob_stable_workflow_id <$> write_row o t = ob_stable_workflow_id <$> t ∧ workflows (write_row o t) ≡ₚ workflows [o] ++ workflows t.
Proof.
  intros Hnd (r & Hr & Hp & Hid & Hwf). apply list_elem_of_split in Hr as (t1 & t2 & ->). rewrite fmap_app, fmap_cons in Hnd.
  apply NoDup_app in Hnd as (_ & H1 & [H2 _]%NoDup_cons).
  assert (∀ l, ob_id r ∉ ob_id <$> l → write_row o l = l) as Hid'.
  { intros l Hl. unfold write_row. rewrite <- (list_fmap_id l) at 2. apply list_fmap_ext. intros i x Hx. rewrite bool_decide_false; [done|].
    intros Heq. apply Hl. rewrite Hid, <- Heq. apply list_elem_of_fmap_2. by eapply list_elem_of_lookup_2. }
  assert (write_row o (t1 ++ r :: t2) = t1 ++ o :: t2) as ->.
  { unfold write_row. rewrite fmap_app, fmap_cons, bool_decide_true by done. f_equal; [apply Hid'|f_equal; by apply Hid'].
    intros Hin. destruct (H1 _ Hin). by left. }
  rewrite !fmap_app, !fmap_cons, Hwf. split; [done|]. change (o :: t2) with ([o] ++ t2). change (r :: t2) with ([r] ++ t2).
  rewrite !workflows_app. assert (workflows [r] = []) as -> by (unfold workflows; cbn; by rewrite pending_published). solve_Permutation.
Qed.
Lemma write_rows_spec os t : NoDup (ob_id <$> t) → NoDup (ob_id <$> os) → (∀ o, o ∈ os → row_of t o) →
  ob_stable_workflow_id <$> write_rows os t = ob_stable_workflow_id <$> t ∧ workflows (write_rows os t) ≡ₚ workflows os ++ workflows t.
Proof.
  intros Hnd. induction os as [|o os IH]; intros Hos Hrow; [done|]. cbn [fmap list_fmap] in Hos. apply NoDup_cons in Hos as [Ho Hos].
  destruct IH as [Hw Hp]; [done|intros o' Ho'; apply Hrow; by right|]. cbn [write_rows foldr]. fold (write_rows os t).
  destruct (write_row_spec o (write_rows os t)) as [-> ->].
  - by rewrite write_rows_ids.
  - destruct (Hrow o ltac:(by left)) as (r & Hr & Hpe & Hid & Hwf). exists r. split; [|done]. apply write_rows_elem; [done|]. by rewrite Hid.
  - split; [done|]. rewrite Hp. change (o :: os) with ([o] ++ os). rewrite workflows_app. by rewrite (assoc_L (++)).
Qed.

Lemma row_of_app t t' o : row_of t o → row_of (t ++ t') o.
Proof. intros (r & Hr & H). exists r. split; [|done]. apply elem_of_app. by left. Qed.
Lemma middle_elem (s' s : open_session) (ss1 ss2 : list open_session) : s' ∈ ss1 ++ s :: ss2 ↔ s' = s ∨ s' ∈ ss1 ++ ss2.
Proof. rewrite !elem_of_app, elem_of_cons. tauto. Qed.
Lemma enqueue_Ok id wf ty ag ev payload at_ t r t' : enqueue id wf ty ag ev payload at_ t = (Ok r, t') →
  t' = t ++ [r] ∧ (ob_id r ∉ ob_id <$> t) ∧ (ob_stable_workflow_id r ∉ ob_stable_workflow_id <$> t) ∧ pending r = true.
Proof.
  unfold enqueue. intros H. run_inv. split; [done|].
  assert (∀ x, x ∈ t → ob_id x ≠ id ∧ ob_stable_workflow_id x ≠ wf) as Hx.
  { intros x Hx%list_elem_of_In. match goal with H : existsb _ _ = false |- _ => rewrite <- not_true_iff_false, existsb_exists in H; rename H into Hex end.
    split; intros Heq; apply Hex; exists x; (split; [done|]); apply orb_true_iff; [left|right]; by rewrite bool_decide_eq_true. }
  split_and!; [| |done]; (intros (x & Heq & Hin)%list_elem_of_fmap; destruct (Hx x Hin); cbn in *; congruence).
Qed.
Lemma NoDup_snoc {A} (x : A) l : NoDup l → x ∉ l → NoDup (l ++ [x]).
Proof. intros Hl Hx. apply NoDup_app. split_and!; [done|intros y Hy ->%list_elem_of_singleton; done|apply NoDup_singleton]. Qed.

(** A session settles the row it was about to deliver. *)
Lemma settled_row t ss1 ss2 log lost again done r todo outcome now delivered :
  accounted (mkOutbox t (ss1 ++ (done, r :: todo) :: ss2) log lost again) → workflows [settle_row outcome now r] = delivered →
  accounted (mkOutbox t (ss1 ++ (done ++ [settle_row outcome now r], todo) :: ss2) (log ++ delivered) lost again).
Proof.
  intros [Hids Hwfs Hheld Hdone Htodo Hlog] Hdel. cbn [os_table os_sessions os_log os_lost os_again] in *. split; cbn [os_table os_sessions os_log os_lost os_again]; try assumption.
  - rewrite held_middle in *. cbn [fst snd] in *. rewrite !fmap_app, fmap_cons in *. cbn [fmap list_fmap].
    replace (ob_id (settle_row outcome now r)) with (ob_id r) by apply settle_same. by rewrite <- !(assoc_L (++)) in *.
  - intros s x [->|Hs]%middle_elem; [|apply Hdone, middle_elem; by right]. cbn [fst]. intros [Hx| ->%list_elem_of_singleton]%elem_of_app.
    + apply (Hdone (done, r :: todo)); [apply middle_elem; by left|done].
    + destruct (Htodo (done, r :: todo) r) as [Hr Hp]; [apply middle_elem; by left|by left|]. exists r. split_and!; [done..|apply settle_same].
  - intros s x [->|Hs]%middle_elem Hx; [|eapply Htodo; [apply middle_elem; by right|done]].
    apply (Htodo (done, r :: todo)); [apply middle_elem; by left|by right].
  - rewrite Hlog, !bind_app, !bind_cons. cbn [fst]. rewrite workflows_app, Hdel. solve_Permutation.
Qed.
(** A session settles a row once more. *)
Lemma settled_again t ss1 ss2 log lost again done1 o done2 todo outcome now :
  accounted (mkOutbox t (ss1 ++ (done1 ++ o :: done2, todo) :: ss2) log lost again) →
  accounted (mkOutbox t (ss1 ++ (done1 ++ settle_row outcome now o :: done2, todo) :: ss2)
    (log ++ workflows [settle_row outcome now o]) lost (again ++ workflows [o])).
Proof.
  intros [Hids Hwfs Hheld Hdone Htodo Hlog]. cbn [os_table os_sessions os_log os_lost os_again] in *. split; cbn [os_table os_sessions os_log os_lost os_again]; try assumption.
  - rewrite held_middle in *. cbn [fst snd] in *. rewrite !fmap_app, !fmap_cons in *. by replace (ob_id (settle_row outcome now o)) with (ob_id o) by apply settle_same.
  - intros s x [->|Hs]%middle_elem; [|apply Hdone, middle_elem; by right]. cbn [fst].
    assert (∀ x, x ∈ done1 ++ o :: done2 → row_of t x) as Hrow by (intros; apply (Hdone (done1 ++ o :: done2, todo)); [apply middle_elem; by left|done]).
    intros [Hx|[->|Hx]%elem_of_cons]%elem_of_app; [apply Hrow, elem_of_app; by left| |apply Hrow, elem_of_app; right; by right].
    destruct (Hrow o) as (r & Hr & Hp & Hi & Hw); [apply elem_of_app; right; by left|]. exists r. split_and!; [done..|].
    destruct (settle_same outcome now o). split; congruence.
  - intros s x [->|Hs]%middle_elem Hx; [|eapply Htodo; [apply middle_elem; by right|done]].
    apply (Htodo (done1 ++ o :: done2, todo)); [apply middle_elem; by left|done].
  - rewrite Hlog, !bind_app, !bind_cons. cbn [fst]. change (o :: done2) with ([o] ++ done2).
    change (settle_row outcome now o :: done2) with ([settle_row outcome now o] ++ done2). rewrite !workflows_app. solve_Permutation.
Qed.
Lemma unseen_elem done rows r : r ∈ unseen done rows → r ∈ rows ∧ ob_id r ∉ ob_id <$> done.
Proof. unfold unseen. intros [Hr%list_elem_of_In H%negb_true_iff%bool_decide_eq_false]%list_elem_of_In%filter_In. done. Qed.
Lemma filter_sublist {A} (f : A → bool) l : List.filter f l `sublist_of` l.
Proof. induction l as [|x l IH]; [done|]. cbn. destruct (f x); by constructor. Qed.
Lemma unseen_nil rows : unseen [] rows = rows.
Proof. induction rows as [|r rows IH]; [done|]. change (unseen [] (r :: rows)) with (r :: unseen [] rows). by rewrite IH. Qed.
(** A session claims more rows; [done = []] is the first claim. *)
Lemma claimed_rows t ss1 ss2 log lost again done limit : accounted (mkOutbox t (ss1 ++ (done, []) :: ss2) log lost again) →
  accounted (mkOutbox t (ss1 ++ (done, unseen done (claim_pending limit (ob_id <$> held (ss1 ++ ss2)) t)) :: ss2) log lost again).
Proof.
  intros [Hids Hwfs Hheld Hdone Htodo Hlog]. cbn [os_table os_sessions os_log os_lost os_again] in *.
  set (rows := unseen done _).
  assert (∀ r, r ∈ rows → r ∈ t ∧ pending r = true ∧ (ob_id r ∉ ob_id <$> held (ss1 ++ ss2)) ∧ (ob_id r ∉ ob_id <$> done)) as Hrows.
  { intros r [(Hr & Hp & Hh)%claim_elem Hd]%unseen_elem. done. }
  assert (NoDup (ob_id <$> rows)) as Hnd.
  { eapply sublist_NoDup; [apply (claim_nodup limit (ob_id <$> held (ss1 ++ ss2)) t Hids)|]. apply fmap_sublist, filter_sublist. }
  split; cbn [os_table os_sessions os_log os_lost os_again]; try assumption.
  - rewrite held_middle in *. cbn [fst snd] in *. rewrite app_nil_r in Hheld.
    assert (ob_id <$> (held ss1 ++ (done ++ rows) ++ held ss2) ≡ₚ (ob_id <$> rows) ++ (ob_id <$> (held ss1 ++ done ++ held ss2))) as ->.
    { rewrite !fmap_app. solve_Permutation. }
    apply NoDup_app. split_and!; [done| |done]. intros i (r & -> & Hr)%list_elem_of_fmap Hin. destruct (Hrows r Hr) as (_ & _ & Hh & Hd).
    unfold held in Hh. rewrite bind_app in Hh. fold (held ss1) (held ss2) in Hh. rewrite !fmap_app in *. rewrite !elem_of_app in *. tauto.
  - intros s x [->|Hs]%middle_elem Hx; [|eapply Hdone; [apply middle_elem; by right|done]].
    apply (Hdone (done, [])); [apply middle_elem; by left|done].
  - intros s x [->|Hs]%middle_elem Hx; [|eapply Htodo; [apply middle_elem; by right|done]]. by destruct (Hrows x Hx) as (? & ? & _).
  - rewrite Hlog, !bind_app, !bind_cons. done.
Qed.
(** A session ends; [kept] is what its end leaves of the table. *)
Lemma ended_session t t' ss1 ss2 log lost lost' again done todo : accounted (mkOutbox t (ss1 ++ (done, todo) :: ss2) log lost again) →
  ob_id <$> t' = ob_id <$> t → ob_stable_workflow_id <$> t' = ob_stable_workflow_id <$> t →
  (∀ r, r ∈ t → ob_id r ∉ ob_id <$> (done ++ todo) → r ∈ t') → workflows t' ++ lost' ≡ₚ workflows done ++ workflows t ++ lost →
  accounted (mkOutbox t' (ss1 ++ ss2) log lost' again).
Proof.
  intros [Hids Hwfs Hheld Hdone Htodo Hlog] Hi Hw Hkept Hp. cbn in *. rewrite held_middle in Hheld. cbn [fst snd] in Hheld.
  assert (∀ s x, s ∈ ss1 ++ ss2 → x ∈ s.1 ++ s.2 → ob_id x ∉ ob_id <$> (done ++ todo)) as Hother.
  { intros s x Hs Hx Hin. rewrite !fmap_app in Hheld. apply (list_elem_of_fmap_2 ob_id) in Hx.
    assert (ob_id x ∈ (ob_id <$> held ss1) ++ (ob_id <$> held ss2)) as Hh.
    { rewrite <- fmap_app. apply list_elem_of_fmap in Hx as (y & -> & Hy). apply list_elem_of_fmap_2. unfold held. rewrite <- bind_app. by eapply held_elem. }
    rewrite <- fmap_app in Hheld. apply NoDup_app in Hheld as (_ & H1 & [_ [H2 _]]%NoDup_app). rewrite fmap_app in Hin.
    apply elem_of_app in Hh as [Hh|Hh]; [apply (H1 _ Hh); rewrite fmap_app; apply elem_of_app; by left|]. rewrite <- fmap_app in Hin. by apply (H2 _ Hin). }
  split; cbn.
  - by rewrite Hi.
  - by rewrite Hw.
  - unfold held. rewrite bind_app. fold (held ss1) (held ss2). eapply sublist_NoDup; [exact Hheld|]. apply fmap_sublist, sublist_app; [done|]. by apply sublist_inserts_l.
  - intros s x Hs Hx. destruct (Hdone s x ltac:(apply middle_elem; by right) Hx) as (r & Hr & Hpe & Hid & Hwf). exists r. split; [|done].
    apply Hkept; [done|]. rewrite Hid. apply (Hother s); [done|]. apply elem_of_app. by left.
  - intros s x Hs Hx. destruct (Htodo s x ltac:(apply middle_elem; by right) Hx) as [Hr Hpe]. split; [|done]. apply Hkept; [done|].
    apply (Hother s); [done|]. apply elem_of_app. by right.
  - rewrite Hlog, !bind_app, bind_cons. cbn [fst].
    transitivity ((workflows t' ++ lost') ++ (ss1 ≫= λ s, workflows s.1) ++ (ss2 ≫= λ s, workflows s.1) ++ again); [|solve_Permutation].
    rewrite Hp. solve_Permutation.
Qed.

Lemma accounted_step o o' : ostep o o' → accounted o → accounted o'.
Proof.
  intros Hstep Ha. destruct Hstep as [t ss log lost again id wf ty ag ev payload at_ r t' Hen|t ss log lost again limit
    |t ss1 ss2 log lost again done limit|t ss1 ss2 log lost again done r todo now|t ss1 ss2 log lost again done r todo now e
    |t ss1 ss2 log lost again done1 o done2 todo now outcome|t ss1 ss2 log lost again done|t ss1 ss2 log lost again done todo].
  - apply enqueue_Ok in Hen as (-> & Hid & Hwf & Hp). destruct Ha as [Hids Hwfs Hheld Hdone Htodo Hlog]. cbn [os_table os_sessions os_log os_lost os_again] in *.
    split; cbn [os_table os_sessions os_log os_lost os_again].
    + rewrite fmap_app. by apply NoDup_snoc.
    + rewrite fmap_app. by apply NoDup_snoc.
    + done.
    + intros s x Hs Hx. apply row_of_app. by eapply Hdone.
    + intros s x Hs Hx. destruct (Htodo s x Hs Hx) as [Hx' ?]. split; [|done]. apply elem_of_app. by left.
    + rewrite Hlog, workflows_app. assert (workflows [r] = []) as -> by (unfold workflows; cbn; by rewrite pending_published). by rewrite app_nil_r.
  - assert (accounted (mkOutbox t (ss ++ [([], [])]) log lost again)) as Ha'.
    { destruct Ha as [Hids Hwfs Hheld Hdone Htodo Hlog]. cbn [os_table os_sessions os_log os_lost os_again] in *.
      split; cbn [os_table os_sessions os_log os_lost os_again]; try assumption.
      - rewrite held_middle. cbn. by rewrite app_nil_r.
      - intros s x [Hs| ->%list_elem_of_singleton]%elem_of_app Hx; [by eapply Hdone|by apply elem_of_nil in Hx].
      - intros s x [Hs| ->%list_elem_of_singleton]%elem_of_app Hx; [by eapply Htodo|by apply elem_of_nil in Hx].
      - rewrite Hlog, bind_app. cbn [mbind list_bind fst app]. by rewrite app_nil_r. }
    apply (claimed_rows t ss [] log lost again [] limit) in Ha'. by rewrite app_nil_r, unseen_nil in Ha'.
  - by apply claimed_rows.
  - apply (settled_row t ss1 ss2 log lost again done r todo (Ok tt) now); [exact Ha|apply workflows_ok].
  - rewrite <- (app_nil_r log). apply (settled_row t ss1 ss2 log lost again done r todo (Err e) now []); [exact Ha|apply workflows_err].
  - by apply settled_again.
  - assert (∀ x, x ∈ done → row_of t x) as Hrow by (intros x Hx; apply (ac_done _ Ha (done, [])); [apply middle_elem; by left|done]).
    assert (NoDup (ob_id <$> done)) as Hd.
    { pose proof (ac_held _ Ha) as Hh. cbn [os_sessions] in Hh. rewrite held_middle, !fmap_app in Hh. cbn [fst snd] in Hh. by apply NoDup_app in Hh as (_ & _ & [[? _]%NoDup_app _]%NoDup_app). }
    destruct (write_rows_spec done t (ac_ids _ Ha) Hd Hrow) as [Hw Hp]. eapply ended_session; [exact Ha|apply write_rows_ids|exact Hw| |].
    + intros r Hr Hn. rewrite app_nil_r in Hn. by apply write_rows_elem.
    + by rewrite Hp, (assoc_L (++)).
  - eapply ended_session; [exact Ha|done..| ]. solve_Permutation.
Qed.
Lemma accounted_reachable o : rtc ostep empty_outbox o → accounted o.
Proof.
  intros Hsteps. eapply (rtc_ind_r accounted); [|by intros x y _ Hx; apply accounted_step|exact Hsteps]. split; cbn; [constructor..|by intros s r Hs%elem_of_nil|by intros s r Hs%elem_of_nil|done].
Qed.

(** Rows that differ have different keys. *)
Lemma unique_by {A} (f : A → string) l x y : NoDup (f <$> l) → x ∈ l → y ∈ l → f x = f y → x = y.
Proof.
  induction l as [|z l IH]; [by intros _ ?%elem_of_nil|]. cbn. intros [Hz Hnd]%NoDup_cons Hx Hy Heq.
  apply elem_of_cons in Hx as [->|Hx]; apply elem_of_cons in Hy as [->|Hy]; [done|destruct Hz..|by apply IH].
  - rewrite Heq. by apply list_elem_of_fmap_2.
  - rewrite <- Heq. by apply list_elem_of_fmap_2.
Qed.
Definition taken (o : Outbox) : list OutboxRow := List.filter published (os_table o) ++ (os_sessions o ≫= λ s, List.filter published s.1).
Lemma taken_workflows o : ob_stable_workflow_id <$> taken o = workflows (os_table o) ++ (os_sessions o ≫= λ s, workflows s.1).
Proof.
  unfold taken. rewrite fmap_app. unfold workflows at 1. f_equal. induction (os_sessions o) as [|s ss IH]; [done|]. cbn. by rewrite fmap_app, IH.
Qed.
Lemma taken_row o x : accounted o → x ∈ taken o → ∃ r, r ∈ os_table o ∧ same_row r x.
Proof.
  intros Ha [Hx|(s & Hx & Hs)%list_elem_of_bind]%elem_of_app; apply list_elem_of_In, filter_In in Hx as [Hx _]; apply list_elem_of_In in Hx.
  - by exists x.
  - destruct (ac_done _ Ha s x Hs Hx) as (r & Hr & _ & Hsame). by exists r.
Qed.
Lemma taken_ids o : accounted o → NoDup (ob_id <$> taken o).
Proof.
  intros Ha. unfold taken. rewrite fmap_app. apply NoDup_app. split_and!.
  - eapply sublist_NoDup; [apply (ac_ids _ Ha)|]. apply fmap_sublist, filter_sublist.
  - intros i (x & -> & Hx)%list_elem_of_fmap (y & Heq & (s & Hy & Hs)%list_elem_of_bind)%list_elem_of_fmap.
    apply list_elem_of_In, filter_In in Hx as [Hx%list_elem_of_In Hpx]. apply list_elem_of_In, filter_In in Hy as [Hy%list_elem_of_In _].
    destruct (ac_done _ Ha s y Hs Hy) as (r & Hr & Hpr & Hid & _). rewrite (unique_by _ _ r x (ac_ids _ Ha) Hr Hx) in Hpr by congruence.
    apply pending_published in Hpr. congruence.
  - eapply sublist_NoDup; [apply (ac_held _ Ha)|]. apply fmap_sublist. unfold held. clear Ha. induction (os_sessions o) as [|s ss IH]; [done|].
    cbn. apply sublist_app; [|done]. apply sublist_inserts_r, filter_sublist.
Qed.

(** C27: Whatever is enqueued, and however any number of sessions claim, once or more often, deliver,
    commit or are lost: what the enqueue function took is, each as often, the workflow of a published row,
    of a row that an open session delivered, of one that a lost session had delivered, or of one that its
    session had delivered and then tried again in a further drain before its commit. So while no session is
    lost and none drains its own rows again no workflow is delivered twice, and a published row was delivered. *)
Theorem deliveries_are_accounted o : rtc ostep empty_outbox o →
  os_log o ≡ₚ workflows (os_table o) ++ (os_sessions o ≫= λ s, workflows s.1) ++ os_lost o ++ os_again o
  ∧ (os_lost o = [] → os_again o = [] → NoDup (os_log o)) ∧ ∀ r, r ∈ os_table o → published r = true → ob_stable_workflow_id r ∈ os_log o.
Proof.
  intros Ha%accounted_reachable. pose proof (ac_log _ Ha) as Hlog. split_and!; [done| |].
  - intros Hl Hag. rewrite Hlog, Hl, Hag, app_nil_r, <- taken_workflows. apply NoDup_fmap_2_strong; [|eapply NoDup_fmap_1, taken_ids, Ha].
    intros x y Hx Hy Heq. destruct (taken_row _ _ Ha Hx) as (rx & Hrx & Hix & Hwx). destruct (taken_row _ _ Ha Hy) as (ry & Hry & Hiy & Hwy).
    apply (unique_by _ _ x y (taken_ids _ Ha) Hx Hy). rewrite <- Hix, <- Hiy. by rewrite (unique_by _ _ rx ry (ac_workflows _ Ha) Hrx Hry) by congruence.
  - intros r Hr Hp. rewrite Hlog. apply elem_of_app. left. apply list_elem_of_fmap_2, list_elem_of_In, filter_In. by rewrite <- list_elem_of_In.
Qed.

(** ** Events *)
Record EventRow := mkEventRow {
  er_id : string;
  er_project_id : string;
  er_type : string;
  er_actor : string;
  er_mission_id : option string;
  er_task_id : option string;
  er_attempt_id : option string;
  er_payload : dict json;
  er_causation_id : option string;
  er_correlation_id : option string;
  er_dedupe_key : option string;
  er_occurred_at : Z
}.
Definition append (e : EventRow) : M (list EventRow) EventRow :=
  t ← get_state;
  raise_if (existsb (λ r, bool_decide (er_id r = er_id e) || bool_decide (is_Some (er_dedupe_key e)) && bool_decide (er_dedupe_key r = er_dedupe_key e)) t)
    (IntegrityError "uq_event_dedupe");;
  put_state (t ++ [e]);;
  mret e.
Definition by_time (a b : EventRow) : bool := er_occurred_at a <=? er_occurred_at b.
Definition of_project (project_id : string) (t : list EventRow) : list EventRow := List.filter (λ r, bool_decide (er_project_id r = project_id)) t.
Definition later (anchor : option EventRow) (r : EventRow) : bool := match anchor with Some a => er_occurred_at a <? er_occurred_at r | None => true end.
Definition anchor_of (after_id : option string) (t : list EventRow) : option EventRow :=
  if truthy after_id then List.find (λ r, bool_decide (Some (er_id r) = after_id)) t else None.
Definition list_after (project_id : string) (after_id : option string) (limit : nat) (t : list EventRow) : list EventRow :=
  take limit (sort_by by_time (List.filter (later (anchor_of after_id t)) (of_project project_id t))).
(** A reader that asks for the events after the last it has seen, until there are none. *)
Fixpoint read_events (project_id : string) (limit : nat) (t : list EventRow) (fuel : nat) (after_id : option string) : list EventRow :=
  match fuel with
  | O => []
  | S fuel =>
    let page := list_after project_id after_id limit t in
    match last page with Some e => page ++ read_events project_id limit t fuel (Some (er_id e)) | None => [] end
  end.

Lemma by_time_total a b : by_time a b = true ∨ by_time b a = true.
Proof. unfold by_time. rewrite !Z.leb_le. lia. Qed.
Lemma by_time_trans a b c : by_time a b = true → by_time b c = true → by_time a c = true.
Proof. unfold by_time. rewrite !Z.leb_le. lia. Qed.
(** Filtering and sorting commute. *)
Lemma filter_insert_by f x l : StronglySorted (λ a b, by_time a b = true) l →
  List.filter f (insert_by by_time x l) = if f x then insert_by by_time x (List.filter f l) else List.filter f l.
Proof.
  induction 1 as [|y l Hl IH Hy]; cbn; [by destruct (f x)|]. destruct (by_time x y) eqn:Hxy; cbn.
  - destruct (f x); [|done]. destruct (f y); cbn; [by rewrite Hxy|]. clear IH Hl. induction Hy as [|z l Hz Hy IH]; cbn; [done|].
    destruct (f z); cbn; [|done]. by rewrite (by_time_trans x y z).
  - rewrite IH. destruct (f y), (f x); cbn; by rewrite ?Hxy.
Qed.
Lemma filter_sort_by f l : List.filter f (sort_by by_time l) = sort_by by_time (List.filter f l).
Proof.
  induction l as [|x l IH]; [done|]. cbn [sort_by List.filter]. rewrite filter_insert_by by (apply sort_by_sorted; [apply by_time_total|apply by_time_trans]).
  rewrite IH. by destruct (f x).
Qed.
Lemma find_event (t : list EventRow) e : NoDup (er_id <$> t) → e ∈ t → List.find (λ r, bool_decide (Some (er_id r) = Some (er_id e))) t = Some e.
Proof.
  intros Hnd He. destruct (List.find _ t) as [r|] eqn:Hf.
  - apply find_some in Hf as [Hr%list_elem_of_In [= Heq]%bool_decide_eq_true]. f_equal. by eapply unique_by.
  - apply list_elem_of_In in He. pose proof (find_none _ _ Hf e He) as Hn. cbv beta in Hn. by rewrite bool_decide_true in Hn.
Qed.
Lemma last_later a e b : StronglySorted (λ x y, er_occurred_at x < er_occurred_at y) (a ++ e :: b) → List.filter (later (Some e)) (a ++ e :: b) = b.
Proof.
  induction a as [|x a IH]; cbn; inversion 1 as [|? ? Hs Hx]; subst.
  - rewrite Z.ltb_irrefl. clear -Hx. induction Hx as [|y b Hy Hb IH]; [done|]. cbn. rewrite (proj2 (Z.ltb_lt _ _)) by done. by rewrite IH.
  - rewrite Forall_app in Hx. destruct Hx as [_ [Hlt _]%Forall_cons]. rewrite (proj2 (Z.ltb_ge _ _)) by lia. by apply IH.
Qed.

Section pages.
Context (project_id : string) (limit : nat) (t : list EventRow).
Hypothesis some_limit : limit ≠ 0%nat.
Hypothesis ids_distinct : NoDup (er_id <$> t).
Hypothesis ids_truthy : ∀ e, e ∈ t → er_id e ≠ "".
Hypothesis times_distinct : NoDup (er_occurred_at <$> of_project project_id t).
Definition all_events : list EventRow := sort_by by_time (of_project project_id t).

Lemma events_strict : StronglySorted (λ x y, er_occurred_at x < er_occurred_at y) all_events.
Proof.
  pose proof (sort_by_sorted by_time by_time_total by_time_trans (of_project project_id t)) as Hs. fold all_events in Hs.
  assert (NoDup (er_occurred_at <$> all_events)) as Hnd by (unfold all_events; by rewrite (sort_by_perm by_time)).
  induction Hs as [|x l Hl IH Hx]; [constructor|]. cbn in Hnd. apply NoDup_cons in Hnd as [Hn Hnd]. constructor; [by apply IH|].
  apply Forall_forall. intros y Hy. rewrite Forall_forall in Hx. pose proof (Hx y Hy) as Hle%Z.leb_le.
  assert (er_occurred_at x ≠ er_occurred_at y); [|lia]. intros Heq. apply Hn. rewrite Heq. by apply list_elem_of_fmap_2.
Qed.
Lemma page_after a e b : all_events = a ++ e :: b → list_after project_id (Some (er_id e)) limit t = take limit b.
Proof.
  intros Hall. assert (e ∈ t) as He.
  { assert (e ∈ all_events) as H by (rewrite Hall; apply elem_of_app; right; by left). apply elem_of_sort_by, list_elem_of_In, filter_In in H as [H _]. by apply list_elem_of_In. }
  unfold list_after, anchor_of. replace (truthy (Some (er_id e))) with true by (cbn; rewrite bool_decide_false; [done|by apply ids_truthy]).
  rewrite (find_event t e ids_distinct He), <- filter_sort_by. fold all_events. rewrite Hall, last_later; [done|]. rewrite <- Hall. apply events_strict.
Qed.
Lemma read_from fuel cursor rest : list_after project_id cursor limit t = take limit rest → (∃ a, all_events = a ++ rest) → (length rest < fuel)%nat →
  read_events project_id limit t fuel cursor = rest.
Proof.
  revert cursor rest. induction fuel as [|fuel IH]; intros cursor rest Hpage [a Ha] Hlen; [lia|]. cbn [read_events]. rewrite Hpage.
  destruct (last (take limit rest)) as [e|] eqn:Hl.
  - apply last_Some in Hl as [l' Hl']. rewrite <- (take_drop limit rest) at 2. f_equal. apply IH.
    + apply (page_after (a ++ l')). rewrite Ha. rewrite <- (take_drop limit rest) at 1. rewrite Hl'. by rewrite <- !(assoc_L (++)).
    + exists (a ++ take limit rest). by rewrite <- (assoc_L (++)), take_drop.
    + apply (f_equal length) in Hl'. rewrite length_take, length_app in Hl'. cbn in Hl'. rewrite length_drop. lia.
  - apply last_None in Hl. destruct limit; [done|]. by destruct rest.
Qed.
(** Reading a project's events page by page, each page after the last event of the one before, gives
    all of them, each once and by time, if their times are distinct; after any of them, those after it. *)
Theorem event_pages_cover : read_events project_id limit t (S (length t)) None = all_events
  ∧ ∀ a e b, all_events = a ++ e :: b → read_events project_id limit t (S (length t)) (Some (er_id e)) = b.
Proof.
  assert (length all_events <= length t)%nat as Hlen.
  { unfold all_events. rewrite length_sort_by. unfold of_project. clear. induction t as [|x l IH]; cbn; [lia|]. case_bool_decide; cbn; lia. }
  split.
  - apply read_from; [|by exists []|lia]. unfold list_after, all_events. do 2 f_equal. change (anchor_of None t) with (@None EventRow).
    assert (∀ l, List.filter (later None) l = l) as H; [|apply H]. induction l as [|x l IH]; [done|]. cbn. by rewrite IH.
  - intros a e b Hall. apply read_from; [by apply (page_after a)|exists (a ++ [e]); by rewrite <- (assoc_L (++))|]. rewrite Hall, length_app in Hlen. cbn in Hlen. lia.
Qed.
End pages.

(** ** A publisher that runs alone *)
Section alone.
Context {E : Type} (_enqueue : string → dict json → M E ()).
Lemma fresh_object (done : table) r : ob_id r ∉ ob_id <$> done → ∀ t pub o, ob_id o = ob_id r →
  object_of (mkSession t done pub) r = r ∧ set_object o done = done ++ [o].
Proof.
  intros Hr t pub o Ho. assert (∀ x, x ∈ done → ob_id x ≠ ob_id r) as Hne.
  { intros x Hx Heq. apply Hr. rewrite <- Heq. by apply list_elem_of_fmap_2. }
  unfold object_of, set_object. cbn [se_objects]. split.
  - destruct (List.find _ done) as [x|] eqn:Hf; [|done]. apply find_some in Hf as [Hx%list_elem_of_In Heq%bool_decide_eq_true]. by destruct (Hne x Hx).
  - destruct (existsb _ done) eqn:Hex; [|done]. apply existsb_exists in Hex as (x & Hx%list_elem_of_In & Heq%bool_decide_eq_true). rewrite Ho in Heq. by destruct (Hne x Hx).
Qed.
(** An object the session has already. *)
Lemma known_object done1 o done2 r : NoDup (ob_id <$> (done1 ++ o :: done2)) → ob_id o = ob_id r →
  ∀ t pub o', ob_id o' = ob_id r →
  object_of (mkSession t (done1 ++ o :: done2) pub) r = o ∧ set_object o' (done1 ++ o :: done2) = done1 ++ o' :: done2.
Proof.
  intros Hnd Ho t pub o' Ho'. rewrite fmap_app, fmap_cons in Hnd. apply NoDup_app in Hnd as (_ & H1 & [H2 _]%NoDup_cons).
  assert (∀ x, x ∈ done1 → ob_id x ≠ ob_id o) as Hne1.
  { intros x Hx Heq. apply (H1 (ob_id x)); [by apply list_elem_of_fmap_2|]. rewrite Heq. by left. }
  assert (∀ x, x ∈ done2 → ob_id x ≠ ob_id o) as Hne2.
  { intros x Hx Heq. apply H2. rewrite <- Heq. by apply list_elem_of_fmap_2. }
  assert (∀ l : table, (∀ x, x ∈ l → ob_id x ≠ ob_id o) → (λ x, if bool_decide (ob_id x = ob_id o') then o' else x) <$> l = l) as Hmap.
  { intros l Hl. rewrite <- (list_fmap_id l) at 2. apply list_fmap_ext. intros i x Hx%list_elem_of_lookup_2.
    rewrite bool_decide_false; [done|]. rewrite Ho', <- Ho. by apply Hl. }
  split.
  - unfold object_of. cbn [se_objects]. clear Hmap H1. induction done1 as [|x l IH]; cbn; [by rewrite bool_decide_true|].
    rewrite bool_decide_false; [|rewrite <- Ho; apply Hne1; by left]. apply IH. intros y Hy. apply Hne1. by right.
  - unfold set_object. replace (existsb _ _) with true.
    + rewrite fmap_app, fmap_cons, !Hmap, bool_decide_true by (done || congruence). done.
    + symmetry. apply existsb_exists. exists o. split; [apply list_elem_of_In, elem_of_app; right; by left|].
      rewrite bool_decide_eq_true. congruence.
Qed.
Lemma unseen_snoc done x rows : ob_id x ∉ ob_id <$> rows → unseen (done ++ [x]) rows = unseen done rows.
Proof.
  unfold unseen. induction rows as [|r rows IH]; [done|]. cbn. intros [Hr Hx]%not_elem_of_cons. rewrite IH by done.
  rewrite fmap_app. cbn. rewrite (bool_decide_ext (ob_id r ∈ (ob_id <$> done) ++ [ob_id x]) (ob_id r ∈ ob_id <$> done)); [done|].
  rewrite elem_of_app, list_elem_of_singleton. split; [intros [?|?]; [done|congruence]|by left].
Qed.
Lemma unseen_same done done' rows : ob_id <$> done' = ob_id <$> done → unseen done' rows = unseen done rows.
Proof. intros H. unfold unseen. by rewrite H. Qed.
Lemma settle_id outcome now r : ob_id (settle_row outcome now r) = ob_id r.
Proof. by destruct outcome as [[]|e]. Qed.

(** What a session delivers, tries again and counts as it works through the rows it claimed. *)
Lemma publish_all_steps now t ss1 ss2 lost rows done pub log again count e r s' e' :
  NoDup (ob_id <$> done) → NoDup (ob_id <$> rows) → publish_all _enqueue now rows count (mkSession t done pub, e) = (r, (s', e')) →
  ∃ sent more, se_published s' = pub ++ sent ∧ r = Ok (count + Z.of_nat (length sent)) ∧ se_table s' = t
  ∧ (unseen done rows = rows → more = [])
  ∧ rtc ostep (mkOutbox t (ss1 ++ (done, unseen done rows) :: ss2) log lost again)
      (mkOutbox t (ss1 ++ (se_objects s', []) :: ss2) (log ++ sent) lost (again ++ more)).
Proof.
  revert done pub log again count e. induction rows as [|row rows IH]; intros done pub log again count e Hd Hnd Hrun.
  { injection Hrun as <- <- <-. exists [], []. cbn. rewrite !app_nil_r. split_and!; [done|f_equal; lia|done|done|apply rtc_refl]. }
  cbn [fmap list_fmap] in Hnd. apply NoDup_cons in Hnd as [Hrow Hnd]. cbn [publish_all] in Hrun.
  destruct (decide (ob_id row ∈ ob_id <$> done)) as [Hin|Hr].
  - apply list_elem_of_fmap in Hin as (o & Ho & Hin). apply list_elem_of_split in Hin as (done1 & done2 & ->).
    assert (unseen (done1 ++ o :: done2) (row :: rows) = unseen (done1 ++ o :: done2) rows) as Hun.
    { unfold unseen. cbn [List.filter]. rewrite bool_decide_true; [done|]. rewrite fmap_app, fmap_cons, Ho. apply elem_of_app. right. by left. }
    rewrite Hun. pose proof (λ o' Ho', known_object done1 o done2 row Hd (eq_sym Ho) t pub o' Ho') as Hk.
    destruct (Hk o (eq_sym Ho)) as [Hobj _]. rewrite Hobj in Hrun.
    assert (unseen (done1 ++ o :: done2) rows ≠ row :: rows) as Hne.
    { intros Heq. pose proof (sublist_length _ _ (filter_sublist (λ r, negb (bool_decide (ob_id r ∈ ob_id <$> (done1 ++ o :: done2)))) rows)) as Hl.
      unfold unseen in Heq. rewrite Heq in Hl. cbn in Hl. lia. }
    destruct (_enqueue _ _ e) as [outcome e1].
    assert (ob_id <$> (done1 ++ settle_row outcome now o :: done2) = ob_id <$> (done1 ++ o :: done2)) as Hids
      by (by rewrite !fmap_app, !fmap_cons, settle_id).
    destruct (Hk (settle_row outcome now o)) as [_ Hset]; [by rewrite settle_id|].
    destruct outcome as [[]|x]; cbn -[settle_row] in Hrun; rewrite Hset in Hrun;
      (eapply IH in Hrun as (sent & more & -> & -> & Ht & _ & Hst); [|by rewrite Hids|done]; rewrite (unseen_same _ _ _ Hids) in Hst).
    + exists (ob_stable_workflow_id o :: sent), (workflows [o] ++ more).
      split_and!; [by rewrite <- (assoc_L (++))|f_equal; cbn [length]; lia|done|done|].
      eapply rtc_l; [apply (o_again _ _ _ _ _ _ _ _ _ _ now (Ok tt))|]. rewrite (assoc_L (++) again).
      replace (log ++ ob_stable_workflow_id o :: sent) with ((log ++ [ob_stable_workflow_id o]) ++ sent) by (by rewrite <- (assoc_L (++))).
      exact Hst.
    + exists sent, (workflows [o] ++ more). split_and!; [done..|].
      eapply rtc_l; [apply (o_again _ _ _ _ _ _ _ _ _ _ now (Err x))|]. rewrite workflows_err, app_nil_r, (assoc_L (++) again). exact Hst.
  - assert (unseen done (row :: rows) = row :: unseen done rows) as Hun by (unfold unseen; cbn [List.filter]; by rewrite bool_decide_false).
    rewrite Hun. pose proof (λ o Ho, fresh_object done row Hr t pub o Ho) as Hf. destruct (Hf row eq_refl) as [Hobj _]. rewrite Hobj in Hrun.
    assert (row :: unseen done rows = row :: rows → unseen done rows = rows) as Hall by (by intros [=]).
    destruct (_enqueue _ _ e) as [outcome e1]. destruct (Hf (settle_row outcome now row)) as [_ Hset]; [by rewrite settle_id|].
    assert (NoDup (ob_id <$> (done ++ [settle_row outcome now row]))) as Hd'.
    { rewrite fmap_app. cbn. rewrite settle_id. by apply NoDup_snoc. }
    assert (unseen (done ++ [settle_row outcome now row]) rows = unseen done rows) as Hun' by (apply unseen_snoc; by rewrite settle_id).
    destruct outcome as [[]|x]; cbn -[settle_row] in Hrun; rewrite Hset in Hrun;
      (eapply IH in Hrun as (sent & more & -> & -> & Ht & Hmore & Hst); [|exact Hd'|done]; rewrite Hun' in Hst, Hmore).
    + exists (ob_stable_workflow_id row :: sent), more. split_and!; [by rewrite <- (assoc_L (++))|f_equal; cbn [length]; lia|done|by auto|].
      eapply rtc_l; [apply o_deliver|].
      replace (log ++ ob_stable_workflow_id row :: sent) with ((log ++ [ob_stable_workflow_id row]) ++ sent) by (by rewrite <- (assoc_L (++))).
      exact Hst.
    + exists sent, more. split_and!; [done..|by auto|]. eapply rtc_l; [apply (o_refuse _ _ _ _ _ _ _ _ _ now x)|]. exact Hst.
Qed.
(** A drain in a session of its own returns how many it delivered, and with the commit it is a path of
    the steps. *)
Theorem drain_is_steps o now limit e r s' e' : accounted o →
  drain _enqueue now limit (ob_id <$> held (os_sessions o)) (mkSession (os_table o) [] [], e) = (r, (s', e')) →
  r = Ok (Z.of_nat (length (se_published s')))
  ∧ rtc ostep o (mkOutbox (write_rows (se_objects s') (os_table o)) (os_sessions o) (os_log o ++ se_published s') (os_lost o) (os_again o)).
Proof.
  intros Ha Hrun. destruct o as [t ss log lost again]. cbn in *. unfold drain in Hrun. cbn in Hrun.
  eapply (publish_all_steps now t ss [] lost _ [] [] log again) in Hrun as (sent & more & Hpub & -> & _ & Hmore & Hst);
    [|constructor|by apply claim_nodup, (ac_ids _ Ha)].
  rewrite unseen_nil in Hst, Hmore. rewrite (Hmore eq_refl), app_nil_r in Hst.
  rewrite Hpub. cbn [app]. split; [done|]. eapply rtc_l; [apply o_claim|]. eapply rtc_r; [exact Hst|]. rewrite <- (app_nil_r ss) at 2. apply o_commit.
Qed.
(** A further drain of a session that has worked off its rows is a path of the steps, too. *)
Theorem further_drain_is_steps t ss1 ss2 log lost again done pub now limit e r s' e' :
  accounted (mkOutbox t (ss1 ++ (done, []) :: ss2) log lost again) →
  drain _enqueue now limit (ob_id <$> held (ss1 ++ ss2)) (mkSession t done pub, e) = (r, (s', e')) →
  ∃ sent more, se_published s' = pub ++ sent ∧ r = Ok (Z.of_nat (length sent))
  ∧ rtc ostep (mkOutbox t (ss1 ++ (done, []) :: ss2) log lost again)
      (mkOutbox t (ss1 ++ (se_objects s', []) :: ss2) (log ++ sent) lost (again ++ more)).
Proof.
  intros Ha Hrun. unfold drain in Hrun. cbn in Hrun.
  eapply (publish_all_steps now t ss1 ss2 lost _ done pub log again) in Hrun as (sent & more & Hpub & -> & _ & _ & Hst).
  - exists sent, more. split_and!; [done|done|]. eapply rtc_l; [apply o_claim_more|exact Hst].
  - pose proof (ac_held _ Ha) as Hh. cbn [os_sessions] in Hh. rewrite held_middle, !fmap_app in Hh. cbn [fst snd] in Hh.
    by apply NoDup_app in Hh as (_ & _ & [[? _]%NoDup_app _]%NoDup_app).
  - by apply claim_nodup, (ac_ids _ Ha).
Qed.
End alone.

(** ** Concrete runs *)
Module OutboxSample.
Definition add (wf : string) (at_ : Z) : M table OutboxRow := enqueue ("ob_" +:+ wf) wf "mission" "m1" "mission.created" [] at_.
Definition three : table := ((add "a" 1;; add "b" 2;; add "c" 3) []).2.
(** An enqueue function that notes what it took and refuses [bad]. *)
Definition taking (bad : list string) (wf : string) (_ : dict json) : M (list string) () := λ e,
  if one_of wf bad then (Err (RuntimeError "enqueue_failed"), e) else (Ok tt, e ++ [wf]).
Definition drained (bad : list string) (limit : nat) (t : table) := drain (taking bad) 9 limit [] (mkSession t [] [], []).
Definition statuses (t : table) : list (string * string * Z) := (λ r, (ob_stable_workflow_id r, ob_status r, ob_attempts r)) <$> t.
Definition after_drain (bad : list string) (limit : nat) (t : table) : table := write_rows (se_objects (drained bad limit t).2.1) t.

Lemma three_reachable : rtc ostep empty_outbox (mkOutbox three [] [] [] []).
Proof.
  eapply rtc_l; [eapply (o_enqueue [] [] [] [] [] "ob_a" "a" "mission" "m1" "mission.created" [] 1); lazy; reflexivity|].
  eapply rtc_l; [eapply (o_enqueue _ [] [] [] [] "ob_b" "b" "mission" "m1" "mission.created" [] 2); lazy; reflexivity|].
  eapply rtc_l; [eapply (o_enqueue _ [] [] [] [] "ob_c" "c" "mission" "m1" "mission.created" [] 3); lazy; reflexivity|]. apply rtc_refl.
Qed.
Definition one_drain : Outbox := mkOutbox (after_drain ["b"] 50 three) [] ["a"; "c"] [] [].
Lemma one_drain_reachable : rtc ostep empty_outbox one_drain.
Proof.
  transitivity (mkOutbox three [] [] [] []); [exact three_reachable|].
  destruct (drained ["b"] 50 three) as [r [s' e']] eqn:Hrun. pose proof (accounted_reachable _ three_reachable) as Ha.
  destruct (drain_is_steps (taking ["b"]) (mkOutbox three [] [] [] []) 9 50 [] r s' e' Ha Hrun) as [_ Hst]. cbn in Hst.
  unfold one_drain, after_drain. rewrite Hrun. cbn. replace (se_published s') with ["a"; "c"] in Hst; [exact Hst|].
  apply (f_equal (λ x, se_published x.2.1)) in Hrun. vm_compute in Hrun. symmetry. by symmetry.
Qed.
Lemma deliveries_are_accounted_witness : statuses (os_table one_drain) = [("a", "published", 0); ("b", "pending", 1); ("c", "published", 0)]
  ∧ NoDup (os_log one_drain) ∧ os_log one_drain ≡ₚ workflows (os_table one_drain) ++ (os_sessions one_drain ≫= λ s, workflows s.1) ++ os_lost one_drain ++ os_again one_drain.
Proof.
  split; [vm_compute; reflexivity|]. destruct (deliveries_are_accounted one_drain one_drain_reachable) as (Hp & Hnd & _). split; [by apply Hnd|exact Hp].
Defined.

(** Two drains in one session: the second claims what the first has marked and delivers it again. *)
Example one_session_delivers_twice :
  let '(_, (s, e)) := (drain (taking []) 9 50 [];; drain (taking []) 9 50 []) (mkSession three [] [], []) in
  e = ["a"; "b"; "c"; "a"; "b"; "c"] ∧ statuses (write_rows (se_objects s) three) = [("a", "published", 0); ("b", "published", 0); ("c", "published", 0)].
Proof. vm_compute. by split. Qed.
(** Rows that always fail are claimed first again and again: the third is never tried. *)
Example failing_rows_starve_the_rest :
  statuses (Nat.iter 5 (after_drain ["a"; "b"] 2) three) = [("a", "pending", 5); ("b", "pending", 5); ("c", "pending", 0)].
Proof. vm_compute. reflexivity. Qed.

Definition event (id : string) (at_ : Z) : EventRow := mkEventRow id "p" "t" "a" None None None [] None None None at_.
Definition stream : list EventRow := [event "e1" 1; event "e3" 3; event "e2" 2].
Lemma event_pages_cover_witness : er_id <$> read_events "p" 1 stream 4 None = ["e1"; "e2"; "e3"] ∧ read_events "p" 1 stream 4 None = all_events "p" stream.
Proof.
  split; [vm_compute; reflexivity|]. refine (proj1 (event_pages_cover "p" 1 stream _ _ _ _)).
  - done.
  - vm_compute. repeat constructor; set_solver.
  - unfold stream. intros e He. repeat (apply elem_of_cons in He as [->|He]; [done|]). by apply elem_of_nil in He.
  - vm_compute. repeat constructor; set_solver.
Defined.
(** Of events at one time that a page divides, the rest is skipped. *)
Example simultaneous_events_are_skipped :
  er_id <$> read_events "p" 1 [event "e1" 1; event "e2" 1; event "e3" 2] 4 None = ["e1"; "e3"].
Proof. vm_compute. reflexivity. Qed.
(** An unknown id starts from the beginning. *)
Example unknown_cursors_start_over : er_id <$> list_after "p" (Some "gone") 10 stream = ["e1"; "e2"; "e3"].
Proof. vm_compute. reflexivity. Qed.
End OutboxSample.
