(* ===== verification/SelfdevPolicy.v ===== *)
(** * SelfdevPolicy: what a self-development patch may touch

    selfdev/policy.py: the forbidden paths and markers, the validation of a worker's patch and the
    two governance checks.  Paths are ASCII texts; a set of paths is the list it is made from,
    of which only membership and [any] are used.

    [patches_are_allowed_exactly]: a patch is allowed exactly if author and reviewer are as
    required, every path is on the list in the sense of the code and not forbidden, and the diff
    has no marker.  [protected_components_are_forbidden]: a path with a protected component is
    forbidden whatever surrounds it and however it is cased.  The runs at the end show what the
    list admits besides the listed paths. *)
From S2P Require Import Prelude Collections Contracts PyFloat Json JsonText Models RepoWorker Regex.
From Stdlib Require Import Ascii.
Open Scope Z_scope.

(** [s.replace(old, new)] for an [old] that is not empty; [skip] characters belong to a match. *)
Fixpoint replace_from (old new : chars) (skip : nat) (l : chars) : chars :=
  match l with
  | [] => []
  | c :: l' =>
    match skip with
    | S k => replace_from old new k l'
    | O => if String.prefix (to_string old) (to_string l) then new ++ replace_from old new (length old - 1) l' else c :: replace_from old new 0 l'
    end
  end.
Definition replace (old new s : string) : string := to_string (replace_from (of_string old) (of_string new) 0 (of_string s)).
Example replaces : replace "**/" "" "a/**/b/**/*.py" = "a/b/*.py" ∧ replace "*" "" "a*b**" = "ab".
Proof. vm_compute. by split. Qed.
Definition ends_with (suffix s : string) : bool := String.prefix (to_string (reverse (of_string suffix))) (to_string (reverse (of_string s))).
(** [path.replace("\\", "/")]. *)
Definition slashes (path : string) : string := to_string ((λ c, if bool_decide (c = backslash) then "/"%char else c) <$> of_string path).
(** [a.split("/")[-1]]. *)
Fixpoint last_part (cur l : chars) : chars :=
  match l with [] => reverse cur | c :: l' => if bool_decide (c = "/"%char) then last_part [] l' else last_part (c :: cur) l' end.
Definition after_slash (s : string) : string := to_string (last_part [] (of_string s)).

(** ** Forbidden paths and markers *)
Definition boundary : regex := Alt Bol (literal "/").
Definition plural (s : string) : regex := Cat (literal_i s) (Opt (literal_i "s")).
Definition FORBIDDEN_DIFF_PATTERNS : list regex := [
  Cat boundary (Cat (alts [literal_i ".env"; plural "secret"; plural "credential"]) (alts [literal "/"; Eol; literal "."]));
  Cat boundary (Cat (alts [literal_i "approval"; Cat (literal_i "release") (Cat (Opt (Cls (char_in "_-"))) (literal_i "rights")); literal_i "policy"])
                    (Alt (literal "/") Eol));
  Cat boundary (literal_i "docs/release/");
  Cat boundary (literal_i "src/swarm/deploy/");
  Alt (Cat (literal "main") Eol) (Cat (literal "master") Eol)].
Definition PRIVILEGE_EXPANSION_MARKERS : list string :=
  ["auto_merge"; "self_approve"; "bypass_approval"; "grant_release"; "read_host_secrets"; "mount_docker_socket"; "ALLOW_PRODUCTION_WRITE"].
Record PolicyVerdict := mkVerdict { pv_allowed : bool; pv_reasons : list string }.
Definition verdict_dict (v : PolicyVerdict) : json := JObj [("allowed", JBool (pv_allowed v)); ("reasons", JList (JStr <$> pv_reasons v))].
Definition verdict_of (reasons : list string) : PolicyVerdict := mkVerdict (bool_decide (length reasons = 0%nat)) reasons.

Definition glob_hits (normalized glob : string) : bool :=
  let g := replace "*" "" (replace "**/" "" glob) in negb (bool_decide (g = "")) && contains (to_lower g) (to_lower normalized).
Definition path_forbidden (path : string) (extra_globs : list string) : bool :=
  let normalized := slashes path in
  existsb (λ pat, search pat normalized) FORBIDDEN_DIFF_PATTERNS || existsb (glob_hits normalized) extra_globs.
Definition scan_diff_for_privilege_expansion (diff_text : string) : list string :=
  List.filter (λ marker, contains (to_lower marker) (to_lower diff_text)) PRIVILEGE_EXPANSION_MARKERS.

(** ** Validation of a patch *)
Definition listed (allow : list string) (norm : string) : bool :=
  one_of norm allow || existsb (λ a, ends_with (after_slash a) norm) allow || existsb (λ a, bool_decide (pname (path_of a) = pname (path_of norm))) allow.
Definition path_reasons (allow forbidden_globs : list string) (path : string) : list string :=
  let norm := slashes path in
  (if listed allow norm then [] else ["path_not_allowlisted:" +:+ norm]) ++ (if path_forbidden norm forbidden_globs then ["forbidden_path:" +:+ norm] else []).
Definition validate_worker_patch (changed_paths : list string) (diff_text : string) (allowlisted_paths forbidden_globs : list string)
    (author_role reviewer_role author_id reviewer_id : string) : PolicyVerdict :=
  let allow := slashes <$> allowlisted_paths in
  verdict_of ((if bool_decide (author_role = "operator") then ["operator_must_not_generate_code_as_worker"] else [])
    ++ (if bool_decide (author_id = reviewer_id) then ["self_approval_forbidden"] else [])
    ++ (if bool_decide (reviewer_role = "reviewer") then [] else ["reviewer_role_required"])
    ++ (changed_paths ≫= path_reasons allow forbidden_globs)
    ++ ((λ hit, "privilege_expansion:" +:+ hit) <$> scan_diff_for_privilege_expansion diff_text)).
Definition assert_cannot_self_merge (merged : bool) (author_id merger_id : string) : PolicyVerdict :=
  verdict_of ((if merged then ["selfdev_merge_forbidden"] else []) ++ (if bool_decide (author_id = merger_id) then ["author_cannot_be_merger"] else [])).
Definition assert_learning_governance (learning_proposal_id learning_state : option string)
    (expands_spend expands_secrets expands_merge_authority expands_deploy_authority : bool) : PolicyVerdict :=
  verdict_of ((if truthy learning_proposal_id then [] else ["learning_proposal_required"])
    ++ (match learning_state with
        | Some s => if one_of s ["frozen"; "held_out_eval"; "review"; "canary"; "accepted"] then [] else ["learning_state_not_governed:" +:+ s]
        | None => ["learning_state_not_governed:None"]
        end)
    ++ (if expands_spend then ["selfdev_cannot_expand_spend"] else []) ++ (if expands_secrets then ["selfdev_cannot_expand_secrets"] else [])
    ++ (if expands_merge_authority then ["selfdev_cannot_expand_merge"] else []) ++ (if expands_deploy_authority then ["selfdev_cannot_expand_deploy"] else [])).

(** ** What verdicts mean *)
Lemma verdict_allowed reasons : pv_allowed (verdict_of reasons) = true ↔ reasons = [].
Proof. unfold verdict_of. cbn. rewrite bool_decide_eq_true. by destruct reasons. Qed.
Lemma reason_nil (b : bool) (r : string) : (if b then [r] else []) = [] ↔ b = false.
Proof. by destruct b. Qed.
Lemma reason_unless_nil (b : bool) (r : string) : (if b then [] else [r]) = [] ↔ b = true.
Proof. by destruct b. Qed.
Lemma bind_nil {A B} (f : A → list B) l : l ≫= f = [] ↔ ∀ x, x ∈ l → f x = [].
Proof.
  induction l as [|x l IH]; cbn; [split; [by intros _ y ?%elem_of_nil|done]|]. rewrite app_nil, IH. split.
  - intros [H1 H2] y [->|Hy]%elem_of_cons; [done|by apply H2].
  - intros H. split; [apply H; by left|intros y Hy; apply H; by right].
Qed.
Lemma fmap_is_nil {A B} (f : A → B) l : f <$> l = [] ↔ l = [].
Proof. by destruct l. Qed.
Lemma no_markers diff : scan_diff_for_privilege_expansion diff = [] ↔ ∀ m, m ∈ PRIVILEGE_EXPANSION_MARKERS → contains (to_lower m) (to_lower diff) = false.
Proof.
  unfold scan_diff_for_privilege_expansion. induction PRIVILEGE_EXPANSION_MARKERS as [|m l IH]; [split; [by intros _ x ?%elem_of_nil|done]|].
  cbn [List.filter]. destruct (contains _ _) eqn:Hc.
  - split; [done|]. intros H. rewrite (H m) in Hc; [done|by left].
  - rewrite IH. split; [|intros H x Hx; apply H; by right]. intros H x [->|Hx]%elem_of_cons; [done|by apply H].
Qed.

(** A patch is allowed exactly if its author is no operator, the reviewer is a reviewer and someone else,
    every changed path is listed and not forbidden, and the diff contains no marker of expanded
    privileges in any case. *)
Theorem patches_are_allowed_exactly changed_paths diff allowlisted globs author_role reviewer_role author_id reviewer_id :
  pv_allowed (validate_worker_patch changed_paths diff allowlisted globs author_role reviewer_role author_id reviewer_id) = true
  ↔ author_role ≠ "operator" ∧ author_id ≠ reviewer_id ∧ reviewer_role = "reviewer"
    ∧ (∀ p, p ∈ changed_paths → listed (slashes <$> allowlisted) (slashes p) = true ∧ path_forbidden (slashes p) globs = false)
    ∧ ∀ m, m ∈ PRIVILEGE_EXPANSION_MARKERS → contains (to_lower m) (to_lower diff) = false.
Proof.
  unfold validate_worker_patch. rewrite verdict_allowed, !app_nil, !reason_nil, reason_unless_nil, !bool_decide_eq_false, bool_decide_eq_true, bind_nil, fmap_is_nil, no_markers.
  unfold path_reasons. setoid_rewrite app_nil. setoid_rewrite reason_nil. setoid_rewrite reason_unless_nil. tauto.
Qed.

(** ** Protected components *)
Lemma matches_literal_i s w rest st : lower <$> w = lower <$> of_string s → ∃ st', matches (literal_i s) st (w ++ rest) st' rest.
Proof.
  unfold literal_i. generalize (of_string s) as l. intros l. revert w st. induction l as [|c l IH]; intros w st Hw.
  { destruct w; [|done]. exists st. apply m_star_nil. }
  destruct w as [|d w]; [done|]. injection Hw as Hd Hw. cbn [fmap list_fmap cats]. assert (bool_decide (lower d = lower c) = true) as Hdc by by apply bool_decide_eq_true.
  destruct l as [|c' l].
  - destruct w; [|done]. exists false. by apply m_cls.
  - destruct (IH w false Hw) as [st' Hm]. exists st'. eapply m_cat; [by apply m_cls|exact Hm].
Qed.
(** Some state of the matcher in which [r] has read [w] before [rest]. *)
Definition reads (r : regex) (w rest : chars) : Prop := ∀ st, ∃ st', matches r st (w ++ rest) st' rest.
Lemma reads_literal s w rest : lower <$> w = lower <$> of_string s → reads (literal_i s) w rest.
Proof. intros Hw st. by apply matches_literal_i. Qed.
Lemma reads_cat a b w1 w2 rest : reads a w1 (w2 ++ rest) → reads b w2 rest → reads (Cat a b) (w1 ++ w2) rest.
Proof. intros Ha Hb st. destruct (Ha st) as [st1 H1]. destruct (Hb st1) as [st2 H2]. exists st2. rewrite <- (assoc_L (++)). by eapply m_cat. Qed.
Lemma reads_alts l r w rest : r ∈ l → reads r w rest → reads (alts l) w rest.
Proof.
  intros Hr Hw st. destruct (Hw st) as [st' Hm]. exists st'. induction l as [|x l IH]; [by apply elem_of_nil in Hr|]. destruct l as [|y l].
  - by apply list_elem_of_singleton in Hr as ->.
  - apply elem_of_cons in Hr as [<-|Hr]; [by apply m_alt_l|]. apply m_alt_r. by apply IH.
Qed.
Lemma reads_opt r w rest : reads r w rest → reads (Opt r) w rest.
Proof. intros Hw st. destruct (Hw st) as [st' Hm]. exists st'. by apply m_opt. Qed.
Lemma reads_none r rest : reads (Opt r) [] rest.
Proof. intros st. exists st. apply m_opt_nil. Qed.
Lemma reads_plural s t w rest : t = s ∨ t = s +:+ "s" → lower <$> w = lower <$> of_string t → reads (plural s) w rest.
Proof.
  intros [->| ->] Hw.
  - rewrite <- (app_nil_r w). apply reads_cat; [by apply reads_literal|apply reads_none].
  - rewrite of_string_app, fmap_app in Hw. apply fmap_app_inv in Hw as (w1 & w2 & H1 & H2 & ->). apply reads_cat; [by apply reads_literal|by apply reads_opt, reads_literal].
Qed.
Lemma reads_sep w sep : sep = "-" ∨ sep = "_" → lower <$> w = lower <$> of_string sep → w = of_string sep.
Proof.
  assert (∀ x c, c = "-"%char ∨ c = "_"%char → lower x = c → x = c) as Hc.
  { intros [[] [] [] [] [] [] [] []] c [->| ->]; vm_compute; congruence. }
  intros [->| ->]; destruct w as [|x [|y w]]; try done; intros [= Hx]; cbn; f_equal; (apply Hc; [by auto|exact Hx]).
Qed.
Lemma reads_release w rest sep : sep ∈ [""; "-"; "_"] → lower <$> w = lower <$> of_string ("release" +:+ sep +:+ "rights") →
  reads (Cat (literal_i "release") (Cat (Opt (Cls (char_in "_-"))) (literal_i "rights"))) w rest.
Proof.
  intros Hsep Hw. rewrite !of_string_app, !fmap_app in Hw. apply fmap_app_inv in Hw as (w1 & w23 & H1 & H23 & ->).
  symmetry in H23. apply fmap_app_inv in H23 as (w2 & w3 & H2 & H3 & ->). apply reads_cat; [by apply reads_literal|]. apply reads_cat; [|by apply reads_literal].
  repeat (apply elem_of_cons in Hsep as [->|Hsep]); [..|by apply elem_of_nil in Hsep].
  - destruct w2; [apply reads_none|done].
  - symmetry in H2. apply reads_sep in H2 as ->; [|by left]. apply reads_opt. intros st. exists false. by apply m_cls.
  - symmetry in H2. apply reads_sep in H2 as ->; [|by right]. apply reads_opt. intros st. exists false. by apply m_cls.
Qed.
(** Where a component starts and ends. *)
Definition starts (a : string) : Prop := a = "" ∨ ∃ a', a = a' +:+ "/".
Lemma boundary_search r s a l : of_string s = of_string a ++ l → starts a → (∀ st, ∃ st' l', matches r st l st' l') → search (Cat boundary r) s = true.
Proof.
  intros Hs Ha Hr. apply regex_search_spec. destruct Ha as [->|[a' ->]].
  - destruct (Hr true) as (st' & l' & Hm). exists true, l, st', l'. split; [exists []; by rewrite Hs|]. eapply m_cat; [apply m_alt_l, m_bol|exact Hm].
  - destruct (Hr false) as (st' & l' & Hm). exists (bool_decide (of_string a' = [])), ("/"%char :: l), st', l'. split.
    + exists (of_string a'). split; [|done]. by rewrite Hs, of_string_app, <- (assoc_L (++)).
    + eapply m_cat; [|exact Hm]. apply m_alt_r. by apply m_cls.
Qed.

Lemma of_string_nil b : of_string b = [] → b = "".
Proof. by destruct b. Qed.
Definition ends_with_one_of (l : list ascii) (b : string) : Prop := match of_string b with [] => True | c :: _ => c ∈ l end.
Lemma ends_component b : ends_with_one_of ["/"; "."]%char b → ∀ st, ∃ st' l', matches (alts [literal "/"; Eol; literal "."]) st (of_string b) st' l'.
Proof.
  unfold ends_with_one_of. destruct (of_string b) as [|x l].
  - intros _ st. exists st, []. apply m_alt_r, m_alt_l, m_eol. by left.
  - intros [->|[->|Hx%elem_of_nil]%elem_of_cons]%elem_of_cons st; [| |done]; exists false, l; [apply m_alt_l|apply m_alt_r, m_alt_r]; by apply m_cls.
Qed.
Lemma ends_directory b : ends_with_one_of ["/"]%char b → ∀ st, ∃ st' l', matches (Alt (literal "/") Eol) st (of_string b) st' l'.
Proof.
  unfold ends_with_one_of. destruct (of_string b) as [|x l].
  - intros _ st. exists st, []. apply m_alt_r, m_eol. by left.
  - intros ->%list_elem_of_singleton st. exists false, l. by apply m_alt_l, m_cls.
Qed.
Lemma reads_then r e w rest : reads r w rest → (∀ st, ∃ st' l', matches e st rest st' l') → ∀ st, ∃ st' l', matches (Cat r e) st (w ++ rest) st' l'.
Proof. intros Hr He st. destruct (Hr st) as [st1 H1]. destruct (He st1) as (st2 & l2 & H2). exists st2, l2. by eapply m_cat. Qed.
(** Words of the patterns, which may be followed by a slash, the end or, for the first, a dot. *)
Definition secret_words : list string := [".env"; "secret"; "secrets"; "credential"; "credentials"].
Definition authority_words : list string := ["approval"; "releaserights"; "release-rights"; "release_rights"; "policy"].
Definition protected_directories : list string := ["docs/release/"; "src/swarm/deploy/"].
Definition protected (c b : string) : Prop :=
  to_lower c ∈ secret_words ∧ ends_with_one_of ["/"; "."]%char b ∨ to_lower c ∈ authority_words ∧ ends_with_one_of ["/"]%char b ∨ to_lower c ∈ protected_directories.
Lemma lower_word c w : to_lower c = w → to_lower w = w → lower <$> of_string c = lower <$> of_string w.
Proof. intros Hc Hw. by rewrite <- !of_string_lower, Hc, Hw. Qed.
Lemma secret_reads c rest : to_lower c ∈ secret_words → reads (alts [literal_i ".env"; plural "secret"; plural "credential"]) (of_string c) rest.
Proof.
  intros Hc. apply elem_of_cons in Hc as [Hc|Hc].
  - eapply reads_alts; [by left|]. apply reads_literal. by apply lower_word.
  - do 2 (apply elem_of_cons in Hc as [Hc|Hc];
      [eapply reads_alts; [right; left|]; eapply reads_plural; [|by apply (lower_word _ _ Hc)]; first [by left|by right]|]).
    do 2 (apply elem_of_cons in Hc as [Hc|Hc];
      [eapply reads_alts; [right; right; left|]; eapply reads_plural; [|by apply (lower_word _ _ Hc)]; first [by left|by right]|]). by apply elem_of_nil in Hc.
Qed.
Lemma authority_words_read c rest : to_lower c ∈ authority_words →
  reads (alts [literal_i "approval"; Cat (literal_i "release") (Cat (Opt (Cls (char_in "_-"))) (literal_i "rights")); literal_i "policy"]) (of_string c) rest.
Proof.
  intros Hc. apply elem_of_cons in Hc as [Hc|Hc]; [eapply reads_alts; [by left|]; apply reads_literal; by apply lower_word|].
  apply elem_of_cons in Hc as [Hc|Hc]; [eapply reads_alts; [right; by left|]; apply (reads_release _ _ ""); [set_solver|by apply lower_word]|].
  apply elem_of_cons in Hc as [Hc|Hc]; [eapply reads_alts; [right; by left|]; apply (reads_release _ _ "-"); [set_solver|by apply lower_word]|].
  apply elem_of_cons in Hc as [Hc|Hc]; [eapply reads_alts; [right; by left|]; apply (reads_release _ _ "_"); [set_solver|by apply lower_word]|].
  apply list_elem_of_singleton in Hc. eapply reads_alts; [right; right; by left|]. apply reads_literal. by apply lower_word.
Qed.

(** A path with a protected component, in any case and wherever it stands, is forbidden, so that no patch
    that changes it is allowed: .env, secrets and credentials as a name or with an extension, a directory or
    file named approval, policy or release rights, and what is below docs/release or src/swarm/deploy. *)
Theorem protected_components_are_forbidden path globs a c b : slashes path = a +:+ c +:+ b → starts a → protected c b → path_forbidden path globs = true.
Proof.
  intros Hp Ha Hc. unfold path_forbidden. apply orb_true_iff. left. apply existsb_exists.
  assert (of_string (slashes path) = of_string a ++ of_string c ++ of_string b) as Hs by (by rewrite Hp, !of_string_app).
  destruct Hc as [[Hc Hb]|[[Hc Hb]|Hc]].
  - eexists. split; [left; reflexivity|]. eapply boundary_search; [exact Hs|done|]. apply reads_then; [by apply secret_reads|by apply ends_component].
  - eexists. split; [right; left; reflexivity|]. eapply boundary_search; [exact Hs|done|]. apply reads_then; [by apply authority_words_read|by apply ends_directory].
  - apply elem_of_cons in Hc as [Hc|Hc%list_elem_of_singleton].
    + eexists. split; [right; right; left; reflexivity|]. eapply boundary_search; [exact Hs|done|]. intros st.
      destruct (reads_literal "docs/release/" (of_string c) (of_string b) (lower_word _ _ Hc eq_refl) st) as [st' Hm]. by eauto.
    + eexists. split; [right; right; right; left; reflexivity|]. eapply boundary_search; [exact Hs|done|]. intros st.
      destruct (reads_literal "src/swarm/deploy/" (of_string c) (of_string b) (lower_word _ _ Hc eq_refl) st) as [st' Hm]. by eauto.
Qed.

(** ** Runs *)
Module PolicySample.
Definition verdict (paths : list string) (diff : string) (allow : list string) : PolicyVerdict := validate_worker_patch paths diff allow [] "worker" "reviewer" "w1" "r1".
Example plain_patch : verdict ["sandbox/a.py"] "+ return 2" ["sandbox/a.py"] = mkVerdict true [].
Proof. vm_compute. reflexivity. Qed.
Lemma protected_components_are_forbidden_witness : slashes "packs\Secrets.yaml" = "packs/" +:+ "Secrets" +:+ ".yaml" ∧ path_forbidden "packs\Secrets.yaml" [] = true.
Proof.
  split; [vm_compute; reflexivity|]. apply (protected_components_are_forbidden "packs\Secrets.yaml" [] "packs/" "Secrets" ".yaml").
  - vm_compute. reflexivity.
  - right. exists "packs". reflexivity.
  - left. split; [vm_compute; right; right; left|vm_compute; right; left].
Defined.
(** The list is compared by name: any file whose path ends with a listed name is admitted. *)
Example other_files_with_the_name_are_listed :
  verdict ["src/swarm/broker/a.py"; "src/swarm/data.py"] "" ["sandbox/a.py"] = mkVerdict true [].
Proof. vm_compute. reflexivity. Qed.
(** A listed directory, written with a slash at its end, admits every path. *)
Example listed_directories_admit_everything : verdict ["src/swarm/controller/graph.py"] "" ["docs/notes/"] = mkVerdict true [].
Proof. vm_compute. reflexivity. Qed.
(** What ends in main is forbidden, a file domain as well as a branch. *)
Example names_that_end_in_main_are_forbidden : path_forbidden "src/domain" [] = true.
Proof. vm_compute. reflexivity. Qed.
End PolicySample.
