(* ===== verification/EvidenceRouter.v ===== *)
(** * EvidenceRouter: which model works on which part of a mission

    evals/evidence_router.py with the choices of evals/live_benchmark.py it makes: from the cells of
    the latest benchmark it assigns a model to each task family of a mission.  What the probes of
    the environment found is an argument: whether the local provider is routable, the models it
    lists, the benchmark of the repository and that of the installed package, and the environment
    variable.  A cell has the two numbers of its document as optional floats.

    [plans_use_available_models]: a plan exists exactly if the local provider is routable, and it
    assigns to exactly the requested families models that were listed or asked for, of the local
    provider only.  [best_evidence_is_picked]: with evidence for a family, the model with the best
    cell of those not to be avoided.  The runs at the end show when roles share a model. *)
From S2P Require Import Prelude Collections PyFloat Json.
From Stdlib Require Import SpecFloat.
Open Scope Z_scope.

Record Cell := mkCell { ce_family : string; ce_model : string; ce_pass_rate : option float; ce_latency_ms_p50 : option float }.
Record Report := mkReport { rp_run_id : option string; rp_cells : list Cell }.

(** [float(x or default)]. *)
Definition float_or (o : option float) (otherwise : float) : float := match o with Some x => if feqb x f_0 then otherwise else x | None => otherwise end.
Definition rate_of (c : Cell) : float := float_or (ce_pass_rate c) f_0.
Definition latency_of (c : Cell) : float := float_or (ce_latency_ms_p50 c) (float_of_Z 1000000000).
(** [_cell_score(a) < _cell_score(b)]. *)
Definition score_lt (a b : Cell) : bool :=
  if feqb (rate_of a) (rate_of b) then fltb (SFopp (latency_of a)) (SFopp (latency_of b)) else fltb (rate_of a) (rate_of b).
Definition cells_of (report : option Report) : list Cell := match report with Some r => rp_cells r | None => [] end.

(** ** live_benchmark.py *)
Definition PREFERRED_MODELS : list string := ["gemma3:4b"; "qwen3.5:4b"; "qwen3.5:9b"; "qwen2.5-coder:14b"].
Fixpoint prefer (have prefs : list string) (limit : nat) (chosen : list string) : list string :=
  match prefs with
  | [] => chosen
  | p :: rest =>
    let chosen := if one_of p have && negb (one_of p chosen) then chosen ++ [p] else chosen in
    if (limit <=? length chosen)%nat then chosen else prefer have rest limit chosen
  end.
Definition select_benchmark_models (have : list string) (limit : nat) : list string :=
  match prefer have PREFERRED_MODELS limit [] with [] => take limit have | chosen => chosen end.
(** The best cell of each family so far. *)
Definition better_of (best : dict (float * float * string)) (c : Cell) : dict (float * float * string) :=
  if bool_decide (ce_family c = "") || bool_decide (ce_model c = "") then best
  else match dict_get best (ce_family c) with
       | Some (rate, lat, _) =>
         if fltb rate (rate_of c) || feqb (rate_of c) rate && fltb (latency_of c) lat
         then dict_set best (ce_family c) (rate_of c, latency_of c, ce_model c) else best
       | None => dict_set best (ce_family c) (rate_of c, latency_of c, ce_model c)
       end.
(** [latest] is the benchmark of the package's own repository. *)
Definition best_models_by_family (report latest : option Report) : dict string :=
  let data := match report with Some r => Some r | None => latest end in
  (λ kv : string * (float * float * string), (kv.1, kv.2.2)) <$> foldl better_of [] (cells_of data).

(** ** The router *)
Definition DEFAULT_FALLBACK : string := "gemma3:4b".
Definition TASK_TO_BENCHMARK (family : string) : string :=
  default "code_generation" (dict_get [("inspect", "dependency_planning"); ("implement", "code_generation"); ("verify", "tool_selection");
    ("review", "evidence_qa")] family).
Definition ROLE_ALIASES (role : string) : string :=
  default role (dict_get [("planner", "inspect"); ("worker", "implement"); ("verifier", "verify"); ("reviewer", "review")] role).
Definition role_name (family : string) : string :=
  default family (dict_get [("inspect", "planner"); ("implement", "worker"); ("verify", "verifier"); ("review", "reviewer")] family).
Record RouteAssignment := mkAssignment {
  as_role : string;
  as_task_family : string;
  as_benchmark_family : string;
  as_model : string;
  as_route_id : string;
  as_provider_id : string;
  as_cost_policy : string;
  as_rationale : string;
  as_source : string
}.
Record MissionRoutePlan := mkPlan {
  mp_assignments : dict RouteAssignment;
  mp_available_models : list string;
  mp_swarm_allow_paid : bool;
  mp_benchmark_run_id : option string;
  mp_rationale_summary : string
}.
Definition model_for (p : MissionRoutePlan) (family : string) : string :=
  match dict_get (mp_assignments p) family with Some a => as_model a | None => DEFAULT_FALLBACK end.
Definition heterogeneous (p : MissionRoutePlan) : bool := (2 <=? length (remove_dups (as_model <$> dict_values (mp_assignments p))))%nat.

Definition sorted_cells (cells : list Cell) : list Cell := sort_by (λ a b, negb (score_lt a b)) cells.
Definition evidence_for (benchmark_family : string) (available : list string) (report : option Report) : list Cell :=
  List.filter (λ c, bool_decide (ce_family c = benchmark_family) && one_of (ce_model c) available) (cells_of report).
Definition avoided (prefer_not : list string) (cells : list Cell) (c : Cell) : bool := one_of (ce_model c) prefer_not && (1 <? length cells)%nat.
Definition acceptable (available prefer_not : list string) (model : string) : bool := negb (one_of model prefer_not) || (length available =? 1)%nat.
(** The first preferred model that is not to be avoided, or else the first available one. *)
Definition unused_model (available prefer_not : list string) : string * string :=
  match List.find (λ m, negb (one_of m prefer_not)) (select_benchmark_models available 5) with
  | Some m => (m, "preferred_available")
  | None => (default DEFAULT_FALLBACK (head available), "fallback")
  end.
Definition _pick_model_for_family (benchmark_family : string) (available : list string) (report latest : option Report) (prefer_not : list string)
    (prefer_fast : bool) : string * string :=
  let cells := sorted_cells (evidence_for benchmark_family available report) in
  let ranked := sort_by (λ a b, negb (fltb (latency_of b) (latency_of a))) (List.filter (λ c, one_of (ce_model c) available) (cells_of report)) in
  let preferred := unused_model available prefer_not in
  match List.find (λ c, negb (avoided prefer_not cells c)) cells with
  | Some c => (ce_model c, "benchmark_cell")
  | None =>
    match (if prefer_fast then List.find (λ c, acceptable available prefer_not (ce_model c)) ranked else None) with
    | Some c => (ce_model c, "fastest_available")
    | None =>
      match dict_get (best_models_by_family report latest) benchmark_family with
      | Some model => if one_of model available && acceptable available prefer_not model then (model, "best_by_family") else preferred
      | None => preferred
      end
    end
  end.

(** The models that already have cells, each once. *)
Definition evidenced (available : list string) (cells : list Cell) : list string :=
  foldl (λ acc c, let m := ce_model c in if negb (bool_decide (m = "")) && one_of m available && negb (one_of m acc) then acc ++ [m] else acc) [] cells.
Definition or_first_three (models available : list string) : list string := match models with [] => take 3 available | _ => models end.
Definition available_models (models : option (list string)) (listed : list string) (report : option Report) : list string :=
  let available := match models with Some (m :: rest) => m :: rest | _ => listed end in
  let available := match available with [] => [DEFAULT_FALLBACK] | _ => available end in
  match models, report with
  | Some _, _ => available
  | None, Some r => match evidenced available (rp_cells r) with
                    | [] => or_first_three (select_benchmark_models available 4) available
                    | models => models
                    end
  | None, None => or_first_three (select_benchmark_models available 4) available
  end.
Definition allow_paid (env : option string) : bool := one_of (to_lower (default "false" env)) ["1"; "true"; "yes"].
Definition py_bool (b : bool) : string := if b then "True" else "False".
(** The loop over the families: the assignments and the models used. *)
Definition assign (available : list string) (report latest : option Report) (paid : bool) (acc : dict RouteAssignment * list string) (fam : string)
    : dict RouteAssignment * list string :=
  let '(assignments, used) := acc in
  let bench := TASK_TO_BENCHMARK fam in
  let avoid := if one_of fam ["implement"; "review"; "verify"] then used else [] in
  let avoid := match dict_get assignments "inspect" with Some a => if bool_decide (fam = "implement") then avoid ++ [as_model a] else avoid | None => avoid end in
  let '(model, source) := _pick_model_for_family bench available report latest (if (1 <? length available)%nat then avoid else [])
    (one_of fam ["verify"; "inspect"]) in
  let role := role_name fam in
  (dict_set assignments fam (mkAssignment role fam bench model ("rt_ollama_" +:+ model) "ollama" (if paid then "paid_allowed" else "zero_spend_ok")
     (role +:+ "/" +:+ fam +:+ " → benchmark family " +:+ bench +:+ "; selected " +:+ model +:+ " via " +:+ source
      +:+ " under zero_spend_ok (SWARM_ALLOW_PAID=" +:+ py_bool paid +:+ ")") source), used ++ [model]).
Definition build_mission_route_plan (env : option string) (routable : bool) (listed : list string) (report latest : option Report)
    (models roles : option (list string)) : result MissionRoutePlan :=
  let paid := allow_paid env in
  if negb routable then Err (RuntimeError "no_zero_spend_routable_providers")
  else
    let available := available_models models listed report in
    let families := ROLE_ALIASES <$> (match roles with Some (r :: rest) => r :: rest | _ => ["inspect"; "implement"; "verify"; "review"] end) in
    let assignments := (foldl (assign available report latest paid) ([], []) families).1 in
    let distinct := remove_dups (as_model <$> dict_values assignments) in
    Ok (mkPlan assignments available paid (r ← report; id ← rp_run_id r; if bool_decide (id = "") then None else Some id)
      ("Evidence router assigned " +:+ pretty (length assignments) +:+ " roles across " +:+ pretty (length distinct) +:+ " model(s): "
       +:+ join ", " ((λ a, as_role a +:+ "=" +:+ as_model a) <$> dict_values assignments))).

(** ** Available models *)
Lemma one_of_elem x l : one_of x l = true ↔ x ∈ l.
Proof. apply bool_decide_eq_true. Qed.
Lemma prefer_elem have prefs limit chosen m : m ∈ prefer have prefs limit chosen → m ∈ have ∨ m ∈ chosen.
Proof.
  revert chosen. induction prefs as [|p prefs IH]; intros chosen; cbn [prefer]; [by right|].
  set (chosen' := if one_of p have && _ then chosen ++ [p] else chosen). assert (m ∈ chosen' → m ∈ have ∨ m ∈ chosen) as H.
  { unfold chosen'. destruct (one_of p have && _) eqn:Hp; [|by right]. apply andb_true_iff in Hp as [Hp%one_of_elem _].
    intros [?| ->%list_elem_of_singleton]%elem_of_app; [by right|by left]. }
  destruct (limit <=? length chosen')%nat; [done|]. intros [?|?]%IH; [by left|by apply H].
Qed.
Lemma take_elem {A} n (l : list A) x : x ∈ take n l → x ∈ l.
Proof. intros (i & Hi & _)%elem_of_take. by eapply list_elem_of_lookup_2. Qed.
Lemma select_elem have limit m : m ∈ select_benchmark_models have limit → m ∈ have.
Proof.
  unfold select_benchmark_models. destruct (prefer _ _ _ _) as [|x l] eqn:Hp; [apply take_elem|]. rewrite <- Hp.
  intros [?|?%elem_of_nil]%prefer_elem; done.
Qed.
Lemma cells_elem c f l : c ∈ sorted_cells (List.filter f l) → f c = true.
Proof. intros Hc%elem_of_sort_by%list_elem_of_In%filter_In. by destruct Hc. Qed.
Lemma pick_available bench available report latest prefer_not fast : available ≠ [] →
  (_pick_model_for_family bench available report latest prefer_not fast).1 ∈ available.
Proof.
  intros Hne. unfold _pick_model_for_family. cbv zeta.
  assert ((unused_model available prefer_not).1 ∈ available) as Hpref.
  { unfold unused_model. destruct (List.find (λ m, negb (one_of m prefer_not)) _) as [m|] eqn:Hf.
    - apply find_some in Hf as [Hm%list_elem_of_In _]. by eapply select_elem.
    - destruct available; [done|by left]. }
  match goal with |- context [List.find ?f (sorted_cells ?l)] => destruct (List.find f (sorted_cells l)) as [c|] eqn:Hf end.
  { apply find_some in Hf as [Hc%list_elem_of_In _]. apply cells_elem, andb_true_iff in Hc as [_ Hc]. by apply one_of_elem. }
  destruct (if fast then _ else None) as [c|] eqn:Hr.
  { destruct fast; [|done]. apply find_some in Hr as [Hc%list_elem_of_In _]. apply elem_of_sort_by, list_elem_of_In, filter_In in Hc as [_ Hc]. by apply one_of_elem. }
  destruct (dict_get _ bench) as [m|]; [|done]. destruct (one_of m available) eqn:Hm; [|done]. cbn. destruct (acceptable _ _ _); [|done]. by apply one_of_elem.
Qed.
Lemma evidenced_elem available cells m : m ∈ evidenced available cells → m ∈ available.
Proof.
  unfold evidenced. assert (∀ acc, (∀ x, x ∈ acc → x ∈ available) → ∀ x, x ∈ foldl (λ acc c, let m := ce_model c in
    if negb (bool_decide (m = "")) && one_of m available && negb (one_of m acc) then acc ++ [m] else acc) acc cells → x ∈ available) as H; [|apply H; by intros x ?%elem_of_nil].
  induction cells as [|c cells IH]; intros acc Hacc; cbn [foldl]; [done|]. apply IH. cbv zeta. destruct (_ && _ && _) eqn:Hc; [|done].
  apply andb_true_iff in Hc as [[_ Hc%one_of_elem]%andb_true_iff _]. intros x [?| ->%list_elem_of_singleton]%elem_of_app; [by apply Hacc|done].
Qed.
(** What may be available: the models asked for, or else the listed ones, or else the default. *)
Definition candidates (models : option (list string)) (listed : list string) : list string :=
  match models with Some (m :: rest) => m :: rest | _ => match listed with [] => [DEFAULT_FALLBACK] | _ => listed end end.
Lemma available_candidates models listed report :
  available_models models listed report ≠ [] ∧ ∀ m, m ∈ available_models models listed report → m ∈ candidates models listed.
Proof.
  assert (∀ l : list string, l ≠ [] → or_first_three (select_benchmark_models l 4) l ≠ [] ∧ ∀ m, m ∈ or_first_three (select_benchmark_models l 4) l → m ∈ l) as Hsel.
  { intros l Hl. unfold or_first_three. destruct (select_benchmark_models l 4) as [|x s] eqn:Hs.
    - split; [by destruct l|]. intros m. apply take_elem.
    - split; [done|]. rewrite <- Hs. intros m. apply select_elem. }
  unfold available_models, candidates. destruct models as [[|m models]|].
  - destruct listed; by split.
  - by split.
  - set (l := match listed with [] => _ | _ => _ end). assert (l ≠ []) as Hl by (by destruct listed).
    destruct report as [r|]; [|by apply Hsel]. destruct (evidenced l (rp_cells r)) as [|x ev] eqn:He; [by apply Hsel|]. split; [done|].
    rewrite <- He. intros m. apply evidenced_elem.
Qed.

(** ** Plans *)
Record assigned (available : list string) (paid : bool) (fam : string) (a : RouteAssignment) : Prop := {
  ad_family : as_task_family a = fam;
  ad_benchmark : as_benchmark_family a = TASK_TO_BENCHMARK fam;
  ad_model : as_model a ∈ available;
  ad_route : as_route_id a = "rt_ollama_" +:+ as_model a;
  ad_provider : as_provider_id a = "ollama";
  ad_cost : as_cost_policy a = if paid then "paid_allowed" else "zero_spend_ok"
}.
Lemma assign_all available report latest paid families acc used : available ≠ [] →
  (∀ f a, dict_get acc f = Some a → assigned available paid f a) →
  let result := (foldl (assign available report latest paid) (acc, used) families).1 in
  (∀ f a, dict_get result f = Some a → assigned available paid f a) ∧ ∀ f, is_Some (dict_get result f) ↔ is_Some (dict_get acc f) ∨ f ∈ families.
Proof.
  intros Hne. revert acc used. induction families as [|fam families IH]; intros acc used Hacc; cbn [foldl].
  { split; [done|]. intros f. split; [by left|]. by intros [?|?%elem_of_nil]. }
  destruct (assign available report latest paid (acc, used) fam) as [acc' used'] eqn:Ha.
  assert (∃ a, acc' = dict_set acc fam a ∧ assigned available paid fam a) as (a & -> & Hna).
  { unfold assign in Ha. cbv zeta in Ha. match type of Ha with context [_pick_model_for_family ?b ?av ?r ?l ?p ?q] =>
      pose proof (pick_available b av r l p q Hne) as Hm; destruct (_pick_model_for_family b av r l p q) as [model source] end.
    injection Ha as <- _. eexists. split; [reflexivity|]. by split. }
  destruct (IH (dict_set acc fam a) used') as [H1 H2].
  { intros f b. rewrite dict_get_set. case_decide as Hf; [by intros [= <-]; subst|apply Hacc]. }
  split; [done|]. intros f. rewrite H2, dict_get_set, elem_of_cons. case_decide as Hf; [|naive_solver]. subst. split; [by right; left|]. intros _. left. by eexists.
Qed.

(** A mission has a route plan exactly if the local provider is routable. Whatever the evidence, the plan
    assigns a model to exactly the requested families: one of its available models, which were asked for
    or are listed (or the default, if there are none), on the local provider. *)
Theorem plans_use_available_models env routable listed report latest models roles :
  match build_mission_route_plan env routable listed report latest models roles with
  | Err e => routable = false ∧ e = RuntimeError "no_zero_spend_routable_providers"
  | Ok p => routable = true ∧ (∀ m, m ∈ mp_available_models p → m ∈ candidates models listed)
      ∧ (∀ f a, dict_get (mp_assignments p) f = Some a → assigned (mp_available_models p) (allow_paid env) f a)
      ∧ ∀ f, is_Some (dict_get (mp_assignments p) f) ↔
          f ∈ ROLE_ALIASES <$> (match roles with Some (r :: rest) => r :: rest | _ => ["inspect"; "implement"; "verify"; "review"] end)
  end.
Proof.
  unfold build_mission_route_plan. destruct routable; [|done]. cbn [negb]. cbv zeta. cbn [mp_available_models mp_assignments].
  destruct (available_candidates models listed report) as [Hne Hc]. split; [done|]. split; [done|].
  match goal with |- context [foldl _ _ ?fs] => destruct (assign_all (available_models models listed report) report latest (allow_paid env) fs [] [] Hne) as [H1 H2] end.
  - by intros f a [=].
  - split; [exact H1|]. intros f. rewrite H2. split; [intros [[? [=]]|?]; done|by right].
Qed.

(** ** The best evidence *)
(** The order of floats that are numbers, by class, exponent and mantissa. *)
Definition float_key (x : float) : Z * Z * Z :=
  match x with
  | S754_infinity true => (-2, 0, 0)
  | S754_finite true m e => (-1, - e, - Z.pos m)
  | S754_zero _ | S754_nan => (0, 0, 0)
  | S754_finite false m e => (1, e, Z.pos m)
  | S754_infinity false => (2, 0, 0)
  end.
Definition key_lt (a b : Z * Z * Z) : Prop := a.1.1 < b.1.1 ∨ a.1.1 = b.1.1 ∧ (a.1.2 < b.1.2 ∨ a.1.2 = b.1.2 ∧ a.2 < b.2).
Definition number (x : float) : Prop := x ≠ S754_nan.
Lemma compare_key x y : number x → number y →
  match SFcompare x y with Some Lt => key_lt (float_key x) (float_key y) | Some Gt => key_lt (float_key y) (float_key x)
  | Some Eq => float_key x = float_key y | None => False end.
Proof.
  unfold number, key_lt. destruct x as [[]|[]| |[] m e], y as [[]|[]| |[] m' e']; cbn; intros; try done; try lia.
  - destruct (Z.compare_spec e e'); cbn; try lia. change (Pos.compare_cont Eq m m') with (m ?= m')%positive. destruct (Pos.compare_spec m m'); cbn; try lia. by subst.
  - destruct (Z.compare_spec e e'); cbn; try lia. change (Pos.compare_cont Eq m m') with (m ?= m')%positive. destruct (Pos.compare_spec m m'); cbn; try lia. by subst.
Qed.
Lemma key_trichotomy (a b : Z * Z * Z) : key_lt a b ∨ a = b ∨ key_lt b a.
Proof.
  unfold key_lt. destruct a as [[a1 a2] a3], b as [[b1 b2] b3]. cbn. destruct (Z.lt_trichotomy a1 b1) as [|[->|]]; try tauto.
  destruct (Z.lt_trichotomy a2 b2) as [|[->|]]; try tauto. destruct (Z.lt_trichotomy a3 b3) as [|[->|]]; tauto.
Qed.
Lemma fltb_key x y : number x → number y → fltb x y = true ↔ key_lt (float_key x) (float_key y).
Proof.
  intros Hx Hy. pose proof (compare_key x y Hx Hy) as H. unfold fltb, SFltb. destruct (SFcompare x y) as [[]|]; try done.
  - rewrite H. unfold key_lt. split; [done|lia].
  - unfold key_lt in *. split; [done|lia].
Qed.
Lemma feqb_key x y : number x → number y → feqb x y = true ↔ float_key x = float_key y.
Proof.
  intros Hx Hy. pose proof (compare_key x y Hx Hy) as H. unfold feqb, SFeqb. destruct (SFcompare x y) as [[]|]; try done; split; try done; intros Heq; rewrite Heq in H; unfold key_lt in H; lia.
Qed.
Definition comparable (c : Cell) : Prop := number (rate_of c) ∧ number (latency_of c).
Lemma opp_number x : number x → number (SFopp x).
Proof. by destruct x. Qed.
Lemma score_key a b : comparable a → comparable b → score_lt a b = true ↔ key_lt (float_key (rate_of a)) (float_key (rate_of b))
  ∨ float_key (rate_of a) = float_key (rate_of b) ∧ key_lt (float_key (SFopp (latency_of a))) (float_key (SFopp (latency_of b))).
Proof.
  intros [Ha Ha'] [Hb Hb']. unfold score_lt. destruct (feqb (rate_of a) (rate_of b)) eqn:He.
  - apply feqb_key in He; [|done..]. rewrite fltb_key by by apply opp_number. rewrite He. split; [by right|]. intros [H|[_ H]]; [unfold key_lt in H; lia|done].
  - rewrite fltb_key by done. split; [by left|]. intros [H|[H _]]; [done|]. apply feqb_key in H; [|done..]. congruence.
Qed.
Lemma score_total a b : comparable a → comparable b → score_lt a b = true → score_lt b a = false.
Proof.
  intros Ha Hb H. apply not_true_iff_false. rewrite score_key in * by done. unfold key_lt in *. intros H'.
  destruct (float_key (rate_of a)) as [[? ?] ?], (float_key (rate_of b)) as [[? ?] ?]. cbn in *. rewrite !pair_eq in *. lia.
Qed.
Lemma score_trans a b c : comparable a → comparable b → comparable c → score_lt a b = false → score_lt b c = false → score_lt a c = false.
Proof.
  intros Ha Hb Hc. rewrite <- !not_true_iff_false, !score_key by done. unfold key_lt.
  destruct (float_key (rate_of a)) as [[? ?] ?], (float_key (rate_of b)) as [[? ?] ?], (float_key (rate_of c)) as [[? ?] ?]. cbn.
  rewrite !pair_eq. lia.
Qed.
Lemma sorted_cells_sorted l : Forall comparable l → StronglySorted (λ a b, score_lt a b = false) (sorted_cells l).
Proof.
  unfold sorted_cells. induction 1 as [|x l Hx Hl IH]; cbn [sort_by]; [constructor|].
  assert (Forall comparable (sort_by (λ a b, negb (score_lt a b)) l)) as Hs by (by rewrite (sort_by_perm (λ a b, negb (score_lt a b)) l)).
  revert IH Hs. generalize (sort_by (λ a b, negb (score_lt a b)) l). clear Hl. intros s. induction 1 as [|y s Hy IH Hys]; intros Hs; cbn [insert_by]; [by repeat constructor|].
  apply Forall_cons in Hs as [Hcy Hs]. destruct (score_lt x y) eqn:Hxy; cbn [negb].
  - constructor; [by apply IH|]. rewrite (insert_by_perm (λ a b, negb (score_lt a b))). constructor; [by apply score_total|done].
  - constructor; [by constructor|]. constructor; [done|]. rewrite Forall_forall in Hys, Hs |- *. intros z Hz. eapply (score_trans x y z); auto.
Qed.

Lemma find_best f l c c' : StronglySorted (λ a b, score_lt a b = false) l → Forall comparable l → List.find f l = Some c → c' ∈ l → f c' = true → score_lt c c' = false.
Proof.
  induction 1 as [|x l Hl IH Hx]; [done|]. intros [Hcx Hcl]%Forall_cons. cbn [List.find]. destruct (f x) eqn:Hfx.
  - intros [= <-] [->|Hc']%elem_of_cons _; [|by rewrite Forall_forall in Hx; apply Hx].
    apply not_true_iff_false. intros H. pose proof (score_total _ _ Hcx Hcx H). congruence.
  - intros Hf [->|Hc']%elem_of_cons Hfc'; [congruence|by apply IH].
Qed.

(** If a family has evidence from a model that is not to be avoided, or from one cell only, the router picks
    the model of such a cell than which none of the others has a higher pass rate, or the same and a
    lower latency. *)
Theorem best_evidence_is_picked bench available report latest prefer_not fast cells : cells = evidence_for bench available report → Forall comparable cells →
  (∃ c, c ∈ cells ∧ avoided prefer_not cells c = false) →
  ∃ c, _pick_model_for_family bench available report latest prefer_not fast = (ce_model c, "benchmark_cell")
  ∧ c ∈ cells ∧ avoided prefer_not cells c = false ∧ ∀ c', c' ∈ cells → avoided prefer_not cells c' = false → score_lt c c' = false.
Proof.
  intros Hcells Hcomp (c0 & Hc0 & Hav0). unfold _pick_model_for_family. cbv zeta. rewrite <- Hcells.
  assert (∀ c, avoided prefer_not (sorted_cells cells) c = avoided prefer_not cells c) as Hav by (intros c; unfold avoided, sorted_cells; by rewrite length_sort_by).
  destruct (List.find _ (sorted_cells cells)) as [c|] eqn:Hf.
  - exists c. split; [done|]. pose proof (find_some _ _ Hf) as [Hc%list_elem_of_In Hn%negb_true_iff]. rewrite Hav in Hn. split; [by apply elem_of_sort_by in Hc|]. split; [done|].
    intros c' Hc' Hn'. eapply (find_best _ (sorted_cells cells) c c'); [by apply sorted_cells_sorted| |exact Hf|by apply elem_of_sort_by|cbv beta; by rewrite Hav, Hn'].
    unfold sorted_cells. by rewrite (sort_by_perm (λ a b, negb (score_lt a b)) cells).
  - pose proof (find_none _ _ Hf c0) as Hn. cbv beta in Hn. rewrite Hav, Hav0 in Hn. discriminate Hn. apply list_elem_of_In. by apply elem_of_sort_by.
Qed.

(** ** Runs *)
Module RouterSample.
Definition half : float := truediv 1 2.
Definition cell (family model : string) (rate : float) (lat : Z) : Cell := mkCell family model (Some rate) (Some (float_of_Z lat)).
Definition measured : Report := mkReport (Some "run_1")
  [cell "code_generation" "a" half 10; cell "code_generation" "b" f_1 30; cell "code_generation" "c" f_1 20; cell "evidence_qa" "a" f_1 5].
Lemma best_evidence_is_picked_witness :
  let cells := evidence_for "code_generation" ["a"; "b"; "c"] (Some measured) in
  length cells = 3%nat ∧ ∃ c, _pick_model_for_family "code_generation" ["a"; "b"; "c"] (Some measured) None ["c"] false = (ce_model c, "benchmark_cell")
  ∧ ce_model c = "b" ∧ ∀ c', c' ∈ cells → avoided ["c"] cells c' = false → score_lt c c' = false.
Proof.
  cbv zeta. split; [vm_compute; reflexivity|].
  destruct (best_evidence_is_picked "code_generation" ["a"; "b"; "c"] (Some measured) None ["c"] false _ eq_refl) as (c & Hp & _ & _ & Hbest).
  - repeat (constructor; [split; vm_compute; discriminate|]). constructor.
  - exists (cell "code_generation" "b" f_1 30). split; [right; left|vm_compute; reflexivity].
  - exists c. split; [exact Hp|]. split; [|exact Hbest]. apply (f_equal fst) in Hp. vm_compute in Hp. symmetry. exact Hp.
Defined.
Definition models_of (r : result MissionRoutePlan) : list (string * string) :=
  match r with Ok p => (λ kv : string * RouteAssignment, (kv.1, as_model kv.2)) <$> mp_assignments p | Err _ => [] end.
(** Two models are available, but each family has one cell: the verifier is the worker's model. *)
Example one_cell_is_not_diversified :
  models_of (build_mission_route_plan None true ["a"; "b"] (Some (mkReport None [cell "code_generation" "a" half 1; cell "tool_selection" "a" half 1; cell "evidence_qa" "b" f_0 1])) None
    None (Some ["worker"; "verifier"])) = [("implement", "a"); ("verify", "a")].
Proof. vm_compute. reflexivity. Qed.
(** A model that was asked for is never used, although the others are to be avoided. *)
Example unused_models_stay_unused :
  models_of (build_mission_route_plan None true [] None None (Some ["gemma3:4b"; "mine:7b"]) None)
  = [("inspect", "gemma3:4b"); ("implement", "gemma3:4b"); ("verify", "gemma3:4b"); ("review", "gemma3:4b")].
Proof. vm_compute. reflexivity. Qed.
End RouterSample.
