(* ===== verification/LeaseTables.v ===== *)
(** * LeaseTables: durable rows and worker registrations
    (src/swarm/db/models.py, src/swarm/db/token_hash.py and the repositories of
    src/swarm/db/lease_fencing.py)

    A table is a finite map from its primary key to its row; the row does not repeat the
    key.  Inserting a key that exists, or an outbox row whose stable workflow id exists,
    raises [IntegrityError] as the flush does.  [Db] is the database as one session sees
    it.  Instants are microseconds UTC; clock readings and fresh ids are arguments.

    [hash_membership_token] is HMAC-SHA256 in hex (hmac, hashlib): a parameter.  All that
    is relied on is stated where it is used. *)
From S2P Require Import Prelude Collections Contracts PyFloat Json.
Open Scope Z_scope.

(** ** Rows (db/models.py) *)
Record MissionRow := mkMissionRow {
  mr_project_id : string;
  mr_status : string;
  mr_revision : Z;
  mr_cancellation_generation : Z;
  mr_payload : json;
  mr_updated_at : Z
}.
#[export] Instance eta_MissionRow : Eta MissionRow := λ r,
  mkMissionRow (mr_project_id r) (mr_status r) (mr_revision r) (mr_cancellation_generation r)
    (mr_payload r) (mr_updated_at r).

Record TaskRow := mkTaskRow {
  tr_project_id : string;
  tr_mission_id : string;
  tr_status : string;
  tr_graph_revision : Z;
  tr_priority : Z;
  tr_scopes : list json;
  tr_dependency_ids : list json;
  tr_payload : json;
  tr_created_at : Z
}.
#[export] Instance eta_TaskRow : Eta TaskRow := λ r,
  mkTaskRow (tr_project_id r) (tr_mission_id r) (tr_status r) (tr_graph_revision r)
    (tr_priority r) (tr_scopes r) (tr_dependency_ids r) (tr_payload r) (tr_created_at r).

Record TaskAttemptRow := mkTaskAttemptRow {
  wa_task_id : string;
  wa_project_id : option string;
  wa_mission_id : option string;
  wa_agent_profile_id : string;
  wa_selected_route_id : option string;
  wa_worker_id : option string;
  wa_lease_generation : Z;
  wa_task_revision : Z;
  wa_input_digest : option string;
  wa_source_revision : option string;
  wa_cancellation_generation : Z;
  wa_status : string;
  wa_started_at : Z;
  wa_completed_at : option Z;
  wa_terminal_at : option Z;
  wa_accepted_result_id : option string;
  wa_payload : dict json
}.
#[export] Instance eta_TaskAttemptRow : Eta TaskAttemptRow := λ r,
  mkTaskAttemptRow (wa_task_id r) (wa_project_id r) (wa_mission_id r) (wa_agent_profile_id r)
    (wa_selected_route_id r) (wa_worker_id r) (wa_lease_generation r) (wa_task_revision r)
    (wa_input_digest r) (wa_source_revision r) (wa_cancellation_generation r) (wa_status r)
    (wa_started_at r) (wa_completed_at r) (wa_terminal_at r) (wa_accepted_result_id r) (wa_payload r).

Record WorkerLeaseRow := mkWorkerLeaseRow {
  wl_node_identity : string;
  wl_architecture : string;
  wl_runtime_version : string;
  wl_capacity_units : float;
  wl_lease_generation : Z;
  wl_status : string;
  wl_heartbeat_at : Z;
  wl_labels : list json;
  wl_capabilities : list json;
  wl_project_id : option string;
  wl_trust_class : option string;
  wl_token_hash : option string;
  wl_token_id : option string;
  wl_registered_at : option Z;
  wl_updated_at : option Z;
  wl_drain_requested_at : option Z;
  wl_revoked_at : option Z;
  wl_policy_version : option string;
  wl_software_version : option string;
  wl_build_sha : option string;
  wl_privacy_classes : list json;
  wl_resource_payload : dict json
}.
#[export] Instance eta_WorkerLeaseRow : Eta WorkerLeaseRow := λ r,
  mkWorkerLeaseRow (wl_node_identity r) (wl_architecture r) (wl_runtime_version r)
    (wl_capacity_units r) (wl_lease_generation r) (wl_status r) (wl_heartbeat_at r) (wl_labels r)
    (wl_capabilities r) (wl_project_id r) (wl_trust_class r) (wl_token_hash r) (wl_token_id r)
    (wl_registered_at r) (wl_updated_at r) (wl_drain_requested_at r) (wl_revoked_at r)
    (wl_policy_version r) (wl_software_version r) (wl_build_sha r) (wl_privacy_classes r)
    (wl_resource_payload r).

Record TaskLeaseRow := mkTaskLeaseRow {
  tl_attempt_id : string;
  tl_task_id : string;
  tl_mission_id : string;
  tl_project_id : string;
  tl_worker_id : string;
  tl_worker_generation : Z;
  tl_task_revision : Z;
  tl_input_digest : option string;
  tl_source_revision : option string;
  tl_cancellation_generation : Z;
  tl_state : string;
  tl_issued_at : Z;
  tl_expires_at : Z;
  tl_renewable_until : option Z;
  tl_reservation_refs : list json;
  tl_effect_scope : option string;
  tl_policy_version : option string;
  tl_updated_at : Z
}.
#[export] Instance eta_TaskLeaseRow : Eta TaskLeaseRow := λ r,
  mkTaskLeaseRow (tl_attempt_id r) (tl_task_id r) (tl_mission_id r) (tl_project_id r)
    (tl_worker_id r) (tl_worker_generation r) (tl_task_revision r) (tl_input_digest r)
    (tl_source_revision r) (tl_cancellation_generation r) (tl_state r) (tl_issued_at r)
    (tl_expires_at r) (tl_renewable_until r) (tl_reservation_refs r) (tl_effect_scope r)
    (tl_policy_version r) (tl_updated_at r).

Record WorkerResultRow := mkWorkerResultRow {
  wr_attempt_id : string;
  wr_lease_id : string;
  wr_task_id : string;
  wr_mission_id : string;
  wr_project_id : string;
  wr_worker_id : string;
  wr_worker_generation : Z;
  wr_task_revision : Z;
  wr_input_digest : option string;
  wr_source_revision : option string;
  wr_result_status : string;
  wr_artifact_manifest : dict json;
  wr_checks : dict json;
  wr_usage : dict json;
  wr_effect_receipts : list json;
  wr_submitted_at : Z;
  wr_acceptance_state : string;
  wr_rejection_reason : option string;
  wr_accepted_at : option Z
}.
#[export] Instance eta_WorkerResultRow : Eta WorkerResultRow := λ r,
  mkWorkerResultRow (wr_attempt_id r) (wr_lease_id r) (wr_task_id r) (wr_mission_id r)
    (wr_project_id r) (wr_worker_id r) (wr_worker_generation r) (wr_task_revision r)
    (wr_input_digest r) (wr_source_revision r) (wr_result_status r) (wr_artifact_manifest r)
    (wr_checks r) (wr_usage r) (wr_effect_receipts r) (wr_submitted_at r) (wr_acceptance_state r)
    (wr_rejection_reason r) (wr_accepted_at r).

(** An outbox row, kept under its stable workflow id. *)
Record OutboxRow := mkOutboxRow {
  ob_id : string;
  ob_aggregate_type : string;
  ob_aggregate_id : string;
  ob_event_type : string;
  ob_payload : dict json;
  ob_status : string
}.

Record Db := mkDb {
  db_missions : gmap string MissionRow;
  db_tasks : gmap string TaskRow;
  db_attempts : gmap string TaskAttemptRow;
  db_workers : gmap string WorkerLeaseRow;
  db_leases : gmap string TaskLeaseRow;
  db_results : gmap string WorkerResultRow;
  db_outbox : gmap string OutboxRow
}.
#[export] Instance eta_Db : Eta Db := λ r,
  mkDb (db_missions r) (db_tasks r) (db_attempts r) (db_workers r) (db_leases r) (db_results r)
    (db_outbox r).

(** ** Session operations *)
Definition integrity (what : string) : exn := IntegrityError ("duplicate key: " +:+ what).

Definition put_mission (id : string) (r : MissionRow) : M Db () :=
  modify (λ d, d <| db_missions := <[id := r]> (db_missions d) |>).
Definition put_task (id : string) (r : TaskRow) : M Db () :=
  modify (λ d, d <| db_tasks := <[id := r]> (db_tasks d) |>).
Definition put_attempt (id : string) (r : TaskAttemptRow) : M Db () :=
  modify (λ d, d <| db_attempts := <[id := r]> (db_attempts d) |>).
Definition put_worker (id : string) (r : WorkerLeaseRow) : M Db () :=
  modify (λ d, d <| db_workers := <[id := r]> (db_workers d) |>).
Definition put_lease (id : string) (r : TaskLeaseRow) : M Db () :=
  modify (λ d, d <| db_leases := <[id := r]> (db_leases d) |>).
Definition put_result (id : string) (r : WorkerResultRow) : M Db () :=
  modify (λ d, d <| db_results := <[id := r]> (db_results d) |>).

(** [TaskAttemptRepository.insert]: [session.add] and [flush] of a new row. *)
Definition insert_attempt (id : string) (r : TaskAttemptRow) : M Db () :=
  d ← get_state;
  raise_if (bool_decide (is_Some (db_attempts d !! id))) (integrity id);;
  put_attempt id r.
Definition insert_lease (id : string) (r : TaskLeaseRow) : M Db () :=
  d ← get_state;
  raise_if (bool_decide (is_Some (db_leases d !! id))) (integrity id);;
  put_lease id r.
Definition insert_result (id : string) (r : WorkerResultRow) : M Db () :=
  d ← get_state;
  raise_if (bool_decide (is_Some (db_results d !! id))) (integrity id);;
  put_result id r.
Definition add_outbox (stable_workflow_id : string) (r : OutboxRow) : M Db () :=
  d ← get_state;
  raise_if (bool_decide (is_Some (db_outbox d !! stable_workflow_id))) (integrity stable_workflow_id);;
  put_state (d <| db_outbox := <[stable_workflow_id := r]> (db_outbox d) |>).

(** The truth value of an optional string and of an optional integer ([x or default]). *)
Definition or_default (o : option Z) (d : Z) : Z :=
  match o with Some n => if n =? 0 then d else n | None => d end.

(** ** Raw tokens in metadata *)
Definition _FORBIDDEN_RAW_KEYS : list string :=
  ["token"; "membership_token"; "raw_token"; "bearer_token"; "worker_token"].

Definition forbidden (key : string) : bool := bool_decide (to_lower key ∈ _FORBIDDEN_RAW_KEYS).

(** The first failing entry of a loop over indexed values. *)
Fixpoint first_error {A} (check : nat → A → result ()) (i : nat) (l : list A) : result () :=
  match l with
  | [] => Ok ()
  | x :: l' => match check i x with Ok _ => first_error check (S i) l' | Err e => Err e end
  end.

Fixpoint _assert_no_raw_token_fields (payload : json) (path : string) : result () :=
  match payload with
  | JObj d =>
    first_error (λ _ kv,
      let key_path := path +:+ "." +:+ kv.1 in
      if forbidden kv.1
      then Err (RawTokenPersistenceError ("raw_token_field_forbidden:" +:+ key_path))
      else _assert_no_raw_token_fields kv.2 key_path) 0 d
  | JList l =>
    first_error (λ i x, _assert_no_raw_token_fields x (path +:+ "[" +:+ pretty i +:+ "]")) 0 l
  | _ => Ok ()
  end.

Definition assert_payload (payload : dict json) : result () :=
  _assert_no_raw_token_fields (JObj payload) "resource_payload".

(** ** Worker registrations *)
Section registration.
Variable hash_membership_token : string → string.

Definition verify_membership_token (token token_hash : string) : bool :=
  bool_decide (hash_membership_token token = token_hash).

(** [row.token_hash and verify_membership_token(...)]. *)
Definition token_ok (row : WorkerLeaseRow) (token : string) : bool :=
  match wl_token_hash row with
  | Some h => negb (bool_decide (h = "")) && verify_membership_token token h
  | None => false
  end.

(** The columns a worker row has never include a raw token; what is left of the check is
    the defensive test of the stored hash. *)
Definition _assert_row_has_no_raw_token (row : WorkerLeaseRow) : result () :=
  match wl_token_hash row with
  | Some h => if String.prefix "wt_" h
              then Err (RawTokenPersistenceError "token_hash_looks_like_raw_token") else Ok ()
  | None => Ok ()
  end.

(** The keyword arguments of [upsert_registration]. *)
Record Registration := mkRegistration {
  rg_project_id : string;
  rg_node_identity : string;
  rg_architecture : string;
  rg_runtime_version : string;
  rg_capacity_units : float;
  rg_membership_token : string;
  rg_status : string;
  rg_generation : Z;
  rg_trust_class : string;
  rg_labels : list json;
  rg_capabilities : list json;
  rg_privacy_classes : list json;
  rg_resource_payload : dict json;
  rg_policy_version : option string;
  rg_software_version : option string;
  rg_build_sha : option string
}.

(** The columns written by [upsert_registration]; [old] is the existing row, if any. *)
Definition registered_row (now : Z) (tid : string) (g : Registration) (old : option WorkerLeaseRow)
    : WorkerLeaseRow :=
  mkWorkerLeaseRow (rg_node_identity g) (rg_architecture g) (rg_runtime_version g)
    (rg_capacity_units g) (rg_generation g) (rg_status g) now (rg_labels g) (rg_capabilities g)
    (Some (rg_project_id g)) (Some (rg_trust_class g))
    (Some (hash_membership_token (rg_membership_token g))) (Some tid)
    (match old with Some r => wl_registered_at r | None => Some now end) (Some now)
    (old ≫= wl_drain_requested_at) (old ≫= wl_revoked_at) (rg_policy_version g)
    (rg_software_version g) (rg_build_sha g)
    (if bool_decide (length (rg_privacy_classes g) = 0%nat) then [JStr "local"]
     else rg_privacy_classes g)
    (rg_resource_payload g).

Definition upsert_registration (now : Z) (tid worker_id : string) (g : Registration)
    : M Db (WorkerLeaseRow * string) :=
  of_result (assert_payload (rg_resource_payload g));;
  d ← get_state;
  let row := registered_row now tid g (db_workers d !! worker_id) in
  put_worker worker_id row;;
  of_result (_assert_row_has_no_raw_token row);;
  mret (row, tid).

Definition get_worker (worker_id : string) : M Db WorkerLeaseRow :=
  d ← get_state;
  require (db_workers d !! worker_id) (WorkerNotEligibleError "worker_not_found").

Definition rotate_membership_token (now : Z) (tid worker_id current_token new_token : string)
    : M Db (WorkerLeaseRow * string) :=
  row ← get_worker worker_id;
  raise_if (bool_decide (is_Some (wl_revoked_at row))) (WorkerNotEligibleError "worker_revoked");;
  raise_if (negb (token_ok row current_token)) (WorkerNotEligibleError "invalid_membership_token");;
  raise_if (existsb (λ k, contains k (to_lower new_token)) ["sk-"; "api_key"; "secret="])
    (WorkerNotEligibleError "provider_secret_forbidden_on_worker_token");;
  let row := row <| wl_token_hash := Some (hash_membership_token new_token) |>
                 <| wl_token_id := Some tid |>
                 <| wl_lease_generation := wl_lease_generation row + 1 |>
                 <| wl_updated_at := Some now |> in
  put_worker worker_id row;;
  of_result (_assert_row_has_no_raw_token row);;
  mret (row, tid).

Definition revoke_worker (now : Z) (worker_id : string) : M Db WorkerLeaseRow :=
  row ← get_worker worker_id;
  let row := row <| wl_revoked_at := Some now |> <| wl_status := "quarantined" |>
                 <| wl_lease_generation := wl_lease_generation row + 1 |>
                 <| wl_token_hash := None |> <| wl_token_id := None |>
                 <| wl_updated_at := Some now |> in
  put_worker worker_id row;;
  mret row.

Definition request_drain (now : Z) (worker_id : string) : M Db WorkerLeaseRow :=
  row ← get_worker worker_id;
  if bool_decide (is_Some (wl_revoked_at row)) || bool_decide (wl_status row = "quarantined")
  then mret row
  else
    let row := row <| wl_status := "draining" |> <| wl_drain_requested_at := Some now |>
                   <| wl_updated_at := Some now |> in
    put_worker worker_id row;;
    mret row.

(** The checks shared by heartbeats and advertisements. *)
Definition require_member (worker_id membership_token : string) (generation : Z)
    : M Db WorkerLeaseRow :=
  row ← get_worker worker_id;
  raise_if (bool_decide (is_Some (wl_revoked_at row))) (WorkerNotEligibleError "worker_revoked");;
  raise_if (negb (token_ok row membership_token)) (WorkerNotEligibleError "invalid_membership_token");;
  raise_if (negb (wl_lease_generation row =? generation))
    (WorkerNotEligibleError "worker_generation_mismatch");;
  mret row.

(** [dict(j or {})]. *)
Definition py_dict (j : json) : result (dict json) :=
  if negb (py_truthy j) then Ok [] else
  match j with
  | JObj d => Ok d
  | JList l =>
    foldl (λ acc x, match acc, x with
                    | Ok d, JList [JStr k; v] => Ok (dict_set d k v)
                    | Ok d, JStr (String a (String b EmptyString)) =>
                        Ok (dict_set d (String a EmptyString) (JStr (String b EmptyString)))
                    | Ok _, _ => Err (ValueError "dictionary update sequence element")
                    | Err e, _ => Err e
                    end) (Ok []) l
  | JStr _ => Err (ValueError "dictionary update sequence element")
  | _ => Err (TypeError ("'" +:+ type_name j +:+ "' object is not iterable"))
  end.

(** The state a heartbeat's [worker_state] moves the worker to. *)
Definition heartbeat_state (clock : Z) (worker_state : option string) (row : WorkerLeaseRow)
    : WorkerLeaseRow :=
  match worker_state with
  | Some "draining" => if bool_decide (wl_status row = "online")
      then row <| wl_status := "draining" |> <| wl_drain_requested_at := Some clock |> else row
  | Some "offline" => if bool_decide (wl_status row = "draining")
      then row <| wl_status := "offline" |> else row
  | Some "active" => if bool_decide (wl_status row = "offline")
      then row <| wl_status := "online" |> else row
  | _ => row
  end.

Definition record_heartbeat (clock : Z) (worker_id membership_token : string) (generation : Z)
    (worker_state : option string) (active_lease_ids : option (list string))
    (available health : option (dict json)) : M Db WorkerLeaseRow :=
  row ← require_member worker_id membership_token generation;
  raise_if (bool_decide (wl_status row = "quarantined"))
    (WorkerNotEligibleError "worker_status:quarantined");;
  let row := heartbeat_state clock worker_state
    (row <| wl_heartbeat_at := clock |> <| wl_updated_at := Some clock |>) in
  put_worker worker_id row;;
  let payload := wl_resource_payload row in
  progress ← of_result (py_dict (jget (JObj payload) "last_heartbeat_progress"));
  let progress := match active_lease_ids with
    | Some l => dict_set progress "active_lease_ids" (JList (JStr <$> l)) | None => progress end in
  let progress := match available with
    | Some a => dict_set progress "available" (JObj a) | None => progress end in
  let progress := match health with
    | Some h => dict_set progress "health" (JObj h) | None => progress end in
  let progress := dict_set progress "observed_at" (JStr (isoformat clock)) in
  let payload := dict_set payload "last_heartbeat_progress" (JObj progress) in
  of_result (assert_payload payload);;
  let row := row <| wl_resource_payload := payload |> in
  put_worker worker_id row;;
  mret row.

(** [set(str(c) for c in l)] and [sorted] of it. *)
Definition strings_of (l : list json) : gset string := list_to_set (py_str <$> l).
Definition sorted_strings (l : list json) : list json :=
  JStr <$> sort_by str_leb (remove_dups (py_str <$> l)).

Definition advertise_capabilities (now : Z) (worker_id membership_token : string) (generation : Z)
    (capabilities : option (list json)) (capacity_units : option float)
    (privacy_classes : option (list json)) : M Db WorkerLeaseRow :=
  row ← require_member worker_id membership_token generation;
  row ← match capabilities with
        | Some caps =>
          raise_if (negb (bool_decide (strings_of caps ⊆ strings_of (wl_capabilities row))))
            (WorkerNotEligibleError "capability_expansion_forbidden");;
          let row := row <| wl_capabilities := sorted_strings caps |> in
          put_worker worker_id row;; mret row
        | None => mret row
        end;
  row ← match capacity_units with
        | Some u =>
          raise_if (fltb (wl_capacity_units row) u)
            (WorkerNotEligibleError "capacity_expansion_forbidden");;
          let row := row <| wl_capacity_units := u |> in
          put_worker worker_id row;; mret row
        | None => mret row
        end;
  row ← match privacy_classes with
        | Some ps =>
          raise_if (negb (bool_decide (strings_of ps ⊆ strings_of (wl_privacy_classes row))))
            (WorkerNotEligibleError "privacy_expansion_forbidden");;
          let row := row <| wl_privacy_classes := sorted_strings ps |> in
          put_worker worker_id row;; mret row
        | None => mret row
        end;
  let row := row <| wl_updated_at := Some now |> in
  put_worker worker_id row;;
  mret row.

Definition verify_membership (worker_id membership_token : string) (d : Db) : bool :=
  match db_workers d !! worker_id with
  | Some row => bool_decide (wl_revoked_at row = None) && token_ok row membership_token
  | None => false
  end.
End registration.
