(* ===== verification/Leases.v ===== *)
(** * Leases: claim, renew, expire, submit, accept and cancel
    (class LeaseLifecycleService of src/swarm/db/lease_fencing.py)

    Each method is one computation on [Db].  Rows it read earlier are passed along as the
    session's identity map does; a row is written back where the source assigns to it.
    [SELECT ... FOR UPDATE SKIP LOCKED] skips the rows other transactions hold: [locked n]
    is the set of task ids skipped when page [n] is read.  Ids are ordered by code point
    (the C collation), in the scan and in its keyset condition alike.

    The claim's page loop takes fuel: every page but the last is full and starts after the
    previous one, so one more page than there are tasks is enough ([LeaseScan.claim_scan_ends]). *)
From S2P Require Import Prelude Collections Contracts PyFloat Json LeaseTables.
Open Scope Z_scope.

Definition _ACTIVE_LEASE_STATES : list string := ["active"; "renewed"].
Definition _CLAIMABLE_TASK_STATUS : string := "ready".
Definition _RUNNABLE_MISSION_STATUSES : list string :=
  ["planning"; "running"; "waiting_capacity"; "waiting_input"; "waiting_approval"; "verifying"].
Definition _DEPENDENCY_DONE_STATUSES : list string := ["accepted"; "completed"].
Definition _NON_DISPATCHABLE_ON_STALE_EXPIRE : string := "superseded".
Definition _CANCELLED_ON_EXPIRE : string := "cancelled".
Definition _TERMINAL_TASK_STATUSES : list string :=
  ["accepted"; "rejected"; "failed"; "cancelled"; "superseded"].
Definition _TERMINAL_ATTEMPT_STATUSES : list string :=
  ["succeeded"; "failed"; "cancelled"; "expired"; "accepted"].

Record ClaimedLease := mkClaimedLease {
  cl_task_id : string;
  cl_attempt_id : string;
  cl_lease_id : string;
  cl_mission_id : string;
  cl_project_id : string;
  cl_worker_id : string;
  cl_worker_generation : Z;
  cl_task_revision : Z;
  cl_expires_at : Z;
  cl_state : string
}.

Record MissionCancellation := mkMissionCancellation {
  mc_mission_id : string;
  mc_previous_generation : Z;
  mc_new_generation : Z;
  mc_terminal : bool;
  mc_notified_lease_ids : list string
}.

Record AcceptedResult := mkAcceptedResult {
  ac_result_id : string;
  ac_attempt_id : string;
  ac_lease_id : string;
  ac_task_id : string;
  ac_mission_id : string;
  ac_project_id : string;
  ac_acceptance_state : string;
  ac_accepted_at : Z
}.

Record LeaseConfig := mkLeaseConfig {
  default_lease_seconds : Z;
  renewable_horizon_seconds : Z;
  candidate_page_size : nat   (** [max(1, candidate_page_size)] is applied by [page_size] *)
}.
Definition default_leases : LeaseConfig := mkLeaseConfig 60 3600 32.
Definition page_size (cfg : LeaseConfig) : nat := Nat.max 1 (candidate_page_size cfg).

(** ** Reading the tables *)
Definition is_active (l : TaskLeaseRow) : bool := one_of (tl_state l) _ACTIVE_LEASE_STATES.

Definition _mission_source_revision (m : MissionRow) : string :=
  match jget (mr_payload m) "source_revision" with
  | JStr s => if bool_decide (s = "") then "msnrev:" +:+ pretty (mr_revision m) else s
  | _ => "msnrev:" +:+ pretty (mr_revision m)
  end.

Definition list_active_for_worker (worker_id : string) (d : Db) : list (string * TaskLeaseRow) :=
  sort_by (λ a b, (tl_issued_at a.2 <? tl_issued_at b.2)
                  || ((tl_issued_at a.2 =? tl_issued_at b.2) && str_leb a.1 b.1))
    (List.filter (λ kl, bool_decide (tl_worker_id kl.2 = worker_id) && is_active kl.2)
       (map_to_list (db_leases d))).

Definition list_active_for_attempt (attempt_id : string) (d : Db) : list (string * TaskLeaseRow) :=
  List.filter (λ kl, bool_decide (tl_attempt_id kl.2 = attempt_id) && is_active kl.2)
    (map_to_list (db_leases d)).

Definition list_active_for_mission (mission_id : string) (d : Db) : list (string * TaskLeaseRow) :=
  sort_by (λ a b, str_leb a.1 b.1)
    (List.filter (λ kl, bool_decide (tl_mission_id kl.2 = mission_id) && is_active kl.2)
       (map_to_list (db_leases d))).

Definition list_for_attempt (attempt_id : string) (d : Db) : list (string * WorkerResultRow) :=
  sort_by (λ a b, (wr_submitted_at a.2 <? wr_submitted_at b.2)
                  || ((wr_submitted_at a.2 =? wr_submitted_at b.2) && str_leb a.1 b.1))
    (List.filter (λ kr, bool_decide (wr_attempt_id kr.2 = attempt_id)) (map_to_list (db_results d))).

Definition get_accepted_for_attempt (attempt_id : string) (d : Db) : option string :=
  fst <$> find (λ kr, bool_decide (wr_attempt_id kr.2 = attempt_id)
                      && bool_decide (wr_acceptance_state kr.2 = "accepted"))
            (map_to_list (db_results d)).

Definition _has_active_lease (task_id : string) (d : Db) : bool :=
  existsb (λ kl, bool_decide (tl_task_id kl.2 = task_id) && is_active kl.2)
    (map_to_list (db_leases d)).

(** [payload.get("cancellation_generation")] against the mission's: [Ok true] when it is
    set and differs. *)
Definition payload_cancel_stale (task : TaskRow) (mission : MissionRow) : result bool :=
  match jget (tr_payload task) "cancellation_generation" with
  | JNull => Ok false
  | j => match py_int j with
         | Ok n => Ok (negb (n =? mr_cancellation_generation mission))
         | Err e => Err e
         end
  end.

Definition _load_claimable_mission (task : TaskRow) (d : Db) : result (option MissionRow) :=
  match db_missions d !! tr_mission_id task with
  | None => Ok None
  | Some mission =>
    if negb (one_of (mr_status mission) _RUNNABLE_MISSION_STATUSES) then Ok None
    else if bool_decide (mr_status mission = "cancelled") || (mr_cancellation_generation mission <? 0)
    then Ok None
    else if negb (bool_decide (tr_project_id task = mr_project_id mission)) then Ok None
    else if negb (tr_graph_revision task =? mr_revision mission) then Ok None
    else match payload_cancel_stale task mission with
    | Err e => Err e
    | Ok true => Ok None
    | Ok false =>
      let task_source := jget (tr_payload task) "source_revision" in
      if negb (is_null task_source)
         && negb (bool_decide (py_str task_source = _mission_source_revision mission))
      then Ok None else Ok (Some mission)
    end
  end.

Definition dependency_done (d : Db) (task : TaskRow) (dep : json) : bool :=
  match db_tasks d !! py_str dep with
  | None => false
  | Some t => bool_decide (tr_mission_id t = tr_mission_id task)
              && bool_decide (tr_project_id t = tr_project_id task)
              && (tr_graph_revision t =? tr_graph_revision task)
              && one_of (tr_status t) _DEPENDENCY_DONE_STATUSES
  end.
Definition _dependencies_satisfied (task : TaskRow) (d : Db) : bool :=
  forallb (dependency_done d task) (tr_dependency_ids task).

Definition _worker_eligible_for_task (worker : WorkerLeaseRow) (task : TaskRow) : result bool :=
  match py_set_or (jget (tr_payload task) "required_capabilities") with
  | Err e => Err e
  | Ok required =>
    match py_set (JList (wl_capabilities worker)) with
    | Err e => Err e
    | Ok have =>
      if negb (py_subset required have) then Ok false
      else match py_set (JList (tr_scopes task)) with
      | Err e => Err e
      | Ok scopes =>
        match py_set (JList (wl_privacy_classes worker)) with
        | Err e => Err e
        | Ok privacy =>
          Ok (negb (py_mem (JStr "local_only") scopes && negb (py_mem (JStr "local") privacy)))
        end
      end
    end
  end.

(** ** Claiming *)
Section lifecycle.
Variable hash_membership_token : string → string.
Variable cfg : LeaseConfig.

Definition _require_claimable_worker (worker_id membership_token : string) : M Db WorkerLeaseRow :=
  worker ← get_worker worker_id;
  raise_if (bool_decide (is_Some (wl_revoked_at worker))) (WorkerNotEligibleError "worker_revoked");;
  raise_if (one_of (wl_status worker) ["draining"; "offline"; "quarantined"])
    (WorkerNotEligibleError ("worker_status:" +:+ wl_status worker));;
  raise_if (negb (token_ok hash_membership_token worker membership_token))
    (WorkerNotEligibleError "invalid_membership_token");;
  mret worker.

Definition _require_authenticated_worker (worker_id membership_token : string) : M Db WorkerLeaseRow :=
  worker ← get_worker worker_id;
  raise_if (bool_decide (is_Some (wl_revoked_at worker))) (WorkerNotEligibleError "worker_revoked");;
  raise_if (bool_decide (wl_status worker = "quarantined"))
    (WorkerNotEligibleError "worker_status:quarantined");;
  raise_if (negb (token_ok hash_membership_token worker membership_token))
    (WorkerNotEligibleError "invalid_membership_token");;
  mret worker.

(** The scan key (priority, created_at, id), its order and its strict order. *)
Definition scan_key : Type := Z * Z * string.
Definition key_of_task (kt : string * TaskRow) : scan_key :=
  (tr_priority kt.2, tr_created_at kt.2, kt.1).
Definition scan_leb (a b : scan_key) : bool :=
  let '(p1, c1, i1) := a in let '(p2, c2, i2) := b in
  (p1 <? p2) || ((p1 =? p2) && ((c1 <? c2) || ((c1 =? c2) && str_leb i1 i2))).
Definition scan_ltb (a b : scan_key) : bool := negb (scan_leb b a).

(** The whole eligible-by-status queue of a project, in scan order. *)
Definition ready_queue (project_id : string) (locked : gset string) (d : Db) : list (string * TaskRow) :=
  sort_by (λ a b, scan_leb (key_of_task a) (key_of_task b))
    (List.filter (λ kt, bool_decide (tr_project_id kt.2 = project_id)
                        && bool_decide (tr_status kt.2 = _CLAIMABLE_TASK_STATUS)
                        && negb (bool_decide (kt.1 ∈ locked)))
       (map_to_list (db_tasks d))).

Definition after_key (after : option scan_key) (kt : string * TaskRow) : bool :=
  match after with None => true | Some k => scan_ltb k (key_of_task kt) end.

Definition _lock_ready_candidates (project_id : string) (limit : nat) (after : option scan_key)
    (locked : gset string) (d : Db) : list (string * TaskRow) :=
  take limit (List.filter (after_key after) (ready_queue project_id locked d)).

(** The checks on one candidate: the mission to bind it under, if it is claimable. *)
Definition candidate (worker : WorkerLeaseRow) (d : Db) (kt : string * TaskRow)
    : result (option MissionRow) :=
  match _worker_eligible_for_task worker kt.2 with
  | Err e => Err e
  | Ok false => Ok None
  | Ok true =>
    if _has_active_lease kt.1 d then Ok None
    else if negb (_dependencies_satisfied kt.2 d) then Ok None
    else _load_claimable_mission kt.2 d
  end.

(** The first claimable candidate of a list. *)
Fixpoint first_claimable (worker : WorkerLeaseRow) (d : Db) (l : list (string * TaskRow))
    : result (option (string * TaskRow * MissionRow)) :=
  match l with
  | [] => Ok None
  | kt :: rest => match candidate worker d kt with
                  | Err e => Err e
                  | Ok (Some mission) => Ok (Some (kt, mission))
                  | Ok None => first_claimable worker d rest
                  end
  end.

(** The page loop; [None] is out of fuel. *)
Fixpoint claim_pages (fuel : nat) (page : nat) (worker : WorkerLeaseRow) (project_id : string)
    (locked : nat → gset string) (after : option scan_key) (d : Db)
    : option (result (option (string * TaskRow * MissionRow))) :=
  match fuel with
  | O => None
  | S fuel' =>
    let candidates := _lock_ready_candidates project_id (page_size cfg) after (locked page) d in
    match last candidates with
    | None => Some (Ok None)
    | Some l =>
      match first_claimable worker d candidates with
      | Err e => Some (Err e)
      | Ok (Some found) => Some (Ok (Some found))
      | Ok None =>
        if (length candidates <? page_size cfg)%nat then Some (Ok None)
        else claim_pages fuel' (S page) worker project_id locked (Some (key_of_task l)) d
      end
    end
  end.

Definition claim_search (worker : WorkerLeaseRow) (project_id : string) (locked : nat → gset string)
    (d : Db) : result (option (string * TaskRow * MissionRow)) :=
  match claim_pages (S (size (db_tasks d))) 0 worker project_id locked None d with
  | Some r => r
  | None => Ok None
  end.

Definition claim_outbox (ob_id task_id lease_id worker_id : string) (generation : Z)
    (attempt_id : string) : OutboxRow :=
  mkOutboxRow ob_id "task_attempt" attempt_id "task_lease.claimed"
    [("task_id", JStr task_id); ("lease_id", JStr lease_id); ("worker_id", JStr worker_id);
     ("worker_generation", JInt generation)] "pending".

(** The ids of the rows a claim creates. *)
Record ClaimIds := mkClaimIds { ci_attempt : string; ci_lease : string; ci_outbox : string }.

Definition _bind_claim (ids : ClaimIds) (worker_id : string) (worker : WorkerLeaseRow)
    (task_id : string) (task : TaskRow) (mission : MissionRow) (agent_profile_id : string)
    (clock lease_seconds : Z) : M Db ClaimedLease :=
  match wl_project_id worker with
  | None => raise AssertionError
  | Some project_id =>
    raise_if (negb (bool_decide (project_id = mr_project_id mission))
              || negb (bool_decide (project_id = tr_project_id task)))
      (LeaseClaimError "claim_project_mismatch");;
    let renewable_until := clock + seconds (renewable_horizon_seconds cfg) in
    let expires_at := Z.min (clock + seconds lease_seconds) renewable_until in
    let input_digest := match jget (tr_payload task) "input_digest" with
                        | JStr s => Some s | _ => None end in
    let source_revision := _mission_source_revision mission in
    let cancel_gen := mr_cancellation_generation mission in
    let generation := wl_lease_generation worker in
    insert_attempt (ci_attempt ids) (mkTaskAttemptRow task_id (Some project_id)
      (Some (tr_mission_id task)) agent_profile_id None (Some worker_id) generation
      (tr_graph_revision task) input_digest (Some source_revision) cancel_gen "leased" clock
      None None None []);;
    insert_lease (ci_lease ids) (mkTaskLeaseRow (ci_attempt ids) task_id (tr_mission_id task)
      project_id worker_id generation (tr_graph_revision task) input_digest (Some source_revision)
      cancel_gen "active" clock expires_at (Some renewable_until) [] None
      (wl_policy_version worker) clock);;
    put_task task_id (task <| tr_status := "leased" |>);;
    add_outbox ("attempt:" +:+ ci_attempt ids)
      (claim_outbox (ci_outbox ids) task_id (ci_lease ids) worker_id generation (ci_attempt ids));;
    mret (mkClaimedLease task_id (ci_attempt ids) (ci_lease ids) (tr_mission_id task) project_id
            worker_id generation (tr_graph_revision task) expires_at "active")
  end.

Definition claim_eligible_attempt (ids : ClaimIds) (locked : nat → gset string)
    (worker_id membership_token agent_profile_id : string) (clock : Z) (lease_seconds : option Z)
    : M Db (option ClaimedLease) :=
  worker ← _require_claimable_worker worker_id membership_token;
  raise_if (negb (truthy (wl_project_id worker))) (WorkerNotEligibleError "worker_missing_project_id");;
  d ← get_state;
  found ← of_result (claim_search worker (default "" (wl_project_id worker)) locked d);
  match found with
  | None => mret None
  | Some (task_id, task, mission) =>
    claimed ← _bind_claim ids worker_id worker task_id task mission agent_profile_id clock
                (or_default lease_seconds (default_lease_seconds cfg));
    mret (Some claimed)
  end.

(** ** Renewing *)
Definition _renewal_expires_at (lease : TaskLeaseRow) (clock extend_seconds : Z) : result Z :=
  let desired := clock + seconds extend_seconds in
  match tl_renewable_until lease with
  | None => Ok desired
  | Some upper =>
    if upper <=? clock then Err (LeaseRenewError "past_renewable_until")
    else
      let capped := Z.min desired upper in
      if capped <=? clock then Err (LeaseRenewError "no_positive_renewal_window")
      else if upper <=? tl_expires_at lease then Err (LeaseRenewError "no_positive_renewal_window")
      else if capped <? tl_expires_at lease then Ok (tl_expires_at lease)
      else Ok capped
  end.

(** [lease.source_revision is not None and str(...) != current]. *)
Definition source_stale (stamp : option string) (current : string) : bool :=
  match stamp with Some s => negb (bool_decide (s = current)) | None => false end.

Definition _require_current_lease_authority (lease : TaskLeaseRow) : M Db () :=
  d ← get_state;
  task ← require (db_tasks d !! tl_task_id lease) (LeaseRenewError "task_missing");
  raise_if (one_of (tr_status task) _TERMINAL_TASK_STATUSES)
    (LeaseRenewError ("task_terminal:" +:+ tr_status task));;
  raise_if (negb (bool_decide (tr_project_id task = tl_project_id lease)))
    (LeaseRenewError "task_project_mismatch");;
  raise_if (negb (tr_graph_revision task =? tl_task_revision lease))
    (LeaseRenewError "task_revision_mismatch");;
  attempt ← require (db_attempts d !! tl_attempt_id lease) (LeaseRenewError "attempt_missing");
  raise_if (negb (bool_decide (wa_task_id attempt = tl_task_id lease))
            || negb (bool_decide (wa_mission_id attempt = Some (tl_mission_id lease))))
    (LeaseRenewError "attempt_lease_mismatch");;
  raise_if (match wa_project_id attempt with
            | Some p => negb (bool_decide (p = tl_project_id lease)) | None => false end)
    (LeaseRenewError "attempt_project_mismatch");;
  raise_if (one_of (wa_status attempt) _TERMINAL_ATTEMPT_STATUSES)
    (LeaseRenewError ("attempt_terminal:" +:+ wa_status attempt));;
  raise_if (bool_decide (is_Some (wa_terminal_at attempt))) (LeaseRenewError "attempt_terminal_at_set");;
  raise_if (bool_decide (is_Some (wa_completed_at attempt))) (LeaseRenewError "attempt_completed");;
  raise_if (truthy (wa_accepted_result_id attempt)) (LeaseRenewError "attempt_accepted_result");;
  found ← of_result (_load_claimable_mission task d);
  mission ← require found (LeaseRenewError "authority_stale");
  let current_source := _mission_source_revision mission in
  raise_if (source_stale (tl_source_revision lease) current_source)
    (LeaseRenewError "source_revision_stale");;
  raise_if (negb (tl_cancellation_generation lease =? mr_cancellation_generation mission))
    (LeaseRenewError "cancellation_generation_stale");;
  raise_if (source_stale (wa_source_revision attempt) current_source)
    (LeaseRenewError "attempt_source_stale");;
  raise_if (negb (wa_cancellation_generation attempt =? mr_cancellation_generation mission))
    (LeaseRenewError "attempt_cancellation_stale");;
  raise_if (negb (wa_task_revision attempt =? mr_revision mission))
    (LeaseRenewError "attempt_revision_stale").

Definition renew_lease (lease_id worker_id : string) (worker_generation : Z)
    (membership_token : string) (extend_seconds : option Z) (clock : Z) : M Db TaskLeaseRow :=
  worker ← _require_claimable_worker worker_id membership_token;
  d ← get_state;
  lease ← require (db_leases d !! lease_id) (LeaseRenewError "lease_not_found");
  raise_if (negb (bool_decide (tl_worker_id lease = worker_id))) (LeaseRenewError "lease_worker_mismatch");;
  raise_if (negb (bool_decide (wl_project_id worker = Some (tl_project_id lease))))
    (LeaseRenewError "lease_project_mismatch");;
  raise_if (negb (tl_worker_generation lease =? worker_generation))
    (LeaseRenewError "lease_generation_mismatch");;
  raise_if (negb (wl_lease_generation worker =? worker_generation))
    (LeaseRenewError "worker_generation_mismatch");;
  raise_if (negb (is_active lease)) (LeaseRenewError ("lease_not_renewable:" +:+ tl_state lease));;
  raise_if (tl_expires_at lease <=? clock) (LeaseRenewError "lease_already_expired");;
  _require_current_lease_authority lease;;
  expires ← of_result (_renewal_expires_at lease clock
                         (or_default extend_seconds (default_lease_seconds cfg)));
  let lease := lease <| tl_expires_at := expires |> <| tl_state := "renewed" |>
                     <| tl_updated_at := clock |> in
  put_lease lease_id lease;;
  mret lease.

(** ** Expiring *)
Definition _lease_stamp_authority_stale (lease : TaskLeaseRow) (attempt : option TaskAttemptRow)
    (task : TaskRow) (mission : MissionRow) (current_source : string) : bool :=
  negb (tr_graph_revision task =? mr_revision mission)
  || negb (tl_task_revision lease =? mr_revision mission)
  || source_stale (tl_source_revision lease) current_source
  || negb (tl_cancellation_generation lease =? mr_cancellation_generation mission)
  || match attempt with
     | None => false
     | Some a => negb (wa_task_revision a =? mr_revision mission)
                 || source_stale (wa_source_revision a) current_source
                 || negb (wa_cancellation_generation a =? mr_cancellation_generation mission)
     end.

Definition _expire_task_status (task : TaskRow) (lease : TaskLeaseRow)
    (attempt : option TaskAttemptRow) (d : Db) : result string :=
  match db_missions d !! tr_mission_id task with
  | None => Ok _CANCELLED_ON_EXPIRE
  | Some mission =>
    if bool_decide (mr_status mission = "cancelled") then Ok _CANCELLED_ON_EXPIRE
    else if negb (one_of (mr_status mission) _RUNNABLE_MISSION_STATUSES) then Ok _CANCELLED_ON_EXPIRE
    else if _lease_stamp_authority_stale lease attempt task mission (_mission_source_revision mission)
    then Ok _NON_DISPATCHABLE_ON_STALE_EXPIRE
    else match _load_claimable_mission task d with
         | Err e => Err e
         | Ok None => Ok _NON_DISPATCHABLE_ON_STALE_EXPIRE
         | Ok (Some _) => Ok _CLAIMABLE_TASK_STATUS
         end
  end.

(** One expired lease. *)
Definition expire_one (clock : Z) (kl : string * TaskLeaseRow) : M Db () :=
  let lease := kl.2 <| tl_state := "expired" |> <| tl_updated_at := clock |> in
  put_lease kl.1 lease;;
  d ← get_state;
  let attempt := match db_attempts d !! tl_attempt_id lease with
    | Some a => if one_of (wa_status a) ["leased"; "running"; "pending"]
                then Some (a <| wa_status := "expired" |> <| wa_terminal_at := Some clock |>) else Some a
    | None => None
    end in
  match attempt with Some a => put_attempt (tl_attempt_id lease) a | None => mret () end;;
  match db_tasks d !! tl_task_id lease with
  | Some task =>
    if bool_decide (tr_status task = "leased") then
      d ← get_state;
      status ← of_result (_expire_task_status task lease attempt d);
      put_task (tl_task_id lease) (task <| tr_status := status |>)
    else mret ()
  | None => mret ()
  end.

(** The leases an expiry selects: active, due, not locked, earliest expiry first. *)
Definition due_leases (clock : Z) (project_id : option string) (limit : nat) (locked : gset string)
    (d : Db) : list (string * TaskLeaseRow) :=
  take limit (sort_by (λ a b, tl_expires_at a.2 <=? tl_expires_at b.2)
    (List.filter (λ kl, is_active kl.2 && (tl_expires_at kl.2 <=? clock)
                        && negb (bool_decide (kl.1 ∈ locked))
                        && match project_id with
                           | Some p => bool_decide (tl_project_id kl.2 = p) | None => true end)
       (map_to_list (db_leases d)))).

Definition expire_leases (clock : Z) (project_id : option string) (limit : nat)
    (locked : gset string) : M Db (list string) :=
  d ← get_state;
  let due := due_leases clock project_id limit locked d in
  for_each (expire_one clock) due;;
  mret (fst <$> due).

(** ** Submitting and accepting results *)
Record Submission := mkSubmission {
  sb_result_status : string;
  sb_artifact_manifest : dict json;
  sb_checks : dict json;
  sb_usage : dict json;
  sb_effect_receipts : list json
}.

Definition submit_result (result_id ob_id lease_id worker_id membership_token : string)
    (worker_generation : Z) (sub : Submission) (clock : Z) : M Db WorkerResultRow :=
  worker ← _require_authenticated_worker worker_id membership_token;
  d ← get_state;
  lease ← require (db_leases d !! lease_id) (ResultAcceptanceError "lease_not_found");
  raise_if (negb (bool_decide (tl_worker_id lease = worker_id)))
    (ResultAcceptanceError "lease_worker_mismatch");;
  raise_if (negb (bool_decide (wl_project_id worker = Some (tl_project_id lease))))
    (ResultAcceptanceError "lease_project_mismatch");;
  raise_if (negb (tl_worker_generation lease =? worker_generation))
    (ResultAcceptanceError "lease_generation_mismatch");;
  _ ← require (db_attempts d !! tl_attempt_id lease) (ResultAcceptanceError "attempt_missing");
  let row := mkWorkerResultRow (tl_attempt_id lease) lease_id (tl_task_id lease)
    (tl_mission_id lease) (tl_project_id lease) worker_id worker_generation (tl_task_revision lease)
    (tl_input_digest lease) (tl_source_revision lease) (sb_result_status sub)
    (sb_artifact_manifest sub) (sb_checks sub) (sb_usage sub) (sb_effect_receipts sub) clock
    "submitted" None None in
  insert_result result_id row;;
  add_outbox ("result:" +:+ result_id)
    (mkOutboxRow ob_id "worker_result" result_id "worker_result.submitted"
       [("result_id", JStr result_id); ("attempt_id", JStr (tl_attempt_id lease));
        ("lease_id", JStr lease_id); ("worker_id", JStr worker_id);
        ("worker_generation", JInt worker_generation)] "pending");;
  mret row.

Definition is_true (j : json) : bool := match j with JBool true => true | _ => false end.
Definition is_false (j : json) : bool := match j with JBool false => true | _ => false end.

Definition _review_checks_pass (checks : dict json) : bool :=
  let get k := jget (JObj checks) k in
  is_true (get "review_passed")
  || (is_true (get "verification_passed") && negb (is_false (get "review_passed"))).

(** The references a result claims: those of its usage and of its effect receipts. *)
Definition claimed_refs (res : WorkerResultRow) : result (list json) :=
  match py_set_or (jget (JObj (wr_usage res)) "reservation_refs") with
  | Err e => Err e
  | Ok usage_refs =>
    Ok (usage_refs ++ omap (λ receipt,
      let ref := jget receipt "reservation_ref" in
      if py_truthy ref then Some (JStr (py_str ref)) else None) (wr_effect_receipts res))
  end.

Definition _reservations_reconciled (lease : TaskLeaseRow) (res : WorkerResultRow) : result bool :=
  match tl_reservation_refs lease with
  | [] => Ok true
  | refs => match claimed_refs res with
            | Err e => Err e
            | Ok claimed => Ok (py_subset ((λ r, JStr (py_str r)) <$> refs) claimed)
            end
  end.

Definition _assert_accept_fence (result_id : string) (result : WorkerResultRow)
    (lease : TaskLeaseRow) (attempt : TaskAttemptRow) (task : TaskRow) (clock : Z) : M Db () :=
  let fail c msg := raise_if c (ResultAcceptanceError msg) in
  fail (negb (bool_decide (wr_project_id result = tl_project_id lease))
        || negb (bool_decide (wr_project_id result = tr_project_id task))) "project_mismatch";;
  fail (negb (bool_decide (wr_attempt_id result = tl_attempt_id lease))) "attempt_lease_mismatch";;
  fail (negb (bool_decide (wr_task_id result = tl_task_id lease))
        || negb (bool_decide (wr_mission_id result = tl_mission_id lease))) "result_task_mismatch";;
  fail (negb (wr_worker_generation result =? tl_worker_generation lease)) "result_generation_mismatch";;
  d ← get_state;
  worker ← require (db_workers d !! wr_worker_id result) (ResultAcceptanceError "worker_not_found");
  fail (bool_decide (is_Some (wl_revoked_at worker))) "worker_revoked";;
  fail (negb (wl_lease_generation worker =? wr_worker_generation result)) "worker_generation_stale";;
  fail (negb (bool_decide (wl_project_id worker = Some (wr_project_id result)))) "worker_project_mismatch";;
  fail (truthy (wa_accepted_result_id attempt)
        && negb (bool_decide (wa_accepted_result_id attempt = Some result_id))) "attempt_already_accepted";;
  fail (negb (is_active lease)) ("lease_not_current:" +:+ tl_state lease);;
  fail (tl_expires_at lease <=? clock) "lease_expired";;
  fail (one_of (wa_status attempt) _TERMINAL_ATTEMPT_STATUSES
        && negb (bool_decide (wa_status attempt = "accepted")))
    ("attempt_terminal:" +:+ wa_status attempt);;
  fail (one_of (tr_status task) _TERMINAL_TASK_STATUSES
        && negb (bool_decide (tr_status task = "accepted"))) ("task_terminal:" +:+ tr_status task);;
  fail (negb (wr_task_revision result =? tl_task_revision lease)) "result_task_revision_mismatch";;
  fail (negb (tr_graph_revision task =? tl_task_revision lease)) "task_revision_mismatch";;
  fail (negb (bool_decide (wr_input_digest result = tl_input_digest lease))) "input_digest_mismatch";;
  fail (negb (bool_decide (wr_source_revision result = tl_source_revision lease)))
    "source_revision_mismatch";;
  mission ← require (db_missions d !! tr_mission_id task) (ResultAcceptanceError "mission_missing");
  fail (negb (bool_decide (mr_project_id mission = wr_project_id result))) "mission_project_mismatch";;
  fail (bool_decide (mr_status mission = "cancelled")) "mission_cancelled";;
  fail (negb (one_of (mr_status mission) _RUNNABLE_MISSION_STATUSES))
    ("mission_not_runnable:" +:+ mr_status mission);;
  fail (source_stale (tl_source_revision lease) (_mission_source_revision mission)) "source_revision_stale";;
  fail (negb (tl_cancellation_generation lease =? mr_cancellation_generation mission))
    "cancellation_generation_stale";;
  stale ← of_result (payload_cancel_stale task mission);
  fail stale "task_cancellation_stale";;
  fail (negb (_review_checks_pass (wr_checks result))) "review_checks_failed";;
  reconciled ← of_result (_reservations_reconciled lease result);
  fail (negb reconciled) "reservations_unreconciled";;
  fail (match get_accepted_for_attempt (wr_attempt_id result) d with
        | Some existing => negb (bool_decide (existing = result_id)) | None => false end)
    "duplicate_accepted_result".

(** [reason[:512]]. *)
Definition _mark_rejected (result_id : string) (result : WorkerResultRow) (reason : string) : M Db () :=
  if bool_decide (wr_acceptance_state result = "accepted") then mret ()
  else put_result result_id (result <| wr_acceptance_state := "rejected" |>
         <| wr_rejection_reason := Some (String.substring 0 512 reason) |> <| wr_accepted_at := None |>).

Definition accepted_of (result_id : string) (result : WorkerResultRow) (at_ : Z) : AcceptedResult :=
  mkAcceptedResult result_id (wr_attempt_id result) (wr_lease_id result) (wr_task_id result)
    (wr_mission_id result) (wr_project_id result) "accepted" at_.

(** The writes of a successful acceptance. *)
Definition commit_acceptance (ob_id result_id : string) (result : WorkerResultRow)
    (lease : TaskLeaseRow) (attempt : TaskAttemptRow) (task : TaskRow) (clock : Z) : M Db () :=
  put_result result_id (result <| wr_acceptance_state := "accepted" |>
    <| wr_accepted_at := Some clock |> <| wr_rejection_reason := None |>);;
  put_attempt (wr_attempt_id result) (attempt <| wa_status := "accepted" |>
    <| wa_accepted_result_id := Some result_id |> <| wa_completed_at := Some clock |>
    <| wa_terminal_at := Some clock |>);;
  (if is_active lease
   then put_lease (wr_lease_id result) (lease <| tl_state := "released" |> <| tl_updated_at := clock |>)
   else mret ());;
  (if one_of (tr_status task) _TERMINAL_TASK_STATUSES then mret ()
   else put_task (wr_task_id result) (task <| tr_status := "accepted" |>));;
  add_outbox ("result-accept:" +:+ result_id)
    (mkOutboxRow ob_id "worker_result" result_id "worker_result.accepted"
       [("result_id", JStr result_id); ("attempt_id", JStr (wr_attempt_id result));
        ("lease_id", JStr (wr_lease_id result)); ("task_id", JStr (wr_task_id result))] "pending").

Definition accept_result (ob_id result_id : string) (clock : Z) : M Db AcceptedResult :=
  d ← get_state;
  result ← require (db_results d !! result_id) (ResultAcceptanceError "result_not_found");
  if bool_decide (wr_acceptance_state result = "accepted") then
    at_ ← require (wr_accepted_at result) AssertionError;
    mret (accepted_of result_id result at_)
  else
    raise_if (one_of (wr_acceptance_state result) ["rejected"; "superseded"])
      (ResultAcceptanceError ("result_terminal:" +:+ wr_acceptance_state result));;
    match db_leases d !! wr_lease_id result, db_attempts d !! wr_attempt_id result,
          db_tasks d !! wr_task_id result with
    | Some lease, Some attempt, Some task =>
      try_except (_assert_accept_fence result_id result lease attempt task clock)
        (λ exc, match exc with
                | ResultAcceptanceError reason => _mark_rejected result_id result reason;; raise exc
                | _ => raise exc
                end);;
      commit_acceptance ob_id result_id result lease attempt task clock;;
      mret (accepted_of result_id result clock)
    | _, _, _ =>
      _mark_rejected result_id result "missing_fence_rows";;
      raise (ResultAcceptanceError "missing_fence_rows")
    end.

(** ** Cancellation *)
Definition cancel_active_lease (ob_id lease_id reason : string) (clock : Z) : M Db TaskLeaseRow :=
  d ← get_state;
  lease ← require (db_leases d !! lease_id) (ResultAcceptanceError "lease_not_found");
  raise_if (negb (is_active lease)) (ResultAcceptanceError ("lease_not_active:" +:+ tl_state lease));;
  let lease := lease <| tl_state := "cancelled" |> <| tl_updated_at := clock |> in
  put_lease lease_id lease;;
  match db_attempts d !! tl_attempt_id lease with
  | Some attempt =>
    if bool_decide (wa_accepted_result_id attempt = None)
       && negb (one_of (wa_status attempt) _TERMINAL_ATTEMPT_STATUSES)
    then put_attempt (tl_attempt_id lease)
           (attempt <| wa_status := "cancelled" |> <| wa_terminal_at := Some clock |>)
    else mret ()
  | None => mret ()
  end;;
  match db_tasks d !! tl_task_id lease with
  | Some task =>
    if bool_decide (tr_status task = "leased")
    then put_task (tl_task_id lease)
           (task <| tr_status := if bool_decide (reason = "cancelled") then "cancelled" else "ready" |>)
    else mret ()
  | None => mret ()
  end;;
  add_outbox ("lease-cancel:" +:+ lease_id +:+ ":" +:+ pretty (clock `quot` 1000000))
    (mkOutboxRow ob_id "task_lease" lease_id "task_lease.cancelled"
       [("lease_id", JStr lease_id); ("reason", JStr reason)] "pending");;
  mret lease.

(** [fresh n] is the id of the [n]-th outbox row the call creates. *)
Definition revoke_mission_work (fresh : nat → string) (mission_id reason : string)
    (notify_leases : bool) (clock : Z) : M Db MissionCancellation :=
  d ← get_state;
  mission ← require (db_missions d !! mission_id) (ResultAcceptanceError "mission_missing");
  let previous := mr_cancellation_generation mission in
  put_mission mission_id (mission <| mr_cancellation_generation := previous + 1 |>);;
  add_outbox ("mission-cancel-gen:" +:+ mission_id +:+ ":" +:+ pretty (previous + 1))
    (mkOutboxRow (fresh 0%nat) "mission" mission_id "mission.cancellation_generation_bumped"
       [("mission_id", JStr mission_id); ("previous_generation", JInt previous);
        ("new_generation", JInt (previous + 1)); ("reason", JStr reason)] "pending");;
  d ← get_state;
  let notified := if notify_leases then fst <$> list_active_for_mission mission_id d else [] in
  for_each (λ nl : nat * string,
      _ ← cancel_active_lease (fresh (S nl.1)) nl.2 reason clock; mret ())
    (zip (seq 0 (length notified)) notified);;
  mret (mkMissionCancellation mission_id previous (previous + 1) false notified).

(** The [reason] a caller gives is not used: the revocation's is "cancelled". *)
Definition cancel_mission (fresh : nat → string) (mission_id reason : string) (clock : Z)
    : M Db MissionCancellation :=
  outcome ← revoke_mission_work fresh mission_id "cancelled" true clock;
  d ← get_state;
  mission ← require (db_missions d !! mission_id) AssertionError;
  put_mission mission_id (mission <| mr_status := "cancelled" |> <| mr_updated_at := clock |>);;
  mret (mkMissionCancellation mission_id (mc_previous_generation outcome)
          (mc_new_generation outcome) true (mc_notified_lease_ids outcome)).
End lifecycle.
