(* ===== verification/WorkerRegistry.v ===== *)
(** * WorkerRegistry: in-memory workers and fleet placement
    (src/swarm/workers/registry.py, workers/fleet.py)

    The registry keeps its workers in a dict, so in registration order; placement walks it in
    that order.  Clock readings and fresh ids are arguments. *)
From S2P Require Import Prelude Collections Contracts PyFloat Json.
Open Scope Z_scope.

(** ** Data *)
Record WorkerLease := mkWorkerLease {
  wk_worker_id : string;
  wk_node_identity : string;
  wk_architecture : string;
  wk_labels : list string;
  wk_capabilities : list string;
  wk_runtime_version : string;
  wk_capacity_units : float;
  wk_lease_generation : Z;
  wk_heartbeat_at : Z;
  wk_status : WorkerStatus
}.
#[export] Instance eta_WorkerLease : Eta WorkerLease := λ r,
  mkWorkerLease (wk_worker_id r) (wk_node_identity r) (wk_architecture r) (wk_labels r) (wk_capabilities r)
    (wk_runtime_version r) (wk_capacity_units r) (wk_lease_generation r) (wk_heartbeat_at r) (wk_status r).

Record WorkerRecord := mkWorkerRecord {
  rc_lease : WorkerLease;
  rc_token : string;
  rc_project_id : option string;
  rc_revoked : bool;
  rc_privacy_classes : list string;
  rc_named_inference_urls : list string;
  rc_measured_capacity : float;
  rc_claimed_task_id : option string;
  rc_last_heartbeat : Z
}.
#[export] Instance eta_WorkerRecord : Eta WorkerRecord := λ r,
  mkWorkerRecord (rc_lease r) (rc_token r) (rc_project_id r) (rc_revoked r) (rc_privacy_classes r)
    (rc_named_inference_urls r) (rc_measured_capacity r) (rc_claimed_task_id r) (rc_last_heartbeat r).

Record Registry := mkRegistry {
  rg_ttl : Z;                       (** heartbeat_ttl, in microseconds *)
  rg_workers : dict WorkerRecord;
  rg_tokens : dict string;
  rg_quarantine : gset string;
  rg_dispatch_queue : list TaskSpec
}.
#[export] Instance eta_Registry : Eta Registry := λ r,
  mkRegistry (rg_ttl r) (rg_workers r) (rg_tokens r) (rg_quarantine r) (rg_dispatch_queue r).

Definition init (heartbeat_ttl_seconds : Z) : Registry := mkRegistry (heartbeat_ttl_seconds * 1000000) [] [] ∅ [].

(** ** Operations *)
Definition put_rec (worker_id : string) (rec : WorkerRecord) : M Registry () :=
  modify (λ s, s <| rg_workers := dict_set (rg_workers s) worker_id rec |>).

(** [self._workers[worker_id]]. *)
Definition get_rec (worker_id : string) : M Registry WorkerRecord :=
  s ← get_state;
  require (dict_get (rg_workers s) worker_id) (KeyError worker_id).

Definition register (fresh_token : string) (now : Z) (lease : WorkerLease) (token project_id : option string)
    : M Registry WorkerLease :=
  let token := if truthy token then default "" token else fresh_token in
  raise_if (existsb (λ k, contains k (to_lower token)) ["sk-"; "api_key"; "secret="])
    (WorkerAuthError "provider_secret_forbidden_on_worker_token");;
  let lease := lease <| wk_status := WorkerStatus.ONLINE |> in
  put_rec (wk_worker_id lease)
    (mkWorkerRecord lease token project_id false ["local"] [] (wk_capacity_units lease) None now);;
  modify (λ s, s <| rg_tokens := dict_set (rg_tokens s) token (wk_worker_id lease) |>);;
  mret lease.

Definition _require (worker_id token : string) : M Registry WorkerRecord :=
  s ← get_state;
  raise_if (negb (bool_decide (dict_get (rg_tokens s) token = Some worker_id))) (WorkerAuthError "invalid_token");;
  rec ← get_rec worker_id;
  raise_if (rc_revoked rec) (WorkerAuthError "revoked");;
  mret rec.

Definition heartbeat (now : Z) (worker_id : string) (generation : Z) (token : string) : M Registry WorkerLease :=
  rec ← _require worker_id token;
  raise_if (negb (generation =? wk_lease_generation (rc_lease rec)))
    (StaleGenerationError "heartbeat_generation_mismatch");;
  let lease := (rc_lease rec) <| wk_heartbeat_at := now |> in
  put_rec worker_id (rec <| rc_last_heartbeat := now |> <| rc_lease := lease |>);;
  mret lease.

Definition enqueue (task : TaskSpec) : M Registry () :=
  modify (λ s, s <| rg_dispatch_queue := rg_dispatch_queue s ++ [task] |>).

(** Whether the worker may run the task: capabilities and local-only data. *)
Definition fits (rec : WorkerRecord) (task : TaskSpec) : bool :=
  forallb (λ c, one_of c (wk_capabilities (rc_lease rec))) (ts_required_capabilities task)
  && (negb (one_of "local_only" (ts_scopes task)) || one_of "local" (rc_privacy_classes rec)).

(** Every branch of the loop's body returns, so it looks at the first task only. *)
Definition claim_dispatch (worker_id token : string) : M Registry (option TaskSpec) :=
  rec ← _require worker_id token;
  s ← get_state;
  if bool_decide (wk_status (rc_lease rec) = WorkerStatus.DRAINING) then mret None
  else if bool_decide (worker_id ∈ rg_quarantine s) then mret None
  else match rg_dispatch_queue s with
  | [] => mret None
  | task :: queue =>
    if fits rec task then
      modify (λ s, s <| rg_dispatch_queue := queue |>);;
      put_rec worker_id (rec <| rc_claimed_task_id := Some (ts_id task) |>);;
      mret (Some task)
    else mret None
  end.

Definition with_status (st : WorkerStatus) (rec : WorkerRecord) : WorkerRecord :=
  rec <| rc_lease := (rc_lease rec) <| wk_status := st |> |>.

Definition drain (worker_id token : string) : M Registry WorkerLease :=
  rec ← _require worker_id token;
  let rec := with_status WorkerStatus.DRAINING rec in
  let rec := match rc_claimed_task_id rec with
    | None => with_status WorkerStatus.OFFLINE rec | Some _ => rec end in
  put_rec worker_id rec;;
  mret (rc_lease rec).

Definition complete_current (worker_id : string) : M Registry () :=
  rec ← get_rec worker_id;
  let rec := rec <| rc_claimed_task_id := None |> in
  put_rec worker_id (if bool_decide (wk_status (rc_lease rec) = WorkerStatus.DRAINING)
                     then with_status WorkerStatus.OFFLINE rec else rec).

Definition revoke_generation (worker_id : string) : M Registry Z :=
  rec ← get_rec worker_id;
  let new_gen := wk_lease_generation (rc_lease rec) + 1 in
  put_rec worker_id (rec <| rc_revoked := true |>
    <| rc_lease := (rc_lease rec) <| wk_lease_generation := new_gen |> <| wk_status := WorkerStatus.QUARANTINED |> |>);;
  modify (λ s, s <| rg_quarantine := rg_quarantine s ∪ {[worker_id]} |>
                 <| rg_tokens := List.filter (λ kv, negb (bool_decide (kv.2 = worker_id))) (rg_tokens s) |>);;
  mret new_gen.

Definition accept_result (worker_id : string) (lease_generation : Z) (task_id : string) : M Registry () :=
  rec ← get_rec worker_id;
  raise_if (negb (lease_generation =? wk_lease_generation (rc_lease rec)))
    (StaleGenerationError "stale_result_rejected");;
  s ← get_state;
  raise_if (bool_decide (worker_id ∈ rg_quarantine s)) (StaleGenerationError "quarantined");;
  raise_if (negb (bool_decide (rc_claimed_task_id rec = Some task_id))) (StaleGenerationError "task_claim_mismatch").

Definition suspect_lost_heartbeat (now : Z) (worker_id : string) : M Registry string :=
  rec ← get_rec worker_id;
  s ← get_state;
  if rg_ttl s <? now - rc_last_heartbeat rec then
    modify (λ s, s <| rg_quarantine := rg_quarantine s ∪ {[worker_id]} |>);;
    mret "suspect_quarantine_unresolved_side_effects"
  else mret "healthy".

(** The rows of [inspect], without the capacity, a float, which [json] does not have; and the
    quarantined workers it lists. *)
Definition in_project (project_id : option string) (rec : WorkerRecord) : bool :=
  match project_id with Some _ => bool_decide (rc_project_id rec = project_id) | None => true end.
Definition inspect_row (rec : WorkerRecord) : json :=
  JObj [("worker_id", JStr (wk_worker_id (rc_lease rec)));
        ("project_id", match rc_project_id rec with Some p => JStr p | None => JNull end);
        ("status", JStr (WorkerStatus.value (wk_status (rc_lease rec))));
        ("generation", JInt (wk_lease_generation (rc_lease rec)));
        ("privacy", JList (JStr <$> sort_by str_leb (remove_dups (rc_privacy_classes rec))));
        ("claimed", match rc_claimed_task_id rec with Some t => JStr t | None => JNull end);
        ("revoked", JBool (rc_revoked rec))].
Definition inspect_rows (project_id : option string) (s : Registry) : list json :=
  inspect_row <$> List.filter (in_project project_id) (dict_values (rg_workers s)).
Definition inspect_quarantine (project_id : option string) (s : Registry) : list string :=
  sort_by str_leb (List.filter (λ wid, match project_id with
    | None => true
    | Some _ => match dict_get (rg_workers s) wid with
                | Some rec => bool_decide (rc_project_id rec = project_id) | None => false end
    end) (elements (rg_quarantine s))).

(** ** Fleet placement *)
Record FleetPlacementDecision := mkFleetDecision {
  fd_decision_id : string;
  fd_project_id : string;
  fd_tenant_id : string;
  fd_worker_id : string;
  fd_locality : string;
  fd_trust_class : string;
  fd_reason : string;
  fd_at : Z
}.
Definition decision_to_dict (d : FleetPlacementDecision) : dict json :=
  [("decision_id", JStr (fd_decision_id d)); ("project_id", JStr (fd_project_id d));
   ("tenant_id", JStr (fd_tenant_id d)); ("worker_id", JStr (fd_worker_id d)); ("locality", JStr (fd_locality d));
   ("trust_class", JStr (fd_trust_class d)); ("reason", JStr (fd_reason d)); ("at", JStr (isoformat (fd_at d)))].
Record FleetAuditEvent := mkFleetAudit {
  fa_tenant_id : string;
  fa_project_id : string;
  fa_action : string;
  fa_detail : dict json
}.
(** The registry is shared: placement reads it and never writes it. *)
Record Fleet := mkFleet {
  fl_tenant_of_project : dict string;
  fl_worker_tenant : dict string;
  fl_worker_locality : dict string;
  fl_worker_trust : dict string;
  fl_audit : list FleetAuditEvent;
  fl_decisions : list FleetPlacementDecision
}.
#[export] Instance eta_Fleet : Eta Fleet := λ r,
  mkFleet (fl_tenant_of_project r) (fl_worker_tenant r) (fl_worker_locality r) (fl_worker_trust r) (fl_audit r)
    (fl_decisions r).

Definition bind_project_tenant (project_id tenant_id : string) : M Fleet () :=
  modify (λ s, s <| fl_tenant_of_project := dict_set (fl_tenant_of_project s) project_id tenant_id |>).
Definition annotate_worker (worker_id tenant_id locality trust_class : string) : M Fleet () :=
  modify (λ s, s <| fl_worker_tenant := dict_set (fl_worker_tenant s) worker_id tenant_id |>
                 <| fl_worker_locality := dict_set (fl_worker_locality s) worker_id locality |>
                 <| fl_worker_trust := dict_set (fl_worker_trust s) worker_id trust_class |>).

Definition trust_rank : dict Z := [("compute_only", 0); ("code_write", 1); ("browser_session", 2); ("operator_local", 3)].
Definition rank_of (trust : string) : Z := default 0 (dict_get trust_rank trust).

Definition audit (tenant project action : string) (detail : dict json) : M Fleet () :=
  modify (λ s, s <| fl_audit := fl_audit s ++ [mkFleetAudit tenant project action detail] |>).

(** The body of the loop of [place]: the candidate a worker yields, if any. *)
Definition consider (tenant project_id : string) (preferred_locality : option string) (min_rank : Z)
    (kv : string * WorkerRecord) : M Fleet (option (string * string * string)) :=
  let '(worker_id, rec) := kv in
  s ← get_state;
  match dict_get (fl_worker_tenant s) worker_id with
  | None => mret None
  | Some w_tenant =>
    if negb (bool_decide (w_tenant = tenant)) then
      audit tenant project_id "cross_tenant_reject" [("worker_id", JStr worker_id); ("worker_tenant", JStr w_tenant)];;
      mret None
    else if truthy (rc_project_id rec) && negb (bool_decide (rc_project_id rec = Some project_id)) then
      audit tenant project_id "cross_project_reject"
        [("worker_id", JStr worker_id); ("worker_project", JStr (default "" (rc_project_id rec)))];;
      mret None
    else
      let locality := default "local" (dict_get (fl_worker_locality s) worker_id) in
      let trust := default "compute_only" (dict_get (fl_worker_trust s) worker_id) in
      if rank_of trust <? min_rank then mret None
      else if truthy preferred_locality && negb (bool_decide (Some locality = preferred_locality)) then mret None
      else mret (Some (worker_id, locality, trust))
  end.

Fixpoint candidates (tenant project_id : string) (preferred_locality : option string) (min_rank : Z)
    (workers : dict WorkerRecord) : M Fleet (list (string * string * string)) :=
  match workers with
  | [] => mret []
  | kv :: workers =>
    c ← consider tenant project_id preferred_locality min_rank kv;
    rest ← candidates tenant project_id preferred_locality min_rank workers;
    mret (match c with Some x => x :: rest | None => rest end)
  end.

Definition place (fresh_id : string) (now : Z) (registry : Registry) (project_id : string)
    (preferred_locality : option string) (min_trust : string) : M Fleet FleetPlacementDecision :=
  s ← get_state;
  tenant ← require (dict_get (fl_tenant_of_project s) project_id) (Exn "FleetError" "project_tenant_unbound");
  cs ← candidates tenant project_id preferred_locality (rank_of min_trust) (rg_workers registry);
  match cs with
  | [] => raise (Exn "FleetError" "no_eligible_worker")
  | (worker_id, locality, trust) :: _ =>
    let decision := mkFleetDecision fresh_id project_id tenant worker_id locality trust "tenant_locality_trust" now in
    modify (λ s, s <| fl_decisions := fl_decisions s ++ [decision] |>);;
    audit tenant project_id "place" (decision_to_dict decision);;
    mret decision
  end.

Definition assert_same_tenant (actor_tenant resource_tenant action : string) : M Fleet () :=
  if bool_decide (actor_tenant = resource_tenant) then mret ()
  else
    audit actor_tenant "" "cross_tenant_denied" [("resource_tenant", JStr resource_tenant); ("denied_action", JStr action)];;
    raise (Exn "FleetError" ("cross_tenant_denied:" +:+ action)).

(** ** The registry's steps *)
Inductive registry_step (s : Registry) : Registry → Prop :=
| do_register ft now l t p : registry_step s (register ft now l t p s).2
| do_heartbeat now w g t : registry_step s (heartbeat now w g t s).2
| do_enqueue t : registry_step s (enqueue t s).2
| do_claim_dispatch w t : registry_step s (claim_dispatch w t s).2
| do_drain w t : registry_step s (drain w t s).2
| do_complete w : registry_step s (complete_current w s).2
| do_revoke w : registry_step s (revoke_generation w s).2
| do_suspect now w : registry_step s (suspect_lost_heartbeat now w s).2.

(** [m] only adds to the quarantine. *)
Definition keeps_quarantine {A} (m : M Registry A) : Prop := ∀ s, rg_quarantine s ⊆ rg_quarantine (m s).2.
Lemma kq_bind {A B} (m : M Registry A) (k : A → M Registry B) :
  keeps_quarantine m → (∀ a, keeps_quarantine (k a)) → keeps_quarantine (m ≫= k).
Proof.
  intros Hm Hk s. unfold mbind, M_bind. specialize (Hm s). destruct (m s) as [[a|e] s1]; [|done].
  etrans; [exact Hm|apply Hk].
Qed.
Lemma kq_reads {A} (m : M Registry A) : (∀ s, (m s).2 = s) → keeps_quarantine m.
Proof. intros H s. by rewrite H. Qed.
Lemma kq_modify f : (∀ s, rg_quarantine s ⊆ rg_quarantine (f s)) → keeps_quarantine (modify f).
Proof. intros H s. apply H. Qed.
Lemma kq_get {A} (k : Registry → M Registry A) : (∀ a, keeps_quarantine (k a)) → keeps_quarantine (get_state ≫= k).
Proof. intros H. apply kq_bind; [by apply kq_reads|done]. Qed.
Lemma get_rec_reads w s : (get_rec w s).2 = s.
Proof. unfold get_rec, mbind, M_bind, get_state, require. by case_match. Qed.
Lemma require_reads w t s : (_require w t s).2 = s.
Proof.
  unfold _require, get_rec, mbind, M_bind, get_state, require, raise_if. cbv beta iota zeta.
  destruct (negb _); [done|]. cbn. destruct (dict_get (rg_workers s) w); [|done]. cbn. by destruct (rc_revoked _).
Qed.

Lemma kq_ret {A} (a : A) : keeps_quarantine (mret a).
Proof. by apply kq_reads. Qed.
Lemma kq_raise_if b e : keeps_quarantine (raise_if b e).
Proof. apply kq_reads. intros s. by destruct b. Qed.
Lemma kq_require w t : keeps_quarantine (_require w t).
Proof. apply kq_reads, require_reads. Qed.
Lemma kq_get_rec w : keeps_quarantine (get_rec w).
Proof. apply kq_reads, get_rec_reads. Qed.
Lemma kq_put_rec w r : keeps_quarantine (put_rec w r).
Proof. apply kq_modify. reflexivity. Qed.

Ltac kq_tac := repeat lazymatch goal with
  | |- keeps_quarantine (mret _) => apply kq_ret
  | |- keeps_quarantine (raise_if _ _) => apply kq_raise_if
  | |- keeps_quarantine (_require _ _) => apply kq_require
  | |- keeps_quarantine (get_rec _) => apply kq_get_rec
  | |- keeps_quarantine (put_rec _ _) => apply kq_put_rec
  | |- keeps_quarantine (get_state ≫= _) => apply kq_get; intros ?
  | |- keeps_quarantine (_ ≫= _) => apply kq_bind; [|intros ?]
  | |- keeps_quarantine (modify _) => apply kq_modify; intros ?; first [reflexivity | apply union_subseteq_l]
  | _ => case_match
  end.

Lemma kq_ops :
  (∀ ft now l t p, keeps_quarantine (register ft now l t p)) ∧ (∀ now w g t, keeps_quarantine (heartbeat now w g t))
  ∧ (∀ t, keeps_quarantine (enqueue t)) ∧ (∀ w t, keeps_quarantine (claim_dispatch w t))
  ∧ (∀ w t, keeps_quarantine (drain w t)) ∧ (∀ w, keeps_quarantine (complete_current w))
  ∧ (∀ w, keeps_quarantine (revoke_generation w)) ∧ (∀ now w, keeps_quarantine (suspect_lost_heartbeat now w)).
Proof.
  split_and!; intros; [unfold register|unfold heartbeat|unfold enqueue|unfold claim_dispatch|unfold drain
    |unfold complete_current|unfold revoke_generation|unfold suspect_lost_heartbeat]; kq_tac.
Qed.
Lemma step_quarantine s s' : registry_step s s' → rg_quarantine s ⊆ rg_quarantine s'.
Proof. destruct kq_ops as (H1&H2&H3&H4&H5&H6&H7&H8). destruct 1; [apply H1|apply H2|apply H3|apply H4|apply H5|apply H6|apply H7|apply H8]. Qed.
Lemma steps_quarantine s s' : rtc registry_step s s' → rg_quarantine s ⊆ rg_quarantine s'.
Proof. induction 1 as [|x y z H _ IH]; [done|]. etrans; [by apply step_quarantine|done]. Qed.

(** ** What the registry promises *)
Lemma get_rec_run w s r : dict_get (rg_workers s) w = Some r → get_rec w s = (Ok r, s).
Proof. intros H. unfold get_rec, mbind, M_bind, get_state. by rewrite H. Qed.

(** A quarantined worker is given nothing and nothing of it is accepted. *)
Lemma quarantined_is_idle w s : w ∈ rg_quarantine s →
  (∀ t, (claim_dispatch w t s).2 = s ∧ ∀ task, (claim_dispatch w t s).1 ≠ Ok (Some task))
  ∧ ∀ g task, (accept_result w g task s).2 = s ∧ ∃ e, (accept_result w g task s).1 = Err e.
Proof.
  intros Hq. split.
  - intros t. assert (∃ r, claim_dispatch w t s = (r, s) ∧ ∀ task, r ≠ Ok (Some task)) as (r & -> & Hr); [|done].
    unfold claim_dispatch, mbind, M_bind.
    pose proof (require_reads w t s) as Hr. destruct (_require w t s) as [[rec|e] s']; simpl in Hr; subst s'; [|by eauto].
    unfold get_state. cbv beta iota. case_bool_decide; [by eauto|]. rewrite bool_decide_true by done. by eauto.
  - intros g task. assert (∃ e, accept_result w g task s = (Err e, s)) as (e & ->); [|by eauto].
    unfold accept_result, mbind, M_bind.
    pose proof (get_rec_reads w s) as Hr. destruct (get_rec w s) as [[rec|e] s']; simpl in Hr; subst s'; [|by eauto].
    unfold get_state, raise_if. cbv beta iota. destruct (negb _); [by eexists|]. cbn.
    rewrite bool_decide_true by done. by eexists.
Qed.

(** Revoking a worker is final for the work it gets: after it, whatever registrations,
    heartbeats, claims, drains and completions follow, re-registration of the same worker
    included, no task is dispatched to the worker, its results are refused, and the
    credentials it held no longer authenticate right after. *)
Theorem revoked_worker_gets_no_work w s g s1 s2 :
  revoke_generation w s = (Ok g, s1) → rtc registry_step s1 s2 →
  (∀ t task, ((claim_dispatch w t s2).1 ≠ Ok (Some task)) ∧ (claim_dispatch w t s2).2 = s2)
  ∧ (∀ gen task, ∃ e, (accept_result w gen task s2).1 = Err e)
  ∧ ∀ t, ∃ e, (_require w t s1).1 = Err e.
Proof.
  intros Hrev Hs. unfold revoke_generation, put_rec in Hrev. apply bind_Ok in Hrev as (rec & s0 & H0 & Hrev).
  pose proof (get_rec_reads w s) as Hr. rewrite H0 in Hr. simpl in Hr. subst s0.
  injection Hrev as _ <-.
  assert (w ∈ rg_quarantine s2) as Hq.
  { apply (steps_quarantine _ _ Hs). cbn. set_solver. }
  apply quarantined_is_idle in Hq as [Hc Ha]. split_and!.
  - intros t task. destruct (Hc t). auto.
  - intros gen task. apply Ha.
  - intros t. unfold _require, mbind, M_bind, get_state, raise_if. cbv beta iota.
    rewrite bool_decide_false; [cbn; eauto|]. cbn. intros Ht%dict_get_elem.
    apply list_elem_of_In, filter_In in Ht as [_ Ht]. cbn in Ht. by rewrite bool_decide_true in Ht.
Qed.

(** A dispatch takes the first task of the queue or nothing: it happens exactly when the
    worker authenticates, is neither draining nor quarantined, has every capability the task
    needs and may see its data; the task leaves the queue and becomes the worker's claim, no
    other worker and no other task is touched; otherwise nothing changes. *)
Theorem dispatch_is_exact w t s rec :
  _require w t s = (Ok rec, s) →
  (∃ task queue, rg_dispatch_queue s = task :: queue ∧ wk_status (rc_lease rec) ≠ WorkerStatus.DRAINING
     ∧ (w ∉ rg_quarantine s) ∧ fits rec task = true
     ∧ claim_dispatch w t s = (Ok (Some task), s <| rg_dispatch_queue := queue |>
         <| rg_workers := dict_set (rg_workers s) w (rec <| rc_claimed_task_id := Some (ts_id task) |>) |>))
  ∨ (claim_dispatch w t s = (Ok None, s)
     ∧ ∀ task queue, rg_dispatch_queue s = task :: queue → wk_status (rc_lease rec) ≠ WorkerStatus.DRAINING →
         (w ∉ rg_quarantine s) → fits rec task = false).
Proof.
  intros Hreq. unfold claim_dispatch, mbind, M_bind. rewrite Hreq. unfold get_state. cbv beta iota.
  case_bool_decide; [right; by split|]. case_bool_decide; [right; by split|].
  destruct (rg_dispatch_queue s) as [|task queue]; [right; by split|].
  destruct (fits rec task) eqn:Hf; [|right; split; [done|by intros ? ? [= <- <-]]].
  left. exists task, queue. done.
Qed.

(** ** Placement *)
Section placement.
Variables (f : Fleet) (tenant project_id : string) (preferred_locality : option string) (min_rank : Z).

Definition locality_of (worker_id : string) : string := default "local" (dict_get (fl_worker_locality f) worker_id).
Definition trust_of (worker_id : string) : string := default "compute_only" (dict_get (fl_worker_trust f) worker_id).

(** The workers a project may be placed on. *)
Definition eligible (kv : string * WorkerRecord) : Prop :=
  dict_get (fl_worker_tenant f) kv.1 = Some tenant
  ∧ (rc_project_id kv.2 = None ∨ rc_project_id kv.2 = Some "" ∨ rc_project_id kv.2 = Some project_id)
  ∧ min_rank <= rank_of (trust_of kv.1)
  ∧ (∀ l, preferred_locality = Some l → l ≠ "" → locality_of kv.1 = l).

(** Placement records what it rejects and leaves the annotations. *)
Definition audited (f' : Fleet) : Prop := ∃ es, f' = f <| fl_audit := fl_audit f ++ es |>
  ∧ Forall (λ a, fa_tenant_id a = tenant ∧ fa_project_id a = project_id
      ∧ (fa_action a = "cross_tenant_reject" ∨ fa_action a = "cross_project_reject")) es.
End placement.

Lemma truthy_spec o : truthy o = true ↔ ∃ s, o = Some s ∧ s ≠ "".
Proof.
  destruct o as [s|]; cbn; [|split; [done|by intros (? & ? & _)]]. rewrite negb_true_iff, bool_decide_eq_false.
  naive_solver.
Qed.

Lemma consider_spec f t p pl mr kv :
  ∃ f', audited f t p f'
    ∧ ((eligible f t p pl mr kv ∧ consider t p pl mr kv f = (Ok (Some (kv.1, locality_of f kv.1, trust_of f kv.1)), f'))
       ∨ (¬ eligible f t p pl mr kv ∧ consider t p pl mr kv f = (Ok None, f'))).
Proof.
  assert (audited f t p f) as Hsame.
  { exists []. split; [|done]. rewrite app_nil_r. by destruct f. }
  destruct kv as [w rec]. unfold consider, eligible, mbind, M_bind, get_state, audit. cbn [fst snd].
  destruct (dict_get (fl_worker_tenant f) w) as [wt|] eqn:Hwt; [|exists f; split; [done|right; split; [naive_solver|done]]].
  case_bool_decide as Ht; cbn [negb]; cycle 1.
  { eexists. split; [|right; split; [intros ([=] & _); congruence|reflexivity]].
    eexists [_]. split; [reflexivity|]. repeat constructor. }
  subst wt. destruct (truthy (rc_project_id rec) && _) eqn:Hp.
  { apply andb_true_iff in Hp as [Hp Hp']. apply truthy_spec in Hp as (q & Hq & Hne).
    apply negb_true_iff, bool_decide_eq_false in Hp'.
    eexists. split; [|right; split; [naive_solver|reflexivity]].
    eexists [_]. split; [reflexivity|]. apply Forall_singleton. split_and!; [done|done|by right]. }
  assert (rc_project_id rec = None ∨ rc_project_id rec = Some "" ∨ rc_project_id rec = Some p) as Hp'.
  { destruct (rc_project_id rec) as [q|]; [|by left]. right. cbn in Hp. apply andb_false_iff in Hp as [Hp|Hp].
    - apply negb_false_iff, bool_decide_eq_true in Hp. left. congruence.
    - apply negb_false_iff, bool_decide_eq_true in Hp. by right. }
  cbv zeta. fold (trust_of f w). fold (locality_of f w).
  destruct (rank_of (trust_of f w) <? mr) eqn:Hr; bool_to_prop.
  { exists f. split; [done|]. right. split; [|done]. intros (_ & _ & ? & _). lia. }
  destruct (truthy pl && _) eqn:Hl.
  { apply andb_true_iff in Hl as [Hl Hl']. apply truthy_spec in Hl as (q & -> & Hne).
    apply negb_true_iff, bool_decide_eq_false in Hl'.
    exists f. split; [done|]. right. split; [|done]. intros (_ & _ & _ & H). apply Hl'. f_equal. by apply H. }
  exists f. split; [done|]. left. split_and!; try done. intros l -> Hne.
  apply andb_false_iff in Hl as [Hl|Hl]; [cbn in Hl; apply negb_false_iff, bool_decide_eq_true in Hl; congruence|].
  apply negb_false_iff, bool_decide_eq_true in Hl. congruence.
Qed.

Lemma audited_same f t p f' : audited f t p f' →
  fl_worker_tenant f' = fl_worker_tenant f ∧ fl_worker_locality f' = fl_worker_locality f
  ∧ fl_worker_trust f' = fl_worker_trust f.
Proof. by intros (es & -> & _). Qed.
Lemma eligible_same f t p f' pl mr kv : audited f t p f' → eligible f' t p pl mr kv ↔ eligible f t p pl mr kv.
Proof. intros (E1 & E2 & E3)%audited_same. unfold eligible, trust_of, locality_of. by rewrite E1, E2, E3. Qed.
Lemma audited_trans f t p f1 f2 : audited f t p f1 → audited f1 t p f2 → audited f t p f2.
Proof.
  intros (es1 & -> & H1) (es2 & -> & H2). exists (es1 ++ es2). split; [cbn; by rewrite app_assoc|by apply Forall_app].
Qed.

(** The candidates are the eligible workers, in registration order. *)
Lemma candidates_spec f t p pl mr ws :
  ∃ f' cs, candidates t p pl mr ws f = (Ok cs, f') ∧ audited f t p f'
    ∧ (∀ c cs', cs = c :: cs' → ∃ pre w rec post, ws = pre ++ (w, rec) :: post ∧ Forall (λ kv, ¬ eligible f t p pl mr kv) pre
         ∧ eligible f t p pl mr (w, rec) ∧ c = (w, locality_of f w, trust_of f w))
    ∧ (cs = [] → Forall (λ kv, ¬ eligible f t p pl mr kv) ws).
Proof.
  revert f; induction ws as [|kv ws IH]; intros f.
  { exists f, []. split_and!; try done. exists []. split; [|done]. rewrite app_nil_r. by destruct f. }
  destruct (consider_spec f t p pl mr kv) as (f1 & Ha1 & Hc).
  destruct (IH f1) as (f2 & cs & Hrun & Ha2 & Hcons & Hnil). cbn [candidates]. unfold mbind, M_bind.
  exists f2. destruct Hc as [[He Hc]|[He Hc]]; rewrite Hc; cbv beta iota; rewrite Hrun; cbv beta iota; eexists;
    (split_and!; [reflexivity|by eapply audited_trans| |]).
  - intros c cs' [= <- <-]. destruct kv as [w rec]. by exists [], w, rec, ws.
  - done.
  - intros c cs' ->. destruct (Hcons c cs' eq_refl) as (pre & w & rec & post & -> & Hpre & Hel & ->).
    exists (kv :: pre), w, rec, post. split_and!; [done| | |].
    + constructor; [done|]. eapply Forall_impl; [exact Hpre|]. intros kv' Hk. by rewrite <- (eligible_same _ _ _ _ _ _ _ Ha1).
    + by rewrite <- (eligible_same _ _ _ _ _ _ _ Ha1).
    + unfold locality_of, trust_of. destruct (audited_same _ _ _ _ Ha1) as (_ & -> & ->). done.
  - intros ->. constructor; [done|]. eapply Forall_impl; [by apply Hnil|]. intros kv' Hk. by rewrite <- (eligible_same _ _ _ _ _ _ _ Ha1).
Qed.

(** Fleet placement is isolated by tenant and project and deterministic: a project
    without a tenant is refused; otherwise the project is placed on the first registered
    worker that belongs to its tenant, is bound to no other project, is trusted enough and
    has the preferred locality, with its locality and trust class in the decision; without
    such a worker placement raises and records no decision.  Everything it writes is the
    decision and audit events. *)
Theorem placement_is_isolated fid now reg p pl mt f :
  match dict_get (fl_tenant_of_project f) p with
  | None => place fid now reg p pl mt f = (Err (Exn "FleetError" "project_tenant_unbound"), f)
  | Some t =>
    (Forall (λ kv, ¬ eligible f t p pl (rank_of mt) kv) (rg_workers reg)
     ∧ ∃ f', place fid now reg p pl mt f = (Err (Exn "FleetError" "no_eligible_worker"), f') ∧ audited f t p f')
    ∨ ∃ pre w rec post f1, rg_workers reg = pre ++ (w, rec) :: post
      ∧ Forall (λ kv, ¬ eligible f t p pl (rank_of mt) kv) pre ∧ eligible f t p pl (rank_of mt) (w, rec)
      ∧ audited f t p f1
      ∧ let d := mkFleetDecision fid p t w (locality_of f w) (trust_of f w) "tenant_locality_trust" now in
        place fid now reg p pl mt f
          = (Ok d, f1 <| fl_decisions := fl_decisions f1 ++ [d] |>
                      <| fl_audit := fl_audit f1 ++ [mkFleetAudit t p "place" (decision_to_dict d)] |>)
  end.
Proof.
  unfold place, mbind, M_bind, get_state, require. cbv beta iota.
  destruct (dict_get (fl_tenant_of_project f) p) as [t|]; [|done].
  destruct (candidates_spec f t p pl (rank_of mt) (rg_workers reg)) as (f1 & cs & Hrun & Ha & Hcons & Hnil).
  unfold mret, M_ret. cbv beta iota. rewrite Hrun. cbv beta iota.
  destruct cs as [|c cs]; [left; split; [by apply Hnil|by eauto]|right].
  destruct (Hcons c cs eq_refl) as (pre & w & rec & post & E & Hpre & Hel & ->).
  exists pre, w, rec, post, f1. split_and!; try done.
Qed.

(** ** Samples *)
Module RegistrySample.
Definition lease (id : string) (caps : list string) : WorkerLease :=
  mkWorkerLease id "node" "arm64" [] caps "0.1.0" f_2 1 0 WorkerStatus.ONLINE.
Definition task (id : string) (caps : list string) : TaskSpec :=
  mkTaskSpec id "proj" "m1" "2026" None id "code" [] [] 0 TaskStatus.READY caps.
Definition r0 : Registry := (register "x" 0 (lease "w1" ["py"]) (Some "tk1") None (init 30)).2.
Definition r1 : Registry := (enqueue (task "t2" []) (enqueue (task "t1" ["py"]) r0).2).2.

Definition r2 : Registry := (register "y" 1 (lease "w1" ["py"]) (Some "tk2") None (revoke_generation "w1" r1).2).2.
Lemma revoked_worker_gets_no_work_witness : ∃ e, (accept_result "w1" 1 "t1" r2).1 = Err e.
Proof.
  eapply (revoked_worker_gets_no_work "w1" r1 2 (revoke_generation "w1" r1).2).
  - vm_compute. reflexivity.
  - apply rtc_once, do_register.
Defined.

Lemma dispatch_is_exact_witness :
  ∃ rec, _require "w1" "tk1" r1 = (Ok rec, r1) ∧ (claim_dispatch "w1" "tk1" r1).1 = Ok (Some (task "t1" ["py"])).
Proof.
  eexists. split; [vm_compute; reflexivity|].
  edestruct (dispatch_is_exact "w1" "tk1" r1) as [(tk & q & Hq & _ & _ & _ & ->)|[_ Hn]].
  - vm_compute. reflexivity.
  - vm_compute in Hq. by injection Hq as <- _.
  - vm_compute. reflexivity.
Defined.

(** A worker drained without a claim is offline, and is still given work: only the draining
    status is refused. *)
Lemma drained_worker_is_given_work :
  let s := (drain "w1" "tk1" r1).2 in
  wk_status ∘ rc_lease <$> dict_get (rg_workers s) "w1" = Some WorkerStatus.OFFLINE
  ∧ (claim_dispatch "w1" "tk1" s).1 = Ok (Some (task "t1" ["py"])).
Proof. split; vm_compute; reflexivity. Qed.

(** A second claim replaces the first: the first task is in no queue, and its result is
    refused. *)
Lemma second_claim_loses_the_first :
  let s := (claim_dispatch "w1" "tk1" (claim_dispatch "w1" "tk1" r1).2).2 in
  rg_dispatch_queue s = [] ∧ (accept_result "w1" 1 "t1" s).1 = Err (StaleGenerationError "task_claim_mismatch").
Proof. split; vm_compute; reflexivity. Qed.

(** A task the worker does not fit is put back at the front and nothing behind it is tried,
    while the comment says it is skipped. *)
Lemma unfit_task_blocks_the_queue :
  let s := (enqueue (task "t2" []) (enqueue (task "t1" ["gpu"]) r0).2).2 in
  (claim_dispatch "w1" "tk1" s).1 = Ok None.
Proof. vm_compute. reflexivity. Qed.

(** Placement does not look at the worker's state: it places a project on a revoked and
    quarantined worker. *)
Definition fleet : Fleet :=
  (annotate_worker "w1" "ten" "local" "code_write" (bind_project_tenant "p" "ten" (mkFleet [] [] [] [] [] [])).2).2.
Lemma revoked_worker_is_placed :
  let s := (revoke_generation "w1" r1).2 in
  fd_worker_id <$> (match (place "d1" 5 s "p" None "code_write" fleet).1 with Ok d => Some d | Err _ => None end) = Some "w1"
  ∧ rg_quarantine s = {["w1"]} ∧ rc_revoked <$> dict_get (rg_workers s) "w1" = Some true.
Proof. split_and!; vm_compute; reflexivity. Qed.
End RegistrySample.
