(* ===== verification/WorkerService.v ===== *)
(** * WorkerService: the control-plane worker service
    (src/swarm/workers/service.py, workers/envelopes.py)

    [DurableWorkerService] checks the protocol version of a message and composes the
    operations of the worker registrations ([LeaseTables]) and of the lease lifecycle
    ([Leases]) on one database session; it writes a row itself in two places, the progress
    note of a renewal and the end of a drain.  Messages are records with the fields of the
    pydantic models; fields of responses that are constants of the model
    (protocol_version, server_protocol_version, lease_defaults) are left out.  Ids, clock readings and the locks other transactions hold are
    arguments. *)
From S2P Require Import Prelude Collections Contracts PyFloat Json LeaseTables Leases.
Open Scope Z_scope.

Definition PROTOCOL_VERSION : string := "1.0".
Definition SUPPORTED_PROTOCOL_RANGE : string * string := ("1.0", "1.0").
Definition _DEFAULT_TRUST_ALLOW : list string :=
  ["compute_only"; "code_write"; "browser_session"; "operator_local"; "standard"].

(** ** Messages *)
Record WorkerSoftwareInfo := mkSoftware {
  si_swarm_version : string;
  si_worker_build_sha : option string;
  si_protocol_schema_version : string
}.
Record WorkerResources := mkResources {
  re_worker_slots : Z;
  re_local_inference_slots : Z;
  re_memory_mb : option Z;
  re_gpu_classes : list string;
  re_named_local_routes : list string
}.
Record ArtifactTransportInfo := mkTransport { at_schemes : list string; at_max_inline_bytes : Z }.

Record EnrollmentRequest := mkEnrollment {
  eq_protocol_version : string;
  eq_worker_nonce : string;
  eq_host_alias : string;
  eq_project_id : string;
  eq_software : WorkerSoftwareInfo;
  eq_scopes_requested : list string;
  eq_capabilities : list string;
  eq_trust_class : string;
  eq_resources : WorkerResources;
  eq_artifact_transport : ArtifactTransportInfo;
  eq_architecture : string;
  eq_runtime_version : string;
  eq_capacity_units : float;
  eq_privacy_classes : list string;
  eq_labels : list string;
  eq_policy_version : option string;
  eq_worker_id : option string
}.
Record EnrollmentResponse := mkEnrolled {
  es_worker_id : string;
  es_generation : Z;
  es_membership_token : string;
  es_token_id : string;
  es_scopes_granted : list string;
  es_capabilities_granted : list string;
  es_trust_class : string;
  es_heartbeat_interval_seconds : Z;
  es_policy_version : option string;
  es_project_id : string
}.
Record WorkerHeartbeatRequest := mkHeartbeat {
  hb_protocol_version : string;
  hb_worker_id : string;
  hb_generation : Z;
  hb_membership_token : string;
  hb_observed_at : Z;
  hb_worker_state : string;
  hb_active_lease_ids : list string;
  hb_available : dict json;
  hb_health : dict json;
  hb_capability_changes : list string;
  hb_progress_class : option string
}.
Record WorkerHeartbeatResponse := mkBeaten {
  ht_worker_id : string;
  ht_generation : Z;
  ht_status : string;
  ht_server_received_at : Z;
  ht_active_lease_ids : list string;
  ht_cancel_notices : list string
}.
Record CapabilityAdvertisement := mkAdvertisement {
  cv_protocol_version : string;
  cv_worker_id : string;
  cv_generation : Z;
  cv_membership_token : string;
  cv_capabilities : option (list string);
  cv_capacity_units : option float;
  cv_privacy_classes : option (list string)
}.
Record ClaimDispatchRequest := mkClaimRequest {
  cq_protocol_version : string;
  cq_worker_id : string;
  cq_generation : Z;
  cq_membership_token : string;
  cq_agent_profile_id : string
}.
(** [None] is the response with claimed=False. *)
Definition ClaimDispatchResponse : Type := option ClaimedLease.
Record RenewLeaseRequest := mkRenewRequest {
  nq_protocol_version : string;
  nq_lease_id : string;
  nq_worker_id : string;
  nq_generation : Z;
  nq_membership_token : string;
  nq_progress_class : string;
  nq_extend_seconds : option Z
}.
Record RenewLeaseResponse := mkRenewed {
  rn_lease_id : string;
  rn_state : string;
  rn_expires_at : Z;
  rn_renewable_until : option Z
}.
Record ResultSubmitRequest := mkSubmitRequest {
  sq_protocol_version : string;
  sq_lease_id : string;
  sq_worker_id : string;
  sq_generation : Z;
  sq_membership_token : string;
  sq_status : string;
  sq_summary : option string;
  sq_artifact_manifest : dict json;
  sq_checks : dict json;
  sq_usage : dict json;
  sq_effect_receipts : list json;
  sq_result_id : option string
}.
Record ResultSubmitResponse := mkSubmitted {
  ss_result_id : string;
  ss_acceptance_state : string;
  ss_attempt_id : string;
  ss_lease_id : string;
  ss_submitted_at : Z
}.
Record DrainRequest := mkDrainRequest {
  dq_protocol_version : string;
  dq_worker_id : string;
  dq_generation : Z;
  dq_membership_token : string
}.
Record DrainResponse := mkDrained {
  dr_worker_id : string;
  dr_status : string;
  dr_active_lease_ids : list string;
  dr_drain_requested_at : option Z
}.
Record CancelLeaseRequest := mkCancelRequest {
  kq_protocol_version : string;
  kq_lease_id : string;
  kq_reason : string
}.
Record CancelLeaseResponse := mkCancelled { ks_lease_id : string; ks_state : string }.
Record ReconnectRequest := mkReconnectRequest {
  xq_protocol_version : string;
  xq_worker_id : string;
  xq_generation : Z;
  xq_membership_token : string
}.
Record ReconnectResponse := mkReconnected {
  xs_worker_id : string;
  xs_generation : Z;
  xs_status : string;
  xs_active_leases : list json
}.

(** ** Checks and rendering *)
Definition _require_protocol {S} (version : string) : M S () :=
  raise_if (negb (str_leb SUPPORTED_PROTOCOL_RANGE.1 version) || negb (str_leb version SUPPORTED_PROTOCOL_RANGE.2))
    (ProtocolVersionError ("unsupported_protocol:" +:+ version)).

(** [model_dump] of the nested models. *)
Definition dump_resources (r : WorkerResources) : json :=
  JObj [("worker_slots", JInt (re_worker_slots r)); ("local_inference_slots", JInt (re_local_inference_slots r));
        ("memory_mb", match re_memory_mb r with Some n => JInt n | None => JNull end);
        ("gpu_classes", JList (JStr <$> re_gpu_classes r));
        ("named_local_routes", JList (JStr <$> re_named_local_routes r))].
Definition dump_transport (t : ArtifactTransportInfo) : json :=
  JObj [("schemes", JList (JStr <$> at_schemes t)); ("max_inline_bytes", JInt (at_max_inline_bytes t))].

Definition _reject_secret_bearing_nonce {S} (q : EnrollmentRequest) : M S () :=
  let blob := to_lower (join " " [eq_worker_nonce q; eq_host_alias q; join " " (eq_capabilities q);
                                  py_str (dump_resources (eq_resources q))]) in
  raise_if (existsb (λ needle, contains needle blob) ["sk-"; "api_key"; "secret="; "password"; "cookie="])
    (WorkerNotEligibleError "provider_secret_forbidden_on_enrollment").

(** [sorted(set(l))]. *)
Definition sorted_set (l : list string) : list string := sort_by str_leb (remove_dups l).

Section service.
Variable hash_membership_token : string → string.
Variable cfg : LeaseConfig.
Variable allowlist : option (list string).
Variable heartbeat_interval_seconds : Z.

Definition _grant_capabilities (requested : list string) : list string :=
  match allowlist with
  | None => sorted_set requested
  | Some allowed => sorted_set (List.filter (λ c, one_of c allowed) requested)
  end.

Definition granted_trust (trust_class : string) : string :=
  if one_of trust_class _DEFAULT_TRUST_ALLOW then trust_class else "compute_only".

Definition granted_scopes (project_id : string) (requested : list string) : list string :=
  let project_scope := "project:" +:+ project_id in
  if one_of project_scope requested then requested else project_scope :: requested.

(** Ids: the new membership token, its id, and a worker id for a first enrollment. *)
Definition enroll (now : Z) (token tid fresh_worker : string) (q : EnrollmentRequest) : M Db EnrollmentResponse :=
  _require_protocol (eq_protocol_version q);;
  _reject_secret_bearing_nonce q;;
  let granted_caps := _grant_capabilities (eq_capabilities q) in
  let trust := granted_trust (eq_trust_class q) in
  let worker_id := if truthy (eq_worker_id q) then default "" (eq_worker_id q) else fresh_worker in
  d ← get_state;
  let generation := match db_workers d !! worker_id with
    | Some existing => wl_lease_generation existing + 1 | None => 1 end in
  '(row, token_id) ← upsert_registration hash_membership_token now tid worker_id
    (mkRegistration (eq_project_id q) (eq_host_alias q) (eq_architecture q) (eq_runtime_version q)
       (eq_capacity_units q) token "online" generation trust (JStr <$> eq_labels q) (JStr <$> granted_caps)
       (JStr <$> eq_privacy_classes q)
       [("resources", dump_resources (eq_resources q)); ("artifact_transport", dump_transport (eq_artifact_transport q));
        ("worker_nonce", JStr (eq_worker_nonce q))]
       (eq_policy_version q) (Some (si_swarm_version (eq_software q))) (si_worker_build_sha (eq_software q)));
  mret (mkEnrolled worker_id (wl_lease_generation row) token token_id
    (granted_scopes (eq_project_id q) (eq_scopes_requested q)) granted_caps trust
    heartbeat_interval_seconds (eq_policy_version q) (eq_project_id q)).

Definition _lease_cancellation_stale (lease : TaskLeaseRow) (d : Db) : bool :=
  match db_missions d !! tl_mission_id lease with
  | None => true
  | Some mission => negb (tl_cancellation_generation lease =? mr_cancellation_generation mission)
  end.

Definition heartbeat (now : Z) (q : WorkerHeartbeatRequest) : M Db WorkerHeartbeatResponse :=
  _require_protocol (hb_protocol_version q);;
  raise_if (negb (bool_decide (hb_capability_changes q = [])))
    (WorkerNotEligibleError "capability_changes_require_advertise_or_reenroll");;
  row ← record_heartbeat hash_membership_token (hb_observed_at q) (hb_worker_id q) (hb_membership_token q)
    (hb_generation q) (Some (hb_worker_state q)) (Some (hb_active_lease_ids q)) (Some (hb_available q))
    (Some (hb_health q));
  d ← get_state;
  let active := list_active_for_worker (hb_worker_id q) d in
  mret (mkBeaten (hb_worker_id q) (wl_lease_generation row) (wl_status row) now (fst <$> active)
    (fst <$> List.filter (λ kl, _lease_cancellation_stale kl.2 d) active)).

Definition advertise (now : Z) (q : CapabilityAdvertisement) : M Db WorkerLeaseRow :=
  _require_protocol (cv_protocol_version q);;
  advertise_capabilities hash_membership_token now (cv_worker_id q) (cv_membership_token q) (cv_generation q)
    (option_map (map JStr) (cv_capabilities q)) (cv_capacity_units q) (option_map (map JStr) (cv_privacy_classes q)).

Definition claim (ids : ClaimIds) (locked : nat → gset string) (now : Z) (q : ClaimDispatchRequest)
    : M Db ClaimDispatchResponse :=
  _require_protocol (cq_protocol_version q);;
  d ← get_state;
  worker ← require (db_workers d !! cq_worker_id q) (WorkerNotEligibleError "worker_not_found");
  raise_if (negb (wl_lease_generation worker =? cq_generation q))
    (WorkerNotEligibleError "worker_generation_mismatch");;
  claim_eligible_attempt hash_membership_token cfg ids locked (cq_worker_id q) (cq_membership_token q)
    (cq_agent_profile_id q) now None.

(** The progress of a lease, noted in the worker's resource payload. *)
Definition note_progress (now : Z) (worker_id lease_id progress_class : string) : M Db () :=
  d ← get_state;
  match db_workers d !! worker_id with
  | Some worker =>
    let payload := wl_resource_payload worker in
    progress ← of_result (py_dict (jget (JObj payload) "lease_progress"));
    let progress := dict_set progress lease_id
      (JObj [("progress_class", JStr progress_class); ("updated_at", JStr (isoformat now))]) in
    put_worker worker_id (worker <| wl_resource_payload := dict_set payload "lease_progress" (JObj progress) |>
                                 <| wl_updated_at := Some now |>)
  | None => mret ()
  end.

Definition renew (now later : Z) (q : RenewLeaseRequest) : M Db RenewLeaseResponse :=
  _require_protocol (nq_protocol_version q);;
  lease ← renew_lease hash_membership_token cfg (nq_lease_id q) (nq_worker_id q) (nq_generation q)
    (nq_membership_token q) (nq_extend_seconds q) now;
  note_progress later (nq_worker_id q) (nq_lease_id q) (nq_progress_class q);;
  mret (mkRenewed (nq_lease_id q) (tl_state lease) (tl_expires_at lease) (tl_renewable_until lease)).

Definition submit (fresh_result ob : string) (now : Z) (q : ResultSubmitRequest) : M Db ResultSubmitResponse :=
  _require_protocol (sq_protocol_version q);;
  raise_if (sq_generation q <? 0) (WorkerNotEligibleError "invalid_generation");;
  let artifact := match sq_summary q with
    | Some s => if bool_decide (s = "") then sq_artifact_manifest q
                else dict_setdefault (sq_artifact_manifest q) "summary" (JStr (String.substring 0 400 s))
    | None => sq_artifact_manifest q end in
  let rid := if truthy (sq_result_id q) then default "" (sq_result_id q) else fresh_result in
  row ← submit_result hash_membership_token rid ob (sq_lease_id q) (sq_worker_id q) (sq_membership_token q)
    (sq_generation q) (mkSubmission (sq_status q) artifact (sq_checks q) (sq_usage q) (sq_effect_receipts q)) now;
  mret (mkSubmitted rid (wr_acceptance_state row) (wr_attempt_id row) (wr_lease_id row) (wr_submitted_at row)).

(** A drained worker without active leases goes offline. *)
Definition finish_drain (now : Z) (worker_id : string) : M Db () :=
  d ← get_state;
  match db_workers d !! worker_id with
  | Some row => put_worker worker_id (row <| wl_status := "offline" |> <| wl_updated_at := Some now |>)
  | None => mret ()
  end.

(** The checks drain and reconnect share. *)
Definition require_current (worker_id membership_token : string) (generation : Z) : M Db WorkerLeaseRow :=
  d ← get_state;
  raise_if (negb (verify_membership hash_membership_token worker_id membership_token d))
    (WorkerNotEligibleError "invalid_membership_token");;
  row ← require (db_workers d !! worker_id) (WorkerNotEligibleError "worker_not_found");
  raise_if (negb (wl_lease_generation row =? generation)) (WorkerNotEligibleError "worker_generation_mismatch");;
  mret row.

Definition drain (now later : Z) (q : DrainRequest) : M Db DrainResponse :=
  _require_protocol (dq_protocol_version q);;
  require_current (dq_worker_id q) (dq_membership_token q) (dq_generation q);;
  drained ← request_drain now (dq_worker_id q);
  d ← get_state;
  let active := list_active_for_worker (dq_worker_id q) d in
  let done_ := bool_decide (active = []) && bool_decide (wl_status drained = "draining") in
  (if done_ then finish_drain later (dq_worker_id q) else mret ());;
  mret (mkDrained (dq_worker_id q) (if done_ then "offline" else wl_status drained) (fst <$> active)
    (wl_drain_requested_at drained)).

Definition cancel_lease (ob : string) (now : Z) (q : CancelLeaseRequest) : M Db CancelLeaseResponse :=
  _require_protocol (kq_protocol_version q);;
  lease ← cancel_active_lease ob (kq_lease_id q) (kq_reason q) now;
  mret (mkCancelled (kq_lease_id q) (tl_state lease)).

Definition lease_summary (kl : string * TaskLeaseRow) : json :=
  let '(id, l) := kl in
  JObj [("lease_id", JStr id); ("attempt_id", JStr (tl_attempt_id l)); ("task_id", JStr (tl_task_id l));
        ("mission_id", JStr (tl_mission_id l)); ("state", JStr (tl_state l));
        ("expires_at", JStr (isoformat (tl_expires_at l))); ("worker_generation", JInt (tl_worker_generation l));
        ("task_revision", JInt (tl_task_revision l));
        ("cancellation_generation", JInt (tl_cancellation_generation l))].

(** The row object is the one the heartbeat updates: its status is read after it. *)
Definition reconnect (now : Z) (q : ReconnectRequest) : M Db ReconnectResponse :=
  _require_protocol (xq_protocol_version q);;
  row ← require_current (xq_worker_id q) (xq_membership_token q) (xq_generation q);
  row ← record_heartbeat hash_membership_token now (xq_worker_id q) (xq_membership_token q) (xq_generation q)
    (Some (if bool_decide (wl_status row = "online") then "active" else wl_status row)) None None None;
  d ← get_state;
  mret (mkReconnected (xq_worker_id q) (wl_lease_generation row) (wl_status row)
    (lease_summary <$> list_active_for_worker (xq_worker_id q) d)).
End service.

(** ** The durable protocol facade (src/swarm/workers/durable_protocol.py)

    The same repository operations without messages: no protocol version and no progress
    notes; missing documents are empty. *)
Section protocol.
Variable hash_membership_token : string → string.
Variable cfg : LeaseConfig.

Definition protocol_request_drain (now : Z) (worker_id : string) : M Db WorkerLeaseRow :=
  request_drain now worker_id.
Definition protocol_claim (ids : ClaimIds) (locked : nat → gset string) (now : Z)
    (worker_id membership_token : string) (agent_profile_id : option string) : M Db (option ClaimedLease) :=
  claim_eligible_attempt hash_membership_token cfg ids locked worker_id membership_token
    (default "ap_default" agent_profile_id) now None.
Definition protocol_renew (now : Z) (lease_id worker_id : string) (worker_generation : Z) (membership_token : string)
    : M Db TaskLeaseRow :=
  renew_lease hash_membership_token cfg lease_id worker_id worker_generation membership_token None now.
Definition protocol_submit_result (fresh_result ob : string) (now : Z) (lease_id worker_id membership_token : string)
    (worker_generation : Z) (result_status : string) (checks usage artifact_manifest : option (dict json))
    (effect_receipts : option (list json)) : M Db WorkerResultRow :=
  submit_result hash_membership_token fresh_result ob lease_id worker_id membership_token worker_generation
    (mkSubmission result_status (default [] artifact_manifest) (default [] checks) (default [] usage)
       (default [] effect_receipts)) now.
Definition protocol_accept_result (ob : string) (now : Z) (result_id : string) : M Db AcceptedResult :=
  accept_result ob result_id now.
Definition protocol_cancel_lease (ob : string) (now : Z) (lease_id : string) (reason : option string) : M Db TaskLeaseRow :=
  cancel_active_lease ob lease_id (default "cancelled" reason) now.
End protocol.

(** ** What the messages' checks mean *)
Lemma require_protocol_exact {S} version (s : S) :
  (_require_protocol version s).1 = Ok () ↔ version = PROTOCOL_VERSION.
Proof.
  unfold _require_protocol, raise_if. split.
  - destruct (negb _ || negb _) eqn:H; [done|]. intros _. bool_to_prop. by apply str_leb_antisym.
  - by intros ->.
Qed.
