(* ===== verification/LeaseProps.v ===== *)
(** * LeaseProps: fencing guarantees of the lease tables

    [quiet d d'] says what every operation but a claim and an acceptance does to the
    tables: leases keep their stamps and only leave the active states, results only leave
    the accepted state for good, missions keep or raise their cancellation generation,
    tasks keep their mission.  The invariants (one active lease per task, one accepted
    result per attempt, lease stamps never ahead of their mission) follow from it for
    every interleaving of the operations with changes made elsewhere in the system. *)
From S2P Require Import Prelude Collections Contracts PyFloat Json LeaseTables Leases.
Open Scope Z_scope.

(** ** What a row may become *)
Definition stamps (l : TaskLeaseRow) :=
  (tl_attempt_id l, tl_task_id l, tl_mission_id l, tl_project_id l, tl_worker_id l,
   (tl_worker_generation l, tl_task_revision l, tl_input_digest l, tl_source_revision l,
    tl_cancellation_generation l)).

Definition lease_step (l l' : TaskLeaseRow) : Prop :=
  stamps l' = stamps l ∧ (is_active l' = true → is_active l = true)
  ∧ tl_issued_at l' = tl_issued_at l ∧ tl_renewable_until l' = tl_renewable_until l
  ∧ (tl_expires_at l' = tl_expires_at l
     ∨ ∀ upper, tl_renewable_until l = Some upper → tl_expires_at l' <= upper).

Definition is_accepted (r : WorkerResultRow) : Prop := wr_acceptance_state r = "accepted".

Definition result_step (r r' : WorkerResultRow) : Prop :=
  wr_attempt_id r' = wr_attempt_id r ∧ wr_lease_id r' = wr_lease_id r
  ∧ (is_accepted r' ↔ is_accepted r).

Record quiet (d d' : Db) : Prop := {
  q_leases_old : ∀ id l, db_leases d !! id = Some l →
    ∃ l', db_leases d' !! id = Some l' ∧ lease_step l l';
  q_leases_new : ∀ id, db_leases d !! id = None → db_leases d' !! id = None;
  q_results_old : ∀ id r, db_results d !! id = Some r →
    ∃ r', db_results d' !! id = Some r' ∧ result_step r r';
  q_results_new : ∀ id r', db_results d !! id = None → db_results d' !! id = Some r' →
    ¬ is_accepted r';
  q_missions : ∀ id m, db_missions d !! id = Some m → ∃ m', db_missions d' !! id = Some m'
    ∧ mr_cancellation_generation m <= mr_cancellation_generation m';
  q_tasks : ∀ id t, db_tasks d !! id = Some t → ∃ t', db_tasks d' !! id = Some t'
    ∧ tr_mission_id t' = tr_mission_id t
}.

#[export] Instance lease_step_preorder : PreOrder lease_step.
Proof.
  split; [intros l; split_and!; auto|].
  intros a b c (H1 & H2 & H3 & H4 & H5) (H6 & H7 & H8 & H9 & H10).
  split_and!; [congruence|auto|congruence|congruence|].
  destruct H10 as [->|H10]; [done|]. right. intros u Hu. apply H10. congruence.
Qed.
#[export] Instance result_step_preorder : PreOrder result_step.
Proof.
  split; [by intros r|]. intros a b c (H1 & H2 & H3) (H4 & H5 & H6).
  split_and!; [congruence..|tauto].
Qed.

#[export] Instance quiet_preorder : PreOrder quiet.
Proof.
  split.
  - intros d. split; [|done| | | |]; intros id x Hx; try (exists x; split; [done|reflexivity]).
    intros Hx'. congruence.
  - intros d1 d2 d3 H1 H2. split.
    + intros id l Hl. destruct (q_leases_old _ _ H1 id l Hl) as (l1 & Hl1 & S1).
      destruct (q_leases_old _ _ H2 id l1 Hl1) as (l2 & Hl2 & S2). exists l2. split; [done|by etrans].
    + intros id Hn. by apply (q_leases_new _ _ H2), (q_leases_new _ _ H1).
    + intros id r Hr. destruct (q_results_old _ _ H1 id r Hr) as (r1 & Hr1 & S1).
      destruct (q_results_old _ _ H2 id r1 Hr1) as (r2 & Hr2 & S2). exists r2. split; [done|by etrans].
    + intros id r Hn Hr. destruct (db_results d2 !! id) as [r1|] eqn:Hr1.
      * destruct (q_results_old _ _ H2 id r1 Hr1) as (r2 & Hr2 & (_ & _ & S2)). simplify_eq.
        rewrite S2. by eapply (q_results_new _ _ H1).
      * by eapply (q_results_new _ _ H2).
    + intros id m Hm. destruct (q_missions _ _ H1 id m Hm) as (m1 & Hm1 & S1).
      destruct (q_missions _ _ H2 id m1 Hm1) as (m2 & Hm2 & S2). exists m2. split; [done|lia].
    + intros id t Ht. destruct (q_tasks _ _ H1 id t Ht) as (t1 & Ht1 & S1).
      destruct (q_tasks _ _ H2 id t1 Ht1) as (t2 & Ht2 & S2). exists t2. split; [done|congruence].
Qed.

(** ** Writes *)
Ltac quiet_by_table :=
  split; simpl; intros; eauto; try done;
  repeat match goal with
  | |- context [<[?i := _]> _ !! ?j] =>
      destruct (decide (i = j)) as [->|?]; [rewrite lookup_insert_eq|rewrite lookup_insert_ne by done]
  | H : <[?i := _]> _ !! ?j = _ |- _ =>
      destruct (decide (i = j)) as [->|?];
        [rewrite lookup_insert_eq in H|rewrite lookup_insert_ne in H by done]
  end; simplify_eq; eauto; try (eexists; split; [done|]; done || lia).

Lemma quiet_put_lease d id l l' :
  db_leases d !! id = Some l → lease_step l l' → quiet d (put_lease id l' d).2.
Proof. intros Hl Hs. quiet_by_table. Qed.
Lemma quiet_put_result d id r r' :
  db_results d !! id = Some r → result_step r r' → quiet d (put_result id r' d).2.
Proof. intros Hl Hs. quiet_by_table. Qed.
Lemma quiet_new_result d id r' :
  db_results d !! id = None → ¬ is_accepted r' → quiet d (put_result id r' d).2.
Proof. intros Hl Hs. quiet_by_table. Qed.
Lemma quiet_put_attempt d id a : quiet d (put_attempt id a d).2.
Proof. quiet_by_table. Qed.
Lemma quiet_put_worker d id w : quiet d (put_worker id w d).2.
Proof. quiet_by_table. Qed.
Lemma quiet_put_task d id t t' :
  db_tasks d !! id = Some t → tr_mission_id t' = tr_mission_id t → quiet d (put_task id t' d).2.
Proof. intros Ht Hm. quiet_by_table. Qed.
Lemma quiet_put_mission d id m m' :
  db_missions d !! id = Some m →
  mr_cancellation_generation m <= mr_cancellation_generation m' → quiet d (put_mission id m' d).2.
Proof. intros Ht Hm. quiet_by_table. Qed.
Lemma quiet_add_outbox d id r : quiet d (add_outbox id r d).2.
Proof.
  unfold add_outbox. run_rule (λ x : result () * Db, quiet d x.2).
  run_rule (λ x : result () * Db, quiet d x.2); [reflexivity|]. quiet_by_table.
Qed.

Lemma quiet_seq {A B} d0 d (m : M Db A) (k : A → M Db B) :
  quiet d0 d → quiet d (m d).2 →
  (∀ a d1, m d = (Ok a, d1) → quiet d0 d1 → quiet d0 (k a d1).2) →
  quiet d0 ((m ≫= k) d).2.
Proof.
  intros H0 Hm Hk. unfold mbind, M_bind. destruct (m d) as [[a|e] d1] eqn:Hrun; simpl in *.
  - apply Hk; [done|by etrans].
  - by etrans.
Qed.

Lemma bind_ret_state {S A B} (m : M S A) (f : A → B) s : ((x ← m; mret (f x)) s).2 = (m s).2.
Proof. unfold mbind, M_bind. by destruct (m s) as [[]]. Qed.

(** Pure steps of a program: the state stays, and the invariant with it. *)
Ltac quiet_pure :=
  lazymatch goal with
  | |- quiet ?d0 (snd ?run) =>
    let T := type of run in
    let P := constr:(λ x : T, quiet d0 (snd x)) in
    change (P run); run_rule P; cbv beta
  end.

(** A program that only reads is quiet. *)
Definition reads {A} (m : M Db A) : Prop := ∀ d, (m d).2 = d.
Lemma reads_quiet {A} (m : M Db A) d : reads m → quiet d (m d).2.
Proof. intros H. by rewrite H. Qed.

Lemma reads_ret {A} (a : A) : reads (mret a).
Proof. done. Qed.
Lemma reads_raise {A} e : reads (raise e : M Db A).
Proof. done. Qed.
Lemma reads_raise_if c e : reads (raise_if c e).
Proof. by destruct c. Qed.
Lemma reads_require {A} (o : option A) e : reads (require o e).
Proof. by destruct o. Qed.
Lemma reads_of_result {A} (r : result A) : reads (of_result r).
Proof. done. Qed.
Lemma reads_get : reads get_state.
Proof. done. Qed.
Lemma reads_bind {A B} (m : M Db A) (k : A → M Db B) : reads m → (∀ a, reads (k a)) → reads (m ≫= k).
Proof.
  intros Hm Hk d. unfold mbind, M_bind. specialize (Hm d).
  destruct (m d) as [[a|e] d1]; simpl in *; subst; [apply Hk|done].
Qed.
#[export] Hint Resolve reads_ret reads_raise reads_raise_if reads_require reads_of_result reads_get
  reads_bind : swarm.

Ltac reads_tac := repeat first
  [ apply reads_bind; [|intros ?] | solve [auto with swarm] | case_match ].

Lemma reads_run {A} (m : M Db A) d r d' : reads m → m d = (r, d') → d' = d.
Proof. intros H Hrun. specialize (H d). by rewrite Hrun in H. Qed.

Lemma get_worker_reads id : reads (get_worker id).
Proof. unfold get_worker. reads_tac. Qed.
#[export] Hint Resolve get_worker_reads : swarm.

Section operations.
Variable hash : string → string.
Variable cfg : LeaseConfig.

Lemma require_member_reads id tok gen : reads (require_member hash id tok gen).
Proof. unfold require_member. reads_tac. Qed.
Lemma claimable_reads id tok : reads (_require_claimable_worker hash id tok).
Proof. unfold _require_claimable_worker. reads_tac. Qed.
Lemma authenticated_reads id tok : reads (_require_authenticated_worker hash id tok).
Proof. unfold _require_authenticated_worker. reads_tac. Qed.
Lemma authority_reads l : reads (_require_current_lease_authority l).
Proof. unfold _require_current_lease_authority. reads_tac. Qed.
Lemma fence_reads rid r l a t clock : reads (_assert_accept_fence rid r l a t clock).
Proof. unfold _assert_accept_fence. reads_tac. Qed.
#[local] Hint Resolve require_member_reads claimable_reads authenticated_reads authority_reads
  fence_reads : swarm.

(** After a reading prefix the program goes on in the same state. *)
Lemma quiet_after_reads {A B} d0 d (m : M Db A) (k : A → M Db B) :
  quiet d0 d → reads m → (∀ a, m d = (Ok a, d) → quiet d0 (k a d).2) → quiet d0 ((m ≫= k) d).2.
Proof.
  intros H0 Hm Hk. apply quiet_seq; [done|by apply reads_quiet|].
  intros a d1 Hrun _. pose proof (reads_run _ _ _ _ Hm Hrun) as ->. auto.
Qed.

Ltac quiet_reads := apply quiet_after_reads; [done|solve [auto with swarm]|intros ? ?].

(** *** Worker operations touch worker rows only *)
Definition workers_only {A} (m : M Db A) : Prop := ∀ d, ∃ w, (m d).2 = d <| db_workers := w |>.

Lemma workers_only_quiet {A} (m : M Db A) d : workers_only m → quiet d (m d).2.
Proof.
  intros H. destruct (H d) as [w ->].
  split; simpl; [|done| | | |]; intros id x Hx; try (exists x; split; [done|reflexivity]).
  intros Hx'. congruence.
Qed.

Lemma workers_only_reads {A} (m : M Db A) : reads m → workers_only m.
Proof. intros H d. exists (db_workers d). rewrite H. by destruct d. Qed.
Lemma workers_only_put id w : workers_only (put_worker id w).
Proof. intros d. by eexists. Qed.
Lemma workers_only_bind {A B} (m : M Db A) (k : A → M Db B) :
  workers_only m → (∀ a, workers_only (k a)) → workers_only (m ≫= k).
Proof.
  intros Hm Hk d. unfold mbind, M_bind. destruct (Hm d) as [w Hw].
  destruct (m d) as [[a|e] d1]; cbn [snd] in *; [|by exists w].
  destruct (Hk a d1) as [w' ->]. exists w'. by rewrite Hw.
Qed.
#[local] Hint Resolve workers_only_put : swarm.
#[local] Hint Extern 2 (workers_only _) => apply workers_only_reads; solve [auto with swarm] : swarm.

Ltac workers_tac := repeat first
  [ apply workers_only_bind; [|intros ?] | solve [auto with swarm] | case_match ].

Lemma upsert_quiet now tid id g d : quiet d (upsert_registration hash now tid id g d).2.
Proof. apply workers_only_quiet. unfold upsert_registration. workers_tac. Qed.
Lemma rotate_quiet now tid id t1 t2 d : quiet d (rotate_membership_token hash now tid id t1 t2 d).2.
Proof. apply workers_only_quiet. unfold rotate_membership_token. workers_tac. Qed.
Lemma revoke_worker_quiet now id d : quiet d (revoke_worker now id d).2.
Proof. apply workers_only_quiet. unfold revoke_worker. workers_tac. Qed.
Lemma drain_quiet now id d : quiet d (request_drain now id d).2.
Proof. apply workers_only_quiet. unfold request_drain. workers_tac. Qed.
Lemma heartbeat_workers_only clock id tok gen st ids av he :
  workers_only (record_heartbeat hash clock id tok gen st ids av he).
Proof. unfold record_heartbeat. workers_tac. Qed.
Lemma heartbeat_quiet clock id tok gen st ids av he d :
  quiet d (record_heartbeat hash clock id tok gen st ids av he d).2.
Proof. apply workers_only_quiet, heartbeat_workers_only. Qed.
Lemma advertise_quiet now id tok gen caps cap priv d :
  quiet d (advertise_capabilities hash now id tok gen caps cap priv d).2.
Proof. apply workers_only_quiet. unfold advertise_capabilities. workers_tac. Qed.

(** *** Leases *)
Lemma lease_step_state l st clock :
  (one_of st _ACTIVE_LEASE_STATES = true → is_active l = true) →
  lease_step l (l <| tl_state := st |> <| tl_updated_at := clock |>).
Proof. intros H. split_and!; auto. Qed.
#[local] Hint Resolve lease_step_state : swarm.

Lemma renewal_capped l clock ext x :
  _renewal_expires_at l clock ext = Ok x →
  ∀ upper, tl_renewable_until l = Some upper → x <= upper.
Proof.
  unfold _renewal_expires_at. intros H upper Hu. rewrite Hu in H.
  repeat (case_match; try done); simplify_eq; bool_to_prop; lia.
Qed.

Lemma renew_quiet lid wid gen tok ext clock d : quiet d (renew_lease hash cfg lid wid gen tok ext clock d).2.
Proof.
  unfold renew_lease. quiet_reads. quiet_pure. quiet_pure; [done|]. do 5 (quiet_pure; [done|]).
  quiet_pure; [done|]. quiet_reads. quiet_pure; [done|].
  apply quiet_seq; [done| |by intros].
  eapply quiet_put_lease; [done|]. bool_to_prop. split_and!; try done.
  right. by eapply renewal_capped.
Qed.

Lemma expire_one_quiet clock kl d :
  db_leases d !! kl.1 = Some kl.2 → quiet d (expire_one clock kl d).2.
Proof.
  intros Hl. unfold expire_one.
  apply quiet_seq; [done|eapply quiet_put_lease; [done|by apply lease_step_state]|].
  intros [] d1 Hrun Hq. quiet_pure.
  assert (db_tasks d1 = db_tasks d) as Hd1 by (by injection Hrun as <-).
  apply quiet_seq; [done|case_match; [apply quiet_put_attempt|done]|]. intros [] d2 Hrun2 Hq2.
  assert (db_tasks d2 = db_tasks d) as Hd2.
  { rewrite <- Hd1. revert Hrun2. case_match; intros Hr; by injection Hr as <-. }
  destruct (db_tasks d1 !! _) as [task|] eqn:Ht; [|exact Hq2].
  destruct (bool_decide (tr_status task = "leased")); [|exact Hq2].
  quiet_pure. quiet_pure; [exact Hq2|].
  etrans; [exact Hq2|]. apply (quiet_put_task _ _ task); [rewrite Hd2, <- Hd1; exact Ht|done].
Qed.

Lemma put_lease_other id l id' d :
  id' ≠ id → db_leases (put_lease id l d).2 !! id' = db_leases d !! id'.
Proof. intros H. simpl. by rewrite lookup_insert_ne. Qed.

Lemma expire_one_leases clock kl d id :
  id ≠ kl.1 → db_leases (expire_one clock kl d).2 !! id = db_leases d !! id.
Proof.
  intros Hne. unfold expire_one, put_lease, put_attempt, put_task, mbind, M_bind, modify,
    get_state, of_result, mret, M_ret.
  repeat (case_match; simplify_eq/=); by rewrite lookup_insert_ne.
Qed.

Lemma expire_loop_quiet clock l d d0 :
  NoDup l.*1 → (∀ k x, (k, x) ∈ l → db_leases d !! k = Some x) →
  quiet d0 d → quiet d0 (for_each (expire_one clock) l d).2.
Proof.
  revert d; induction l as [|[k x] l IH]; intros d Hnd Hin Hq; simpl; [done|].
  apply NoDup_cons in Hnd as [Hk Hnd]. assert (db_leases d !! k = Some x) as Hx by (apply Hin; by left).
  apply quiet_seq; [done|by apply expire_one_quiet|]. intros [] d1 Hrun Hq1. apply IH; [done| |done].
  intros k' x' Hk'. rewrite <- (Hin k' x') by (by right). assert (d1 = (expire_one clock (k, x) d).2) as -> by (by rewrite Hrun).
  apply expire_one_leases. simpl. intros ->. apply Hk. by apply (list_elem_of_fmap_2 fst) in Hk'.
Qed.

Lemma due_leases_spec clock p limit locked d :
  NoDup (due_leases clock p limit locked d).*1
  ∧ ∀ k x, (k, x) ∈ due_leases clock p limit locked d →
      db_leases d !! k = Some x ∧ is_active x = true ∧ tl_expires_at x <= clock.
Proof.
  unfold due_leases.
  match goal with |- context [List.filter ?f ?l] => set (sel := List.filter f l) end.
  assert (∀ k x, (k, x) ∈ sel → db_leases d !! k = Some x ∧ is_active x = true
            ∧ tl_expires_at x <= clock) as Hsel.
  { intros k x Hin. apply list_elem_of_In, List.filter_In in Hin as [Hin Hc].
    apply list_elem_of_In, elem_of_map_to_list in Hin. bool_to_prop. done. }
  split.
  - rewrite fmap_take. eapply sublist_NoDup; [|apply sublist_take].
    rewrite sort_by_perm. apply nodup_fst_filter, NoDup_fst_map_to_list.
  - intros k x Hin. apply Hsel. eapply (elem_of_sort_by _ (k, x)).
    eapply elem_of_sublist; [exact Hin|apply sublist_take].
Qed.

Lemma expire_quiet clock p limit locked d : quiet d (expire_leases clock p limit locked d).2.
Proof.
  unfold expire_leases. quiet_pure. apply quiet_seq; [done| |by intros].
  destruct (due_leases_spec clock p limit locked d) as [Hnd Hin].
  apply expire_loop_quiet; [done| |done]. intros k x Hx. by apply Hin.
Qed.

Lemma submit_quiet rid ob lid wid tok gen sub clock d :
  quiet d (submit_result hash rid ob lid wid tok gen sub clock d).2.
Proof.
  unfold submit_result. quiet_reads. quiet_pure. quiet_pure; [done|]. do 3 (quiet_pure; [done|]).
  quiet_pure; [done|]. apply quiet_seq; [done| |].
  - unfold insert_result. quiet_pure. quiet_pure; [done|].
    apply quiet_new_result; [|done]. bool_to_prop.
    match goal with H : ¬ is_Some _ |- _ => by apply eq_None_not_Some in H end.
  - intros [] d1 _ Hq. apply quiet_seq; [done|apply quiet_add_outbox|by intros].
Qed.

Lemma cancel_lease_quiet ob lid reason clock d : quiet d (cancel_active_lease ob lid reason clock d).2.
Proof.
  unfold cancel_active_lease. quiet_pure. quiet_pure; [done|]. quiet_pure; [done|].
  apply quiet_seq; [done|eapply quiet_put_lease; [done|by apply lease_step_state]|].
  intros [] d1 Hrun Hq.
  assert (db_tasks d1 = db_tasks d) as Hd1 by (by injection Hrun as <-).
  apply quiet_seq; [done|repeat case_match; first [apply quiet_put_attempt|reflexivity]|].
  intros [] d2 Hrun2 Hq2.
  assert (db_tasks d2 = db_tasks d) as Hd2.
  { rewrite <- Hd1. revert Hrun2. repeat case_match; intros Hr; by injection Hr as <-. }
  apply quiet_seq; [done| |].
  - destruct (db_tasks d !! _) as [task|] eqn:Ht; [|reflexivity]. destruct (bool_decide (tr_status task = "leased")); [|reflexivity].
    apply (quiet_put_task _ _ task); [rewrite Hd2; exact Ht|done].
  - intros [] d3 _ Hq3. apply quiet_seq; [done|apply quiet_add_outbox|by intros].
Qed.

Lemma for_each_quiet {A} (body : A → M Db ()) l d0 d :
  (∀ x d, quiet d (body x d).2) → quiet d0 d → quiet d0 (for_each body l d).2.
Proof.
  intros Hb Hq. apply (for_each_invariant body (quiet d0)); [|done].
  intros x d1 _ H1. etrans; [exact H1|apply Hb].
Qed.

Lemma revoke_quiet fresh mid reason notify clock d :
  quiet d (revoke_mission_work fresh mid reason notify clock d).2.
Proof.
  unfold revoke_mission_work. quiet_pure. quiet_pure; [done|].
  apply quiet_seq; [done|eapply quiet_put_mission; [done|simpl; lia]|]. intros [] d1 _ Hq.
  apply quiet_seq; [done|apply quiet_add_outbox|]. intros [] d2 _ Hq2. quiet_pure.
  apply quiet_seq; [done| |by intros]. apply for_each_quiet; [|done]. intros nl d3.
  apply quiet_seq; [done|apply cancel_lease_quiet|by intros].
Qed.

Lemma cancel_mission_quiet fresh mid reason clock d : quiet d (cancel_mission fresh mid reason clock d).2.
Proof.
  unfold cancel_mission. apply quiet_seq; [done|apply revoke_quiet|]. intros o d1 _ Hq.
  quiet_pure. quiet_pure; [done|]. apply quiet_seq; [done| |by intros].
  eapply quiet_put_mission; [done|simpl; lia].
Qed.
End operations.

(** ** The invariant *)
Section invariant.
Variable cfg : LeaseConfig.

(** A lease can be renewed up to a horizon fixed when it was issued. *)
Definition horizon_ok (l : TaskLeaseRow) : Prop :=
  tl_renewable_until l = Some (tl_issued_at l + seconds (renewable_horizon_seconds cfg))
  ∧ tl_expires_at l <= tl_issued_at l + seconds (renewable_horizon_seconds cfg).

Record lease_inv (d : Db) : Prop := {
  li_active : ∀ id1 id2 l1 l2, db_leases d !! id1 = Some l1 → db_leases d !! id2 = Some l2 →
    is_active l1 = true → is_active l2 = true → tl_task_id l1 = tl_task_id l2 → id1 = id2;
  li_accepted : ∀ id1 id2 r1 r2, db_results d !! id1 = Some r1 → db_results d !! id2 = Some r2 →
    is_accepted r1 → is_accepted r2 → wr_attempt_id r1 = wr_attempt_id r2 → id1 = id2;
  li_stamp : ∀ id l, db_leases d !! id = Some l →
    ∃ t m, db_tasks d !! tl_task_id l = Some t ∧ tr_mission_id t = tl_mission_id l
      ∧ db_missions d !! tl_mission_id l = Some m
      ∧ tl_cancellation_generation l <= mr_cancellation_generation m;
  li_horizon : ∀ id l, db_leases d !! id = Some l → horizon_ok l
}.

Lemma stamps_fields l l' :
  stamps l' = stamps l → tl_task_id l' = tl_task_id l ∧ tl_mission_id l' = tl_mission_id l
    ∧ tl_cancellation_generation l' = tl_cancellation_generation l
    ∧ tl_attempt_id l' = tl_attempt_id l.
Proof. unfold stamps. intros H. by simplify_eq. Qed.

(** The row a lease was before a quiet step. *)
Lemma quiet_lease_before d d' id l' :
  quiet d d' → db_leases d' !! id = Some l' → ∃ l, db_leases d !! id = Some l ∧ lease_step l l'.
Proof.
  intros Hq Hl'. destruct (db_leases d !! id) as [l|] eqn:Hl.
  - destruct (q_leases_old _ _ Hq id l Hl) as (l2 & Hl2 & Hs). simplify_eq. eauto.
  - rewrite (q_leases_new _ _ Hq id Hl) in Hl'. done.
Qed.

Lemma quiet_accepted_before d d' id r' :
  quiet d d' → db_results d' !! id = Some r' → is_accepted r' →
  ∃ r, db_results d !! id = Some r ∧ is_accepted r ∧ wr_attempt_id r = wr_attempt_id r'.
Proof.
  intros Hq Hr' Ha. destruct (db_results d !! id) as [r|] eqn:Hr.
  - destruct (q_results_old _ _ Hq id r Hr) as (r2 & Hr2 & (H1 & _ & H3)). simplify_eq.
    exists r. split_and!; [done|by apply H3|done].
  - by destruct (q_results_new _ _ Hq id r' Hr Hr').
Qed.

Lemma quiet_inv d d' : quiet d d' → lease_inv d → lease_inv d'.
Proof.
  intros Hq [Ha Hr Hs Hh]. split.
  - intros id1 id2 l1' l2' H1 H2 A1 A2 Ht.
    destruct (quiet_lease_before _ _ _ _ Hq H1) as (l1 & Hl1 & (S1 & B1 & _)).
    destruct (quiet_lease_before _ _ _ _ Hq H2) as (l2 & Hl2 & (S2 & B2 & _)).
    destruct (stamps_fields _ _ S1) as [T1 _]. destruct (stamps_fields _ _ S2) as [T2 _].
    eapply Ha; eauto. congruence.
  - intros id1 id2 r1' r2' H1 H2 A1 A2 Ht.
    destruct (quiet_accepted_before _ _ _ _ Hq H1 A1) as (r1 & Hr1 & B1 & T1).
    destruct (quiet_accepted_before _ _ _ _ Hq H2 A2) as (r2 & Hr2 & B2 & T2).
    eapply Hr; eauto. congruence.
  - intros id l' Hl'. destruct (quiet_lease_before _ _ _ _ Hq Hl') as (l & Hl & (S & _ & SI & SR & SE)).
    destruct (stamps_fields _ _ S) as (T1 & T2 & T3 & _).
    destruct (Hs id l Hl) as (t & m & Ht & Hm & Hmi & Hle).
    destruct (q_tasks _ _ Hq _ _ Ht) as (t' & Ht' & Hm'). destruct (q_missions _ _ Hq _ _ Hmi)
      as (m' & Hmi' & Hle'). exists t', m'. rewrite T1, T2, T3. split_and!; [done|congruence|done|lia].
  - intros id l' Hl'. destruct (quiet_lease_before _ _ _ _ Hq Hl') as (l & Hl & (S & _ & SI & SR & SE)).
    destruct (Hh id l Hl) as [Hu Hle]. unfold horizon_ok. rewrite SI, SR. split; [done|].
    destruct SE as [->|SE]; [done|by apply SE].
Qed.
End invariant.

(** ** Claims *)
Lemma existsb_false_iff {A} (f : A → bool) l : existsb f l = false ↔ ∀ x, x ∈ l → f x = false.
Proof.
  induction l as [|a l IH]; simpl.
  - split; [by intros _ ? ?%elem_of_nil|done].
  - rewrite orb_false_iff, IH. split.
    + intros [H1 H2] x [->|Hx]%elem_of_cons; auto.
    + intros H. split; [apply H; by left|]. intros x Hx. apply H. by right.
Qed.

Lemma no_active_lease tid d :
  _has_active_lease tid d = false →
  ∀ id l, db_leases d !! id = Some l → tl_task_id l = tid → is_active l = false.
Proof.
  unfold _has_active_lease. rewrite existsb_false_iff. intros H id l Hl Ht.
  specialize (H (id, l)). rewrite elem_of_map_to_list in H. specialize (H Hl). simpl in H.
  rewrite bool_decide_true in H by done. done.
Qed.

Lemma claimable_mission task d m :
  _load_claimable_mission task d = Ok (Some m) →
  db_missions d !! tr_mission_id task = Some m
  ∧ one_of (mr_status m) _RUNNABLE_MISSION_STATUSES = true
  ∧ tr_project_id task = mr_project_id m ∧ tr_graph_revision task = mr_revision m
  ∧ payload_cancel_stale task m = Ok false.
Proof.
  unfold _load_claimable_mission. destruct (db_missions d !! _) as [m'|]; [|done].
  repeat (case_match; try done); intros; simplify_eq; bool_to_prop; done.
Qed.

Section claim.
Variable hash : string → string.
Variable cfg : LeaseConfig.

Lemma first_claimable_sound worker d l kt m :
  first_claimable worker d l = Ok (Some (kt, m)) →
  kt ∈ l ∧ candidate worker d kt = Ok (Some m).
Proof.
  induction l as [|x l IH]; simpl; [done|].
  destruct (candidate worker d x) as [[m'|]|e] eqn:Hc; [| |done].
  - intros H. simplify_eq. split; [by left|done].
  - intros [? ?]%IH. split; [by right|done].
Qed.

Lemma ready_queue_spec project locked d kt :
  kt ∈ ready_queue project locked d ↔
  db_tasks d !! kt.1 = Some kt.2 ∧ tr_project_id kt.2 = project
  ∧ tr_status kt.2 = "ready" ∧ kt.1 ∉ locked.
Proof.
  unfold ready_queue. rewrite elem_of_sort_by, list_elem_of_In, List.filter_In, <- list_elem_of_In.
  destruct kt as [k t]. rewrite elem_of_map_to_list. simpl.
  rewrite !andb_true_iff, negb_true_iff, !bool_decide_eq_true, bool_decide_eq_false. clear hash. tauto.
Qed.

Lemma lock_candidates_in project limit after locked d kt :
  kt ∈ _lock_ready_candidates project limit after locked d → kt ∈ ready_queue project locked d.
Proof.
  unfold _lock_ready_candidates. intros H.
  apply (elem_of_sublist _ _ _ H) in H || idtac.
  assert (kt ∈ List.filter (after_key after) (ready_queue project locked d)) as Hin.
  { eapply elem_of_sublist; [exact H|apply sublist_take]. }
  apply list_elem_of_In, List.filter_In in Hin as [Hin _]. by apply list_elem_of_In.
Qed.

Lemma claim_pages_sound fuel page worker project locked after d kt m :
  claim_pages cfg fuel page worker project locked after d = Some (Ok (Some (kt, m))) →
  ∃ n, kt ∈ ready_queue project (locked n) d ∧ candidate worker d kt = Ok (Some m).
Proof.
  revert page after; induction fuel as [|fuel IH]; intros page after; [done|]. simpl.
  set (cs := _lock_ready_candidates _ _ _ _ _). destruct (last cs); [|done].
  destruct (first_claimable worker d cs) as [[[kt' m']|]|e] eqn:Hf; [| |done].
  - intros H. simplify_eq. apply first_claimable_sound in Hf as [Hin Hc].
    exists page. split; [by eapply lock_candidates_in|done].
  - case_match; [done|]. apply IH.
Qed.

Lemma claim_search_sound worker project locked d tid task m :
  claim_search cfg worker project locked d = Ok (Some (tid, task, m)) →
  db_tasks d !! tid = Some task ∧ tr_status task = "ready" ∧ tr_project_id task = project
  ∧ _worker_eligible_for_task worker task = Ok true ∧ _has_active_lease tid d = false
  ∧ _dependencies_satisfied task d = true ∧ _load_claimable_mission task d = Ok (Some m).
Proof.
  unfold claim_search. destruct (claim_pages _ _ _ _ _ _ _ _) as [r|] eqn:Hp; [|done].
  intros ->. apply claim_pages_sound in Hp as (n & Hin%ready_queue_spec & Hc).
  destruct Hin as (H1 & H2 & H3 & _). unfold candidate in Hc. simpl in *.
  destruct (_worker_eligible_for_task worker task) as [[]|]; [|done|done].
  destruct (_has_active_lease tid d); [done|]. destruct (_dependencies_satisfied task d); done.
Qed.

(** The state after a claim: quiet, or one new lease and then quiet. *)
Definition leased (d d1 : Db) (lid : string) (l : TaskLeaseRow) : Prop :=
  db_leases d1 = <[lid := l]> (db_leases d) ∧ db_results d1 = db_results d
  ∧ db_missions d1 = db_missions d ∧ db_tasks d1 = db_tasks d ∧ db_leases d !! lid = None.

Lemma insert_attempt_Ok id r d u d' :
  insert_attempt id r d = (Ok u, d') → d' = d <| db_attempts := <[id := r]> (db_attempts d) |>.
Proof. unfold insert_attempt, put_attempt. intros H. by run_inv. Qed.
Lemma insert_attempt_Err id r d e d' : insert_attempt id r d = (Err e, d') → d' = d.
Proof. unfold insert_attempt, put_attempt. intros H. by run_inv_err. Qed.
Lemma insert_lease_Ok id r d u d' :
  insert_lease id r d = (Ok u, d') →
  d' = d <| db_leases := <[id := r]> (db_leases d) |> ∧ db_leases d !! id = None.
Proof.
  unfold insert_lease, put_lease. intros H. run_inv. bool_to_prop. split; [done|].
  by apply eq_None_not_Some.
Qed.
Lemma insert_lease_Err id r d e d' : insert_lease id r d = (Err e, d') → d' = d.
Proof. unfold insert_lease, put_lease. intros H. by run_inv_err. Qed.

Lemma bind_claim_shape ids wid worker tid task m ap clock secs d :
  let d' := (_bind_claim cfg ids wid worker tid task m ap clock secs d).2 in
  db_tasks d !! tid = Some task →
  quiet d d' ∨ ∃ d1 l, leased d d1 (ci_lease ids) l ∧ quiet d1 d'
    ∧ tl_task_id l = tid ∧ tl_mission_id l = tr_mission_id task
    ∧ tl_cancellation_generation l = mr_cancellation_generation m ∧ horizon_ok cfg l.
Proof.
  intros d' Ht. subst d'. unfold _bind_claim. destruct (wl_project_id worker) as [p|]; [|by left].
  match goal with |- quiet d (snd ?run) ∨ _ => set (P := λ x : result ClaimedLease * Db,
    quiet d x.2 ∨ ∃ d1 l, leased d d1 (ci_lease ids) l ∧ quiet d1 x.2
    ∧ tl_task_id l = tid ∧ tl_mission_id l = tr_mission_id task
    ∧ tl_cancellation_generation l = mr_cancellation_generation m ∧ horizon_ok cfg l); change (P run) end.
  run_rule P; [by left|].
  apply run_bind.
  { intros e d' He. apply insert_attempt_Err in He as ->. by left. }
  intros [] d1 ->%insert_attempt_Ok. apply run_bind.
  { intros e d' He. apply insert_lease_Err in He as ->. left. apply quiet_put_attempt. }
  intros [] d2 Hins. apply insert_lease_Ok in Hins as [Hd2 Hn].
  right. exists d2. eexists. split; [by rewrite Hd2; split_and!|].
  split; [|split_and!; try done; split; simpl; [done|lia]]. apply quiet_seq; [done| |].
  { apply (quiet_put_task _ _ task); [by rewrite Hd2|done]. }
  intros [] d3 _ Hq. apply quiet_seq; [done|apply quiet_add_outbox|by intros].
Qed.

(** A claim either is quiet or adds exactly one lease, for a task the scan found claimable. *)
Lemma claim_cases ids locked wid tok ap clock secs d :
  let d' := (claim_eligible_attempt hash cfg ids locked wid tok ap clock secs d).2 in
  quiet d d' ∨ ∃ tid task m d1 l, leased d d1 (ci_lease ids) l ∧ quiet d1 d'
    ∧ db_tasks d !! tid = Some task ∧ _has_active_lease tid d = false
    ∧ _load_claimable_mission task d = Ok (Some m)
    ∧ tl_task_id l = tid ∧ tl_mission_id l = tr_mission_id task
    ∧ tl_cancellation_generation l = mr_cancellation_generation m ∧ horizon_ok cfg l.
Proof.
  intros d'. subst d'. unfold claim_eligible_attempt.
  match goal with |- quiet d (snd ?run) ∨ _ => set (P := λ x : result (option ClaimedLease) * Db,
    quiet d x.2 ∨ ∃ tid task m d1 l, leased d d1 (ci_lease ids) l ∧ quiet d1 x.2
    ∧ db_tasks d !! tid = Some task ∧ _has_active_lease tid d = false
    ∧ _load_claimable_mission task d = Ok (Some m)
    ∧ tl_task_id l = tid ∧ tl_mission_id l = tr_mission_id task
    ∧ tl_cancellation_generation l = mr_cancellation_generation m ∧ horizon_ok cfg l); change (P run) end.
  apply run_bind.
  { intros e d' ->%(reads_run _ _ _ _ (claimable_reads hash wid tok)). by left. }
  intros worker d' ->%(reads_run _ _ _ _ (claimable_reads hash wid tok)).
  run_rule P; [by left|]. run_rule P. run_rule P; [by left|].
  destruct a as [[[tid task] m]|]; [|by left].
  apply claim_search_sound in H0 as (Ht & _ & _ & _ & Hact & _ & Hm).
  pose proof (bind_claim_shape ids wid worker tid task m ap clock
    (or_default secs (default_lease_seconds cfg)) d Ht) as Hb. unfold P.
  rewrite bind_ret_state. destruct Hb as [Hb|(d1 & l & Hl & Hq & H1 & H2 & H3 & H4)]; [by left|].
  right. exists tid, task, m, d1, l. done.
Qed.

Lemma leased_inv d d1 lid l task m :
  lease_inv cfg d → leased d d1 lid l → _has_active_lease (tl_task_id l) d = false →
  db_tasks d !! tl_task_id l = Some task → tr_mission_id task = tl_mission_id l →
  db_missions d !! tl_mission_id l = Some m →
  tl_cancellation_generation l <= mr_cancellation_generation m → horizon_ok cfg l →
  lease_inv cfg d1.
Proof.
  intros [Ha Hr Hs Hh] (Hl & Hres & Hmi & Hta & Hn) Hact Ht Htm Hm Hgen Hhor.
  pose proof (no_active_lease _ _ Hact) as Hno. split.
  - intros id1 id2 l1 l2 H1 H2 A1 A2 Hte. rewrite Hl in H1, H2.
    rewrite lookup_insert_Some in H1, H2.
    destruct H1 as [[<- <-]|[N1 H1]], H2 as [[<- <-]|[N2 H2]]; [done| | |by eapply Ha].
    + rewrite (Hno id2 l2) in A2 by done. done.
    + rewrite (Hno id1 l1) in A1 by done. done.
  - intros id1 id2 r1 r2. rewrite Hres. eapply Hr.
  - intros id l1 H1. rewrite Hl, lookup_insert_Some in H1. rewrite Hta, Hmi.
    destruct H1 as [[<- <-]|[_ H1]]; [|by eapply Hs]. by exists task, m.
  - intros id l1 H1. rewrite Hl, lookup_insert_Some in H1.
    destruct H1 as [[<- <-]|[_ H1]]; [done|by eapply Hh].
Qed.

Lemma claim_inv ids locked wid tok ap clock secs d :
  lease_inv cfg d → lease_inv cfg (claim_eligible_attempt hash cfg ids locked wid tok ap clock secs d).2.
Proof.
  intros Hinv. destruct (claim_cases ids locked wid tok ap clock secs d)
    as [Hq|(tid & task & m & d1 & l & Hl & Hq & Ht & Hact & Hm & <- & Htm & Hg & Hh)];
    [by eapply quiet_inv|].
  apply claimable_mission in Hm as (Hm & _).
  eapply quiet_inv; [exact Hq|]. eapply (leased_inv d d1 _ l task m); eauto.
  - by rewrite Htm.
  - by rewrite Hg.
Qed.
End claim.

(** ** Acceptance *)
(** What a result must satisfy to be accepted: the lease it was produced under is the
    current authority over its task, for the mission and the worker as they are now. *)
Record fence_passes (d : Db) (rid : string) (r : WorkerResultRow) (l : TaskLeaseRow)
    (a : TaskAttemptRow) (t : TaskRow) (clock : Z) : Prop := {
  fp_project : wr_project_id r = tl_project_id l ∧ wr_project_id r = tr_project_id t;
  fp_lease : wr_attempt_id r = tl_attempt_id l ∧ wr_task_id r = tl_task_id l
    ∧ wr_mission_id r = tl_mission_id l ∧ wr_worker_generation r = tl_worker_generation l;
  fp_worker : ∃ w, db_workers d !! wr_worker_id r = Some w ∧ wl_revoked_at w = None
    ∧ wl_lease_generation w = wr_worker_generation r ∧ wl_project_id w = Some (wr_project_id r);
  fp_attempt : (wa_accepted_result_id a = None ∨ wa_accepted_result_id a = Some ""
    ∨ wa_accepted_result_id a = Some rid)
    ∧ (wa_status a ∉ _TERMINAL_ATTEMPT_STATUSES ∨ wa_status a = "accepted");
  fp_live : is_active l = true ∧ clock < tl_expires_at l;
  fp_task : tr_status t ∉ _TERMINAL_TASK_STATUSES ∨ tr_status t = "accepted";
  fp_inputs : wr_task_revision r = tl_task_revision l ∧ tr_graph_revision t = tl_task_revision l
    ∧ wr_input_digest r = tl_input_digest l ∧ wr_source_revision r = tl_source_revision l;
  fp_mission : ∃ m, db_missions d !! tr_mission_id t = Some m ∧ mr_project_id m = wr_project_id r
    ∧ mr_status m ∈ _RUNNABLE_MISSION_STATUSES
    ∧ (tl_source_revision l = None ∨ tl_source_revision l = Some (_mission_source_revision m))
    ∧ tl_cancellation_generation l = mr_cancellation_generation m
    ∧ payload_cancel_stale t m = Ok false;
  fp_review : _review_checks_pass (wr_checks r) = true;
  fp_reservations : _reservations_reconciled l r = Ok true;
  fp_single : ∀ id, get_accepted_for_attempt (wr_attempt_id r) d = Some id → id = rid
}.

Lemma get_accepted_None aid d :
  get_accepted_for_attempt aid d = None →
  ∀ id r, db_results d !! id = Some r → is_accepted r → wr_attempt_id r ≠ aid.
Proof.
  unfold get_accepted_for_attempt. intros Hf id r Hr Ha He.
  apply fmap_None in Hf. pose proof (List.find_none _ _ Hf (id, r)) as Hx.
  rewrite <- list_elem_of_In, elem_of_map_to_list in Hx. specialize (Hx Hr). simpl in Hx.
  by rewrite !bool_decide_true in Hx.
Qed.

Lemma get_accepted_Some aid d id :
  get_accepted_for_attempt aid d = Some id →
  ∃ r, db_results d !! id = Some r ∧ is_accepted r ∧ wr_attempt_id r = aid.
Proof.
  unfold get_accepted_for_attempt. intros H. apply fmap_Some in H as [[k r] [Hf ->]].
  apply List.find_some in Hf as [Hin Hc]. simpl in *. bool_to_prop.
  apply list_elem_of_In, elem_of_map_to_list in Hin. eauto.
Qed.

Lemma truthy_other (o : option string) rid :
  truthy o && negb (bool_decide (o = Some rid)) = false ↔ o = None ∨ o = Some "" ∨ o = Some rid.
Proof.
  destruct o as [s|]; simpl; [|naive_solver].
  rewrite andb_false_iff, !negb_false_iff, !bool_decide_eq_true. naive_solver.
Qed.
Lemma terminal_other st l :
  one_of st l && negb (bool_decide (st = "accepted")) = false ↔ st ∉ l ∨ st = "accepted".
Proof.
  unfold one_of. rewrite andb_false_iff, negb_false_iff, bool_decide_eq_true, bool_decide_eq_false.
  done.
Qed.
Lemma source_stale_false o s : source_stale o s = false ↔ o = None ∨ o = Some s.
Proof.
  destruct o; simpl; [|naive_solver]. rewrite negb_false_iff, bool_decide_eq_true. naive_solver.
Qed.

Lemma fence_sound rid r l a t clock d u d' :
  _assert_accept_fence rid r l a t clock d = (Ok u, d') → fence_passes d rid r l a t clock ∧ d' = d.
Proof.
  intros Hrun. unfold _assert_accept_fence in Hrun. run_inv.
  rewrite truthy_other in *. rewrite terminal_other in *. rewrite source_stale_false in *.
  unfold one_of in *. bool_to_prop.
  split; [|done]. split; eauto 10.
  - eexists. split_and!; try done. by apply eq_None_not_Some.
  - by simplify_eq.
  - intros id Hid. rewrite Hid in *. bool_to_prop. done.
Qed.

(** Steps of a program that do not fail: a guard that does not fire, a value that is there. *)
Section passing.
Context {S B : Type}.
Lemma pass_guard c e (k : () → M S B) s x : c = false → k () s = x → (raise_if c e ≫= k) s = x.
Proof. by intros ->. Qed.
Lemma pass_last c e (s : S) : c = false → raise_if c e s = (Ok (), s).
Proof. by intros ->. Qed.
Lemma pass_require {A} (o : option A) a e (k : A → M S B) s x :
  o = Some a → k a s = x → (require o e ≫= k) s = x.
Proof. by intros ->. Qed.
Lemma pass_of_result {A} (r : result A) a (k : A → M S B) s x :
  r = Ok a → k a s = x → (of_result r ≫= k) s = x.
Proof. by intros ->. Qed.
Lemma pass_get (k : S → M S B) s x : k s s = x → (get_state ≫= k) s = x.
Proof. done. Qed.
End passing.

Ltac pass_cond := first [assumption | apply bool_decide_eq_false_2; congruence
  | rewrite ?orb_false_iff, ?negb_false_iff, ?bool_decide_eq_true, ?bool_decide_eq_false,
      ?Z.eqb_eq, ?Z.leb_gt; first [done|split; done]].
Ltac pass_step := first
  [ apply pass_get
  | apply pass_guard; [pass_cond|]
  | eapply pass_require; [eassumption|]
  | eapply pass_of_result; [eassumption|] ].

Lemma fence_complete rid r l a t clock d :
  fence_passes d rid r l a t clock → _assert_accept_fence rid r l a t clock d = (Ok (), d).
Proof.
  intros [[] (? & ? & ? & ?) (w & Hw & Hrv & ? & ?) [Ha1 Ha2] [] Ht (? & ? & ? & ?)
    (m & Hm & ? & Hst & Hsrc & ? & Hpc) Hrev Hres Hsingle].
  assert (mr_status m ≠ "cancelled") as Hnc by (intros Heq; rewrite Heq in Hst; set_solver).
  apply truthy_other in Ha1. apply terminal_other in Ha2, Ht. apply source_stale_false in Hsrc.
  assert (bool_decide (is_Some (wl_revoked_at w)) = false) as Hrv'
    by (rewrite Hrv; by apply bool_decide_eq_false_2; intros []).
  assert (one_of (mr_status m) _RUNNABLE_MISSION_STATUSES = true) as Hrun
    by (by apply bool_decide_eq_true_2).
  unfold _assert_accept_fence. repeat pass_step. apply pass_last.
  destruct (get_accepted_for_attempt _ d) as [id|]; [|done].
  rewrite (Hsingle id) by done. by rewrite bool_decide_true.
Qed.

Definition accepted_row (r : WorkerResultRow) (clock : Z) : WorkerResultRow :=
  r <| wr_acceptance_state := "accepted" |> <| wr_accepted_at := Some clock |>
    <| wr_rejection_reason := None |>.

Lemma commit_quiet ob rid r l a t clock d d0 :
  db_results d !! rid = Some r → db_leases d !! wr_lease_id r = Some l →
  db_tasks d !! wr_task_id r = Some t →
  d0 = d <| db_results := <[rid := accepted_row r clock]> (db_results d) |> →
  quiet d0 (commit_acceptance ob rid r l a t clock d).2.
Proof.
  intros Hr Hl Ht ->. unfold commit_acceptance.
  match goal with |- quiet ?d0 (snd ((put_result _ _ ≫= ?k) d)) => change (quiet d0 (k () d0).2) end.
  set (d0 := d <| db_results := _ |>).
  apply quiet_seq; [done|apply quiet_put_attempt|]. intros [] d1 Hrun1 Hq1.
  assert (db_leases d1 = db_leases d ∧ db_tasks d1 = db_tasks d) as [HL HT] by (by injection Hrun1 as <-).
  apply quiet_seq; [done| |].
  { destruct (is_active l); [|done]. apply (quiet_put_lease _ _ l); [by rewrite HL|by apply lease_step_state]. }
  intros [] d2 Hrun2 Hq2. assert (db_tasks d2 = db_tasks d) as HT2.
  { rewrite <- HT. destruct (is_active l); by injection Hrun2 as <-. }
  apply quiet_seq; [done| |].
  { destruct (one_of _ _); [done|]. apply (quiet_put_task _ _ t); [by rewrite HT2|done]. }
  intros [] d3 _ Hq3. etrans; [exact Hq3|]. apply quiet_add_outbox.
Qed.

Lemma mark_rejected_quiet rid r reason d :
  db_results d !! rid = Some r → quiet d (_mark_rejected rid r reason d).2.
Proof.
  intros Hr. unfold _mark_rejected. destruct (bool_decide _) eqn:Ha; [done|]. bool_to_prop.
  eapply quiet_put_result; [done|]. by split_and!.
Qed.

(** An acceptance is quiet, or the fence passed and the one row it accepts is this one. *)
Lemma accept_cases ob rid clock d :
  let d' := (accept_result ob rid clock d).2 in
  quiet d d' ∨ ∃ r l a t, db_results d !! rid = Some r ∧ ¬ is_accepted r
    ∧ db_leases d !! wr_lease_id r = Some l ∧ db_attempts d !! wr_attempt_id r = Some a
    ∧ db_tasks d !! wr_task_id r = Some t ∧ fence_passes d rid r l a t clock
    ∧ quiet (d <| db_results := <[rid := accepted_row r clock]> (db_results d) |>) d'.
Proof.
  intros d'. subst d'. unfold accept_result.
  match goal with |- quiet d (snd ?run) ∨ ?rest => set (P := λ x : result AcceptedResult * Db,
    quiet d x.2 ∨ ∃ r l a t, db_results d !! rid = Some r ∧ ¬ is_accepted r
    ∧ db_leases d !! wr_lease_id r = Some l ∧ db_attempts d !! wr_attempt_id r = Some a
    ∧ db_tasks d !! wr_task_id r = Some t ∧ fence_passes d rid r l a t clock
    ∧ quiet (d <| db_results := <[rid := accepted_row r clock]> (db_results d) |>) x.2);
    change (P run) end.
  run_rule P. run_rule P; [by left|]. rename a into r.
  destruct (bool_decide (wr_acceptance_state r = "accepted")) eqn:Hacc.
  { left. quiet_pure; done. }
  bool_to_prop. run_rule P; [by left|].
  assert (∀ reason e, P ((_mark_rejected rid r reason;; raise e) d)) as Hrej.
  { intros reason e. left. apply quiet_seq; [done|by apply mark_rejected_quiet|by intros]. }
  destruct (db_leases d !! wr_lease_id r) as [l|] eqn:Hl; [|apply Hrej].
  destruct (db_attempts d !! wr_attempt_id r) as [a|] eqn:Ha; [|apply Hrej].
  destruct (db_tasks d !! wr_task_id r) as [t|] eqn:Ht; [|apply Hrej].
  destruct (_assert_accept_fence rid r l a t clock d) as [[u|e] d1] eqn:Hf.
  - apply fence_sound in Hf as Hfp. destruct Hfp as [Hfp ->]. right. exists r, l, a, t.
    split_and!; try done. unfold mbind at 1, M_bind at 1, try_except. rewrite Hf.
    rewrite bind_ret_state. by eapply commit_quiet.
  - assert (d1 = d) as -> by (pose proof (fence_reads rid r l a t clock d) as Hd; by rewrite Hf in Hd).
    left. unfold mbind at 1, M_bind at 1, try_except. rewrite Hf.
    assert (∀ (m : M Db ()) k, quiet d (m d).2 → (∀ s, (m d).1 ≠ Ok s) →
      quiet d (match m d with (Ok u, s) => (k u : M Db AcceptedResult) s | (Err e, s) => (Err e, s) end).2) as Hk.
    { intros m k Hm Hne. destruct (m d) as [[v|e'] s]; [by destruct (Hne v)|done]. }
    apply Hk.
    + destruct e; try done. apply quiet_seq; [done|by apply mark_rejected_quiet|by intros].
    + intros s. destruct e; try done. unfold mbind, M_bind.
      match goal with |- context [_mark_rejected ?i ?x ?y ?z] => by destruct (_mark_rejected i x y z) as [[]] end.
Qed.

Lemma accept_inv cfg ob rid clock d : lease_inv cfg d → lease_inv cfg (accept_result ob rid clock d).2.
Proof.
  intros Hinv. destruct (accept_cases ob rid clock d)
    as [Hq|(r & l & a & t & Hr & Hna & _ & _ & _ & Hf & Hq)]; [by eapply quiet_inv|].
  eapply quiet_inv; [exact Hq|]. destruct Hinv as [Ha Hacc Hs Hh].
  split; [exact Ha| |exact Hs|exact Hh].
  assert (∀ id r', db_results d !! id = Some r' → is_accepted r' →
    wr_attempt_id r' ≠ wr_attempt_id r) as Hnone.
  { destruct (get_accepted_for_attempt (wr_attempt_id r) d) as [id|] eqn:Hg.
    - destruct (get_accepted_Some _ _ _ Hg) as (r0 & Hr0 & Ha0 & _).
      rewrite (fp_single _ _ _ _ _ _ _ Hf id Hg) in Hr0. by simplify_eq.
    - by apply get_accepted_None. }
  simpl. intros id1 id2 r1 r2 H1 H2 A1 A2 He. rewrite lookup_insert_Some in H1, H2.
  destruct H1 as [[<- <-]|[N1 H1]], H2 as [[<- <-]|[N2 H2]]; [done| | |by eapply Hacc].
  - by destruct (Hnone id2 r2).
  - by destruct (Hnone id1 r1).
Qed.

(** The handler around the fence always raises again. *)
Lemma try_fence_Ok rid r l a t clock d u d' :
  try_except (_assert_accept_fence rid r l a t clock) (λ exc, match exc with
    | ResultAcceptanceError reason => _mark_rejected rid r reason;; raise exc
    | _ => raise exc end) d = (Ok u, d') →
  fence_passes d rid r l a t clock ∧ d' = d.
Proof.
  unfold try_except. destruct (_assert_accept_fence _ _ _ _ _ _ _) as [[v|e] d1] eqn:Hf.
  - intros H. simplify_eq. by eapply fence_sound.
  - destruct e; intros H; run_inv.
Qed.

(** A new acceptance passed the fence, and its writes are those of [commit_acceptance]. *)
Lemma accept_Ok ob rid r clock d out d' :
  db_results d !! rid = Some r → ¬ is_accepted r → accept_result ob rid clock d = (Ok out, d') →
  ∃ l a t, db_leases d !! wr_lease_id r = Some l ∧ db_attempts d !! wr_attempt_id r = Some a
    ∧ db_tasks d !! wr_task_id r = Some t ∧ fence_passes d rid r l a t clock
    ∧ commit_acceptance ob rid r l a t clock d = (Ok (), d') ∧ out = accepted_of rid r clock.
Proof.
  intros Hr Hna Hrun. unfold accept_result in Hrun. run_inv.
  rewrite bool_decide_false in * by done. run_inv.
  destruct (db_leases d !! wr_lease_id r) as [l|]; [|by run_inv].
  destruct (db_attempts d !! wr_attempt_id r) as [a|]; [|by run_inv].
  destruct (db_tasks d !! wr_task_id r) as [t|]; [|by run_inv]. run_inv.
  match goal with H : try_except _ _ _ = _ |- _ => apply try_fence_Ok in H as [Hf ->] end.
  exists l, a, t. repeat match goal with u : () |- _ => destruct u end. done.
Qed.

(** A submission the fence refuses raises, and at most its own row changes. *)
Lemma accept_refused ob rid r l a t clock d :
  db_results d !! rid = Some r → ¬ is_accepted r →
  db_leases d !! wr_lease_id r = Some l → db_attempts d !! wr_attempt_id r = Some a →
  db_tasks d !! wr_task_id r = Some t → ¬ fence_passes d rid r l a t clock →
  ∃ e, (accept_result ob rid clock d).1 = Err e
  ∧ ((accept_result ob rid clock d).2 = d
     ∨ ∃ reason, (accept_result ob rid clock d).2 = (_mark_rejected rid r reason d).2).
Proof.
  intros Hr Hna Hl Ha Ht Hno. unfold accept_result.
  match goal with |- ∃ e, fst ?run = _ ∧ _ => set (P := λ x : result AcceptedResult * Db,
    ∃ e, x.1 = Err e ∧ (x.2 = d ∨ ∃ reason, x.2 = (_mark_rejected rid r reason d).2)); change (P run) end.
  run_rule P. run_rule P; [by eexists; split; [|left]|]. simplify_eq.
  rewrite bool_decide_false by done. run_rule P; [by eexists; split; [|left]|]. rewrite Hl, Ha, Ht.
  unfold mbind at 1, M_bind at 1, try_except.
  destruct (_assert_accept_fence rid r l a t clock d) as [[v|e] d1] eqn:Hf.
  { apply fence_sound in Hf as [? _]. done. }
  assert (d1 = d) as -> by (pose proof (fence_reads rid r l a t clock d) as Hd; by rewrite Hf in Hd).
  destruct e; try (eexists; split; [done|by left]).
  match goal with |- context [_mark_rejected ?i ?x ?reason] =>
    unfold P, mbind, M_bind; unfold _mark_rejected at 1; rewrite bool_decide_false by done;
    eexists; split; [done|]; right; exists reason; unfold _mark_rejected;
    rewrite bool_decide_false by done end.
  done.
Qed.

Definition accepted_attempt (rid : string) (a : TaskAttemptRow) (clock : Z) : TaskAttemptRow :=
  a <| wa_status := "accepted" |> <| wa_accepted_result_id := Some rid |>
    <| wa_completed_at := Some clock |> <| wa_terminal_at := Some clock |>.

(** The four rows a committed acceptance writes. *)
Record committed (d d' : Db) (rid : string) (r : WorkerResultRow) (l : TaskLeaseRow)
    (a : TaskAttemptRow) (t : TaskRow) (clock : Z) : Prop := {
  cm_results : db_results d' = <[rid := accepted_row r clock]> (db_results d);
  cm_attempts : db_attempts d' = <[wr_attempt_id r := accepted_attempt rid a clock]> (db_attempts d);
  cm_leases : db_leases d' = <[wr_lease_id r := l <| tl_state := "released" |>
                                <| tl_updated_at := clock |>]> (db_leases d);
  cm_tasks : db_tasks d' = <[wr_task_id r := t <| tr_status := "accepted" |>]> (db_tasks d);
  cm_missions : db_missions d' = db_missions d;
  cm_workers : db_workers d' = db_workers d
}.

Lemma accepted_task_id (d : gmap string TaskRow) tid t :
  d !! tid = Some t → tr_status t = "accepted" → <[tid := t <| tr_status := "accepted" |>]> d = d.
Proof. intros Ht Hs. apply insert_id. rewrite Ht. destruct t. simpl in *. by subst. Qed.

Lemma commit_run ob rid r l a t clock d :
  db_tasks d !! wr_task_id r = Some t → fence_passes d rid r l a t clock →
  db_outbox d !! ("result-accept:" +:+ rid) = None →
  ∃ d', commit_acceptance ob rid r l a t clock d = (Ok (), d') ∧ committed d d' rid r l a t clock.
Proof.
  intros Ht Hf Hob. unfold commit_acceptance. rewrite (proj1 (fp_live _ _ _ _ _ _ _ Hf)).
  assert (¬ is_Some (db_outbox d !! ("result-accept:" +:+ rid))) as Hno by (rewrite Hob; by intros []).
  unfold put_result, put_attempt, put_lease, add_outbox, mbind, M_bind, modify.
  destruct (one_of (tr_status t) _TERMINAL_TASK_STATUSES) eqn:Hterm.
  - assert (tr_status t = "accepted") as Hs.
    { destruct (fp_task _ _ _ _ _ _ _ Hf) as [Hn|]; [|done]. unfold one_of in Hterm. bool_to_prop. done. }
    unfold mret, M_ret, get_state. rewrite bool_decide_false by exact Hno.
    eexists. split; [reflexivity|]. split; try done. symmetry. by apply accepted_task_id.
  - unfold put_task, modify, get_state. rewrite bool_decide_false by exact Hno.
    eexists. split; [reflexivity|]. by split.
Qed.

Lemma accept_fenced ob rid r l a t clock d :
  db_results d !! rid = Some r → wr_acceptance_state r = "submitted" →
  db_leases d !! wr_lease_id r = Some l → db_attempts d !! wr_attempt_id r = Some a →
  db_tasks d !! wr_task_id r = Some t → db_outbox d !! ("result-accept:" +:+ rid) = None →
  fence_passes d rid r l a t clock →
  ∃ d', accept_result ob rid clock d = (Ok (accepted_of rid r clock), d')
    ∧ committed d d' rid r l a t clock.
Proof.
  intros Hr Hst Hl Ha Ht Hob Hf. destruct (commit_run ob rid r l a t clock d Ht Hf Hob) as (d' & Hc & Hd').
  exists d'. split; [|done]. unfold accept_result. apply pass_get. eapply pass_require; [done|].
  rewrite Hst. apply pass_guard; [done|]. rewrite Hl, Ha, Ht.
  unfold mbind, M_bind, try_except. rewrite (fence_complete _ _ _ _ _ _ _ Hf).
  by rewrite Hc.
Qed.
