(* ===== verification/WorkerProps.v ===== *)
(** * WorkerProps: what worker registrations keep

    Worker rows are written by the registration repository only.  A revoked worker stays
    revoked, and no metadata row ever holds a raw token field. *)
From S2P Require Import Prelude Collections Contracts PyFloat Json LeaseTables Leases WorkerService LeaseProps.
Open Scope Z_scope.

(** ** The raw-token check *)
(** Some object inside the document has a forbidden key. *)
Inductive holds_raw : json → Prop :=
| hr_key d k v : (k, v) ∈ d → forbidden k = true → holds_raw (JObj d)
| hr_value d k v : (k, v) ∈ d → holds_raw v → holds_raw (JObj d)
| hr_item l x : x ∈ l → holds_raw x → holds_raw (JList l).

Lemma first_error_Ok {A} (check : nat → A → result ()) i l :
  first_error check i l = Ok () ↔ ∀ n x, l !! n = Some x → check (i + n)%nat x = Ok ().
Proof.
  revert i; induction l as [|a l IH]; intros i; simpl; [by split; [intros _ [|n]|]|].
  destruct (check i a) as [[]|e] eqn:Hc.
  - rewrite IH. split.
    + intros H [|n] x Hx; simpl in Hx; simplify_eq; [by rewrite Nat.add_0_r|].
      rewrite <- (H n x Hx). f_equal. lia.
    + intros H n x Hx. rewrite <- (H (S n) x Hx). f_equal. lia.
  - split; [done|]. intros H. specialize (H 0%nat a eq_refl). rewrite Nat.add_0_r in H. congruence.
Qed.

Lemma raw_check_exact j : ∀ path, _assert_no_raw_token_fields j path = Ok () ↔ ¬ holds_raw j.
Proof.
  induction j as [| | | |l IH|d IH] using json_ind'; intros path; simpl;
    try by (split; [intros _ H; inversion H|]).
  - rewrite first_error_Ok, Forall_forall in *. split.
    + intros H Hr. inversion Hr as [| |? x Hx Hh]; subst. apply list_elem_of_lookup in Hx as Hn.
      destruct Hn as [n Hn]. specialize (H n x Hn). by apply (IH x Hx) in H.
    + intros H n x Hn. apply list_elem_of_lookup_2 in Hn. apply (IH x Hn).
      intros Hh. apply H. by eapply hr_item.
  - rewrite first_error_Ok, Forall_forall in *. split.
    + intros H Hr. inversion Hr as [? k v Hx Hf|? k v Hx Hh|]; subst;
        apply list_elem_of_lookup in Hx as Hn; destruct Hn as [n Hn]; specialize (H n _ Hn); simpl in H.
      * by rewrite Hf in H.
      * destruct (forbidden k); [done|]. by apply (IH _ Hx) in H.
    + intros H n [k v] Hn. apply list_elem_of_lookup_2 in Hn as Hx. simpl.
      destruct (forbidden k) eqn:Hf; [by destruct H; eapply hr_key|]. apply (IH _ Hx).
      intros Hh. apply H. by eapply hr_value.
Qed.

(** ** What a write to a worker row keeps *)
Definition clean (w : WorkerLeaseRow) : Prop := ¬ holds_raw (JObj (wl_resource_payload w)).
Definition revoked (w : WorkerLeaseRow) : Prop := is_Some (wl_revoked_at w).

Record row_step (w w' : WorkerLeaseRow) : Prop := {
  rs_revoked : revoked w → revoked w';
  rs_clean : clean w → clean w'
}.
#[export] Instance row_step_preorder : PreOrder row_step.
Proof. split; [by split|]. intros a b c [] []. split; auto. Qed.

Record wquiet (d d' : Db) : Prop := {
  wq_old : ∀ id w, db_workers d !! id = Some w → ∃ w', db_workers d' !! id = Some w' ∧ row_step w w';
  wq_new : ∀ id w', db_workers d !! id = None → db_workers d' !! id = Some w' → clean w'
}.
#[export] Instance wquiet_preorder : PreOrder wquiet.
Proof.
  split.
  - intros d. split; [|congruence]. intros id w Hw. exists w. by split.
  - intros d1 d2 d3 H1 H2. split.
    + intros id w Hw. destruct (wq_old _ _ H1 id w Hw) as (w1 & Hw1 & S1).
      destruct (wq_old _ _ H2 id w1 Hw1) as (w2 & Hw2 & S2). exists w2. split; [done|by etrans].
    + intros id w Hn Hw. destruct (db_workers d2 !! id) as [w1|] eqn:Hw1; [|by eapply (wq_new _ _ H2)].
      destruct (wq_old _ _ H2 id w1 Hw1) as (w2 & Hw2 & [_ S2]). simplify_eq.
      by apply S2, (wq_new _ _ H1 id).
Qed.

Lemma wquiet_same d d' : db_workers d' = db_workers d → wquiet d d'.
Proof. intros H. split; rewrite H; [|congruence]. intros id w Hw. by exists w. Qed.
Lemma wquiet_put d id w w' :
  db_workers d !! id = Some w → row_step w w' → wquiet d (put_worker id w' d).2.
Proof.
  intros Hw Hs. split; simpl; intros id' x Hx.
  - destruct (decide (id = id')) as [<-|]; [rewrite lookup_insert_eq|rewrite lookup_insert_ne by done].
    + simplify_eq. eauto.
    + by exists x.
  - intros Hx'. rewrite lookup_insert_ne in Hx' by congruence. congruence.
Qed.
Lemma wquiet_new d id w' : db_workers d !! id = None → clean w' → wquiet d (put_worker id w' d).2.
Proof.
  intros Hw Hc. split; simpl; intros id' x Hx.
  - rewrite lookup_insert_ne by congruence. by exists x.
  - intros [[<- <-]|[_ Hx']]%lookup_insert_Some; [done|congruence].
Qed.

Lemma wquiet_seq {A B} d0 d (m : M Db A) (k : A → M Db B) :
  wquiet d0 d → wquiet d (m d).2 →
  (∀ a d1, m d = (Ok a, d1) → wquiet d0 d1 → wquiet d0 (k a d1).2) →
  wquiet d0 ((m ≫= k) d).2.
Proof.
  intros H0 Hm Hk. unfold mbind, M_bind. destruct (m d) as [[a|e] d1] eqn:Hrun; simpl in *.
  - apply Hk; [done|by etrans].
  - by etrans.
Qed.
Lemma wquiet_after_reads {A B} d0 d (m : M Db A) (k : A → M Db B) :
  wquiet d0 d → reads m → (∀ a, m d = (Ok a, d) → wquiet d0 (k a d).2) → wquiet d0 ((m ≫= k) d).2.
Proof.
  intros H0 Hm Hk. apply wquiet_seq; [done|by rewrite Hm|].
  intros a d1 Hrun _. pose proof (reads_run _ _ _ _ Hm Hrun) as ->. auto.
Qed.
Ltac wquiet_reads := apply wquiet_after_reads; [done|solve [auto with swarm]|intros ? ?].

Lemma get_worker_Ok id d row d' : get_worker id d = (Ok row, d') → db_workers d !! id = Some row.
Proof. unfold get_worker. intros H. by run_inv. Qed.

(** A row stays as good when its payload and revocation are not touched. *)
Lemma row_step_same w w' :
  wl_revoked_at w' = wl_revoked_at w → wl_resource_payload w' = wl_resource_payload w → row_step w w'.
Proof. intros H1 H2. split; unfold revoked, clean; by rewrite ?H1, ?H2. Qed.
#[export] Hint Resolve row_step_same : swarm.

Section operations.
Variable hash : string → string.

Lemma require_member_Ok id tok gen d row d' :
  require_member hash id tok gen d = (Ok row, d') →
  db_workers d !! id = Some row ∧ wl_revoked_at row = None ∧ token_ok hash row tok = true
  ∧ wl_lease_generation row = gen.
Proof.
  unfold require_member, get_worker. intros H. run_inv. bool_to_prop.
  split_and!; [done|by apply eq_None_not_Some|done|done].
Qed.
#[local] Hint Resolve get_worker_reads require_member_reads : swarm.

Lemma upsert_wquiet now tid id g d : wquiet d (upsert_registration hash now tid id g d).2.
Proof.
  unfold upsert_registration. wquiet_reads. match goal with H : of_result _ _ = _ |- _ => rename H into Hc end.
  apply of_result_Ok in Hc as [Hc _]. destruct a. apply raw_check_exact in Hc.
  apply wquiet_after_reads; [done|apply reads_get|]. intros d1 Hd1. injection Hd1 as <-.
  apply wquiet_seq; [done| |intros [] d1 _ Hq; wquiet_reads; done].
  destruct (db_workers d !! id) as [w|] eqn:Hw.
  - eapply wquiet_put; [done|]. by split.
  - by apply wquiet_new.
Qed.

Lemma rotate_wquiet now tid id t1 t2 d : wquiet d (rotate_membership_token hash now tid id t1 t2 d).2.
Proof.
  unfold rotate_membership_token. wquiet_reads. apply get_worker_Ok in H. do 3 wquiet_reads.
  apply wquiet_seq; [done|eapply wquiet_put; [done|by apply row_step_same]|].
  intros [] d1 _ Hq. wquiet_reads. done.
Qed.

Lemma revoke_worker_wquiet now id d : wquiet d (revoke_worker now id d).2.
Proof.
  unfold revoke_worker. wquiet_reads. apply get_worker_Ok in H.
  apply wquiet_seq; [done| |by intros]. eapply wquiet_put; [done|]. split; [by eexists|done].
Qed.

Lemma drain_wquiet now id d : wquiet d (request_drain now id d).2.
Proof.
  unfold request_drain. wquiet_reads. apply get_worker_Ok in H. case_match; [done|].
  apply wquiet_seq; [done| |by intros]. eapply wquiet_put; [done|by apply row_step_same].
Qed.

Lemma heartbeat_state_keeps clock st w :
  wl_revoked_at (heartbeat_state clock st w) = wl_revoked_at w
  ∧ wl_resource_payload (heartbeat_state clock st w) = wl_resource_payload w.
Proof. unfold heartbeat_state. repeat case_match; done. Qed.

Lemma heartbeat_wquiet clock id tok gen st ids av he d :
  wquiet d (record_heartbeat hash clock id tok gen st ids av he d).2.
Proof.
  unfold record_heartbeat. wquiet_reads. apply require_member_Ok in H as (Hw & _ & _ & _).
  wquiet_reads.
  match goal with |- context [heartbeat_state ?c ?s ?w] => set (row := heartbeat_state c s w);
    destruct (heartbeat_state_keeps c s w) as [Hrev Hpay] end. fold row in Hrev, Hpay.
  apply wquiet_seq; [done|eapply wquiet_put; [done|by apply row_step_same]|].
  intros [] d1 Hrun Hq. assert (db_workers d1 !! id = Some row) as Hw1.
  { injection Hrun as <-. apply lookup_insert_eq. }
  do 2 wquiet_reads. apply of_result_Ok in H1 as [Hc _]. destruct a2. apply raw_check_exact in Hc.
  apply wquiet_seq; [done| |by intros]. eapply wquiet_put; [done|]. by split.
Qed.

(** The rows an advertisement writes one after the other all keep what the first had. *)
Definition holding (id : string) (w0 w : WorkerLeaseRow) (d0 d : Db) : Prop :=
  wquiet d0 d ∧ db_workers d !! id = Some w
  ∧ wl_revoked_at w = wl_revoked_at w0 ∧ wl_resource_payload w = wl_resource_payload w0.

Lemma holding_put id w0 w w' d0 d :
  holding id w0 w d0 d → wl_revoked_at w' = wl_revoked_at w →
  wl_resource_payload w' = wl_resource_payload w → holding id w0 w' d0 (put_worker id w' d).2.
Proof.
  intros (Hq & Hw & H1 & H2) H3 H4. split_and!; [| |congruence..].
  - etrans; [exact Hq|]. eapply wquiet_put; [done|by apply row_step_same].
  - apply lookup_insert_eq.
Qed.

(** An optional part of an advertisement: a guard, then the row with one column replaced. *)
Lemma holding_stage {A B} (o : option A) guard err (f : A → WorkerLeaseRow) id w0 w d0 d
    (k : WorkerLeaseRow → M Db B) :
  holding id w0 w d0 d →
  (∀ x, wl_revoked_at (f x) = wl_revoked_at w ∧ wl_resource_payload (f x) = wl_resource_payload w) →
  (∀ w' d', holding id w0 w' d0 d' → wquiet d0 (k w' d').2) →
  wquiet d0 ((match o with
              | Some x => raise_if (guard x) err;; put_worker id (f x);; mret (f x)
              | None => mret w end ≫= k) d).2.
Proof.
  intros Hh Hf Hk. destruct o as [x|]; [|by apply Hk]. destruct (Hf x) as [H1 H2].
  unfold mbind, M_bind. destruct (guard x); [apply Hh|]. apply Hk. by eapply holding_put.
Qed.

Lemma advertise_wquiet now id tok gen caps cap priv d :
  wquiet d (advertise_capabilities hash now id tok gen caps cap priv d).2.
Proof.
  unfold advertise_capabilities. wquiet_reads. apply require_member_Ok in H as (Hw & _ & _ & _).
  assert (holding id a a d d) as Hh by (by split_and!).
  eapply (holding_stage caps); [exact Hh|done|]. clear Hh. intros w1 d1 Hh.
  eapply (holding_stage cap); [exact Hh|done|]. clear Hh. intros w2 d2 Hh.
  eapply (holding_stage priv); [exact Hh|done|]. clear Hh. intros w3 d3 Hh.
  apply wquiet_seq; [apply Hh| |by intros]. destruct Hh as (_ & Hw3 & _).
  eapply wquiet_put; [done|by apply row_step_same].
Qed.
End operations.

(** ** Lease operations do not write worker rows *)
Definition keeps_workers {A} (m : M Db A) : Prop := ∀ d, db_workers (m d).2 = db_workers d.

Lemma kw_reads {A} (m : M Db A) : reads m → keeps_workers m.
Proof. intros H d. by rewrite H. Qed.
Lemma kw_bind {A B} (m : M Db A) (k : A → M Db B) :
  keeps_workers m → (∀ a, keeps_workers (k a)) → keeps_workers (m ≫= k).
Proof.
  intros Hm Hk d. unfold mbind, M_bind. specialize (Hm d).
  destruct (m d) as [[a|e] d1]; simpl in *; [by rewrite Hk|done].
Qed.
Lemma kw_for_each {A} (body : A → M Db ()) l :
  (∀ x, keeps_workers (body x)) → keeps_workers (for_each body l).
Proof. intros H. induction l as [|x l IH]; simpl; [done|]. by apply kw_bind. Qed.
Lemma kw_try {A} (m : M Db A) h :
  keeps_workers m → (∀ e, keeps_workers (h e)) → keeps_workers (try_except m h).
Proof.
  intros Hm Hh d. unfold try_except. specialize (Hm d). destruct (m d) as [[a|e] d1]; simpl in *;
    [done|by rewrite Hh].
Qed.
Lemma kw_put_mission id r : keeps_workers (put_mission id r).
Proof. done. Qed.
Lemma kw_put_task id r : keeps_workers (put_task id r).
Proof. done. Qed.
Lemma kw_put_attempt id r : keeps_workers (put_attempt id r).
Proof. done. Qed.
Lemma kw_put_lease id r : keeps_workers (put_lease id r).
Proof. done. Qed.
Lemma kw_put_result id r : keeps_workers (put_result id r).
Proof. done. Qed.
Lemma kw_outbox id r : keeps_workers (add_outbox id r).
Proof. intros d. unfold add_outbox, mbind, M_bind, get_state, raise_if. by destruct (bool_decide _). Qed.
#[export] Hint Resolve kw_put_mission kw_put_task kw_put_attempt kw_put_lease kw_put_result kw_outbox
  claimable_reads authenticated_reads authority_reads fence_reads : swarm.
#[export] Hint Extern 3 (keeps_workers _) => apply kw_reads; solve [auto with swarm] : swarm.

Ltac kw_tac := repeat first
  [ apply kw_for_each; intros ? | apply kw_try; [|intros ?] | apply kw_outbox
  | apply kw_bind; [|intros ?] | solve [auto with swarm] | case_match ].

Section lifecycle.
Variable hash : string → string.
Variable cfg : LeaseConfig.

Lemma claim_kw ids locked wid tok ap clock secs :
  keeps_workers (claim_eligible_attempt hash cfg ids locked wid tok ap clock secs).
Proof. unfold claim_eligible_attempt, _bind_claim, insert_attempt, insert_lease. kw_tac. Qed.
Lemma renew_kw lid wid gen tok ext clock :
  keeps_workers (renew_lease hash cfg lid wid gen tok ext clock).
Proof. unfold renew_lease. kw_tac. Qed.
Lemma expire_kw clock p limit locked : keeps_workers (expire_leases clock p limit locked).
Proof. unfold expire_leases, expire_one. kw_tac. Qed.
Lemma submit_kw rid ob lid wid tok gen sub clock :
  keeps_workers (submit_result hash rid ob lid wid tok gen sub clock).
Proof. unfold submit_result, insert_result. kw_tac. Qed.
Lemma accept_kw ob rid clock : keeps_workers (accept_result ob rid clock).
Proof. unfold accept_result, commit_acceptance, _mark_rejected. kw_tac. Qed.
Lemma cancel_lease_kw ob lid reason clock : keeps_workers (cancel_active_lease ob lid reason clock).
Proof. unfold cancel_active_lease. kw_tac. Qed.
Lemma revoke_kw fresh mid reason notify clock :
  keeps_workers (revoke_mission_work fresh mid reason notify clock).
Proof. pose proof cancel_lease_kw. unfold revoke_mission_work. kw_tac. Qed.
Lemma cancel_kw fresh mid reason clock : keeps_workers (cancel_mission fresh mid reason clock).
Proof. pose proof revoke_kw. unfold cancel_mission. kw_tac. Qed.
End lifecycle.

(** ** Rows the worker service writes *)
Lemma raw_dict_set d k v :
  holds_raw (JObj (dict_set d k v)) → holds_raw (JObj d) ∨ forbidden k = true ∨ holds_raw v.
Proof.
  inversion 1 as [? k' v' Hin Hf|? k' v' Hin Hh|]; subst;
    (destruct (dict_elem_set _ _ _ _ _ Hin) as [[-> ->]|Hold]; [by right; (left + right)|left]).
  - by eapply hr_key.
  - by eapply hr_value.
Qed.

Definition progress_ok (id : string) (d : Db) : Prop :=
  ∀ w j, db_workers d !! id = Some w → dict_get (wl_resource_payload w) "lease_progress" = Some j → ∃ o, j = JObj o.

Lemma note_progress_wquiet now id lid pc d :
  forbidden lid = false → progress_ok id d → wquiet d (note_progress now id lid pc d).2.
Proof.
  intros Hlid Hok. unfold note_progress. unfold mbind at 1, M_bind at 1, get_state.
  destruct (db_workers d !! id) as [w|] eqn:Hw; [|done].
  assert (∃ o, py_dict (jget (JObj (wl_resource_payload w)) "lease_progress") = Ok o
    ∧ (clean w → ¬ holds_raw (JObj o))) as (o & Ho & Hraw).
  { unfold jget. destruct (dict_get _ "lease_progress") as [j|] eqn:Hj; simpl.
    - destruct (Hok w j Hw Hj) as [o ->]. exists (if bool_decide (length o = 0%nat) then [] else o). split.
      + unfold py_dict, py_truthy. destruct (bool_decide (length o = 0%nat)); done.
      + intros Hc Hh. apply Hc. eapply hr_value; [by apply dict_get_elem|]. by case_bool_decide; [inversion Hh; set_solver|].
    - exists []. split; [done|]. intros _ Hh. inversion Hh; set_solver. }
  rewrite Ho. unfold mbind, M_bind, of_result. eapply wquiet_put; [done|]. split; [done|].
  intros Hc Hh. unfold clean in *. simpl in Hh.
  destruct (raw_dict_set _ _ _ Hh) as [|[Hf|Hv]]; [done|by vm_compute in Hf|].
  destruct (raw_dict_set _ _ _ Hv) as [Ho'|[Hf|Hv']]; [by apply Hraw|congruence|].
  inversion Hv' as [? k v Hin Hf|? k v Hin Hh'|]; subst;
    (apply elem_of_cons in Hin as [[= -> ->]|[[= -> ->]|Hn%elem_of_nil]%elem_of_cons]; [..|done]);
    try (by vm_compute in Hf); inversion Hh'.
Qed.

Lemma finish_drain_wquiet now id d : wquiet d (finish_drain now id d).2.
Proof.
  unfold finish_drain. unfold mbind, M_bind, get_state. destruct (db_workers d !! id) as [w|] eqn:Hw; [|done].
  eapply wquiet_put; [done|by apply row_step_same].
Qed.
