(* ===== verification/LeaseScan.v ===== *)
(** * LeaseScan: the paginated claim scan against the whole queue

    The claim reads the ready queue in keyset pages under SKIP LOCKED.  This file shows
    that the page loop ends for every lock pattern, and that with a stable set of locked
    rows it finds exactly what a scan of the whole queue finds. *)
From S2P Require Import Prelude Collections Contracts PyFloat Json LeaseTables Leases LeaseProps.
Open Scope Z_scope.

(** ** The scan order *)
Lemma scan_leb_iff p1 c1 i1 p2 c2 i2 :
  scan_leb (p1, c1, i1) (p2, c2, i2) = true ↔
  p1 < p2 ∨ (p1 = p2 ∧ (c1 < c2 ∨ (c1 = c2 ∧ str_leb i1 i2 = true))).
Proof.
  unfold scan_leb. rewrite !orb_true_iff, !andb_true_iff, !orb_true_iff, !andb_true_iff,
    !Z.ltb_lt, !Z.eqb_eq. done.
Qed.

Lemma scan_leb_total a b : scan_leb a b = true ∨ scan_leb b a = true.
Proof.
  destruct a as [[p1 c1] i1], b as [[p2 c2] i2]. rewrite !scan_leb_iff.
  destruct (str_leb_total i1 i2); destruct (Z.lt_trichotomy p1 p2) as [?|[?|?]];
    destruct (Z.lt_trichotomy c1 c2) as [?|[?|?]]; naive_solver.
Qed.
Lemma scan_leb_trans a b c : scan_leb a b = true → scan_leb b c = true → scan_leb a c = true.
Proof.
  destruct a as [[p1 c1] i1], b as [[p2 c2] i2], c as [[p3 c3] i3]. rewrite !scan_leb_iff.
  intros [?|[? [?|[? H1]]]] [?|[? [?|[? H2]]]]; try (left; lia); right; (split; [lia|]);
    try (left; lia). right. split; [lia|by eapply str_leb_trans].
Qed.
Lemma scan_leb_antisym a b : scan_leb a b = true → scan_leb b a = true → a = b.
Proof.
  destruct a as [[p1 c1] i1], b as [[p2 c2] i2]. rewrite !scan_leb_iff.
  intros [?|[? [?|[? H1]]]] [?|[? [?|[? H2]]]]; try lia. f_equal; [congruence|].
  by apply str_leb_antisym.
Qed.
Lemma scan_ltb_irrefl a : scan_ltb a a = false.
Proof. unfold scan_ltb. by destruct (scan_leb_total a a) as [-> | ->]. Qed.
Lemma scan_ltb_trans a b c : scan_ltb a b = true → scan_ltb b c = true → scan_ltb a c = true.
Proof.
  unfold scan_ltb. rewrite !negb_true_iff. intros H1 H2. apply not_true_iff_false. intros H3.
  destruct (scan_leb_total b c) as [Hbc|Hbc]; [|congruence].
  rewrite (scan_leb_trans b c a) in H1; done.
Qed.

(** ** The ready queue *)
Section queue.
Variables (project : string) (locked : gset string) (d : Db).
Let key_leb (a b : string * TaskRow) : bool := scan_leb (key_of_task a) (key_of_task b).

Lemma ready_queue_sorted :
  StronglySorted (λ a b, key_leb a b = true) (ready_queue project locked d).
Proof.
  apply sort_by_sorted; unfold key_leb.
  - intros a b. apply scan_leb_total.
  - intros a b c. apply scan_leb_trans.
Qed.
Lemma ready_queue_nodup : NoDup (ready_queue project locked d).*1.
Proof.
  unfold ready_queue. rewrite sort_by_perm. apply nodup_fst_filter, NoDup_fst_map_to_list.
Qed.
Lemma ready_queue_length : (length (ready_queue project locked d) <= size (db_tasks d))%nat.
Proof.
  unfold ready_queue. rewrite length_sort_by, List.filter_length_le. by rewrite length_map_to_list.
Qed.
End queue.

Lemma filter_none {A} (f : A → bool) l : (∀ x, x ∈ l → f x = false) → List.filter f l = [].
Proof.
  induction l as [|a l IH]; intros H; simpl; [done|]. rewrite H by (by left). apply IH.
  intros x Hx. apply H. by right.
Qed.
Lemma filter_every {A} (f : A → bool) l : (∀ x, x ∈ l → f x = true) → List.filter f l = l.
Proof.
  induction l as [|a l IH]; intros H; simpl; [done|]. rewrite H by (by left). f_equal. apply IH.
  intros x Hx. apply H. by right.
Qed.

(** In a strictly ordered list, what follows an element is what is greater than it. *)
Lemma after_last (q pre post : list (string * TaskRow)) x :
  StronglySorted (λ a b, scan_leb (key_of_task a) (key_of_task b) = true) q →
  NoDup q.*1 → q = pre ++ x :: post →
  List.filter (after_key (Some (key_of_task x))) q = post.
Proof.
  intros Hs Hnd ->. rewrite List.filter_app. simpl. rewrite scan_ltb_irrefl.
  apply StronglySorted_app in Hs as (Hcross & _ & Hpost).
  rewrite fmap_app in Hnd. apply NoDup_app in Hnd as (_ & _ & Hnd). simpl in Hnd.
  apply NoDup_cons in Hnd as [Hnx _]. apply StronglySorted_inv in Hpost as [_ Hge].
  rewrite (filter_none _ pre), (filter_every _ post); [done| |].
  - intros y Hy. rewrite Forall_forall in Hge. specialize (Hge y Hy). simpl.
    unfold scan_ltb. rewrite negb_true_iff. apply not_true_iff_false. intros Hle.
    pose proof (scan_leb_antisym _ _ Hge Hle) as Heq. apply Hnx.
    injection Heq as _ _ ->. by apply list_elem_of_fmap_2.
  - intros y Hy. simpl. unfold scan_ltb. rewrite negb_false_iff. apply Hcross; [done|by left].
Qed.

Section scan.
Variable cfg : LeaseConfig.
Variable worker : WorkerLeaseRow.
Variable project : string.
Variable d : Db.

Lemma page_size_pos : (0 < page_size cfg)%nat.
Proof. unfold page_size. lia. Qed.

Lemma first_claimable_app l1 l2 :
  first_claimable worker d (l1 ++ l2) = match first_claimable worker d l1 with
                                        | Ok None => first_claimable worker d l2
                                        | r => r end.
Proof.
  induction l1 as [|kt l1 IH]; simpl; [done|]. destruct (candidate worker d kt) as [[m|]|e]; done.
Qed.

(** With the same rows locked throughout, the loop from a cursor searches the rest of the
    queue after it. *)
Lemma pages_search locked fuel page after rest :
  let q := ready_queue project locked d in
  (∃ pre, q = pre ++ rest) → List.filter (after_key after) q = rest → (length rest < fuel)%nat →
  claim_pages cfg fuel page worker project (λ _, locked) after d = Some (first_claimable worker d rest).
Proof.
  intros q. revert page after rest; induction fuel as [|fuel IH]; intros page after rest [pre Hq] Hrest Hf;
    [lia|]. cbn [claim_pages]. unfold _lock_ready_candidates. fold q. rewrite Hrest.
  replace (first_claimable worker d rest)
    with (first_claimable worker d (take (page_size cfg) rest ++ drop (page_size cfg) rest))
    by (by rewrite take_drop).
  rewrite first_claimable_app.
  destruct (last (take (page_size cfg) rest)) as [x|] eqn:Hlast.
  2:{ apply last_None in Hlast. rewrite Hlast. pose proof page_size_pos.
      destruct rest; [by rewrite drop_nil|]. by destruct (page_size cfg); [lia|]. }
  destruct (first_claimable worker d (take (page_size cfg) rest)) as [[f|]|e] eqn:Hfc; [done| |done].
  destruct (Nat.ltb_spec (length (take (page_size cfg) rest)) (page_size cfg)) as [Hlt|Hge].
  { rewrite length_take in Hlt. by rewrite drop_ge by lia. }
  apply last_Some in Hlast as [init Hinit].
  assert (rest = init ++ x :: drop (page_size cfg) rest) as Hsplit.
  { rewrite <- (take_drop (page_size cfg) rest) at 1. rewrite Hinit, <- app_assoc. done. }
  apply IH.
  - exists (pre ++ init ++ [x]). rewrite Hq. rewrite Hsplit at 1. by rewrite <- !app_assoc.
  - eapply (after_last q (pre ++ init)); [apply ready_queue_sorted|apply ready_queue_nodup|].
    rewrite Hq. rewrite Hsplit at 1. by rewrite <- app_assoc.
  - rewrite length_drop. rewrite length_take in Hge. pose proof page_size_pos. lia.
Qed.

(** The rows after a cursor, locked or not: what the page loop can still read. *)
Definition ahead (after : option scan_key) : nat :=
  length (List.filter (after_key after) (ready_queue project ∅ d)).

Lemma filter_length_lt {A} (f g : A → bool) l x :
  (∀ y, g y = true → f y = true) → x ∈ l → f x = true → g x = false →
  (length (List.filter g l) < length (List.filter f l))%nat.
Proof.
  intros Hsub Hx Hfx Hgx. induction l as [|a l IH]; [by apply elem_of_nil in Hx|].
  assert (length (List.filter g l) <= length (List.filter f l))%nat as Hle.
  { clear IH Hx. induction l as [|b l IH]; simpl; [done|].
    destruct (g b) eqn:Hg; [rewrite (Hsub b Hg); simpl; lia|]. destruct (f b); simpl; lia. }
  simpl. apply elem_of_cons in Hx as [<-|Hx].
  - rewrite Hfx, Hgx. simpl. lia.
  - specialize (IH Hx). destruct (g a) eqn:Hg; [rewrite (Hsub a Hg); simpl; lia|].
    destruct (f a); simpl; lia.
Qed.

Lemma cursor_advances locked after x :
  last (_lock_ready_candidates project (page_size cfg) after locked d) = Some x →
  (ahead (Some (key_of_task x)) < ahead after)%nat.
Proof.
  intros Hlast. assert (x ∈ List.filter (after_key after) (ready_queue project locked d)) as Hx.
  { eapply elem_of_sublist; [|apply sublist_take]. apply last_Some in Hlast as [l' Hl'].
    unfold _lock_ready_candidates in Hl'. rewrite Hl'. apply elem_of_app. right. by left. }
  apply list_elem_of_In, List.filter_In in Hx as [Hx Ha]. apply list_elem_of_In in Hx.
  apply ready_queue_spec in Hx as (H1 & H2 & H3 & _).
  apply (filter_length_lt _ _ _ x); [|by apply ready_queue_spec|done|apply scan_ltb_irrefl].
  intros y Hy. destruct after as [k|]; [|done]. simpl in *. by eapply scan_ltb_trans.
Qed.

Lemma pages_end fuel page locked after :
  (ahead after < fuel)%nat → is_Some (claim_pages cfg fuel page worker project locked after d).
Proof.
  revert page after; induction fuel as [|fuel IH]; intros page after Hf; [lia|]. cbn [claim_pages].
  destruct (last _) as [x|] eqn:Hlast; [|done].
  destruct (first_claimable _ _ _) as [[f|]|e]; [done| |done].
  case_match; [done|]. apply IH. pose proof (cursor_advances _ _ _ Hlast). lia.
Qed.
End scan.

(** ** The scan *)
(** C29: The claim's page loop always ends: whatever rows other transactions hold while its
    pages are read, one more page than there are tasks is enough fuel. *)
Theorem claim_scan_ends cfg worker project locked d :
  is_Some (claim_pages cfg (S (size (db_tasks d))) 0 worker project locked None d).
Proof.
  apply pages_end. unfold ahead. pose proof (List.filter_length_le (after_key None) (ready_queue project ∅ d)).
  pose proof (ready_queue_length project ∅ d). lia.
Qed.

(** C28: Paging does not change which task is claimed: when the locked rows stay the same
    while the scan runs, the page loop returns what one pass over the whole ready queue,
    ordered by (priority, created_at, id), returns: the first task whose worker, lease,
    dependency and mission checks pass, or the first error.  So it neither skips nor
    repeats a task at a page boundary, for any page size. *)
Theorem claim_scan_is_whole_queue cfg worker project locked d :
  claim_search cfg worker project (λ _, locked) d
  = first_claimable worker d (ready_queue project locked d).
Proof.
  unfold claim_search. erewrite (pages_search cfg worker project d); [done|by exists []| |].
  - by apply filter_every.
  - pose proof (ready_queue_length project locked d). lia.
Qed.
