(* ===== verification/LeaseFencing.v ===== *)
(** * LeaseFencing: what holds of the lease tables in every execution

    [dstep] is one transaction on the database: an operation of the worker-lease
    repository or of LeaseLifecycleService with any arguments, whose writes are kept also
    when it raises (a caller may commit), or a change made by the rest of the system to
    the tables it owns.  An operation that is rolled back is no step.  The theorems hold
    of every sequence of such steps from a database that has no workers, leases and results. *)
From S2P Require Import Prelude Collections Contracts PyFloat Json LeaseTables Leases WorkerService LeaseProps WorkerProps.
Open Scope Z_scope.

(** A change made elsewhere: attempts and outbox rows change freely; leases, results and
    worker rows are written by this component only; tasks and missions are added and updated, a task stays in its mission and a mission's
    cancellation generation does not go down. *)
Record elsewhere (d d' : Db) : Prop := {
  el_leases : db_leases d' = db_leases d;
  el_results : db_results d' = db_results d;
  el_workers : db_workers d' = db_workers d;
  el_missions : ∀ id m, db_missions d !! id = Some m → ∃ m', db_missions d' !! id = Some m'
    ∧ mr_cancellation_generation m <= mr_cancellation_generation m';
  el_tasks : ∀ id t, db_tasks d !! id = Some t → ∃ t', db_tasks d' !! id = Some t'
    ∧ tr_mission_id t' = tr_mission_id t
}.

Section executions.
Variable hash : string → string.
Variable cfg : LeaseConfig.

Inductive dstep (d : Db) : Db → Prop :=
| do_upsert now tid id g : dstep d (upsert_registration hash now tid id g d).2
| do_rotate now tid id t1 t2 : dstep d (rotate_membership_token hash now tid id t1 t2 d).2
| do_revoke_worker now id : dstep d (revoke_worker now id d).2
| do_drain now id : dstep d (request_drain now id d).2
| do_heartbeat clock id tok gen st ids av he :
    dstep d (record_heartbeat hash clock id tok gen st ids av he d).2
| do_advertise now id tok gen caps cap priv :
    dstep d (advertise_capabilities hash now id tok gen caps cap priv d).2
| do_claim ids locked wid tok ap clock secs :
    dstep d (claim_eligible_attempt hash cfg ids locked wid tok ap clock secs d).2
| do_renew lid wid gen tok ext clock : dstep d (renew_lease hash cfg lid wid gen tok ext clock d).2
| do_expire clock p limit locked : dstep d (expire_leases clock p limit locked d).2
| do_submit rid ob lid wid tok gen sub clock :
    dstep d (submit_result hash rid ob lid wid tok gen sub clock d).2
| do_accept ob rid clock : dstep d (accept_result ob rid clock d).2
| do_cancel_lease ob lid reason clock : dstep d (cancel_active_lease ob lid reason clock d).2
| do_revoke fresh mid reason notify clock :
    dstep d (revoke_mission_work fresh mid reason notify clock d).2
| do_cancel fresh mid reason clock : dstep d (cancel_mission fresh mid reason clock d).2
| do_note_progress now id lid pc : forbidden lid = false → progress_ok id d →
    dstep d (note_progress now id lid pc d).2
| do_finish_drain now id : dstep d (finish_drain now id d).2
| do_elsewhere d' : elsewhere d d' → dstep d d'.

Definition fresh_db (d : Db) : Prop := db_leases d = ∅ ∧ db_results d = ∅ ∧ db_workers d = ∅.
Definition reachable (d : Db) : Prop := ∃ d0, fresh_db d0 ∧ rtc dstep d0 d.

Lemma elsewhere_quiet d d' : elsewhere d d' → quiet d d'.
Proof.
  intros [Hl Hr _ Hm Ht]. split; rewrite ?Hl, ?Hr; [|done| | |done|done].
  - intros id l ?. by exists l.
  - intros id r ?. by exists r.
  - congruence.
Qed.

Lemma note_progress_quiet now id lid pc d : quiet d (note_progress now id lid pc d).2.
Proof.
  unfold note_progress, mbind, M_bind, get_state, of_result. destruct (db_workers d !! id); [|done].
  destruct (py_dict _); [apply quiet_put_worker|done].
Qed.
Lemma finish_drain_quiet now id d : quiet d (finish_drain now id d).2.
Proof.
  unfold finish_drain, mbind, M_bind, get_state. destruct (db_workers d !! id); [apply quiet_put_worker|done].
Qed.

Create HintDb quiet.
#[local] Hint Resolve upsert_quiet rotate_quiet revoke_worker_quiet drain_quiet heartbeat_quiet
  advertise_quiet renew_quiet expire_quiet submit_quiet cancel_lease_quiet revoke_quiet
  cancel_mission_quiet note_progress_quiet finish_drain_quiet elsewhere_quiet : quiet.

(** Every step is quiet, a claim, or an acceptance. *)
Lemma dstep_cases d d' :
  dstep d d' → quiet d d'
  ∨ (∃ ids locked wid tok ap clock secs,
       d' = (claim_eligible_attempt hash cfg ids locked wid tok ap clock secs d).2)
  ∨ ∃ ob rid clock, d' = (accept_result ob rid clock d).2.
Proof. destruct 1; eauto 12 with quiet. Qed.

Lemma dstep_inv d d' : dstep d d' → lease_inv cfg d → lease_inv cfg d'.
Proof.
  intros [Hq|[(ids & locked & wid & tok & ap & clock & secs & ->)|(ob & rid & clock & ->)]]%dstep_cases.
  - by apply quiet_inv.
  - apply claim_inv.
  - apply accept_inv.
Qed.

Lemma reachable_inv d : reachable d → lease_inv cfg d.
Proof.
  intros (d0 & (Hl & Hr & _) & Hs). assert (lease_inv cfg d0) as H0.
  { split; rewrite ?Hl, ?Hr; intros *; by rewrite lookup_empty. }
  clear Hl Hr. induction Hs as [|x y z Hxy _ IH]; [done|]. apply IH. by eapply dstep_inv.
Qed.

(** *** Worker rows *)
Lemma kw_wquiet {A} (m : M Db A) d : keeps_workers m → wquiet d (m d).2.
Proof. intros H. apply wquiet_same, H. Qed.
#[local] Hint Resolve upsert_wquiet rotate_wquiet revoke_worker_wquiet drain_wquiet
  heartbeat_wquiet advertise_wquiet note_progress_wquiet finish_drain_wquiet wquiet_same claim_kw renew_kw expire_kw submit_kw accept_kw
  cancel_lease_kw revoke_kw cancel_kw el_workers : quiet.

Lemma dstep_wquiet d d' : dstep d d' → wquiet d d'.
Proof. destruct 1; solve [auto with quiet | apply kw_wquiet; auto with quiet]. Qed.

Lemma steps_wquiet d d' : rtc dstep d d' → wquiet d d'.
Proof. induction 1 as [|x y z Hxy _ IH]; [done|]. etrans; [by apply dstep_wquiet|done]. Qed.

Lemma steps_stay_revoked d d' id w :
  rtc dstep d d' → db_workers d !! id = Some w → revoked w →
  ∃ w', db_workers d' !! id = Some w' ∧ revoked w'.
Proof.
  intros Hs Hw Hr. destruct (wq_old _ _ (steps_wquiet _ _ Hs) id w Hw) as (w' & Hw' & [Hk _]). eauto.
Qed.

(** ** What later states remember *)
(** Leases keep their stamps, tasks their mission; cancellation generations only grow. *)
Record later (d d' : Db) : Prop := {
  la_leases : ∀ id l, db_leases d !! id = Some l →
    ∃ l', db_leases d' !! id = Some l' ∧ stamps l' = stamps l;
  la_missions : ∀ id m, db_missions d !! id = Some m → ∃ m', db_missions d' !! id = Some m'
    ∧ mr_cancellation_generation m <= mr_cancellation_generation m';
  la_tasks : ∀ id t, db_tasks d !! id = Some t → ∃ t', db_tasks d' !! id = Some t'
    ∧ tr_mission_id t' = tr_mission_id t
}.

#[export] Instance later_preorder : PreOrder later.
Proof.
  split.
  - intros d. split; intros id x Hx; exists x; split; done || lia.
  - intros d1 d2 d3 H1 H2. split.
    + intros id l Hl. destruct (la_leases _ _ H1 id l Hl) as (l1 & Hl1 & S1).
      destruct (la_leases _ _ H2 id l1 Hl1) as (l2 & Hl2 & S2). exists l2. split; [done|congruence].
    + intros id m Hm. destruct (la_missions _ _ H1 id m Hm) as (m1 & Hm1 & S1).
      destruct (la_missions _ _ H2 id m1 Hm1) as (m2 & Hm2 & S2). exists m2. split; [done|lia].
    + intros id t Ht. destruct (la_tasks _ _ H1 id t Ht) as (t1 & Ht1 & S1).
      destruct (la_tasks _ _ H2 id t1 Ht1) as (t2 & Ht2 & S2). exists t2. split; [done|congruence].
Qed.

Lemma quiet_later d d' : quiet d d' → later d d'.
Proof.
  intros Hq. split; [|apply (q_missions _ _ Hq)|apply (q_tasks _ _ Hq)].
  intros id l Hl. destruct (q_leases_old _ _ Hq id l Hl) as (l' & Hl' & [Hs _]). eauto.
Qed.

Lemma dstep_later d d' : dstep d d' → later d d'.
Proof.
  intros [Hq|[(ids & locked & wid & tok & ap & clock & secs & ->)|(ob & rid & clock & ->)]]%dstep_cases.
  - by apply quiet_later.
  - destruct (claim_cases hash cfg ids locked wid tok ap clock secs d)
      as [Hq|(tid & task & m & d1 & l & (Hl & _ & Hm & Ht & Hn) & Hq & _)]; [by apply quiet_later|].
    etrans; [|by apply quiet_later]. split; rewrite ?Hm, ?Ht; [|by intros; eauto using Z.le_refl..].
    intros id l0 Hl0. rewrite Hl. exists l0. rewrite lookup_insert_ne; [done|]. congruence.
  - destruct (accept_cases ob rid clock d)
      as [Hq|(r & l & a & t & _ & _ & _ & _ & _ & _ & Hq)]; [by apply quiet_later|].
    etrans; [|by apply quiet_later]. split; simpl; intros; eauto using Z.le_refl.
Qed.

Lemma steps_later d d' : rtc dstep d d' → later d d'.
Proof. induction 1 as [|x y z Hxy _ IH]; [done|]. etrans; [by apply dstep_later|done]. Qed.

Lemma run_quiet {A} (m : M Db A) d x d' : quiet d (m d).2 → m d = (x, d') → quiet d d'.
Proof. intros H Hrun. by rewrite Hrun in H. Qed.

(** A successful revocation has raised the generation of its mission. *)
Lemma revoke_raises fresh mid reason notify clock d out d' :
  revoke_mission_work fresh mid reason notify clock d = (Ok out, d') →
  ∃ m m', db_missions d !! mid = Some m ∧ db_missions d' !! mid = Some m'
    ∧ mr_cancellation_generation m < mr_cancellation_generation m'.
Proof.
  intros Hrun. unfold revoke_mission_work in Hrun. run_inv.
  match goal with
  | Hm : db_missions d !! mid = Some ?m, Hp : put_mission _ _ _ = (_, ?d1),
    Ho : add_outbox _ _ _ = (_, ?d2), Hf : for_each ?body ?l _ = (_, ?d3) |- _ =>
    assert (quiet d1 d2) as Hq1 by (eapply run_quiet; [apply quiet_add_outbox|exact Ho]);
    assert (quiet d2 d3) as Hq2; [|exists m; injection Hp as <- <-]
  end.
  { eapply run_quiet; [|eassumption]. apply for_each_quiet; [|done].
    intros. rewrite bind_ret_state. apply cancel_lease_quiet. }
  rename x10 into d3. assert (quiet _ d3) as Hq by (etrans; [exact Hq1|exact Hq2]).
  destruct (q_missions _ _ Hq mid _ (lookup_insert_eq _ _ _)) as (m' & Hm' & Hle).
  exists m'. simpl in Hle. split_and!; [done|done|lia].
Qed.

Section fenced.
Variables (d0 d : Db) (lid : string) (l0 : TaskLeaseRow) (t0 : TaskRow) (m0 : MissionRow).
Hypothesis Hlater : later d0 d.
Hypothesis Hl0 : db_leases d0 !! lid = Some l0.
Hypothesis Ht0 : db_tasks d0 !! tl_task_id l0 = Some t0.
Hypothesis Hmi : tr_mission_id t0 = tl_mission_id l0.
Hypothesis Hm0 : db_missions d0 !! tl_mission_id l0 = Some m0.
Hypothesis Hgen : tl_cancellation_generation l0 < mr_cancellation_generation m0.

(** The stamp of the lease stays behind the mission its task belongs to. *)
Lemma stays_stale l t m :
  db_leases d !! lid = Some l → db_tasks d !! tl_task_id l = Some t →
  db_missions d !! tr_mission_id t = Some m →
  tl_cancellation_generation l ≠ mr_cancellation_generation m.
Proof.
  intros Hl Ht Hm. destruct (la_leases _ _ Hlater _ _ Hl0) as (l' & Hl' & Hs).
  apply stamps_fields in Hs as (E1 & E2 & E3 & _). rewrite Hl in Hl'. injection Hl' as <-.
  destruct (la_tasks _ _ Hlater _ _ Ht0) as (t' & Ht' & Htm). rewrite E1 in Ht. simplify_eq.
  rewrite Htm, Hmi in Hm. destruct (la_missions _ _ Hlater _ _ Hm0) as (m' & Hm' & Hle). simplify_eq.
  lia.
Qed.

Lemma stale_not_renewed wid gen tok ext clock :
  ∃ e, (renew_lease hash cfg lid wid gen tok ext clock d).1 = Err e.
Proof.
  destruct (renew_lease hash cfg lid wid gen tok ext clock d) as [[out|e] d'] eqn:Hrun; [|eauto].
  unfold renew_lease in Hrun. run_inv.
  repeat match goal with H : _require_claimable_worker _ _ _ _ = _ |- _ =>
    apply (reads_run _ _ _ _ (claimable_reads _ _ _)) in H; subst end.
  unfold _require_current_lease_authority in *. run_inv.
  match goal with H : _load_claimable_mission _ _ = Ok (Some _) |- _ =>
    apply claimable_mission in H as (Hm & _) end.
  bool_to_prop. by edestruct stays_stale.
Qed.

Lemma stale_not_accepted ob rid r clock :
  db_results d !! rid = Some r → ¬ is_accepted r → wr_lease_id r = lid →
  ∃ e, (accept_result ob rid clock d).1 = Err e.
Proof.
  intros Hr Hna Hlid.
  destruct (accept_result ob rid clock d) as [[out|e] d'] eqn:Hrun; [|eauto].
  destruct (accept_Ok _ _ _ _ _ _ _ Hr Hna Hrun) as (l & a & t & Hl & _ & Ht & Hf & _).
  rewrite Hlid in Hl. destruct (fp_mission _ _ _ _ _ _ _ Hf) as (m & Hm & _ & _ & _ & Hg & _).
  destruct (fp_lease _ _ _ _ _ _ _ Hf) as (_ & E & _). rewrite E in Ht. by edestruct stays_stale.
Qed.
End fenced.
End executions.
