(* ===== verification/LeaseTheorems.v ===== *)
(** * LeaseTheorems: the guarantees of worker leases

    The properties of db/lease_fencing.py, each over every execution of [LeaseFencing.dstep]
    or over every database, and a sample database on which they are exercised. *)
From S2P Require Import Prelude Collections Contracts PyFloat Json LeaseTables Leases LeaseProps WorkerProps LeaseFencing.
Open Scope Z_scope.

(** ** Expiry *)
(** The authority a lease was issued under is still the mission's. *)
Definition current_authority (d : Db) (l : TaskLeaseRow) (mid : string) : Prop :=
  ∃ m, db_missions d !! mid = Some m ∧ mr_status m ∈ _RUNNABLE_MISSION_STATUSES
    ∧ tl_cancellation_generation l = mr_cancellation_generation m
    ∧ tl_task_revision l = mr_revision m
    ∧ (tl_source_revision l = None ∨ tl_source_revision l = Some (_mission_source_revision m)).

Lemma expire_status_ready task l a d :
  _expire_task_status task l a d = Ok "ready" → current_authority d l (tr_mission_id task).
Proof.
  unfold _expire_task_status. destruct (db_missions d !! _) as [m|] eqn:Hm; [|done].
  destruct (bool_decide (mr_status m = "cancelled")); [done|].
  destruct (one_of (mr_status m) _) eqn:Hrun; [|done]. simpl.
  destruct (_lease_stamp_authority_stale _ _ _ _ _) eqn:Hst; [done|]. intros _.
  unfold _lease_stamp_authority_stale in Hst. unfold one_of in Hrun. bool_to_prop. exists m.
  split_and!; [done..|by apply source_stale_false].
Qed.

(** One expiry leaves missions alone and makes a task ready only under current authority. *)
Definition reopens_current (d : Db) (l : TaskLeaseRow) (x : result () * Db) : Prop :=
  db_missions x.2 = db_missions d
  ∧ ∀ tid t', db_tasks x.2 !! tid = Some t' → tr_status t' = "ready" →
      db_tasks d !! tid = Some t' ∨ tl_task_id l = tid ∧ current_authority d l (tr_mission_id t').

Lemma expire_one_reopens clock kl d : reopens_current d kl.2 (expire_one clock kl d).
Proof.
  unfold expire_one, put_lease, put_attempt, put_task.
  apply (run_modify (reopens_current d kl.2)), (run_get_state (reopens_current d kl.2)).
  set (lease := kl.2 <| tl_state := _ |> <| tl_updated_at := _ |>).
  match goal with |- context [match ?o with Some a => modify _ | None => mret () end] =>
    set (attempt := o) end.
  set (P := reopens_current d kl.2).
  assert (∀ s k, (∀ s', db_missions s' = db_missions s → db_tasks s' = db_tasks s → P (k () s')) →
    P (((match attempt with Some a => modify (λ d, d <| db_attempts := <[tl_attempt_id lease := a]> (db_attempts d) |>)
         | None => mret () end : M Db ()) ≫= k) s)) as Hseq.
  { intros s k Hk. destruct attempt; by apply Hk. }
  apply Hseq. intros s' Hm Ht. cbn [db_tasks].
  assert (P (Ok (), s')) as Hsame.
  { split; [exact Hm|]. intros tid t' Ht' _. left. cbn [snd] in Ht'. by rewrite Ht in Ht'. }
  match goal with |- context [match ?o with Some task0 => _ | None => _ end] =>
    destruct o as [task|] eqn:Htask; [|exact Hsame] end.
  destruct (bool_decide (tr_status task = "leased")); [|exact Hsame].
  apply (run_get_state P), (run_of_result P).
  { intros e _. exact Hsame. }
  intros status Hst. split; [exact Hm|]. intros tid t' Ht' Hready. cbn in Ht'.
  apply lookup_insert_Some in Ht' as [[<- <-]|[_ Ht']]; [|left; by rewrite Ht in Ht'].
  right. split; [done|]. cbn in Hready. subst status. apply expire_status_ready in Hst.
  destruct Hst as (m & Hm' & Hrest). exists m. rewrite Hm in Hm'. done.
Qed.

Lemma expire_loop_reopens clock l d :
  db_missions (for_each (expire_one clock) l d).2 = db_missions d
  ∧ ∀ tid t', db_tasks (for_each (expire_one clock) l d).2 !! tid = Some t' → tr_status t' = "ready" →
      db_tasks d !! tid = Some t'
      ∨ ∃ kl, kl ∈ l ∧ tl_task_id kl.2 = tid ∧ current_authority d kl.2 (tr_mission_id t').
Proof.
  revert d; induction l as [|kl l IH]; intros d; [split; [done|by left]|].
  destruct (expire_one_reopens clock kl d) as [Hm Ht]. cbn [for_each]. unfold mbind, M_bind.
  destruct (expire_one clock kl d) as [[[]|e] d1]; cbn [snd] in *.
  - destruct (IH d1) as [Hm1 Ht1]. split; [congruence|]. intros tid t' Ht' Hr.
    destruct (Ht1 tid t' Ht' Hr) as [H|(kl' & Hin & Htid & Hcur)].
    + destruct (Ht tid t' H Hr) as [|[]]; [by left|]. right. exists kl. split_and!; [by left|done..].
    + right. exists kl'. split_and!; [by right|done|]. destruct Hcur as (m & Hm' & Hrest).
      exists m. rewrite <- Hm. done.
  - split; [done|]. intros tid t' Ht' Hr. destruct (Ht tid t' Ht' Hr) as [|[]]; [by left|].
    right. exists kl. split_and!; [by left|done..].
Qed.

Lemma expire_one_state clock kl d :
  ∃ l', db_leases (expire_one clock kl d).2 !! kl.1 = Some l' ∧ tl_state l' = "expired".
Proof.
  unfold expire_one, put_lease, put_attempt, put_task, mbind, M_bind, modify, get_state, of_result, mret, M_ret.
  repeat (case_match; simplify_eq/=); rewrite lookup_insert_eq; eauto.
Qed.

Lemma expire_loop_others clock l d id :
  id ∉ l.*1 → db_leases (for_each (expire_one clock) l d).2 !! id = db_leases d !! id.
Proof.
  revert d; induction l as [|kl l IH]; intros d Hid; [done|].
  apply not_elem_of_cons in Hid as [Hne Hid]. cbn [for_each]. unfold mbind, M_bind.
  pose proof (expire_one_leases clock kl d id Hne) as H1.
  destruct (expire_one clock kl d) as [[[]|e] d1]; cbn [snd] in *; [by rewrite IH|done].
Qed.

Lemma expire_loop_state clock l d d' u :
  NoDup l.*1 → for_each (expire_one clock) l d = (Ok u, d') →
  ∀ lid, lid ∈ l.*1 → ∃ l', db_leases d' !! lid = Some l' ∧ tl_state l' = "expired".
Proof.
  revert d; induction l as [|kl l IH]; intros d Hnd Hrun lid Hin; [by apply elem_of_nil in Hin|].
  apply NoDup_cons in Hnd as [Hk Hnd]. cbn [for_each] in Hrun. apply bind_Ok in Hrun as (v & d1 & H1 & H2).
  apply elem_of_cons in Hin as [->|Hin]; [|by eapply IH].
  destruct (expire_one_state clock kl d) as (l' & Hl' & Hst). rewrite H1 in Hl'. exists l'. split; [|done].
  pose proof (expire_loop_others clock l d1 kl.1 Hk) as Ho. rewrite H2 in Ho. simpl in Ho. by rewrite Ho.
Qed.

Lemma strings_of_sorted l : strings_of (sorted_strings l) = strings_of l.
Proof.
  unfold strings_of, sorted_strings. apply set_eq. intros x. rewrite !elem_of_list_to_set.
  rewrite <- list_fmap_compose. rewrite (list_fmap_ext _ id) by done.
  by rewrite list_fmap_id, elem_of_sort_by, elem_of_remove_dups.
Qed.

Section theorems.
Variable hash : string → string.
Variable cfg : LeaseConfig.

(** C4: At most one active lease per task, whatever sequence of claims, renewals, expiries,
    submissions, acceptances, cancellations and worker operations ran before, with whatever
    arguments, and whether or not those that raised were committed. *)
Theorem one_active_lease_per_task d id1 id2 l1 l2 :
  reachable hash cfg d → db_leases d !! id1 = Some l1 → db_leases d !! id2 = Some l2 →
  is_active l1 = true → is_active l2 = true → tl_task_id l1 = tl_task_id l2 → id1 = id2.
Proof. intros Hd. apply (li_active _ _ (reachable_inv _ _ _ Hd)). Qed.

(** C14: At most one result of an attempt is ever in the accepted state. *)
Theorem one_accepted_result_per_attempt d id1 id2 r1 r2 :
  reachable hash cfg d → db_results d !! id1 = Some r1 → db_results d !! id2 = Some r2 →
  wr_acceptance_state r1 = "accepted" → wr_acceptance_state r2 = "accepted" →
  wr_attempt_id r1 = wr_attempt_id r2 → id1 = id2.
Proof. intros Hd. apply (li_accepted _ _ (reachable_inv _ _ _ Hd)). Qed.

(** A lease never outlives the horizon fixed when it was issued: however often it is
    renewed, its expiry is at most [renewable_horizon_seconds] after its issue. *)
Theorem lease_lifetime_is_bounded d id l :
  reachable hash cfg d → db_leases d !! id = Some l →
  tl_expires_at l <= tl_issued_at l + seconds (renewable_horizon_seconds cfg).
Proof. intros Hd Hl. apply (li_horizon _ _ (reachable_inv _ _ _ Hd) id l Hl). Qed.

(** C9: Revoking a mission's work fences every lease the mission had, for good and without
    any worker being told: in every later state such a lease cannot be renewed, by any
    worker with any token, and no result produced under it can be newly accepted. *)
Theorem revocation_fences_old_leases d fresh mid reason notify clock out d1 d2 lid l :
  reachable hash cfg d → revoke_mission_work fresh mid reason notify clock d = (Ok out, d1) →
  rtc (dstep hash cfg) d1 d2 → db_leases d !! lid = Some l → tl_mission_id l = mid →
  (∀ wid gen tok ext now, ∃ e, (renew_lease hash cfg lid wid gen tok ext now d2).1 = Err e)
  ∧ ∀ ob rid r now, db_results d2 !! rid = Some r → wr_lease_id r = lid →
      wr_acceptance_state r ≠ "accepted" → ∃ e, (accept_result ob rid now d2).1 = Err e.
Proof.
  intros Hd Hrev Hsteps Hl <-. pose proof (reachable_inv _ _ _ Hd) as Hinv.
  destruct (li_stamp _ _ Hinv lid l Hl) as (t & m & Ht & Hmi & Hm & Hle).
  destruct (revoke_raises _ _ _ _ _ _ _ _ Hrev) as (m' & m1 & Hm' & Hm1 & Hlt). simplify_eq.
  assert (quiet d d1) as Hq by (eapply run_quiet; [apply revoke_quiet|exact Hrev]).
  destruct (q_leases_old _ _ Hq lid l Hl) as (l1 & Hl1 & [Hs _]).
  apply stamps_fields in Hs as (E1 & E2 & E3 & _).
  destruct (q_tasks _ _ Hq _ _ Ht) as (t1 & Ht1 & Htm). rewrite <- E1 in Ht1. rewrite <- E2 in Hm1.
  assert (tr_mission_id t1 = tl_mission_id l1) as Hmi1 by congruence.
  pose proof (steps_later _ _ _ _ Hsteps) as Hlater.
  split; intros; [eapply stale_not_renewed|eapply stale_not_accepted]; eauto; lia.
Qed.

(** C12: A submitted result is accepted exactly when the fence passes: the lease it was
    produced under is active and unexpired, agrees with the result on project, attempt, task,
    mission, worker generation, task revision, input digest and source revision, the worker
    is not revoked and has not moved to another generation or project, the task and the
    attempt are not terminal, the mission is runnable with the same source and cancellation
    generation, review passed, reservations are reconciled and no other result of the attempt
    was accepted.  Then result, attempt, lease and task are written together; otherwise
    acceptance raises and at most the result's own row changes, to rejected. *)
Theorem acceptance_is_fenced ob rid r l a t clock d :
  db_results d !! rid = Some r → wr_acceptance_state r = "submitted" →
  db_leases d !! wr_lease_id r = Some l → db_attempts d !! wr_attempt_id r = Some a →
  db_tasks d !! wr_task_id r = Some t → db_outbox d !! ("result-accept:" +:+ rid) = None →
  (fence_passes d rid r l a t clock →
     ∃ d', accept_result ob rid clock d = (Ok (accepted_of rid r clock), d')
       ∧ committed d d' rid r l a t clock)
  ∧ (¬ fence_passes d rid r l a t clock →
     ∃ e, (accept_result ob rid clock d).1 = Err e
       ∧ ((accept_result ob rid clock d).2 = d
          ∨ ∃ reason, (accept_result ob rid clock d).2 = (_mark_rejected rid r reason d).2)).
Proof.
  intros Hr Hst Hl Ha Ht Hob. split; [by apply accept_fenced|].
  apply accept_refused; try done. unfold is_accepted. by rewrite Hst.
Qed.

(** A renewal extends a live lease: it was active and unexpired, and its new expiry lies
    after the clock, not before the old one, and not past the renewable horizon. *)
Theorem renewal_extends_live_lease lid wid gen tok ext clock d l upper l' d' :
  db_leases d !! lid = Some l → tl_renewable_until l = Some upper →
  renew_lease hash cfg lid wid gen tok ext clock d = (Ok l', d') →
  is_active l = true ∧ clock < tl_expires_at l
  ∧ clock < tl_expires_at l' <= upper ∧ tl_expires_at l <= tl_expires_at l'
  ∧ tl_state l' = "renewed" ∧ db_leases d' = <[lid := l']> (db_leases d).
Proof.
  intros Hl Hu Hrun. unfold renew_lease in Hrun. run_inv.
  repeat match goal with H : _require_claimable_worker _ _ _ _ = _ |- _ =>
    apply (reads_run _ _ _ _ (claimable_reads _ _ _)) in H; subst end.
  repeat match goal with H : _require_current_lease_authority _ _ = _ |- _ =>
    apply (reads_run _ _ _ _ (authority_reads _)) in H; subst end.
  simplify_eq. bool_to_prop. unfold put_lease in *. run_inv.
  match goal with H : _renewal_expires_at _ _ _ = Ok _ |- _ => rename H into Hx end.
  unfold _renewal_expires_at in Hx. rewrite Hu in Hx.
  repeat (case_match; try done); simplify_eq; bool_to_prop; simpl; split_and!; try done; lia.
Qed.

(** A revoked worker stays locked out: in every later state, re-registration included,
    it cannot claim, renew, submit, send a heartbeat, advertise or rotate its token, its
    membership does not verify, and none of its results is newly accepted. *)
Theorem revoked_worker_is_locked_out now id d w d1 d2 :
  revoke_worker now id d = (Ok w, d1) → rtc (dstep hash cfg) d1 d2 →
  (∀ ids locked tok ap clock secs, ∃ e,
     claim_eligible_attempt hash cfg ids locked id tok ap clock secs d2 = (Err e, d2))
  ∧ (∀ lid gen tok ext clock, ∃ e, renew_lease hash cfg lid id gen tok ext clock d2 = (Err e, d2))
  ∧ (∀ rid ob lid tok gen sub clock, ∃ e,
       submit_result hash rid ob lid id tok gen sub clock d2 = (Err e, d2))
  ∧ (∀ clock tok gen st ids av he, ∃ e,
       record_heartbeat hash clock id tok gen st ids av he d2 = (Err e, d2))
  ∧ (∀ clock tok gen caps cap priv, ∃ e,
       advertise_capabilities hash clock id tok gen caps cap priv d2 = (Err e, d2))
  ∧ (∀ clock tid t1 t2, ∃ e, rotate_membership_token hash clock tid id t1 t2 d2 = (Err e, d2))
  ∧ (∀ tok, verify_membership hash id tok d2 = false)
  ∧ ∀ ob rid r clock, db_results d2 !! rid = Some r → wr_acceptance_state r ≠ "accepted" →
      wr_worker_id r = id → ∃ e, (accept_result ob rid clock d2).1 = Err e.
Proof.
  intros Hrev Hsteps. assert (∃ w1, db_workers d1 !! id = Some w1 ∧ revoked w1) as (w1 & Hw1 & Hr1).
  { unfold revoke_worker, get_worker, put_worker in Hrev. run_inv. simpl. rewrite lookup_insert_eq.
    eexists. split; [done|by eexists]. }
  destruct (steps_stay_revoked _ _ _ _ _ _ Hsteps Hw1 Hr1) as (w2 & Hw2 & [at_ Hr2]).
  assert (get_worker id d2 = (Ok w2, d2)) as Hget by (unfold get_worker, mbind, M_bind; simpl; by rewrite Hw2).
  assert (bool_decide (is_Some (wl_revoked_at w2)) = true) as Hb by (rewrite Hr2; by apply bool_decide_eq_true_2).
  split_and!; intros; try (eexists;
    unfold claim_eligible_attempt, renew_lease, submit_result, record_heartbeat, advertise_capabilities,
      rotate_membership_token, _require_claimable_worker, _require_authenticated_worker, require_member,
      mbind, M_bind; rewrite Hget; cbv beta iota; rewrite Hb; reflexivity).
  - unfold verify_membership. rewrite Hw2, bool_decide_false; [done|]. congruence.
  - destruct (accept_result _ _ _ _) as [[out|e] d'] eqn:Hrun; [|eauto].
    eapply accept_Ok in Hrun as (l & a & t & _ & _ & _ & Hf & _); [|done|done].
    destruct (fp_worker _ _ _ _ _ _ _ Hf) as (w' & Hw' & Hnone & _). congruence.
Qed.

(** C30: Expiry marks every lease it returns expired, and reopens a task only on behalf of a
    lease that was active and due, whose task revision, source revision and cancellation
    generation are still those of a runnable mission; every other task keeps its state or
    leaves the ready queue. *)
Theorem expiry_reopens_only_current_work clock p limit locked d ids d' :
  expire_leases clock p limit locked d = (Ok ids, d') →
  (∀ lid, lid ∈ ids → ∃ l', db_leases d' !! lid = Some l' ∧ tl_state l' = "expired")
  ∧ ∀ tid t', db_tasks d' !! tid = Some t' → tr_status t' = "ready" →
      db_tasks d !! tid = Some t'
      ∨ ∃ lid l, lid ∈ ids ∧ db_leases d !! lid = Some l ∧ is_active l = true
          ∧ tl_expires_at l <= clock ∧ tl_task_id l = tid
          ∧ current_authority d l (tr_mission_id t').
Proof.
  intros Hrun. unfold expire_leases in Hrun. run_inv.
  destruct (due_leases_spec clock p limit locked d) as [Hnd Hdue].
  match goal with H : for_each _ ?due _ = _ |- _ => rename H into Hf end. split.
  - intros lid Hin. by eapply expire_loop_state.
  - intros tid t' Ht Hr. destruct (expire_loop_reopens clock (due_leases clock p limit locked d) d) as [_ Hl].
    rewrite Hf in Hl. destruct (Hl tid t' Ht Hr) as [|([lid l] & Hin & Htid & Hcur)]; [by left|].
    right. exists lid, l. destruct (Hdue lid l Hin) as (? & ? & ?).
    split_and!; try done. by apply (list_elem_of_fmap_2 fst) in Hin.
Qed.

(** No worker row ever holds a raw token: in every reachable database, no object nested
    anywhere inside a worker's resource payload has a key that, in lower case, is one of
    token, membership_token, raw_token, bearer_token and worker_token. *)
Theorem worker_metadata_holds_no_raw_token d id w :
  reachable hash cfg d → db_workers d !! id = Some w → ¬ holds_raw (JObj (wl_resource_payload w)).
Proof.
  intros (d0 & (_ & _ & Hw0) & Hs) Hw. eapply (wq_new _ _ (steps_wquiet _ _ _ _ Hs) id); [|done].
  by rewrite Hw0.
Qed.

(** A worker's advertisement only narrows its registration: capabilities and privacy
    classes become subsets, capacity does not grow, and identity, project, trust class,
    credential, generation and status stay as they are. *)
Theorem advertisement_only_narrows now id tok gen caps cap priv d w w' d' :
  db_workers d !! id = Some w →
  advertise_capabilities hash now id tok gen caps cap priv d = (Ok w', d') →
  strings_of (wl_capabilities w') ⊆ strings_of (wl_capabilities w)
  ∧ strings_of (wl_privacy_classes w') ⊆ strings_of (wl_privacy_classes w)
  ∧ (wl_capacity_units w' = wl_capacity_units w
     ∨ fltb (wl_capacity_units w) (wl_capacity_units w') = false)
  ∧ (wl_node_identity w', wl_project_id w', wl_trust_class w', wl_token_hash w', wl_lease_generation w',
     wl_status w', wl_revoked_at w')
    = (wl_node_identity w, wl_project_id w, wl_trust_class w, wl_token_hash w, wl_lease_generation w,
       wl_status w, wl_revoked_at w)
  ∧ db_workers d' !! id = Some w'.
Proof.
  intros Hw Hrun. unfold advertise_capabilities in Hrun. run_inv.
  match goal with H : require_member _ _ _ _ _ = _ |- _ => pose proof H as Hrm;
    apply (reads_run _ _ _ _ (require_member_reads _ _ _ _)) in H; subst; apply require_member_Ok in Hrm as (Hw' & _) end.
  simplify_eq. unfold put_worker in *.
  destruct caps as [caps|], cap as [cap|], priv as [priv|]; run_inv; bool_to_prop; simpl in *;
    rewrite ?strings_of_sorted in *; split_and!; try done; try (by left); try (by right);
    by apply lookup_insert_eq.
Qed.
End theorems.

(** ** A sample database *)
Module Sample.
Definition hash (token : string) : string := "h:" +:+ token.
Definition cfg : LeaseConfig := default_leases.

Definition mission : MissionRow := mkMissionRow "p" "running" 1 0 (JObj []) 0.
Definition task : TaskRow := mkTaskRow "p" "m1" "ready" 1 5 [] [] (JObj []) 10.
Definition db0 : Db := mkDb {[ "m1" := mission ]} {[ "t1" := task ]} ∅ ∅ ∅ ∅ ∅.

Definition registration : Registration :=
  mkRegistration "p" "node" "x86" "1.0" f_2 "tok" "online" 1 "trusted" [] [JStr "py"; JStr "gpu"]
    [JStr "local"] [("gpu", JObj [("count", JInt 2)])] None None None.
Definition db1 : Db := (upsert_registration hash 50 "tk1" "w1" registration db0).2.
Definition ids : ClaimIds := mkClaimIds "att1" "lea1" "ob1".
Definition none_locked (_ : nat) : gset string := ∅.
Definition db2 : Db := (claim_eligible_attempt hash cfg ids none_locked "w1" "tok" "prof" 100 None db1).2.
Definition lease : TaskLeaseRow :=
  mkTaskLeaseRow "att1" "t1" "m1" "p" "w1" 1 1 None (Some "msnrev:1") 0 "active" 100
    (100 + seconds 60) (Some (100 + seconds 3600)) [] None None 100.
Definition submission : Submission :=
  mkSubmission "succeeded" [] [("review_passed", JBool true)] [] [].
Definition db3 : Db := (submit_result hash "res1" "ob2" "lea1" "w1" "tok" 1 submission 200 db2).2.
Definition db4 : Db := (accept_result "ob3" "res1" 300 db3).2.

Lemma db1_reachable : reachable hash cfg db1.
Proof. exists db0. split; [done|]. apply rtc_once, do_upsert. Qed.
Lemma db2_reachable : reachable hash cfg db2.
Proof.
  destruct db1_reachable as (d0 & Hf & Hs). exists d0. split; [done|]. eapply rtc_r; [exact Hs|].
  apply do_claim.
Qed.
Lemma db4_reachable : reachable hash cfg db4.
Proof.
  destruct db2_reachable as (d0 & Hf & Hs). exists d0. split; [done|].
  eapply rtc_r; [eapply rtc_r; [exact Hs|apply do_submit]|apply do_accept].
Qed.

Lemma db2_lease : db_leases db2 !! "lea1" = Some lease.
Proof. vm_compute. reflexivity. Qed.

(** C1 at the sample database. *)
Lemma one_active_lease_per_task_witness :
  db_leases db2 !! "lea1" = Some lease ∧ is_active lease = true ∧ "lea1" = "lea1".
Proof.
  split; [exact db2_lease|]. split; [reflexivity|].
  exact (one_active_lease_per_task hash cfg db2 "lea1" "lea1" lease lease db2_reachable db2_lease db2_lease
           eq_refl eq_refl eq_refl).
Defined.

Definition accepted : WorkerResultRow :=
  mkWorkerResultRow "att1" "lea1" "t1" "m1" "p" "w1" 1 1 None (Some "msnrev:1") "succeeded" []
    [("review_passed", JBool true)] [] [] 200 "accepted" None (Some 300).
Lemma db4_result : db_results db4 !! "res1" = Some accepted.
Proof. vm_compute. reflexivity. Qed.

Lemma one_accepted_result_per_attempt_witness :
  db_results db4 !! "res1" = Some accepted ∧ "res1" = "res1".
Proof.
  split; [exact db4_result|].
  exact (one_accepted_result_per_attempt hash cfg db4 "res1" "res1" accepted accepted db4_reachable
           db4_result db4_result eq_refl eq_refl eq_refl).
Defined.

Lemma lease_lifetime_is_bounded_witness :
  tl_expires_at lease <= tl_issued_at lease + seconds (renewable_horizon_seconds cfg).
Proof. exact (lease_lifetime_is_bounded hash cfg db2 "lea1" lease db2_reachable db2_lease). Defined.

Definition worker1 : WorkerLeaseRow := registered_row hash 50 "tk1" registration None.
Lemma worker_metadata_holds_no_raw_token_witness :
  ¬ holds_raw (JObj (wl_resource_payload worker1)).
Proof.
  apply (worker_metadata_holds_no_raw_token hash cfg db1 "w1" worker1 db1_reachable).
  vm_compute. reflexivity.
Defined.

Lemma run_Ok {S A} (m : M S A) s a : (m s).1 = Ok a → m s = (Ok a, (m s).2).
Proof. destruct (m s) as [r s']. simpl. by intros ->. Qed.

Definition fresh (n : nat) : string := "ob-rev-" +:+ pretty n.
Definition revoke : M Db MissionCancellation := revoke_mission_work fresh "m1" "revoked" false 500.
Definition revoked_db : Db := (revoke db2).2.
Lemma revoke_ok : revoke db2 = (Ok (mkMissionCancellation "m1" 0 1 false []), revoked_db).
Proof. apply run_Ok. vm_compute. reflexivity. Qed.
Definition late_db : Db := (submit_result hash "res1" "ob2" "lea1" "w1" "tok" 1 submission 600 revoked_db).2.

Lemma revocation_fences_old_leases_witness :
  (∃ e, (renew_lease hash cfg "lea1" "w1" 1 "tok" None 700 late_db).1 = Err e)
  ∧ ∃ e, (accept_result "ob9" "res1" 700 late_db).1 = Err e.
Proof.
  destruct (revocation_fences_old_leases hash cfg db2 fresh "m1" "revoked" false 500 _ _ late_db "lea1" lease
    db2_reachable revoke_ok) as [Hrenew Haccept].
  - apply rtc_once, do_submit.
  - exact db2_lease.
  - reflexivity.
  - split; [apply Hrenew|]. eapply (Haccept "ob9" "res1" _ 700).
    + vm_compute. reflexivity.
    + reflexivity.
    + discriminate.
Defined.

Definition submitted : WorkerResultRow :=
  accepted <| wr_acceptance_state := "submitted" |> <| wr_accepted_at := None |>.
Definition attempt : TaskAttemptRow :=
  mkTaskAttemptRow "t1" (Some "p") (Some "m1") "prof" None (Some "w1") 1 1 None (Some "msnrev:1") 0
    "leased" 100 None None None [].
Definition leased_task : TaskRow := task <| tr_status := "leased" |>.

Lemma acceptance_is_fenced_witness :
  ∃ d', accept_result "ob3" "res1" 300 db3 = (Ok (accepted_of "res1" submitted 300), d')
    ∧ committed db3 d' "res1" submitted lease attempt leased_task 300.
Proof.
  destruct (acceptance_is_fenced "ob3" "res1" submitted lease attempt leased_task 300 db3) as [Hok _];
    try (vm_compute; reflexivity).
  apply Hok. eapply fence_sound, (run_Ok _ db3 ()). vm_compute. reflexivity.
Defined.

Definition renewed : TaskLeaseRow :=
  lease <| tl_expires_at := 1000 + seconds 60 |> <| tl_state := "renewed" |> <| tl_updated_at := 1000 |>.
Lemma renewal_extends_live_lease_witness :
  1000 < tl_expires_at renewed <= 100 + seconds 3600 ∧ tl_expires_at lease <= tl_expires_at renewed.
Proof.
  destruct (renewal_extends_live_lease hash cfg "lea1" "w1" 1 "tok" None 1000 db2 lease (100 + seconds 3600)
    renewed (renew_lease hash cfg "lea1" "w1" 1 "tok" None 1000 db2).2) as (_ & _ & H1 & H2 & _).
  - exact db2_lease.
  - reflexivity.
  - apply run_Ok. vm_compute. reflexivity.
  - split; [exact H1|exact H2].
Defined.

Lemma revoked_worker_is_locked_out_witness :
  verify_membership hash "w1" "tok" (upsert_registration hash 900 "tk2" "w1" registration
    (revoke_worker 800 "w1" db2).2).2 = false.
Proof.
  eapply (revoked_worker_is_locked_out hash cfg 800 "w1" db2).
  - apply run_Ok. vm_compute. reflexivity.
  - apply rtc_once, do_upsert.
Defined.

Lemma expiry_reopens_only_current_work_witness :
  ∃ l', db_leases (expire_leases (seconds 61) None 10 ∅ db2).2 !! "lea1" = Some l' ∧ tl_state l' = "expired".
Proof.
  eapply (expiry_reopens_only_current_work (seconds 61) None 10 ∅ db2 ["lea1"]).
  - apply run_Ok. vm_compute. reflexivity.
  - by left.
Defined.

Lemma advertisement_only_narrows_witness :
  ∃ w', strings_of (wl_capabilities w') ⊆ strings_of (wl_capabilities worker1)
    ∧ wl_capabilities w' = [JStr "py"].
Proof.
  eexists. split.
  - eapply (advertisement_only_narrows hash 60 "w1" "tok" 1 (Some [JStr "py"]) None None db1 worker1).
    + vm_compute. reflexivity.
    + apply run_Ok. vm_compute. reflexivity.
  - reflexivity.
Defined.

(** A revocation without notification leaves the lease to expire; the task then becomes
    superseded, which is terminal: it is not claimable again, while the documentation of
    revoke_mission_work says that cancelled attempts return their task to ready. *)
Lemma unnotified_revocation_supersedes_task :
  tr_status <$> db_tasks (expire_leases (seconds 61) None 10 ∅ revoked_db).2 !! "t1" = Some "superseded"
  ∧ tr_status <$> db_tasks (revoke_mission_work fresh "m1" "revoked" true 500 db2).2 !! "t1" = Some "ready".
Proof. split; vm_compute; reflexivity. Qed.

(** A worker undoes the drain an operator requested with two heartbeats of its own, and is
    then given new work. *)
Definition drained : Db := (request_drain 60 "w1" db1).2.
Definition back_online : Db :=
  (record_heartbeat hash 80 "w1" "tok" 1 (Some "active") None None None
    (record_heartbeat hash 70 "w1" "tok" 1 (Some "offline") None None None drained).2).2.
Lemma worker_undoes_drain :
  (claim_eligible_attempt hash cfg ids none_locked "w1" "tok" "prof" 100 None drained).1
    = Err (WorkerNotEligibleError "worker_status:draining")
  ∧ wl_drain_requested_at <$> db_workers back_online !! "w1" = Some (Some 60)
  ∧ cl_lease_id <$> (match (claim_eligible_attempt hash cfg ids none_locked "w1" "tok" "prof" 100 None
                              back_online).1 with Ok o => o | Err _ => None end) = Some "lea1".
Proof. split_and!; vm_compute; reflexivity. Qed.
End Sample.
