(* ===== verification/WorkerServiceProps.v ===== *)
(** * WorkerServiceProps: the worker service refines the lease lifecycle

    A call of the worker service is a sequence of steps of [LeaseFencing.dstep], so that
    everything proved of those steps holds of services; and what the service adds: grants at
    enrollment, cancellation notices, reconnection. *)
From S2P Require Import Prelude Collections Contracts PyFloat Json LeaseTables Leases WorkerService LeaseProps WorkerProps LeaseFencing LeaseTheorems.
Open Scope Z_scope.

(** ** Rows whose progress notes are an object *)
Definition progress_row (w : WorkerLeaseRow) : Prop :=
  ∀ j, dict_get (wl_resource_payload w) "lease_progress" = Some j → ∃ o, j = JObj o.
Definition progress_rows (d : Db) : Prop := ∀ id w, db_workers d !! id = Some w → progress_row w.

Lemma put_progress id w d : progress_row w → progress_rows d → progress_rows (put_worker id w d).2.
Proof. intros Hw Hd id' w'. simpl. intros [[_ <-]|[_ H]]%lookup_insert_Some; [done|by eapply Hd]. Qed.
Lemma progress_payload w w' : wl_resource_payload w' = wl_resource_payload w → progress_row w → progress_row w'.
Proof. unfold progress_row. by intros ->. Qed.
Lemma progress_other w w' key v : key ≠ "lease_progress" →
  wl_resource_payload w' = dict_set (wl_resource_payload w) key v → progress_row w → progress_row w'.
Proof. unfold progress_row. intros Hk -> Hw j. rewrite dict_get_set_ne by done. apply Hw. Qed.

(** [m] keeps the progress notes of all workers objects. *)
Definition keeps_progress {A} (m : M Db A) : Prop := ∀ d, progress_rows d → progress_rows (m d).2.
Lemma kp_kw {A} (m : M Db A) : keeps_workers m → keeps_progress m.
Proof. intros H d Hd. unfold progress_rows. by rewrite H. Qed.

Ltac progress_run :=
  lazymatch goal with
  | |- progress_rows (snd ?run) =>
    let T := type of run in
    let P := constr:(λ x : T, progress_rows (snd x)) in
    change (P run); run_rule P; cbv beta; try done
  end.

(** A row is written. *)
Ltac progress_put :=
  lazymatch goal with
  | |- progress_rows (snd ((put_worker ?i ?r ≫= ?k) ?d)) =>
    change (progress_rows (snd (k () (snd (put_worker i r d))))); cbv beta
  end.

Section operations.
Variable hash : string → string.
Variable cfg : LeaseConfig.

Lemma upsert_progress now tid id g : dict_get (rg_resource_payload g) "lease_progress" = None →
  keeps_progress (upsert_registration hash now tid id g).
Proof.
  intros Hg d Hd. unfold upsert_registration. progress_run. progress_run.
  progress_put. progress_run.
  all: apply (put_progress id); [|done]; intros j Hj; simpl in Hj; congruence.
Qed.

Lemma member_run {B} id tok gen (k : WorkerLeaseRow → M Db B) d :
  progress_rows d → (∀ row, db_workers d !! id = Some row → progress_rows (k row d).2) →
  progress_rows ((require_member hash id tok gen ≫= k) d).2.
Proof.
  intros Hd Hk. assert (reads (require_member hash id tok gen)) as Hr by apply require_member_reads.
  unfold mbind, M_bind. destruct (require_member hash id tok gen d) as [[row|e] d'] eqn:Hrun;
    pose proof (Hr d) as Hd'; rewrite Hrun in Hd'; simpl in Hd'; subst d'; [|done].
  apply Hk. by apply require_member_Ok in Hrun as (Hw & _).
Qed.

Lemma heartbeat_progress clock id tok gen st ids av he :
  keeps_progress (record_heartbeat hash clock id tok gen st ids av he).
Proof.
  intros d Hd. unfold record_heartbeat. apply member_run; [done|]. intros row Hrow.
  progress_run. match goal with |- context [heartbeat_state ?c ?s ?w] => set (row' := heartbeat_state c s w);
    destruct (heartbeat_state_keeps c s w) as [_ Hpay] end. fold row' in Hpay.
  assert (progress_row row') as Hr' by (eapply (progress_payload row); [exact Hpay|by eapply Hd]).
  pose proof (put_progress id row' d Hr' Hd) as Hd'. progress_put.
  progress_run. progress_run.
  apply (put_progress id); [|exact Hd'].
  by eapply (progress_other row' _ "last_heartbeat_progress"); [|reflexivity|].
Qed.

Lemma drain_progress now id : keeps_progress (request_drain now id).
Proof.
  intros d Hd. unfold request_drain, get_worker, mbind, M_bind, get_state, require.
  destruct (db_workers d !! id) as [row|] eqn:Hw; [|done]. cbn. case_match; [done|].
  apply (put_progress id); [|done]. eapply (progress_payload row); [done|by eapply Hd].
Qed.

Lemma finish_progress now id : keeps_progress (finish_drain now id).
Proof.
  intros d Hd. unfold finish_drain, mbind, M_bind, get_state.
  destruct (db_workers d !! id) as [row|] eqn:Hw; [|done].
  apply (put_progress id); [|done]. eapply (progress_payload row); [done|by eapply Hd].
Qed.

Lemma note_keeps_progress now id lid pc : keeps_progress (note_progress now id lid pc).
Proof.
  intros d Hd. unfold note_progress, mbind, M_bind, get_state, of_result.
  destruct (db_workers d !! id) as [row|] eqn:Hw; [|done]. destruct (py_dict _) as [o|]; [|done].
  apply (put_progress id); [|done]. intros j. simpl. rewrite dict_get_set_eq. intros [= <-]. by eexists.
Qed.

(** One optional part of an advertisement. *)
Lemma stage_progress {A B} (o : option A) guard err (f : A → WorkerLeaseRow) id w d (k : WorkerLeaseRow → M Db B) :
  progress_rows d → progress_row w → (∀ x, wl_resource_payload (f x) = wl_resource_payload w) →
  (∀ w' d', progress_rows d' → progress_row w' → progress_rows (k w' d').2) →
  progress_rows ((match o with
    | Some x => raise_if (guard x) err;; put_worker id (f x);; mret (f x)
    | None => mret w end ≫= k) d).2.
Proof.
  intros Hd Hw Hf Hk. destruct o as [x|]; [|by apply Hk].
  assert (progress_row (f x)) by (by apply (progress_payload w)).
  unfold mbind, M_bind. destruct (guard x); [done|]. apply Hk; [|done]. by apply (put_progress id).
Qed.

Lemma advertise_progress now id tok gen caps cap priv :
  keeps_progress (advertise_capabilities hash now id tok gen caps cap priv).
Proof.
  intros d Hd. unfold advertise_capabilities. apply member_run; [done|]. intros row Hrow.
  assert (progress_row row) as Hr by (by eapply Hd).
  eapply (stage_progress caps); [done|done|done|]. intros w1 d1 Hd1 Hw1.
  eapply (stage_progress cap); [done|done|done|]. intros w2 d2 Hd2 Hw2.
  eapply (stage_progress priv); [done|done|done|]. intros w3 d3 Hd3 Hw3.
  apply (put_progress id); [|done]. by apply (progress_payload w3).
Qed.
End operations.

(** ** Calls of the service *)
Inductive service_call :=
| SEnroll (now : Z) (token tid fresh_worker : string) (q : EnrollmentRequest)
| SHeartbeat (now : Z) (q : WorkerHeartbeatRequest)
| SAdvertise (now : Z) (q : CapabilityAdvertisement)
| SClaim (ids : ClaimIds) (locked : nat → gset string) (now : Z) (q : ClaimDispatchRequest)
| SRenew (now later : Z) (q : RenewLeaseRequest)
| SSubmit (fresh_result ob : string) (now : Z) (q : ResultSubmitRequest)
| SDrain (now later : Z) (q : DrainRequest)
| SCancelLease (ob : string) (now : Z) (q : CancelLeaseRequest)
| SReconnect (now : Z) (q : ReconnectRequest)
| SAccept (ob result_id : string) (now : Z)
| SRevokeMission (fresh : nat → string) (mission_id reason : string) (notify : bool) (now : Z)
| SCancelMission (fresh : nat → string) (mission_id reason : string) (now : Z).

(** Lease ids the service mints are not names of token fields. *)
Definition minted (c : service_call) : Prop :=
  match c with SClaim ids _ _ _ => forbidden (ci_lease ids) = false | _ => True end.

Section refinement.
Variable hash : string → string.
Variable cfg : LeaseConfig.
Variable allowlist : option (list string).
Variable interval : Z.

Definition serve (c : service_call) (d : Db) : Db :=
  match c with
  | SEnroll now token tid w q => (enroll hash allowlist interval now token tid w q d).2
  | SHeartbeat now q => (heartbeat hash now q d).2
  | SAdvertise now q => (advertise hash now q d).2
  | SClaim ids locked now q => (claim hash cfg ids locked now q d).2
  | SRenew now later q => (renew hash cfg now later q d).2
  | SSubmit r ob now q => (submit hash r ob now q d).2
  | SDrain now later q => (drain hash now later q d).2
  | SCancelLease ob now q => (cancel_lease ob now q d).2
  | SReconnect now q => (reconnect hash now q d).2
  | SAccept ob rid now => (accept_result ob rid now d).2
  | SRevokeMission fresh mid reason notify now => (revoke_mission_work fresh mid reason notify now d).2
  | SCancelMission fresh mid reason now => (cancel_mission fresh mid reason now d).2
  end.

(** What calls keep beside the lease invariants. *)
Definition lease_ids_ok (d : Db) : Prop := ∀ id l, db_leases d !! id = Some l → forbidden id = false.
Definition good (d : Db) : Prop := lease_ids_ok d ∧ progress_rows d.

(** [m] takes a good state to a good one by steps of the lifecycle. *)
Definition lawful {A} (m : M Db A) : Prop :=
  ∀ d, good d → rtc (dstep hash cfg) d (m d).2 ∧ good (m d).2.

Lemma lawful_reads {A} (m : M Db A) : reads m → lawful m.
Proof. intros H d Hd. by rewrite H. Qed.
Lemma lawful_bind {A B} (m : M Db A) (k : A → M Db B) : lawful m → (∀ a, lawful (k a)) → lawful (m ≫= k).
Proof.
  intros Hm Hk d Hd. unfold mbind, M_bind. destruct (Hm d Hd) as [H1 H2].
  destruct (m d) as [[a|e] d1]; simpl in *; [|done]. destruct (Hk a d1 H2). split; [by etrans|done].
Qed.

Lemma quiet_ids d d' : quiet d d' → lease_ids_ok d → lease_ids_ok d'.
Proof.
  intros Hq Hd id l Hl. destruct (db_leases d !! id) as [l0|] eqn:H0; [by eapply Hd|].
  apply (q_leases_new _ _ Hq) in H0. congruence.
Qed.
Lemma lawful_step {A} (m : M Db A) :
  (∀ d, dstep hash cfg d (m d).2) → (∀ d, quiet d (m d).2) → keeps_progress m → lawful m.
Proof.
  intros Hs Hq Hp d [H1 H2]. split; [apply rtc_once, Hs|]. split; [eapply quiet_ids; [apply Hq|done]|by apply Hp].
Qed.

Lemma lawful_upsert now tid id g : dict_get (rg_resource_payload g) "lease_progress" = None →
  lawful (upsert_registration hash now tid id g).
Proof. intros H. apply lawful_step; [intros; constructor|intros; apply upsert_quiet|by apply upsert_progress]. Qed.
Lemma lawful_heartbeat clock id tok gen st ids av he : lawful (record_heartbeat hash clock id tok gen st ids av he).
Proof. apply lawful_step; [intros; constructor|intros; apply heartbeat_quiet|apply heartbeat_progress]. Qed.
Lemma lawful_advertise now id tok gen caps cap priv : lawful (advertise_capabilities hash now id tok gen caps cap priv).
Proof. apply lawful_step; [intros; constructor|intros; apply advertise_quiet|apply advertise_progress]. Qed.
Lemma lawful_drain now id : lawful (request_drain now id).
Proof. apply lawful_step; [intros; constructor|intros; apply drain_quiet|apply drain_progress]. Qed.
Lemma lawful_finish now id : lawful (finish_drain now id).
Proof. apply lawful_step; [intros; constructor|intros; apply finish_drain_quiet|apply finish_progress]. Qed.
Lemma lawful_submit rid ob lid wid tok gen sub clock : lawful (submit_result hash rid ob lid wid tok gen sub clock).
Proof. apply lawful_step; [intros; constructor|intros; apply submit_quiet|apply kp_kw, submit_kw]. Qed.
Lemma lawful_cancel ob lid reason clock : lawful (cancel_active_lease ob lid reason clock).
Proof. apply lawful_step; [intros; constructor|intros; apply cancel_lease_quiet|apply kp_kw, cancel_lease_kw]. Qed.
Lemma lawful_revoke fresh mid reason notify clock : lawful (revoke_mission_work fresh mid reason notify clock).
Proof. apply lawful_step; [intros; constructor|intros; apply revoke_quiet|apply kp_kw, revoke_kw]. Qed.
Lemma lawful_cancel_mission fresh mid reason clock : lawful (cancel_mission fresh mid reason clock).
Proof. apply lawful_step; [intros; constructor|intros; apply cancel_mission_quiet|apply kp_kw, cancel_kw]. Qed.

Lemma lawful_accept ob rid clock : lawful (accept_result ob rid clock).
Proof.
  intros d [H1 H2]. split; [apply rtc_once; constructor|]. split; [|apply kp_kw; [apply accept_kw|done]].
  destruct (accept_cases ob rid clock d) as [Hq|(r & l & a & t & _ & _ & _ & _ & _ & _ & Hq)];
    eapply quiet_ids; [exact Hq|exact H1|exact Hq|exact H1].
Qed.
Lemma lawful_claim ids locked wid tok ap clock secs : forbidden (ci_lease ids) = false →
  lawful (claim_eligible_attempt hash cfg ids locked wid tok ap clock secs).
Proof.
  intros Hid d [H1 H2]. split; [apply rtc_once; constructor|]. split; [|apply kp_kw; [apply claim_kw|done]].
  destruct (claim_cases hash cfg ids locked wid tok ap clock secs d)
    as [Hq|(tid & task & m & d1 & l & (Hl & _) & Hq & _)]; [by eapply quiet_ids|].
  eapply quiet_ids; [exact Hq|]. intros id l'. rewrite Hl. intros [[<- _]|[_ H]]%lookup_insert_Some; [done|by eapply H1].
Qed.

Lemma reads_protocol v : reads (_require_protocol v).
Proof. intros d. unfold _require_protocol, raise_if. by case_match. Qed.
Lemma reads_current id tok gen : reads (require_current hash id tok gen).
Proof.
  intros d. unfold require_current, mbind, M_bind, get_state, raise_if, require.
  destruct (negb (verify_membership _ _ _ _)); [done|]. cbn. destruct (db_workers d !! id); [|done]. cbn.
  by destruct (negb _).
Qed.

(** A renewal that returned is of an existing lease. *)
Lemma renew_lease_exists lid wid gen tok ext clock d l d' :
  renew_lease hash cfg lid wid gen tok ext clock d = (Ok l, d') → is_Some (db_leases d !! lid).
Proof.
  unfold renew_lease. intros Hrun. apply bind_Ok in Hrun as (w & d1 & Hw & Hrun).
  apply (reads_run _ _ _ _ (claimable_reads _ _ _)) in Hw. subst d1. run_inv. by eexists.
Qed.

Lemma lawful_renew now later q : lawful (renew hash cfg now later q).
Proof.
  unfold renew. apply lawful_bind; [apply lawful_reads, reads_protocol|]. intros _ d Hd.
  assert (lawful (renew_lease hash cfg (nq_lease_id q) (nq_worker_id q) (nq_generation q) (nq_membership_token q)
    (nq_extend_seconds q) now)) as Hl.
  { apply lawful_step; [intros; constructor|intros; apply renew_quiet|apply kp_kw, renew_kw]. }
  destruct (Hl d Hd) as [Hs1 Hg1].
  set (P := λ x : result RenewLeaseResponse * Db, rtc (dstep hash cfg) d x.2 ∧ good x.2).
  match goal with |- rtc _ _ (snd ?run) ∧ _ => change (P run) end.
  apply (run_bind P); [intros e d1 Hrun|intros l d1 Hrun]; rewrite Hrun in *; cbn [snd] in *; [done|].
  apply renew_lease_exists in Hrun as [l0 Hl0].
  assert (forbidden (nq_lease_id q) = false) as Hf by (destruct Hd as [Hids _]; by eapply Hids).
  assert (let x := note_progress later (nq_worker_id q) (nq_lease_id q) (nq_progress_class q) d1 in
    rtc (dstep hash cfg) d x.2 ∧ good x.2) as HP.
  { destruct Hg1 as [H1 H2]. split.
    - eapply rtc_r; [exact Hs1|]. apply do_note_progress; [done|]. intros w j Hw. by eapply H2.
    - split; [|by apply note_keeps_progress]. eapply quiet_ids; [apply note_progress_quiet|done]. }
  apply (run_bind P); [intros e d2 Hrun|intros u d2 Hrun]; by rewrite Hrun in HP.
Qed.

Ltac lawful_op :=
  first [ apply lawful_heartbeat | apply lawful_advertise | apply lawful_drain | apply lawful_finish
        | apply lawful_submit | apply lawful_cancel | apply lawful_reads; done
        | apply lawful_reads; apply reads_protocol | apply lawful_reads; apply reads_current
        | apply lawful_reads; unfold raise_if; intros ?; by case_match ].
Ltac lawful_tac := repeat first [ lawful_op | apply lawful_bind; [|intros ?] | case_match ].

Lemma lawful_enroll now token tid w q : lawful (enroll hash allowlist interval now token tid w q).
Proof.
  unfold enroll. apply lawful_bind; [lawful_op|intros _]. apply lawful_bind; [|intros _].
  { apply lawful_reads. intros d. unfold _reject_secret_bearing_nonce, raise_if. by case_match. }
  apply lawful_bind; [by apply lawful_reads|intros d]. apply lawful_bind; [by apply lawful_upsert|].
  intros [row token_id]. by apply lawful_reads.
Qed.

Lemma lawful_claim_call ids locked now q : forbidden (ci_lease ids) = false → lawful (claim hash cfg ids locked now q).
Proof.
  intros Hid. unfold claim. apply lawful_bind; [lawful_op|intros _].
  apply lawful_bind; [by apply lawful_reads|intros d0]. apply lawful_bind; [|intros worker].
  { apply lawful_reads. unfold require. by destruct (db_workers d0 !! _). }
  apply lawful_bind; [lawful_op|intros _]. by apply lawful_claim.
Qed.

Lemma serve_lawful c d : minted c → good d → rtc (dstep hash cfg) d (serve c d) ∧ good (serve c d).
Proof.
  intros Hm. destruct c; simpl in *.
  - apply lawful_enroll.
  - revert d. change (lawful (heartbeat hash now q)). unfold heartbeat. lawful_tac.
  - revert d. change (lawful (advertise hash now q)). unfold advertise. lawful_tac.
  - by apply lawful_claim_call.
  - apply lawful_renew.
  - revert d. change (lawful (submit hash fresh_result ob now q)). unfold submit. lawful_tac.
  - revert d. change (lawful (drain hash now later q)). unfold drain. lawful_tac.
  - revert d. change (lawful (cancel_lease ob now q)). unfold cancel_lease. lawful_tac.
  - revert d. change (lawful (reconnect hash now q)). unfold reconnect. lawful_tac.
  - apply lawful_accept.
  - apply lawful_revoke.
  - apply lawful_cancel_mission.
Qed.

(** Calls of the service, and changes made elsewhere, in any order. *)
Inductive service_step (d : Db) : Db → Prop :=
| service_serves c : minted c → service_step d (serve c d)
| service_elsewhere d' : elsewhere d d' → service_step d d'.

(** C23: The worker service implements the lease lifecycle: whatever calls it serves, in any
    order, with any messages, interleaved with the changes the rest of the system makes,
    every database it reaches from one without workers, leases and results is reached by
    steps of the lease lifecycle; so what holds of every execution of the lifecycle (one
    active lease per task, fencing after revocation, no raw tokens) holds of the service. *)
Theorem worker_service_refines_lifecycle d0 d :
  fresh_db d0 → rtc service_step d0 d → reachable hash cfg d.
Proof.
  intros Hf Hs. exists d0. split; [done|].
  assert (good d0) as Hg.
  { destruct Hf as (Hl & _ & Hw). split; [intros id l Hid; by rewrite Hl in Hid|].
    intros id w Hid. by rewrite Hw in Hid. }
  clear Hf. induction Hs as [|x y z Hxy _ IH]; [done|].
  assert (rtc (dstep hash cfg) x y ∧ good y) as [H1 H2].
  { destruct Hxy as [c Hm|d' He]; [by apply serve_lawful|]. split; [by apply rtc_once, do_elsewhere|].
    destruct Hg as [G1 G2]. split; [by eapply quiet_ids; [apply elsewhere_quiet|]|].
    intros id w. rewrite (el_workers _ _ He). apply G2. }
  etrans; [exact H1|]. by apply IH.
Qed.
End refinement.

(** ** What the service adds *)
Section service_facts.
Variable hash : string → string.
Variable cfg : LeaseConfig.
Variable allowlist : option (list string).
Variable interval : Z.

Lemma elem_of_active wid d lid l :
  (lid, l) ∈ list_active_for_worker wid d ↔
  db_leases d !! lid = Some l ∧ tl_worker_id l = wid ∧ is_active l = true.
Proof.
  unfold list_active_for_worker. rewrite elem_of_sort_by, list_elem_of_In, filter_In, <- list_elem_of_In, elem_of_map_to_list.
  rewrite andb_true_iff, bool_decide_eq_true. simpl. tauto.
Qed.

(** The answer to a heartbeat is computed from the database as it was, its workers apart. *)
Lemma heartbeat_answer now q d r d' :
  heartbeat hash now q d = (Ok r, d') →
  ht_active_lease_ids r = fst <$> list_active_for_worker (hb_worker_id q) d
  ∧ ht_cancel_notices r
    = fst <$> List.filter (λ kl, _lease_cancellation_stale kl.2 d) (list_active_for_worker (hb_worker_id q) d).
Proof.
  unfold heartbeat. intros Hrun. apply bind_Ok in Hrun as (u & d1 & H1 & Hrun).
  apply (reads_run _ _ _ _ (reads_protocol _)) in H1. subst d1.
  apply bind_Ok in Hrun as (u1 & d1 & H1 & Hrun).
  apply (reads_run _ _ _ _ (reads_raise_if _ _)) in H1. subst d1.
  apply bind_Ok in Hrun as (row & d1 & H1 & Hrun).
  match type of H1 with record_heartbeat ?h ?a ?b ?c ?e ?f ?g ?i ?j ?s = _ =>
    destruct (heartbeat_workers_only h a b c e f g i j s) as [w Hw] end.
  rewrite H1 in Hw. simpl in Hw. subst d1.
  unfold mbind, M_bind, get_state in Hrun. cbv beta iota in Hrun. injection Hrun as <- <-. done.
Qed.

(** C33: A worker learns of every revocation: once a mission's work is revoked, then in every
    later state the answer to each heartbeat of the worker that holds a lease issued before,
    and still active, names that lease among the leases to cancel. *)
Theorem revoked_work_is_noticed d fresh mid reason notify clock out d1 d2 lid l l2 now q r d3 :
  reachable hash cfg d → revoke_mission_work fresh mid reason notify clock d = (Ok out, d1) →
  rtc (dstep hash cfg) d1 d2 → db_leases d !! lid = Some l → tl_mission_id l = mid →
  db_leases d2 !! lid = Some l2 → is_active l2 = true →
  heartbeat hash now q d2 = (Ok r, d3) → hb_worker_id q = tl_worker_id l2 →
  lid ∈ ht_cancel_notices r ∧ lid ∈ ht_active_lease_ids r.
Proof.
  intros Hd Hrev Hsteps Hl <- Hl2 Hact Hbeat Hwid. pose proof (reachable_inv _ _ _ Hd) as Hinv.
  destruct (li_stamp _ _ Hinv lid l Hl) as (t & m & Ht & Hmi & Hm & Hle).
  destruct (revoke_raises _ _ _ _ _ _ _ _ Hrev) as (m' & m1 & Hm' & Hm1 & Hlt). simplify_eq.
  assert (quiet d d1) as Hq by (eapply run_quiet; [apply revoke_quiet|exact Hrev]).
  assert (later d d2) as Hlater by (etrans; [by apply quiet_later|by eapply steps_later]).
  destruct (la_leases _ _ Hlater lid l Hl) as (l2' & Hl2' & Hs). assert (l2' = l2) as -> by congruence.
  apply stamps_fields in Hs as (E1 & E2 & E3 & _).
  destruct (la_missions _ _ (steps_later _ _ _ _ Hsteps) _ _ Hm1) as (m2 & Hm2 & Hge).
  apply heartbeat_answer in Hbeat as [-> ->].
  assert ((lid, l2) ∈ list_active_for_worker (hb_worker_id q) d2) as Hin by by apply elem_of_active.
  split; apply (list_elem_of_fmap_2 fst _ (lid, l2)); [|done].
  apply list_elem_of_In, filter_In. split; [by apply list_elem_of_In|].
  unfold _lease_cancellation_stale. simpl. rewrite E2, Hm2. apply negb_true_iff, Z.eqb_neq. lia.
Qed.

(** ** Enrollment *)
Lemma grants_spec requested c :
  c ∈ _grant_capabilities allowlist requested ↔
  c ∈ requested ∧ (∀ allowed, allowlist = Some allowed → c ∈ allowed).
Proof.
  unfold _grant_capabilities, sorted_set. destruct allowlist as [allowed|];
    rewrite elem_of_sort_by, elem_of_remove_dups; [|naive_solver].
  rewrite list_elem_of_In, filter_In, <- list_elem_of_In. unfold one_of. rewrite bool_decide_eq_true. naive_solver.
Qed.

(** The grants of an enrollment. *)
Definition enrolled (token : string) (q : EnrollmentRequest) (d : Db) (r : EnrollmentResponse)
    (w : WorkerLeaseRow) : Prop :=
  let wid := es_worker_id r in
  (∀ id, eq_worker_id q = Some id → id ≠ "" → wid = id)
  ∧ wl_capabilities w = JStr <$> es_capabilities_granted r
  ∧ es_trust_class r ∈ _DEFAULT_TRUST_ALLOW ∧ wl_trust_class w = Some (es_trust_class r)
  ∧ (eq_trust_class q ∈ _DEFAULT_TRUST_ALLOW → es_trust_class r = eq_trust_class q)
  ∧ "project:" +:+ eq_project_id q ∈ es_scopes_granted r
  ∧ wl_lease_generation w = es_generation r
  ∧ es_generation r = match db_workers d !! wid with Some w0 => wl_lease_generation w0 + 1 | None => 1 end
  ∧ wl_token_hash w = Some (hash token) ∧ wl_status w = "online"
  ∧ wl_revoked_at w = (db_workers d !! wid ≫= wl_revoked_at).

Lemma granted_trust_allowed t : granted_trust t ∈ _DEFAULT_TRUST_ALLOW.
Proof. unfold granted_trust, one_of. case_bool_decide; [done|]. apply elem_of_cons. by left. Qed.
Lemma granted_scopes_project p l : "project:" +:+ p ∈ granted_scopes p l.
Proof. unfold granted_scopes, one_of. case_bool_decide; [done|]. apply elem_of_cons. by left. Qed.

(** What an enrollment that returned did. *)
Lemma enroll_Ok now token tid fresh q d r d' :
  enroll hash allowlist interval now token tid fresh q d = (Ok r, d') →
  eq_protocol_version q = PROTOCOL_VERSION
  ∧ es_capabilities_granted r = _grant_capabilities allowlist (eq_capabilities q)
  ∧ es_membership_token r = token ∧ (es_worker_id r = fresh ∨ es_worker_id r ≠ "")
  ∧ ∃ w, db_workers d' = <[es_worker_id r := w]> (db_workers d) ∧ enrolled token q d r w
      ∧ dict_get (wl_resource_payload w) "last_heartbeat_progress" = None ∧ clean w.
Proof.
  unfold enroll. intros Hrun. apply bind_Ok in Hrun as (u & d1 & H1 & Hrun).
  assert (eq_protocol_version q = PROTOCOL_VERSION) as Hv
    by (apply (require_protocol_exact _ d); rewrite H1; by destruct u).
  apply (reads_run _ _ _ _ (reads_protocol _)) in H1. subst d1.
  apply bind_Ok in Hrun as (u1 & d1 & H1 & Hrun).
  apply (reads_run _ _ _ _ (reads_raise_if _ _)) in H1. subst d1.
  unfold upsert_registration, put_worker in Hrun. run_inv.
  match goal with H : assert_payload _ = Ok ?u |- _ => destruct u; apply raw_check_exact in H; rename H into Hraw end.
  split_and!; try done; cbn [es_worker_id].
  { unfold truthy. destruct (eq_worker_id q) as [id|]; [|by left]. case_bool_decide; [by left|by right]. }
  eexists. cbn. split_and!; [reflexivity| |done|exact Hraw]. unfold enrolled; cbn. split_and!; try done.
  - intros id -> Hid. unfold truthy. cbn. by rewrite bool_decide_false.
  - apply granted_trust_allowed.
  - intros Ht. unfold granted_trust, one_of. by rewrite bool_decide_true.
  - apply granted_scopes_project.
Qed.

(** Enrollment grants no more than the site allows and is never silent: a worker is
    granted exactly the requested capabilities that are on the allowlist, one of the allowed
    trust classes (the requested one if it is allowed), and its project's scope; its row
    holds these, the digest of the token and a generation one above that of the row it
    replaces, and only that row is written; an earlier revocation stays.  The protocol
    version of the message was exactly the supported one. *)
Theorem enrollment_grants_are_bounded now token tid fresh q d r d' :
  enroll hash allowlist interval now token tid fresh q d = (Ok r, d') →
  eq_protocol_version q = PROTOCOL_VERSION
  ∧ (∀ c, c ∈ es_capabilities_granted r ↔
       c ∈ eq_capabilities q ∧ ∀ allowed, allowlist = Some allowed → c ∈ allowed)
  ∧ ∃ w, db_workers d' = <[es_worker_id r := w]> (db_workers d) ∧ enrolled token q d r w.
Proof.
  intros Hrun. destruct (enroll_Ok _ _ _ _ _ _ _ _ Hrun) as (Hv & -> & _ & _ & w & Hw & Hen & _).
  split_and!; [done|apply grants_spec|eauto].
Qed.
End service_facts.
