(* ===== verification/WorkerClient.v ===== *)
(** * WorkerClient: the worker's side of the protocol
    (src/swarm/workers/client.py, workers/transport.py)

    The client is written against the interface [WorkerTransport], a record of operations on
    an abstract server state; [InProcessWorkerTransport] is its instance over the worker
    service.  A client operation runs on the client and the server together: an exception
    leaves the client as it was and the server as the service left it. *)
From S2P Require Import Prelude Collections Contracts PyFloat Json LeaseTables Leases WorkerService LeaseProps WorkerProps LeaseFencing LeaseTheorems WorkerServiceProps.
Open Scope Z_scope.

(** ** The transport *)
Record WorkerTransport (Srv : Type) := mkWorkerTransport {
  wt_enroll : EnrollmentRequest → M Srv EnrollmentResponse;
  wt_heartbeat : WorkerHeartbeatRequest → M Srv WorkerHeartbeatResponse;
  wt_advertise : CapabilityAdvertisement → M Srv WorkerLeaseRow;
  wt_claim : ClaimDispatchRequest → M Srv ClaimDispatchResponse;
  wt_renew : RenewLeaseRequest → M Srv RenewLeaseResponse;
  wt_submit_result : ResultSubmitRequest → M Srv ResultSubmitResponse;
  wt_drain : DrainRequest → M Srv DrainResponse;
  wt_cancel_lease : CancelLeaseRequest → M Srv CancelLeaseResponse;
  wt_reconnect : ReconnectRequest → M Srv ReconnectResponse;
  wt_accept_result : string → M Srv AcceptedResult
}.
Arguments mkWorkerTransport {_}.
Arguments wt_enroll {_}. Arguments wt_heartbeat {_}. Arguments wt_advertise {_}.
Arguments wt_claim {_}. Arguments wt_renew {_}. Arguments wt_submit_result {_}.
Arguments wt_drain {_}. Arguments wt_cancel_lease {_}. Arguments wt_reconnect {_}.
Arguments wt_accept_result {_}.

(** What one call of the service draws from its surroundings: two clock readings, fresh ids
    and the rows other transactions have locked. *)
Record CallEnv := mkCallEnv {
  ce_now : Z; ce_later : Z;
  ce_token : string; ce_token_id : string; ce_worker : string;
  ce_claim : ClaimIds; ce_locked : nat → gset string;
  ce_result : string; ce_outbox : string
}.

Definition InProcessWorkerTransport (hash : string → string) (cfg : LeaseConfig) (allowlist : option (list string))
    (interval : Z) (e : CallEnv) : WorkerTransport Db := mkWorkerTransport
  (enroll hash allowlist interval (ce_now e) (ce_token e) (ce_token_id e) (ce_worker e))
  (heartbeat hash (ce_now e))
  (advertise hash (ce_now e))
  (claim hash cfg (ce_claim e) (ce_locked e) (ce_now e))
  (renew hash cfg (ce_now e) (ce_later e))
  (submit hash (ce_result e) (ce_outbox e) (ce_now e))
  (drain hash (ce_now e) (ce_later e))
  (cancel_lease (ce_outbox e) (ce_now e))
  (reconnect hash (ce_now e))
  (λ result_id, accept_result (ce_outbox e) result_id (ce_now e)).

(** ** The client *)
Record WorkerClient := mkWorkerClient {
  wc_worker_id : option string;
  wc_generation : option Z;
  wc_membership_token : option string;
  wc_project_id : option string;
  wc_active_lease_ids : list string
}.
#[export] Instance eta_WorkerClient : Eta WorkerClient := λ r,
  mkWorkerClient (wc_worker_id r) (wc_generation r) (wc_membership_token r) (wc_project_id r) (wc_active_lease_ids r).
Section client.
Context {Srv : Type}.
Abbreviation CM := (M (WorkerClient * Srv)).

Definition send {A} (m : M Srv A) : CM A := λ cs,
  let '(r, s) := m cs.2 in (r, (cs.1, s)).
Definition self : CM WorkerClient := λ cs, (Ok cs.1, cs).
Definition set_self (f : WorkerClient → WorkerClient) : CM () := λ cs, (Ok (), (f cs.1, cs.2)).

Variable transport : WorkerTransport Srv.

Definition client_enroll (request : EnrollmentRequest) : CM EnrollmentResponse :=
  response ← send (wt_enroll transport request);
  set_self (λ c, c <| wc_worker_id := Some (es_worker_id response) |>
                   <| wc_generation := Some (es_generation response) |>
                   <| wc_membership_token := Some (es_membership_token response) |>
                   <| wc_project_id := Some (es_project_id response) |>);;
  mret response.

Definition _require_credentials : CM (string * Z * string) :=
  c ← self;
  match wc_worker_id c, wc_generation c, wc_membership_token c with
  | Some w, Some g, Some t =>
    if bool_decide (w = "") || bool_decide (t = "") then raise (RuntimeError "worker_not_enrolled")
    else mret (w, g, t)
  | _, _, _ => raise (RuntimeError "worker_not_enrolled")
  end.

(** [observed_at] is the clock reading pydantic takes when the message is built. *)
Definition client_heartbeat (observed_at : Z) (worker_state : string) (available health : option (dict json))
    (progress_class : option string) : CM WorkerHeartbeatResponse :=
  '(worker_id, generation, token) ← _require_credentials;
  c ← self;
  response ← send (wt_heartbeat transport (mkHeartbeat PROTOCOL_VERSION worker_id generation token observed_at
    worker_state (wc_active_lease_ids c) (default [] available) (default [] health) [] progress_class));
  set_self (λ c, c <| wc_active_lease_ids := ht_active_lease_ids response |>);;
  mret response.

Definition client_advertise (capabilities : option (list string)) (capacity_units : option float)
    (privacy_classes : option (list string)) : CM WorkerLeaseRow :=
  '(worker_id, generation, token) ← _require_credentials;
  send (wt_advertise transport (mkAdvertisement PROTOCOL_VERSION worker_id generation token capabilities
    capacity_units privacy_classes)).

Definition client_claim (agent_profile_id : string) : CM ClaimDispatchResponse :=
  '(worker_id, generation, token) ← _require_credentials;
  response ← send (wt_claim transport (mkClaimRequest PROTOCOL_VERSION worker_id generation token agent_profile_id));
  match response with
  | Some lease =>
    if bool_decide (cl_lease_id lease = "") then mret ()
    else set_self (λ c, if one_of (cl_lease_id lease) (wc_active_lease_ids c) then c
                        else c <| wc_active_lease_ids := wc_active_lease_ids c ++ [cl_lease_id lease] |>)
  | None => mret ()
  end;;
  mret response.

Definition client_renew (lease_id progress_class : string) (extend_seconds : option Z) : CM RenewLeaseResponse :=
  '(worker_id, generation, token) ← _require_credentials;
  send (wt_renew transport (mkRenewRequest PROTOCOL_VERSION lease_id worker_id generation token progress_class
    extend_seconds)).

Definition client_submit_result (lease_id status : string) (checks usage artifact_manifest : option (dict json))
    (effect_receipts : option (list json)) (summary result_id : option string) : CM ResultSubmitResponse :=
  '(worker_id, generation, token) ← _require_credentials;
  send (wt_submit_result transport (mkSubmitRequest PROTOCOL_VERSION lease_id worker_id generation token status
    summary (default [] artifact_manifest) (default [] checks) (default [] usage) (default [] effect_receipts)
    result_id)).

Definition client_drain : CM DrainResponse :=
  '(worker_id, generation, token) ← _require_credentials;
  response ← send (wt_drain transport (mkDrainRequest PROTOCOL_VERSION worker_id generation token));
  set_self (λ c, c <| wc_active_lease_ids := dr_active_lease_ids response |>);;
  mret response.

Definition client_cancel_lease (lease_id reason : string) : CM CancelLeaseResponse :=
  response ← send (wt_cancel_lease transport (mkCancelRequest PROTOCOL_VERSION lease_id reason));
  set_self (λ c, if one_of lease_id (wc_active_lease_ids c)
                 then c <| wc_active_lease_ids :=
                        List.filter (λ x, negb (bool_decide (x = lease_id))) (wc_active_lease_ids c) |>
                 else c);;
  mret response.

(** [row["lease_id"]] of each active lease; the service sends strings. *)
Definition lease_id_of (row : json) : result string :=
  match jget row "lease_id" with
  | JStr s => Ok s
  | _ => Err (KeyError "lease_id")
  end.
Fixpoint lease_ids_of (rows : list json) : result (list string) :=
  match rows with
  | [] => Ok []
  | row :: rows =>
    match lease_id_of row with
    | Ok s => match lease_ids_of rows with Ok l => Ok (s :: l) | Err e => Err e end
    | Err e => Err e
    end
  end.

Definition client_reconnect : CM ReconnectResponse :=
  '(worker_id, generation, token) ← _require_credentials;
  response ← send (wt_reconnect transport (mkReconnectRequest PROTOCOL_VERSION worker_id generation token));
  ids ← of_result (lease_ids_of (xs_active_leases response));
  set_self (λ c, c <| wc_active_lease_ids := ids |>);;
  mret response.

Definition control_plane_accept (result_id : string) : CM AcceptedResult :=
  send (wt_accept_result transport result_id).
End client.

(** ** Running the client *)
Section facts.
Variable hash : string → string.
Variable cfg : LeaseConfig.
Variable allowlist : option (list string).
Variable interval : Z.
Variable e : CallEnv.
Abbreviation T := (InProcessWorkerTransport hash cfg allowlist interval e).

Lemma send_Ok {Srv A} (m : M Srv A) c s a cs' :
  send m (c, s) = (Ok a, cs') ↔ ∃ s', m s = (Ok a, s') ∧ cs' = (c, s').
Proof. unfold send. simpl. destruct (m s) as [[x|x] s']; naive_solver. Qed.

Lemma credentials_Ok {Srv} c (s : Srv) w g t cs' :
  _require_credentials (c, s) = (Ok (w, g, t), cs') →
  cs' = (c, s) ∧ wc_worker_id c = Some w ∧ wc_generation c = Some g ∧ wc_membership_token c = Some t.
Proof.
  unfold _require_credentials, mbind, M_bind, self. simpl.
  destruct (wc_worker_id c), (wc_generation c), (wc_membership_token c); try done.
  case_match; [done|]. intros [=]. naive_solver.
Qed.

(** What the worker holds is read off leases alone. *)
Lemma active_workers_only {A} (m : M Db A) wid d :
  workers_only m → list_active_for_worker wid (m d).2 = list_active_for_worker wid d.
Proof. intros H. destruct (H d) as [w ->]. done. Qed.

Lemma finish_workers_only now id : workers_only (finish_drain now id).
Proof.
  apply workers_only_bind; [by apply workers_only_reads|]. intros d.
  destruct (db_workers d !! id); [apply workers_only_put|by apply workers_only_reads].
Qed.

Lemma drain_answer now later q d r d' : drain hash now later q d = (Ok r, d') →
  dr_active_lease_ids r = fst <$> list_active_for_worker (dq_worker_id q) d'.
Proof.
  unfold drain. intros Hrun. apply bind_Ok in Hrun as (u & d1 & _ & Hrun).
  apply bind_Ok in Hrun as (row & d2 & _ & Hrun). apply bind_Ok in Hrun as (dr & d3 & _ & Hrun).
  apply bind_Ok in Hrun as (d4 & d5 & H4 & Hrun). injection H4 as <- <-.
  apply bind_Ok in Hrun as (v & d6 & H6 & Hrun). injection Hrun as <- <-. cbn [dr_active_lease_ids]. f_equal.
  match type of H6 with (if ?b then _ else _) _ = _ => destruct b end; [|injection H6; congruence].
  pose proof (active_workers_only _ (dq_worker_id q) d3 (finish_workers_only later (dq_worker_id q))) as Hw.
  by rewrite H6 in Hw.
Qed.

Lemma lease_ids_of_summaries l : lease_ids_of (lease_summary <$> l) = Ok (fst <$> l).
Proof. induction l as [|[id l0] l IH]; [done|]. cbn. by rewrite IH. Qed.

Lemma reconnect_answer now q d r d' : reconnect hash now q d = (Ok r, d') →
  xs_active_leases r = lease_summary <$> list_active_for_worker (xq_worker_id q) d'.
Proof.
  unfold reconnect. intros Hrun. apply bind_Ok in Hrun as (u & d1 & _ & Hrun).
  apply bind_Ok in Hrun as (row & d2 & _ & Hrun). apply bind_Ok in Hrun as (row' & d3 & _ & Hrun).
  apply bind_Ok in Hrun as (d4 & d5 & H4 & Hrun). injection H4 as <- <-. by injection Hrun as <- <-.
Qed.

Lemma heartbeat_answer' now q d r d' : heartbeat hash now q d = (Ok r, d') →
  ht_active_lease_ids r = fst <$> list_active_for_worker (hb_worker_id q) d'.
Proof.
  unfold heartbeat. intros Hrun. apply bind_Ok in Hrun as (u & d1 & _ & Hrun).
  apply bind_Ok in Hrun as (row & d2 & _ & Hrun). apply bind_Ok in Hrun as (row' & d3 & _ & Hrun).
  apply bind_Ok in Hrun as (d4 & d5 & H4 & Hrun). injection H4 as <- <-. by injection Hrun as <- <-.
Qed.

(** One exchange: the credentials, then the call. *)
Lemma exchange_Ok {A} (k : string → Z → string → M (WorkerClient * Db) A) c d wid a cs' :
  wc_worker_id c = Some wid →
  (_require_credentials ≫= λ x, let '(w, g, t) := x in k w g t) (c, d) = (Ok a, cs') →
  ∃ g t, k wid g t (c, d) = (Ok a, cs').
Proof.
  intros Hwid Hrun. apply bind_Ok in Hrun as ([[w g] t] & cs1 & H1 & Hrun).
  apply credentials_Ok in H1 as (-> & Hw & _ & _). simplify_eq. eauto.
Qed.

(** After a heartbeat, a drain or a reconnection that returned, the client's list of
    leases is the control plane's: exactly the ids of the active leases of this worker, in
    the order they were issued; nothing the client remembered survives. *)
Theorem client_tracks_its_leases c d c' d' wid :
  wc_worker_id c = Some wid →
  (∃ at_ st av he pc r, client_heartbeat T at_ st av he pc (c, d) = (Ok r, (c', d')))
  ∨ (∃ r, client_drain T (c, d) = (Ok r, (c', d')))
  ∨ (∃ r, client_reconnect T (c, d) = (Ok r, (c', d'))) →
  wc_active_lease_ids c' = fst <$> list_active_for_worker wid d'.
Proof.
  intros Hwid [(at_ & st & av & he & pc & r & Hrun)|[(r & Hrun)|(r & Hrun)]];
    apply (exchange_Ok _ _ _ _ _ _ Hwid) in Hrun as (g & t & Hrun).
  - apply bind_Ok in Hrun as (c0 & cs0 & H0 & Hrun). injection H0 as <- <-.
    apply bind_Ok in Hrun as (r' & cs1 & H1 & Hrun). apply send_Ok in H1 as (d1 & H1 & ->).
    injection Hrun as _ <- <-. by apply heartbeat_answer' in H1.
  - apply bind_Ok in Hrun as (r' & cs1 & H1 & Hrun). apply send_Ok in H1 as (d1 & H1 & ->).
    injection Hrun as _ <- <-. by apply drain_answer in H1.
  - apply bind_Ok in Hrun as (r' & cs1 & H1 & Hrun). apply send_Ok in H1 as (d1 & H1 & ->).
    apply bind_Ok in Hrun as (ids & cs2 & H2 & Hrun). apply reconnect_answer in H1.
    rewrite H1, lease_ids_of_summaries in H2. injection H2 as <- <-. by injection Hrun as _ <- <-.
Qed.

(** *** A first heartbeat *)
Lemma raw_free_set d k v : forbidden k = false → ¬ holds_raw v → ¬ holds_raw (JObj d) →
  ¬ holds_raw (JObj (dict_set d k v)).
Proof. intros Hk Hv Hd [|[|]]%raw_dict_set; congruence. Qed.
Lemma raw_free_strings l : ¬ holds_raw (JList (JStr <$> l)).
Proof. inversion 1 as [| |? x Hx Hh]; subst. apply list_elem_of_fmap in Hx as (y & -> & _). inversion Hh. Qed.
Lemma raw_free_empty : ¬ holds_raw (JObj []).
Proof. inversion 1 as [? ? ? Hx|? ? ? Hx|]; subst; by apply elem_of_nil in Hx. Qed.

Lemma first_heartbeat clock id tok w ids d :
  db_workers d !! id = Some w → wl_revoked_at w = None → token_ok hash w tok = true → wl_status w = "online" →
  dict_get (wl_resource_payload w) "last_heartbeat_progress" = None → clean w →
  ∃ w' d', record_heartbeat hash clock id tok (wl_lease_generation w) (Some "active") (Some ids) (Some []) (Some []) d
             = (Ok w', d')
    ∧ wl_status w' = "online" ∧ wl_lease_generation w' = wl_lease_generation w.
Proof.
  intros Hw Hr Ht Hst Hp Hc.
  unfold record_heartbeat, require_member, get_worker, mbind, M_bind, get_state, require, raise_if, put_worker, of_result, mret, M_ret.
  cbv beta iota zeta. rewrite Hw. cbv beta iota zeta. rewrite Hr, bool_decide_false by (by intros [? [=]]).
  cbv beta iota zeta. rewrite Ht. cbn [negb]. cbv beta iota zeta. rewrite Z.eqb_refl. cbn [negb]. cbv beta iota zeta. rewrite Hst. cbn -[assert_payload dict_set].
  rewrite (bool_decide_false ("online" = "quarantined")), (bool_decide_false (wl_status w = "offline")) by congruence.
  cbn -[assert_payload dict_set]. rewrite Hp. cbn -[assert_payload dict_set].
  unfold assert_payload. rewrite (proj2 (raw_check_exact _ _)).
  { eexists _, _. split; [reflexivity|]. by rewrite <- Hst. }
  repeat apply raw_free_set; try reflexivity; auto using raw_free_strings, raw_free_empty; by inversion 1.
Qed.

(** A heartbeat returns when the repository's part does. *)
Lemma heartbeat_returns now id gen tok at_ st ids av he pc d w d' :
  record_heartbeat hash at_ id tok gen (Some st) (Some ids) (Some av) (Some he) d = (Ok w, d') →
  ∃ b, heartbeat hash now (mkHeartbeat PROTOCOL_VERSION id gen tok at_ st ids av he [] pc) d = (Ok b, d')
    ∧ ht_status b = wl_status w ∧ ht_generation b = wl_lease_generation w
    ∧ ht_active_lease_ids b = fst <$> list_active_for_worker id d.
Proof.
  intros Hrun. unfold heartbeat, mbind, M_bind. cbn -[record_heartbeat list_active_for_worker].
  change (_require_protocol PROTOCOL_VERSION d) with (Ok (), d). cbv iota beta. rewrite Hrun.
  eexists. split_and!; [reflexivity|done|done|]. cbn [ht_active_lease_ids]. f_equal.
  pose proof (active_workers_only _ id d (heartbeat_workers_only hash at_ id tok gen (Some st) (Some ids) (Some av)
    (Some he))) as Ha. by rewrite Hrun in Ha.
Qed.

(** Enrolling and connecting: a client that enrolled holds credentials the control plane
    accepts.  Unless the worker had been revoked before, its membership verifies, and its
    first heartbeat, through any later call, returns with the worker online, at the
    generation the client was given, and with the leases the client holds. *)
Theorem enrolled_client_is_served q c d r c' d' e' at_ :
  (∀ tok, hash tok ≠ "") → ce_token e ≠ "" → ce_worker e ≠ "" →
  client_enroll T q (c, d) = (Ok r, (c', d')) →
  (db_workers d !! es_worker_id r ≫= wl_revoked_at) = None →
  verify_membership hash (es_worker_id r) (es_membership_token r) d' = true
  ∧ ∃ b d'', client_heartbeat (InProcessWorkerTransport hash cfg allowlist interval e') at_ "active" None None None
               (c', d') = (Ok b, (c' <| wc_active_lease_ids := ht_active_lease_ids b |>, d''))
      ∧ ht_status b = "online" ∧ ht_generation b = es_generation r
      ∧ ht_active_lease_ids b = fst <$> list_active_for_worker (es_worker_id r) d'.
Proof.
  intros Hhash Htok Hwk Hrun Hnr. apply bind_Ok in Hrun as (r0 & cs1 & H1 & Hrun).
  apply send_Ok in H1 as (d1 & H1 & ->). injection Hrun as <- <- <-. cbn [wt_enroll InProcessWorkerTransport] in H1.
  destruct (enroll_Ok _ _ _ _ _ _ _ _ _ _ _ H1) as (_ & _ & Et & Hne & w & Hw & Hen & Hp & Hc).
  assert (db_workers d1 !! es_worker_id r0 = Some w) as Hlk by (by rewrite Hw, lookup_insert_eq).
  destruct Hen as (_ & _ & _ & _ & _ & _ & Hg & _ & Hh & Hst & Hrv).
  assert (token_ok hash w (es_membership_token r0) = true) as Hok.
  { unfold token_ok, verify_membership_token. rewrite Hh, Et, bool_decide_false by apply Hhash.
    by rewrite bool_decide_true. }
  split.
  - unfold verify_membership. rewrite Hlk, Hrv, Hnr, bool_decide_true by done. done.
  - destruct (first_heartbeat at_ (es_worker_id r0) (es_membership_token r0) w (wc_active_lease_ids c) d1)
      as (w' & d2 & Hbeat & Hs' & Hg'); try done; [by rewrite Hrv|].
    rewrite Hg in Hbeat, Hg'.
    destruct (heartbeat_returns (ce_now e') _ _ _ _ _ _ _ _ None _ _ _ Hbeat) as (b & Hb & Eb1 & Eb2 & Eb3).
    exists b, d2. split_and!; [|congruence|congruence|exact Eb3].
    unfold client_heartbeat, _require_credentials, mbind, M_bind, self. cbn -[heartbeat].
    rewrite !bool_decide_false; [|congruence|destruct Hne; congruence].
    cbn -[heartbeat]. unfold send. cbn -[heartbeat]. rewrite Hb. done.
Qed.
End facts.

(** ** Samples: a worker enrolls, claims the task of the sample database, and works *)
Module ServiceSample.
Import Sample.
Definition allowed : option (list string) := Some ["gpu"; "py"].
Definition request : EnrollmentRequest :=
  mkEnrollment "1.0" "nonce" "node" "p" (mkSoftware "1.0.0rc1" None "1.0") ["repo:read"] ["py"; "shell"; "py"]
    "root" (mkResources 1 0 None [] []) (mkTransport ["control_upload"] 65536) "arm64" "py3.12" f_1 ["local"] []
    None (Some "w1").
Definition env (now : Z) : CallEnv :=
  mkCallEnv now now "wt_a" "tk1" "wrk_a" (mkClaimIds "att1" "lea1" "ob1") none_locked "res1" "ob2".
Abbreviation tr now := (InProcessWorkerTransport hash cfg allowed 30 (env now)).
Definition nobody : WorkerClient := mkWorkerClient None None None None [].
Definition s1 := (client_enroll (tr 50) request (nobody, db0)).2.
Definition s2 := (client_claim (tr 100) "ap_default" s1).2.
Definition granted : EnrollmentResponse :=
  mkEnrolled "w1" 1 "wt_a" "tk1" ["project:p"; "repo:read"] ["py"] "compute_only" 30 None "p".

Lemma enrollment_grants_are_bounded_witness :
  ∃ w, db_workers s1.2 = <["w1" := w]> (db_workers db0) ∧ wl_trust_class w = Some "compute_only".
Proof.
  destruct (enrollment_grants_are_bounded hash allowed 30 50 "wt_a" "tk1" "wrk_a" request db0 granted s1.2)
    as (_ & _ & w & Hw & Hen).
  - apply run_Ok. vm_compute. reflexivity.
  - exists w. split; [exact Hw|]. apply Hen.
Defined.

Lemma s1_run : client_enroll (tr 50) request (nobody, db0) = (Ok granted, (s1.1, s1.2)).
Proof. vm_compute. reflexivity. Qed.

Lemma enrolled_client_is_served_witness : verify_membership hash "w1" "wt_a" s1.2 = true.
Proof.
  eapply (enrolled_client_is_served hash cfg allowed 30 (env 50) request nobody db0 granted s1.1 s1.2 (env 60) 60).
  - intros tok. discriminate.
  - discriminate.
  - discriminate.
  - exact s1_run.
  - vm_compute. reflexivity.
Defined.

Definition restarted : WorkerClient := mkWorkerClient (Some "w1") (Some 1) (Some "wt_a") (Some "p") [].
Abbreviation s3 := (client_reconnect (tr 120) (restarted, s2.2)).
Lemma client_tracks_its_leases_witness : wc_active_lease_ids s3.2.1 = ["lea1"].
Proof.
  etrans; [apply (client_tracks_its_leases hash cfg allowed 30 (env 120) restarted s2.2 s3.2.1 s3.2.2 "w1")|].
  - reflexivity.
  - right; right. eexists. vm_compute. reflexivity.
  - vm_compute. reflexivity.
Defined.

(** The same calls at the service. *)
Definition claim_request : ClaimDispatchRequest := mkClaimRequest "1.0" "w1" 1 "wt_a" "ap_default".
Definition e1 : Db := serve hash cfg allowed 30 (SEnroll 50 "wt_a" "tk1" "wrk_a" request) db0.
Definition e2 : Db := serve hash cfg allowed 30 (SClaim (mkClaimIds "att1" "lea1" "ob1") none_locked 100 claim_request) e1.
Lemma worker_service_refines_lifecycle_witness :
  reachable hash cfg e2 ∧ tl_worker_id <$> db_leases e2 !! "lea1" = Some "w1".
Proof.
  split; [|vm_compute; reflexivity].
  eapply (worker_service_refines_lifecycle hash cfg allowed 30 db0); [split; [done|split; done]|].
  eapply rtc_l; [by apply (service_serves _ _ _ _ db0 (SEnroll 50 "wt_a" "tk1" "wrk_a" request))|].
  apply rtc_once. by apply (service_serves _ _ _ _ e1 (SClaim (mkClaimIds "att1" "lea1" "ob1") none_locked 100 claim_request)).
Defined.

Definition beat : WorkerHeartbeatRequest :=
  mkHeartbeat "1.0" "w1" 1 "tok" 600 "active" ["lea1"] [] [] [] None.
Lemma revoked_work_is_noticed_witness :
  ∃ r, (heartbeat hash 600 beat revoked_db).1 = Ok r ∧ "lea1" ∈ ht_cancel_notices r.
Proof.
  eexists. split; [vm_compute; reflexivity|].
  eapply (revoked_work_is_noticed hash cfg db2 fresh "m1" "revoked" false 500 _ _ revoked_db "lea1" lease lease 600 beat).
  - exact db2_reachable.
  - exact revoke_ok.
  - apply rtc_refl.
  - exact db2_lease.
  - reflexivity.
  - vm_compute. reflexivity.
  - reflexivity.
  - apply run_Ok. vm_compute. reflexivity.
  - reflexivity.
Defined.

(** Scopes are granted as requested, whatever they are, and one that was not requested is
    added, while the protocol document has registration grant a subset. *)
Lemma enrollment_broadens_scopes :
  eq_scopes_requested request = ["repo:read"] ∧ es_scopes_granted granted = ["project:p"; "repo:read"].
Proof. done. Qed.

(** A worker that is drained while it holds a lease stays draining when its last lease is
    done, while the protocol document has the end of a drain take it offline. *)
Definition drained_db : Db := (drain hash 150 151 (mkDrainRequest "1.0" "w1" 1 "tok") db2).2.
Definition completed_db : Db :=
  (accept_result "ob3" "res1" 300 (submit_result hash "res1" "ob2" "lea1" "w1" "tok" 1 submission 200 drained_db).2).2.
Lemma finished_drain_stays_draining :
  list_active_for_worker "w1" completed_db = []
  ∧ wl_status <$> db_workers completed_db !! "w1" = Some "draining".
Proof. split; vm_compute; reflexivity. Qed.
End ServiceSample.
