(* ===== verification/Actions.v ===== *)
(** * Actions: envelopes, approvals and receipts (src/swarm/contracts/actions.py)

    Instants are microseconds UTC.  [payload_hash] is the SHA-256 of canonical JSON
    (contracts/common.py, hashlib): a parameter.  Ids that pydantic fills in are given. *)
From S2P Require Import Prelude Collections Contracts Json.
Open Scope Z_scope.

Record ActionEnvelope := mkActionEnvelope {
  av_action_id : string;
  av_mission_id : option string;
  av_task_id : option string;
  av_attempt_id : option string;
  av_project_id : string;
  av_actor : string;
  av_integration_id : string;
  av_integration_version : string;
  av_operation : string;
  av_destination : string;
  av_normalized_payload : dict json;
  av_payload_hash : string;
  av_requested_scopes : list string;
  av_side_effect_class : string;
  av_risk_class : string;
  av_effect_key : string;
  av_idempotency_key : string;
  av_lease_generation : Z;
  av_cancellation_generation : Z;
  av_site_epoch : option Z;
  av_policy_version : string;
  av_approval_id : option string;
  av_timeout_seconds : Z
}.
#[export] Instance eta_ActionEnvelope : Eta ActionEnvelope := λ r,
  mkActionEnvelope (av_action_id r) (av_mission_id r) (av_task_id r) (av_attempt_id r)
    (av_project_id r) (av_actor r) (av_integration_id r) (av_integration_version r)
    (av_operation r) (av_destination r) (av_normalized_payload r) (av_payload_hash r)
    (av_requested_scopes r) (av_side_effect_class r) (av_risk_class r) (av_effect_key r)
    (av_idempotency_key r) (av_lease_generation r) (av_cancellation_generation r)
    (av_site_epoch r) (av_policy_version r) (av_approval_id r) (av_timeout_seconds r).

Record ApprovalGrant := mkApprovalGrant {
  ag_project_id : string;
  ag_actor : option string;
  ag_grantor : string;
  ag_integration_id : string;
  ag_integration_version : string;
  ag_operation : string;
  ag_destination : string;
  ag_payload_hash : string;
  ag_effect_key : option string;
  ag_max_effect_count : Z;
  ag_used_count : Z;
  ag_expires_at : Z;
  ag_revoked_at : option Z;
  ag_policy_version : string;
  ag_constraints : dict json;
  ag_created_at : Z
}.
#[export] Instance eta_ApprovalGrant : Eta ApprovalGrant := λ r,
  mkApprovalGrant (ag_project_id r) (ag_actor r) (ag_grantor r) (ag_integration_id r)
    (ag_integration_version r) (ag_operation r) (ag_destination r) (ag_payload_hash r)
    (ag_effect_key r) (ag_max_effect_count r) (ag_used_count r) (ag_expires_at r)
    (ag_revoked_at r) (ag_policy_version r) (ag_constraints r) (ag_created_at r).

(** [ApprovalGrant.is_active]. *)
Definition grant_active (g : ApprovalGrant) (clock : Z) (ignore_usage : bool) : bool :=
  if bool_decide (is_Some (ag_revoked_at g)) then false
  else if ag_expires_at g <=? clock then false
  else if negb ignore_usage && (ag_max_effect_count g <=? ag_used_count g) then false
  else true.

Record ActionReceiptV17 := mkActionReceipt {
  ar_action_id : string;
  ar_effect_key : string;
  ar_effect_id : option string;
  ar_approval_id : option string;
  ar_project_id : string;
  ar_integration_id : string;
  ar_integration_version : string;
  ar_operation : string;
  ar_destination : string;
  ar_pre_observation : dict json;
  ar_post_observation : dict json;
  ar_started_at : option Z;
  ar_finished_at : option Z;
  ar_external_id : option string;
  ar_outcome : string;
  ar_reconciliation_state : string;
  ar_attempt_number : Z;
  ar_attempt_refs : list string;
  ar_evidence_digest : option string;
  ar_authorized_artifacts : list string
}.
#[export] Instance eta_ActionReceipt : Eta ActionReceiptV17 := λ r,
  mkActionReceipt (ar_action_id r) (ar_effect_key r) (ar_effect_id r) (ar_approval_id r)
    (ar_project_id r) (ar_integration_id r) (ar_integration_version r) (ar_operation r)
    (ar_destination r) (ar_pre_observation r) (ar_post_observation r) (ar_started_at r)
    (ar_finished_at r) (ar_external_id r) (ar_outcome r) (ar_reconciliation_state r)
    (ar_attempt_number r) (ar_attempt_refs r) (ar_evidence_digest r) (ar_authorized_artifacts r).

Section hashing.
Variable payload_hash : json → string.

(** [ensure_hashes] fills the three empty fields of the envelope in place. *)
Definition ensure_hashes (e : ActionEnvelope) : ActionEnvelope :=
  let e := if bool_decide (av_payload_hash e = "")
    then e <| av_payload_hash := payload_hash (JObj
      [("integration", JStr (av_integration_id e +:+ "@" +:+ av_integration_version e));
       ("operation", JStr (av_operation e)); ("destination", JStr (av_destination e));
       ("payload", JObj (av_normalized_payload e))]) |>
    else e in
  let e := if bool_decide (av_effect_key e = "")
    then e <| av_effect_key := av_project_id e +:+ ":" +:+ av_integration_id e +:+ ":"
      +:+ av_operation e +:+ ":" +:+ av_destination e +:+ ":" +:+ av_payload_hash e |>
    else e in
  if bool_decide (av_idempotency_key e = "")
  then e <| av_idempotency_key := av_effect_key e |> else e.

Definition destination_digest (e : ActionEnvelope) : string :=
  payload_hash (JObj [("destination", JStr (av_destination e))]).
End hashing.
