(* ===== verification/EffectStore.v ===== *)
(** * EffectStore: reservation, admission and receipts of external effects
    (src/swarm/tools/effects.py)

    Two stores implement the same interface: [InMemoryEffectStore] (state [MemStore], every
    method under the process lock) and [DurableEffectRepository] (state [DbStore], every
    method one [transaction] of the prelude, rolled back when it raises).  An effect is
    kept under its project and effect key.  The columns mission_id, task_id, attempt_id and
    payload of an effect row, which nothing reads, are left out.  Ids and clock readings
    are arguments; [func.now()] is the transaction's clock.  What a fence reader returned
    inside the transaction is an argument too. *)
From S2P Require Import Prelude Collections Contracts Json Actions.
Open Scope Z_scope.

Definition FINALIZABLE_STATES : list string := ["executing"; "unknown"].

(** The effect record, the columns of [ActionEffectRow] and the dict of the memory store. *)
Record Effect := mkEffect {
  ef_effect_id : string;
  ef_action_id : string;
  ef_approval_id : option string;
  ef_integration_id : string;
  ef_integration_version : string;
  ef_operation : string;
  ef_destination_digest : string;
  ef_payload_hash : string;
  ef_state : string;
  ef_lease_generation : Z;
  ef_cancellation_generation : Z;
  ef_pre_observation : dict json;
  ef_post_observation : dict json;
  ef_reconciliation : dict json;
  ef_created_at : Z;
  ef_started_at : option Z;
  ef_finished_at : option Z;
  ef_reconciled_at : option Z;
  ef_external_id : option string;
  ef_state_reason : option string;
  ef_attempt_count : Z;
  ef_executor_id : option string;
  ef_approval_consumed_at : option Z
}.
#[export] Instance eta_Effect : Eta Effect := λ r,
  mkEffect (ef_effect_id r) (ef_action_id r) (ef_approval_id r) (ef_integration_id r)
    (ef_integration_version r) (ef_operation r) (ef_destination_digest r) (ef_payload_hash r)
    (ef_state r) (ef_lease_generation r) (ef_cancellation_generation r) (ef_pre_observation r)
    (ef_post_observation r) (ef_reconciliation r) (ef_created_at r) (ef_started_at r)
    (ef_finished_at r) (ef_reconciled_at r) (ef_external_id r) (ef_state_reason r)
    (ef_attempt_count r) (ef_executor_id r) (ef_approval_consumed_at r).

Definition effect_key_t : Type := string * string.
Definition key_of (e : ActionEnvelope) : effect_key_t := (av_project_id e, av_effect_key e).

Definition _executable (state : string) (state_reason : option string) : bool :=
  bool_decide (state = "reserved")
  || (bool_decide (state = "failed") && bool_decide (state_reason = Some "not_applied")).

Definition _not_executable (state : string) : exn :=
  if bool_decide (state = "succeeded") then EffectConflictError "effect_already_succeeded"
  else if bool_decide (state = "unknown") then EffectConflictError "effect_unknown_requires_reconcile"
  else if bool_decide (state = "executing") then EffectConflictError "effect_already_executing"
  else EffectConflictError ("effect_terminal:" +:+ state).

(** ** Fences *)
(** A value of the effect dict: JSON, or an instant, which [int] refuses. *)
Inductive field := FJson (j : json) | FInstant.
Definition fopt (o : option string) : field := match o with Some s => FJson (JStr s) | None => FJson JNull end.
Definition ftime (o : option Z) : field := match o with Some _ => FInstant | None => FJson JNull end.

(** [stored.get(key)] on the dict of an effect. *)
Definition effect_field (k : effect_key_t) (e : Effect) (key : string) : field :=
  default (FJson JNull) (dict_get
    [("effect_id", FJson (JStr (ef_effect_id e))); ("effect_key", FJson (JStr k.2));
     ("project_id", FJson (JStr k.1)); ("action_id", FJson (JStr (ef_action_id e)));
     ("approval_id", fopt (ef_approval_id e)); ("integration_id", FJson (JStr (ef_integration_id e)));
     ("integration_version", FJson (JStr (ef_integration_version e)));
     ("operation", FJson (JStr (ef_operation e)));
     ("destination_digest", FJson (JStr (ef_destination_digest e)));
     ("payload_hash", FJson (JStr (ef_payload_hash e))); ("state", FJson (JStr (ef_state e)));
     ("lease_generation", FJson (JInt (ef_lease_generation e)));
     ("cancellation_generation", FJson (JInt (ef_cancellation_generation e)));
     ("pre_observation", FJson (JObj (ef_pre_observation e)));
     ("post_observation", FJson (JObj (ef_post_observation e)));
     ("reconciliation", FJson (JObj (ef_reconciliation e))); ("created_at", FInstant);
     ("started_at", ftime (ef_started_at e)); ("finished_at", ftime (ef_finished_at e));
     ("reconciled_at", ftime (ef_reconciled_at e)); ("external_id", fopt (ef_external_id e));
     ("state_reason", fopt (ef_state_reason e)); ("attempt_count", FJson (JInt (ef_attempt_count e)));
     ("executor_id", fopt (ef_executor_id e));
     ("approval_consumed_at", ftime (ef_approval_consumed_at e))] key).

(** [int(v or 0)]. *)
Definition int_or_0 (f : field) : result Z :=
  match f with
  | FJson j => if py_truthy j then py_int j else Ok 0
  | FInstant => Err (TypeError "int() argument must be a string, a bytes-like object or a real number, not 'datetime.datetime'")
  end.

Fixpoint _check_fence (k : effect_key_t) (stored : Effect) (current : dict (option Z)) : result () :=
  match current with
  | [] => Ok ()
  | (_, None) :: rest => _check_fence k stored rest
  | (key, Some value) :: rest =>
    match int_or_0 (effect_field k stored key) with
    | Err e => Err e
    | Ok n => if n =? value then _check_fence k stored rest
              else Err (EffectConflictError "fence_changed_before_execute")
    end
  end.

(** [if fence_reader is not None: _check_fence(...)]. *)
Definition check_fence (k : effect_key_t) (stored : Effect) (fence : option (dict (option Z))) : result () :=
  match fence with Some current => _check_fence k stored current | None => Ok () end.

Definition _check_insertable (g : ApprovalGrant) : result () :=
  if bool_decide (is_Some (ag_revoked_at g)) then Err (EffectStoreError "approval_insert_revoked")
  else Ok ().

Definition revocation (revoked_by reason : string) (at_ : Z) : json :=
  JObj [("revoked_by", JStr revoked_by); ("reason", JStr reason); ("at", JStr (isoformat at_))].

(** What a finalization is given. *)
Record Finalization := mkFinalization {
  fz_state : string;
  fz_state_reason : option string;
  fz_post_observation : option (dict json);
  fz_external_id : option string;
  fz_reconciliation : option (dict json)
}.
Definition finalized (fz : Finalization) (now : Z) (e : Effect) : Effect :=
  let e := e <| ef_state := fz_state fz |> <| ef_state_reason := fz_state_reason fz |>
             <| ef_finished_at := Some now |> in
  let e := match fz_post_observation fz with
           | Some p => e <| ef_post_observation := p |> | None => e end in
  let e := match fz_external_id fz with
           | Some x => e <| ef_external_id := Some x |> | None => e end in
  match fz_reconciliation fz with
  | Some r => e <| ef_reconciliation := r |> <| ef_reconciled_at := Some now |>
  | None => e
  end.

(** [executing], by [executor_id]. *)
Definition admitted (executor_id : string) (now : Z) (e : Effect) : Effect :=
  e <| ef_state := "executing" |> <| ef_state_reason := None |> <| ef_started_at := Some now |>
    <| ef_executor_id := Some executor_id |> <| ef_attempt_count := ef_attempt_count e + 1 |>.

(** [1 + max(numbers)], 1 when there are none. *)
Definition next_number (l : list Z) : Z := 1 + foldr Z.max 0 l.

Definition _check_binding (payload_hash : json → string) (stored : Effect) (e : ActionEnvelope) : result () :=
  if bool_decide (ef_integration_id stored = av_integration_id e)
     && bool_decide (ef_integration_version stored = av_integration_version e)
     && bool_decide (ef_operation stored = av_operation e)
     && bool_decide (ef_destination_digest stored = destination_digest payload_hash e)
     && bool_decide (ef_payload_hash stored = av_payload_hash e)
  then Ok () else Err (EffectConflictError "effect_key_binding_mismatch").

(** The record a reservation creates. *)
Definition reserved (payload_hash : json → string) (effect_id : string) (now : Z) (e : ActionEnvelope) : Effect :=
  mkEffect effect_id (av_action_id e) (av_approval_id e) (av_integration_id e)
    (av_integration_version e) (av_operation e) (destination_digest payload_hash e)
    (av_payload_hash e) "reserved" (av_lease_generation e) (av_cancellation_generation e)
    [] [] [] now None None None None None 0 None None.

(** ** InMemoryEffectStore *)
Record MemStore := mkMemStore {
  ms_effects : gmap effect_key_t Effect;
  ms_receipts : dict (string * Z * ActionReceiptV17);
  ms_approvals : gmap string ApprovalGrant
}.
#[export] Instance eta_MemStore : Eta MemStore := λ r,
  mkMemStore (ms_effects r) (ms_receipts r) (ms_approvals r).

Module Mem.
Section methods.
Variable payload_hash : json → string.

Definition set_effect (k : effect_key_t) (e : Effect) : M MemStore () :=
  modify (λ s, s <| ms_effects := <[k := e]> (ms_effects s) |>).
Definition set_approval (id : string) (g : ApprovalGrant) : M MemStore () :=
  modify (λ s, s <| ms_approvals := <[id := g]> (ms_approvals s) |>).
Definition _require (k : effect_key_t) : M MemStore Effect :=
  s ← get_state; require (ms_effects s !! k) (EffectStoreError "effect_not_found").

Definition put_approval (id : string) (grant : ApprovalGrant) : M MemStore ApprovalGrant :=
  of_result (_check_insertable grant);;
  s ← get_state;
  raise_if (bool_decide (is_Some (ms_approvals s !! id))) (EffectConflictError "approval_already_exists");;
  let stored := grant <| ag_used_count := 0 |> in
  set_approval id stored;;
  mret stored.

Definition get_approval (id project_id : string) (s : MemStore) : option ApprovalGrant :=
  match ms_approvals s !! id with
  | Some g => if bool_decide (ag_project_id g = project_id) then Some g else None
  | None => None
  end.

Definition revoke_approval (project_id id revoked_by reason : string) (now : Z) : M MemStore bool :=
  s ← get_state;
  match ms_approvals s !! id with
  | Some g =>
    if negb (bool_decide (ag_project_id g = project_id)) || bool_decide (is_Some (ag_revoked_at g))
    then mret false
    else set_approval id (g <| ag_revoked_at := Some now |>
           <| ag_constraints := dict_set (ag_constraints g) "revocation" (revocation revoked_by reason now) |>);;
         mret true
  | None => mret false
  end.

(** The boolean is the "created" entry of the returned dict. *)
Definition reserve (effect_id : string) (now : Z) (envelope : ActionEnvelope) : M MemStore (Effect * bool) :=
  let e := ensure_hashes payload_hash envelope in
  s ← get_state;
  match ms_effects s !! key_of e with
  | Some existing => of_result (_check_binding payload_hash existing e);; mret (existing, false)
  | None => let row := reserved payload_hash effect_id now e in
            set_effect (key_of e) row;; mret (row, true)
  end.

(** The approval part of [begin_execution]: the row afterwards. *)
Definition consume (k : effect_key_t) (row : Effect) (approval_id : option string) (now : Z)
    : M MemStore Effect :=
  if negb (truthy approval_id) then mret row
  else
    let id := default "" approval_id in
    s ← get_state;
    grant ← require (ms_approvals s !! id) (EffectStoreError "approval_not_consumable");
    raise_if (negb (bool_decide (ag_project_id grant = k.1)) || bool_decide (is_Some (ag_revoked_at grant))
              || (ag_expires_at grant <=? now)) (EffectStoreError "approval_not_consumable");;
    if bool_decide (ef_approval_consumed_at row = None) then
      raise_if (ag_max_effect_count grant <=? ag_used_count grant) (EffectStoreError "approval_not_consumable");;
      set_approval id (grant <| ag_used_count := ag_used_count grant + 1 |>);;
      let row := row <| ef_approval_consumed_at := Some now |> in
      set_effect k row;;
      mret row
    else mret row.

Definition begin_execution (envelope : ActionEnvelope) (executor_id : string)
    (fence : option (dict (option Z))) (now started : Z) : M MemStore Effect :=
  let k := key_of envelope in
  row ← _require k;
  of_result (check_fence k row fence);;
  row ← consume k row (av_approval_id envelope) now;
  raise_if (negb (_executable (ef_state row) (ef_state_reason row))) (_not_executable (ef_state row));;
  let row := admitted executor_id started row in
  set_effect k row;;
  mret row.

Definition attach_pre_observation (k : effect_key_t) (pre : dict json) : M MemStore Effect :=
  row ← _require k;
  let row := row <| ef_pre_observation := pre |> in
  set_effect k row;;
  mret row.

Definition _store_receipt_locked (receipt_id : string) (receipt : ActionReceiptV17)
    : M MemStore ActionReceiptV17 :=
  row ← _require (ar_project_id receipt, ar_effect_key receipt);
  let effect_id := ef_effect_id row in
  s ← get_state;
  raise_if (dict_mem (ms_receipts s) receipt_id) (EffectConflictError "receipt_already_recorded");;
  let existing := omap (λ r : string * Z * ActionReceiptV17,
    if bool_decide (r.1.1 = effect_id) then Some r.1.2 else None) (dict_values (ms_receipts s)) in
  let attempt_number := next_number existing in
  let stored := receipt <| ar_effect_id := Some effect_id |> <| ar_attempt_number := attempt_number |> in
  modify (λ s, s <| ms_receipts := dict_set (ms_receipts s) receipt_id (effect_id, attempt_number, stored) |>);;
  mret stored.

Definition store_receipt := _store_receipt_locked.

Definition finalize_with_receipt (k : effect_key_t) (fz : Finalization) (receipt_id : string)
    (receipt : ActionReceiptV17) (now : Z) : M MemStore ActionReceiptV17 :=
  row ← _require k;
  raise_if (negb (one_of (ef_state row) FINALIZABLE_STATES)) (EffectConflictError "finalize_state_conflict");;
  set_effect k (finalized fz now row);;
  _store_receipt_locked receipt_id receipt.

Definition get (k : effect_key_t) (s : MemStore) : option Effect := ms_effects s !! k.

Definition list_receipts (project_id effect_key : string) (s : MemStore) : list ActionReceiptV17 :=
  (λ r, r.2) <$> sort_by (λ a b : string * Z * ActionReceiptV17, a.1.2 <=? b.1.2)
    (List.filter (λ r, bool_decide (ar_project_id r.2 = project_id)
                       && bool_decide (ar_effect_key r.2 = effect_key)) (dict_values (ms_receipts s))).

Definition terminal_receipt (project_id effect_key : string) (s : MemStore) : option ActionReceiptV17 :=
  last (List.filter (λ r, bool_decide (ar_outcome r = "succeeded")) (list_receipts project_id effect_key s)).

(** [max(matches, key=finished_at or started_at or utc_now())]: the first of the greatest. *)
Definition receipt_time (now : Z) (r : ActionReceiptV17) : Z :=
  match ar_finished_at r, ar_started_at r with
  | Some t, _ => t | None, Some t => t | None, None => now end.
Definition get_receipt (action_id : string) (now : Z) (s : MemStore) : option ActionReceiptV17 :=
  match List.filter (λ r, bool_decide (ar_action_id r = action_id)) ((λ r, r.2) <$> dict_values (ms_receipts s)) with
  | [] => None
  | r :: rest => Some (foldl (λ best x, if receipt_time now best <? receipt_time now x then x else best) r rest)
  end.
End methods.
End Mem.

(** ** DurableEffectRepository *)
(** An approval row; the columns added for V1.7 are null in legacy rows. *)
Record ApprovalRow := mkApprovalRow {
  ap_payload_hash : string;
  ap_permitted_operation : string;
  ap_destination : string;
  ap_grantor : string;
  ap_expires_at : Z;
  ap_revoked_at : option Z;
  ap_payload : dict json;
  ap_project_id : option string;
  ap_actor : option string;
  ap_integration_id : option string;
  ap_integration_version : option string;
  ap_operation : option string;
  ap_effect_key : option string;
  ap_max_effect_count : Z;
  ap_used_count : Z;
  ap_policy_version : option string;
  ap_created_at : option Z;
  ap_constraints : dict json
}.
#[export] Instance eta_ApprovalRow : Eta ApprovalRow := λ r,
  mkApprovalRow (ap_payload_hash r) (ap_permitted_operation r) (ap_destination r) (ap_grantor r)
    (ap_expires_at r) (ap_revoked_at r) (ap_payload r) (ap_project_id r) (ap_actor r)
    (ap_integration_id r) (ap_integration_version r) (ap_operation r) (ap_effect_key r)
    (ap_max_effect_count r) (ap_used_count r) (ap_policy_version r) (ap_created_at r)
    (ap_constraints r).

(** A receipt row, kept under its receipt id; [rr_receipt] is the JSON dump of the receipt. *)
Record ReceiptRow := mkReceiptRow {
  rr_project_id : string;
  rr_effect_id : string;
  rr_effect_key : string;
  rr_action_id : string;
  rr_attempt_number : Z;
  rr_outcome : string;
  rr_reconciliation_state : string;
  rr_evidence_digest : string;
  rr_receipt : ActionReceiptV17;
  rr_created_at : Z
}.

Record DbStore := mkDbStore {
  ds_effects : gmap effect_key_t Effect;
  ds_receipts : gmap string ReceiptRow;
  ds_approvals : gmap string ApprovalRow
}.
#[export] Instance eta_DbStore : Eta DbStore := λ r,
  mkDbStore (ds_effects r) (ds_receipts r) (ds_approvals r).

Definition row_of_grant (g : ApprovalGrant) : ApprovalRow :=
  mkApprovalRow (ag_payload_hash g) (ag_integration_id g +:+ "." +:+ ag_operation g)
    (ag_destination g) (ag_grantor g) (ag_expires_at g) None (ag_constraints g)
    (Some (ag_project_id g)) (ag_actor g) (Some (ag_integration_id g))
    (Some (ag_integration_version g)) (Some (ag_operation g)) (ag_effect_key g)
    (ag_max_effect_count g) 0 (Some (ag_policy_version g)) (Some (ag_created_at g)) (ag_constraints g).

Definition _operational (r : ApprovalRow) : bool :=
  bool_decide (is_Some (ap_project_id r)) && bool_decide (is_Some (ap_integration_id r))
  && bool_decide (is_Some (ap_integration_version r)) && bool_decide (is_Some (ap_operation r))
  && bool_decide (is_Some (ap_policy_version r)).

(** [n or d] on integers. *)
Definition int_or (n d : Z) : Z := if n =? 0 then d else n.

Definition _grant_from_row (now : Z) (r : ApprovalRow) : result ApprovalGrant :=
  if _operational r then
    Ok (mkApprovalGrant (default "None" (ap_project_id r)) (ap_actor r) (ap_grantor r)
      (default "None" (ap_integration_id r)) (default "None" (ap_integration_version r))
      (default "None" (ap_operation r)) (ap_destination r) (ap_payload_hash r) (ap_effect_key r)
      (int_or (ap_max_effect_count r) 1) (ap_used_count r) (ap_expires_at r) (ap_revoked_at r)
      (default "None" (ap_policy_version r)) (ap_constraints r) (default now (ap_created_at r)))
  else Err AssertionError.

Module Durable.
Section methods.
Variable payload_hash : json → string.

Definition set_effect (k : effect_key_t) (e : Effect) : M DbStore () :=
  modify (λ s, s <| ds_effects := <[k := e]> (ds_effects s) |>).
Definition set_approval (id : string) (r : ApprovalRow) : M DbStore () :=
  modify (λ s, s <| ds_approvals := <[id := r]> (ds_approvals s) |>).
Definition _require_row (k : effect_key_t) : M DbStore Effect :=
  s ← get_state; require (ds_effects s !! k) (EffectStoreError "effect_not_found").

Definition put_approval (id : string) (grant : ApprovalGrant) : M DbStore ApprovalGrant :=
  of_result (_check_insertable grant);;
  let stored := grant <| ag_used_count := 0 |> in
  transaction (
    s ← get_state;
    raise_if (bool_decide (is_Some (ds_approvals s !! id))) (EffectConflictError "approval_already_exists");;
    set_approval id (row_of_grant stored));;
  mret stored.

Definition get_approval (id project_id : string) (now : Z) (s : DbStore) : result (option ApprovalGrant) :=
  match ds_approvals s !! id with
  | Some r => if bool_decide (ap_project_id r = Some project_id) && _operational r
              then match _grant_from_row now r with Ok g => Ok (Some g) | Err e => Err e end
              else Ok None
  | None => Ok None
  end.

(** [now] is the application's clock, [db_now] the transaction's. *)
Definition revoke_approval (project_id id revoked_by reason : string) (now db_now : Z) : M DbStore bool :=
  transaction (
    s ← get_state;
    match ds_approvals s !! id with
    | Some r =>
      if bool_decide (ap_project_id r = Some project_id) && bool_decide (ap_revoked_at r = None) then
        set_approval id (r <| ap_revoked_at := Some db_now |> <| ap_constraints :=
          dict_set (ap_constraints r) "revocation" (revocation revoked_by reason now) |>);;
        mret true
      else mret false
    | None => mret false
    end).

(** INSERT ... ON CONFLICT DO NOTHING on the project and effect key; a second row with an
    effect id in use breaks the primary key. *)
Definition insert_effect (k : effect_key_t) (row : Effect) : M DbStore bool :=
  s ← get_state;
  match ds_effects s !! k with
  | Some _ => mret false
  | None =>
    raise_if (existsb (λ ke, bool_decide (ef_effect_id ke.2 = ef_effect_id row)) (map_to_list (ds_effects s)))
      (IntegrityError "action_effects_pkey");;
    set_effect k row;;
    mret true
  end.

Definition reserve (effect_id : string) (now : Z) (envelope : ActionEnvelope) : M DbStore (Effect * bool) :=
  let e := ensure_hashes payload_hash envelope in
  transaction (
    created ← insert_effect (key_of e) (reserved payload_hash effect_id now e);
    row ← _require_row (key_of e);
    of_result (_check_binding payload_hash row e);;
    mret (row, created)).

(** The approval's row still admits work of the project. *)
Definition usable (r : ApprovalRow) (project_id : string) (now : Z) : bool :=
  bool_decide (ap_project_id r = Some project_id) && bool_decide (ap_revoked_at r = None)
  && (now <? ap_expires_at r).

Definition _consume_approval (k : effect_key_t) (row : Effect) (approval_id : string) (now : Z)
    : M DbStore () :=
  s ← get_state;
  if bool_decide (ef_approval_consumed_at row = None) then
    match ds_approvals s !! approval_id with
    | Some r =>
      raise_if (negb (usable r k.1 now && (ap_used_count r <? ap_max_effect_count r)))
        (EffectStoreError "approval_not_consumable");;
      set_approval approval_id (r <| ap_used_count := ap_used_count r + 1 |>);;
      set_effect k (row <| ef_approval_consumed_at := Some now |>)
    | None => raise (EffectStoreError "approval_not_consumable")
    end
  else
    raise_if (negb (match ds_approvals s !! approval_id with
                    | Some r => usable r k.1 now | None => false end))
      (EffectStoreError "approval_not_consumable").

Definition _cas_to_executing (k : effect_key_t) (executor_id : string) (now : Z) : M DbStore (option Effect) :=
  s ← get_state;
  match ds_effects s !! k with
  | Some row =>
    if _executable (ef_state row) (ef_state_reason row) then
      let row := admitted executor_id now row in
      set_effect k row;; mret (Some row)
    else mret None
  | None => mret None
  end.

Definition begin_execution (envelope : ActionEnvelope) (executor_id : string)
    (fence : option (dict (option Z))) (now : Z) : M DbStore Effect :=
  let e := ensure_hashes payload_hash envelope in
  let k := key_of e in
  transaction (
    row ← _require_row k;
    of_result (check_fence k row fence);;
    (if truthy (av_approval_id e) then _consume_approval k row (default "" (av_approval_id e)) now
     else mret ());;
    updated ← _cas_to_executing k executor_id now;
    match updated with
    | Some row => mret row
    | None => row ← _require_row k; raise (_not_executable (ef_state row))
    end).

Definition attach_pre_observation (k : effect_key_t) (pre : dict json) : M DbStore Effect :=
  transaction (
    row ← _require_row k;
    let row := row <| ef_pre_observation := pre |> in
    set_effect k row;;
    mret row).

Definition _insert_receipt (effect : Effect) (receipt_id : string) (receipt : ActionReceiptV17)
    (now : Z) : M DbStore ActionReceiptV17 :=
  s ← get_state;
  raise_if (bool_decide (is_Some (ds_receipts s !! receipt_id))) (EffectConflictError "receipt_already_recorded");;
  let existing := omap (λ kr : string * ReceiptRow,
    if bool_decide (rr_effect_id kr.2 = ef_effect_id effect) then Some (rr_attempt_number kr.2) else None)
    (map_to_list (ds_receipts s)) in
  let attempt_number := next_number existing in
  let stored := receipt <| ar_effect_id := Some (ef_effect_id effect) |>
                        <| ar_attempt_number := attempt_number |> in
  let row := mkReceiptRow (ar_project_id stored) (ef_effect_id effect) (ar_effect_key stored)
    (ar_action_id stored) attempt_number (ar_outcome stored) (ar_reconciliation_state stored)
    (default "" (ar_evidence_digest stored)) stored now in
  modify (λ s, s <| ds_receipts := <[receipt_id := row]> (ds_receipts s) |>);;
  mret stored.

Definition finalize_with_receipt (k : effect_key_t) (fz : Finalization) (receipt_id : string)
    (receipt : ActionReceiptV17) (now : Z) : M DbStore ActionReceiptV17 :=
  transaction (
    s ← get_state;
    match ds_effects s !! k with
    | Some row =>
      raise_if (negb (one_of (ef_state row) FINALIZABLE_STATES)) (EffectConflictError "finalize_state_conflict");;
      let row := finalized fz now row in
      set_effect k row;;
      _insert_receipt row receipt_id receipt now
    | None => raise (EffectConflictError "finalize_state_conflict")
    end).

Definition get (k : effect_key_t) (s : DbStore) : option Effect := ds_effects s !! k.

Definition store_receipt (receipt_id : string) (receipt : ActionReceiptV17) (now : Z)
    : M DbStore ActionReceiptV17 :=
  transaction (
    effect ← _require_row (ar_project_id receipt, ar_effect_key receipt);
    _insert_receipt effect receipt_id receipt now).

Definition receipt_rows (f : ReceiptRow → bool) (s : DbStore) : list ReceiptRow :=
  List.filter f ((λ kr, kr.2) <$> map_to_list (ds_receipts s)).

Definition list_receipts (project_id effect_key : string) (s : DbStore) : list ActionReceiptV17 :=
  rr_receipt <$> sort_by (λ a b, rr_attempt_number a <=? rr_attempt_number b)
    (receipt_rows (λ r, bool_decide (rr_project_id r = project_id)
                        && bool_decide (rr_effect_key r = effect_key)) s).

Definition terminal_receipt (project_id effect_key : string) (s : DbStore) : option ActionReceiptV17 :=
  rr_receipt <$> head (sort_by (λ a b, rr_attempt_number b <=? rr_attempt_number a)
    (receipt_rows (λ r, bool_decide (rr_project_id r = project_id)
                        && bool_decide (rr_effect_key r = effect_key)
                        && bool_decide (rr_outcome r = "succeeded")) s)).

Definition get_receipt (action_id : string) (s : DbStore) : option ActionReceiptV17 :=
  rr_receipt <$> head (sort_by (λ a b, (rr_created_at b <? rr_created_at a)
      || ((rr_created_at b =? rr_created_at a) && (rr_attempt_number b <=? rr_attempt_number a)))
    (receipt_rows (λ r, bool_decide (rr_action_id r = action_id)) s)).
End methods.
End Durable.
