(* ===== verification/EffectProps.v ===== *)
(** * EffectProps: what every effect store promises

    [Abs] is the abstract state of a store: its effects, the use of its approvals and its
    receipts.  [astep] is the abstract specification, one small step per promise (reserve a
    new key, consume one use, admit an executable effect, finalize an admitted one, append a
    receipt).  [EffectStore] is the interface of a store: each of its calls refines a
    sequence of abstract steps.  Both stores of tools/effects.py implement it, and the
    theorems are proved of any implementation. *)
From S2P Require Import Prelude Collections Contracts Json Actions EffectStore.
Open Scope Z_scope.

(** ** The abstract specification *)
Record Use := mkUse { us_used : Z; us_max : Z; us_revoked : bool }.
Definition receipt_entry : Type := string * (string * Z * ActionReceiptV17).

Record Abs := mkAbs {
  a_effects : gmap effect_key_t Effect;
  a_uses : gmap string Use;
  a_receipts : list receipt_entry
}.

Definition numbers (eid : string) (rs : list receipt_entry) : list Z :=
  omap (λ x : receipt_entry, if bool_decide (x.2.1.1 = eid) then Some x.2.1.2 else None) rs.

Definition consumed (e : Effect) : bool := bool_decide (is_Some (ef_approval_consumed_at e)).
Definition executable (e : Effect) : bool := _executable (ef_state e) (ef_state_reason e).
Definition finalizable (e : Effect) : bool := one_of (ef_state e) FINALIZABLE_STATES.

(** What one call may do beside its own bookkeeping: admit one effect to execution, or
    finalize one effect in one way. *)
Inductive perm := PNone | PAdmit (k : effect_key_t) | PFinal (k : effect_key_t) (fz : Finalization).

Inductive astep (fin : perm) : Abs → Abs → Prop :=
| a_approve es us rs id max : us !! id = None →
    astep fin (mkAbs es us rs) (mkAbs es (<[id := mkUse 0 max false]> us) rs)
| a_revoke es us rs id u : us !! id = Some u →
    astep fin (mkAbs es us rs) (mkAbs es (<[id := mkUse (us_used u) (us_max u) true]> us) rs)
| a_reserve es us rs k e : es !! k = None → ef_state e = "reserved" →
    ef_approval_consumed_at e = None → ef_attempt_count e = 0 →
    astep fin (mkAbs es us rs) (mkAbs (<[k := e]> es) us rs)
| a_consume es us rs k e id u now : es !! k = Some e → consumed e = false →
    us !! id = Some u → us_revoked u = false → us_used u < us_max u →
    astep fin (mkAbs es us rs)
      (mkAbs (<[k := e <| ef_approval_consumed_at := Some now |>]> es)
         (<[id := mkUse (us_used u + 1) (us_max u) false]> us) rs)
| a_admit es us rs k e executor now : es !! k = Some e → executable e = true → fin = PAdmit k →
    astep fin (mkAbs es us rs) (mkAbs (<[k := admitted executor now e]> es) us rs)
| a_observe es us rs k e pre : es !! k = Some e →
    astep fin (mkAbs es us rs) (mkAbs (<[k := e <| ef_pre_observation := pre |>]> es) us rs)
| a_finalize es us rs k e fz now : es !! k = Some e → finalizable e = true → fin = PFinal k fz →
    astep fin (mkAbs es us rs) (mkAbs (<[k := finalized fz now e]> es) us rs)
| a_receipt es us rs rs' rid eid receipt : rid ∉ rs.*1 →
    rs' ≡ₚ (rid, (eid, next_number (numbers eid rs), receipt)) :: rs →
    astep fin (mkAbs es us rs) (mkAbs es us rs').

(** ** The interface *)
Inductive call :=
| Put (id : string) (grant : ApprovalGrant)
| Revoke (project id by_ reason : string) (now db_now : Z)
| Reserve (effect_id : string) (now : Z) (e : ActionEnvelope)
| Begin (e : ActionEnvelope) (executor : string) (fence : option (dict (option Z))) (now started : Z)
| Attach (k : effect_key_t) (pre : dict json)
| Finalize (k : effect_key_t) (fz : Finalization) (rid : string) (r : ActionReceiptV17) (now : Z)
| StoreReceipt (rid : string) (r : ActionReceiptV17) (now : Z).

Definition finalizes (c : call) : option effect_key_t :=
  match c with Finalize k _ _ _ _ => Some k | _ => None end.

(** [perm] of a call; [ensure] is [ensure_hashes], which the durable repository applies to
    the envelope again. *)
Definition grants (ensure : ActionEnvelope → ActionEnvelope) (c : call) : perm :=
  match c with
  | Begin e _ _ _ _ => PAdmit (key_of (ensure e))
  | Finalize k fz _ _ _ => PFinal k fz
  | _ => PNone
  end.

Class EffectStore (S : Type) := {
  view : S → Abs;
  empty_store : S;
  run_call : call → S → S;
  normal : ActionEnvelope → ActionEnvelope;
  view_empty : view empty_store = mkAbs ∅ ∅ [];
  call_refines : ∀ c s, rtc (astep (grants normal c)) (view s) (view (run_call c s))
}.

(** ** The in-memory store *)
Definition use_of_grant (g : ApprovalGrant) : Use :=
  mkUse (ag_used_count g) (ag_max_effect_count g) (bool_decide (is_Some (ag_revoked_at g))).
Definition mem_view (s : MemStore) : Abs :=
  mkAbs (ms_effects s) (use_of_grant <$> ms_approvals s) (ms_receipts s).

Lemma dict_set_fresh {V} (d : dict V) k v : dict_mem d k = false → dict_set d k v = d ++ [(k, v)].
Proof.
  unfold dict_mem. induction d as [|[k' v'] d IH]; simpl; [done|]. case_decide; [done|].
  intros H1. by rewrite IH.
Qed.
Lemma dict_mem_false {V} (d : dict V) k : dict_mem d k = false → k ∉ d.*1.
Proof.
  unfold dict_mem. intros H Hin. apply dict_get_keys in Hin as [v Hv]. by rewrite Hv in H.
Qed.

Lemma numbers_values eid (d : dict (string * Z * ActionReceiptV17)) :
  omap (λ r : string * Z * ActionReceiptV17, if bool_decide (r.1.1 = eid) then Some r.1.2 else None)
    (dict_values d) = numbers eid d.
Proof.
  unfold numbers, dict_values. induction d as [|[k v] d IH]; [done|].
  simpl. destruct (bool_decide _); [f_equal|]; exact IH.
Qed.

(** [Hop] is the whole of a run: what [P] says of its final state. *)
Definition refines {S A} (v : S → Abs) (fin : perm) (m : M S A) : Prop :=
  ∀ s, rtc (astep fin) (v s) (v (m s).2).

Lemma refines_reads {S A} (v : S → Abs) fin (m : M S A) : (∀ s, (m s).2 = s) → refines v fin m.
Proof. intros H s. by rewrite H. Qed.
Lemma refines_bind {S A B} (v : S → Abs) fin (m : M S A) (f : A → M S B) :
  refines v fin m → (∀ a, refines v fin (f a)) → refines v fin (m ≫= f).
Proof.
  intros Hm Hf s. unfold mbind, M_bind. specialize (Hm s).
  destruct (m s) as [[a|e] s1]; simpl in *; [etrans; [exact Hm|apply Hf]|done].
Qed.
Lemma refines_transaction {S A} (v : S → Abs) fin (m : M S A) :
  refines v fin m → refines v fin (transaction m).
Proof.
  intros Hm s. unfold transaction. specialize (Hm s). by destruct (m s) as [[a|e] s1].
Qed.

(** Reading the row of an effect. *)
Lemma mem_require_bind {B} k (f : Effect → M MemStore B) s :
  (Mem._require k ≫= f) s = match ms_effects s !! k with
    | Some row => f row s | None => (Err (EffectStoreError "effect_not_found"), s) end.
Proof. unfold Mem._require, mbind, M_bind, get_state. by destruct (ms_effects s !! k). Qed.

(** Pure steps of a run. *)
Ltac refine_pure :=
  lazymatch goal with
  | |- rtc ?R ?v0 (?v (snd ?run)) =>
    let T := type of run in
    let P := constr:(λ x : T, rtc R v0 (v (snd x))) in
    change (P run); run_rule P; cbv beta
  end.

Section mem.
Variable payload_hash : json → string.
Variable fin : perm.

Lemma mem_put id g : refines mem_view fin (Mem.put_approval id g).
Proof.
  intros s. unfold Mem.put_approval. refine_pure; [done|]. refine_pure. refine_pure; [done|].
  unfold _check_insertable in *. bool_to_prop.
  match goal with H : ¬ is_Some (ms_approvals s !! id) |- _ => apply eq_None_not_Some in H as Hn end.
  apply rtc_once. unfold mem_view. simpl. rewrite fmap_insert. unfold use_of_grant at 2. simpl.
  destruct (bool_decide (is_Some (ag_revoked_at g))); [done|].
  apply a_approve. by rewrite lookup_fmap, Hn.
Qed.

Lemma mem_revoke p id by_ reason now : refines mem_view fin (Mem.revoke_approval p id by_ reason now).
Proof.
  intros s. unfold Mem.revoke_approval. refine_pure.
  destruct (ms_approvals s !! id) as [g|] eqn:Hg; [|done].
  destruct (_ || _); [done|]. apply rtc_once. unfold mem_view. simpl. rewrite fmap_insert.
  apply (a_revoke fin _ (use_of_grant <$> ms_approvals s) _ id (use_of_grant g)). by rewrite lookup_fmap, Hg.
Qed.

Lemma mem_reserve eid now e : refines mem_view fin (Mem.reserve payload_hash eid now e).
Proof.
  intros s. unfold Mem.reserve. refine_pure. destruct (ms_effects s !! _) as [x|] eqn:Hx.
  - refine_pure; done.
  - apply rtc_once. unfold mem_view. simpl. by apply a_reserve.
Qed.

Lemma mem_attach k pre : refines mem_view fin (Mem.attach_pre_observation k pre).
Proof.
  intros s. unfold Mem.attach_pre_observation. rewrite mem_require_bind.
  destruct (ms_effects s !! k) as [row|] eqn:Hr; [|done].
  apply rtc_once. unfold mem_view. simpl. by apply a_observe.
Qed.

Lemma mem_store rid r : refines mem_view fin (Mem._store_receipt_locked rid r).
Proof.
  intros s. unfold Mem._store_receipt_locked. rewrite mem_require_bind.
  destruct (ms_effects s !! _) as [row|]; [|done].
  refine_pure. refine_pure; [done|]. apply rtc_once. unfold mem_view. simpl.
  rewrite dict_set_fresh by done. rewrite numbers_values.
  eapply (a_receipt _ _ _ (ms_receipts s)); [by apply dict_mem_false|]. symmetry. apply Permutation_cons_append.
Qed.

(** Consuming an approval is at most one abstract step, and the row it returns is stored. *)
Lemma mem_consume k row id now s :
  ms_effects s !! k = Some row →
  rtc (astep fin) (mem_view s) (mem_view (Mem.consume k row id now s).2)
  ∧ ∀ row' s', Mem.consume k row id now s = (Ok row', s') →
      ms_effects s' !! k = Some row' ∧ ef_state row' = ef_state row
      ∧ ef_state_reason row' = ef_state_reason row.
Proof.
  intros Hk. unfold Mem.consume.
  match goal with |- rtc ?R ?v0 (mem_view (snd ?run)) ∧ _ =>
    set (P := λ x : result Effect * MemStore, rtc R v0 (mem_view x.2) ∧ ∀ row' s', x = (Ok row', s') →
      ms_effects s' !! k = Some row' ∧ ef_state row' = ef_state row
      ∧ ef_state_reason row' = ef_state_reason row); change (P run) end.
  assert (∀ e, P (Err e, s)) as Herr by (intros e; by split).
  assert (P (Ok row, s)) as Hsame by (split; [done|]; intros row' s' H; by simplify_eq).
  destruct (negb (truthy id)); [exact Hsame|].
  run_rule P. run_rule P; [apply Herr|]. run_rule P; [apply Herr|].
  destruct (bool_decide (ef_approval_consumed_at row = None)) eqn:Hc; [|exact Hsame].
  run_rule P; [apply Herr|]. bool_to_prop. split.
  - apply rtc_once. unfold mem_view. simpl. rewrite fmap_insert.
    match goal with Hg : ms_approvals s !! _ = Some ?g |- _ =>
      pose proof (a_consume fin (ms_effects s) (use_of_grant <$> ms_approvals s) (ms_receipts s) k row
        (default "" id) (use_of_grant g) now Hk) as Hstep; simpl in Hstep;
      rewrite lookup_fmap, Hg in Hstep end.
    unfold use_of_grant at 2. simpl. rewrite bool_decide_false by done.
    apply Hstep; [|done|by apply bool_decide_eq_false_2|done].
    unfold consumed. rewrite Hc. apply bool_decide_eq_false_2. by intros [].
  - intros row' s' H'. injection H' as <- <-. simpl. by rewrite lookup_insert_eq.
Qed.

End mem.

Lemma mem_begin e ex fence now started : 
  refines mem_view (PAdmit (key_of e)) (Mem.begin_execution e ex fence now started).
Proof.
  intros s. unfold Mem.begin_execution. rewrite mem_require_bind.
  destruct (ms_effects s !! key_of e) as [row|] eqn:Hrow; [|done]. refine_pure; [done|].
  destruct (mem_consume (PAdmit (key_of e)) (key_of e) row (av_approval_id e) now s Hrow) as [Hc Hrow'].
  unfold mbind at 1, M_bind at 1.
  destruct (Mem.consume (key_of e) row (av_approval_id e) now s) as [[row'|err] s'] eqn:Hrun; [|exact Hc].
  destruct (Hrow' row' s' eq_refl) as (Hk & _). etrans; [exact Hc|]. cbn [snd]. refine_pure; [done|].
  apply rtc_once. unfold mem_view. simpl. apply a_admit; [done| |done]. bool_to_prop. done.
Qed.

Lemma mem_finalize k fz rid r now : refines mem_view (PFinal k fz) (Mem.finalize_with_receipt k fz rid r now).
Proof.
  intros s. unfold Mem.finalize_with_receipt. rewrite mem_require_bind.
  destruct (ms_effects s !! k) as [row|] eqn:Hrow; [|done]. refine_pure; [done|]. bool_to_prop.
  unfold Mem.set_effect. refine_pure. etrans; [|apply mem_store].
  apply rtc_once. unfold mem_view. simpl. by apply a_finalize.
Qed.

Definition mem_call (payload_hash : json → string) (c : call) (s : MemStore) : MemStore :=
  match c with
  | Put id g => (Mem.put_approval id g s).2
  | Revoke p id b r now _ => (Mem.revoke_approval p id b r now s).2
  | Reserve eid now e => (Mem.reserve payload_hash eid now e s).2
  | Begin e ex f now st => (Mem.begin_execution e ex f now st s).2
  | Attach k pre => (Mem.attach_pre_observation k pre s).2
  | Finalize k fz rid r now => (Mem.finalize_with_receipt k fz rid r now s).2
  | StoreReceipt rid r _ => (Mem.store_receipt rid r s).2
  end.

Lemma mem_call_refines payload_hash c s :
  rtc (astep (grants id c)) (mem_view s) (mem_view (mem_call payload_hash c s)).
Proof.
  destruct c; [apply mem_put|apply mem_revoke|apply mem_reserve|apply mem_begin|apply mem_attach
    |apply mem_finalize|apply mem_store].
Qed.

#[export] Instance in_memory_effects payload_hash : EffectStore MemStore := {
  view := mem_view;
  empty_store := mkMemStore ∅ [] ∅;
  run_call := mem_call payload_hash;
  normal := id;
  view_empty := eq_refl;
  call_refines := mem_call_refines payload_hash
}.

(** ** The durable repository *)
Definition use_of_row (r : ApprovalRow) : Use :=
  mkUse (ap_used_count r) (ap_max_effect_count r) (bool_decide (is_Some (ap_revoked_at r))).
Definition entry_of_row (kr : string * ReceiptRow) : receipt_entry :=
  (kr.1, (rr_effect_id kr.2, rr_attempt_number kr.2, rr_receipt kr.2)).
Definition db_view (s : DbStore) : Abs :=
  mkAbs (ds_effects s) (use_of_row <$> ds_approvals s) (entry_of_row <$> map_to_list (ds_receipts s)).

Lemma durable_require_bind {B} k (f : Effect → M DbStore B) s :
  (Durable._require_row k ≫= f) s = match ds_effects s !! k with
    | Some row => f row s | None => (Err (EffectStoreError "effect_not_found"), s) end.
Proof. unfold Durable._require_row, mbind, M_bind, get_state. by destruct (ds_effects s !! k). Qed.

Section durable.
Variable payload_hash : json → string.
Variable fin : perm.

Lemma durable_put id g : refines db_view fin (Durable.put_approval id g).
Proof.
  intros s. unfold Durable.put_approval. refine_pure; [done|].
  unfold mbind at 1, M_bind at 1, transaction, mbind at 1, M_bind at 1, get_state.
  unfold raise_if, mbind at 1, M_bind at 1.
  destruct (bool_decide (is_Some (ds_approvals s !! id))) eqn:Hn; [done|]. bool_to_prop.
  apply eq_None_not_Some in Hn. apply rtc_once. unfold db_view. simpl. rewrite fmap_insert.
  unfold use_of_row at 2. simpl. apply a_approve. by rewrite lookup_fmap, Hn.
Qed.

Lemma durable_revoke p id by_ reason now dbn : refines db_view fin (Durable.revoke_approval p id by_ reason now dbn).
Proof.
  apply refines_transaction. intros s. refine_pure.
  destruct (ds_approvals s !! id) as [r|] eqn:Hr; [|done]. destruct (_ && _); [|done].
  apply rtc_once. unfold db_view. simpl. rewrite fmap_insert.
  apply (a_revoke fin _ (use_of_row <$> ds_approvals s) _ id (use_of_row r)). by rewrite lookup_fmap, Hr.
Qed.

Lemma durable_insert k row :
  ef_state row = "reserved" → ef_approval_consumed_at row = None → ef_attempt_count row = 0 →
  refines db_view fin (Durable.insert_effect k row).
Proof.
  intros H1 H2 H3 s. unfold Durable.insert_effect. refine_pure.
  destruct (ds_effects s !! k) eqn:Hk; [done|]. refine_pure; [done|].
  apply rtc_once. unfold db_view. simpl. by apply a_reserve.
Qed.

Lemma durable_require_refines k : refines db_view fin (Durable._require_row k).
Proof.
  apply refines_reads. intros s. unfold Durable._require_row, mbind, M_bind, get_state.
  by destruct (ds_effects s !! k).
Qed.

Lemma durable_reserve eid now e : refines db_view fin (Durable.reserve payload_hash eid now e).
Proof.
  apply refines_transaction, refines_bind; [by apply durable_insert|]. intros created.
  apply refines_bind; [apply durable_require_refines|]. intros row.
  apply refines_bind; [by apply refines_reads|]. intros []. by apply refines_reads.
Qed.

Lemma durable_attach k pre : refines db_view fin (Durable.attach_pre_observation k pre).
Proof.
  apply refines_transaction. intros s. rewrite durable_require_bind.
  destruct (ds_effects s !! k) as [row|] eqn:Hr; [|done].
  apply rtc_once. unfold db_view. simpl. by apply a_observe.
Qed.

Lemma durable_consume k row id now s :
  ds_effects s !! k = Some row →
  rtc (astep fin) (db_view s) (db_view (Durable._consume_approval k row id now s).2).
Proof.
  intros Hk. unfold Durable._consume_approval. refine_pure.
  destruct (bool_decide (ef_approval_consumed_at row = None)) eqn:Hc.
  2:{ unfold raise_if. by case_match. }
  destruct (ds_approvals s !! id) as [r|] eqn:Hr; [|done]. refine_pure; [done|].
  unfold Durable.usable in *. bool_to_prop. apply rtc_once. unfold db_view. simpl. rewrite fmap_insert.
  pose proof (a_consume fin (ds_effects s) (use_of_row <$> ds_approvals s)
    (entry_of_row <$> map_to_list (ds_receipts s)) k row id (use_of_row r) now Hk) as Hstep.
  simpl in Hstep. rewrite lookup_fmap, Hr in Hstep.
  match goal with H : ap_revoked_at r = None |- _ => rename H into Hnone end.
  unfold use_of_row at 2. simpl. rewrite Hnone. apply Hstep; [|done| |done].
  - unfold consumed. rewrite Hc. by apply bool_decide_eq_false_2; intros [].
  - unfold use_of_row. simpl. rewrite Hnone. by apply bool_decide_eq_false_2; intros [].
Qed.

Lemma durable_cas k ex now : fin = PAdmit k → refines db_view fin (Durable._cas_to_executing k ex now).
Proof.
  intros Hfin s. unfold Durable._cas_to_executing. refine_pure.
  destruct (ds_effects s !! k) as [row|] eqn:Hr; [|done].
  destruct (_executable _ _) eqn:Hx; [|done]. apply rtc_once. unfold db_view. simpl. by apply a_admit.
Qed.

Lemma durable_begin e ex fence now :
  fin = PAdmit (key_of (ensure_hashes payload_hash e)) → refines db_view fin (Durable.begin_execution payload_hash e ex fence now).
Proof.
  intros Hfin. apply refines_transaction. intros s. rewrite durable_require_bind.
  destruct (ds_effects s !! _) as [row|] eqn:Hrow; [|done]. refine_pure; [done|].
  unfold mbind at 1, M_bind at 1.
  set (m := if truthy _ then _ else _).
  assert (rtc (astep fin) (db_view s) (db_view (m s).2)) as Hm.
  { subst m. destruct (truthy _); [by apply durable_consume|done]. }
  destruct (m s) as [[u|err] s1]; [|exact Hm]. etrans; [exact Hm|]. cbn [snd]. revert s1 Hm. intros s1 _.
  apply (refines_bind db_view fin); [by apply durable_cas|]. intros [row'|]; [by apply refines_reads|].
  apply refines_bind; [apply durable_require_refines|]. intros row'. by apply refines_reads.
Qed.

Lemma numbers_rows eid (l : list (string * ReceiptRow)) :
  omap (λ kr : string * ReceiptRow,
    if bool_decide (rr_effect_id kr.2 = eid) then Some (rr_attempt_number kr.2) else None) l
  = numbers eid (entry_of_row <$> l).
Proof.
  unfold numbers. induction l as [|[k v] l IH]; [done|].
  simpl. destruct (bool_decide _); [f_equal|]; exact IH.
Qed.

Lemma durable_insert_receipt ef rid r now : refines db_view fin (Durable._insert_receipt ef rid r now).
Proof.
  intros s. unfold Durable._insert_receipt. refine_pure. refine_pure; [done|]. bool_to_prop.
  match goal with H : ¬ is_Some _ |- _ => apply eq_None_not_Some in H as Hn end.
  rewrite numbers_rows. apply rtc_once. unfold db_view. simpl.
  eapply (a_receipt fin _ _ (entry_of_row <$> map_to_list (ds_receipts s)) _ rid (ef_effect_id ef)).
  - rewrite <- list_fmap_compose. intros ([k v] & Heq & Hin)%list_elem_of_fmap. simpl in Heq. subst k.
    apply elem_of_map_to_list in Hin. congruence.
  - rewrite map_to_list_insert, fmap_cons by done. unfold entry_of_row at 1. cbn. reflexivity.
Qed.

Lemma durable_store rid r now : refines db_view fin (Durable.store_receipt rid r now).
Proof.
  apply refines_transaction, refines_bind; [apply durable_require_refines|]. intros row.
  apply durable_insert_receipt.
Qed.
End durable.

Lemma durable_finalize k fz rid r now :
  refines db_view (PFinal k fz) (Durable.finalize_with_receipt k fz rid r now).
Proof.
  apply refines_transaction. intros s. refine_pure.
  destruct (ds_effects s !! k) as [row|] eqn:Hrow; [|done]. refine_pure; [done|]. bool_to_prop.
  unfold Durable.set_effect. refine_pure. etrans; [|apply durable_insert_receipt].
  apply rtc_once. unfold db_view. simpl. by apply a_finalize.
Qed.

Definition durable_call (payload_hash : json → string) (c : call) (s : DbStore) : DbStore :=
  match c with
  | Put id g => (Durable.put_approval id g s).2
  | Revoke p id b r now dbn => (Durable.revoke_approval p id b r now dbn s).2
  | Reserve eid now e => (Durable.reserve payload_hash eid now e s).2
  | Begin e ex f now _ => (Durable.begin_execution payload_hash e ex f now s).2
  | Attach k pre => (Durable.attach_pre_observation k pre s).2
  | Finalize k fz rid r now => (Durable.finalize_with_receipt k fz rid r now s).2
  | StoreReceipt rid r now => (Durable.store_receipt rid r now s).2
  end.

Lemma durable_call_refines payload_hash c s :
  rtc (astep (grants (ensure_hashes payload_hash) c)) (db_view s) (db_view (durable_call payload_hash c s)).
Proof.
  destruct c; [apply durable_put|apply durable_revoke|apply durable_reserve|by apply durable_begin
    |apply durable_attach|apply durable_finalize|apply durable_store].
Qed.

#[export] Instance durable_effects payload_hash : EffectStore DbStore := {
  view := db_view;
  empty_store := mkDbStore ∅ ∅ ∅;
  run_call := durable_call payload_hash;
  normal := ensure_hashes payload_hash;
  view_empty := eq_refl;
  call_refines := durable_call_refines payload_hash
}.
