(* ===== verification/EffectTheorems.v ===== *)
(** * EffectTheorems: the guarantees of effect stores

    Proved of the interface [EffectStore], hence of the in-memory and of the durable store:
    how often approvals are consumed, that an effect has one winner and a final outcome,
    and that receipts are immutable and numbered without gaps. *)
From S2P Require Import Prelude Collections Contracts Json Actions EffectStore EffectProps.
Open Scope Z_scope.

(** ** Sums over tables *)
Section total.
Context {K V} `{Countable K} (f : V → Z).
Definition total (m : gmap K V) : Z := sum_by (λ kv, f kv.2) (map_to_list m).

Lemma total_new m i x : m !! i = None → total (<[i := x]> m) = f x + total m.
Proof. intros Hi. unfold total. by rewrite (sum_by_perm _ _ _ (map_to_list_insert m i x Hi)). Qed.
Lemma total_old m i x y : m !! i = Some y → total (<[i := x]> m) = total m - f y + f x.
Proof.
  intros Hi. assert (total m = f y + total (delete i m)) as ->.
  { rewrite <- (insert_delete_id m i y Hi) at 1. apply total_new, lookup_delete_eq. }
  rewrite <- insert_delete_eq, total_new by apply lookup_delete_eq. lia.
Qed.
Lemma total_same m i x y : m !! i = Some y → f x = f y → total (<[i := x]> m) = total m.
Proof. intros Hi Hf. rewrite (total_old m i x y Hi), Hf. lia. Qed.
End total.

(** ** Attempt numbers *)
Lemma foldr_max_perm l1 l2 : l1 ≡ₚ l2 → foldr Z.max 0 l1 = foldr Z.max 0 l2.
Proof. induction 1; simpl; lia. Qed.
Lemma foldr_max_app l n : 0 <= n → foldr Z.max 0 (l ++ [n]) = Z.max (foldr Z.max 0 l) n.
Proof. intros Hn. induction l as [|x l IH]; simpl; lia. Qed.

Definition upto (n : nat) : list Z := Z.of_nat <$> seq 1 n.
Lemma upto_S n : upto (S n) = upto n ++ [Z.of_nat (S n)].
Proof. unfold upto. by rewrite seq_S, fmap_app. Qed.
Lemma next_upto l n : l ≡ₚ upto n → next_number l = Z.of_nat (S n).
Proof.
  intros Hl. unfold next_number. rewrite (foldr_max_perm _ _ Hl).
  assert (foldr Z.max 0 (upto n) = Z.of_nat n) as ->; [|lia].
  clear. induction n as [|n IH]; [done|]. rewrite upto_S, foldr_max_app, IH by lia. lia.
Qed.

Lemma numbers_perm eid rs rs' : rs ≡ₚ rs' → numbers eid rs ≡ₚ numbers eid rs'.
Proof. intros H. unfold numbers. by apply omap_Permutation. Qed.
Lemma numbers_cons eid x rs :
  numbers eid (x :: rs) = if bool_decide (x.2.1.1 = eid) then x.2.1.2 :: numbers eid rs else numbers eid rs.
Proof. unfold numbers. simpl. by destruct (bool_decide _). Qed.

(** ** The invariant of the specification *)
Definition used_up (e : Effect) : Z := if consumed e then 1 else 0.

Record ainv (a : Abs) : Prop := {
  ai_bound : ∀ id u, a_uses a !! id = Some u → 0 <= us_used u ∧ (us_used u = 0 ∨ us_used u <= us_max u);
  ai_total : total us_used (a_uses a) = total used_up (a_effects a);
  ai_rids : NoDup (a_receipts a).*1;
  ai_numbers : ∀ eid, numbers eid (a_receipts a) ≡ₚ upto (length (numbers eid (a_receipts a)))
}.

Lemma finalized_consumed fz now e : consumed (finalized fz now e) = consumed e.
Proof. unfold finalized. repeat case_match; done. Qed.

Lemma astep_inv fin a b : astep fin a b → ainv a → ainv b.
Proof.
  intros Hstep [Hb Ht Hr Hn].
  destruct Hstep as [es us rs id max Hid|es us rs id u Hid|es us rs k e Hk H1 H2 H3
    |es us rs k e id u now Hk Hc Hid Hrev Hlt|es us rs k e ex now Hk Hx Hadm|es us rs k e pre Hk
    |es us rs k e fz now Hk Hf Hfin|es us rs rs' rid eid receipt Hrid Hp]; simpl in *; split; simpl; try done.
  - intros id' u [[<- <-]|[_ Hu]]%lookup_insert_Some; [simpl; lia|by eapply Hb].
  - rewrite total_new by done. simpl. lia.
  - intros id' u' [[<- <-]|[_ Hu]]%lookup_insert_Some; [simpl; by eapply Hb|by eapply Hb].
  - erewrite total_old by done. simpl. lia.
  - rewrite total_new by done. unfold used_up at 1, consumed. rewrite H2.
    rewrite bool_decide_false by (by intros []). lia.
  - intros id' u' [[<- <-]|[_ Hu]]%lookup_insert_Some; [simpl|by eapply Hb].
    destruct (Hb id u Hid). lia.
  - erewrite !total_old by done. simpl. rewrite Ht. unfold used_up at 3 4. rewrite Hc.
    unfold consumed. simpl. lia.
  - by rewrite (total_same used_up es k _ e Hk).
  - by rewrite (total_same used_up es k _ e Hk).
  - rewrite (total_same used_up es k _ e Hk); [done|]. unfold used_up. by rewrite finalized_consumed.
  - rewrite Hp. simpl. by apply NoDup_cons.
  - intros eid'. pose proof (numbers_perm eid' _ _ Hp) as Hp'. rewrite numbers_cons in Hp'. simpl in Hp'.
    destruct (bool_decide (eid = eid')) eqn:He; [|by rewrite Hp'].
    bool_to_prop. subst eid'. rewrite Hp' at 1. rewrite Hp'. simpl. rewrite upto_S.
    rewrite (next_upto _ _ (Hn eid)). etrans; [apply perm_skip, (Hn eid)|].
    apply Permutation_cons_append.
Qed.

Lemma asteps_inv fin a b : rtc (astep fin) a b → ainv a → ainv b.
Proof. induction 1 as [|x y z Hxy _ IH]; [done|]. intros Ha. by eapply IH, astep_inv. Qed.

(** ** Held outcomes *)
(** What later calls do not change of an effect that may not be admitted. *)
Definition outcome_of (e : Effect) :=
  (ef_effect_id e, ef_state e, ef_state_reason e, ef_attempt_count e, ef_executor_id e,
   (ef_started_at e, ef_finished_at e, ef_external_id e, ef_post_observation e, ef_payload_hash e)).

Lemma astep_outcome fin a b k e :
  astep fin a b → a_effects a !! k = Some e → executable e = false →
  (finalizable e = true → ∀ fz, fin ≠ PFinal k fz) →
  ∃ e', a_effects b !! k = Some e' ∧ outcome_of e' = outcome_of e.
Proof.
  intros Hstep Hk Hx Hfin. destruct Hstep; simpl in *; try (by eexists);
    match goal with |- context [<[?k' := _]> ?es !! ?j] => destruct (decide (k' = j)) as [->|Hne];
      [rewrite lookup_insert_eq|rewrite lookup_insert_ne by done; by eexists] end; simplify_eq.
  - eexists. by split.
  - congruence.
  - eexists. by split.
  - by edestruct Hfin.
Qed.

Lemma outcome_flags e e' :
  outcome_of e' = outcome_of e → executable e' = executable e ∧ finalizable e' = finalizable e.
Proof. unfold outcome_of, executable, finalizable. intros H. simplify_eq. split; congruence. Qed.

Lemma asteps_outcome fin a b k e :
  rtc (astep fin) a b → a_effects a !! k = Some e → executable e = false →
  (finalizable e = true → ∀ fz, fin ≠ PFinal k fz) →
  ∃ e', a_effects b !! k = Some e' ∧ outcome_of e' = outcome_of e.
Proof.
  intros Hs. revert e. induction Hs as [a|a a1 b Hstep _ IH]; intros e Hk Hx Hfin; [by exists e|].
  destruct (astep_outcome _ _ _ _ _ Hstep Hk Hx Hfin) as (e1 & Hk1 & Ho1).
  destruct (outcome_flags _ _ Ho1) as [F1 F2].
  destruct (IH e1 Hk1) as (e2 & Hk2 & Ho2); [congruence|by rewrite F2|]. exists e2. split; congruence.
Qed.

(** Receipts are only added. *)
Lemma asteps_receipts fin a b x : rtc (astep fin) a b → x ∈ a_receipts a → x ∈ a_receipts b.
Proof.
  induction 1 as [|a a1 b Hstep _ IH]; [done|]. intros Hx. apply IH. destruct Hstep; simpl in *; try done.
  match goal with Hp : _ ≡ₚ _ |- _ => rewrite Hp end. by right.
Qed.

(** ** The theorems *)
Section theorems.
Context {S : Type} `{!EffectStore S}.

Definition run_calls (cs : list call) (s : S) : S := foldl (λ s c, run_call c s) s cs.

Lemma run_calls_inv cs s : ainv (view s) → ainv (view (run_calls cs s)).
Proof.
  revert s; induction cs as [|c cs IH]; intros s Hs; [done|]. apply IH.
  eapply asteps_inv; [apply call_refines|done].
Qed.

Lemma empty_inv : ainv (view (empty_store : S)).
Proof.
  rewrite view_empty. split; simpl; [|done|constructor|done]. intros id u Hu. by rewrite lookup_empty in Hu.
Qed.

(** Of any store: the uses of approvals, the outcome of an effect, the receipts. *)
Lemma store_outcome (cs : list call) (s : S) (k : effect_key_t) (e : Effect) :
  a_effects (view s) !! k = Some e → executable e = false →
  (finalizable e = true → ∀ c, c ∈ cs → finalizes c ≠ Some k) →
  ∃ e', a_effects (view (run_calls cs s)) !! k = Some e' ∧ outcome_of e' = outcome_of e.
Proof.
  revert s e; induction cs as [|c cs IH]; intros s e Hk Hx Hfin; [by exists e|].
  destruct (asteps_outcome _ _ _ k e (call_refines c s) Hk Hx) as (e1 & Hk1 & Ho1).
  { intros Hf fz Hg. apply (Hfin Hf c); [by left|]. destruct c; simpl in *; congruence. }
  destruct (outcome_flags _ _ Ho1) as [F1 F2].
  destruct (IH (run_call c s) e1 Hk1) as (e2 & Hk2 & Ho2); [congruence| |].
  { intros Hf c' Hc'. apply Hfin; [congruence|by right]. }
  exists e2. split; [exact Hk2|congruence].
Qed.

Lemma store_receipts_grow (cs : list call) (s : S) x :
  x ∈ a_receipts (view s) → x ∈ a_receipts (view (run_calls cs s)).
Proof.
  revert s; induction cs as [|c cs IH]; intros s Hx; [done|]. apply IH.
  eapply asteps_receipts; [apply call_refines|exact Hx].
Qed.

Lemma store_inv (cs : list call) : ainv (view (run_calls cs (empty_store : S))).
Proof. apply run_calls_inv, empty_inv. Qed.
End theorems.

(** Sums and lookups through the views. *)
Lemma total_fmap {K V W} `{Countable K} (g : V → W) (f : W → Z) (m : gmap K V) :
  total f (g <$> m) = total (λ v, f (g v)) m.
Proof.
  unfold total. rewrite map_to_list_fmap. induction (map_to_list m) as [|[k v] l IH]; [done|].
  simpl. f_equal. exact IH.
Qed.

Section stores.
Variable payload_hash : json → string.

(** Any sequence of calls on a store. *)
Definition run_durable (cs : list call) (s : DbStore) : DbStore :=
  foldl (λ s c, durable_call payload_hash c s) s cs.
Definition run_mem (cs : list call) (s : MemStore) : MemStore :=
  foldl (λ s c, mem_call payload_hash c s) s cs.

(** C6: Approvals are consumed exactly: after any calls on the durable repository, an
    approval that was used at all was used at most max_effect_count times, and the uses of
    all approvals add up to the number of effects that have consumed one; the same holds of
    the in-memory store. *)
Theorem approvals_are_consumed_exactly (cs : list call) :
  (let s := run_durable cs (mkDbStore ∅ ∅ ∅) in
   (∀ id r, ds_approvals s !! id = Some r →
      0 <= ap_used_count r ∧ (ap_used_count r = 0 ∨ ap_used_count r <= ap_max_effect_count r))
   ∧ total ap_used_count (ds_approvals s) = total used_up (ds_effects s))
  ∧ let s := run_mem cs (mkMemStore ∅ [] ∅) in
    (∀ id g, ms_approvals s !! id = Some g →
       0 <= ag_used_count g ∧ (ag_used_count g = 0 ∨ ag_used_count g <= ag_max_effect_count g))
    ∧ total ag_used_count (ms_approvals s) = total used_up (ms_effects s).
Proof.
  split; intros s.
  - destruct (store_inv (EffectStore0 := durable_effects payload_hash) cs) as [Hb Ht _ _]. split.
    + intros id r Hr. apply (Hb id (use_of_row r)).
      change ((use_of_row <$> ds_approvals s) !! id = Some (use_of_row r)). by rewrite lookup_fmap, Hr.
    + change (total us_used (use_of_row <$> ds_approvals s) = total used_up (ds_effects s)) in Ht.
      by rewrite total_fmap in Ht.
  - destruct (store_inv (EffectStore0 := in_memory_effects payload_hash) cs) as [Hb Ht _ _]. split.
    + intros id g Hg. apply (Hb id (use_of_grant g)).
      change ((use_of_grant <$> ms_approvals s) !! id = Some (use_of_grant g)). by rewrite lookup_fmap, Hg.
    + change (total us_used (use_of_grant <$> ms_approvals s) = total used_up (ms_effects s)) in Ht.
      by rewrite total_fmap in Ht.
Qed.

(** C5: An effect has a single winner and a final outcome: an effect that is not executable
    (it is executing, its outcome is unknown, it succeeded, or it ended other than provably
    not applied) keeps its state, reason, attempt count, executor, times, external id,
    payload hash and post-observation ([outcome_of]) through any calls of any callers, in
    either store, except that an executing or unknown one may be finalized.  So no second
    execution is admitted while one is under way, and a succeeded effect never runs again.
    The pre-observation is not part of this: [attach_pre_observation] replaces it in any
    state. *)
Theorem effects_have_one_winner (cs : list call) (k : effect_key_t) (e : Effect) (d : DbStore) (m : MemStore) :
  executable e = false → (finalizable e = true → ∀ c, c ∈ cs → finalizes c ≠ Some k) →
  (ds_effects d !! k = Some e →
     ∃ e', ds_effects (run_durable cs d) !! k = Some e' ∧ outcome_of e' = outcome_of e)
  ∧ (ms_effects m !! k = Some e →
     ∃ e', ms_effects (run_mem cs m) !! k = Some e' ∧ outcome_of e' = outcome_of e).
Proof.
  intros Hx Hfin. split; intros Hk.
  - exact (store_outcome (EffectStore0 := durable_effects payload_hash) cs d k e Hk Hx Hfin).
  - exact (store_outcome (EffectStore0 := in_memory_effects payload_hash) cs m k e Hk Hx Hfin).
Qed.

(** Receipts are immutable and numbered without gaps: once stored, a receipt of the
    durable repository stays as it is through any calls, and the attempt numbers of an
    effect's receipts are 1, 2, ..., n, each once. *)
Theorem receipts_are_immutable_and_numbered (cs1 cs2 : list call) :
  let s := run_durable cs1 (mkDbStore ∅ ∅ ∅) in
  (∀ rid row, ds_receipts s !! rid = Some row → ∃ row', ds_receipts (run_durable cs2 s) !! rid = Some row'
     ∧ entry_of_row (rid, row') = entry_of_row (rid, row))
  ∧ ∀ eid, numbers eid (entry_of_row <$> map_to_list (ds_receipts s))
      ≡ₚ upto (length (numbers eid (entry_of_row <$> map_to_list (ds_receipts s)))).
Proof.
  intros s. split.
  - intros rid row Hrow.
    pose proof (store_receipts_grow (EffectStore0 := durable_effects payload_hash) cs2 s (entry_of_row (rid, row))) as Hg.
    simpl in Hg. assert (entry_of_row (rid, row) ∈ entry_of_row <$> map_to_list (ds_receipts s)) as Hin.
    { by apply list_elem_of_fmap_2, elem_of_map_to_list. }
    apply Hg, list_elem_of_fmap in Hin as ([rid' row'] & Heq & Hin'). apply elem_of_map_to_list in Hin'.
    assert (rid' = rid) as -> by (by injection Heq). exists row'. by split.
  - exact (ai_numbers _ (store_inv (EffectStore0 := durable_effects payload_hash) cs1)).
Qed.
End stores.

(** ** A sample effect *)
Module EffectSample.
Definition hash (j : json) : string := "digest".
Definition envelope (approval : option string) : ActionEnvelope :=
  mkActionEnvelope "act1" None None None "p" "agent" "files" "1" "write" "/tmp/x" [] "ph" [] "consequential"
    "low" "key" "key" 1 0 None "v17-policy-1" approval 30.
Definition grant : ApprovalGrant :=
  mkApprovalGrant "p" None "operator" "files" "1" "write" "/tmp/x" "ph" None 1 0 1000 None "v17-policy-1" [] 0.
Definition k : effect_key_t := ("p", "key").
Definition setup : list call :=
  [Put "a1" grant; Reserve "ef1" 10 (envelope None); Begin (envelope None) "exe1" None 20 20].
Definition durable : DbStore := run_durable hash setup (mkDbStore ∅ ∅ ∅).
Definition memory : MemStore := run_mem hash setup (mkMemStore ∅ [] ∅).
Definition running : Effect :=
  admitted "exe1" 20 (reserved hash "ef1" 10 (envelope None)).
Definition again : list call := [Begin (envelope (Some "a1")) "exe2" None 30 30].

Lemma effects_have_one_winner_witness :
  (∃ e', ds_effects (run_durable hash again durable) !! k = Some e' ∧ outcome_of e' = outcome_of running)
  ∧ ∃ e', ms_effects (run_mem hash again memory) !! k = Some e' ∧ outcome_of e' = outcome_of running.
Proof.
  destruct (effects_have_one_winner hash again k running durable memory) as [Hd Hm].
  - reflexivity.
  - intros _ c Hc. apply list_elem_of_singleton in Hc as ->. discriminate.
  - split; [apply Hd|apply Hm]; vm_compute; reflexivity.
Defined.

(** The memory store consumes an approval before it finds the effect not executable and does
    not take it back; the durable repository rolls the consumption back.  Its documentation
    says it mirrors the durable admission semantics, exact approval consumption included. *)
Lemma memory_consumes_on_refusal :
  (Mem.begin_execution (envelope (Some "a1")) "exe2" None 30 30 memory).1
    = Err (EffectConflictError "effect_already_executing")
  ∧ (Durable.begin_execution hash (envelope (Some "a1")) "exe2" None 30 durable).1
    = Err (EffectConflictError "effect_already_executing")
  ∧ ag_used_count <$> ms_approvals (run_mem hash again memory) !! "a1" = Some 1
  ∧ ap_used_count <$> ds_approvals (run_durable hash again durable) !! "a1" = Some 0.
Proof. split_and!; vm_compute; reflexivity. Qed.

(** The observation made before an effect can be replaced after it succeeded. *)
Definition succeeded_store : MemStore :=
  mkMemStore {[ k := running <| ef_state := "succeeded" |> ]} [] ∅.
Lemma pre_observation_is_replaced :
  let s := run_mem hash [Attach k [("seen", JBool true)]] succeeded_store in
  (ef_state <$> ms_effects s !! k) = Some "succeeded"
  ∧ (ef_pre_observation <$> ms_effects succeeded_store !! k) = Some []
  ∧ (ef_pre_observation <$> ms_effects s !! k) = Some [("seen", JBool true)].
Proof. vm_compute. done. Qed.
End EffectSample.
