(* ===== verification/Gateway.v ===== *)
(** * Gateway: the consequential tool gateway (src/swarm/tools/v17_gateway.py)

    [execute_envelope] takes an action envelope through authorization, policy, fences, exact
    approval, reservation and admission, has the integration adapter execute it, and records
    the outcome.  The gateway is a program ([Programs]) over its collaborators: the effect
    store, the site authority, the adapter, the clock and fresh ids.  Each call of one of
    them is an operation [gop], so that any number of gateways over one store interleave
    call by call.

    [StoreApi] is the interface of the store the gateway is given (both stores of
    tools/effects.py implement it); [IntegrationAdapter] is the protocol of
    tools/adapters/base.py over a state [X] of the outside world.  An envelope is filled in
    once by [ensure_hashes] and not changed afterwards.  Whitespace that pydantic strips
    from string fields is stripped where a field does not come from a validated model. *)
From S2P Require Import Prelude Programs Collections Contracts Json Actions Authority EffectStore.
Open Scope Z_scope.

(** What the environment supplies to an operation: the clock before and within it and a
    fresh identifier. *)
Record Input := mkInput { in_now : Z; in_later : Z; in_id : string }.

(** ** Collaborators *)
Class StoreApi (S : Type) := {
  api_put_approval : string → ApprovalGrant → M S ApprovalGrant;
  api_revoke_approval : string → string → string → string → Input → M S bool;
  api_get_approval : string → string → Input → S → result (option ApprovalGrant);
  api_get : effect_key_t → S → option Effect;
  api_reserve : Input → ActionEnvelope → M S (Effect * bool);
  api_begin_execution : Input → ActionEnvelope → string → M S Effect;
  api_attach_pre_observation : effect_key_t → dict json → M S Effect;
  api_finalize_with_receipt : effect_key_t → Finalization → string → ActionReceiptV17 → Input → M S ActionReceiptV17;
  api_terminal_receipt : string → string → S → option ActionReceiptV17;
  api_list_receipts : string → string → S → list ActionReceiptV17
}.

Record AdapterManifest := mkAdapterManifest {
  am_integration_id : string;
  am_integration_version : string;
  am_adapter_class : string;
  am_read_data_classes : list string;
  am_write_data_classes : list string;
  am_scopes : list string;
  am_secrets_required : list string;
  am_network_allowed : bool;
  am_filesystem_allowed : bool;
  am_filesystem_roots : list string;
  am_side_effect_class : string;
  am_risk_class : string;
  am_sandbox_required : bool;
  am_host_requirements : list string;
  am_user_interaction_consequential : bool
}.

Record IntegrationAdapter (X : Type) := mkAdapter {
  ia_manifest : AdapterManifest;
  ia_normalize : Input → dict json → M X ActionEnvelope;
  ia_validate : ActionEnvelope → M X ();
  ia_observe_pre_state : Input → ActionEnvelope → M X (dict json);
  ia_execute : Input → ActionEnvelope → M X (dict json);
  ia_observe_post_state : Input → ActionEnvelope → dict json → M X (dict json);
  ia_reconcile : Input → ActionEnvelope → list ActionReceiptV17 → M X (dict json)
}.
Arguments mkAdapter {X}.
Arguments ia_manifest {X}. Arguments ia_normalize {X}. Arguments ia_validate {X}.
Arguments ia_observe_pre_state {X}. Arguments ia_execute {X}.
Arguments ia_observe_post_state {X}. Arguments ia_reconcile {X}.

(** ** Operations *)
Section gateway.
Context {X : Type}.
Variable payload_hash : json → string.

Inductive gop : Type → Type :=
| OPut (id : string) (grant : ApprovalGrant) : gop ApprovalGrant
| ORevoke (project_id id revoked_by reason : string) : gop bool
| OGetApproval (id project_id : string) : gop (option ApprovalGrant)
| OGet (k : effect_key_t) : gop (option Effect)
| OReserve (e : ActionEnvelope) : gop (Effect * bool)
| OBegin (e : ActionEnvelope) (executor_id : string) : gop Effect
| OAttach (k : effect_key_t) (pre : dict json) : gop Effect
| OFinalize (k : effect_key_t) (fz : Finalization) (rid : string) (r : ActionReceiptV17) : gop ActionReceiptV17
| OTerminal (k : effect_key_t) : gop (option ActionReceiptV17)
| OList (k : effect_key_t) : gop (list ActionReceiptV17)
| ONormalize (a : IntegrationAdapter X) (request : dict json) : gop ActionEnvelope
| OValidate (a : IntegrationAdapter X) (e : ActionEnvelope) : gop ()
| OObservePre (a : IntegrationAdapter X) (e : ActionEnvelope) : gop (dict json)
| OExecute (a : IntegrationAdapter X) (e : ActionEnvelope) : gop (dict json)
| OObservePost (a : IntegrationAdapter X) (e : ActionEnvelope) (result : dict json) : gop (dict json)
| OReconcile (a : IntegrationAdapter X) (e : ActionEnvelope) (prior : list ActionReceiptV17) : gop (dict json)
| ORequireEpoch (site_id : string) (epoch : Z) : gop SiteAuthority
| ONow : gop Z
| ONewId (prefix : string) : gop string.

Abbreviation gprog := (prog gop).

Record Gateway := mkGateway {
  gw_adapter : IntegrationAdapter X;
  gw_project_id : string;
  gw_allowed_scopes : list string;
  gw_current_lease_generation : Z;
  gw_current_cancellation_generation : Z;
  gw_max_risk_without_approval : string;
  gw_site_authority : bool;
  gw_site_id : option string
}.
Variable self : Gateway.

Definition put_approval (id : string) (grant : ApprovalGrant) : gprog ApprovalGrant :=
  praise_if (negb (bool_decide (ag_project_id grant = gw_project_id self)))
    (ApprovalInvalidError "approval_project_mismatch");;
  call (OPut id grant).

Definition revoke_approval (approval_id revoked_by reason : string) : gprog bool :=
  call (ORevoke (gw_project_id self) approval_id revoked_by reason).

(** The operator's approval of exactly this envelope; the id is the model's default. *)
Definition make_approval (envelope : ActionEnvelope) (grantor : string)
    (expires_in_seconds max_effect_count : Z) : gprog ApprovalGrant :=
  let e := ensure_hashes payload_hash envelope in
  now ← call ONow;
  id ← call (ONewId "apr_");
  created ← call ONow;
  put_approval id (mkApprovalGrant (av_project_id e) (Some (av_actor e)) grantor
    (av_integration_id e) (av_integration_version e) (av_operation e) (av_destination e)
    (av_payload_hash e) (Some (av_effect_key e)) max_effect_count 0
    (now + expires_in_seconds * 1000000) None (av_policy_version e) [] created).

(** ** Guards *)
Definition consequential (e : ActionEnvelope) : bool :=
  one_of (av_side_effect_class e) ["consequential"; "irreversible"].

Definition _risk_rank (risk : string) : option Z :=
  dict_get [("low", 0); ("medium", 1); ("high", 2); ("critical", 3)] risk.

Definition subset (l1 l2 : list string) : bool := forallb (λ x, one_of x l2) l1.

Definition _authorize_project (e : ActionEnvelope) : gprog () :=
  praise_if (negb (bool_decide (av_project_id e = gw_project_id self)))
    (ToolAuthorizationError "wrong_project");;
  let missing := List.filter (λ x, negb (one_of x (gw_allowed_scopes self))) (av_requested_scopes e) in
  praise_if (negb (bool_decide (missing = [])))
    (ToolAuthorizationError ("denied_scopes:["
       +:+ join ", " (str_repr <$> sort_by str_leb (remove_dups missing)) +:+ "]"));;
  let scopes := am_scopes (ia_manifest (gw_adapter self)) in
  if negb (subset scopes (gw_allowed_scopes self ++ av_requested_scopes e)) then
    praise_if (negb (subset scopes (gw_allowed_scopes self))) (ToolAuthorizationError "adapter_scope_denied")
  else mret ().

Definition _evaluate_policy (e : ActionEnvelope) : gprog () :=
  praise_if (consequential e
      && (default 0 (_risk_rank (gw_max_risk_without_approval self)) <? default 99 (_risk_rank (av_risk_class e)))
      && negb (truthy (av_approval_id e)))
    (PolicyDeniedError "consequential_requires_approval").

Definition needs_approval (e : ActionEnvelope) : bool :=
  consequential e
  || (default 0 (_risk_rank (gw_max_risk_without_approval self)) <? default 0 (_risk_rank (av_risk_class e))).

(** The field-by-field comparison of the approval with the envelope. *)
Definition binds_exactly (grant : ApprovalGrant) (e : ActionEnvelope) : gprog () :=
  praise_if (negb (bool_decide (ag_integration_id grant = av_integration_id e)))
    (ApprovalInvalidError "approval_integration_mismatch");;
  praise_if (negb (bool_decide (ag_integration_version grant = av_integration_version e)))
    (ApprovalInvalidError "approval_version_mismatch");;
  praise_if (negb (bool_decide (ag_operation grant = av_operation e)))
    (ApprovalInvalidError "approval_operation_mismatch");;
  praise_if (negb (bool_decide (ag_destination grant = av_destination e)))
    (ApprovalInvalidError "approval_destination_mismatch");;
  praise_if (negb (bool_decide (ag_payload_hash grant = av_payload_hash e)))
    (ApprovalInvalidError "approval_payload_mismatch");;
  praise_if (truthy (ag_effect_key grant) && negb (bool_decide (ag_effect_key grant = Some (av_effect_key e))))
    (ApprovalInvalidError "approval_effect_key_mismatch");;
  praise_if (negb (bool_decide (ag_policy_version grant = av_policy_version e)))
    (ApprovalInvalidError "approval_policy_version_mismatch").

(** [existing] has consumed the approval [id] already. *)
Definition consumed_by (existing : option Effect) (id : string) : bool :=
  match existing with
  | Some ef => bool_decide (is_Some (ef_approval_consumed_at ef)) && bool_decide (ef_approval_id ef = Some id)
  | None => false
  end.

Definition _require_exact_approval (e : ActionEnvelope) (existing : option Effect) : gprog () :=
  if negb (needs_approval e) then mret ()
  else
    praise_if (negb (truthy (av_approval_id e))) (ApprovalInvalidError "approval_required");;
    let id := default "" (av_approval_id e) in
    found ← call (OGetApproval id (av_project_id e));
    grant ← prequire found (ApprovalInvalidError "unknown_approval");
    now ← call ONow;
    praise_if (negb (grant_active grant now (consumed_by existing id)))
      (ApprovalInvalidError "approval_expired_or_revoked_or_exhausted");;
    binds_exactly grant e.

Definition _check_generations (e : ActionEnvelope) : gprog () :=
  praise_if (negb (av_lease_generation e =? gw_current_lease_generation self))
    (StaleLeaseError "stale_lease_generation");;
  praise_if (negb (av_cancellation_generation e =? gw_current_cancellation_generation self))
    (CancellationFenceError "cancellation_generation_mismatch").

Definition _check_site_epoch (e : ActionEnvelope) : gprog () :=
  match gw_site_authority self, gw_site_id self with
  | true, Some site =>
    match av_site_epoch e with
    | Some epoch => call (ORequireEpoch site epoch);; mret ()
    | None => praise_if (consequential e) (StaleEpochError "site_epoch_required_for_effect")
    end
  | _, _ => mret ()
  end.

(** ** Outcomes *)
Definition _outcome_from_result (res : dict json) : string :=
  match dict_get res "outcome" with Some j => py_str j | None => "succeeded" end.

(** [d.get(key)] on the result of an adapter. *)
Definition field_of (d : dict json) (key : string) : json := default JNull (dict_get d key).

Definition _authorized_artifacts (post : dict json) : list string :=
  let res := match field_of post "result" with JObj d => d | _ => post end in
  let art prefix key := if py_truthy (field_of res key) then [prefix +:+ py_str (field_of res key)] else [] in
  art "file:" "path" ++ art "ext:" "external_id" ++ art "url:" "navigated_to".

(** A field of type [str | None] of a pydantic model. *)
Definition optional_str (j : json) : result (option string) :=
  match j with
  | JNull => Ok None
  | JStr s => Ok (Some s)
  | _ => Err (ValidationError "Input should be a valid string")
  end.

(** What [_finalize] is given beside the effect. *)
Record Ending := mkEnding {
  en_state : string;
  en_pre : dict json;
  en_post : dict json;
  en_started : option Z;
  en_external_id : json;
  en_reconciliation : option (dict json);
  en_reconciliation_state : string;
  en_artifacts : list string
}.

Definition evidence_digest (pre post : dict json) (outcome : string) : string :=
  payload_hash (JObj [("pre", JObj pre); ("post", JObj post); ("outcome", JStr outcome)]).

(** The receipt with its id. *)
Definition _build_receipt (e : ActionEnvelope) (effect_id : string) (en : Ending)
    (external_id : option string) : gprog (string * ActionReceiptV17) :=
  finished ← call ONow;
  attempt ← call (ONewId "aat_");
  rid ← call (ONewId "arc_");
  mret (rid, mkActionReceipt (av_action_id e) (av_effect_key e) (Some effect_id) (av_approval_id e)
    (av_project_id e) (av_integration_id e) (av_integration_version e) (av_operation e)
    (av_destination e) (en_pre en) (en_post en) (en_started en) (Some finished)
    (strip <$> external_id) (en_state en) (en_reconciliation_state en) 0 [attempt]
    (Some (evidence_digest (en_pre en) (en_post en) (en_state en))) (strip <$> en_artifacts en)).

Definition _finalize (e : ActionEnvelope) (effect_id : string) (en : Ending) : gprog ActionReceiptV17 :=
  external_id ← Done (optional_str (en_external_id en));
  '(rid, receipt) ← _build_receipt e effect_id en external_id;
  call (OFinalize (key_of e)
    (mkFinalization (en_state en) None (Some (en_post en)) external_id (en_reconciliation en)) rid receipt).

Definition _terminal_or_fail (e : ActionEnvelope) : gprog ActionReceiptV17 :=
  terminal ← call (OTerminal (key_of e));
  prequire terminal (ReconciliationRequiredError "succeeded_effect_missing_receipt").

Definition _reconcile_unknown (e : ActionEnvelope) (effect : Effect) : gprog ActionReceiptV17 :=
  prior ← call (OList (key_of e));
  res ← call (OReconcile (gw_adapter self) e prior);
  let state := match dict_get res "state" with Some j => py_str j | None => "unknown" end in
  if one_of state ["succeeded"; "failed"] then
    _finalize e (ef_effect_id effect)
      (mkEnding state (ef_pre_observation effect) res (ef_started_at effect)
         (if bool_decide (state = "succeeded") then field_of res "external_id" else JNull)
         (Some [("status", JStr "reconciled"); ("result", JObj res)]) "reconciled" [])
  else praise (ReconciliationRequiredError "external_outcome_still_unknown").

Definition reconcile (envelope : ActionEnvelope) : gprog ActionReceiptV17 :=
  let e := ensure_hashes payload_hash envelope in
  found ← call (OGet (key_of e));
  effect ← prequire found (EffectConflictError "effect_not_found");
  _reconcile_unknown e effect.

(** ** The pipeline *)
(** Steps 6 to 8: the effect has been admitted. *)
Definition run_adapter (e : ActionEnvelope) : gprog ActionReceiptV17 :=
  pre ← call (OObservePre (gw_adapter self) e);
  effect ← call (OAttach (key_of e) pre);
  started ← call ONow;
  executed ← ptry (res ← call (OExecute (gw_adapter self) e); mret (inl res)) (λ exc, mret (inr exc));
  match executed with
  | inr exc =>
    _finalize e (ef_effect_id effect)
      (mkEnding "failed" pre [("error", JStr (exn_message exc))] (Some started) JNull None "none" [])
  | inl res =>
    post ← call (OObservePost (gw_adapter self) e res);
    let outcome := _outcome_from_result res in
    if bool_decide (outcome = "unknown") then
      _finalize e (ef_effect_id effect)
        (mkEnding "unknown" pre post (Some started) (field_of res "external_id")
           (Some [("status", JStr "pending"); ("steps", JList [JStr "poll_external"; JStr "confirm"])])
           "pending" [])
    else if one_of outcome ["denied"; "cancelled"] then
      _finalize e (ef_effect_id effect) (mkEnding outcome pre post (Some started) JNull None "none" [])
    else
      _finalize e (ef_effect_id effect)
        (mkEnding "succeeded" pre post (Some started) (field_of res "external_id") None "none"
           (_authorized_artifacts post))
  end.

(** Step 5: reserve, then admission; [inl] is a receipt to return at once. *)
Definition admit_effect (e : ActionEnvelope) : gprog (ActionReceiptV17 + Effect) :=
  call (OReserve e);;
  executor_id ← call (ONewId "exe_");
  ptry (effect ← call (OBegin e executor_id); mret (inr effect)) (λ exc,
    match exc with
    | EffectConflictError msg =>
      if contains "unknown" msg then praise (ReconciliationRequiredError msg)
      else if contains "succeeded" msg then (r ← _terminal_or_fail e; mret (inl r))
      else praise exc
    | EffectStoreError msg =>
      if bool_decide (msg = "approval_not_consumable")
      then praise (ApprovalInvalidError "approval_expired_or_revoked_or_exhausted")
      else praise exc
    | _ => praise exc
    end).

(** Steps 4 to 8. *)
Definition approve_and_run (e : ActionEnvelope) (existing : option Effect) : gprog ActionReceiptV17 :=
  _require_exact_approval e existing;;
  admission ← admit_effect e;
  match admission with
  | inl receipt => mret receipt
  | inr _ => run_adapter e
  end.

Definition execute_envelope (envelope : ActionEnvelope) : gprog ActionReceiptV17 :=
  let e := ensure_hashes payload_hash envelope in
  call (OValidate (gw_adapter self) e);;
  _authorize_project e;;
  _evaluate_policy e;;
  _check_generations e;;
  _check_site_epoch e;;
  existing ← call (OGet (key_of e));
  match existing with
  | Some effect =>
    if bool_decide (ef_state effect = "succeeded") then _terminal_or_fail e
    else if bool_decide (ef_state effect = "unknown") then _reconcile_unknown e effect
    else approve_and_run e existing
  | None => approve_and_run e existing
  end.

Definition execute_request (request : dict json) : gprog ActionReceiptV17 :=
  envelope ← call (ONormalize (gw_adapter self) request);
  execute_envelope envelope.
End gateway.

(** ** The shared state of gateways *)
Record World (S X : Type) := mkWorld {
  wd_store : S;
  wd_authority : AuthorityService;
  wd_external : X
}.
Arguments mkWorld {S X}. Arguments wd_store {S X}. Arguments wd_authority {S X}.
Arguments wd_external {S X}.

Section perform.
Context {S X : Type} `{!StoreApi S}.
Variable authority_hash : string → Z → string → string → string.

Definition on_store {A} (m : M S A) : M (World S X) A := λ w,
  let '(r, s) := m (wd_store w) in (r, mkWorld s (wd_authority w) (wd_external w)).
Definition on_external {A} (m : M X A) : M (World S X) A := λ w,
  let '(r, x) := m (wd_external w) in (r, mkWorld (wd_store w) (wd_authority w) x).
Definition on_authority {A} (m : M AuthorityService A) : M (World S X) A := λ w,
  let '(r, a) := m (wd_authority w) in (r, mkWorld (wd_store w) a (wd_external w)).

Definition perform (R : Type) (o : gop R) (i : Input) (w : World S X) : result R * World S X :=
  match o in gop R return result R * World S X with
  | OPut id g => on_store (api_put_approval id g) w
  | ORevoke p id b r => on_store (api_revoke_approval p id b r i) w
  | OGetApproval id p => (api_get_approval id p i (wd_store w), w)
  | OGet k => (Ok (api_get k (wd_store w)), w)
  | OReserve e => on_store (api_reserve i e) w
  | OBegin e ex => on_store (api_begin_execution i e ex) w
  | OAttach k pre => on_store (api_attach_pre_observation k pre) w
  | OFinalize k fz rid r => on_store (api_finalize_with_receipt k fz rid r i) w
  | OTerminal k => (Ok (api_terminal_receipt k.1 k.2 (wd_store w)), w)
  | OList k => (Ok (api_list_receipts k.1 k.2 (wd_store w)), w)
  | ONormalize a req => on_external (ia_normalize a i req) w
  | OValidate a e => on_external (ia_validate a e) w
  | OObservePre a e => on_external (ia_observe_pre_state a i e) w
  | OExecute a e => on_external (ia_execute a i e) w
  | OObservePost a e res => on_external (ia_observe_post_state a i e res) w
  | OReconcile a e prior => on_external (ia_reconcile a i e prior) w
  | ORequireEpoch site epoch => on_authority (require_epoch authority_hash site epoch "effect") w
  | ONow => (Ok (in_now i), w)
  | ONewId prefix => (Ok (prefix +:+ in_id i), w)
  end.
End perform.

#[export] Instance mem_api (payload_hash : json → string) : StoreApi MemStore := {
  api_put_approval := Mem.put_approval;
  api_revoke_approval p id b r i := Mem.revoke_approval p id b r (in_now i);
  api_get_approval id p i s := Ok (Mem.get_approval id p s);
  api_get := Mem.get;
  api_reserve i e := Mem.reserve payload_hash ("aef_" +:+ in_id i) (in_now i) e;
  api_begin_execution i e ex := Mem.begin_execution e ex None (in_now i) (in_later i);
  api_attach_pre_observation := Mem.attach_pre_observation;
  api_finalize_with_receipt k fz rid r i := Mem.finalize_with_receipt k fz rid r (in_now i);
  api_terminal_receipt := Mem.terminal_receipt;
  api_list_receipts := Mem.list_receipts
}.

#[export] Instance durable_api (payload_hash : json → string) : StoreApi DbStore := {
  api_put_approval := Durable.put_approval;
  api_revoke_approval p id b r i := Durable.revoke_approval p id b r (in_now i) (in_later i);
  api_get_approval id p i s := Durable.get_approval id p (in_now i) s;
  api_get := Durable.get;
  api_reserve i e := Durable.reserve payload_hash ("aef_" +:+ in_id i) (in_now i) e;
  api_begin_execution i e ex := Durable.begin_execution payload_hash e ex None (in_now i);
  api_attach_pre_observation := Durable.attach_pre_observation;
  api_finalize_with_receipt k fz rid r i := Durable.finalize_with_receipt k fz rid r (in_now i);
  api_terminal_receipt := Durable.terminal_receipt;
  api_list_receipts := Durable.list_receipts
}.
