(* ===== verification/Adapters.v ===== *)
(** * Adapters: the integration adapters the gateway is given
    (src/swarm/tools/adapters/*.py, tools/session_recovery.py)

    Each adapter is an [IntegrationAdapter] over the state it owns: the browser adapter its
    sessions and submissions, the API adapter the calls it made (its transport, which is
    injected, is a parameter), the sandbox adapter a file system (a parameter with the
    operations it uses).  Requests are JSON objects; Python's conversions of their values
    and pydantic's stripping of string fields are applied as the code applies them.  A form
    is a dict when it is given. *)
From S2P Require Import Prelude Programs Collections Contracts Json Actions Authority EffectStore Gateway.
Open Scope Z_scope.

(** ** Reading requests *)
(** [str(request.get(key, dflt))]. *)
Definition get_str (req : dict json) (key dflt : string) : string :=
  match dict_get req key with Some j => py_str j | None => dflt end.
(** [int(request.get(key, dflt))]. *)
Definition get_int (req : dict json) (key : string) (dflt : Z) : result Z :=
  match dict_get req key with Some j => py_int j | None => Ok dflt end.
(** [str(request.get(k1) or k2 or dflt)]. *)
Definition first_true (js : list json) (dflt : string) : string :=
  match List.find py_truthy js with Some j => py_str j | None => dflt end.
(** A [str | None] field given as [request.get(key)]. *)
Definition get_optional (req : dict json) (key : string) : result (option string) :=
  match optional_str (field_of req key) with Ok o => Ok (strip <$> o) | Err e => Err e end.
Definition get_required (req : dict json) (key : string) : result json :=
  match dict_get req key with Some j => Ok j | None => Err (KeyError key) end.

Section adapters.
Variable payload_hash : json → string.

(** The envelope every adapter's [normalize] builds from a request: the adapters differ in
    the destination, the operation, the payload, the class and the approval. *)
Definition envelope_of {X} (man : AdapterManifest) (i : Input) (req : dict json)
    (operation destination : string) (payload : dict json) (side risk : string)
    (approval : json) : M X ActionEnvelope :=
  project ← of_result (get_required req "project_id");
  lease ← of_result (get_int req "lease_generation" 1);
  cancel ← of_result (get_int req "cancellation_generation" 0);
  mission ← of_result (get_optional req "mission_id");
  task ← of_result (get_optional req "task_id");
  attempt ← of_result (get_optional req "attempt_id");
  approval_id ← of_result (optional_str approval);
  mret (ensure_hashes payload_hash
    (mkActionEnvelope ("act_" +:+ in_id i) mission task attempt (strip (py_str project))
      (strip (get_str req "actor" "worker")) (am_integration_id man) (am_integration_version man)
      (strip operation) (strip destination) payload "" (am_scopes man) side risk "" ""
      lease cancel None (strip (get_str req "policy_version" "v17-policy-1"))
      (strip <$> approval_id) 30)).

(** ** BrowserSessionAdapter *)
Record BrowserSessionRef := mkSessionRef {
  br_session_alias : string;
  br_profile_alias : string;
  br_site_origin : string;
  br_intended_destination : string;
  br_approved_action_id : option string;
  br_signed_out : bool;
  br_last_health : string
}.
#[export] Instance eta_BrowserSessionRef : Eta BrowserSessionRef := λ r,
  mkSessionRef (br_session_alias r) (br_profile_alias r) (br_site_origin r)
    (br_intended_destination r) (br_approved_action_id r) (br_signed_out r) (br_last_health r).

Record Browser := mkBrowser {
  bs_sessions : gmap string BrowserSessionRef;
  bs_submitted : gset string
}.
#[export] Instance eta_Browser : Eta Browser := λ r, mkBrowser (bs_sessions r) (bs_submitted r).

Definition browser_manifest : AdapterManifest :=
  mkAdapterManifest "browser.session" "1.0" "browser_session" ["page_dom"] ["form_submit"]
    ["browser.session"] [] true false [] "consequential" "high" false ["browser_runtime"] true.

Definition browser_normalize (i : Input) (req : dict json) : M Browser ActionEnvelope :=
  let dest := first_true [field_of req "destination"; field_of req "intended_destination"] "" in
  let operation := get_str req "operation" "navigate" in
  let navigate := bool_decide (operation = "navigate") in
  form ← of_result (match field_of req "form" with
    | JObj d => Ok d
    | j => if py_truthy j then Err (TypeError "form is not a dict") else Ok [] end);
  envelope_of browser_manifest i req operation dest
    [("session_alias", JStr (get_str req "session_alias" "sess_local"));
     ("profile_alias", JStr (get_str req "profile_alias" "profile_safe"));
     ("site_origin", JStr (get_str req "site_origin" "https://example.test"));
     ("form", JObj form)]
    (if navigate then "none" else am_side_effect_class browser_manifest)
    (if navigate then "low" else am_risk_class browser_manifest)
    (if navigate then JNull else field_of req "approval_id").

Definition browser_validate (e : ActionEnvelope) : M Browser () :=
  let origin := get_str (av_normalized_payload e) "site_origin" "" in
  raise_if (negb (String.prefix origin (av_destination e)))
    (PermissionError "unsafe_redirect_or_destination_mismatch");;
  raise_if (contains "javascript:" (to_lower (av_destination e))) (PermissionError "unsafe_redirect_denied").

(** [str(envelope.normalized_payload.get("session_alias"))]. *)
Definition alias_of (e : ActionEnvelope) : string := py_str (field_of (av_normalized_payload e) "session_alias").

Definition browser_observe_pre (i : Input) (e : ActionEnvelope) : M Browser (dict json) :=
  b ← get_state;
  let signed_out := match bs_sessions b !! alias_of e with Some r => br_signed_out r | None => true end in
  mret [("signed_out", JBool signed_out); ("session_alias", JStr (alias_of e));
        ("at", JStr (isoformat (in_now i)))].

Definition browser_execute (i : Input) (e : ActionEnvelope) : M Browser (dict json) :=
  b ← get_state;
  let out := match bs_sessions b !! alias_of e with Some r => br_signed_out r | None => true end in
  if out then
    mret [("outcome", JStr "denied"); ("reason", JStr "signed_out"); ("requires_human_auth", JBool true);
          ("preserve_destination", JStr (av_destination e))]
  else if bool_decide (av_operation e = "submit") then
    if bool_decide (av_effect_key e ∈ bs_submitted b) then
      mret [("outcome", JStr "succeeded"); ("duplicate", JBool true); ("external_id", JStr (av_effect_key e))]
    else
      modify (λ b, b <| bs_submitted := {[av_effect_key e]} ∪ bs_submitted b |>);;
      mret [("outcome", JStr "succeeded"); ("submitted", JBool true); ("external_id", JStr (av_effect_key e))]
  else if bool_decide (av_operation e = "navigate") then
    mret [("outcome", JStr "succeeded"); ("navigated_to", JStr (av_destination e));
          ("external_id", JStr ("nav:" +:+ av_destination e))]
  else mret [("outcome", JStr "failed"); ("reason", JStr ("unknown_operation:" +:+ av_operation e))].

Definition browser_observe_post (i : Input) (e : ActionEnvelope) (res : dict json) : M Browser (dict json) :=
  mret [("result", JObj res)].

Definition browser_reconcile (i : Input) (e : ActionEnvelope) (prior : list ActionReceiptV17)
    : M Browser (dict json) :=
  b ← get_state;
  if bool_decide (av_effect_key e ∈ bs_submitted b)
  then mret [("state", JStr "succeeded"); ("external_id", JStr (av_effect_key e))]
  else mret [("state", JStr "unknown"); ("reason", JStr "browser_outcome_unconfirmed")].

Definition register_session (ref : BrowserSessionRef) : M Browser BrowserSessionRef :=
  modify (λ b, b <| bs_sessions := <[br_session_alias ref := ref]> (bs_sessions b) |>);;
  mret ref.

Definition mark_signed_out (alias : string) : M Browser () :=
  b ← get_state;
  match bs_sessions b !! alias with
  | Some ref => modify (λ b, b <| bs_sessions := <[alias := ref <| br_signed_out := true |>]> (bs_sessions b) |>)
  | None => mret ()
  end.

Definition BrowserSessionAdapter : IntegrationAdapter Browser :=
  mkAdapter browser_manifest browser_normalize browser_validate browser_observe_pre browser_execute
    browser_observe_post browser_reconcile.

(** ** ApiMcpAdapter *)
Record ApiMcp := mkApiMcp { am_calls : list (string * string) }.

Definition api_manifest : AdapterManifest :=
  mkAdapterManifest "api.mcp.echo" "1.0" "api_mcp" ["remote_resource"] ["remote_resource"]
    ["network.https"; "mcp.call"] ["mcp_token_ref"] true false [] "consequential" "medium" false [] false.

Definition default_transport (i : Input) (operation : string) (payload : dict json) : dict json :=
  if py_truthy (field_of payload "force_unknown")
  then [("outcome", JStr "unknown"); ("external_id", JNull)]
  else [("outcome", JStr "succeeded"); ("external_id", JStr ("ext_" +:+ in_id i));
        ("echo", field_of payload "body"); ("operation", JStr operation)].

Definition api_normalize (i : Input) (req : dict json) : M ApiMcp ActionEnvelope :=
  envelope_of api_manifest i req (get_str req "operation" "echo")
    (first_true [field_of req "destination"] "mcp://echo/default")
    [("body", field_of req "body");
     ("force_unknown", JBool (match dict_get req "force_unknown" with Some j => py_truthy j | None => false end))]
    (am_side_effect_class api_manifest) (am_risk_class api_manifest) (field_of req "approval_id").

Definition api_validate (e : ActionEnvelope) : M ApiMcp () :=
  raise_if (negb (String.prefix "mcp://" (av_destination e))) (PermissionError "destination_scheme_denied");;
  raise_if (contains ".." (av_destination e) || String.prefix "mcp://evil" (av_destination e))
    (PermissionError "unsafe_redirect_denied").

Definition api_observe_pre (i : Input) (e : ActionEnvelope) : M ApiMcp (dict json) :=
  mret [("transport", JStr "ready"); ("at", JStr (isoformat (in_now i)))].

(** The call is logged before the transport runs. *)
Definition api_execute (transport : Input → string → dict json → result (dict json))
    (i : Input) (e : ActionEnvelope) : M ApiMcp (dict json) :=
  modify (λ a, mkApiMcp (am_calls a ++ [(av_effect_key e, isoformat (in_now i))]));;
  of_result (transport i (av_operation e) (av_normalized_payload e)).

Definition api_observe_post (i : Input) (e : ActionEnvelope) (res : dict json) : M ApiMcp (dict json) :=
  a ← get_state; mret [("result", JObj res); ("call_count", JInt (Z.of_nat (length (am_calls a))))].

Fixpoint last_word (key : string) (receipts : list ActionReceiptV17) : dict json :=
  match receipts with
  | [] => [("state", JStr "failed"); ("reason", JStr "no_prior_success")]
  | r :: rest =>
    if bool_decide (ar_effect_key r = key) && bool_decide (ar_outcome r = "succeeded")
    then [("state", JStr "succeeded");
          ("external_id", match ar_external_id r with Some x => JStr x | None => JNull end)]
    else if bool_decide (ar_effect_key r = key) && bool_decide (ar_outcome r = "unknown")
    then [("state", JStr "unknown"); ("reason", JStr "external_outcome_unconfirmed")]
    else last_word key rest
  end.
Definition api_reconcile (i : Input) (e : ActionEnvelope) (prior : list ActionReceiptV17)
    : M ApiMcp (dict json) := mret (last_word (av_effect_key e) (reverse prior)).

Definition ApiMcpAdapter (transport : Input → string → dict json → result (dict json)) : IntegrationAdapter ApiMcp :=
  mkAdapter api_manifest api_normalize api_validate api_observe_pre (api_execute transport)
    api_observe_post api_reconcile.

(** ** SessionRecoveryService *)
Record SessionRecoveryResult := mkRecovery {
  sr_session_alias : string;
  sr_signed_out_detected : bool;
  sr_preserved_destination : string;
  sr_human_auth_required : bool;
  sr_resumed_destination : option string;
  sr_login_implied_submit : bool;
  sr_receipt_outcome : option string;
  sr_notes : list string
}.

Definition opt_json (o : option string) : json := match o with Some s => JStr s | None => JNull end.

Definition navigate_request (ref : BrowserSessionRef) (e : ActionEnvelope) : dict json :=
  [("project_id", JStr (av_project_id e)); ("actor", JStr (av_actor e)); ("operation", JStr "navigate");
   ("destination", JStr (av_destination e)); ("session_alias", JStr (br_session_alias ref));
   ("profile_alias", JStr (br_profile_alias ref)); ("site_origin", JStr (br_site_origin ref));
   ("lease_generation", JInt (av_lease_generation e));
   ("cancellation_generation", JInt (av_cancellation_generation e));
   ("policy_version", JStr (av_policy_version e)); ("approval_id", opt_json (av_approval_id e));
   ("mission_id", opt_json (av_mission_id e)); ("task_id", opt_json (av_task_id e));
   ("attempt_id", opt_json (av_attempt_id e))].

Section recover.
Context {S : Type} `{!StoreApi S}.
Variable authority_hash : string → Z → string → string → string.
Variable gateway : @Gateway Browser.

Definition run_gateway {A} (inputs : nat → Input) (p : prog gop A) : M (World S Browser) A := λ w,
  let '(r, _, w') := run (perform authority_hash) inputs [] p w in (r, w').

(** [recover] on a service whose gateway and adapter are the given ones; the gateway's
    request is one uninterrupted run. *)
Definition recover (i : Input) (inputs : nat → Input) (ref : BrowserSessionRef) (e : ActionEnvelope)
    (perform_human_login : bool) : M (World S Browser) SessionRecoveryResult :=
  on_external (register_session ref);;
  pre ← on_external (browser_observe_pre i e);
  let signed_out := py_truthy (field_of pre "signed_out") in
  let notes := [if signed_out then "detected_signed_out" else "session_healthy"] in
  notes ← (if signed_out && perform_human_login then
      on_external (register_session (ref <| br_signed_out := false |> <| br_last_health := "authenticated" |>
        <| br_intended_destination := av_destination e |> <| br_approved_action_id := Some (av_action_id e) |>));;
      mret (notes ++ ["human_auth_completed"; "login_does_not_submit"])
    else mret notes);
  receipt ← run_gateway inputs (execute_request payload_hash gateway (navigate_request ref e));
  mret (mkRecovery (br_session_alias ref) signed_out (av_destination e) signed_out
    (Some (av_destination e)) false (Some (ar_outcome receipt)) notes).
End recover.

Definition recovery_report (r : SessionRecoveryResult) : dict json :=
  [("session_alias", JStr (sr_session_alias r)); ("signed_out_detected", JBool (sr_signed_out_detected r));
   ("preserved_destination", JStr (sr_preserved_destination r));
   ("human_auth_required", JBool (sr_human_auth_required r));
   ("resumed_destination", opt_json (sr_resumed_destination r));
   ("login_implied_submit", JBool (sr_login_implied_submit r));
   ("receipt_outcome", opt_json (sr_receipt_outcome r)); ("notes", JList (JStr <$> sr_notes r));
   ("status", JStr (if negb (sr_login_implied_submit r) then "pass" else "fail"))].
End adapters.
