(* ===== verification/GatewayProps.v ===== *)
(** * GatewayProps: gateways over a shared store

    What the gateway relies on from its store ([GatewayStore]): its methods are the calls of
    [EffectStore], and an admission that returns is the one that counted an attempt.  Both
    stores provide it.  A protocol for programs (execute only what you were admitted to,
    finalize only for good) is enough for at most one execution per effect, however many
    gateways interleave; the gateway's programs keep it. *)
From S2P Require Import Prelude Programs Collections Contracts Json Actions Authority EffectStore EffectProps EffectTheorems Gateway.
Open Scope Z_scope.

(** ** Attempts of an effect in the abstract state *)
Definition attempts (k : effect_key_t) (a : Abs) : Z :=
  match a_effects a !! k with Some e => ef_attempt_count e | None => 0 end.

(** A finalization that leaves the effect not executable. *)
Definition closing (fz : Finalization) : Prop := fz_state fz ≠ "reserved" ∧ fz_state_reason fz ≠ Some "not_applied".
Definition closes (p : perm) : Prop := match p with PFinal _ fz => closing fz | _ => True end.

(** An effect that may be admitted was never admitted before. *)
Definition once (a : Abs) : Prop :=
  ∀ k e, a_effects a !! k = Some e →
    0 <= ef_attempt_count e <= 1 ∧ (executable e = true → ef_attempt_count e = 0).

Lemma finalized_count fz now e : ef_attempt_count (finalized fz now e) = ef_attempt_count e.
Proof. unfold finalized. repeat case_match; done. Qed.
Lemma finalized_closed fz now e : closing fz → executable (finalized fz now e) = false.
Proof.
  intros [H1 H2]. unfold executable, _executable.
  assert (ef_state (finalized fz now e) = fz_state fz ∧ ef_state_reason (finalized fz now e) = fz_state_reason fz)
    as [-> ->] by (unfold finalized; repeat case_match; done).
  rewrite bool_decide_false by done. rewrite (bool_decide_false _ H2). apply andb_false_r.
Qed.

Lemma astep_once p a b : closes p → astep p a b → once a → once b.
Proof.
  intros Hp Hstep Ho.
  destruct Hstep as [| |es us rs k e Hk H1 H2 H3|es us rs k e id u now Hk|es us rs k e ex now Hk Hx Hadm
    |es us rs k e pre Hk|es us rs k e fz now Hk Hf Hfin|]; try exact Ho;
    intros k' e'; simpl; (intros [[<- <-]|[_ Hk']]%lookup_insert_Some; [|by eapply Ho]).
  - rewrite H3. split; [lia|done].
  - exact (Ho k e Hk).
  - destruct (Ho k e Hk) as [_ H0]. specialize (H0 Hx). simpl. split; [lia|done].
  - exact (Ho k e Hk).
  - subst p. rewrite finalized_closed by done. rewrite finalized_count. split; [|done]. by eapply Ho.
Qed.

Lemma asteps_once p a b : closes p → rtc (astep p) a b → once a → once b.
Proof. intros Hp. apply rtc_invariant. intros x y Hx Hxy. by eapply astep_once. Qed.

Lemma astep_attempts p a b k : p ≠ PAdmit k → astep p a b → attempts k b = attempts k a.
Proof.
  intros Hp Hstep. unfold attempts.
  destruct Hstep as [| |es us rs k' e Hk H1 H2 H3|es us rs k' e id u now Hk|es us rs k' e ex now Hk Hx Hadm
    |es us rs k' e pre Hk|es us rs k' e fz now Hk Hf Hfin|]; try done; simpl;
    (destruct (decide (k' = k)) as [->|Hne]; [rewrite lookup_insert_eq|by rewrite lookup_insert_ne]);
    rewrite ?Hk; try done.
  apply finalized_count.
Qed.

Lemma asteps_attempts p a b k : p ≠ PAdmit k → rtc (astep p) a b → attempts k b = attempts k a.
Proof. intros Hp. induction 1 as [|x y z Hxy _ IH]; [done|]. rewrite IH. by eapply astep_attempts. Qed.

(** ** What the gateway relies on *)
Class GatewayStore (payload_hash : json → string) (S : Type) `{!StoreApi S, !EffectStore S} := {
  law_put id g s : (api_put_approval id g s).2 = run_call (Put id g) s;
  law_revoke p id b r i s : (api_revoke_approval p id b r i s).2 = run_call (Revoke p id b r (in_now i) (in_later i)) s;
  law_reserve i e s : (api_reserve i e s).2 = run_call (Reserve ("aef_" +:+ in_id i) (in_now i) e) s;
  law_attach k pre s : (api_attach_pre_observation k pre s).2 = run_call (Attach k pre) s;
  law_finalize k fz rid r i s :
    (api_finalize_with_receipt k fz rid r i s).2 = run_call (Finalize k fz rid r (in_now i)) s;
  law_begin i e ex s : (api_begin_execution i e ex s).2 = run_call (Begin e ex None (in_now i) (in_later i)) s;
  law_get k s : api_get k s = a_effects (view s) !! k;
  law_normal e : ensure_hashes payload_hash e = e → normal e = e;
  law_attempt i e ex s : ensure_hashes payload_hash e = e →
    attempts (key_of e) (view (api_begin_execution i e ex s).2)
    = attempts (key_of e) (view s) + if is_ok (api_begin_execution i e ex s).1 then 1 else 0
}.

(** The run counts an attempt of [k] exactly when it returns. *)
Definition counts {S A} (v : S → Abs) (k : effect_key_t) (s : S) (x : result A * S) : Prop :=
  attempts k (v x.2) = attempts k (v s) + if is_ok x.1 then 1 else 0.

Lemma counts_err {S A} (v : S → Abs) k s s' e :
  attempts k (v s') = attempts k (v s) → counts v k s (Err e : result A, s').
Proof. unfold counts. simpl. lia. Qed.

Lemma mem_attempt i e ex s :
  counts mem_view (key_of e) s (Mem.begin_execution e ex None (in_now i) (in_later i) s).
Proof.
  unfold Mem.begin_execution. rewrite mem_require_bind.
  destruct (ms_effects s !! key_of e) as [row|] eqn:Hrow; [|by apply counts_err].
  set (P := counts mem_view (key_of e) s). run_rule P; [by apply counts_err|].
  destruct (mem_consume PNone (key_of e) row (av_approval_id e) (in_now i) s Hrow) as [Hc Hrow'].
  apply (asteps_attempts _ _ _ (key_of e)) in Hc; [|done].
  apply (run_bind P).
  - intros err s' Hrun. rewrite Hrun in Hc. by apply counts_err.
  - intros row' s' Hrun. rewrite Hrun in Hc. destruct (Hrow' row' s' Hrun) as (Hk & _).
    run_rule P; [by apply counts_err|].
    cbn [snd] in Hc. unfold P, counts. rewrite <- Hc. unfold attempts, mem_view. simpl.
    by rewrite lookup_insert_eq, Hk.
Qed.

#[export] Instance mem_gateway_store h :
  @GatewayStore h MemStore (mem_api h) (in_memory_effects h).
Proof. split; intros; try reflexivity. exact (mem_attempt i e ex s). Qed.

Lemma durable_cas_counts k ex now s : 
  match Durable._cas_to_executing k ex now s with
  | (Ok (Some _), s') => attempts k (db_view s') = attempts k (db_view s) + 1
  | (_, s') => s' = s
  end.
Proof.
  unfold Durable._cas_to_executing, mbind, M_bind, get_state.
  destruct (ds_effects s !! k) as [row|] eqn:Hrow; [|done].
  destruct (_executable _ _); [|done]. unfold attempts, db_view. simpl. by rewrite lookup_insert_eq, Hrow.
Qed.

Lemma durable_attempt h i e ex s : ensure_hashes h e = e →
  counts db_view (key_of e) s (Durable.begin_execution h e ex None (in_now i) s).
Proof.
  intros He. unfold Durable.begin_execution, transaction. rewrite He, durable_require_bind.
  destruct (ds_effects s !! key_of e) as [row|] eqn:Hrow; [|by apply counts_err].
  set (k := key_of e) in *. cbn [of_result check_fence].
  set (P := λ x : result Effect * DbStore,
    counts db_view k s (match x with (Ok a, s') => (Ok a, s') | (Err er, _) => (Err er, s) end)).
  match goal with |- counts db_view k s (match ?run with _ => _ end) => change (P run) end.
  assert (∀ er s', P (Err er, s')) as Herr by (intros; by apply counts_err).
  run_rule P; [apply Herr|]. apply (run_bind P); [intros; apply Herr|].
  set (m := if truthy _ then _ else _). intros u s1 Hrun.
  assert (attempts k (db_view s1) = attempts k (db_view s)) as Hm.
  { replace s1 with (m s).2 by (by rewrite Hrun). subst m. destruct (truthy _); [|done].
    by apply (asteps_attempts PNone); [|apply durable_consume]. }
  apply (run_bind P); [intros; apply Herr|]. intros upd s2 Hcas.
  pose proof (durable_cas_counts k ex (in_now i) s1) as Hc. rewrite Hcas in Hc.
  destruct upd as [row2|]; [unfold P, counts; cbn; lia|]. apply (run_bind P); intros; apply Herr.
Qed.

#[export] Instance durable_gateway_store h :
  @GatewayStore h DbStore (durable_api h) (durable_effects h).
Proof. split; intros; try reflexivity; [done|]. by exact (durable_attempt h i e ex s H). Qed.

(** ** The protocol *)
Section protocol.
Context {X : Type}.
Variable payload_hash : json → string.
Abbreviation history := (list (event (@gop X))).

(** The event admitted an execution of effect [k]; it executed effect [k]. *)
Definition began (k : effect_key_t) (ev : event (@gop X)) : bool :=
  match ev_op ev with OBegin e _ => is_ok (ev_reply ev) && bool_decide (key_of e = k) | _ => false end.
Definition executed (k : effect_key_t) (ev : event (@gop X)) : bool :=
  match ev_op ev with OExecute _ e => bool_decide (key_of e = k) | _ => false end.

Definition count {A} (f : A → bool) (l : list A) : Z := sum_by (λ x, if f x then 1 else 0) l.

Lemma count_cons {A} (f : A → bool) x l : count f (x :: l) = (if f x then 1 else 0) + count f l.
Proof. done. Qed.
Lemma count_nonneg {A} (f : A → bool) l : 0 <= count f l.
Proof. induction l as [|x l IH]; [done|]. rewrite count_cons. destruct (f x); lia. Qed.

Definition protocol (h : history) (R : Type) (o : @gop X R) : Prop :=
  match o with
  | OExecute _ e => count (executed (key_of e)) h < count (began (key_of e)) h
  | OBegin e _ => ensure_hashes payload_hash e = e
  | OFinalize _ fz _ _ => closing fz
  | _ => True
  end.

(** Executions of a thread are among its admissions. *)
Definition covered (t : thread (@gop X)) : Prop :=
  ∀ k, count (executed k) (th_history t) <= count (began k) (th_history t).

Lemma covered_step h R (o : @gop X R) k r :
  protocol h R o → covered (Thread h (Do R o k)) → covered (Thread (Ev R o r :: h) (k r)).
Proof.
  intros Hp Hc k'. specialize (Hc k'). simpl in *. rewrite !count_cons.
  destruct o; unfold executed at 1, began at 1; simpl; try lia.
  - destruct (is_ok r && _); lia.
  - destruct (bool_decide _) eqn:Hk; [|lia]. bool_to_prop. subst k'. simpl in Hp. lia.
Qed.

Context {S : Type} `{!StoreApi S, !EffectStore S, !GatewayStore payload_hash S}.
Variable authority_hash : string → Z → string → string → string.
Abbreviation World := (World S X).

(** What an operation does to the attempts of each effect. *)
Lemma perform_store R (o : @gop X R) i (w : World) r w' h k :
  perform authority_hash R o i w = (r, w') → protocol h R o →
  attempts k (view (wd_store w'))
    = attempts k (view (wd_store w)) + (if began k (Ev R o r) then 1 else 0)
  ∧ (once (view (wd_store w)) → once (view (wd_store w'))).
Proof.
  assert (∀ c s s', s' = run_call c s → closes (grants normal c) → grants normal c ≠ PAdmit k →
    attempts k (view s') = attempts k (view s) + 0 ∧ (once (view s) → once (view s'))) as Hcall.
  { intros c s s' -> Hc Hk. split.
    - rewrite (asteps_attempts _ _ _ _ Hk (call_refines c s)). lia.
    - by apply (asteps_once (grants normal c)), call_refines. }
  intros Hrun Hp. destruct o; unfold perform, on_store, on_external, on_authority in Hrun; unfold began; simpl.
  all: try (match type of Hrun with context [let '(_, _) := ?m in _] => destruct m as [r1 s1] eqn:Hm end).
  all: injection Hrun as <- <-; simpl; try (split; [lia|done]).
  - apply (Hcall (Put id grant)); [|done|done]. by rewrite <- law_put, Hm.
  - apply (Hcall (Revoke project_id id revoked_by reason (in_now i) (in_later i))); [|done|done]. by rewrite <- law_revoke, Hm.
  - apply (Hcall (Reserve ("aef_" +:+ in_id i) (in_now i) e)); [|done|done]. by rewrite <- law_reserve, Hm.
  - simpl in Hp. pose proof (law_begin i e executor_id (wd_store w)) as Hs. rewrite Hm in Hs. simpl in Hs.
    pose proof (call_refines (Begin e executor_id None (in_now i) (in_later i)) (wd_store w)) as Href.
    rewrite <- Hs in Href. simpl in Href. rewrite (law_normal e Hp) in Href.
    split; [|by apply (asteps_once (PAdmit (key_of e)))].
    destruct (decide (key_of e = k)) as [<-|Hne].
    + pose proof (law_attempt i e executor_id (wd_store w) Hp) as Ha. rewrite Hm in Ha. simpl in Ha.
      rewrite bool_decide_true by done. by rewrite andb_true_r.
    + rewrite bool_decide_false, andb_false_r by done.
      pose proof (asteps_attempts (PAdmit (key_of e)) _ _ k ltac:(congruence) Href). lia.
  - apply (Hcall (Attach k0 pre)); [|done|done]. by rewrite <- law_attach, Hm.
  - apply (Hcall (Finalize k0 fz rid r0 (in_now i))); [|exact Hp|done]. by rewrite <- law_finalize, Hm.
Qed.

(** ** Pools of programs that keep the protocol *)
Definition total_of (f : event (@gop X) → bool) (ts : list (thread (@gop X))) : Z :=
  sum_by (λ t, count f (th_history t)) ts.

Record pool_inv (c : World * list (thread (@gop X))) : Prop := {
  pi_keeps : Forall (keeps protocol) c.2;
  pi_covered : Forall covered c.2;
  pi_once : once (view (wd_store c.1));
  pi_attempts : ∀ k, attempts k (view (wd_store c.1)) = total_of (began k) c.2
}.

Lemma total_of_insert f ts i t t' : ts !! i = Some t →
  total_of f (<[i := t']> ts) = total_of f ts - count f (th_history t) + count f (th_history t').
Proof.
  intros Hi. unfold total_of. rewrite insert_take_drop by (by eapply lookup_lt_Some).
  rewrite <- (take_drop_middle ts i t Hi) at 3. rewrite !sum_by_app. simpl. lia.
Qed.

Variable launch : prog (@gop X) () → Prop.
Hypothesis launch_keeps : ∀ p, launch p → keeps protocol (Thread [] p).

Lemma pool_inv_step c c' : pool_step (perform authority_hash) launch c c' → pool_inv c → pool_inv c'.
Proof.
  intros Hstep [Hk Hc Ho Ha].
  pose proof (pool_keeps (perform authority_hash) protocol launch c c' launch_keeps Hstep Hk) as Hk'.
  destruct Hstep as [w ts p Hp|w ts i h R o k inp r w' Hi Hr]; simpl in *.
  - split; [done| |done|]; simpl.
    + apply Forall_app. split; [done|]. apply Forall_singleton. by intros k.
    + intros k. rewrite Ha. unfold total_of. rewrite sum_by_app. simpl. unfold count. simpl. lia.
  - assert (protocol h R o) as Hpr by (eapply Forall_lookup_1 in Hk; [|exact Hi]; apply Hk).
    split; [done| | |]; simpl.
    + apply Forall_insert; [done|]. apply covered_step; [done|]. by eapply Forall_lookup_1 in Hc.
    + destruct (perform_store R o inp w r w' h ("", "") Hr Hpr) as [_ H]. by apply H.
    + intros k'. destruct (perform_store R o inp w r w' h k' Hr Hpr) as [-> _].
      rewrite Ha, (total_of_insert _ _ _ _ _ Hi). simpl. rewrite count_cons. lia.
Qed.

Lemma total_of_le f g ts :
  (∀ t, t ∈ ts → count f (th_history t) <= count g (th_history t)) → total_of f ts <= total_of g ts.
Proof.
  unfold total_of. induction ts as [|t ts IH]; intros H; [done|]. simpl.
  pose proof (H t ltac:(left)). assert (total_of f ts <= total_of g ts) by (apply IH; intros; apply H; by right).
  unfold total_of in *. lia.
Qed.

Lemma pool_inv_executions c k : pool_inv c → total_of (executed k) c.2 <= 1.
Proof.
  intros [_ Hc Ho Ha]. etrans; [apply (total_of_le _ (began k))|].
  - intros t Ht. eapply Forall_forall in Hc; [|exact Ht]. apply Hc.
  - rewrite <- Ha. unfold attempts. destruct (a_effects _ !! k) as [e|] eqn:He; [|lia].
    apply Ho in He as [? _]. lia.
Qed.

Lemma pool_inv_start auth ext : pool_inv (mkWorld (empty_store : S) auth ext, []).
Proof.
  split; simpl; [constructor|constructor| |]; rewrite view_empty.
  - intros k e He. simpl in He. by rewrite lookup_empty in He.
  - intros k. unfold attempts. simpl. by rewrite lookup_empty.
Qed.
End protocol.
