(* ===== verification/GatewayTheorems.v ===== *)
(** * GatewayTheorems: what the consequential tool gateway guarantees

    At most one execution per effect however gateways interleave; no execution without
    every guard and an exact approval; replays return the stored receipt; unknown outcomes
    are reconciled, not retried. *)
From S2P Require Import Prelude Programs Collections Contracts Json Actions Authority EffectStore EffectProps EffectTheorems Gateway GatewayProps.
Open Scope Z_scope.

(** ** Hashes are filled in once *)
Definition hash_input (e : ActionEnvelope) : json :=
  JObj [("integration", JStr (av_integration_id e +:+ "@" +:+ av_integration_version e));
        ("operation", JStr (av_operation e)); ("destination", JStr (av_destination e));
        ("payload", JObj (av_normalized_payload e))].

Lemma ensure_hashes_full h e :
  (av_payload_hash e = "" → h (hash_input e) = "") → av_effect_key e ≠ "" → av_idempotency_key e ≠ "" →
  ensure_hashes h e = e.
Proof.
  intros Hp Hk Hi. unfold ensure_hashes. fold (hash_input e). cbv zeta.
  assert ((if bool_decide (av_payload_hash e = "") then e <| av_payload_hash := h (hash_input e) |> else e) = e) as ->.
  { case_bool_decide as Hempty; [|done]. rewrite (Hp Hempty). rewrite <- Hempty. by destruct e. }
  rewrite (bool_decide_eq_false_2 _ Hk). by rewrite (bool_decide_eq_false_2 _ Hi).
Qed.

Lemma ensure_hashes_idem h e : ensure_hashes h (ensure_hashes h e) = ensure_hashes h e.
Proof.
  apply ensure_hashes_full; unfold ensure_hashes; fold (hash_input e); cbv zeta.
  - destruct (bool_decide (av_payload_hash e = "")) eqn:Hp; bool_to_prop;
      repeat case_bool_decide; intros Hq; (by simpl in Hq) || (destruct e; simpl in *; congruence).
  - repeat case_bool_decide; try done; by destruct e as [? ? ? ? []].
  - repeat case_bool_decide; try done; by destruct e as [? ? ? ? []].
Qed.

(** ** Programs keep the protocol *)
Ltac keep_step :=
  first
    [ allowed_step
    | exact I
    | match goal with
      | |- match ?r with Ok _ => _ | Err _ => _ end => destruct r
      | |- allowed _ _ (let '(_, _) := ?x in _) _ => destruct x
      | |- allowed _ _ (match ?r with Ok _ => _ | Err _ => _ end) _ => destruct r
      | |- allowed _ _ (match ?r with inl _ => _ | inr _ => _ end) _ => destruct r
      | |- allowed _ _ (match ?r with Some _ => _ | None => _ end) _ => destruct r
      end ].
Ltac keep := repeat keep_step.

Section gateway.
Context {X : Type}.
Variable payload_hash : json → string.
Variable gw : @Gateway X.
Abbreviation protocol := (@protocol X payload_hash).
Abbreviation ok h p := (allowed protocol h p (λ _ _, True)).

Lemma finalize_keeps h e id en : en_state en ≠ "reserved" → ok h (_finalize payload_hash e id en).
Proof. intros Hs. unfold _finalize, _build_receipt. keep. done. Qed.

Lemma terminal_keeps h e : ok h (_terminal_or_fail e).
Proof. unfold _terminal_or_fail. keep; done. Qed.

Lemma reconcile_keeps h e ef : ok h (_reconcile_unknown payload_hash gw e ef).
Proof.
  unfold _reconcile_unknown. keep; try done. apply finalize_keeps. simpl. intros Heq. rewrite Heq in *. done.
Qed.

Lemma run_adapter_keeps h e :
  count (executed (key_of e)) h < count (began (key_of e)) h → ok h (run_adapter payload_hash gw e).
Proof.
  intros Hlt. unfold run_adapter. keep; try done; apply finalize_keeps; simpl; try done.
  intros Heq. rewrite Heq in *. done.
Qed.

(** Executions so far are among the admissions. *)
Definition even (h : list (event (@gop X))) : Prop := ∀ k, count (executed k) h <= count (began k) h.
Abbreviation fair h p := (allowed protocol h p (λ h' _, even h')).

Lemma fair_bind {A B} h (p : prog gop A) (f : A → prog gop B) :
  fair h p → (∀ h' a, even h' → ok h' (f a)) → ok h (p ≫= f).
Proof.
  intros Hp Hf. apply allowed_bind. eapply allowed_mono; [|exact Hp]. intros h' [a|x] H; [by apply Hf|done].
Qed.

Lemma exact_keeps h e ef : even h → fair h (_require_exact_approval gw e ef).
Proof. intros H. unfold _require_exact_approval, binds_exactly. keep; try exact H; done. Qed.

Lemma admit_keeps h e :
  ensure_hashes payload_hash e = e → even h →
  allowed protocol h (admit_effect e) (λ h' r, match r with
    | Ok (inr _) => count (executed (key_of e)) h' < count (began (key_of e)) h' | _ => True end).
Proof.
  intros He H. unfold admit_effect, _terminal_or_fail. keep; try done.
  - specialize (H (key_of e)). rewrite !count_cons. unfold began at 1 2 3, executed at 1 2 3. cbn [ev_op ev_reply is_ok andb].
    rewrite bool_decide_true by done. lia.
  - destruct e0; keep; done.
Qed.

Lemma approve_and_run_keeps h e ef :
  ensure_hashes payload_hash e = e → even h → ok h (approve_and_run payload_hash gw e ef).
Proof.
  intros He H. unfold approve_and_run. apply fair_bind; [by apply exact_keeps|]. intros h' _ H'.
  apply allowed_bind. eapply allowed_mono; [|by apply admit_keeps].
  intros h2 [[r|ef']|x] H2; [keep|by apply run_adapter_keeps|done].
Qed.

Lemma authorize_keeps h e : even h → fair h (_authorize_project gw e).
Proof. intros H. unfold _authorize_project. keep; exact H. Qed.
Lemma policy_keeps h e : even h → fair h (_evaluate_policy gw e).
Proof. intros H. unfold _evaluate_policy. keep; exact H. Qed.
Lemma generations_keep h e : even h → fair h (_check_generations gw e).
Proof. intros H. unfold _check_generations. keep; exact H. Qed.
Lemma epoch_keeps h e : even h → fair h (_check_site_epoch gw e).
Proof.
  intros H. unfold _check_site_epoch. destruct (gw_site_authority gw), (gw_site_id gw); keep; try exact H; done.
Qed.
Lemma op_keeps {R} h (o : gop R) : protocol h R o → (∀ k r, began k (Ev R o r) = false) →
  (∀ k r, executed k (Ev R o r) = false) → even h → fair h (Programs.call o).
Proof.
  intros Hp Hb Hx H. split; [done|]. intros r k. rewrite !count_cons, Hb, Hx. apply H.
Qed.

Lemma execute_keeps h e : even h → ok h (execute_envelope payload_hash gw e).
Proof.
  intros H. unfold execute_envelope. pose proof (ensure_hashes_idem payload_hash e) as He.
  set (e' := ensure_hashes payload_hash e) in *. clearbody e'. cbv zeta.
  apply fair_bind; [by apply op_keeps|]. intros h1 _ H1.
  apply fair_bind; [by apply authorize_keeps|]. intros h2 _ H2.
  apply fair_bind; [by apply policy_keeps|]. intros h3 _ H3.
  apply fair_bind; [by apply generations_keep|]. intros h4 _ H4.
  apply fair_bind; [by apply epoch_keeps|]. intros h5 _ H5.
  apply fair_bind; [by apply op_keeps|]. intros h6 [ef|] H6; [|by apply approve_and_run_keeps].
  repeat case_bool_decide; [apply terminal_keeps|apply reconcile_keeps|by apply approve_and_run_keeps].
Qed.
End gateway.

(** ** What an execution was authorized by *)
Section authorized.
Context {X : Type}.
Variable payload_hash : json → string.
Variable gw : @Gateway X.

(** The approval agrees with the envelope on everything that is executed. *)
Definition exact (g : ApprovalGrant) (e : ActionEnvelope) : Prop :=
  ag_integration_id g = av_integration_id e ∧ ag_integration_version g = av_integration_version e
  ∧ ag_operation g = av_operation e ∧ ag_destination g = av_destination e
  ∧ ag_payload_hash g = av_payload_hash e ∧ ag_policy_version g = av_policy_version e
  ∧ (truthy (ag_effect_key g) = true → ag_effect_key g = Some (av_effect_key e)).

(** An approval that the store returned and that was in force at a clock reading. *)
Definition approved (e : ActionEnvelope) (h : list (event (@gop X))) : Prop :=
  ∃ id g now, av_approval_id e = Some id ∧ id ≠ ""
    ∧ Ev _ (OGetApproval id (av_project_id e)) (Ok (Some g)) ∈ h ∧ Ev _ ONow (Ok now) ∈ h
    ∧ ag_revoked_at g = None ∧ now < ag_expires_at g ∧ exact g e.

Record authorized (e0 : ActionEnvelope) (a : IntegrationAdapter X) (e : ActionEnvelope)
    (h : list (event (@gop X))) : Prop := {
  au_envelope : e = ensure_hashes payload_hash e0;
  au_adapter : a = gw_adapter gw;
  au_valid : Ev _ (OValidate a e) (Ok ()) ∈ h;
  au_project : av_project_id e = gw_project_id gw;
  au_scopes : ∀ x, x ∈ av_requested_scopes e ∨ x ∈ am_scopes (ia_manifest a) → x ∈ gw_allowed_scopes gw;
  au_lease : av_lease_generation e = gw_current_lease_generation gw;
  au_cancel : av_cancellation_generation e = gw_current_cancellation_generation gw;
  au_epoch : ∀ site, gw_site_authority gw = true → gw_site_id gw = Some site → consequential e = true →
    ∃ epoch auth, av_site_epoch e = Some epoch ∧ Ev _ (ORequireEpoch site epoch) (Ok auth) ∈ h;
  au_approved : needs_approval gw e = true → approved e h;
  au_admitted : ∃ executor row, Ev _ (OBegin e executor) (Ok row) ∈ h
}.

(** Facts about a history that later events keep. *)
Class Stable (F : list (event (@gop X)) → Prop) := stable : ∀ ev h, F h → F (ev :: h).
#[local] Instance stable_pure (P : Prop) : Stable (λ _, P).
Proof. by intros ev h. Qed.
#[local] Instance stable_in ev0 : Stable (λ h, ev0 ∈ h).
Proof. intros ev h. by right. Qed.
#[local] Instance stable_and F G : Stable F → Stable G → Stable (λ h, F h ∧ G h).
Proof. intros HF HG ev h [? ?]. split; by apply stable. Qed.
#[local] Instance stable_impl (P : Prop) F : Stable F → Stable (λ h, P → F h).
Proof. intros HF ev h H HP. apply stable. by apply H. Qed.
#[local] Instance stable_ex {A} (F : A → list (event (@gop X)) → Prop) :
  (∀ a, Stable (F a)) → Stable (λ h, ∃ a, F a h).
Proof. intros HF ev h [a Ha]. exists a. by apply stable. Qed.
#[local] Instance stable_approved e : Stable (approved e).
Proof.
  intros ev h (id & g & now & H1 & H2 & H3 & H4 & H). exists id, g, now. split_and!; try done; try by right.
  all: apply H.
Qed.

Variable e0 : ActionEnvelope.
Definition authorizing (h : list (event (@gop X))) (R : Type) (o : @gop X R) : Prop :=
  match o with
  | OExecute a e => authorized e0 a e h
  | ONormalize a _ | OValidate a _ | OObservePre a _ | OObservePost a _ _ | OReconcile a _ _ => a = gw_adapter gw
  | _ => True
  end.

(** A guard keeps the facts gathered so far and adds [G] when it passes. *)
Definition establishes {A} (p : prog (@gop X) A) (G : list (event (@gop X)) → A → Prop) : Prop :=
  ∀ (F : list (event (@gop X)) → Prop) (_ : Stable F) h, F h →
    allowed authorizing h p (λ h' r, match r with Ok a => F h' ∧ G h' a | Err _ => True end).

Lemma establishes_bind {A B} (p : prog gop A) (f : A → prog gop B) G F `{!Stable F} h :
  establishes p G → F h →
  (∀ h' a, F h' → G h' a → allowed authorizing h' (f a) (λ _ _, True)) →
  allowed authorizing h (p ≫= f) (λ _ _, True).
Proof.
  intros Hp Hh Hf. apply allowed_bind. eapply allowed_mono; [|by apply (Hp F)].
  intros h' [a|x] H; [|done]. destruct H. by apply Hf.
Qed.

Lemma op_establishes {R} (o : gop R) : (∀ h, authorizing h R o) →
  establishes (Programs.call o) (λ h a, Ev R o (Ok a) ∈ h).
Proof.
  intros Ho F HF h Hh. split; [apply Ho|]. intros [a|x]; [|done]. split; [by apply stable|by left].
Qed.

Lemma authorize_establishes e : establishes (_authorize_project gw e) (λ _ _,
  av_project_id e = gw_project_id gw
  ∧ ∀ x, x ∈ av_requested_scopes e ∨ x ∈ am_scopes (ia_manifest (gw_adapter gw)) → x ∈ gw_allowed_scopes gw).
Proof.
  intros F HF h Hh. unfold _authorize_project.
  assert (∀ l1 l2, subset l1 l2 = true → ∀ x, x ∈ l1 → x ∈ l2) as Hsub.
  { intros l1 l2 H x Hx. unfold subset in H. rewrite forallb_forall in H.
    apply list_elem_of_In, H in Hx. unfold one_of in Hx. by bool_to_prop. }
  keep; bool_to_prop; split; try done; split; try done.
  all: assert (∀ x, x ∈ av_requested_scopes e → x ∈ gw_allowed_scopes gw) as Hreq.
  1,3: intros x Hx; destruct (decide (x ∈ gw_allowed_scopes gw)) as [|Hn]; [done|]; exfalso;
    match goal with H : List.filter _ _ = [] |- _ => rename H into Hf end;
    assert (In x (List.filter (λ y, negb (one_of y (gw_allowed_scopes gw))) (av_requested_scopes e))) as Hin
      by (apply filter_In; split; [by apply list_elem_of_In|]; unfold one_of; by rewrite bool_decide_false);
    by rewrite Hf in Hin.
  - intros x [Hx|Hx]; [by apply Hreq|by eapply Hsub].
  - intros x [Hx|Hx]; [by apply Hreq|]. eapply Hsub in Hx; [|done].
    apply elem_of_app in Hx as [|]; [done|by apply Hreq].
Qed.

Lemma policy_establishes e : establishes (_evaluate_policy gw e) (λ _ _, True).
Proof. intros F HF h Hh. unfold _evaluate_policy. keep; done. Qed.

Lemma generations_establish e : establishes (_check_generations gw e) (λ _ _,
  av_lease_generation e = gw_current_lease_generation gw
  ∧ av_cancellation_generation e = gw_current_cancellation_generation gw).
Proof. intros F HF h Hh. unfold _check_generations. keep; bool_to_prop; done. Qed.

Definition in_epoch (e : ActionEnvelope) (h : list (event (@gop X))) : Prop :=
  ∀ site, gw_site_authority gw = true → gw_site_id gw = Some site → consequential e = true →
    ∃ epoch auth, av_site_epoch e = Some epoch ∧ Ev _ (ORequireEpoch site epoch) (Ok auth) ∈ h.
#[local] Instance stable_epoch e : Stable (in_epoch e).
Proof. intros ev h H site H1 H2 H3. destruct (H site H1 H2 H3) as (ep & au & ? & ?). exists ep, au. split; [done|by right]. Qed.

Lemma epoch_establishes e : establishes (_check_site_epoch gw e) (λ h _, in_epoch e h).
Proof.
  intros F HF h Hh. unfold _check_site_epoch, in_epoch.
  destruct (gw_site_authority gw); [|by keep].
  destruct (gw_site_id gw) as [site|]; [|keep; split; [done|congruence]].
  destruct (av_site_epoch e) as [ep|]; keep; try done.
  - split; [by apply stable|]. intros site' _ [= <-] _. exists ep, a. split; [done|by left].
  - split; [done|]. congruence.
Qed.

Lemma approval_establishes e ef :
  establishes (_require_exact_approval gw e ef) (λ h _, needs_approval gw e = true → approved e h).
Proof.
  intros F HF h Hh. unfold _require_exact_approval. destruct (needs_approval gw e); cbn [negb]; [|by keep].
  unfold binds_exactly. keep; try done. split; [by repeat apply stable|]. intros _.
  destruct (av_approval_id e) as [id|] eqn:Hid; [|done]. simpl in *.
  subst a. rename a0 into g0, a1 into now. unfold grant_active in *. exists id, g0, now.
  repeat match goal with H : negb _ = false |- _ => apply negb_false_iff in H end.
  destruct (bool_decide (is_Some (ag_revoked_at g0))) eqn:Hrev; [done|].
  destruct (ag_expires_at g0 <=? now) eqn:Hexp; [done|]. bool_to_prop.
  split_and!; [done|done|by right; left|by left|by apply eq_None_not_Some|lia|]. unfold exact. split_and!; try done.
  intros Ht. match goal with H : truthy _ = false ∨ _ |- _ => destruct H as [|Hk] end; [congruence|].
  by bool_to_prop.
Qed.

Lemma admit_establishes e : establishes (admit_effect e) (λ h r,
  match r with inr _ => ∃ executor row, Ev _ (OBegin e executor) (Ok row) ∈ h | inl _ => True end).
Proof.
  intros F HF h Hh. unfold admit_effect, _terminal_or_fail. keep; try done.
  - split; [by repeat apply stable|]. eexists _, _. by left.
  - destruct e1; keep; try done. split; [by repeat apply stable|done].
Qed.

Lemma finalize_authorizing e id en h : allowed authorizing h (_finalize payload_hash e id en) (λ _ _, True).
Proof. unfold _finalize, _build_receipt. keep; done. Qed.

Lemma run_authorizing e F `{!Stable F} h :
  (∀ h, F h → authorized e0 (gw_adapter gw) e h) → F h →
  allowed authorizing h (run_adapter payload_hash gw e) (λ _ _, True).
Proof.
  intros HF Hh. unfold run_adapter. keep; try done; try apply finalize_authorizing.
  all: apply HF; by repeat apply stable.
Qed.

(** What the fences have established when the effect is looked up. *)
Definition static (e : ActionEnvelope) : Prop :=
  av_project_id e = gw_project_id gw
  ∧ (∀ x, x ∈ av_requested_scopes e ∨ x ∈ am_scopes (ia_manifest (gw_adapter gw)) → x ∈ gw_allowed_scopes gw)
  ∧ av_lease_generation e = gw_current_lease_generation gw
  ∧ av_cancellation_generation e = gw_current_cancellation_generation gw.
Definition fenced (e : ActionEnvelope) (h : list (event (@gop X))) : Prop :=
  static e ∧ Ev _ (OValidate (gw_adapter gw) e) (Ok ()) ∈ h ∧ in_epoch e h.
#[local] Instance stable_fenced e : Stable (fenced e).
Proof. intros ev h (H1 & H2 & H3). split; [done|]. split; [by right|by apply stable]. Qed.

Lemma approve_authorizing e ef h : e = ensure_hashes payload_hash e0 → fenced e h →
  allowed authorizing h (approve_and_run payload_hash gw e ef) (λ _ _, True).
Proof.
  intros He Hh. unfold approve_and_run.
  eapply (establishes_bind _ _ _ (fenced e)); [apply approval_establishes|done|]. intros h1 u H1 Ha1.
  eapply (establishes_bind _ _ _ (λ h, fenced e h ∧ (needs_approval gw e = true → approved e h)));
    [apply admit_establishes|done|].
  intros h2 [r|ef'] H2 Ha2; [by keep|].
  apply (run_authorizing e (λ h, (fenced e h ∧ (needs_approval gw e = true → approved e h))
    ∧ ∃ executor row, Ev _ (OBegin e executor) (Ok row) ∈ h)); [|done].
  intros h' [[(Hs & Hv & Hep) Hap] Had]. destruct Hs as (? & ? & ? & ?). by split.
Qed.

Lemma execute_authorizing h0 : allowed authorizing h0 (execute_envelope payload_hash gw e0) (λ _ _, True).
Proof.
  unfold execute_envelope. cbv zeta. remember (ensure_hashes payload_hash e0) as e eqn:He.
  eapply (establishes_bind _ _ _ (λ _, True)); [by apply op_establishes|done|]. intros h1 [] ? H1.
  eapply (establishes_bind _ _ _ (λ h, Ev _ (OValidate (gw_adapter gw) e) (Ok ()) ∈ h));
    [apply authorize_establishes|done|]. intros h2 u2 H2 [Hproj Hscopes].
  eapply (establishes_bind _ _ _ (λ h, Ev _ (OValidate (gw_adapter gw) e) (Ok ()) ∈ h));
    [apply policy_establishes|done|]. intros h3 u3 H3 _.
  eapply (establishes_bind _ _ _ (λ h, Ev _ (OValidate (gw_adapter gw) e) (Ok ()) ∈ h));
    [apply generations_establish|done|]. intros h4 u4 H4 [Hlease Hcancel].
  eapply (establishes_bind _ _ _ (λ h, Ev _ (OValidate (gw_adapter gw) e) (Ok ()) ∈ h));
    [apply epoch_establishes|done|]. intros h5 u5 H5 Hep.
  eapply (establishes_bind _ _ _ (fenced e)); [by apply op_establishes|by split|]. intros h6 ef H6 _.
  destruct ef as [ef|]; [|by apply approve_authorizing].
  repeat case_bool_decide; [unfold _terminal_or_fail; keep; done| |by apply approve_authorizing].
  unfold _reconcile_unknown. keep; try done. apply finalize_authorizing.
Qed.
End authorized.

(** ** Systems of gateways *)
(** The public methods, with the gateway they are called on. *)
Inductive gateway_call (X : Type) :=
| CallExecute (gw : @Gateway X) (envelope : ActionEnvelope)
| CallRequest (gw : @Gateway X) (request : dict json)
| CallReconcile (gw : @Gateway X) (envelope : ActionEnvelope)
| CallMakeApproval (gw : @Gateway X) (envelope : ActionEnvelope) (grantor : string) (expires max_count : Z)
| CallPutApproval (gw : @Gateway X) (id : string) (grant : ApprovalGrant)
| CallRevokeApproval (gw : @Gateway X) (id revoked_by reason : string).
Arguments CallExecute {X}. Arguments CallRequest {X}. Arguments CallReconcile {X}.
Arguments CallMakeApproval {X}. Arguments CallPutApproval {X}. Arguments CallRevokeApproval {X}.

Definition program {X} (payload_hash : json → string) (c : gateway_call X) : prog gop () :=
  match c with
  | CallExecute gw e => execute_envelope payload_hash gw e;; mret ()
  | CallRequest gw req => execute_request payload_hash gw req;; mret ()
  | CallReconcile gw e => reconcile payload_hash gw e;; mret ()
  | CallMakeApproval gw e g x m => make_approval payload_hash gw e g x m;; mret ()
  | CallPutApproval gw id g => put_approval gw id g;; mret ()
  | CallRevokeApproval gw id b r => revoke_approval gw id b r;; mret ()
  end.
Definition launched {X} (payload_hash : json → string) (p : prog gop ()) : Prop :=
  ∃ c : gateway_call X, p = program payload_hash c.

Lemma done_after {X A} (P : list (event (@gop X)) → ∀ R, gop R → Prop) h (p : prog gop A) :
  allowed P h p (λ _ _, True) → allowed P h (p;; mret ()) (λ _ _, True).
Proof. intros H. apply allowed_bind. eapply allowed_mono; [|exact H]. by intros h' []. Qed.

Lemma launched_keeps {X} payload_hash (p : prog (@gop X) ()) :
  launched payload_hash p → keeps (protocol payload_hash) (Thread [] p).
Proof.
  assert (even (X := X) []) as H0 by (by intros k).
  intros [c ->]. unfold keeps. destruct c; cbn [program th_history th_prog]; apply done_after.
  - by apply execute_keeps.
  - unfold execute_request. apply fair_bind; [by apply op_keeps|]. intros h e He. by apply execute_keeps.
  - unfold reconcile. apply fair_bind; [by apply op_keeps|]. intros h found Hh.
    keep; apply reconcile_keeps.
  - unfold make_approval, put_approval. keep; done.
  - unfold put_approval. keep; done.
  - unfold revoke_approval. keep; done.
Qed.

(** C2: No execution without authorization: in any run of execute_envelope, whatever the
    store, the adapter, the authority and the clock reply, each call of the adapter's
    execute is for the given envelope on the gateway's own adapter and comes after: the
    adapter validated the envelope; its project, its scopes and the adapter's scopes and
    its lease and cancellation generations are the gateway's; the site authority accepted
    its epoch if it is consequential and an authority is wired; a store admission for it
    returned; and, if it is consequential or riskier than allowed without approval, the
    store returned for its project the approval it names, unrevoked, unexpired at a clock
    reading, and equal to the envelope in integration, version, operation, destination,
    payload hash, policy version and (when bound) effect key. *)
Theorem executions_are_authorized {X W In : Type} (payload_hash : json → string) (gw : @Gateway X)
    (envelope : ActionEnvelope) (perform : ∀ R, gop R → In → W → result R * W) inputs w r h w' :
  run perform inputs [] (execute_envelope payload_hash gw envelope) w = (r, h, w') →
  ∀ later a e reply before, h = later ++ Ev _ (OExecute a e) reply :: before →
    authorized payload_hash gw envelope a e before.
Proof.
  intros Hrun later a e reply before ->.
  pose proof (run_admitted perform _ _ _ _ _ _ _ _ _ (execute_authorizing payload_hash gw envelope []) Hrun I) as H.
  apply all_admitted_suffix in H. apply H.
Qed.

Section theorems.
Context {X : Type}.
Variable payload_hash : json → string.
Variable authority_hash : string → Z → string → string → string.

(** Gateways over one store, with their calls interleaved at every collaborator. *)
Definition system {S} `{!StoreApi S} : relation (World S X * list (thread gop)) :=
  pool_step (perform authority_hash) (launched payload_hash).

Lemma system_inv {S} `{!StoreApi S, !EffectStore S, !GatewayStore payload_hash S} auth ext c :
  rtc system (mkWorld empty_store auth ext, []) c → pool_inv payload_hash c.
Proof.
  intros Hr. eapply (rtc_invariant system (pool_inv payload_hash)); [|exact Hr|apply pool_inv_start].
  intros a b Ha Hab. apply (pool_inv_step payload_hash authority_hash (launched payload_hash)) with a; [|exact Hab|exact Ha].
  intros p Hp. by apply launched_keeps.
Qed.

(** C1: At most one execution per effect: start any number of gateways with any
    configuration over one empty store, in memory or durable, call their methods with any
    arguments, any number of times, and interleave the calls at every store, adapter,
    authority and clock access in any way; the adapters' execute is called at most once
    for each project and effect key, whatever adapters and clocks do. *)
Theorem effects_execute_at_most_once (k : effect_key_t) :
  (∀ auth ext w ts, rtc (@system DbStore (durable_api payload_hash)) (mkWorld (mkDbStore ∅ ∅ ∅) auth ext, []) (w, ts) →
     total_of (executed k) ts <= 1)
  ∧ ∀ auth ext w ts, rtc (@system MemStore (mem_api payload_hash)) (mkWorld (mkMemStore ∅ [] ∅) auth ext, []) (w, ts) →
     total_of (executed k) ts <= 1.
Proof.
  split; intros auth ext w ts Hr.
  - exact (pool_inv_executions payload_hash _ k
      (@system_inv DbStore _ _ (durable_gateway_store payload_hash) auth ext _ Hr)).
  - exact (pool_inv_executions payload_hash _ k
      (@system_inv MemStore _ _ (mem_gateway_store payload_hash) auth ext _ Hr)).
Qed.
End theorems.
