(* ===== verification/GatewayRuns.v ===== *)
(** * GatewayRuns: runs of a gateway

    Effects whose outcome is known or unknown are not executed again by a run; recovering a
    browser session submits nothing; concrete runs on the browser adapter. *)
From S2P Require Import Prelude Programs Collections Contracts Json Actions Authority EffectStore EffectProps EffectTheorems Gateway Adapters GatewayProps GatewayTheorems.
Open Scope Z_scope.

Section runs.
Context {S X : Type} `{!StoreApi S}.
Variable payload_hash : json → string.
Variable authority_hash : string → Z → string → string → string.
Variable inputs : nat → Input.
Variable gw : @Gateway X.
Abbreviation run := (run (perform (S := S) (X := X) authority_hash) inputs).
Abbreviation history := (list (event (@gop X))).

Definition is_execute (ev : event (@gop X)) : bool :=
  match ev_op ev with OExecute _ _ => true | _ => false end.
Definition clean (h : history) : Prop := Forall (λ ev, is_execute ev = false) h.

(** Operations that neither write the store nor execute. *)
Definition reading (h : history) (R : Type) (o : @gop X R) : Prop :=
  match o with
  | OPut _ _ | ORevoke _ _ _ _ | OReserve _ | OBegin _ _ | OAttach _ _ | OFinalize _ _ _ _ | OExecute _ _ => False
  | _ => True
  end.

Lemma reading_step R (o : @gop X R) h i w r w' :
  reading h R o → perform authority_hash R o i w = (r, w') → wd_store w' = wd_store w ∧ is_execute (Ev R o r) = false.
Proof.
  destruct o; simpl; try done; intros _; unfold perform, on_external, on_authority;
    try (intros Hrun; by simplify_eq).
  all: match goal with |- context [let '(_, _) := ?m in _] => destruct m end; intros Hrun; by simplify_eq.
Qed.

(** What holds after a run. *)
Definition after {A} (h : history) (p : prog gop A) (w : World S X)
    (Φ : result A → history → World S X → Prop) : Prop :=
  match run h p w with (r, h', w') => Φ r h' w' end.

Lemma after_reading {A} h (p : prog gop A) w :
  allowed reading h p (λ _ _, True) → clean h →
  after h p w (λ _ h' w', wd_store w' = wd_store w ∧ clean h').
Proof.
  unfold after. revert h w; induction p as [r0|R o k IH]; intros h w; simpl; [done|].
  intros [Ho Hk] Hh. destruct (perform _ _ _ _) as [r1 w1] eqn:Hp.
  destruct (reading_step _ _ _ _ _ _ _ Ho Hp) as [Hs He].
  specialize (IH r1 (Ev R o r1 :: h) w1 (Hk r1) ltac:(by constructor)).
  destruct (run _ _ _) as [[r h'] w']. destruct IH as [-> ?]. by split.
Qed.

(** After a part that only reads, the store is as before. *)
Lemma after_bind {A B} h (p : prog gop A) (f : A → prog gop B) w Φ :
  allowed reading h p (λ _ _, True) → clean h →
  (∀ x h' w', wd_store w' = wd_store w → clean h' → Φ (Err x) h' w') →
  (∀ a h' w', wd_store w' = wd_store w → clean h' → after h' (f a) w' Φ) →
  after h (p ≫= f) w Φ.
Proof.
  intros Hp Hh Herr Hok. pose proof (after_reading h p w Hp Hh) as H. unfold after in *.
  unfold mbind, prog_bind. rewrite run_pbind. destruct (run h p w) as [[[a|x] h'] w'];
    destruct H as [H1 H2]; [by apply Hok|by apply Herr].
Qed.

(** Performing one operation. *)
Lemma after_call {R B} h (o : gop R) (f : R → prog gop B) w Φ :
  (∀ r w', perform authority_hash R o (inputs (length h)) w = (r, w') →
     match r with Ok a => after (Ev R o (Ok a) :: h) (f a) w' Φ | Err x => Φ (Err x) (Ev R o (Err x) :: h) w' end) →
  after h (Programs.call o ≫= f) w Φ.
Proof.
  intros H. unfold after in *. simpl. destruct (perform _ _ _ _) as [r w'] eqn:Hp.
  specialize (H r w' eq_refl). by destruct r.
Qed.

Lemma clean_cons R (o : gop R) r h : is_execute (Ev R o r) = false → clean h → clean (Ev R o r :: h).
Proof. by constructor. Qed.

Ltac reads := unfold _authorize_project, _evaluate_policy, _check_generations, _check_site_epoch, _build_receipt;
  keep; done.
Lemma epoch_reads h e : allowed reading h (_check_site_epoch gw e) (λ _ _, True).
Proof. unfold _check_site_epoch. destruct (gw_site_authority gw), (gw_site_id gw); keep; done. Qed.

(** The pipeline up to the lookup of the effect only reads. *)
Lemma after_guards e Φ w :
  let e' := ensure_hashes payload_hash e in
  (∀ x h w', wd_store w' = wd_store w → clean h → Φ (Err x) h w') →
  (∀ h w', wd_store w' = wd_store w → clean h →
     after h (match api_get (key_of e') (wd_store w) with
       | Some effect => if bool_decide (ef_state effect = "succeeded") then _terminal_or_fail e'
           else if bool_decide (ef_state effect = "unknown") then _reconcile_unknown payload_hash gw e' effect
           else approve_and_run payload_hash gw e' (Some effect)
       | None => approve_and_run payload_hash gw e' None end) w' Φ) →
  after [] (execute_envelope payload_hash gw e) w Φ.
Proof.
  intros e' Herr Hok. unfold execute_envelope. fold e'. cbv zeta.
  apply after_bind; [keep; done|by constructor|done|]. intros _ h1 w1 H1 C1.
  apply after_bind; [reads|done|intros; apply Herr; congruence|]. intros _ h2 w2 H2 C2.
  apply after_bind; [reads|done|intros; apply Herr; congruence|]. intros _ h3 w3 H3 C3.
  apply after_bind; [reads|done|intros; apply Herr; congruence|]. intros _ h4 w4 H4 C4.
  apply after_bind; [apply epoch_reads|done|intros; apply Herr; congruence|]. intros _ h5 w5 H5 C5.
  apply after_call. intros r w6 [= <- <-].
  assert (wd_store w5 = wd_store w) as Hw by congruence. rewrite Hw.
  specialize (Hok (Ev _ (OGet (key_of e')) (Ok (api_get (key_of e') (wd_store w))) :: h5) w5 Hw
    ltac:(by constructor)).
  by destruct (api_get (key_of e') (wd_store w)).
Qed.

Lemma after_done {A} h (r : result A) w Φ : Φ r h w → after h (Done r) w Φ.
Proof. done. Qed.

(** A reconciliation reports what the adapter found, and finalizes with it. *)
Definition reconciled (e : ActionEnvelope) (h : history) (rc : ActionReceiptV17) : Prop :=
  ∃ prior res j state fz rid r0, Ev _ (OReconcile (gw_adapter gw) e prior) (Ok res) ∈ h
    ∧ dict_get res "state" = Some j ∧ py_str j = state ∧ state ∈ ["succeeded"; "failed"]
    ∧ Ev _ (OFinalize (key_of e) fz rid r0) (Ok rc) ∈ h ∧ fz_state fz = state ∧ ar_outcome r0 = state.

Lemma after_finalize h e id en w : clean h →
  after h (_finalize payload_hash e id en) w (λ r h' w',
    clean h' ∧ (∀ ev, ev ∈ h → ev ∈ h') ∧ ∀ rc, r = Ok rc →
    ∃ fz rid r0, Ev _ (OFinalize (key_of e) fz rid r0) (Ok rc) ∈ h' ∧ fz_state fz = en_state en
      ∧ ar_outcome r0 = en_state en).
Proof.
  intros Hh. unfold _finalize. destruct (optional_str _) as [x|x]; [|by apply after_done].
  unfold _build_receipt, after. cbn. destruct (on_store _ _) as [r w1] eqn:Hs. cbn.
  split; [by repeat constructor|]. split; [intros ev Hev; by do 4 right|].
  intros rc ->. eexists _, _, _. split; [by left|]. by split.
Qed.

Lemma after_reconcile h e ef w : clean h →
  after h (_reconcile_unknown payload_hash gw e ef) w (λ r h' w',
    clean h' ∧ ∀ rc, r = Ok rc → reconciled e h' rc).
Proof.
  intros Hh. unfold _reconcile_unknown.
  apply after_call. intros r w1 [= <- <-]. apply after_call. intros [res|x] w2 Hp; [|split; [by repeat constructor|done]].
  cbv zeta. destruct (one_of _ _) eqn:Ho; [|split; [by repeat constructor|done]].
  destruct (dict_get res "state") as [j|] eqn:Hj; [|done].
  match goal with |- after ?h1 (_finalize _ ?e1 ?id1 ?en1) ?w' _ =>
    pose proof (after_finalize h1 e1 id1 en1 w' ltac:(by repeat constructor)) as H end.
  unfold after in *. destruct (run _ _ _) as [[r' h'] w']. destruct H as (H1 & H2 & H3). split; [done|].
  intros rc Hrc. destruct (H3 rc Hrc) as (fz & rid & r0 & Hin & Hs & Hout).
  unfold one_of in Ho. bool_to_prop. exists (api_list_receipts (key_of e).1 (key_of e).2 (wd_store w)), res, j, (py_str j), fz, rid, r0.
  split_and!; try done. apply H2. by left.
Qed.

(** Settled effects are not executed again: a run of execute_envelope on an effect the
    store has as succeeded or unknown never calls the adapter's execute.  For a succeeded
    one the store is left as it is and what is returned is the receipt it has on record for
    the success.  For an unknown one a receipt is returned only when the adapter's
    reconcile said succeeded or failed, and it is the one recorded with that outcome. *)
Theorem settled_effects_are_not_executed (envelope : ActionEnvelope) (effect : Effect)
    (w : World S X) r h w' :
  let e := ensure_hashes payload_hash envelope in
  api_get (key_of e) (wd_store w) = Some effect → one_of (ef_state effect) ["succeeded"; "unknown"] = true →
  run [] (execute_envelope payload_hash gw envelope) w = (r, h, w') →
  (∀ ev, ev ∈ h → is_execute ev = false)
  ∧ (ef_state effect = "succeeded" → wd_store w' = wd_store w
     ∧ ∀ rc, r = Ok rc → api_terminal_receipt (av_project_id e) (av_effect_key e) (wd_store w) = Some rc)
  ∧ (ef_state effect = "unknown" → ∀ rc, r = Ok rc → reconciled e h rc).
Proof.
  intros e Hget Hst Hrun.
  assert (after [] (execute_envelope payload_hash gw envelope) w (λ r h w', clean h
    ∧ (ef_state effect = "succeeded" → wd_store w' = wd_store w
       ∧ ∀ rc, r = Ok rc → api_terminal_receipt (av_project_id e) (av_effect_key e) (wd_store w) = Some rc)
    ∧ (ef_state effect = "unknown" → ∀ rc, r = Ok rc → reconciled e h rc))) as H.
  { apply after_guards; [by intros|]. fold e. rewrite Hget. intros h0 w0 Hw Hh.
    case_bool_decide as Hsucc; [|rewrite bool_decide_true].
    - unfold _terminal_or_fail. apply after_call. intros r1 w1 [= <- <-]. rewrite Hw.
      destruct (api_terminal_receipt _ _ (wd_store w)) as [rc|] eqn:Hrc; apply after_done.
      + split; [by constructor|]. split; [|by rewrite Hsucc]. intros _. split; [done|]. by intros rc' [= <-].
      + split; [by constructor|]. by split.
    - pose proof (after_reconcile h0 e effect w0 Hh) as H. unfold after in *.
      destruct (run h0 _ w0) as [[r1 h1] w1]. destruct H as [H1 H2]. split; [done|]. by split.
    - unfold one_of in Hst. bool_to_prop. by rewrite !elem_of_cons in Hst; destruct Hst as [?|[?|?%elem_of_nil]]. }
  unfold after in H. rewrite Hrun in H. destruct H as (H1 & H2 & H3). split; [|done].
  intros ev Hev. unfold clean in H1. rewrite Forall_forall in H1. by apply H1.
Qed.
End runs.

(** ** Recovery of browser sessions *)
Section recovery.
Context {S : Type} `{!StoreApi S}.
Variable payload_hash : json → string.
Variable authority_hash : string → Z → string → string → string.
Variable gateway : @Gateway Browser.
Hypothesis on_browser : gw_adapter gateway = BrowserSessionAdapter payload_hash.

(** Executions on the browser adapter that do not submit. *)
Definition no_submit (h : list (event (@gop Browser))) (R : Type) (o : gop R) : Prop :=
  match o with
  | ONormalize a _ | OValidate a _ | OObservePre a _ | OObservePost a _ _ | OReconcile a _ _ =>
      a = BrowserSessionAdapter payload_hash
  | OExecute a e => a = BrowserSessionAdapter payload_hash ∧ av_operation e ≠ "submit"
  | _ => True
  end.

Definition submitted (w : World S Browser) : gset string := bs_submitted (wd_external w).

Lemma envelope_of_external {X} man i req op dest pl side risk ap (x : X) :
  (envelope_of payload_hash man i req op dest pl side risk ap x).2 = x
  ∧ ∀ e x', envelope_of payload_hash man i req op dest pl side risk ap x = (Ok e, x') → av_operation e = strip op.
Proof.
  unfold envelope_of.
  split.
  - unfold mbind, M_bind, of_result. repeat case_match; by simplify_eq.
  - intros e x' Hrun. run_inv. unfold ensure_hashes. repeat case_match; reflexivity.
Qed.

Lemma normalize_quiet i req b : (browser_normalize payload_hash i req b).2 = b.
Proof.
  unfold browser_normalize. set (P := λ x : result ActionEnvelope * Browser, x.2 = b).
  match goal with |- snd ?run = b => change (P run) end. run_rule P; [done|]. apply envelope_of_external.
Qed.
Lemma validate_quiet e b : (browser_validate e b).2 = b.
Proof.
  unfold browser_validate, raise_if. destruct (negb _); [done|].
  unfold mbind, M_bind. cbn. by destruct (contains _ _).
Qed.
Lemma execute_quiet i e b :
  av_operation e ≠ "submit" → bs_submitted (browser_execute i e b).2 = bs_submitted b.
Proof.
  intros Hop. unfold browser_execute, mbind, M_bind, get_state.
  destruct (match bs_sessions b !! _ with Some _ => _ | None => _ end); [done|].
  rewrite bool_decide_false by done. by case_match.
Qed.
Lemma reconcile_quiet i e prior b : (browser_reconcile i e prior b).2 = b.
Proof. unfold browser_reconcile, mbind, M_bind, get_state. by case_match. Qed.

Lemma no_submit_step h R (o : gop R) i (w w' : World S Browser) r U :
  no_submit h R o → perform authority_hash R o i w = (r, w') → submitted w = U → submitted w' = U.
Proof.
  unfold submitted. intros Ho. destruct o; simpl in Ho; unfold perform, on_store, on_external, on_authority;
    try match goal with |- context [let '(_, _) := ?m in _] => destruct m as [r1 x1] eqn:Hm end;
    intros [= <- <-] HU; try done; cbn [wd_external] in *; rewrite <- HU;
    try (replace x1 with (r1, x1).2 by done; rewrite <- Hm).
  - rewrite Ho. cbn [ia_normalize BrowserSessionAdapter]. by rewrite normalize_quiet.
  - rewrite Ho. cbn [ia_validate BrowserSessionAdapter]. by rewrite validate_quiet.
  - by rewrite Ho.
  - destruct Ho as [-> Ho]. by apply execute_quiet.
  - by rewrite Ho.
  - rewrite Ho. cbn [ia_reconcile BrowserSessionAdapter]. by rewrite reconcile_quiet.
Qed.

(** An envelope that does not submit is executed without submitting. *)
Lemma execute_no_submit h0 e : av_operation (ensure_hashes payload_hash e) ≠ "submit" →
  allowed no_submit h0 (execute_envelope payload_hash gateway e) (λ _ _, True).
Proof.
  intros He. eapply allowed_weaken; [|apply execute_authorizing]. intros h R o Ho.
  destruct o; simpl in *; try done; try congruence. destruct Ho as [-> -> _ _ _ _ _ _ _ _]. by split.
Qed.

Lemma ensure_hashes_operation e : av_operation (ensure_hashes payload_hash e) = av_operation e.
Proof. unfold ensure_hashes. by repeat case_match. Qed.

Lemma normalize_navigates i ref e b env b' :
  browser_normalize payload_hash i (navigate_request ref e) b = (Ok env, b') → av_operation env = "navigate".
Proof.
  unfold browser_normalize. intros Hrun. apply bind_Ok in Hrun as (form & b1 & _ & Hrun).
  by apply envelope_of_external in Hrun.
Qed.

Lemma request_submits_nothing inputs ref e (w : World S Browser) r h w' :
  run (perform authority_hash) inputs [] (execute_request payload_hash gateway (navigate_request ref e)) w = (r, h, w') →
  submitted w' = submitted w.
Proof.
  unfold execute_request, mbind, prog_bind. rewrite run_pbind, on_browser.
  cbn [run Programs.call perform ia_normalize BrowserSessionAdapter length]. unfold on_external.
  destruct (browser_normalize _ _ _ _) as [[env|x] b'] eqn:Hn.
  - pose proof (normalize_navigates _ _ _ _ _ _ Hn) as Hop. pose proof (normalize_quiet (inputs 0%nat) (navigate_request ref e) (wd_external w)) as Hq.
    rewrite Hn in Hq. cbn [snd] in Hq. subst b'. intros Hrun.
    eapply (run_invariant _ no_submit _ (λ w', submitted w' = submitted w)); [|apply execute_no_submit|exact Hrun|reflexivity].
    + intros h0 R o i0 w0 r0 w0' Ho Hp Hw. by eapply no_submit_step.
    + rewrite ensure_hashes_operation, Hop. done.
  - intros [= <- <- <-]. pose proof (normalize_quiet (inputs 0%nat) (navigate_request ref e) (wd_external w)) as Hq.
    rewrite Hn in Hq. cbn [snd] in Hq. by subst b'.
Qed.

(** Recovering a browser session submits nothing: whatever the session, the envelope it
    resumes, the store and the clock, and whether a login is performed or the navigation is
    refused, the submissions the browser adapter has made are after recover what they were
    before. *)
Theorem recovery_submits_nothing i inputs ref e login (w : World S Browser) :
  bs_submitted (wd_external (recover payload_hash authority_hash gateway i inputs ref e login w).2)
  = bs_submitted (wd_external w).
Proof.
  change (submitted (recover payload_hash authority_hash gateway i inputs ref e login w).2 = submitted w).
  unfold recover. set (P := λ x : result SessionRecoveryResult * World S Browser, submitted x.2 = submitted w).
  match goal with |- submitted (snd ?run) = _ => change (P run) end.
  apply (run_bind P); [by intros x s1 [= <- <-]|]. intros _ w1 [= _ <-].
  apply (run_bind P); [by intros x s1 [= <- <-]|]. intros pre w2 [= <- <-].
  apply (run_bind P).
  - intros x w3 Hx. case_match; by injection Hx.
  - intros notes w3 Hw3. assert (submitted w3 = submitted w) as H3.
    { case_match; injection Hw3 as _ <-; reflexivity. }
    assert (∀ r3 w4, run_gateway authority_hash inputs
      (execute_request payload_hash gateway (navigate_request ref e)) w3 = (r3, w4) → submitted w4 = submitted w) as Hr.
    { unfold run_gateway. intros r3 w4. destruct (run _ _ _ _ _) as [[r4 h4] w5] eqn:Hrun.
      intros [= <- <-]. rewrite <- H3. by eapply request_submits_nothing. }
    apply (run_bind P); [intros x w4 Hx; by eapply Hr|]. intros rc w4 Hrc. by eapply Hr.
Qed.
End recovery.

(** ** Sample runs: a browser gateway over the in-memory store *)
Module GatewaySample.
Definition hash (j : json) : string := "digest".
Definition auth_hash (a : string) (n : Z) (b c : string) : string := "auth".
Definition inputs (n : nat) : Input := mkInput 1000 1000 (pretty (Z.of_nat n)).
#[export] Instance sample_api : StoreApi MemStore := mem_api hash.

Definition gateway : @Gateway Browser :=
  mkGateway (BrowserSessionAdapter hash) "p" ["browser.session"] 1 0 "low" false None.
Definition session : BrowserSessionRef :=
  mkSessionRef "sess_local" "profile_safe" "https://example.test" "" None false "ok".
Definition start : World MemStore Browser :=
  mkWorld (mkMemStore ∅ [] ∅) (mkAuthorityService ∅ []) (mkBrowser {["sess_local" := session]} ∅).

Definition request (operation : string) : dict json :=
  [("project_id", JStr "p"); ("operation", JStr operation); ("destination", JStr "https://example.test/pay");
   ("approval_id", JStr "apr_1")].
Definition envelope (operation : string) : ActionEnvelope :=
  match browser_normalize hash (inputs 7) (request operation) (wd_external start) with
  | (Ok e, _) => e | _ => EffectSample.envelope None end.
Definition go {A} (p : prog gop A) (w : World MemStore Browser) :=
  run (perform (StoreApi0 := sample_api) auth_hash) inputs [] p w.

(** Approve, then execute. *)
Definition approve (operation : string) : World MemStore Browser :=
  (go (make_approval hash gateway (envelope operation) "operator" 300 1) start).2.
Definition submit_call : prog gop () := program hash (CallRequest gateway (request "submit")).
Definition key : effect_key_t := key_of (envelope "submit").

Definition approve_call : prog gop () :=
  program hash (CallMakeApproval gateway (envelope "submit") "operator" 300 1).
Definition first := go approve_call start.
Definition second := go submit_call first.2.
Definition third := go submit_call second.2.

Lemma submit_executes :
  (first.1.1, second.1.1, third.1.1) = (Ok (), Ok (), Ok ())
  ∧ count (executed key) second.1.2 = 1 ∧ count (executed key) third.1.2 = 0
  ∧ elements (bs_submitted (wd_external third.2)) = [av_effect_key (envelope "submit")].
Proof. split_and!; vm_compute; reflexivity. Qed.

(** The same three calls as steps of the system. *)
Definition state : Type := World MemStore Browser * list (thread (@gop Browser)).
Definition go_step (c : gateway_call Browser) (x : state) : state :=
  let '(r, h, w) := go (program hash c) x.1 in (w, x.2 ++ [Thread h (Done r)]).
Lemma go_step_system c x : rtc (@system Browser hash auth_hash MemStore (mem_api hash)) x (go_step c x).
Proof.
  destruct x as [w ts]. unfold go_step. cbn [fst snd].
  destruct (go (program hash c) w) as [[r h] w'] eqn:Hgo.
  eapply (run_launched _ _ inputs (program hash c)); [by exists c|exact Hgo].
Qed.
Definition final : state :=
  go_step (CallRequest gateway (request "submit")) (go_step (CallRequest gateway (request "submit"))
    (go_step (CallMakeApproval gateway (envelope "submit") "operator" 300 1) (start, []))).

Lemma effects_execute_at_most_once_witness :
  total_of (executed key) final.2 = 1 ∧ total_of (executed key) final.2 <= 1.
Proof.
  split; [vm_compute; reflexivity|].
  apply (proj2 (effects_execute_at_most_once hash auth_hash key) (wd_authority start) (wd_external start) final.1).
  etrans; [|rewrite <- surjective_pairing; apply go_step_system].
  etrans; [|apply go_step_system]. apply go_step_system.
Defined.

Lemma go_run {A} (p : prog gop A) w :
  run (perform (StoreApi0 := sample_api) auth_hash) inputs [] p w = ((go p w).1.1, (go p w).1.2, (go p w).2).
Proof. unfold go. by destruct (run _ _ _ _ _) as [[? ?] ?]. Qed.

Definition submit : ActionEnvelope := envelope "submit".
Abbreviation run2 := (go (execute_envelope hash gateway submit) first.2).
(** A history with an execution, split at it. *)
Lemma split_execution {X} (h : list (event (@gop X))) : existsb is_execute h = true →
  ∃ later a e reply before, h = later ++ Ev _ (OExecute a e) reply :: before.
Proof.
  induction h as [|ev h IH]; [done|]. simpl. destruct (is_execute ev) eqn:Hev; simpl.
  - intros _. destruct ev as [R o r]. destruct o; try done. by eexists [], _, _, _, h.
  - intros (later & a & e & reply & before & ->)%IH. by exists (ev :: later), a, e, reply, before.
Qed.
Lemma executions_are_authorized_witness :
  ∃ later a e reply before, run2.1.2 = later ++ Ev _ (OExecute a e) reply :: before
    ∧ authorized hash gateway submit a e before.
Proof.
  assert (existsb is_execute run2.1.2 = true) as Hx by (vm_compute; reflexivity).
  destruct (split_execution _ Hx) as (later & a & e & reply & before & Hh).
  exists later, a, e, reply, before. split; [exact Hh|].
  exact (executions_are_authorized hash gateway submit _ inputs first.2 _ _ _ (go_run _ first.2)
    later a e reply before Hh).
Defined.

Abbreviation run3 := (go (execute_envelope hash gateway submit) second.2).
Lemma settled_effects_are_not_executed_witness :
  (∀ ev, ev ∈ run3.1.2 → is_execute ev = false) ∧ wd_store run3.2 = wd_store second.2.
Proof.
  destruct (api_get (key_of (ensure_hashes hash submit)) (wd_store second.2)) as [ef|] eqn:Hef;
    [|vm_compute in Hef; discriminate].
  assert (Some (ef_state ef) = Some "succeeded") as Hs.
  { change (Some (ef_state ef)) with (ef_state <$> Some ef). rewrite <- Hef. vm_compute. reflexivity. }
  injection Hs as Hs.
  destruct (settled_effects_are_not_executed hash auth_hash inputs gateway submit ef second.2
    _ _ _ Hef ltac:(rewrite Hs; reflexivity) (go_run _ second.2)) as (H1 & H2 & _).
  split; [exact H1|]. exact (proj1 (H2 Hs)).
Defined.

Lemma recovery_submits_nothing_witness :
  elements (bs_submitted (wd_external (recover hash auth_hash gateway (inputs 0) inputs
    (session <| br_signed_out := true |>) (envelope "submit") true second.2).2))
  = [av_effect_key (envelope "submit")].
Proof. rewrite (recovery_submits_nothing hash auth_hash gateway eq_refl). vm_compute. reflexivity. Defined.

(** An adapter's result with outcome "failed" is recorded as succeeded: the browser adapter
    reports an operation it does not know as failed, and the gateway's receipt and the
    effect say succeeded. *)
Definition scroll := go (execute_request hash gateway (request "scroll")) (approve "scroll").
Lemma failed_outcome_is_recorded_as_succeeded :
  (browser_execute (inputs 0) (envelope "scroll") (wd_external start)).1
    = Ok [("outcome", JStr "failed"); ("reason", JStr "unknown_operation:scroll")]
  ∧ match scroll.1.1 with Ok r => ar_outcome r | Err _ => "" end = "succeeded"
  ∧ ef_state <$> Mem.get (key_of (envelope "scroll")) (wd_store scroll.2) = Some "succeeded".
Proof. split_and!; vm_compute; reflexivity. Qed.

(** A payload hash that comes with the envelope is not recomputed: under an approval of one
    payload, another payload with the approved hash is executed. *)
Definition forged : ActionEnvelope := (envelope "submit") <| av_normalized_payload :=
  [("session_alias", JStr "sess_local"); ("site_origin", JStr "https://example.test");
   ("form", JObj [("amount", JInt 1000000)])] |>.
Lemma preset_hash_is_trusted :
  av_normalized_payload forged ≠ av_normalized_payload (envelope "submit")
  ∧ ensure_hashes hash forged = forged
  ∧ existsb (λ ev, match ev_op ev with
      | OExecute _ e => bool_decide (av_payload_hash e = av_payload_hash (envelope "submit"))
      | _ => false end) (go (execute_envelope hash gateway forged) first.2).1.2 = true.
Proof. split_and!; [vm_compute; discriminate|vm_compute; reflexivity..]. Qed.
End GatewaySample.
