(* ===== verification/Extensions.v ===== *)
(** * Extensions: registered extensions and what projects grant them

    extensions/contracts.py, extensions/registry.py and extensions/loader.py.  Grants are kept in
    the order their keys were first used; the stored grant is the object the caller passed, and
    [disable] writes to it.  [build_gateway] gives an extension a [ConsequentialToolGateway] of
    [Gateway] over its own in-memory effect store.

    [extensions_act_within_their_grants] composes the registry with the gateway: whatever an
    extension's gateway executes is for its project and within the scopes that its manifest
    declares and an enabled grant gives. *)
From S2P Require Import Programs Collections Contracts Json Actions Authority EffectStore EffectProps EffectTheorems Gateway Adapters GatewayProps GatewayTheorems GatewayRuns Prelude.
Open Scope Z_scope.

(** ** Contracts *)
Record ExtensionManifest := mkManifest {
  xm_extension_id : string;
  xm_version : string;
  xm_content_digest : string;
  xm_publisher : string;
  xm_compatibility_range : string;
  xm_declared_capabilities : list string;
  xm_read_data_classes : list string;
  xm_write_data_classes : list string;
  xm_tool_operations : list string;
  xm_provider_access : list string;
  xm_network_scopes : list string;
  xm_filesystem_scopes : list string;
  xm_secrets_refs_required : list string;
  xm_entrypoints : dict string;
  xm_risk_class : string
}.
Record ProjectExtensionGrant := mkGrant {
  xg_grant_id : string;
  xg_project_id : string;
  xg_extension_id : string;
  xg_version : string;
  xg_enabled : bool;
  xg_state : string;
  xg_granted_capabilities : list string;
  xg_granted_data_scopes : list string;
  xg_granted_tool_scopes : list string;
  xg_granted_provider_scopes : list string;
  xg_approval_ref : option string;
  xg_enabled_at : string
}.
#[export] Instance eta_Grant : Eta ProjectExtensionGrant := λ g,
  mkGrant (xg_grant_id g) (xg_project_id g) (xg_extension_id g) (xg_version g) (xg_enabled g) (xg_state g)
    (xg_granted_capabilities g) (xg_granted_data_scopes g) (xg_granted_tool_scopes g) (xg_granted_provider_scopes g)
    (xg_approval_ref g) (xg_enabled_at g).

(** ** The registry *)
Abbreviation grant_key := (string * string * string)%type.
Record ExtensionRegistry := mkExtensionRegistry {
  xr_manifests : gmap (string * string) ExtensionManifest;
  xr_grants : gmap grant_key ProjectExtensionGrant;
  xr_order : list grant_key
}.
#[export] Instance eta_ExtensionRegistry : Eta ExtensionRegistry := λ r,
  mkExtensionRegistry (xr_manifests r) (xr_grants r) (xr_order r).
Definition new_extension_registry : ExtensionRegistry := mkExtensionRegistry ∅ ∅ [].
Definition ExtensionAuthzError (why : string) : exn := Exn "ExtensionAuthzError" why.

Definition register (manifest : ExtensionManifest) : M ExtensionRegistry () :=
  modify (λ r, r <| xr_manifests ::= <[(xm_extension_id manifest, xm_version manifest) := manifest]> |>).
Definition key_of_grant (g : ProjectExtensionGrant) : grant_key := (xg_project_id g, xg_extension_id g, xg_version g).
Definition set_grant (k : grant_key) (g : ProjectExtensionGrant) (r : ExtensionRegistry) : ExtensionRegistry :=
  r <| xr_grants ::= <[k := g]> |>
    <| xr_order ::= λ o, if bool_decide (k ∈ o) then o else o ++ [k] |>.
Definition grant (g : ProjectExtensionGrant) : M ExtensionRegistry ProjectExtensionGrant :=
  r ← get_state;
  raise_if (bool_decide (xr_manifests r !! (xg_extension_id g, xg_version g) = None)) (ExtensionAuthzError "extension_not_registered");;
  put_state (set_grant (key_of_grant g) g r);;
  mret g.

Record EffectiveScopes := mkScopes {
  es_capabilities : gset string;
  es_tools : gset string;
  es_providers : gset string;
  es_data : gset string
}.
Definition common (a b : list string) : gset string := list_to_set a ∩ list_to_set b.
Definition effective_scopes (project_id extension_id version : string) (r : ExtensionRegistry) : result EffectiveScopes :=
  match xr_manifests r !! (extension_id, version) with
  | None => Err (ExtensionAuthzError "extension_not_registered")
  | Some m =>
    match xr_grants r !! (project_id, extension_id, version) with
    | None => Err (ExtensionAuthzError "extension_not_granted")
    | Some g =>
      if negb (xg_enabled g) || negb (bool_decide (xg_state g = "enabled")) then Err (ExtensionAuthzError "extension_not_granted")
      else Ok (mkScopes
        (common (xm_declared_capabilities m) (xg_granted_capabilities g))
        (common (xm_tool_operations m) (xg_granted_tool_scopes g))
        (common (xm_provider_access m) (xg_granted_provider_scopes g))
        (common (xm_read_data_classes m ++ xm_write_data_classes m) (xg_granted_data_scopes g)))
    end
  end.
Definition assert_tool_allowed (project_id extension_id version operation : string) (r : ExtensionRegistry) : result () :=
  match effective_scopes project_id extension_id version r with
  | Err e => Err e
  | Ok s => if bool_decide (operation ∈ es_tools s) then Ok () else Err (ExtensionAuthzError ("tool_not_granted:" +:+ operation))
  end.
Definition disable (project_id extension_id version : string) : M ExtensionRegistry () :=
  r ← get_state;
  g ← require (xr_grants r !! (project_id, extension_id, version)) (ExtensionAuthzError "grant_missing");
  put_state (r <| xr_grants ::= <[(project_id, extension_id, version) := g <| xg_state := "disabled" |> <| xg_enabled := false |>]> |>).
(** The grants themselves; the code returns their documents. *)
Definition list_for_project (project_id : string) (r : ExtensionRegistry) : list ProjectExtensionGrant :=
  omap (λ k : grant_key, if bool_decide (k.1.1 = project_id) then xr_grants r !! k else None) (xr_order r).

(** ** The loader *)
Section loader.
Context {X : Type}.
Definition build_gateway (project_id extension_id version : string) (chosen : IntegrationAdapter X) (r : ExtensionRegistry)
    : result (@Gateway X * MemStore) :=
  match effective_scopes project_id extension_id version r with
  | Err e => Err e
  | Ok s =>
    let tool_scopes := es_tools s ∪ es_capabilities s in
    if bool_decide (tool_scopes = ∅) then Err (ExtensionAuthzError "empty_effective_scopes")
    else Ok (mkGateway chosen project_id (elements (tool_scopes ∪ {["sandbox.fs"]})) 1 0 "low" false None, mkMemStore ∅ [] ∅)
  end.
End loader.

(** ** Histories *)
Inductive registry_op :=
  | Register (m : ExtensionManifest)
  | GrantIt (g : ProjectExtensionGrant)
  | Disable (project_id extension_id version : string).
Definition xexec (o : registry_op) : M ExtensionRegistry () :=
  match o with
  | Register m => register m
  | GrantIt g => grant g;; mret ()
  | Disable p e v => disable p e v
  end.
(** Whether the operation gives the project the version of the extension. *)
Definition gives (k : grant_key) (o : registry_op) : bool := match o with GrantIt g => bool_decide (key_of_grant g = k) | _ => false end.
Definition closes (k : grant_key) (o : registry_op) : bool := match o with Disable p e v => bool_decide ((p, e, v) = k) | _ => false end.

Record registry_inv (r : ExtensionRegistry) : Prop := {
  ri_registered : ∀ k g, xr_grants r !! k = Some g → key_of_grant g = k ∧ is_Some (xr_manifests r !! (k.1.2, k.2));
  ri_manifests : ∀ k m, xr_manifests r !! k = Some m → (xm_extension_id m, xm_version m) = k;
  ri_order : ∀ k, k ∈ xr_order r ↔ is_Some (xr_grants r !! k);
  ri_nodup : NoDup (xr_order r)
}.
Lemma new_extension_registry_inv : registry_inv new_extension_registry.
Proof.
  constructor; cbn; [by intros ?? ?%lookup_empty_Some|by intros ?? ?%lookup_empty_Some| |constructor].
  intros k. split; [by intros ?%elem_of_nil|]. rewrite lookup_empty. by intros [].
Qed.
Lemma set_grant_inv k g r : registry_inv r → key_of_grant g = k → is_Some (xr_manifests r !! (k.1.2, k.2)) → registry_inv (set_grant k g r).
Proof.
  intros [H1 H2 H3 H4] Hk Hm. constructor; cbn.
  - intros k' g'. rewrite lookup_insert_Some. intros [[<- <-]|[_ Hg]]; [by split|by apply H1].
  - exact H2.
  - intros k'. rewrite lookup_insert_is_Some'. case_bool_decide as Hin; rewrite ?elem_of_app, ?list_elem_of_singleton, H3; [|intuition].
    split; [by right|]. intros [<-|]; [by apply H3|done].
  - case_bool_decide as Hin; [done|]. apply NoDup_app. split_and!; [done| |apply NoDup_singleton].
    by intros x Hx ->%list_elem_of_singleton.
Qed.
Lemma exec_inv o r : registry_inv r → registry_inv (xexec o r).2.
Proof.
  intros Hi. pose proof Hi as [H1 H2 H3 H4]. destruct o as [m|g|p e v]; cbn.
  - constructor; cbn; try done.
    + intros k g Hg. destruct (H1 _ _ Hg) as [Hk Hs]. split; [done|]. rewrite lookup_insert_is_Some'. by right.
    + intros k m'. rewrite lookup_insert_Some. intros [[<- <-]|[_ Hm]]; [done|by apply H2].
  - unfold grant, mbind, M_bind, get_state, raise_if. case_bool_decide as Hn; cbn; [done|]. apply set_grant_inv; [done..|].
    cbn. destruct (xr_manifests r !! _); [by eexists|done].
  - unfold disable, mbind, M_bind, get_state, require. destruct (xr_grants r !! (p, e, v)) as [g|] eqn:Hg; cbn; [|done].
    destruct (H1 _ _ Hg) as [Hk Hs]. constructor; cbn; try done.
    + intros k g'. rewrite lookup_insert_Some. intros [[<- <-]|[_ Hg']]; [by split|by apply H1].
    + intros k. rewrite lookup_insert_is_Some', H3. split; [by right|]. intros [<-|]; [by eexists|done].
Qed.
Lemma after_inv ops : registry_inv (after xexec ops new_extension_registry).
Proof. apply after_invariant; [intros; by apply exec_inv|apply new_extension_registry_inv]. Qed.

(** Without a grant, and after it was disabled until it is granted again, an extension has no scopes. *)
Definition closed (k : grant_key) (r : ExtensionRegistry) : Prop :=
  match xr_grants r !! k with Some g => xg_enabled g = false | None => True end.
Lemma closed_kept k o r : gives k o = false → closed k r → closed k (xexec o r).2.
Proof.
  intros Hg Hc. destruct o as [m|g|p e v]; cbn in *; [done| |].
  - apply bool_decide_eq_false in Hg. unfold grant, mbind, M_bind, get_state, raise_if. case_bool_decide; [done|].
    unfold closed. cbn. by rewrite lookup_insert_ne.
  - unfold disable, mbind, M_bind, get_state, require. destruct (xr_grants r !! (p, e, v)) as [g|] eqn:Hx; cbn; [|done].
    unfold closed. cbn. destruct (decide ((p, e, v) = k)) as [<-|Hne]; [by rewrite lookup_insert_eq|by rewrite lookup_insert_ne].
Qed.
Lemma disable_closes p e v r : closed (p, e, v) (disable p e v r).2.
Proof.
  unfold disable, mbind, M_bind, get_state, require. destruct (xr_grants r !! (p, e, v)) as [g|] eqn:Hx; cbn; unfold closed; cbn.
  - by rewrite lookup_insert_eq.
  - by rewrite Hx.
Qed.
Lemma closed_refused p e v r : closed (p, e, v) r → ∃ why, effective_scopes p e v r = Err (ExtensionAuthzError why).
Proof.
  unfold closed, effective_scopes. destruct (xr_manifests r !! _); [|by eexists]. destruct (xr_grants r !! _) as [g|]; [|by eexists].
  intros ->. by eexists.
Qed.
Lemma effective_declared p e v r s : effective_scopes p e v r = Ok s → ∃ m g,
  xr_manifests r !! (e, v) = Some m ∧ xr_grants r !! (p, e, v) = Some g ∧ xg_enabled g = true ∧ xg_state g = "enabled"
  ∧ ∀ x, x ∈ es_tools s ∪ es_capabilities s → (x ∈ xm_tool_operations m ∧ x ∈ xg_granted_tool_scopes g)
      ∨ (x ∈ xm_declared_capabilities m ∧ x ∈ xg_granted_capabilities g).
Proof.
  unfold effective_scopes. destruct (xr_manifests r !! _) as [m|]; [|done]. destruct (xr_grants r !! _) as [g|]; [|done].
  destruct (xg_enabled g) eqn:He; [|done]. cbn. case_bool_decide as Hst; [|done]. intros [= <-]. exists m, g. split_and!; try done.
  intros x. cbn. unfold common. rewrite elem_of_union, !elem_of_intersection, !elem_of_list_to_set. tauto.
Qed.

(** A project's extension has no scopes before its version was granted to the project, and, once it was
    disabled, none whatever else is registered, granted or disabled, until it is granted again;
    the scopes it has are declared by the manifest and given by the grant. *)
Theorem extension_scopes_need_a_grant ops before after_ p e v :
  ops = before ++ after_ → forallb (λ o, negb (gives (p, e, v) o)) after_ = true →
  (before = [] ∨ ∃ before', before = before' ++ [Disable p e v]) →
  ∃ why, effective_scopes p e v (after xexec ops new_extension_registry) = Err (ExtensionAuthzError why).
Proof.
  intros -> Ho Hb. apply closed_refused. rewrite after_app. apply after_invariant.
  - intros o s Hin Hc. apply closed_kept; [|done]. rewrite forallb_forall in Ho. apply negb_true_iff, Ho. by apply list_elem_of_In.
  - destruct Hb as [->|[before' ->]]; [done|]. rewrite after_app. apply disable_closes.
Qed.

(** C15: Whatever was registered, granted and disabled, and however the collaborators answer: each action that
    the gateway of an extension executes is of its project and was validated, and every scope that
    the action requests or the adapter needs is [sandbox.fs], or declared by the manifest of the
    extension and given by an enabled grant to the project. *)
Theorem extensions_act_within_their_grants {X W In : Type} ops p e v chosen (gw : @Gateway X) store
    (payload_hash : json → string) envelope (perform : ∀ R, gop R → In → W → result R * W) inputs w r h w' :
  let registry := after xexec ops new_extension_registry in
  build_gateway p e v chosen registry = Ok (gw, store) →
  run perform inputs [] (execute_envelope payload_hash gw envelope) w = (r, h, w') →
  ∃ m g, xr_manifests registry !! (e, v) = Some m ∧ xr_grants registry !! (p, e, v) = Some g
    ∧ xg_enabled g = true ∧ xg_project_id g = p ∧ xm_extension_id m = e ∧ xm_version m = v
    ∧ ∀ later a act reply before, h = later ++ Ev _ (OExecute a act) reply :: before →
        a = chosen ∧ av_project_id act = p ∧ Ev _ (OValidate a act) (Ok ()) ∈ before
        ∧ ∀ x, x ∈ av_requested_scopes act ∨ x ∈ am_scopes (ia_manifest a) → x = "sandbox.fs"
            ∨ (x ∈ xm_tool_operations m ∧ x ∈ xg_granted_tool_scopes g)
            ∨ (x ∈ xm_declared_capabilities m ∧ x ∈ xg_granted_capabilities g).
Proof.
  intros registry Hb Hrun. unfold build_gateway in Hb. destruct (effective_scopes p e v registry) as [s|] eqn:Hs; [|done].
  case_bool_decide; [done|]. injection Hb as <- <-.
  destruct (effective_declared _ _ _ _ _ Hs) as (m & g & Hm & Hg & Hen & Hst & Hx). exists m, g.
  destruct (after_inv ops) as [H1 H2 _ _]. fold registry in H1, H2. destruct (H1 _ _ Hg) as [[= Hp _ _] _]. pose proof (H2 _ _ Hm) as [= He Hv].
  split_and!; try done. intros later a act reply before ->.
  pose proof (run_admitted perform _ _ _ _ _ _ _ _ _ (execute_authorizing payload_hash _ envelope []) Hrun I) as Hall.
  apply all_admitted_suffix in Hall as [Hau _]. cbn in Hau. destruct Hau as [_ Ha Hval Hproj Hsc _ _ _ _ _]. cbn in Ha, Hproj, Hsc.
  split_and!; try done. intros x [Hu|Hsb%elem_of_singleton]%Hsc%elem_of_elements%elem_of_union; [right; by apply Hx|by left].
Qed.

(** ** Runs: an extension that submits forms through the browser adapter *)
Module ExtensionSample.
Import GatewaySample.
Definition forms : ExtensionManifest :=
  mkManifest "forms" "1.0" "sha256:aa" "local" ">=1.7,<4.0" [] [] [] ["browser.session"; "browser.admin"] [] [] [] [] [] "low".
Definition forms_grant : ProjectExtensionGrant :=
  mkGrant "xgr_1" "p" "forms" "1.0" true "enabled" [] [] ["browser.session"] [] None "2024".
Definition granted : list registry_op := [Register forms; GrantIt forms_grant].
Abbreviation registry ops := (after xexec ops new_extension_registry).
Definition built : @Gateway Browser :=
  mkGateway (BrowserSessionAdapter hash) "p" (elements (({["browser.session"]} ∪ ∅ : gset string) ∪ {["sandbox.fs"]})) 1 0 "low" false None.
Definition approved : World MemStore Browser := (go (make_approval hash built submit "operator" 300 1) start).2.

Lemma forms_scopes : effective_scopes "p" "forms" "1.0" (registry granted) = Ok (mkScopes ∅ {["browser.session"]} ∅ ∅).
Proof. vm_compute. reflexivity. Qed.
Lemma forms_built : build_gateway "p" "forms" "1.0" (BrowserSessionAdapter hash) (registry granted) = Ok (built, mkMemStore ∅ [] ∅).
Proof.
  unfold build_gateway. rewrite forms_scopes. cbn [es_tools es_capabilities]. rewrite bool_decide_false; [reflexivity|].
  intros H. apply (f_equal size) in H. by vm_compute in H.
Qed.

Lemma extensions_act_within_their_grants_witness :
  let x := go (execute_envelope hash built submit) approved in
  count (executed key) x.1.2 = 1
  ∧ ∃ m g, xr_manifests (registry granted) !! ("forms", "1.0") = Some m ∧ xr_grants (registry granted) !! ("p", "forms", "1.0") = Some g
      ∧ xg_enabled g = true.
Proof.
  intros x. split; [vm_compute; reflexivity|].
  destruct (extensions_act_within_their_grants granted "p" "forms" "1.0" (BrowserSessionAdapter hash) built (mkMemStore ∅ [] ∅)
    hash submit _ inputs approved _ _ _ forms_built (go_run _ approved)) as (m & g & Hm & Hg & Hen & _).
  exists m, g. split_and!; assumption.
Defined.

Lemma extension_scopes_need_a_grant_witness :
  is_ok (effective_scopes "p" "forms" "1.0" (registry granted)) = true
  ∧ ∃ why, effective_scopes "p" "forms" "1.0" (registry ((granted ++ [Disable "p" "forms" "1.0"]) ++ [Register forms]))
    = Err (ExtensionAuthzError why).
Proof.
  split; [vm_compute; reflexivity|].
  apply (extension_scopes_need_a_grant _ (granted ++ [Disable "p" "forms" "1.0"]) [Register forms] "p" "forms" "1.0" eq_refl eq_refl).
  right. by exists granted.
Defined.

(** Every gateway of an extension may use [sandbox.fs], which neither manifest nor grant names. *)
Example sandbox_scope_is_given_to_all :
  bool_decide ("sandbox.fs" ∈ gw_allowed_scopes built) && negb (bool_decide ("sandbox.fs" ∈ xg_granted_tool_scopes forms_grant)) = true.
Proof. vm_compute. reflexivity. Qed.

(** Each gateway has a store of its own: an effect that one executed is executed again by the next. *)
Example effects_are_executed_again_by_the_next_gateway :
  let first_run := go (execute_envelope hash built submit) approved in
  let next := mkWorld (mkMemStore ∅ [] ∅) (wd_authority first_run.2) (wd_external first_run.2) in
  let next := (go (make_approval hash built submit "operator" 300 1) next).2 in
  count (executed key) first_run.1.2 + count (executed key) (go (execute_envelope hash built submit) next).1.2 = 2.
Proof. vm_compute. reflexivity. Qed.
End ExtensionSample.
