(* ===== verification/ToolGateway.v ===== *)
(** * ToolGateway: the in-process tool gateway (src/swarm/tools/gateway.py, registry.py)

    [execute_or_reconcile] validates a call against the registry, authorizes it (lease,
    scopes, approval of the exact payload), and runs the tool's handler unless the operation
    was seen before.  It awaits the handler: [start_call] is what happens before the await,
    [finish_call] what happens after it, and [execute_or_reconcile] their composition when
    no other call runs in between.  Handlers are functions over a state [X] of their own. *)
From S2P Require Import Prelude Collections Contracts Json.
From Stdlib Require Import Ascii.
Open Scope Z_scope.

Module ActionOutcome.
Inductive ActionOutcome : Type := SUCCEEDED | FAILED | UNKNOWN.
#[export] Instance ActionOutcome_eq_dec : EqDecision ActionOutcome.
Proof. solve_decision. Defined.
End ActionOutcome.
Export (hints) ActionOutcome.
Abbreviation ActionOutcome := ActionOutcome.ActionOutcome.

Record ToolSpec := mkToolSpec {
  ts_name : string;
  ts_version : string;
  ts_required_scopes : list string;
  ts_side_effecting : bool;
  ts_description : string;
  ts_network : bool
}.

Record ToolCall := mkToolCall {
  tc_operation_id : string;
  tc_task_id : string;
  tc_attempt_id : string;
  tc_tool_version : string;
  tc_normalized_args : dict json;
  tc_payload_hash : string;
  tc_scopes : list string;
  tc_approval_id : option string;
  tc_lease_generation : Z;
  tc_timeout_seconds : Z
}.
#[export] Instance eta_ToolCall : Eta ToolCall := λ r,
  mkToolCall (tc_operation_id r) (tc_task_id r) (tc_attempt_id r) (tc_tool_version r)
    (tc_normalized_args r) (tc_payload_hash r) (tc_scopes r) (tc_approval_id r)
    (tc_lease_generation r) (tc_timeout_seconds r).

Record Approval := mkApproval {
  tp_id : string;
  tp_payload_hash : string;
  tp_permitted_operation : string;
  tp_destination : string;
  tp_grantor : string;
  tp_project_id : string;
  tp_expires_at : Z;
  tp_revoked_at : option Z;
  tp_constraints : dict json
}.

Record ActionReceipt := mkToolReceipt {
  tr_operation_id : string;
  tr_before_observation : dict json;
  tr_after_observation : dict json;
  tr_external_id : option string;
  tr_outcome : ActionOutcome;
  tr_reconciliation_steps : list string;
  tr_evidence_refs : list string
}.

(** ** Registry *)
Section gateway.
Context {X : Type}.
Variable payload_hash : json → string.
Definition ToolHandler : Type := dict json → M X (dict json).

Record CapabilityRegistry := mkRegistry {
  cr_tools : gmap string ToolSpec;
  cr_handlers : gmap string ToolHandler
}.

Definition tool_key (name version : string) : string := name +:+ "@" +:+ version.
Definition register (spec : ToolSpec) (handler : ToolHandler) (r : CapabilityRegistry) : CapabilityRegistry :=
  let key := tool_key (ts_name spec) (ts_version spec) in
  mkRegistry (<[key := spec]> (cr_tools r)) (<[key := handler]> (cr_handlers r)).
Definition registry_get (name version : string) (r : CapabilityRegistry) : result ToolSpec :=
  match cr_tools r !! tool_key name version with
  | Some spec => Ok spec | None => Err (KeyError (tool_key name version)) end.
Definition handler_for (name version : string) (r : CapabilityRegistry) : result ToolHandler :=
  match cr_handlers r !! tool_key name version with
  | Some h => Ok h | None => Err (KeyError (tool_key name version)) end.

Definition normalize_args (args : dict json) : dict json := sort_by (λ a b, str_leb a.1 b.1) args.
Definition hash_operation (tool_version : string) (args : dict json) (destination : json) : string :=
  payload_hash (JObj [("tool_version", JStr tool_version); ("args", JObj (normalize_args args));
                      ("destination", destination)]).

(** [s.split("@", 1)] into a name and a version. *)
Fixpoint split_at (s : string) : option (string * string) :=
  match s with
  | EmptyString => None
  | String c s' => if bool_decide (c = "@"%char) then Some ("", s')
                   else (λ nv, (String c nv.1, nv.2)) <$> split_at s'
  end.
Definition name_version (tool_version : string) : result (string * string) :=
  match split_at tool_version with
  | Some nv => Ok nv
  | None => Err (ValueError "not enough values to unpack (expected 2, got 1)")
  end.

(** ** Gateway *)
Record ToolGateway := mkToolGateway {
  tg_registry : CapabilityRegistry;
  tg_allowed_scopes : list string;
  tg_current_lease_generation : Z;
  tg_approvals : gmap string Approval;
  tg_receipts : gmap string ActionReceipt;
  tg_seen_ops : gset string;
  tg_tools : X
}.
#[export] Instance eta_ToolGateway : Eta ToolGateway := λ r,
  mkToolGateway (tg_registry r) (tg_allowed_scopes r) (tg_current_lease_generation r)
    (tg_approvals r) (tg_receipts r) (tg_seen_ops r) (tg_tools r).

Definition validate (call : ToolCall) : M ToolGateway ToolCall :=
  '(name, version) ← of_result (name_version (tc_tool_version call));
  g ← get_state;
  spec ← of_result (registry_get name version (tg_registry g));
  let args := normalize_args (tc_normalized_args call) in
  let call := call <| tc_normalized_args := args |>
    <| tc_payload_hash := hash_operation (tc_tool_version call) args
         (default (JStr "local") (dict_get args "destination")) |> in
  raise_if (ts_network spec && negb (one_of "network" (tg_allowed_scopes g)))
    (ToolAuthorizationError "network tools not permitted");;
  mret call.

Definition authorize (now : Z) (call : ToolCall) : M ToolGateway ToolCall :=
  g ← get_state;
  raise_if (negb (tc_lease_generation call =? tg_current_lease_generation g))
    (StaleLeaseError "stale worker lease generation");;
  '(name, version) ← of_result (name_version (tc_tool_version call));
  spec ← of_result (registry_get name version (tg_registry g));
  let missing := List.filter (λ x, negb (one_of x (tg_allowed_scopes g))) (ts_required_scopes spec) in
  raise_if (negb (bool_decide (missing = [])))
    (ToolAuthorizationError ("missing scopes: ["
       +:+ join ", " (str_repr <$> sort_by str_leb (remove_dups missing)) +:+ "]"));;
  if ts_side_effecting spec then
    raise_if (negb (truthy (tc_approval_id call))) (ApprovalInvalidError "side-effecting tool requires approval");;
    approval ← require (tg_approvals g !! default "" (tc_approval_id call)) (ApprovalInvalidError "unknown approval");
    raise_if (bool_decide (is_Some (tp_revoked_at approval)) || (tp_expires_at approval <=? now))
      (ApprovalInvalidError "approval expired or revoked");;
    raise_if (negb (bool_decide (tp_payload_hash approval = tc_payload_hash call)))
      (ApprovalInvalidError "payload changed since approval");;
    raise_if (negb (bool_decide (tp_permitted_operation approval = tc_tool_version call)))
      (ApprovalInvalidError "approval operation mismatch");;
    mret call
  else mret call.

(** Up to the await: a receipt on record, or the handler to run on the call. *)
Definition start_call (now : Z) (call : ToolCall) : M ToolGateway (ActionReceipt + ToolHandler * ToolCall) :=
  call ← validate call;
  call ← authorize now call;
  g ← get_state;
  (if truthy (tc_approval_id call) then
     let id := default "" (tc_approval_id call) in
     approval ← require (tg_approvals g !! id) (KeyError id);
     raise_if (negb (bool_decide (tp_payload_hash approval = tc_payload_hash call)))
       (ApprovalInvalidError "approval invalidated before execution")
   else mret ());;
  if bool_decide (tc_operation_id call ∈ tg_seen_ops g) then
    receipt ← require (tg_receipts g !! tc_operation_id call) (KeyError (tc_operation_id call));
    mret (inl receipt)
  else
    '(name, version) ← of_result (name_version (tc_tool_version call));
    handler ← of_result (handler_for name version (tg_registry g));
    mret (inr (handler, call)).

Definition before_ready : dict json := [("state", JStr "ready")].
Definition failed_receipt (op : string) (e : exn) : ActionReceipt :=
  mkToolReceipt op before_ready [("error", JStr (exn_message e))] None ActionOutcome.FAILED [] [].

(** The receipt for what the handler returned or raised; building it is inside the try. *)
Definition receipt_of (op : string) (r : result (dict json)) : ActionReceipt :=
  match r with
  | Err e => failed_receipt op e
  | Ok res =>
    if py_eqb (default JNull (dict_get res "outcome")) (JStr "unknown") then
      mkToolReceipt op before_ready res None ActionOutcome.UNKNOWN ["pause"; "poll_external"; "reconcile"] []
    else match default JNull (dict_get res "external_id") with
         | JNull => mkToolReceipt op before_ready res None ActionOutcome.SUCCEEDED [] []
         | JStr x => mkToolReceipt op before_ready res (Some (strip x)) ActionOutcome.SUCCEEDED [] []
         | _ => failed_receipt op (ValidationError "Input should be a valid string")
         end
  end.

Definition finish_call (op : string) (r : result (dict json)) : M ToolGateway ActionReceipt :=
  let receipt := receipt_of op r in
  modify (λ g, g <| tg_seen_ops := {[op]} ∪ tg_seen_ops g |> <| tg_receipts := <[op := receipt]> (tg_receipts g) |>);;
  mret receipt.

(** The handler runs on a copy of the arguments. *)
Definition run_handler (h : ToolHandler) (call : ToolCall) : M ToolGateway (result (dict json)) := λ g,
  let '(r, x) := h (tc_normalized_args call) (tg_tools g) in (Ok r, g <| tg_tools := x |>).

Definition execute_or_reconcile (now : Z) (call : ToolCall) : M ToolGateway ActionReceipt :=
  started ← start_call now call;
  match started with
  | inl receipt => mret receipt
  | inr (handler, call) => r ← run_handler handler call; finish_call (tc_operation_id call) r
  end.

Definition receipt (operation_id : string) : M ToolGateway ActionReceipt :=
  g ← get_state; require (tg_receipts g !! operation_id) (KeyError operation_id).

Definition make_tool_approval (fresh_id : string) (now : Z) (tool_version : string) (args : dict json) (destination grantor project_id : string)
    (expires_in_seconds : Z) (revoked : bool) : Approval :=
  mkApproval fresh_id (hash_operation tool_version args (JStr destination)) tool_version destination grantor project_id
    (now + expires_in_seconds * 1000000) (if revoked then Some now else None) [].

(** ** Properties *)
Lemma start_call_reads now call g r g' : start_call now call g = (r, g') → g' = g.
Proof.
  unfold start_call, validate, authorize. intros H.
  destruct r as [x|x]; run_inv_err; repeat (case_match; run_inv_err); try done.
Qed.

Lemma started_call now call g h call' g' :
  start_call now call g = (Ok (inr (h, call')), g') →
  tc_operation_id call' = tc_operation_id call ∧ tc_operation_id call ∉ tg_seen_ops g.
Proof.
  unfold start_call, validate, authorize. intros H. run_inv. repeat (case_match; run_inv); bool_to_prop; done.
Qed.

Lemma replayed_call now call g r g' :
  start_call now call g = (Ok (inl r), g') →
  tc_operation_id call ∈ tg_seen_ops g ∧ tg_receipts g !! tc_operation_id call = Some r.
Proof.
  unfold start_call, validate, authorize. intros H. run_inv. repeat (case_match; run_inv); bool_to_prop; done.
Qed.

(** A call either starts nothing, or runs a handler for an operation not seen before. *)
Lemma execute_cases now call g :
  ((execute_or_reconcile now call g).2 = g ∧ ∀ rc, (execute_or_reconcile now call g).1 = Ok rc →
     tc_operation_id call ∈ tg_seen_ops g ∧ tg_receipts g !! tc_operation_id call = Some rc)
  ∨ (tc_operation_id call ∉ tg_seen_ops g) ∧ ∃ rc x,
      execute_or_reconcile now call g = (Ok rc, (g <| tg_tools := x |>
        <| tg_seen_ops := {[tc_operation_id call]} ∪ tg_seen_ops g |>
        <| tg_receipts := <[tc_operation_id call := rc]> (tg_receipts g) |>)).
Proof.
  unfold execute_or_reconcile. unfold mbind, M_bind.
  destruct (start_call now call g) as [[[rc|[h call']]|e] g'] eqn:Hs;
    pose proof (start_call_reads _ _ _ _ _ Hs) as ->.
  - left. split; [done|]. intros rc' [= <-]. by eapply replayed_call.
  - right. destruct (started_call _ _ _ _ _ _ Hs) as [Hop Hn]. split; [done|].
    unfold run_handler. destruct (h _ _) as [r x]. rewrite <- Hop. by eexists _, x.
  - left. by split.
Qed.

(** A repeated operation does not run again: once execute_or_reconcile has returned a
    receipt for an operation id, every later call with that id, whatever its tool, arguments
    and approval and whatever calls came in between, leaves the tools' state alone and
    either raises or returns the first receipt. *)
Theorem repeated_operations_return_the_receipt now call g rc g1 (between : list (Z * ToolCall)) now' call' :
  execute_or_reconcile now call g = (Ok rc, g1) → tc_operation_id call' = tc_operation_id call →
  let g2 := foldl (λ g c, (execute_or_reconcile c.1 c.2 g).2) g1 between in
  tg_tools (execute_or_reconcile now' call' g2).2 = tg_tools g2
  ∧ ∀ rc', (execute_or_reconcile now' call' g2).1 = Ok rc' → rc' = rc.
Proof.
  intros Hrun Hop g2.
  assert (∀ g', tc_operation_id call ∈ tg_seen_ops g' ∧ tg_receipts g' !! tc_operation_id call = Some rc →
    ∀ now c, let g'' := (execute_or_reconcile now c g').2 in
    tc_operation_id call ∈ tg_seen_ops g'' ∧ tg_receipts g'' !! tc_operation_id call = Some rc) as Hkeep.
  { intros g' [Hin Hrc] n c. destruct (execute_cases n c g') as [(-> & _)|[Hn (rc2 & x & ->)]]; [done|]. simpl.
    split; [set_solver|]. rewrite lookup_insert_ne; [done|]. intros Heq. by rewrite Heq in Hn. }
  assert (tc_operation_id call ∈ tg_seen_ops g1 ∧ tg_receipts g1 !! tc_operation_id call = Some rc) as H1.
  { destruct (execute_cases now call g) as [(H2 & H3)|[Hn (rc2 & x & H)]].
    - rewrite Hrun in H2, H3. simpl in H2. subst g1. by apply H3.
    - rewrite H in Hrun. injection Hrun as <- <-. simpl. split; [set_solver|]. apply lookup_insert_eq. }
  assert (tc_operation_id call ∈ tg_seen_ops g2 ∧ tg_receipts g2 !! tc_operation_id call = Some rc) as [Hin Hrc].
  { subst g2. revert g1 H1 Hrun. induction between as [|c l IH] using rev_ind; intros g1 H1 Hrun; [done|].
    rewrite foldl_app. simpl. apply Hkeep. by apply IH. }
  destruct (execute_cases now' call' g2) as [(H2 & H3)|[Hn _]]; [|by rewrite Hop in Hn].
  rewrite H2. split; [done|]. intros rc' Hrc'. apply H3 in Hrc' as [_ Hrc']. rewrite Hop in Hrc'. congruence.
Qed.
End gateway.

(** ** Sample: a side-effecting tool that counts its runs *)
Module ToolSample.
Definition hash (j : json) : string := py_str j.
Definition handler : dict json → M Z (dict json) := λ args n, (Ok [("external_id", JStr "e1")], n + 1).
Definition args : dict json := [("uri", JStr "memory://a"); ("destination", JStr "local")].
Definition approval : Approval := make_tool_approval hash "apr_1" 0 "artifact.publish@1" args "local" "operator" "p" 300 false.
Definition gateway : ToolGateway :=
  mkToolGateway (register (mkToolSpec "artifact.publish" "1" ["artifact.write"] true "" false) handler
    (mkRegistry ∅ ∅)) ["artifact.write"] 1 {["a1" := approval]} ∅ ∅ 0.
Definition call : ToolCall :=
  mkToolCall "op1" "t" "at" "artifact.publish@1" args "" [] (Some "a1") 1 30.
Definition receipt1 : ActionReceipt :=
  mkToolReceipt "op1" [("state", JStr "ready")] [("external_id", JStr "e1")] (Some "e1") ActionOutcome.SUCCEEDED [] [].

Lemma repeated_operations_return_the_receipt_witness :
  let g1 := (execute_or_reconcile hash 10 call gateway).2 in
  (execute_or_reconcile hash 10 call gateway).1 = Ok receipt1 ∧ tg_tools g1 = 1
  ∧ tg_tools (execute_or_reconcile hash 20 call g1).2 = 1.
Proof.
  intros g1. assert ((execute_or_reconcile hash 10 call gateway).1 = Ok receipt1) as H1 by (vm_compute; reflexivity).
  assert (tg_tools g1 = 1) as Ht by (vm_compute; reflexivity). split; [exact H1|]. split; [exact Ht|].
  rewrite <- Ht. apply (repeated_operations_return_the_receipt hash 10 call gateway receipt1 g1 [] 20 call);
    [apply run_eq, H1|reflexivity].
Defined.

(** A retry that arrives while the first call awaits its handler runs the handler again:
    the operation is marked as seen only after the handler returned. *)
Definition both : M (@ToolGateway Z) () :=
  s1 ← start_call hash 10 call;
  s2 ← start_call hash 11 call;
  match s1, s2 with
  | inr (h1, c1), inr (h2, c2) =>
    r1 ← run_handler h1 c1; r2 ← run_handler h2 c2;
    finish_call (tc_operation_id c1) r1;; finish_call (tc_operation_id c2) r2;; mret ()
  | _, _ => mret ()
  end.
Lemma concurrent_retry_runs_twice : tg_tools (both gateway).2 = 2.
Proof. vm_compute. reflexivity. Qed.

(** A tool without side effects called with an approval id the gateway does not know raises
    KeyError after it was authorized. *)
Definition reader : ToolGateway :=
  mkToolGateway (register (mkToolSpec "workspace.read" "1" ["workspace.read"] false "" false) handler
    (mkRegistry ∅ ∅)) ["workspace.read"] 1 ∅ ∅ ∅ 0.
Lemma unknown_approval_of_a_reader :
  let c := mkToolCall "op2" "t" "at" "workspace.read@1" [] "" [] (Some "a9") 1 30 in
  is_ok (authorize 10 c reader).1 = true ∧ (execute_or_reconcile hash 10 c reader).1 = Err (KeyError "a9").
Proof. split; vm_compute; reflexivity. Qed.
End ToolSample.
