(* ===== verification/Api.v ===== *)
(** * Api: tokens, the event log and the product store of the HTTP API

    api/auth.py, api/errors.py, api/events.py and api/store.py.  The store composes the mission
    controller, the worker registry and the mission store; every mission it changes is also
    written to disk.  Ids and clock readings advance counters of the state: [hex n] is the n-th
    [uuid4().hex], [clock n] the n-th reading of the clock.  An [ApiError] is named by its code,
    which fixes the message and the HTTP status; [details] are left out.  Views that only
    render (providers, routes, capacity, projects, history, reports) are not modelled. *)
From S2P Require Import Prelude Collections Contracts PyFloat Json JsonText Models Checkpoint Workspace MissionStore Graph Scheduler Controller WorkerRegistry ToolGateway.
From Stdlib Require Import Ascii.
Open Scope Z_scope.

Definition ApiError (code : string) : exn := Exn "ApiError" code.
Definition status_code (code : string) : Z :=
  if one_of code ["unauthorized"; "auth_required"; "demo_token_forbidden"] then 401
  else if one_of code ["forbidden_project"; "policy_denied"] then 403
  else if one_of code ["not_found"; "fixture_only"] then 404
  else if one_of code ["idempotency_payload_mismatch"; "mission_cancelled"; "task_cancelled"; "approval_revoked";
                       "approval_expired"; "approval_payload_mismatch"] then 409
  else if one_of code ["invalid_token_shape"; "invalid_install_project"] then 500
  else 400.

(** ** Tokens (auth.py) *)
Record Principal := mkPrincipal {
  pr_subject : string;
  pr_token_id : string;
  pr_project_ids : gset string;
  pr_roles : gset string;
  pr_allow_canary : bool;
  pr_allow_eval : bool
}.
Definition DEMO_LOOPBACK_TOKENS : list string := ["atk_loopback_demo"; "atk_policy_demo"; "atk_other_project"].
Record AuthRegistry := mkAuth {
  au_tokens : gmap string Principal;
  au_require_auth : bool;
  au_loopback_mock_token : option string;
  au_loopback_only_tokens : gset string
}.
#[export] Instance eta_AuthRegistry : Eta AuthRegistry := λ x,
  mkAuth (au_tokens x) (au_require_auth x) (au_loopback_mock_token x) (au_loopback_only_tokens x).

Definition first_chars (n : nat) (s : string) : string := to_string (take n (of_string s)).
Definition issue (fresh : string) (subject : string) (project_ids roles : gset string) (allow_canary allow_eval : bool)
    (token : option string) : M AuthRegistry string :=
  let token := if truthy token then default "" token else fresh in
  raise_if (existsb (λ k, contains k (to_lower token)) ["sk-"; "api_key"; "secret="]) (ApiError "invalid_token_shape");;
  let roles := if bool_decide (roles = ∅) then {["operator"]} else roles in
  modify (λ a, a <| au_tokens ::= <[token := mkPrincipal subject (first_chars 12 token) project_ids roles allow_canary allow_eval]> |>);;
  (if one_of token DEMO_LOOPBACK_TOKENS then modify (λ a, a <| au_loopback_only_tokens ::= union {[token]} |>) else mret ());;
  mret token.

Definition loopback_host (host : option string) : bool :=
  match host with Some h => one_of h ["127.0.0.1"; "::1"; "testclient"; "localhost"] | None => true end.
(** The token of a [Bearer] header: what follows the first space, stripped. *)
Definition bearer_token (authorization : option string) : option string :=
  match authorization with
  | Some h => if String.prefix "bearer " (to_lower h) then Some (strip (to_string (drop 7 (of_string h)))) else None
  | None => None
  end.
Definition resolve_principal (authorization client_host : option string) (a : AuthRegistry) : result Principal :=
  let is_loopback := loopback_host client_host in
  match bearer_token authorization with
  | Some raw =>
    if (one_of raw DEMO_LOOPBACK_TOKENS || bool_decide (raw ∈ au_loopback_only_tokens a)) && negb is_loopback
    then Err (ApiError "demo_token_forbidden")
    else match au_tokens a !! raw with Some p => Ok p | None => Err (ApiError "unauthorized") end
  | None =>
    let mock := if negb (au_require_auth a) && is_loopback && truthy (au_loopback_mock_token a)
                then t ← au_loopback_mock_token a; au_tokens a !! t else None in
    match mock with
    | Some p => Ok p
    | None => Err (ApiError (if is_loopback then "unauthorized" else "auth_required"))
    end
  end.

Definition is_admin (p : Principal) : bool := bool_decide ("admin" ∈ pr_roles p).
Definition may_access (p : Principal) (project_id : string) : bool := bool_decide (project_id ∈ pr_project_ids p) || is_admin p.
Definition require_project {S} (p : Principal) (project_id : string) : M S () :=
  raise_if (negb (may_access p project_id)) (ApiError "forbidden_project").

(** ** The event log (events.py) *)
Record EventLog := mkEventLog {
  el_events : list EventEnvelope;
  el_by_id : gmap string EventEnvelope;
  el_dedupe : gmap string string;
  el_seq : Z
}.
#[export] Instance eta_EventLog : Eta EventLog := λ x, mkEventLog (el_events x) (el_by_id x) (el_dedupe x) (el_seq x).
Definition empty_log : EventLog := mkEventLog [] ∅ ∅ 0.

Definition append_event (event : EventEnvelope) : M EventLog EventEnvelope :=
  l ← get_state;
  match (if truthy (ev_dedupe_key event) then k ← ev_dedupe_key event; el_dedupe l !! k else None) with
  | Some existing_id => require (el_by_id l !! existing_id) (KeyError existing_id)
  | None =>
    modify (λ l, l <| el_seq ::= Z.succ |> <| el_events ::= λ es, es ++ [event] |>
                   <| el_by_id ::= <[ev_id event := event]> |>);;
    match ev_dedupe_key event with
    | Some k => if bool_decide (k = "") then mret () else modify (λ l, l <| el_dedupe ::= <[k := ev_id event]> |>)
    | None => mret ()
    end;;
    mret event
  end.

(** What follows the event of the cursor; everything for an unknown or no cursor. *)
Fixpoint after_cursor (cursor : string) (events : list EventEnvelope) : option (list EventEnvelope) :=
  match events with
  | [] => None
  | e :: es => if bool_decide (ev_id e = cursor) then Some es else after_cursor cursor es
  end.
Definition event_matches (project_id mission_id : option string) (e : EventEnvelope) : bool :=
  match project_id with Some p => bool_decide (ev_project_id e = p) | None => true end
  && match mission_id with Some _ => bool_decide (ev_mission_id e = mission_id) | None => true end.
(** The scan stops once [limit] events were found, so it finds at least one. *)
Definition list_after (project_id mission_id cursor : option string) (limit : Z) (l : EventLog)
    : list EventEnvelope * option string :=
  let rest := match cursor with
    | Some c => if bool_decide (c = "") then el_events l else default (el_events l) (after_cursor c (el_events l))
    | None => el_events l end in
  let out := take (Z.to_nat (Z.max 1 limit)) (List.filter (event_matches project_id mission_id) rest) in
  (out, match last out with Some e => Some (ev_id e) | None => cursor end).

(** ** The product store (store.py) *)
Fixpoint _scrub (j : json) : json :=
  match j with
  | JObj d => JObj ((fix go (d : list (string * json)) := match d with
      | [] => []
      | (k, v) :: d' =>
        let lk := to_lower k in
        if existsb (λ b, contains b lk) ["api_key"; "secret"; "password"; "authorization"; "token_value"]
           && negb (one_of lk ["token_id"; "secret_ref_names"; "idempotency_key"]) then go d'
        else (k, match v with
                 | JObj _ => _scrub v
                 | JStr s => if String.prefix "sk-" s || contains "api_key=" (to_lower s) then JStr "[redacted]" else v
                 | _ => v end) :: go d'
      end) d)
  | _ => j
  end.
Definition scrub_payload (d : dict json) : dict json := match _scrub (JObj d) with JObj d' => d' | _ => [] end.

(** The bodies that handlers return and the store keeps for repeated requests. *)
Inductive Body :=
  | MissionBody (mission : Mission) (support : option (string * SupportDecision))
  | MissionView (mission : Mission) (plan validation result : option json)
  | ReviewBody (mission_id : string) (receipt : option string) (review : ReviewDecision) (mission : Mission)
  | GraphBody (mission_id : string) (revision : Z) (status : MissionStatus) (tasks : list TaskSpec)
      (explanations : list GraphExplanation)
  | EventsBody (events : list EventEnvelope) (limit : Z) (cursor : option string) (has_more : bool)
  | ProbeBody (provider_id purpose : string)
  | WorkersBody (workers : list json) (quarantine : list string)
  | EnrollBody (worker : WorkerLease) (project_id membership_token : string)
  | HeartbeatBody (worker : WorkerLease) (project_id : option string)
  | ApprovalsBody (approvals : list Approval)
  | ApprovalBody (approval : Approval) (accepted : bool)
  | SideEffectsBody (side_effects : list string).

Record IdemEntry := mkIdem { id_request_digest : string; id_body : Body }.

Record ProductStore := mkProductStore {
  ps_controller : Controller;
  ps_workers : Registry;
  ps_events : EventLog;
  ps_approvals : dict Approval;
  ps_idempotency : gmap string IdemEntry;
  ps_cancelled_missions : gset string;
  ps_cancelled_tasks : gset string;
  ps_side_effects : list string;
  ps_fixture_mode : bool;
  ps_files : gmap string string;
  ps_draws : nat;
  ps_reads : nat
}.
#[export] Instance eta_ProductStore : Eta ProductStore := λ x,
  mkProductStore (ps_controller x) (ps_workers x) (ps_events x) (ps_approvals x) (ps_idempotency x)
    (ps_cancelled_missions x) (ps_cancelled_tasks x) (ps_side_effects x) (ps_fixture_mode x) (ps_files x)
    (ps_draws x) (ps_reads x).

Section store.
Context {lax : Lax} {dates : Dates}.
Context (hex : nat → string) (clock : nat → Z) (sha256 : string → string) (missions_root : string).

Abbreviation P := (M ProductStore).
Definition fresh_id (prefix : string) : P string := λ s, (Ok (prefix +:+ hex (ps_draws s)), s <| ps_draws ::= S |>).
Definition now_ : P Z := λ s, (Ok (clock (ps_reads s)), s <| ps_reads ::= S |>).
Definition on_controller {A} : M Controller A → P A := zoom ps_controller (λ c s, s <| ps_controller := c |>).
Definition on_workers {A} : M Registry A → P A := zoom ps_workers (λ c s, s <| ps_workers := c |>).
Definition on_log {A} : M EventLog A → P A := zoom ps_events (λ c s, s <| ps_events := c |>).

(** [payload_hash]: the hash of the compact sorted document. *)
Definition payload_hash (j : json) : string := sha256 (dumps compact_style j).

(** *** The mission store on disk *)
Definition load_from_disk (mission_id : string) : P MissionRecord :=
  s ← get_state; of_result (load_record missions_root mission_id (ps_files s)).
Definition save_to_disk (r : MissionRecord) : P MissionRecord :=
  now ← now_;
  s ← get_state;
  let '(r, fs) := save_record missions_root now r (ps_files s) in
  put_state (s <| ps_files := fs |>);;
  mret r.
Definition add_timeline (event : string) (detail : json) (r : MissionRecord) : P MissionRecord :=
  now ← now_; of_result (append_timeline now event detail r).

(** [except (OSError, TypeError, KeyError, ValueError)] around a load. *)
Definition load_error (e : exn) : bool :=
  match e with
  | TypeError _ | KeyError _ | ValueError _ | ValidationError _ => true
  | Exn c _ => one_of c ["FileNotFoundError"; "JSONDecodeError"]
  | _ => false
  end.
Definition try_load (mission_id : string) : P (option MissionRecord) :=
  try_except (r ← load_from_disk mission_id; mret (Some r)) (λ e, if load_error e then mret None else raise e).

Definition put_mission (mission_id : string) (m : Mission) : P () :=
  on_controller (modify (λ c, c <| mc_missions := dict_set (mc_missions c) mission_id m |>)).

(** The record that is written for a mission: what was stored for its id is kept. *)
Definition record_for (m : Mission) (source : string) (now : Z) (existing : option MissionRecord) : MissionRecord :=
  let old f absent := match existing with Some e => f e | None => absent end in
  mkMissionRecord (JStr (ms_id m)) (JStr (ms_objective m)) (JStr (MissionStatus.value (ms_status m)))
    (old re_created_at (JStr (isoformat now))) (JStr (isoformat now)) (JInt (ms_revision m)) (JStr (ms_project_id m))
    (JStr source) (mission_dump m) (old re_plan (JObj [("project_id", JStr (ms_project_id m))])) (old re_tasks (JList []))
    (old re_timeline (JList [])) (old re_agents (JList [])) (old re_artifacts (JObj [])) (old re_validation (JObj []))
    (old re_retries (JList [])) (old re_model_assignments (JList [])) (old re_cost (JObj [])) (old re_result (JObj [])).
Definition _persist_mission_record (m : Mission) (source : string) : P MissionRecord :=
  s ← get_state;
  existing ← (if bool_decide (is_Some (ps_files s !! mission_path missions_root (ms_id m))) then try_load (ms_id m) else mret None);
  now ← now_;
  let record := record_for m source now existing in
  record ← match existing with
    | None => add_timeline "mission.created"
                (JObj [("source", JStr source); ("status", JStr (MissionStatus.value (ms_status m)))]) record
    | Some _ => mret record
    end;
  save_to_disk record.

Definition _hydrate_mission_from_store (mission_id : string) : P (option Mission) :=
  s ← get_state;
  if negb (bool_decide (is_Some (ps_files s !! mission_path missions_root mission_id))) then mret None else
  record ← try_load mission_id;
  match record with
  | None => mret None
  | Some record =>
    if py_truthy (re_contract record) then
      id ← fresh_id ""; trace ← fresh_id "tr_"; now ← now_;
      match mission_validate id trace now (re_contract record) with
      | Some m => put_mission (ms_id m) m;; mret (Some m)
      | None => mret None
      end
    else mret None
  end.

Definition get_mission (mission_id : string) : P Mission :=
  s ← get_state;
  mission ← match dict_get (mc_missions (ps_controller s)) mission_id with
    | Some m => mret (Some m)
    | None => _hydrate_mission_from_store mission_id
    end;
  require mission (ApiError "not_found").

(** *** Events and repeated requests *)
Definition publish_event (project_id type actor : string) (mission_id task_id : option string) (payload : dict json)
    (dedupe_key correlation_id : option string) : P EventEnvelope :=
  id ← fresh_id "ev_"; now ← now_;
  on_log (append_event (mkEventEnvelope id now mission_id task_id project_id actor type (scrub_payload payload)
    None None correlation_id dedupe_key)).

Definition _idem_key (actor project_id operation key : string) : string :=
  actor +:+ "|" +:+ project_id +:+ "|" +:+ operation +:+ "|" +:+ key.
(** Both with a scope and a digest, as every route calls them; without a key they do nothing. *)
Definition recall_idempotent (key : option string) (actor project_id operation digest : string) : P (option Body) :=
  match key with
  | Some k =>
    if bool_decide (k = "") then mret None else
    s ← get_state;
    match ps_idempotency s !! _idem_key actor project_id operation k with
    | None => mret None
    | Some entry =>
      raise_if (negb (bool_decide (id_request_digest entry = digest))) (ApiError "idempotency_payload_mismatch");;
      mret (Some (id_body entry))
    end
  | None => mret None
  end.
Definition store_idempotent (key : option string) (body : Body) (actor project_id operation digest : string) : P Body :=
  match key with
  | Some k =>
    (if bool_decide (k = "") then mret () else
     modify (λ s, s <| ps_idempotency ::= <[_idem_key actor project_id operation k := mkIdem digest body]> |>));;
    mret body
  | None => mret body
  end.

(** *** Missions *)
(** [dict(j or {})]; of a list, the pairs it may hold are left out. *)
Definition dict_or_empty (j : json) : result (dict json) :=
  if py_truthy j then match j with
    | JObj d => Ok d
    | _ => Err (TypeError ("'" +:+ type_name j +:+ "' object is not a mapping"))
    end else Ok [].
(** [{**a, **b}]. *)
Definition merge (a b : dict json) : dict json := foldl (λ d kv, dict_set d kv.1 kv.2) a b.

Definition opt_str (o : option string) : json := match o with Some s => JStr s | None => JNull end.

(** The plan of a new mission. *)
Definition new_plan (created : Mission) (task_family : option string) (required_checks : option (dict json)) (plan : dict json) : dict json :=
  let plan := dict_set plan "project_id" (JStr (ms_project_id created)) in
  let plan := if truthy task_family
    then dict_set (dict_set plan "task_family" (opt_str task_family)) "support"
           (support_dict (classify_task_support (default "" task_family))) else plan in
  match required_checks with
  | Some ((_ :: _) as checks) => dict_set plan "required_checks" (JObj checks)
  | _ => plan
  end.
Definition create_mission (mission : Mission) (actor : string) (task_family : option string) (required_checks : option (dict json))
    : P Mission :=
  created ← on_controller (submit_mission mission);
  let support := classify_task_support (default "" task_family) in
  let unsupported := truthy task_family && negb (sd_supported support) in
  created ← (if unsupported then
      let failed := created <| ms_status := MissionStatus.FAILED |> in put_mission (ms_id failed) failed;; mret failed
    else mret created);
  _persist_mission_record created "api";;
  record ← load_from_disk (ms_id created);
  plan ← of_result (dict_or_empty (re_plan record));
  let record := record <| re_plan := JObj (new_plan created task_family required_checks plan) |> in
  record ← (if unsupported then
      add_timeline "mission.unsupported" (JObj [("task_family", opt_str task_family); ("reason", JStr (sd_reason support))])
        (record <| re_result := JObj [("ok", JBool false); ("unsupported", JBool true); ("support", support_dict support);
                                      ("summary", JStr (sd_reason support))] |>
                <| re_validation := JObj [("supported", JBool false); ("reasons", JList [JStr (sd_reason support)])] |>)
    else mret record);
  save_to_disk record;;
  publish_event (ms_project_id created) "mission.created" actor (Some (ms_id created)) None
    [("revision", JInt (ms_revision created)); ("status", JStr (MissionStatus.value (ms_status created)));
     ("task_family", opt_str task_family);
     ("supported", if truthy task_family then JBool (sd_supported support) else JNull)]
    (Some ("mission.created:" +:+ ms_id created)) None;;
  mret created.

(** [record.validation = {**(record.validation or {}), "review": ..., ...}]. *)
Definition note_review (decision : ReviewDecision) (actor : string) (r : MissionRecord) : P MissionRecord :=
  old ← of_result (dict_or_empty (re_validation r));
  now ← now_;
  mret (r <| re_validation := JObj (merge old [("review", review_dict decision); ("reviewed_at", JStr (isoformat now));
                                               ("reviewed_by", JStr actor)]) |>).

(** The record is noted, persisted through the mission (which loads the stored record again), loaded,
    noted again and saved with a line in its timeline. *)
Definition conclude_review (mission_id : string) (updated : Mission) (event : string) (detail : json)
    (decision : ReviewDecision) (actor : string) : P () :=
  _persist_mission_record updated "api";;
  record ← load_from_disk mission_id;
  record ← note_review decision actor record;
  record ← add_timeline event detail record;
  save_to_disk record;;
  mret ().

Definition review_mission_attempt (mission_id actor : string) (produced : dict json) (required_checks : option (dict json))
    (force_wrong : bool) : P Body :=
  mission ← get_mission mission_id;
  record ← load_from_disk mission_id;
  plan ← of_result (if py_truthy (re_plan record) then as_dict (re_plan record) "get" else Ok []);
  let checks := match required_checks with
    | Some c => Some c
    | None => match dict_get plan "required_checks" with Some (JObj c) => Some c | _ => None end end in
  let decision := review_attempt produced checks force_wrong in
  record ← note_review decision actor record;
  if rd_accepted decision then
    receipt_id ← fresh_id "acr_";
    let updated := mission <| ms_status := MissionStatus.COMPLETED |> <| ms_acceptance_receipt_id := Some receipt_id |>
                           <| ms_revision := ms_revision mission + 1 |> in
    put_mission mission_id updated;;
    of_result (dict_or_empty (re_result record));;
    conclude_review mission_id updated "mission.accepted"
      (JObj [("acceptance_receipt_id", JStr receipt_id); ("reasons", JList (JStr <$> rd_reasons decision))]) decision actor;;
    publish_event (ms_project_id updated) "mission.accepted" actor (Some mission_id) None
      [("acceptance_receipt_id", JStr receipt_id)] (Some ("mission.accepted:" +:+ mission_id +:+ ":" +:+ receipt_id)) None;;
    mret (ReviewBody mission_id (Some receipt_id) decision updated)
  else
    let updated := mission <| ms_status := MissionStatus.FAILED |> <| ms_acceptance_receipt_id := None |>
                           <| ms_revision := ms_revision mission + 1 |> in
    put_mission mission_id updated;;
    of_result (dict_or_empty (re_result record));;
    conclude_review mission_id updated "mission.rejected"
      (JObj [("reasons", JList (JStr <$> rd_reasons decision));
             ("checks", JObj ((λ kv, (kv.1, JBool kv.2)) <$> rd_checks decision))]) decision actor;;
    publish_event (ms_project_id updated) "mission.rejected" actor (Some mission_id) None
      [("reasons", JList (JStr <$> rd_reasons decision))]
      (Some ("mission.rejected:" +:+ mission_id +:+ ":" +:+ pretty (ms_revision updated))) None;;
    mret (ReviewBody mission_id None decision updated).

Definition cancel_tasks (mission_id : string) (c : Controller) : Controller :=
  match dict_get (mc_tasks c) mission_id with
  | Some tasks => c <| mc_tasks := dict_set (mc_tasks c) mission_id
                        ((λ kv : string * TaskSpec, (kv.1, kv.2 <| ts_status := TaskStatus.CANCELLED |>)) <$> tasks) |>
  | None => c
  end.
Definition cancel_mission (mission_id actor : string) : P Mission :=
  mission ← get_mission mission_id;
  s ← get_state;
  if bool_decide (mission_id ∈ ps_cancelled_missions s) then mret mission else
  let updated := mission <| ms_status := MissionStatus.CANCELLED |>
                         <| ms_cancellation_generation := ms_cancellation_generation mission + 1 |> in
  put_mission mission_id updated;;
  modify (λ s, s <| ps_cancelled_missions ::= union {[mission_id]} |>
                 <| ps_cancelled_tasks ::= union (list_to_set (dict_keys (task_map (ps_controller s) mission_id))) |>
                 <| ps_controller ::= cancel_tasks mission_id |>);;
  _persist_mission_record updated "api";;
  record ← load_from_disk mission_id;
  record ← add_timeline "mission.cancelled"
    (JObj [("actor", JStr actor); ("cancellation_generation", JInt (ms_cancellation_generation updated))]) record;
  save_to_disk record;;
  publish_event (ms_project_id updated) "mission.cancelled" actor (Some mission_id) None
    [("cancellation_generation", JInt (ms_cancellation_generation updated))]
    (Some ("mission.cancelled:" +:+ mission_id +:+ ":" +:+ pretty (ms_cancellation_generation updated))) None;;
  mret updated.

Definition assert_not_cancelled (mission_id task_id : option string) : P () :=
  s ← get_state;
  raise_if (truthy mission_id && bool_decide (default "" mission_id ∈ ps_cancelled_missions s)) (ApiError "mission_cancelled");;
  raise_if (truthy task_id && bool_decide (default "" task_id ∈ ps_cancelled_tasks s)) (ApiError "task_cancelled").
Definition record_side_effect (label : string) (mission_id task_id : option string) : P () :=
  assert_not_cancelled mission_id task_id;;
  modify (λ s, s <| ps_side_effects ::= λ l, l ++ [label] |>).

Definition graph_view (mission_id : string) : P Body :=
  mission ← get_mission mission_id;
  s ← get_state;
  mret (GraphBody mission_id (ms_revision mission) (ms_status mission)
          (dict_values (task_map (ps_controller s) mission_id)) (mc_graph_explanations (ps_controller s))).

(** *** Approvals and workers *)
Definition create_approval (permitted_operation destination grantor : string) (payload : dict json) (project_id : option string)
    (ttl_seconds : Z) : P Approval :=
  let from_payload := default JNull (dict_get payload "project_id") in
  let owned := if truthy project_id then default "" project_id
               else if py_truthy from_payload then py_str from_payload else "" in
  raise_if (bool_decide (owned = "")) (ApiError "invalid_request");;
  now ← now_; id ← fresh_id "apr_";
  let approval := mkApproval id (payload_hash (JObj payload)) permitted_operation destination grantor owned
                    (now + ttl_seconds * 1000000) None [] in
  modify (λ s, s <| ps_approvals := dict_set (ps_approvals s) id approval |>);;
  publish_event owned "approval.requested" grantor None None
    [("approval_id", JStr id); ("operation", JStr permitted_operation)] (Some ("approval.requested:" +:+ id)) None;;
  mret approval.

Definition resolve_approval (approval_id : string) (accept : bool) (actor : string) (payload : option (dict json))
    (project_id : option string) : P Approval :=
  s ← get_state;
  approval ← require (dict_get (ps_approvals s) approval_id) (ApiError "not_found");
  raise_if (match project_id with Some p => negb (bool_decide (tp_project_id approval = p)) | None => false end)
    (ApiError "forbidden_project");;
  raise_if (match tp_revoked_at approval with Some _ => true | None => false end) (ApiError "approval_revoked");;
  now ← now_;
  raise_if (tp_expires_at approval <=? now) (ApiError "approval_expired");;
  raise_if (match payload with Some p => negb (bool_decide (payload_hash (JObj p) = tp_payload_hash approval)) | None => false end)
    (ApiError "approval_payload_mismatch");;
  approval ← (if accept then mret approval else
    now ← now_;
    let revoked := mkApproval (tp_id approval) (tp_payload_hash approval) (tp_permitted_operation approval)
      (tp_destination approval) (tp_grantor approval) (tp_project_id approval) (tp_expires_at approval) (Some now)
      (tp_constraints approval) in
    modify (λ s, s <| ps_approvals := dict_set (ps_approvals s) approval_id revoked |>);;
    mret revoked);
  publish_event (tp_project_id approval) "approval.resolved" actor None None
    [("approval_id", JStr approval_id); ("accepted", JBool accept)]
    (Some ("approval.resolved:" +:+ approval_id +:+ ":" +:+ (if accept then "True" else "False"))) None;;
  mret approval.

(** The payload of the event also holds the capacity, a float, which is left out. *)
Definition enroll_worker (capabilities : list string) (capacity_units : float) (privacy_classes named_inference_urls : list string)
    (project_id actor : string) : P (WorkerLease * string) :=
  token ← fresh_id "wt_"; worker_id ← fresh_id "wk_"; node ← fresh_id "node_"; at_ ← now_;
  let lease := mkWorkerLease worker_id ("api-" +:+ first_chars 8 node) "api" ["api"] capabilities "0.1.0" capacity_units 1 at_
                 WorkerStatus.ONLINE in
  joined ← now_;
  registered ← on_workers (WorkerRegistry.register "" joined lease (Some token) (Some project_id));
  on_workers (
    rec ← get_rec (wk_worker_id registered);
    put_rec (wk_worker_id registered)
      (rec <| rc_privacy_classes := remove_dups privacy_classes |> <| rc_named_inference_urls := named_inference_urls |>));;
  publish_event project_id "worker.joined" actor None None
    [("worker_id", JStr worker_id); ("privacy", JList (JStr <$> privacy_classes))] (Some ("worker.joined:" +:+ worker_id)) None;;
  mret (registered, token).
End store.
