(* ===== verification/ApiRoutes.v ===== *)
(** * ApiRoutes: the authenticated /v1 routes

    api/routes_v1.py.  A handler runs for a principal, on a parsed body; it checks the scope,
    looks for the reply to an earlier request with the same key, calls the store and keeps the
    reply.  [serve] resolves the principal from the header first.  Modelled are the routes of
    missions, events, probes, workers, approvals and side effects, and those of objectives,
    learning proposals and operational events over their repositories (which draw ids and
    times from their own counters).  Routes that only render catalogs, projects, histories,
    drills and plans are not. *)
From S2P Require Import Prelude Collections Contracts PyFloat Json JsonText Models Checkpoint Workspace Objectives Learning MissionStore Graph Scheduler Controller WorkerRegistry ToolGateway Api.
Open Scope Z_scope.

Inductive Request :=
  | PostMission (mission : Mission) (task_family : option string) (required_checks : option (dict json)) (body_key : option string)
  | GetMission (mission_id : string)
  | PostReview (mission_id : string) (produced : dict json) (required_checks : option (dict json)) (force_wrong : bool)
      (body_key : option string)
  | PostCancel (mission_id : string) (reason body_key : option string)
  | GetGraph (mission_id : string)
  | GetEvents (after project_id mission_id : option string) (limit : Z)
  | GetStream (after project_id : option string)
  | PostProbe (provider_id purpose : string) (body_key : option string)
  | GetWorkers (project_id : option string)
  | PostEnroll (project_id : string) (capabilities : list string) (capacity_units : float)
      (privacy_classes named_inference_urls : list string) (body_key : option string)
  | PostHeartbeat (worker_id : string) (generation : Z) (token : string)
  | GetApprovals (project_id : option string)
  | PostResolve (approval_id : string) (accept : bool) (payload : option (dict json)) (body_key : option string)
  | PostSideEffect (mission_id : string).

Section routes.
Context {lax : Lax} {dates : Dates}.
Context (hex : nat → string) (clock : nat → Z) (sha256 : string → string) (missions_root : string).
(** The JSON number a float prints as. *)
Context (float_json : float → json).

Abbreviation P := (M ProductStore).

(** [a or b]. *)
Definition or_else (a b : option string) : option string := if truthy a then a else b.
Definition opt_checks (o : option (dict json)) : json := match o with Some d => JObj d | None => JNull end.
Definition str_list (l : list string) : json := JList (JStr <$> l).

(** Every write runs so: recall, act, keep the reply. *)
Definition once (key : option string) (p : Principal) (project_id operation : string) (document : json) (act : P Body) : P Body :=
  let digest := payload_hash sha256 document in
  cached ← recall_idempotent key (pr_subject p) project_id operation digest;
  match cached with
  | Some body => mret body
  | None => body ← act; store_idempotent key body (pr_subject p) project_id operation digest
  end.

Definition post_mission (p : Principal) (mission : Mission) (task_family : option string) (required_checks : option (dict json))
    (key : option string) : P Body :=
  require_project p (ms_project_id mission);;
  once key p (ms_project_id mission) "missions.create" (mission_dump mission)
    (m ← create_mission hex clock missions_root mission (pr_subject p) task_family required_checks;
     mret (MissionBody m (if truthy task_family
                          then Some (default "" task_family, classify_task_support (default "" task_family)) else None))).

Definition truthy_json (j : json) : option json := if py_truthy j then Some j else None.
Definition route_get_mission (p : Principal) (mission_id : string) : P Body :=
  mission ← get_mission hex clock missions_root mission_id;
  require_project p (ms_project_id mission);;
  record ← try_load missions_root mission_id;
  mret match record with
       | Some r => MissionView mission (truthy_json (re_plan r)) (truthy_json (re_validation r)) (truthy_json (re_result r))
       | None => MissionView mission None None None
       end.

Definition post_review (p : Principal) (mission_id : string) (produced : dict json) (required_checks : option (dict json))
    (force_wrong : bool) (key : option string) : P Body :=
  mission ← get_mission hex clock missions_root mission_id;
  require_project p (ms_project_id mission);;
  once key p (ms_project_id mission) "missions.review"
    (JObj [("mission_id", JStr mission_id); ("produced", JObj produced); ("required_checks", opt_checks required_checks);
           ("force_wrong", JBool force_wrong); ("operation", JStr "missions.review")])
    (review_mission_attempt hex clock missions_root mission_id (pr_subject p) produced required_checks force_wrong).

Definition post_cancel (p : Principal) (mission_id : string) (reason key : option string) : P Body :=
  mission ← get_mission hex clock missions_root mission_id;
  require_project p (ms_project_id mission);;
  once key p (ms_project_id mission) "missions.cancel"
    (JObj [("mission_id", JStr mission_id); ("reason", opt_str reason); ("operation", JStr "missions.cancel")])
    (m ← cancel_mission hex clock missions_root mission_id (pr_subject p); mret (MissionBody m None)).

Definition mission_graph (p : Principal) (mission_id : string) : P Body :=
  mission ← get_mission hex clock missions_root mission_id;
  require_project p (ms_project_id mission);;
  graph_view hex clock missions_root mission_id.

(** The events a principal without a project filter may see. *)
Definition own_events (p : Principal) (project_id : option string) (events : list EventEnvelope) : list EventEnvelope :=
  match project_id with Some _ => events | None => List.filter (λ e, may_access p (ev_project_id e)) events end.
Definition check_filter (p : Principal) (project_id : option string) : P () :=
  if truthy project_id then require_project p (default "" project_id) else mret ().

Definition list_events (p : Principal) (after project_id mission_id : option string) (limit : Z) : P Body :=
  raise_if ((limit <? 1) || (200 <? limit)) (Exn "RequestValidationError" "limit");;
  check_filter p project_id;;
  s ← get_state;
  let '(events, cursor) := list_after project_id mission_id after limit (ps_events s) in
  let events := own_events p project_id events in
  mret (EventsBody events limit cursor (limit <=? Z.of_nat (length events))).
Definition stream_events (p : Principal) (after project_id : option string) : P Body :=
  check_filter p project_id;;
  s ← get_state;
  let '(events, cursor) := list_after project_id None after 100 (ps_events s) in
  mret (EventsBody (own_events p project_id events) 100 cursor false).

(** The project a principal's own requests count for: the first of its own. *)
Definition first_project (p : Principal) : P string :=
  require (head (sort_by str_leb (elements (pr_project_ids p)))) (ApiError "policy_denied").
Definition probe_provider (p : Principal) (provider_id purpose : string) (key : option string) : P Body :=
  raise_if (negb (pr_allow_canary p)) (ApiError "policy_denied");;
  project_id ← first_project p;
  once key p project_id "providers.probe"
    (JObj [("provider_id", JStr provider_id); ("purpose", JStr purpose); ("operation", JStr "providers.probe")])
    (mret (ProbeBody provider_id purpose)).

(** [total_capacity], a sum of floats, is left out. *)
Definition list_workers (p : Principal) (project_id : option string) : P Body :=
  check_filter p project_id;;
  s ← get_state;
  let w := ps_workers s in
  mret (if truthy project_id then WorkersBody (inspect_rows project_id w) (inspect_quarantine project_id w)
        else if is_admin p then WorkersBody (inspect_rows None w) (inspect_quarantine None w)
        else let projects := sort_by str_leb (elements (pr_project_ids p)) in
          WorkersBody (concat (map (λ pid, inspect_rows (Some pid) w) projects))
            (sort_by str_leb (remove_dups (concat (map (λ pid, inspect_quarantine (Some pid) w) projects))))).

Definition post_enroll (p : Principal) (project_id : string) (capabilities : list string) (capacity_units : float)
    (privacy_classes named_inference_urls : list string) (key : option string) : P Body :=
  require_project p project_id;;
  once key p project_id "workers.enroll"
    (JObj [("project_id", JStr project_id); ("capabilities", str_list capabilities); ("capacity_units", float_json capacity_units);
           ("privacy_classes", str_list privacy_classes); ("named_inference_urls", str_list named_inference_urls);
           ("operation", JStr "workers.enroll")])
    ('(lease, token) ← enroll_worker hex clock capabilities capacity_units privacy_classes named_inference_urls
                         project_id (pr_subject p);
     mret (EnrollBody lease project_id token)).

Definition worker_heartbeat (p : Principal) (worker_id : string) (generation : Z) (token : string) : P Body :=
  s ← get_state;
  rec ← require (dict_get (rg_workers (ps_workers s)) worker_id) (ApiError "not_found");
  raise_if (truthy (rc_project_id rec) && negb (may_access p (default "" (rc_project_id rec)))) (ApiError "forbidden_project");;
  now ← now_ clock;
  lease ← on_workers (heartbeat now worker_id generation token);
  mret (HeartbeatBody lease (rc_project_id rec)).

Definition list_approvals (p : Principal) (project_id : option string) : P Body :=
  check_filter p project_id;;
  s ← get_state;
  let all := dict_values (ps_approvals s) in
  mret (ApprovalsBody (if truthy project_id then List.filter (λ a, bool_decide (Some (tp_project_id a) = project_id)) all
                       else List.filter (λ a, may_access p (tp_project_id a)) all)).

Definition post_resolve (p : Principal) (approval_id : string) (accept : bool) (payload : option (dict json)) (key : option string)
    : P Body :=
  s ← get_state;
  approval ← require (dict_get (ps_approvals s) approval_id) (ApiError "not_found");
  require_project p (tp_project_id approval);;
  let project_id := tp_project_id approval in
  once key p project_id "approvals.resolve"
    (JObj [("approval_id", JStr approval_id); ("accept", JBool accept); ("payload", opt_checks payload);
           ("operation", JStr "approvals.resolve")])
    (resolved ← resolve_approval hex clock sha256 approval_id accept (pr_subject p) payload (Some project_id);
     mret (ApprovalBody resolved accept)).

Definition demo_side_effect (p : Principal) (mission_id : string) : P Body :=
  s ← get_state;
  raise_if (negb (ps_fixture_mode s)) (ApiError "fixture_only");;
  mission ← get_mission hex clock missions_root mission_id;
  require_project p (ms_project_id mission);;
  record_side_effect ("demo:" +:+ mission_id) (Some mission_id) None;;
  s ← get_state;
  mret (SideEffectsBody (ps_side_effects s)).

(** The router; [header] is the Idempotency-Key header. *)
Definition handle (p : Principal) (header : option string) (req : Request) : P Body :=
  match req with
  | PostMission m family checks k => post_mission p m family checks (or_else k header)
  | GetMission id => route_get_mission p id
  | PostReview id produced checks force k => post_review p id produced checks force (or_else k header)
  | PostCancel id reason k => post_cancel p id reason (or_else k header)
  | GetGraph id => mission_graph p id
  | GetEvents after project mission limit => list_events p after project mission limit
  | GetStream after project => stream_events p after project
  | PostProbe provider purpose k => probe_provider p provider purpose (or_else k header)
  | GetWorkers project => list_workers p project
  | PostEnroll project caps cap privacy urls k => post_enroll p project caps cap privacy urls (or_else k header)
  | PostHeartbeat w g t => worker_heartbeat p w g t
  | GetApprovals project => list_approvals p project
  | PostResolve id accept payload k => post_resolve p id accept payload (or_else k header)
  | PostSideEffect id => demo_side_effect p id
  end.
Definition serve (auth : AuthRegistry) (authorization client_host header : option string) (req : Request) : P Body :=
  p ← of_result (resolve_principal authorization client_host auth);
  handle p header req.

(** A new process over the same directory; ids drawn so far stay drawn. *)
Definition restart_api (c : Controller) (s : ProductStore) : ProductStore :=
  mkProductStore c (WorkerRegistry.init 30) empty_log [] ∅ ∅ ∅ [] (ps_fixture_mode s) (ps_files s) (ps_draws s) (ps_reads s).
End routes.

(** ** Objectives, learning proposals and operational events *)
Section more_routes.
Context (hex : nat → string) (clock : nat → Z) (fromisoformat : string → result Z).

(** [except ObjectiveError as exc: raise ApiError(...)]. *)
Definition translate {S A} (cls code : string) (m : M S A) : M S A :=
  try_except m (λ e, match e with
    | Exn c _ => if bool_decide (c = cls) then raise (ApiError code) else raise e
    | _ => raise e end).

(** The fields of the body, converted as the handler does; the empty list of templates means the
    generic one. *)
Definition create_objective (p : Principal) (project_id goal : string) (templates : list string) (spend : float)
    (tools data providers : list string) : M ObjectiveRepository ObjectiveContract :=
  require_project p project_id;;
  translate "ObjectiveError" "objective_error" (
    id ← draw hex "obj_"; now ← read_clock clock;
    create (mkObjective id project_id 1 goal "manual" None [] 1 1 (match templates with [] => ["generic"] | _ => templates end)
              tools data providers spend "active" [] None (isoformat now))).
Definition trigger_objective (p : Principal) (objective_id : string) (dedupe_key trigger_kind : option string)
    (template_id : option string) : M ObjectiveRepository MissionProposal :=
  translate "ObjectiveError" "objective_error" (
    obj ← get_objective objective_id;
    require_project p (oc_project_id obj);;
    key ← (if truthy dedupe_key then mret (default "" dedupe_key) else draw hex "dk_");
    Objectives.trigger hex clock fromisoformat objective_id key
      (if truthy trigger_kind then default "" trigger_kind else "manual") template_id).
Definition admit_objective_proposal (p : Principal) (objective_id : string) (proposal_id : string)
    : M ObjectiveRepository MissionProposal :=
  translate "ObjectiveError" "objective_error" (
    obj ← get_objective objective_id;
    require_project p (oc_project_id obj);;
    admit_to_mission hex clock fromisoformat proposal_id None).

(** [id] and [now]: what the model's default factories draw. *)
Definition create_learning_proposal (p : Principal) (id now project_id change_summary : string) (sealed_holdout_ref : option string)
    : M LearningRepository LearningProposal :=
  require_project p project_id;;
  translate "LearningError" "learning_error"
    (create_learning (mkLearning id project_id 1 change_summary "proposed" sealed_holdout_ref None None None now)).

Definition route_ops_events (p : Principal) (project_id : option string) (log : list OpsEvent) : result (list OpsEvent) :=
  if truthy project_id && negb (may_access p (default "" project_id)) then Err (ApiError "forbidden_project")
  else Ok (list_ops_events project_id None 100 log).
End more_routes.
