(* ===== verification/ApiMissions.v ===== *)
(** * ApiMissions: missions of the API on disk, and who sees them

    Every mission the API holds in memory is on disk as it is in memory, so that a new process
    over the same directory answers as the old one: [missions_survive_restart].  What a reply
    names belongs to a project of the principal it goes to: [replies_stay_in_scope]. *)
From Stdlib Require Import Ascii.
From S2P Require Import Prelude Collections Contracts PyFloat Json JsonText Models Checkpoint Workspace MissionStore Graph Scheduler Controller WorkerRegistry ToolGateway Api ApiRoutes ApiProps.
Open Scope Z_scope.

Section missions.
Context {lax : Lax} {dates : Dates}.
Context (hex : nat → string) (clock : nat → Z) (sha256 : string → string) (missions_root : string) (float_json : float → json).

(** A mission as validation makes it, of a project whose id holds no bar: the keys under which
    replies are kept join ids with bars. *)
Definition bar_free (s : string) : Prop := "|"%char ∉ of_string s.
Record fit (m : Mission) : Prop := { ft_valid : valid_mission m; ft_project : bar_free (ms_project_id m) }.

(** A record the store can work with: documents with each key once, containers of the right kind. *)
Record good (r : MissionRecord) : Prop := {
  gd_wf : wf_record r;
  gd_timeline : ∃ l, re_timeline r = JList l;
  gd_plan : ∃ d, re_plan r = JObj d;
  gd_validation : ∃ d, re_validation r = JObj d;
  gd_result : ∃ d, re_result r = JObj d
}.
Record holds (r : MissionRecord) (m : Mission) : Prop := {
  hd_good : good r;
  hd_id : re_mission_id r = JStr (ms_id m);
  hd_contract : re_contract r = mission_dump m;
  hd_fit : fit m
}.
Definition on_disk (fs : gmap string string) (id : string) (m : Mission) : Prop :=
  ms_id m = id ∧ ∃ r, load_record missions_root id fs = Ok r ∧ holds r m.
Definition disk_ok (fs : gmap string string) : Prop :=
  ∀ id, is_Some (fs !! mission_path missions_root id) → ∃ m, on_disk fs id m.

Lemma on_disk_unique fs id m m' : on_disk fs id m → on_disk fs id m' → m = m'.
Proof.
  intros (_ & r & Hr & [_ _ Hc Hv]) (_ & r' & Hr' & [_ _ Hc' Hv']). rewrite Hr in Hr'. injection Hr' as <-.
  rewrite Hc in Hc'. pose proof (mission_round_trip "" "" 0 m (ft_valid _ Hv)) as H. rewrite Hc', mission_round_trip in H by apply Hv'. by injection H.
Qed.
Lemma on_disk_file fs id m : on_disk fs id m → is_Some (fs !! mission_path missions_root id).
Proof. intros (_ & r & Hr & _). unfold load_record in Hr. by destruct (fs !! _). Qed.

(** Changing one field keeps a record good. *)
Ltac good_field :=
  intros [Hwf ?? ??]; intros; constructor; cbn; eauto; unfold wf_record, record_dict in *; cbn; split_fields.
Lemma good_updated r now : good r → good (r <| re_updated_at := JStr (isoformat now) |>).
Proof. good_field. Qed.
Lemma good_set_plan r d : good r → wf_json (JObj d) → good (r <| re_plan := JObj d |>).
Proof. good_field. Qed.
Lemma good_set_validation r d : good r → wf_json (JObj d) → good (r <| re_validation := JObj d |>).
Proof. good_field. Qed.
Lemma good_set_result r d : good r → wf_json (JObj d) → good (r <| re_result := JObj d |>).
Proof. good_field. Qed.
Lemma good_set_timeline r l : good r → wf_json (JList l) → good (r <| re_timeline := JList l |>).
Proof. good_field. Qed.

(** What a store operation does to the disk for one mission, and nothing else but to the clock. *)
Record wrote (id : string) (m : Mission) (s s' : ProductStore) : Prop := {
  wr_only : s' = s <| ps_files := ps_files s' |> <| ps_reads := ps_reads s' |>;
  wr_disk : on_disk (ps_files s') id m;
  wr_ok : disk_ok (ps_files s');
  wr_others : ∀ id' m', id' ≠ id → on_disk (ps_files s) id' m' → on_disk (ps_files s') id' m'
}.
Lemma wrote_trans id m m' s1 s2 s3 : wrote id m s1 s2 → wrote id m' s2 s3 → wrote id m' s1 s3.
Proof.
  intros [H1 _ _ Ho1] [H2 Hd Hok Ho2]. constructor; try done; [|auto]. rewrite H2, H1. by destruct s1.
Qed.

Lemma save_wrote r m s : holds r m → disk_ok (ps_files s) →
  ∃ r' s', save_to_disk clock missions_root r s = (Ok r', s') ∧ wrote (ms_id m) m s s'.
Proof.
  intros Hh Hok. pose proof Hh as [Hg Hid Hc Hv]. unfold save_to_disk.
  erewrite bind_run by reflexivity. erewrite bind_run by reflexivity. cbn [ps_files].
  destruct (save_record _ _ _ _) as [r' fs'] eqn:Hs. change (ps_files (s <| ps_reads ::= S |>)) with (ps_files s) in Hs. erewrite bind_run by reflexivity. do 2 eexists. split; [reflexivity|].
  assert (fs' = (save_record missions_root (clock (ps_reads s)) r (ps_files s)).2) as Hfs' by (by rewrite Hs).
  assert (on_disk fs' (ms_id m) m) as Hd.
  { split; [done|]. eexists. split; [rewrite Hfs'; apply load_saved; [apply Hg|exact Hid]|].
    constructor; [by apply good_updated|done..]. }
  assert (∀ id' m', id' ≠ ms_id m → on_disk (ps_files s) id' m' → on_disk fs' id' m') as Hoth.
  { intros id' m' Hne (Hi & r0 & Hl & Hh'). split; [done|]. exists r0. split; [|done]. rewrite Hfs'. by erewrite load_other. }
  constructor; cbn; [by destruct s|done| |done]. intros id Hs'. destruct (decide (id = ms_id m)) as [->|Hne]; [by exists m|].
  rewrite Hfs' in Hs'. unfold save_record in Hs'. cbn [snd] in Hs'. rewrite Hid in Hs'. cbn [py_str] in Hs'.
  rewrite lookup_insert_ne in Hs' by (intros H%mission_path_inj; done).
  destruct (Hok _ Hs') as [m' Hm']. exists m'. by apply Hoth.
Qed.

Lemma load_run id m s : on_disk (ps_files s) id m →
  ∃ r, load_from_disk missions_root id s = (Ok r, s) ∧ holds r m ∧ ms_id m = id.
Proof.
  intros (Hid & r & Hr & Hh). exists r. split; [|done]. unfold load_from_disk. erewrite bind_run by reflexivity.
  unfold of_result. by rewrite Hr.
Qed.

Lemma timeline_run ev d r m s : holds r m → wf_json d →
  ∃ r', add_timeline clock ev d r s = (Ok r', s <| ps_reads ::= S |>) ∧ holds r' m.
Proof.
  intros [Hg Hid Hc Hv] Hd. destruct (gd_timeline _ Hg) as [l Hl]. unfold add_timeline. erewrite bind_run by reflexivity.
  unfold append_timeline. rewrite Hl. eexists. split; [reflexivity|]. constructor; [|done..]. apply good_set_timeline; [done|].
  apply wf_list, Forall_app. split.
  - apply wf_list, (wf_fields r "timeline" _ (gd_wf _ Hg)). unfold record_dict. rewrite Hl. do 11 right. by left.
  - apply Forall_singleton. apply wf_obj. split; [by apply (bool_decide_unpack _); vm_compute|]. repeat constructor; done.
Qed.

Lemma try_load_run id s : disk_ok (ps_files s) →
  ∃ o, try_load missions_root id s = (Ok o, s) ∧
    match o with Some r => ∃ m, ms_id m = id ∧ holds r m ∧ on_disk (ps_files s) id m | None => ps_files s !! mission_path missions_root id = None end.
Proof.
  intros Hok. unfold try_load, try_except. destruct (ps_files s !! mission_path missions_root id) eqn:Hf.
  - destruct (Hok id) as [m Hm]; [by rewrite Hf|]. destruct (load_run _ _ _ Hm) as (r & Hr & Hh & Hid).
    erewrite bind_run by exact Hr. exists (Some r). split; [done|]. by exists m.
  - exists None. split; [|done]. unfold load_from_disk. unfold load_record. unfold mbind, M_bind, get_state, of_result. by rewrite Hf.
Qed.

Lemma record_for_holds m src now existing : fit m →
  (∀ r, existing = Some r → good r) → holds (record_for m src now existing) m.
Proof.
  intros Hv He. constructor; [|done..].
  assert (wf_json (mission_dump m)) as Hd by (by apply mission_dump_wf, Hv).
  destruct existing as [r|].
  - destruct (He r eq_refl) as [Hwf ????]. constructor; cbn; try done.
    unfold wf_record, record_dict, record_for in *. cbn -[mission_dump wf_json]. split_fields.
  - assert (wf_json (JObj [])) by (split; constructor).
    assert (wf_json (JObj [("project_id", JStr (ms_project_id m))])) by (by apply wf_obj; split; [apply NoDup_singleton|repeat constructor]).
    constructor; cbn; eauto. unfold wf_record, record_dict, record_for. cbn -[mission_dump wf_json]. split_fields.
Qed.

Lemma persist_run m src s : fit m → disk_ok (ps_files s) →
  ∃ r s', _persist_mission_record clock missions_root m src s = (Ok r, s') ∧ wrote (ms_id m) m s s'.
Proof.
  intros Hv Hok. unfold _persist_mission_record. erewrite bind_run by reflexivity.
  assert (∃ o, (if bool_decide (is_Some (ps_files s !! mission_path missions_root (ms_id m))) then try_load missions_root (ms_id m)
      else mret None) s = (Ok o, s) ∧ ∀ r, o = Some r → good r) as (o & Ho & Hgood).
  { case_bool_decide; [|exists None; by split]. destruct (try_load_run (ms_id m) s Hok) as (o & Ho & Hr). exists o. split; [done|].
    intros r ->. destruct Hr as (m' & _ & Hh & _). apply Hh. }
  erewrite bind_run by exact Ho. erewrite bind_run by reflexivity.
  set (s1 := s <| ps_reads ::= S |>). set (rec := record_for m src (clock (ps_reads s)) o).
  assert (holds rec m) as Hrec by (by apply record_for_holds).
  assert (∃ r s2, (match o with
      | None => add_timeline clock "mission.created"
                  (JObj [("source", JStr src); ("status", JStr (MissionStatus.value (ms_status m)))]) rec
      | Some _ => mret rec end) s1 = (Ok r, s2) ∧ holds r m ∧ s2 = s <| ps_reads := ps_reads s2 |>) as (r & s2 & Hr & Hh & Hs2).
  { destruct o; [by exists rec, s1|]. destruct (timeline_run "mission.created"
      (JObj [("source", JStr src); ("status", JStr (MissionStatus.value (ms_status m)))]) rec m s1 Hrec) as (r & Hr & Hh); [|by exists r, (s1 <| ps_reads ::= S |>)].
    apply wf_obj. split; [by apply (bool_decide_unpack _); vm_compute|by repeat constructor]. }
  erewrite bind_run by exact Hr. destruct (save_wrote r m s2 Hh) as (r' & s' & Hsave & Hw); [by rewrite Hs2|].
  exists r', s'. split; [done|]. destruct Hw as [H1 H2 H3 H4]. constructor; try done; [|by rewrite Hs2 in H4].
  rewrite H1, Hs2. by destruct s.
Qed.

(** *** Reading a mission *)
Definition stored (s : ProductStore) : Prop := ∀ id m, dict_get (mc_missions (ps_controller s)) id = Some m → on_disk (ps_files s) id m.
Record inv (s : ProductStore) : Prop := { inv_disk : disk_ok (ps_files s); inv_stored : stored s }.

(** The answer is a function of the disk; the mission is then in memory. *)
Lemma get_run id s : inv s → ∃ r s', get_mission hex clock missions_root id s = (r, s')
  ∧ inv s' ∧ ps_files s' = ps_files s ∧ ps_workers s' = ps_workers s ∧ ps_approvals s' = ps_approvals s
  ∧ ps_idempotency s' = ps_idempotency s ∧ ps_events s' = ps_events s
  ∧ match r with
    | Ok m => on_disk (ps_files s) id m ∧ dict_get (mc_missions (ps_controller s')) id = Some m
    | Err e => e = ApiError "not_found" ∧ ps_files s !! mission_path missions_root id = None
    end.
Proof.
  intros [Hok Hst]. unfold get_mission. erewrite bind_run by reflexivity.
  destruct (dict_get (mc_missions (ps_controller s)) id) as [m|] eqn:Hm.
  { erewrite bind_run by reflexivity. exists (Ok m), s. split_and!; try done. by apply Hst. }
  unfold _hydrate_mission_from_store. destruct (ps_files s !! mission_path missions_root id) eqn:Hf; last first.
  { exists (Err (ApiError "not_found")), s. split; [|done]. rewrite (bind_run _ _ _ None s); [reflexivity|].
    erewrite bind_run by reflexivity. rewrite bool_decide_false; [reflexivity|]. rewrite Hf. by intros []. }
  destruct (try_load_run id s Hok) as (o & Ho & Hr). destruct o as [r|]; [|congruence].
  destruct Hr as (m & Hid & [Hg Hrid Hc Hv] & Hdisk). pose (s3 := s <| ps_draws ::= S |> <| ps_draws ::= S |> <| ps_reads ::= S |>).
  exists (Ok m), (s3 <| ps_controller := (ps_controller s) <| mc_missions := dict_set (mc_missions (ps_controller s)) id m |> |>).
  split.
  { erewrite (bind_run _ _ _ (Some m)); [reflexivity|]. erewrite bind_run by reflexivity. rewrite bool_decide_true by (by rewrite Hf).
    cbn [negb]. erewrite bind_run by exact Ho. cbv beta iota. rewrite Hc.
    assert (py_truthy (mission_dump m) = true) as -> by done.
    do 3 (erewrite bind_run by reflexivity). rewrite mission_round_trip by apply Hv. rewrite Hid. reflexivity. }
  split_and!; try done; [|cbn; apply dict_get_set_eq].
  constructor; [done|]. intros id' m'. cbn. rewrite dict_get_set. case_decide; [intros [= <-]; by subst|apply Hst].
Qed.

(** *** Documents that are written *)
Lemma wf_merge b a : wf_json (JObj a) → Forall (λ kv, wf_json kv.2) b → wf_json (JObj (merge a b)).
Proof.
  unfold merge. revert a. induction b as [|[k v] b IH]; intros a Ha Hb; [done|]. apply Forall_cons in Hb as [Hv Hb]. cbn [foldl].
  by apply IH; [apply wf_dict_set|].
Qed.
Lemma wf_checks (d : dict bool) : NoDup d.*1 → wf_json (JObj ((λ kv, (kv.1, JBool kv.2)) <$> d)).
Proof. intros Hd. apply wf_obj. rewrite <- list_fmap_compose. split; [done|]. apply Forall_fmap, Forall_true. done. Qed.
Lemma wf_opt_str o : wf_json (opt_str o).
Proof. by destruct o. Qed.
Lemma review_checks_nodup produced checks force : NoDup (rd_checks (review_attempt produced checks force)).*1.
Proof.
  unfold review_attempt. repeat case_match; cbn [rd_checks]; first [apply NoDup_singleton|apply insert_all_nodup].
Qed.
(** Objects with constant keys. *)
Ltac wf_object := apply wf_obj; split; [by apply (bool_decide_unpack _); vm_compute|
  repeat (apply Forall_cons; split; [cbn [snd]; auto with swarm|]); constructor].
#[local] Hint Resolve wf_strings wf_checks wf_opt_str review_checks_nodup : swarm.
Lemma wf_one_string s : wf_json (JList [JStr s]).
Proof. done. Qed.
Lemma wf_str s : wf_json (JStr s).
Proof. done. Qed.
Lemma wf_int n : wf_json (JInt n).
Proof. done. Qed.
Lemma wf_bool b : wf_json (JBool b).
Proof. done. Qed.
Lemma wf_null : wf_json JNull.
Proof. done. Qed.
#[local] Hint Resolve wf_one_string wf_str wf_int wf_bool wf_null : swarm.
Lemma wf_support d : wf_json (support_dict d).
Proof. unfold support_dict. wf_object. Qed.
Lemma wf_review produced checks force : wf_json (review_dict (review_attempt produced checks force)).
Proof. unfold review_dict. wf_object. Qed.
#[local] Hint Resolve wf_support wf_review : swarm.

(** *** Writing a mission *)
Record mission_write (id : string) (m : Mission) (s s' : ProductStore) : Prop := {
  mw_disk : on_disk (ps_files s') id m;
  mw_ok : disk_ok (ps_files s');
  mw_others : ∀ id' m', id' ≠ id → on_disk (ps_files s) id' m' → on_disk (ps_files s') id' m';
  mw_missions : ∀ id', dict_get (mc_missions (ps_controller s')) id' = if decide (id = id') then Some m
                       else dict_get (mc_missions (ps_controller s)) id';
  mw_workers : ps_workers s' = ps_workers s;
  mw_approvals : ps_approvals s' = ps_approvals s;
  mw_idempotency : ps_idempotency s' = ps_idempotency s
}.
Lemma write_inv id m s s' : mission_write id m s s' → inv s → inv s'.
Proof.
  intros [Hd Hok Ho Hm _ _ _] [_ Hst]. constructor; [done|]. intros id' m'. rewrite Hm.
  case_decide as Hi; [intros [= <-]; by rewrite <- Hi|]. intros H%Hst. by apply Ho.
Qed.
(** A write that is done once the mission is in memory: [s0] is the state before. *)
Lemma write_done id m s0 s1 s2 s3 : wrote id m s1 s2 →
  ps_files s1 = ps_files s0 → ps_workers s1 = ps_workers s0 → ps_approvals s1 = ps_approvals s0 →
  ps_idempotency s1 = ps_idempotency s0 →
  (∀ id', dict_get (mc_missions (ps_controller s1)) id' = if decide (id = id') then Some m
          else dict_get (mc_missions (ps_controller s0)) id') →
  s3 = s2 <| ps_events := ps_events s3 |> <| ps_draws := ps_draws s3 |> <| ps_reads := ps_reads s3 |> →
  mission_write id m s0 s3.
Proof.
  intros [Ho Hd Hok Hoth] Hf Hw Ha Hi Hm H3. rewrite Hf in Hoth. rewrite Ho in H3.
  constructor; rewrite H3; cbn; auto.
Qed.

Lemma publish_only project type actor mid tid payload dedupe corr s :
  let s' := (publish_event hex clock project type actor mid tid payload dedupe corr s).2 in
  s' = s <| ps_events := ps_events s' |> <| ps_draws := ps_draws s' |> <| ps_reads := ps_reads s' |>.
Proof.
  cbn zeta. unfold publish_event. erewrite bind_run by reflexivity. erewrite bind_run by reflexivity.
  unfold on_log, zoom. set (e := mkEventEnvelope _ _ _ _ _ _ _ _ _ _ _ _). cbn. destruct (append_event e _) as [r l']. by destruct s.
Qed.

(** A run of [m] from [s], as the postcondition of its result and final state. *)
Definition ends {A} (Q : result A → ProductStore → Prop) (m : M ProductStore A) (s : ProductStore) : Prop := Q (m s).1 (m s).2.
Lemma ends_bind {A B} (Q : result B → ProductStore → Prop) (m : M ProductStore A) (k : A → M ProductStore B) s a s1 :
  m s = (Ok a, s1) → ends Q (k a) s1 → ends Q (m ≫= k) s.
Proof. unfold ends. intros Hm. by erewrite bind_run by exact Hm. Qed.
Lemma ends_guard {B} (Q : result B → ProductStore → Prop) b e (k : () → M ProductStore B) s :
  Q (Err e) s → (b = false → ends Q (k ()) s) → ends Q (raise_if b e ≫= k) s.
Proof. unfold ends, raise_if. destruct b; [done|]. auto. Qed.
Lemma ends_final {A B} (Q : result B → ProductStore → Prop) (m : M ProductStore A) (k : A → B) s :
  (∀ r s', m s = (r, s') → Q match r with Ok a => Ok (k a) | Err e => Err e end s') → ends Q (a ← m; mret (k a)) s.
Proof. unfold ends. intros H. specialize (H (m s).1 (m s).2). unfold mbind, M_bind. destruct (m s) as [[a|e] s']; by apply H. Qed.

Lemma fit_status m st : fit m → fit (m <| ms_status := st |>).
Proof. intros [[] Hp]. split; [by constructor|done]. Qed.

Lemma fit_receipt m st receipt n : match receipt with Some r => trim r = r | None => True end →
  fit m → fit (m <| ms_status := st |> <| ms_acceptance_receipt_id := receipt |> <| ms_revision := n |>).
Proof. intros Hr [[] Hp]. split; [by constructor|done]. Qed.

(** The disk after the record of a mission was loaded, changed and saved. *)
Lemma rewrite_run id m s (change : MissionRecord → MissionRecord) :
  on_disk (ps_files s) id m → disk_ok (ps_files s) → (∀ r, holds r m → holds (change r) m) →
  ∃ r, load_from_disk missions_root id s = (Ok r, s) ∧ holds r m ∧ holds (change r) m.
Proof. intros Hd Hok Hc. destruct (load_run _ _ _ Hd) as (r & Hr & Hh & _). exists r. auto. Qed.

Lemma holds_plan r m d : holds r m → wf_json (JObj d) → holds (r <| re_plan := JObj d |>) m.
Proof. intros [Hg Hid Hc Hv] Hd. constructor; [by apply good_set_plan|done..]. Qed.
Lemma holds_validation r m d : holds r m → wf_json (JObj d) → holds (r <| re_validation := JObj d |>) m.
Proof. intros [Hg Hid Hc Hv] Hd. constructor; [by apply good_set_validation|done..]. Qed.
Lemma holds_result r m d : holds r m → wf_json (JObj d) → holds (r <| re_result := JObj d |>) m.
Proof. intros [Hg Hid Hc Hv] Hd. constructor; [by apply good_set_result|done..]. Qed.
Lemma holds_dict r m : holds r m → ∃ p v d, re_plan r = JObj p ∧ re_validation r = JObj v ∧ re_result r = JObj d
  ∧ wf_json (JObj p) ∧ wf_json (JObj v) ∧ wf_json (JObj d).
Proof.
  intros [[Hwf _ [p Hp] [v Hv] [d Hd]] _ _ _]. exists p, v, d. split_and!; try done;
    (eapply (wf_fields r); [exact Hwf|]); unfold record_dict; rewrite ?Hp, ?Hv, ?Hd;
    [by eapply (list_elem_of_lookup_2 _ 9)|by eapply (list_elem_of_lookup_2 _ 14)|by eapply (list_elem_of_lookup_2 _ 18)].
Qed.
Lemma dict_or_empty_obj d : dict_or_empty (JObj d) = Ok d.
Proof. by destruct d. Qed.

Lemma new_plan_wf created family checks plan : wf_json (JObj plan) → wf_json (opt_checks checks) → wf_json (JObj (new_plan created family checks plan)).
Proof.
  intros Hp Hc. unfold new_plan. destruct checks as [[|c cs]|]; [|apply wf_dict_set; [|exact Hc]|]; destruct (truthy family);
    repeat apply wf_dict_set; auto with swarm.
Qed.

Lemma submit_get mission s id' :
  dict_get (mc_missions (ps_controller (on_controller (submit_mission mission) s).2)) id'
  = if decide (ms_id mission = id') then Some (mission <| ms_status := MissionStatus.PLANNING |>)
    else dict_get (mc_missions (ps_controller s)) id'.
Proof.
  transitivity (dict_get (dict_set (mc_missions (ps_controller s)) (ms_id mission) (mission <| ms_status := MissionStatus.PLANNING |>)) id');
    [done|apply dict_get_set].
Qed.
Lemma put_get id m s id' :
  dict_get (mc_missions (ps_controller (put_mission id m s).2)) id'
  = if decide (id = id') then Some m else dict_get (mc_missions (ps_controller s)) id'.
Proof. transitivity (dict_get (dict_set (mc_missions (ps_controller s)) id m) id'); [done|apply dict_get_set]. Qed.

Lemma create_ends mission actor family checks s :
  inv s → fit mission → wf_json (opt_checks checks) →
  ends (λ r s', ∃ m, mission_write (ms_id mission) m s s' ∧ ms_project_id m = ms_project_id mission ∧ ∀ m', r = Ok m' → m' = m)
    (create_mission hex clock missions_root mission actor family checks) s.
Proof.
  intros Hinv Hv Hc. unfold create_mission. eapply ends_bind; [reflexivity|]. cbv beta.
  set (planning := mission <| ms_status := MissionStatus.PLANNING |>). set (s1 := (on_controller (submit_mission mission) s).2).
  set (support := classify_task_support _). set (unsupported := truthy family && negb (sd_supported support)).
  assert (∃ created s2, (if unsupported then put_mission (ms_id planning) (planning <| ms_status := MissionStatus.FAILED |>);;
        mret (planning <| ms_status := MissionStatus.FAILED |>) else mret planning) s1 = (Ok created, s2)
    ∧ fit created ∧ ms_id created = ms_id mission ∧ ms_project_id created = ms_project_id mission
    ∧ ps_files s2 = ps_files s ∧ ps_workers s2 = ps_workers s ∧ ps_approvals s2 = ps_approvals s ∧ ps_idempotency s2 = ps_idempotency s
    ∧ ∀ id', dict_get (mc_missions (ps_controller s2)) id' = if decide (ms_id mission = id') then Some created
             else dict_get (mc_missions (ps_controller s)) id') as (created & s2 & Hcr & Hvc & Hid & Hpr & Hf & Hw & Ha & Hi & Hm).
  { destruct unsupported.
    - exists (planning <| ms_status := MissionStatus.FAILED |>), (put_mission (ms_id planning) (planning <| ms_status := MissionStatus.FAILED |>) s1).2.
      split; [reflexivity|]. split; [by do 2 apply fit_status|]. split_and!; try done. intros id'. rewrite put_get.
      unfold s1. rewrite submit_get. change (ms_id planning) with (ms_id mission). by case_decide.
    - exists planning, s1. split; [reflexivity|]. split; [by apply fit_status|]. split_and!; try done. intros id'. apply submit_get. }
  eapply ends_bind; [exact Hcr|]. destruct (persist_run created "api" s2 Hvc) as (r1 & s3 & Hp & Hw1); [rewrite Hf; apply Hinv|].
  eapply ends_bind; [exact Hp|]. rewrite Hid in Hw1. pose proof (wr_disk _ _ _ _ Hw1) as Hdisk.
  destruct (load_run _ _ _ Hdisk) as (r2 & Hl & Hh & _). rewrite <- Hid in Hl. eapply ends_bind; [exact Hl|].
  destruct (holds_dict _ _ Hh) as (p & v & d & Hrp & Hrv & Hrd & Hwp & Hwv & Hwd).
  eapply ends_bind; [rewrite Hrp, dict_or_empty_obj; reflexivity|]. cbv beta.
  assert (holds (r2 <| re_plan := JObj (new_plan created family checks p) |>) created) as Hh2 by (apply holds_plan; [done|by apply new_plan_wf]).
  revert Hh2. generalize (r2 <| re_plan := JObj (new_plan created family checks p) |>). intros r3 Hh3.
  set (note := if unsupported then _ else mret r3).
  assert (∃ r4 n, note s3 = (Ok r4, s3 <| ps_reads := n |>) ∧ holds r4 created) as (r4 & n & Hn & Hh4).
  { unfold note. destruct unsupported; [|exists r3, (ps_reads s3); split; [by destruct s3|done]].
    edestruct timeline_run as (r4 & Hr4 & Hh4); [| |exists r4, (S (ps_reads s3)); split; [exact Hr4|exact Hh4]]; [|wf_object].
    apply holds_validation; [apply holds_result; [done|wf_object]|]; wf_object. }
  eapply ends_bind; [exact Hn|]. destruct (save_wrote r4 created (s3 <| ps_reads := n |>) Hh4) as (r5 & s4 & Hs4 & Hw4); [apply Hw1|].
  eapply ends_bind; [exact Hs4|]. apply ends_final. intros r s' Hpub. exists created. split; [|split; [done|by destruct r; intros ? [=]]].
  assert (wrote (ms_id mission) created s2 s4) as Hw5.
  { rewrite <- Hid in *. eapply wrote_trans; [exact Hw1|]. destruct Hw4. by constructor. }
  eapply write_done; [exact Hw5|done..|]. pose proof (publish_only (ms_project_id created) "mission.created" actor (Some (ms_id created)) None
    [("revision", JInt (ms_revision created)); ("status", JStr (MissionStatus.value (ms_status created))); ("task_family", opt_str family);
     ("supported", if truthy family then JBool (sd_supported support) else JNull)]
    (Some ("mission.created:" +:+ ms_id created)) None s4) as Honly.
  by rewrite Hpub in Honly.
Qed.

(** The record of a mission is saved after it was noted: what a later write leaves. *)
Lemma save_noted id m note s n r : wrote id m s n → holds r m → ps_files note = ps_files n →
  note = n <| ps_reads := ps_reads note |> →
  ∃ r' s', save_to_disk clock missions_root r note = (Ok r', s') ∧ wrote id m s s'.
Proof.
  intros Hw Hh Hf Hn. destruct (save_wrote r m note Hh) as (r' & s' & Hs & Hw'); [rewrite Hf; apply Hw|].
  exists r', s'. split; [done|]. pose proof (wr_disk _ _ _ _ Hw) as [<- _]. eapply wrote_trans; [exact Hw|].
  destruct Hw' as [H1 H2 H3 H4]. constructor; try done; [|by rewrite Hf in H4]. rewrite H1, Hn. by destruct n.
Qed.

Lemma note_run d actor r m s : holds r m → wf_json (review_dict d) →
  ∃ r', note_review clock d actor r s = (Ok r', s <| ps_reads ::= S |>) ∧ holds r' m.
Proof.
  intros Hh Hd. destruct (holds_dict _ _ Hh) as (p & v & o & Hrp & Hrv & Hrd & Hwp & Hwv & Hwd).
  unfold note_review. rewrite Hrv, dict_or_empty_obj. eexists. split; [reflexivity|]. apply holds_validation; [done|].
  apply wf_merge; [done|]. repeat (apply Forall_cons; split; [done|]). constructor.
Qed.
Lemma conclude_run id m event detail d actor s :
  ms_id m = id → fit m → disk_ok (ps_files s) → wf_json detail → wf_json (review_dict d) →
  ∃ s', conclude_review clock missions_root id m event detail d actor s = (Ok (), s') ∧ wrote id m s s'.
Proof.
  intros <- Hv Hok Hdt Hd. unfold conclude_review. destruct (persist_run m "api" s Hv Hok) as (r1 & s1 & Hp & Hw).
  erewrite bind_run by exact Hp. destruct (load_run _ _ _ (wr_disk _ _ _ _ Hw)) as (r2 & Hl & Hh & _).
  erewrite bind_run by exact Hl. destruct (note_run d actor r2 m s1 Hh Hd) as (r3 & Hn & Hh3). erewrite bind_run by exact Hn.
  destruct (timeline_run event detail r3 m (s1 <| ps_reads ::= S |>) Hh3 Hdt) as (r4 & Ht & Hh4). erewrite bind_run by exact Ht.
  destruct (save_noted _ _ (s1 <| ps_reads ::= S |> <| ps_reads ::= S |>) _ _ r4 Hw Hh4) as (r5 & s2 & Hs & Hw2); [done..|].
  erewrite bind_run by exact Hs. exists s2. by split.
Qed.

(** What an operation on missions keeps, and what it returns. *)
Record tidy (s s' : ProductStore) : Prop := {
  td_inv : inv s';
  td_workers : ps_workers s' = ps_workers s;
  td_approvals : ps_approvals s' = ps_approvals s;
  td_idempotency : ps_idempotency s' = ps_idempotency s
}.
Lemma write_tidy id m s s' : mission_write id m s s' → inv s → tidy s s'.
Proof. intros Hw Hi. constructor; [by eapply write_inv|apply Hw..]. Qed.
Lemma tidy_trans s1 s2 s3 : tidy s1 s2 → tidy s2 s3 → tidy s1 s3.
Proof. intros [] []. constructor; congruence || done. Qed.

Lemma ends_get {B} (Q : result B → ProductStore → Prop) id (k : Mission → M ProductStore B) s : inv s →
  (∀ s', tidy s s' → Q (Err (ApiError "not_found")) s') →
  (∀ m s', tidy s s' → ps_files s' = ps_files s → on_disk (ps_files s) id m → ends Q (k m) s') →
  ends Q (get_mission hex clock missions_root id ≫= k) s.
Proof.
  intros Hi He Hk. destruct (get_run id s Hi) as (r & s' & Hr & Hi' & Hf & Hw & Ha & Hid & _ & Hres).
  assert (tidy s s') as Ht by done. destruct r as [m|e].
  - eapply ends_bind; [exact Hr|]. destruct Hres as [Hd Hm]. by apply Hk.
  - destruct Hres as [-> _]. unfold ends. erewrite bind_run_err by exact Hr. by apply He.
Qed.

(** The mission in memory, then its record and its event. *)
Lemma review_settled {B} (Q : result B → ProductStore → Prop) id m m' event detail d actor kind payload dedupe s n (old : dict json) (b : B) :
  inv s → on_disk (ps_files s) id m → ms_id m' = id → fit m' → wf_json detail → wf_json (review_dict d) →
  (∀ s', tidy s s' → Q (Ok b) s') → (∀ e s', tidy s s' → Q (Err e) s') →
  ends Q (put_mission id m';;
          of_result (Ok old);;
          conclude_review clock missions_root id m' event detail d actor;;
          publish_event hex clock (ms_project_id m') kind actor (Some id) None payload dedupe None;;
          mret b) (s <| ps_draws := n |>).
Proof.
  intros Hi Hd Hid Hv Hdt Hwd Hok Herr. eapply ends_bind; [reflexivity|]. eapply ends_bind; [reflexivity|]. cbv beta.
  destruct (conclude_run id m' event detail d actor (put_mission id m' (s <| ps_draws := n |>)).2) as (s2 & Hc & Hw);
    [done|done|apply Hi|done|done|].
  eapply ends_bind; [exact Hc|]. apply ends_final. intros r s3 Hp.
  assert (tidy s s3) as Ht.
  { apply (write_tidy id m'); [|done]. eapply write_done; [exact Hw|done..| |].
    - intros id'. etrans; [apply put_get|done].
    - pose proof (publish_only (ms_project_id m') kind actor (Some id) None payload dedupe None s2) as Honly. by rewrite Hp in Honly. }
  destruct r; auto.
Qed.

Hypothesis hex_plain : ∀ n, forallb (λ c, negb (white_space c)) (of_string (hex n)) = true.
Lemma receipt_trim n : trim ("acr_" +:+ hex n) = "acr_" +:+ hex n.
Proof. apply trim_plain. rewrite of_string_app, forallb_app, hex_plain. reflexivity. Qed.

Lemma review_ends id actor produced checks force s (R : Body → Prop) :
  inv s → (∀ m m' receipt d, on_disk (ps_files s) id m → ms_project_id m' = ms_project_id m → R (ReviewBody id receipt d m')) →
  ends (λ r s', tidy s s' ∧ ∀ b, r = Ok b → R b)
    (review_mission_attempt hex clock missions_root id actor produced checks force) s.
Proof.
  intros Hi HR. unfold review_mission_attempt. apply ends_get; [done|by split|]. intros m s1 Ht Hf Hdisk.
  rewrite <- Hf in Hdisk.
  destruct (load_run _ _ _ Hdisk) as (r & Hl & Hh & Hid). eapply ends_bind; [exact Hl|].
  destruct (holds_dict _ _ Hh) as (p & v & d & Hrp & Hrv & Hrd & Hwp & Hwv & Hwd).
  eapply ends_bind; [rewrite Hrp; by destruct p|]. cbv beta zeta. set (cs := match checks with Some c => Some c | None => _ end).
  pose proof (wf_review produced cs force) as Hwr. set (dec := review_attempt produced cs force) in *.
  destruct (note_run dec actor r m s1 Hh Hwr) as (r2 & Hn & Hh2). eapply ends_bind; [exact Hn|].
  destruct (holds_dict _ _ Hh2) as (p2 & v2 & d2 & _ & _ & Hrd2 & _). destruct Hh as [_ _ _ Hv].
  assert (inv (s1 <| ps_reads ::= S |>)) as Hi1 by (destruct (td_inv _ _ Ht); by constructor).
  set (s2 := s1 <| ps_reads ::= S |>) in *.
  assert (∀ s', tidy s2 s' → tidy s s') as Ht2 by (intros s' Hs'; eapply tidy_trans; [exact Ht|]; by destruct Hs').
  pose proof (wf_checks _ (review_checks_nodup produced cs force)) as Hck. fold dec in Hck.
  rewrite Hrd2, dict_or_empty_obj. destruct (rd_accepted dec).
  - eapply ends_bind; [reflexivity|]. cbv beta. apply (review_settled _ id m _ _ _ _ _ _ _ _ s2 (S (ps_draws s2))); try done.
    + apply fit_receipt; [apply receipt_trim|done].
    + wf_object.
    + intros s' Hs'. split; [auto|]. intros b [= <-]. rewrite Hf in Hdisk. by eapply HR.
    + intros e s' Hs'. split; [auto|]. discriminate.
  - apply (review_settled _ id m _ _ _ _ _ _ _ _ s2 (ps_draws s2)); try done.
    + by apply fit_receipt.
    + wf_object.
    + intros s' Hs'. split; [auto|]. intros b [= <-]. rewrite Hf in Hdisk. by eapply HR.
    + intros e s' Hs'. split; [auto|]. discriminate.
Qed.

Lemma cancel_ends id actor s (R : Mission → Prop) :
  inv s → (∀ m m', on_disk (ps_files s) id m → ms_project_id m' = ms_project_id m → R m') →
  ends (λ r s', tidy s s' ∧ ∀ m, r = Ok m → R m) (cancel_mission hex clock missions_root id actor) s.
Proof.
  intros Hi HR. unfold cancel_mission. apply ends_get; [done|by split|]. intros m s1 Ht Hf Hdisk.
  eapply ends_bind; [reflexivity|]. case_bool_decide as Hc.
  { split; [exact Ht|]. intros ? [= <-]. by eapply HR. }
  cbv zeta. set (m' := m <| ms_status := MissionStatus.CANCELLED |>
                         <| ms_cancellation_generation := ms_cancellation_generation m + 1 |>).
  rewrite <- Hf in Hdisk. pose proof Hdisk as (Hid & r0 & Hl0 & [_ _ _ Hv]).
  eapply ends_bind; [reflexivity|]. eapply ends_bind; [reflexivity|]. cbv beta.
  match goal with |- ends _ _ ?x => set (s2 := x) end.
  assert (∀ id', dict_get (mc_missions (ps_controller s2)) id' = if decide (id = id') then Some m'
          else dict_get (mc_missions (ps_controller s1)) id') as Hm.
  { intros id'. etrans; [|apply put_get]. unfold s2, cancel_tasks. cbn. by case_match. }
  assert (fit m') as Hv' by (destruct Hv as [[] ?]; split; [by constructor|done]).
  destruct (persist_run m' "api" s2 Hv') as (r1 & s3 & Hp & Hw); [apply Ht|].
  eapply ends_bind; [exact Hp|]. change (ms_id m') with (ms_id m) in Hw. rewrite Hid in Hw.
  destruct (load_run _ _ _ (wr_disk _ _ _ _ Hw)) as (r2 & Hl & Hh & _). eapply ends_bind; [exact Hl|].
  destruct (timeline_run "mission.cancelled" (JObj [("actor", JStr actor);
    ("cancellation_generation", JInt (ms_cancellation_generation m'))]) r2 m' s3 Hh) as (r3 & Htl & Hh3); [wf_object|].
  eapply ends_bind; [exact Htl|].
  destruct (save_noted id m' (s3 <| ps_reads ::= S |>) _ _ r3 Hw Hh3) as (r4 & s4 & Hs & Hw2); [done..|].
  eapply ends_bind; [exact Hs|]. apply ends_final. intros r s' Hpub.
  assert (tidy s s') as Ht'.
  { eapply tidy_trans; [exact Ht|]. apply (write_tidy id m'); [|apply Ht]. eapply write_done; [exact Hw2|done..|exact Hm|].
    pose proof (publish_only (ms_project_id m') "mission.cancelled" actor (Some id) None
      [("cancellation_generation", JInt (ms_cancellation_generation m'))]
      (Some ("mission.cancelled:" +:+ id +:+ ":" +:+ pretty (ms_cancellation_generation m'))) None s4) as Honly.
    by rewrite Hpub in Honly. }
  split; [exact Ht'|]. rewrite Hf in Hdisk. destruct r; intros ? [= <-]. by eapply HR.
Qed.
End missions.
