(* ===== verification/ApiScope.v ===== *)
(** * ApiScope: replies stay in the principal's projects, and missions survive a restart

    [replies_stay_in_scope]: the missions, events, workers and approvals of a reply are of
    projects of the principal it goes to (graphs and side effects are answered for such a
    mission only, but list entries of the whole store).  [missions_survive_restart]: a new process over the same directory answers a request
    for a mission as the old one.  Both for every history of well-formed requests, approvals
    and restarts, from the invariant that [ApiMissions] proves of every mission operation. *)
From Stdlib Require Import Ascii.
From S2P Require Import Prelude Collections Contracts PyFloat Json JsonText Models Checkpoint Workspace MissionStore Graph Scheduler Controller WorkerRegistry ToolGateway Api ApiRoutes ApiProps ApiMissions.
Open Scope Z_scope.

(** The projects of the missions, events, workers, approvals and tasks in a reply.  The plan,
    validation and result documents that come with a mission are not looked into: an id that
    another project takes over keeps them. *)
Definition row_projects (row : json) : list string :=
  match row with
  | JObj d => match dict_get d "project_id" with Some (JStr q) => [q] | _ => [] end
  | _ => []
  end.
Definition body_projects (b : Body) : list string :=
  match b with
  | MissionBody m _ | MissionView m _ _ _ | ReviewBody _ _ _ m => [ms_project_id m]
  | EventsBody events _ _ _ => ev_project_id <$> events
  | WorkersBody rows _ => concat (row_projects <$> rows)
  | EnrollBody _ q _ => [q]
  | HeartbeatBody _ q => option_list q
  | ApprovalsBody l => tp_project_id <$> l
  | ApprovalBody a _ => [tp_project_id a]
  | GraphBody _ _ _ tasks _ => ts_project_id <$> tasks
  | ProbeBody _ _ | SideEffectsBody _ => []
  end.
(** Replies all of whose parts carry their project.  The graph of a mission comes with the
    explanations of every mission, and side effects are listed by label. *)
Definition labelled (b : Body) : bool := match b with GraphBody _ _ _ _ _ | SideEffectsBody _ => false | _ => true end.
Definition within (q : string) (b : Body) : Prop := ∀ q', q' ∈ body_projects b → q' = q.
Definition scoped (p : Principal) (b : Body) : Prop := labelled b = true → ∀ q, q ∈ body_projects b → q ≠ "" → may_access p q = true.

Lemma within_scoped p q b : may_access p q = true → within q b → scoped p b.
Proof. by intros Hq Hb _ q' ->%Hb. Qed.
Lemma within_one q b : body_projects b = [q] → within q b.
Proof. intros Hb q'. rewrite Hb. by intros ?%list_elem_of_singleton. Qed.
Lemma within_none q b : body_projects b = [] → within q b.
Proof. intros Hb q'. rewrite Hb. by intros ?%elem_of_nil. Qed.

Lemma elem_of_lists {A} (x : A) ls : x ∈ concat ls ↔ ∃ l, l ∈ ls ∧ x ∈ l.
Proof. setoid_rewrite list_elem_of_In. apply in_concat. Qed.

(** ** Keys of kept replies *)
Lemma split_bar a a' r r' : "|"%char ∉ a → "|"%char ∉ a' → a ++ "|"%char :: r = a' ++ "|"%char :: r' → a = a' ∧ r = r'.
Proof.
  revert a'. induction a as [|x a IH]; intros [|y a'] Ha Ha' [=]; subst.
  - done.
  - by destruct Ha'; left.
  - by destruct Ha; left.
  - destruct (IH a') as [-> ->]; [by intros ?; apply Ha; right|by intros ?; apply Ha'; right|done|done].
Qed.
Lemma split_key a a' r r' : bar_free a → bar_free a' → a +:+ "|" +:+ r = a' +:+ "|" +:+ r' → a = a' ∧ r = r'.
Proof.
  intros Ha Ha' H%(f_equal of_string). rewrite !of_string_app in H. apply split_bar in H as [H1 H2]; [|done..].
  split; [by rewrite <- (to_of_string a), H1, to_of_string|by rewrite <- (to_of_string r), H2, to_of_string].
Qed.
Lemma idem_key_scope a a' q q' op op' k k' : bar_free a → bar_free a' → bar_free q → bar_free q' →
  _idem_key a q op k = _idem_key a' q' op' k' → q = q'.
Proof. intros ???? [_ [-> _]%split_key]%split_key; done. Qed.

Definition kept_ok (t : gmap string IdemEntry) : Prop := ∀ k e, t !! k = Some e →
  ∃ a q op key, k = _idem_key a q op key ∧ bar_free a ∧ bar_free q ∧ within q (id_body e).

Section scope.
Context {lax : Lax} {dates : Dates}.
Context (hex : nat → string) (clock : nat → Z) (sha256 : string → string) (missions_root : string) (float_json : float → json).

Abbreviation Ends := (@ends _).
Abbreviation inv := (ApiMissions.inv missions_root).
Abbreviation tidy := (ApiMissions.tidy missions_root).

Record sound (s : ProductStore) : Prop := {
  so_inv : inv s;
  so_approvals : ∀ id a, dict_get (ps_approvals s) id = Some a → bar_free (tp_project_id a);
  so_kept : kept_ok (ps_idempotency s)
}.
Lemma tidy_sound s s' : tidy s s' → sound s → sound s'.
Proof. intros [Hi _ Ha Hk] [_ Ha' Hk']. constructor; [done|by rewrite Ha|by rewrite Hk]. Qed.

(** What does not touch missions, approvals and kept replies. *)
Record quiet (s s' : ProductStore) : Prop := {
  qt_missions : mc_missions (ps_controller s') = mc_missions (ps_controller s);
  qt_files : ps_files s' = ps_files s;
  qt_approvals : ps_approvals s' = ps_approvals s;
  qt_kept : ps_idempotency s' = ps_idempotency s
}.
#[local] Instance quiet_preorder : PreOrder quiet.
Proof. split; [intros s; by constructor|]. intros s1 s2 s3 [] []. constructor; congruence. Qed.
Lemma quiet_sound s s' : quiet s s' → sound s → sound s'.
Proof.
  intros [Hm Hf Ha Hk] [[Hd Hs] Ha' Hk']. constructor; [|by rewrite Ha|by rewrite Hk].
  constructor; [by rewrite Hf|]. intros id m. rewrite Hm, Hf. apply Hs.
Qed.
Lemma quiet_fresh p : moves quiet (fresh_id hex p).
Proof. intros s. by constructor. Qed.
Lemma quiet_now : moves quiet (now_ clock).
Proof. intros s. by constructor. Qed.
Lemma quiet_workers {A} (m : M Registry A) : moves quiet (on_workers m).
Proof. intros s. unfold on_workers, zoom. destruct (m _). by constructor. Qed.
Lemma quiet_publish project_id type actor mission_id task_id payload dedupe corr :
  moves quiet (publish_event hex clock project_id type actor mission_id task_id payload dedupe corr).
Proof. intros s. rewrite publish_only. by constructor. Qed.
#[local] Hint Resolve quiet_fresh quiet_now quiet_workers quiet_publish : swarm.
Lemma quiet_enroll caps cap privacy urls project actor : moves quiet (enroll_worker hex clock caps cap privacy urls project actor).
Proof. unfold enroll_worker. repeat first [moves_step|solve [auto with swarm]]. Qed.
Lemma quiet_effect label m t : moves quiet (record_side_effect label m t).
Proof.
  unfold record_side_effect, assert_not_cancelled. moves_step; [repeat moves_step|]. intros s. by constructor.
Qed.

(** ** The replies of a route *)
Definition answers (R : Body → Prop) (s : ProductStore) (r : result Body) (s' : ProductStore) : Prop :=
  sound s' ∧ ps_idempotency s' = ps_idempotency s ∧ ∀ b, r = Ok b → R b.

Lemma once_scope key p q op doc act s : sound s → bar_free (pr_subject p) → bar_free q →
  ends (answers (within q) s) act s →
  ends (λ r s', sound s' ∧ ∀ b, r = Ok b → within q b) (once sha256 key p q op doc act) s.
Proof.
  intros Hs Hp Hq Hact. unfold ends, once.
  destruct (recall_idempotent key (pr_subject p) q op (payload_hash sha256 doc) s) as [r s1] eqn:Hr.
  pose proof Hr as Hr'. rewrite recall_run in Hr'. destruct (k ← key; _) as [e|] eqn:He.
  - case_bool_decide as Hd; injection Hr' as <- <-; [erewrite bind_run by exact Hr|erewrite bind_run_err by exact Hr; by split].
    cbn. split; [done|]. intros b [= <-]. apply bind_Some in He as (k & -> & He). case_bool_decide; [done|].
    destruct (so_kept _ Hs _ _ He) as (a & q0 & op0 & k0 & Hk & Ha & Hq0 & Hb).
    by apply idem_key_scope in Hk as ->.
  - injection Hr' as <- <-. erewrite bind_run by exact Hr. unfold ends, answers in Hact.
    destruct (act s) as [[b|e] s2] eqn:Ha; [erewrite bind_run by exact Ha|erewrite bind_run_err by exact Ha; by destruct Hact].
    cbn in Hact. destruct Hact as (Hs2 & Hi & Hb). specialize (Hb b eq_refl). unfold store_idempotent.
    destruct key as [k|]; [|by split; [done|intros ? [= <-]]].
    case_bool_decide; erewrite bind_run by reflexivity; cbn; (split; [|by intros ? [= <-]]); [done|].
    destruct Hs2 as [H1 H2 H3]. constructor; [by destruct H1|done|].
    intros k' e'. cbn. intros [[<- <-]|[_ He']]%lookup_insert_Some; [by exists (pr_subject p), q, op, k|by apply H3].
Qed.

(** A route that answers in the scope of the principal; when the request names a mission, it is
    one of a project of the principal. *)
Definition names_mission (req : Request) : option string :=
  match req with
  | GetMission id | PostReview id _ _ _ _ | PostCancel id _ _ | GetGraph id | PostSideEffect id => Some id
  | _ => None
  end.
Definition visible (p : Principal) (id : string) (s : ProductStore) : Prop :=
  ∃ m, on_disk missions_root (ps_files s) id m ∧ may_access p (ms_project_id m) = true.
Definition serves (p : Principal) (r : result Body) (s' : ProductStore) : Prop :=
  sound s' ∧ ∀ b, r = Ok b → scoped p b.
Definition serves_mission (p : Principal) (id : string) (s : ProductStore) (r : result Body) (s' : ProductStore) : Prop :=
  serves p r s' ∧ ∀ b, r = Ok b → visible p id s.

Lemma serves_once key p q op doc act s : sound s → bar_free (pr_subject p) → bar_free q → may_access p q = true →
  ends (answers (within q) s) act s → ends (serves p) (once sha256 key p q op doc act) s.
Proof.
  intros Hs Hp Hq Hm Hact. destruct (once_scope key p q op doc act s Hs Hp Hq Hact) as [H1 H2]. split; [done|].
  intros b Hb. eapply within_scoped; [done|by apply H2].
Qed.
Lemma serves_mission_route p id (k : Mission → M ProductStore Body) s : sound s →
  (∀ m s', sound s' → on_disk missions_root (ps_files s') id m → may_access p (ms_project_id m) = true → ends (serves p) (k m) s') →
  ends (serves_mission p id s) (m ← get_mission hex clock missions_root id; require_project p (ms_project_id m);; k m) s.
Proof.
  intros Hs Hk. apply (ends_get hex clock missions_root).
  - apply Hs.
  - intros s' Ht. split; [split; [by eapply tidy_sound|discriminate]|discriminate].
  - intros m s' Ht Hf Hd. unfold require_project, raise_if. destruct (may_access p (ms_project_id m)) eqn:Hm; cbn [negb].
    + eapply ends_bind; [reflexivity|]. assert (ends (serves p) (k m) s') as H.
      { apply Hk; [by eapply tidy_sound|by rewrite Hf|done]. }
      split; [exact H|]. intros _ _. by exists m.
    + unfold ends. rewrite (bind_run_err _ _ _ (ApiError "forbidden_project") s') by done.
      split; [split; [by eapply tidy_sound|discriminate]|discriminate].
Qed.
Lemma serves_quiet p (act : M ProductStore Body) s : moves quiet act → (∀ b, (act s).1 = Ok b → scoped p b) → sound s → ends (serves p) act s.
Proof. intros Hq Hb Hs. split; [|exact Hb]. by eapply quiet_sound; [apply Hq|]. Qed.
Lemma on_disk_project fs id m : on_disk missions_root fs id m → bar_free (ms_project_id m).
Proof. intros (_ & r & _ & Hh). apply Hh. Qed.

Lemma answers_tidy {A} (R : A → Prop) (f : A → Body) q (m : M ProductStore A) s : sound s →
  ends (λ r s', tidy s s' ∧ ∀ a, r = Ok a → R a) m s → (∀ a, R a → within q (f a)) →
  ends (answers (within q) s) (a ← m; mret (f a)) s.
Proof.
  intros Hs Hm Hf. apply ends_final. intros r s' Hr. unfold ends in Hm. rewrite Hr in Hm. destruct Hm as [Ht HR].
  split; [by eapply tidy_sound|]. split; [apply Ht|]. destruct r; intros ? [= <-]. by apply Hf, HR.
Qed.

Section well_formed.
Hypothesis hex_plain : ∀ n, forallb (λ c, negb (white_space c)) (of_string (hex n)) = true.
Context (p : Principal) (header : option string).
Hypothesis subject_plain : bar_free (pr_subject p).

Lemma post_mission_serves m family checks key s : sound s → fit m → wf_json (opt_checks checks) →
  ends (serves p) (post_mission hex clock sha256 missions_root p m family checks key) s.
Proof using subject_plain.
  intros Hs Hm Hc. unfold post_mission, require_project, raise_if. destruct (may_access p (ms_project_id m)) eqn:Hp; cbn [negb].
  - eapply ends_bind; [reflexivity|]. apply serves_once; [done..|apply Hm|done|].
    apply (answers_tidy (λ m', ms_project_id m' = ms_project_id m)); [done| |].
    + destruct (create_ends hex clock missions_root m (pr_subject p) family checks s (so_inv _ Hs) Hm Hc) as (m' & Hw & Hpr & Hr).
      split; [by eapply write_tidy; [|apply Hs]|]. by intros ? ->%Hr.
    + intros m' Hpr. apply within_one. cbn. by rewrite Hpr.
  - unfold ends. rewrite (bind_run_err _ _ _ (ApiError "forbidden_project") s) by done. by split.
Qed.
Lemma get_mission_serves id s : sound s →
  ends (serves_mission p id s) (route_get_mission hex clock missions_root p id) s.
Proof.
  intros Hs. apply serves_mission_route; [done|]. intros m s' Hs' Hd Hm. 
  destruct (try_load_run missions_root id s') as (o & Ho & _); [apply Hs'|]. eapply ends_bind; [exact Ho|].
  split; [exact Hs'|]. intros b [= <-]. eapply within_scoped; [exact Hm|]. apply within_one. by destruct o.
Qed.
Lemma post_review_serves id produced checks force key s : sound s →
  ends (serves_mission p id s) (post_review hex clock sha256 missions_root p id produced checks force key) s.
Proof using subject_plain hex_plain.
  intros Hs. apply serves_mission_route; [done|]. intros m s' Hs' Hd Hm.
  apply serves_once; [done..|by eapply on_disk_project|done|].
  destruct (review_ends hex clock missions_root hex_plain id (pr_subject p) produced checks force s' (within (ms_project_id m)))
    as [Ht HR]; [apply Hs'| |].
  - intros m' m'' receipt d Hd' Hpr. apply within_one. cbn. rewrite Hpr. f_equal. f_equal. by eapply on_disk_unique.
  - split; [by eapply tidy_sound|]. split; [apply Ht|exact HR].
Qed.
Lemma post_cancel_serves id reason key s : sound s →
  ends (serves_mission p id s) (post_cancel hex clock sha256 missions_root p id reason key) s.
Proof using subject_plain.
  intros Hs. apply serves_mission_route; [done|]. intros m s' Hs' Hd Hm.
  apply serves_once; [done..|by eapply on_disk_project|done|].
  apply (answers_tidy (λ m', ms_project_id m' = ms_project_id m)); [done| |].
  - apply cancel_ends; [apply Hs'|]. intros m' m'' Hd' ->. f_equal. by eapply on_disk_unique.
  - intros m' Hpr. apply within_one. cbn. by rewrite Hpr.
Qed.
Lemma graph_serves id s : sound s → ends (serves_mission p id s) (mission_graph hex clock missions_root p id) s.
Proof.
  intros Hs. apply serves_mission_route; [done|]. intros m s' Hs' Hd Hm. unfold graph_view.
  apply (ends_get hex clock missions_root); [apply Hs'| |].
  - intros s2 Ht. split; [by eapply tidy_sound|discriminate].
  - intros m2 s2 Ht _ _. eapply ends_bind; [reflexivity|]. split; [by eapply tidy_sound|]. intros b [= <-].
    discriminate.
Qed.

(** *** Routes that only read *)
Lemma check_filter_run q s : check_filter p q s =
  (if truthy q && negb (may_access p (default "" q)) then Err (ApiError "forbidden_project") else Ok (), s).
Proof. unfold check_filter, require_project, raise_if. by destruct (truthy q), (may_access p (default "" q)). Qed.
Lemma filtered_ends q (k : () → M ProductStore Body) s : sound s →
  ((truthy q = true → may_access p (default "" q) = true) → ends (serves p) (k ()) s) → ends (serves p) (check_filter p q ≫= k) s.
Proof.
  intros Hs Hk. pose proof (check_filter_run q s) as Hr. destruct (truthy q && _) eqn:Hq.
  - unfold ends. erewrite bind_run_err by exact Hr. by split.
  - eapply ends_bind; [exact Hr|]. apply Hk. intros Ht. rewrite Ht in Hq. by apply negb_false_iff in Hq.
Qed.
(** What remains of the pages of the log is visible to the principal. *)
Lemma events_scoped q mission after limit l e n cursor more :
  (truthy q = true → may_access p (default "" q) = true) →
  list_after q mission after limit l = (e, cursor) → scoped p (EventsBody (own_events p q e) n cursor more).
Proof.
  intros Hq [= <- <-] _ q' (x & -> & Hx)%list_elem_of_fmap Hne. destruct q as [q|]; cbn in Hx.
  - apply elem_of_take in Hx as (i & Hx & _). apply list_elem_of_lookup_2, list_elem_of_In, filter_In in Hx as [_ Hx].
    apply andb_true_iff in Hx as [Hx%bool_decide_eq_true _]. subst q. apply Hq. cbn. by apply negb_true_iff, bool_decide_eq_false.
  - by apply list_elem_of_In, filter_In in Hx as [_ Hx].
Qed.
Lemma list_events_serves after q mission limit s : sound s → ends (serves p) (list_events p after q mission limit) s.
Proof.
  intros Hs. unfold list_events, raise_if. destruct ((limit <? 1) || _).
  { unfold ends. rewrite (bind_run_err _ _ _ (Exn "RequestValidationError" "limit") s) by done. by split. }
  eapply ends_bind; [reflexivity|]. apply filtered_ends; [done|]. intros Hq. eapply ends_bind; [reflexivity|].
  destruct (list_after q mission after limit (ps_events s)) as [e c] eqn:He. split; [done|]. intros b [= <-].
  by eapply events_scoped.
Qed.
Lemma stream_events_serves after q s : sound s → ends (serves p) (stream_events p after q) s.
Proof.
  intros Hs. unfold stream_events. apply filtered_ends; [done|]. intros Hq. eapply ends_bind; [reflexivity|].
  destruct (list_after q None after 100 (ps_events s)) as [e c] eqn:He. split; [done|]. intros b [= <-].
  by eapply events_scoped.
Qed.

Lemma rows_projects q w q' : q' ∈ concat (row_projects <$> inspect_rows q w) → q = None ∨ q = Some q'.
Proof.
  intros (ps & (row & -> & (rec & -> & Hr)%list_elem_of_fmap)%list_elem_of_fmap & Hq)%elem_of_lists.
  apply list_elem_of_In, filter_In in Hr as [_ Hr]. destruct q as [q|]; [right|by left]. cbn in Hr, Hq.
  apply bool_decide_eq_true in Hr. rewrite Hr in Hq. cbn in Hq. by apply list_elem_of_singleton in Hq as ->.
Qed.
Lemma list_workers_serves q s : sound s → ends (serves p) (list_workers p q) s.
Proof.
  intros Hs. unfold list_workers. apply filtered_ends; [done|]. intros Hq. eapply ends_bind; [reflexivity|]. split; [done|].
  intros b [= <-] _ q' Hq' Hne. destruct (truthy q) eqn:Ht.
  - destruct q as [q|]; [|done]. apply rows_projects in Hq' as [?|[= <-]]; [done|]. by apply Hq.
  - unfold may_access. destruct (is_admin p); [by rewrite orb_true_r|]. rewrite orb_false_r. cbn [body_projects] in Hq'.
    apply elem_of_lists in Hq' as (ps & (row & -> & Hrow)%list_elem_of_fmap & Hq').
    apply elem_of_lists in Hrow as (rows & (pid & <- & Hpid)%list_elem_of_In%in_map_iff & Hrow).
    destruct (rows_projects (Some pid) (ps_workers s) q') as [?|[= ->]]; [|done|].
    + apply elem_of_lists. eexists. split; [|exact Hq']. by apply list_elem_of_fmap_2.
    + apply bool_decide_eq_true. apply list_elem_of_In in Hpid. rewrite sort_by_perm in Hpid. by apply elem_of_elements.
Qed.
Lemma list_approvals_serves q s : sound s → ends (serves p) (list_approvals p q) s.
Proof.
  intros Hs. unfold list_approvals. apply filtered_ends; [done|]. intros Hq. eapply ends_bind; [reflexivity|]. split; [done|].
  intros b [= <-] _ q' (a & -> & Ha)%list_elem_of_fmap Hne. destruct (truthy q) eqn:Ht;
    apply list_elem_of_In, filter_In in Ha as [_ Ha]; [|done].
  destruct q as [q|]; [|done]. apply bool_decide_eq_true in Ha as [= ->]. by apply Hq.
Qed.

(** *** Routes that write elsewhere *)
Lemma quiet_answers q (act : M ProductStore Body) s : sound s → moves quiet act → (∀ b, (act s).1 = Ok b → within q b) →
  ends (answers (within q) s) act s.
Proof. intros Hs Hq Hb. split; [by eapply quiet_sound; [apply Hq|]|]. split; [apply Hq|exact Hb]. Qed.
Lemma probe_serves provider purpose key s : sound s → Forall bar_free (elements (pr_project_ids p)) →
  ends (serves p) (probe_provider sha256 p provider purpose key) s.
Proof using subject_plain.
  intros Hs Hplain. unfold probe_provider, first_project, raise_if. destruct (pr_allow_canary p); cbn [negb].
  - eapply ends_bind; [reflexivity|]. destruct (head _) as [q|] eqn:Hh; [|by split].
    eapply ends_bind; [reflexivity|]. assert (q ∈ elements (pr_project_ids p)) as Hq.
    { rewrite <- (sort_by_perm str_leb). destruct (sort_by _ _); [done|]. injection Hh as ->. by left. }
    apply serves_once; [done..| | |].
    + rewrite Forall_forall in Hplain. by apply Hplain.
    + unfold may_access. by rewrite bool_decide_true by (by apply elem_of_elements).
    + apply quiet_answers; [done|by moves_step|]. intros b [= <-]. by apply within_none.
  - unfold ends. rewrite (bind_run_err _ _ _ (ApiError "policy_denied") s) by done. by split.
Qed.
Lemma enroll_serves q caps cap privacy urls key s : sound s → bar_free q →
  ends (serves p) (post_enroll hex clock sha256 float_json p q caps cap privacy urls key) s.
Proof using subject_plain.
  intros Hs Hq. unfold post_enroll, require_project, raise_if. destruct (may_access p q) eqn:Hp; cbn [negb].
  - eapply ends_bind; [reflexivity|]. apply serves_once; [done..|]. apply quiet_answers; [done| |].
    + moves_step; [apply quiet_enroll|]. case_match. by moves_step.
    + intros b. unfold mbind, M_bind. destruct (enroll_worker _ _ _ _ _ _ _ _ s) as [[[l t]|e] s'] eqn:He; [|done].
      intros [= <-]. by apply within_one.
  - unfold ends. rewrite (bind_run_err _ _ _ (ApiError "forbidden_project") s) by done. by split.
Qed.
Lemma heartbeat_serves w g t s : sound s → ends (serves p) (worker_heartbeat clock p w g t) s.
Proof.
  intros Hs. unfold worker_heartbeat. eapply ends_bind; [reflexivity|].
  destruct (dict_get (rg_workers (ps_workers s)) w) as [rec|]; [|by split]. eapply ends_bind; [reflexivity|].
  unfold raise_if. destruct (truthy (rc_project_id rec) && _) eqn:Hq; [by split|]. eapply ends_bind; [reflexivity|].
  apply serves_quiet; [repeat first [moves_step|solve [auto with swarm]]| |done].
  intros b. unfold mbind, M_bind. destruct (now_ clock s) as [[now|e] s1]; [|done].
  destruct (on_workers _ s1) as [[lease|e] s2]; [|done]. intros [= <-] _ q Hqb Hne. cbn in Hqb.
  destruct (rc_project_id rec) as [q'|]; [|by apply elem_of_nil in Hqb]. apply list_elem_of_singleton in Hqb as ->.
  cbn in Hq. rewrite bool_decide_false in Hq by done. by apply negb_false_iff in Hq.
Qed.
Lemma resolve_ends id accept payload q s : sound s →
  ends (λ r s', sound s' ∧ ps_idempotency s' = ps_idempotency s ∧ ∀ a, r = Ok a → tp_project_id a = q)
    (resolve_approval hex clock sha256 id accept (pr_subject p) payload (Some q)) s.
Proof.
  intros Hs. unfold resolve_approval. eapply ends_bind; [reflexivity|].
  destruct (dict_get (ps_approvals s) id) as [a|] eqn:Ha; [|by split]. eapply ends_bind; [reflexivity|].
  apply ends_guard; [by split|]. intros Hq%negb_false_iff%bool_decide_eq_true. apply ends_guard; [by split|]. intros _.
  assert (sound (s <| ps_reads ::= S |>)) as Hs1 by (by eapply quiet_sound; [apply quiet_now|]).
  eapply ends_bind; [reflexivity|]. apply ends_guard; [by split|]. intros _. apply ends_guard; [by split|]. intros _.
  assert (∃ a' s', (if accept then mret a else
      now ← now_ clock;
      let revoked := mkApproval (tp_id a) (tp_payload_hash a) (tp_permitted_operation a) (tp_destination a) (tp_grantor a)
        (tp_project_id a) (tp_expires_at a) (Some now) (tp_constraints a) in
      modify (λ s, s <| ps_approvals := dict_set (ps_approvals s) id revoked |>);; mret revoked) (s <| ps_reads ::= S |>) = (Ok a', s')
    ∧ sound s' ∧ ps_idempotency s' = ps_idempotency s ∧ tp_project_id a' = q) as (a' & s' & Hrun & Hs' & Hi & Hq').
  { destruct accept; [by eexists _, _|]. erewrite bind_run by reflexivity. cbv zeta. erewrite bind_run by reflexivity.
    do 2 eexists. split; [reflexivity|]. split; [|done].
    destruct Hs1 as [[] H2 H3]. constructor; [done| |done]. intros id' b. cbn. rewrite dict_get_set.
    case_decide; [intros [= <-]; exact (H2 _ _ Ha)|apply H2]. }
  eapply ends_bind; [exact Hrun|]. apply ends_final. intros r s2 Hp.
  pose proof (quiet_publish (tp_project_id a') "approval.resolved" (pr_subject p) None None
    [("approval_id", JStr id); ("accepted", JBool accept)]
    (Some ("approval.resolved:" +:+ id +:+ ":" +:+ (if accept then "True" else "False"))) None s') as Hquiet.
  rewrite Hp in Hquiet. cbn [snd] in Hquiet. split; [by eapply quiet_sound|]. split; [by rewrite <- Hi; apply Hquiet|].
  destruct r; [by intros ? [= <-]|discriminate].
Qed.
Lemma post_resolve_serves id accept payload key s : sound s →
  ends (serves p) (post_resolve hex clock sha256 p id accept payload key) s.
Proof using subject_plain.
  intros Hs. unfold post_resolve. eapply ends_bind; [reflexivity|].
  destruct (dict_get (ps_approvals s) id) as [a|] eqn:Ha; [|by split]. eapply ends_bind; [reflexivity|].
  apply ends_guard; [by split|]. intros Hm%negb_false_iff. cbv zeta.
  apply serves_once; [done..|by eapply so_approvals|done|]. apply ends_final. intros r s' Hr.
  destruct (resolve_ends id accept payload (tp_project_id a) s Hs) as (H1 & H2 & H3). rewrite Hr in H1, H2, H3.
  split; [done|]. split; [done|]. destruct r; intros ? [= <-]. apply within_one. cbn. by rewrite (H3 _ eq_refl).
Qed.
Lemma side_effect_serves id s : sound s →
  ends (λ r s', serves p r s' ∧ ∀ b, r = Ok b → visible p id s) (demo_side_effect hex clock missions_root p id) s.
Proof.
  intros Hs. unfold demo_side_effect. eapply ends_bind; [reflexivity|]. apply ends_guard; [by split|]. intros _.
  apply serves_mission_route; [done|]. intros m s' Hs' Hd Hm. apply serves_quiet; [|by intros b; unfold mbind, M_bind;
    destruct (record_side_effect _ _ _ s') as [[[]|e] s2]; intros [= <-] [=]|done].
  moves_step; [apply quiet_effect|repeat moves_step].
Qed.

(** What the body parser and the models guarantee of a request. *)
Definition well_formed (req : Request) : Prop :=
  match req with
  | PostMission m _ checks _ => fit m ∧ wf_json (opt_checks checks)
  | PostEnroll q _ _ _ _ _ => bar_free q
  | PostProbe _ _ _ => Forall bar_free (elements (pr_project_ids p))
  | _ => True
  end.
Lemma handle_serves req s : sound s → well_formed req →
  ends (λ r s', serves p r s' ∧ ∀ b id, r = Ok b → names_mission req = Some id → visible p id s)
    (handle hex clock sha256 missions_root float_json p header req) s.
Proof using subject_plain hex_plain.
  intros Hs Hw.
  assert (∀ act, ends (serves p) act s → names_mission req = None →
    ends (λ r s', serves p r s' ∧ ∀ b id, r = Ok b → names_mission req = Some id → visible p id s) act s) as Hplain.
  { intros act H Hn. split; [exact H|]. by rewrite Hn. }
  assert (∀ id act, ends (serves_mission p id s) act s → names_mission req = Some id →
    ends (λ r s', serves p r s' ∧ ∀ b id, r = Ok b → names_mission req = Some id → visible p id s) act s) as Hnamed.
  { intros id act [H1 H2] Hn. split; [exact H1|]. intros b id' Hb. rewrite Hn. intros [= <-]. by eapply H2. }
  destruct req; cbn [handle well_formed] in *;
    first [apply Hplain; [|done]|eapply Hnamed; [|done]].
  - destruct Hw. by apply post_mission_serves.
  - by apply get_mission_serves.
  - by apply post_review_serves.
  - by apply post_cancel_serves.
  - by apply graph_serves.
  - by apply list_events_serves.
  - by apply stream_events_serves.
  - by apply probe_serves.
  - by apply list_workers_serves.
  - by apply enroll_serves.
  - by apply heartbeat_serves.
  - by apply list_approvals_serves.
  - by apply post_resolve_serves.
  - by apply side_effect_serves.
Qed.
End well_formed.

(** ** Histories: requests of any principals, approvals asked for, and restarts *)
Inductive ApiStep :=
  | Call (p : Principal) (header : option string) (req : Request)
  | AskApproval (operation destination grantor : string) (payload : dict json) (project_id : string) (ttl_seconds : Z)
  | Restart (c : Controller).
Definition api_step (o : ApiStep) : M ProductStore (option Body) :=
  match o with
  | Call p header req => b ← handle hex clock sha256 missions_root float_json p header req; mret (Some b)
  | AskApproval op dest grantor payload q ttl =>
      create_approval hex clock sha256 op dest grantor payload (Some q) ttl;; mret None
  | Restart c => modify (restart_api c);; mret None
  end.
Definition step_formed (o : ApiStep) : Prop :=
  match o with
  | Call p _ req => bar_free (pr_subject p) ∧ well_formed p req
  | AskApproval _ _ _ _ q _ => q ≠ "" ∧ bar_free q
  | Restart c => mc_missions c = []
  end.
(** A store over an empty directory. *)
Record fresh_store (s : ProductStore) : Prop := {
  fs_files : ps_files s = ∅;
  fs_missions : mc_missions (ps_controller s) = [];
  fs_approvals : ps_approvals s = [];
  fs_kept : ps_idempotency s = ∅
}.
Lemma fresh_sound s : fresh_store s → sound s.
Proof.
  intros [Hf Hm Ha Hk]. constructor; [|by rewrite Ha|rewrite Hk; by intros ?? ?%lookup_empty_Some].
  constructor; [|by intros id m; rewrite Hm]. rewrite Hf. intros id [x Hx]. by apply lookup_empty_Some in Hx.
Qed.
Lemma restart_sound c s : mc_missions c = [] → sound s → sound (restart_api c s).
Proof.
  intros Hc [[Hd _] _ _]. constructor; [|done|unfold restart_api; cbn; by intros ?? ?%lookup_empty_Some].
  constructor; [exact Hd|]. intros id m. cbn. by rewrite Hc.
Qed.
Lemma approval_sound op dest grantor payload q ttl s : q ≠ "" → bar_free q → sound s →
  sound (create_approval hex clock sha256 op dest grantor payload (Some q) ttl s).2.
Proof.
  intros Hne Hq [[] H2 H3].
  assert (ends (λ _ s', sound s') (create_approval hex clock sha256 op dest grantor payload (Some q) ttl) s) as H; [|exact H].
  unfold create_approval. cbv zeta. assert (truthy (Some q) = true) as -> by (by cbn; rewrite bool_decide_false).
  apply ends_guard; [by constructor|]. intros _. do 3 (eapply ends_bind; [reflexivity|]). cbv beta.
  apply ends_final. intros r s' Hp. match type of Hp with ?m ?s1 = _ => assert (quiet s1 (m s1).2) as Hquiet by apply quiet_publish end.
  rewrite Hp in Hquiet. eapply quiet_sound; [exact Hquiet|]. constructor; [done| |done].
  intros id a. cbn. rewrite dict_get_set. case_decide; [by intros [= <-]|apply H2].
Qed.

Hypothesis hex_plain : ∀ n, forallb (λ c, negb (white_space c)) (of_string (hex n)) = true.

Lemma steps_sound steps s : fresh_store s → Forall step_formed steps → sound (after api_step steps s).
Proof using hex_plain.
  intros Hs Hall. apply after_invariant; [|by apply fresh_sound]. intros o s' Ho Hs'. rewrite Forall_forall in Hall.
  specialize (Hall _ Ho). destruct o as [p header req|op dest grantor payload q ttl|c]; cbn in Hall.
  - destruct Hall as [Hp Hw]. destruct (handle_serves hex_plain p header Hp req s' Hs' Hw) as [[H _] _].
    unfold api_step, mbind, M_bind. by destruct (handle _ _ _ _ _ _ _ _ s') as [[]].
  - destruct Hall as [Hne Hq]. pose proof (approval_sound op dest grantor payload q ttl s' Hne Hq Hs') as H.
    unfold api_step, mbind, M_bind. by destruct (create_approval _ _ _ _ _ _ _ _ _ s') as [[]].
  - by apply restart_sound.
Qed.


(** C13: Whatever came before, a new process over the same directory answers every request to read a mission
    as the old one does: with the same mission, plan, validation and result, or the same error. *)
Theorem missions_survive_restart steps s0 c p header id :
  fresh_store s0 → Forall step_formed steps → mc_missions c = [] →
  let s := after api_step steps s0 in
  let read := handle hex clock sha256 missions_root float_json p header (GetMission id) in
  (read (restart_api c s)).1 = (read s).1.
Proof using hex_plain.
  intros Hs0 Hsteps Hc s read. pose proof (steps_sound steps s0 Hs0 Hsteps) as Hs.
  pose proof (restart_sound c s Hc Hs) as Hs'. unfold read. cbn [handle]. unfold route_get_mission.
  destruct (get_run hex clock missions_root id s (so_inv _ Hs)) as (r & s1 & Hr & Hi & Hf & _ & _ & _ & _ & Hres).
  destruct (get_run hex clock missions_root id (restart_api c s) (so_inv _ Hs')) as (r' & s1' & Hr' & Hi' & Hf' & _ & _ & _ & _ & Hres').
  change (ps_files (restart_api c s)) with (ps_files s) in *.
  assert (r' = r) as ->.
  { destruct r as [m|e], r' as [m'|e'].
    - f_equal. eapply on_disk_unique; [apply Hres'|apply Hres].
    - destruct Hres as [Hd _], Hres' as [_ Hn]. apply on_disk_file in Hd as [??]. congruence.
    - destruct Hres' as [Hd _], Hres as [_ Hn]. apply on_disk_file in Hd as [??]. congruence.
    - by destruct Hres as [-> _], Hres' as [-> _]. }
  destruct r as [m|e]; [|by rewrite (bind_run_err _ _ _ _ _ Hr), (bind_run_err _ _ _ _ _ Hr')].
  rewrite (bind_run _ _ _ _ _ Hr), (bind_run _ _ _ _ _ Hr'). unfold require_project, raise_if.
  destruct (negb (may_access p (ms_project_id m))); [done|].
  rewrite (bind_run _ _ s1' () s1'), (bind_run _ _ s1 () s1) by reflexivity.
  assert (∀ t, ps_files t = ps_files s → disk_ok missions_root (ps_files s) →
    ∃ o, try_load missions_root id t = (Ok o, t) ∧ try_load missions_root id s1 = (Ok o, s1)) as Hload.
  { intros t Ht Hok. unfold try_load, try_except, load_from_disk, mbind, M_bind, get_state, of_result. rewrite Ht, Hf.
    destruct (Hok id) as [m2 (_ & rec & -> & _)]; [|by eexists].
    destruct Hres as [Hd _]. by eapply on_disk_file. }
  destruct (Hload s1' Hf' (inv_disk _ _ (so_inv _ Hs))) as (o & Ho & Ho').
  by rewrite (bind_run _ _ _ _ _ Ho), (bind_run _ _ _ _ _ Ho').
Qed.
End scope.
