(* ===== verification/ApiRuns.v ===== *)
(** * ApiRuns: concrete runs of the HTTP API

    The theorems of [MissionStore], [ApiProps] and [ApiScope] applied to runs, and runs that show where
    the routes depart from what their names and comments say: ids taken over from another
    project, cancellations that are undone, pages that end too early. *)
From Stdlib Require Import Ascii DecimalString DecimalZ.
From S2P Require Import Prelude Collections Contracts PyFloat Json JsonText Models Checkpoint Workspace MissionStore Graph Scheduler Controller ControllerProps WorkerRegistry ToolGateway Api ApiRoutes ApiProps ApiMissions ApiScope.
Open Scope Z_scope.

Module ApiSample.
#[local] Instance strict : Lax := {| lax_int _ := None; lax_bool _ := None |}.

(** Times written as decimal numbers. *)
Definition dump_time (t : Z) : string := NilZero.string_of_int (Z.to_int t).
Definition read_time (j : json) : option Z :=
  match j with JStr s => Z.of_int <$> NilZero.int_of_string s | _ => None end.
Lemma to_int_digits t : Z.to_int t ≠ Decimal.Pos Decimal.Nil ∧ Z.to_int t ≠ Decimal.Neg Decimal.Nil.
Proof.
  split; intros H; pose proof (DecimalZ.of_to t) as Hz; rewrite H in Hz; cbn in Hz; subst t; discriminate.
Qed.
Lemma read_dump_time t : read_time (JStr (dump_time t)) = Some t.
Proof.
  destruct (to_int_digits t) as [H1 H2]. unfold read_time, dump_time. rewrite NilZero.isi by done. cbn. by rewrite DecimalZ.of_to.
Qed.
#[local] Instance decimal_dates : Dates := {| dump_datetime := dump_time; read_datetime := read_time; read_dump := read_dump_time |}.

Definition clock (n : nat) : Z := 1700000000000000 + Z.of_nat n.
Definition start (fixture : bool) : ProductStore :=
  mkProductStore (new_controller demo_scheduler) (WorkerRegistry.init 30) empty_log [] ∅ ∅ ∅ [] fixture ∅ 0 0.
Definition ann : Principal := mkPrincipal "ann" "atk_ann" {["p1"]} {["operator"]} true false.
Definition bob : Principal := mkPrincipal "bob" "atk_bob" {["p2"]} {["operator"]} false false.
Definition m1 : Mission := mkMission "1.0" "m1" 0 "p1" "tr_1" None "goal" [] [] [] "rp" 36 16 4 100 None MissionStatus.DRAFT 1 0 None.
Definition m1_of_p2 : Mission := mkMission "1.0" "m1" 0 "p2" "tr_2" None "other" [] [] [] "rp" 36 16 4 100 None MissionStatus.DRAFT 1 0 None.

Abbreviation route p req := (handle unary clock id "missions" (λ _, JNull) p None req).
Abbreviation steps := (api_step unary clock id "missions" (λ _, JNull)).
Definition call (p : Principal) (req : Request) : ApiStep := Call p None req.
Definition post (m : Mission) : Request := PostMission m None None None.
Definition review (n : Z) : Request := PostReview "m1" [("n", JInt n)] (Some [("n", JInt 1)]) false None.
Definition cancel : Request := PostCancel "m1" None None.
Definition status_of (r : result Body) : option MissionStatus :=
  match r with Ok (MissionBody m _) | Ok (MissionView m _ _ _) | Ok (ReviewBody _ _ _ m) => Some (ms_status m) | _ => None end.

Lemma m1_fit : fit m1.
Proof. split; [constructor; by vm_compute|by apply (bool_decide_unpack _); vm_compute]. Qed.
Lemma ann_plain : bar_free (pr_subject ann).
Proof. by apply (bool_decide_unpack _); vm_compute. Qed.

Lemma p1_plain : bar_free "p1".
Proof. by apply (bool_decide_unpack _); vm_compute. Qed.

(** ** The theorems applied *)
Definition history : list ApiStep := [call ann (post m1); AskApproval "pay" "shop" "ann" [] "p1" 60; call ann cancel; Restart (new_controller demo_scheduler)].
Lemma history_formed : Forall step_formed history.
Proof.
  repeat apply Forall_cons_2; [..|apply Forall_nil_2].
  - split; [apply ann_plain|]. split; [apply m1_fit|done].
  - split; [discriminate|apply p1_plain].
  - split; [apply ann_plain|done].
  - done.
Qed.
Lemma start_fresh b : fresh_store (start b).
Proof. by constructor. Qed.

Lemma missions_survive_restart_witness :
  let s := after steps (take 3 history) (start false) in
  status_of (route ann (GetMission "m1") s).1 = Some MissionStatus.CANCELLED
  ∧ (route ann (GetMission "m1") (restart_api (new_controller demo_scheduler) s)).1 = (route ann (GetMission "m1") s).1.
Proof.
  split; [vm_compute; reflexivity|].
  apply (missions_survive_restart unary clock id "missions" (λ _, JNull) unary_plain (take 3 history) (start false)
    (new_controller demo_scheduler) ann None "m1").
  - apply start_fresh.
  - apply Forall_take, history_formed.
  - reflexivity.
Defined.



Lemma cursor_reads_witness :
  let calls := [(ann, None, post m1); (ann, None, review 2); (ann, None, cancel)] in
  let l := ps_events (after (call_api unary clock id "missions" (λ _, JNull)) calls (start false)) in
  length (el_events l) = 3%nat
  ∧ read_all (Some "p1") None 1 l 4 None = List.filter (event_matches (Some "p1") None) (el_events l).
Proof.
  intros calls l. assert (length (el_events l) = 3%nat) as Hlen by (vm_compute; reflexivity). split; [exact Hlen|].
  destruct (cursor_reads_every_event_once unary clock id "missions" (λ _, JNull) unary_inj calls (start false) (Some "p1") None 1 4
    eq_refl) as (_ & _ & _ & H).
  change (ps_events (after _ _ _)) with l in H. rewrite Hlen in H. exact (proj1 (H (le_n 4))).
Defined.

Lemma review_accepts_witness :
  NoDup (default [] (Some [("n", JInt 1)])).*1
  ∧ rd_accepted (review_attempt [("n", JInt 1)] (Some [("n", JInt 1)]) false) = true.
Proof.
  assert (NoDup (default [] (Some [("n", JInt 1)])).*1) as Hnd by (by apply (bool_decide_unpack _); vm_compute).
  split; [exact Hnd|]. apply (review_accepts_exactly [("n", JInt 1)] (Some [("n", JInt 1)]) false Hnd). 
  split; [unfold marked; vm_compute; intuition discriminate|]. split; [discriminate|].
  intros k v [= -> ->]%list_elem_of_singleton. vm_compute. reflexivity.
Defined.

(** ** Where the routes depart from what they say *)

(** A principal of another project posts a mission with the same id: the mission, its plan and its
    timeline now belong to that project, and the first owner may no longer read it. *)
Example mission_ids_are_taken_over :
  let s := after steps [call ann (post m1); call bob (post m1_of_p2)] (start false) in
  status_of (route bob (GetMission "m1") s).1 = Some MissionStatus.PLANNING
  ∧ (route ann (GetMission "m1") s).1 = Err (ApiError "forbidden_project").
Proof. split; vm_compute; reflexivity. Qed.

(** A review completes a mission that was cancelled. *)
Example a_review_completes_a_cancelled_mission :
  status_of (route ann (review 1) (after steps [call ann (post m1); call ann cancel] (start false))).1 = Some MissionStatus.COMPLETED.
Proof. vm_compute. reflexivity. Qed.

(** A mission posted again under a cancelled id is not cancelled any more, and is never cancelled again. *)
Example cancelled_ids_are_not_cancelled_again :
  status_of (route ann cancel (after steps [call ann (post m1); call ann cancel; call ann (post m1)] (start false))).1
  = Some MissionStatus.PLANNING.
Proof. vm_compute. reflexivity. Qed.

(** The side effects of a cancelled mission are blocked until the process is restarted. *)
Example cancellation_is_forgotten_by_a_restart :
  let cancelled := [call ann (post m1); call ann cancel] in
  (route ann (PostSideEffect "m1") (after steps cancelled (start true))).1 = Err (ApiError "mission_cancelled")
  ∧ (route ann (PostSideEffect "m1") (after steps (cancelled ++ [Restart (new_controller demo_scheduler)]) (start true))).1
    = Ok (SideEffectsBody ["demo:m1"]).
Proof. split; vm_compute; reflexivity. Qed.

(** The result that a review writes into the record is lost: the record is loaded again before it is saved. *)
Example the_result_of_a_review_is_not_stored :
  match (route ann (GetMission "m1") (after steps [call ann (post m1); call ann (review 1)] (start false))).1 with
  | Ok (MissionView m _ _ result) => ms_status m = MissionStatus.COMPLETED ∧ result = None
  | _ => False
  end.
Proof. vm_compute. by split. Qed.

(** The digest of a new mission leaves its family and checks out: a changed request with the same key is
    answered by the first reply instead of being refused. *)
Example required_checks_are_not_in_the_digest :
  let first := PostMission m1 None (Some [("n", JInt 1)]) (Some "k") in
  let second := PostMission m1 None (Some [("n", JInt 2)]) (Some "k") in
  let run := route ann first (start false) in
  match run.1 with Ok _ => (route ann second run.2).1 = run.1 | Err _ => False end.
Proof. vm_compute. reflexivity. Qed.

(** A mission posted without an id is given a new one each time it is parsed: the same body sent again
    with the same key is refused. *)
Definition body : json := JObj [("project_id", JStr "p1"); ("objective", JStr "goal"); ("resource_policy_id", JStr "rp");
  ("max_wall_time_seconds", JInt 36); ("max_graph_nodes", JInt 16); ("max_active_sessions", JInt 4); ("max_model_calls", JInt 100)].
Example bodies_without_an_id_are_not_repeated :
  match mission_validate "m_1" "tr_1" 1 body, mission_validate "m_2" "tr_2" 2 body with
  | Some first, Some second =>
    let run := route ann (PostMission first None None (Some "k")) (start false) in
    match run.1 with
    | Ok _ => (route ann (PostMission second None None (Some "k")) run.2).1 = Err (ApiError "idempotency_payload_mismatch")
    | Err _ => False
    end
  | _, _ => False
  end.
Proof. vm_compute. reflexivity. Qed.

(** The page is cut before the events of other projects are taken out: a principal is told that there is
    nothing more while its own event is next. *)
Definition m2_of_p2 : Mission := m1_of_p2 <| ms_id := "m2" |>.
Example pages_end_too_early :
  let s := after steps [call bob (post m2_of_p2); call ann (post m1)] (start false) in
  match (route ann (GetEvents None None None 1) s).1, (route ann (GetEvents None (Some "p1") None 1) s).1 with
  | Ok (EventsBody page _ _ more), Ok (EventsBody own _ _ _) => page = [] ∧ more = false ∧ length own = 1%nat
  | _, _ => False
  end.
Proof. vm_compute. by repeat split. Qed.

(** The list of side effects names the missions of every project. *)
Example side_effects_name_other_missions :
  (route ann (PostSideEffect "m1") (after steps [call bob (post m2_of_p2); call bob (PostSideEffect "m2"); call ann (post m1)] (start true))).1
  = Ok (SideEffectsBody ["demo:m2"; "demo:m1"]).
Proof. vm_compute. reflexivity. Qed.

(** The graph of a mission comes with the explanations of all. *)
Example graphs_explain_other_missions :
  let s := (start false) <| ps_controller := c_committed <| mc_missions := [] |> |> in
  match (route ann (GetGraph "m3") (after steps [call ann (post (m1 <| ms_id := "m3" |>))] s)).1 with
  | Ok (GraphBody _ _ _ tasks explanations) => tasks = [] ∧ length explanations = 1%nat
  | _ => False
  end.
Proof. vm_compute. by split. Qed.

(** Keys of kept replies join ids with bars: two scopes have one key. *)
Example keys_of_two_scopes_meet : _idem_key "a" "b|c" "op" "k" = _idem_key "a|b" "c" "op" "k".
Proof. reflexivity. Qed.
End ApiSample.
