(* ===== verification/Session.v ===== *)
(** * Session: the agent session runtime

    runtime/session.py over the registry and the capacity pool ([Capacity]), the checkpoint
    store ([Checkpoint]) and three services it awaits: the inference broker, the workspace and
    the tool gateway, which are an interface here ([Services]).  A method is a program
    ([Programs]) whose operations are the runtime's own synchronous parts, each a definition
    below, and the calls of services; between two operations other tasks may run, which
    includes every interleaving that awaiting allows.  Drawing an id and reading the clock
    advance counters of the state: [hex n] is the n-th [uuid4().hex] and [clock n] the n-th
    reading.  Objects that the code shares (an attempt, a session) are the entries of the
    dicts that hold them. *)
From S2P Require Import Prelude Collections Contracts Json JsonText Models Checkpoint Capacity Workspace ToolGateway Programs.
Open Scope Z_scope.

Record WorkerLease := mkWorkerLease {
  lz_worker_id : string;
  lz_lease_generation : Z
}.
Record SessionDeps := mkSessionDeps { sd_secret_ref_name : string }.

Record Runtime := mkRuntime {
  rn_limits : ResourceLimits;
  rn_checkpoints : CheckpointStore;
  rn_registry : SessionRegistry;
  rn_capacity : CapacityPool;
  rn_attempts : gmap string TaskAttempt;
  rn_cancel : gset string;
  rn_interrupted : gset string;
  rn_sessions_by_attempt : gmap string string;
  rn_deps : gmap string SessionDeps;
  rn_traces : gmap string (list (dict json));
  rn_draws : nat;                        (** ids drawn so far *)
  rn_reads : nat                         (** clock readings so far *)
}.
#[export] Instance eta_Runtime : Eta Runtime := λ r,
  mkRuntime (rn_limits r) (rn_checkpoints r) (rn_registry r) (rn_capacity r) (rn_attempts r) (rn_cancel r)
    (rn_interrupted r) (rn_sessions_by_attempt r) (rn_deps r) (rn_traces r) (rn_draws r) (rn_reads r).

(** [AgentSessionRuntime(...)]. *)
Definition new_runtime (limits : ResourceLimits) (store : CheckpointStore) : Runtime :=
  mkRuntime limits store new_registry (mkCapacityPool limits ∅ ∅) ∅ ∅ ∅ ∅ ∅ ∅ 0 0.

Section session.
Context {lax : Lax}.
Variable hex : nat → string.
Variable clock : nat → Z.

Definition new_id (prefix : string) : M Runtime string := λ s,
  (Ok (prefix +:+ hex (rn_draws s)), s <| rn_draws ::= S |>).
Definition utc_now : M Runtime Z := λ s, (Ok (clock (rn_reads s)), s <| rn_reads ::= S |>).

Definition on_checkpoints {A} : M CheckpointStore A → M Runtime A :=
  zoom rn_checkpoints (λ c s, s <| rn_checkpoints := c |>).
Definition on_registry {A} : M SessionRegistry A → M Runtime A := zoom rn_registry (λ r s, s <| rn_registry := r |>).
Definition on_capacity {A} : M CapacityPool A → M Runtime A := zoom rn_capacity (λ p s, s <| rn_capacity := p |>).
Definition set_attempt (aid : string) (f : TaskAttempt → TaskAttempt) : M Runtime () :=
  modify (λ s, s <| rn_attempts ::= alter f aid |>).
Definition set_session (sid : string) (f : AgentSession → AgentSession) : M Runtime () :=
  modify (λ s, s <| rn_registry ::= λ r, r <| sr_sessions ::= alter f sid |> |>).
Definition the_attempt (aid : string) : M Runtime TaskAttempt :=
  s ← get_state; require (rn_attempts s !! aid) (KeyError aid).

Definition json_opt (o : option string) : json := match o with Some s => JStr s | None => JNull end.
Definition json_strs (l : list string) : json := JList (JStr <$> l).

Definition _trace (attempt_id event : string) (payload : dict json) : M Runtime () :=
  now ← utc_now;
  let row := (("event", JStr event) :: payload) ++ [("at", JStr (isoformat now))] in
  modify (λ s, s <| rn_traces ::= <[attempt_id := default [] (rn_traces s !! attempt_id) ++ [row]]> |>).

(** [SessionCheckpoint(...)]: the model trims its strings and the keys of its rows. *)
Definition validated (c : SessionCheckpoint) : SessionCheckpoint :=
  mkSessionCheckpoint (trim (cp_schema_version c)) (trim (cp_checkpoint_id c)) (trim (cp_session_id c))
    (trim (cp_agent_profile_id c)) (trim (cp_task_id c)) (trim (cp_attempt_id c)) (trim <$> cp_route_id c)
    (cp_task_status c) (cp_attempt_status c) (cp_model_calls c) (trim <$> cp_tool_operation_ids c)
    (trim <$> cp_artifact_refs c) (trim <$> cp_finding_ids c) (trim <$> cp_waiting_for_children c) (cp_cancel_requested c)
    ((λ row, insert_all ((λ kv, (trim kv.1, kv.2)) <$> row)) <$> cp_decision_trace c)
    (insert_all ((λ kv, (trim kv.1, kv.2)) <$> cp_resource_usage c)) (trim (cp_created_at c)).

Definition _checkpoint (session_id : string) (profile : AgentProfile) (task : TaskSpec) (aid : string)
    (waiting : list string) (model_calls : Z) (finding_ids tool_ops : list string) (cancel : bool) : M Runtime string :=
  attempt ← the_attempt aid;
  id ← new_id "cp_";
  now ← utc_now;
  s ← get_state;
  let cp := validated (mkSessionCheckpoint "1.0" id session_id (ap_id profile) (ts_id task) aid
    (ta_selected_route_id attempt) (ts_status task) (ta_status attempt) model_calls tool_ops [] finding_ids waiting
    (cancel || bool_decide (aid ∈ rn_cancel s)) (default [] (rn_traces s !! aid)) [("model_calls", model_calls)]
    (isoformat now)) in
  serial ← of_result (to_serializable cp);
  raise_if (match serial with JObj d => dict_mem d "runtime_client" | _ => false end) (RuntimeError "runtime_client_leaked");;
  on_checkpoints (save cp).

(** ** The synchronous parts of run_task *)
Definition CancelledError (aid : string) : exn := Exn "CancelledError" aid.
Definition UnsupportedFeatureError (msg : string) : exn := Exn "UnsupportedFeatureError" msg.

(** From opening the session to the first trace; the ids of the session and of the attempt. *)
Definition start (task : TaskSpec) (lease : WorkerLease) (profile : AgentProfile) (route : option RouteSnapshot)
    : M Runtime (string * string) :=
  sid ← new_id "as_";
  on_registry (open_session sid profile (Some (ts_id task)));;
  on_capacity (acquire sid);;
  aid ← new_id "att_";
  now ← utc_now;
  let attempt := mkTaskAttempt aid (ts_id task) (ap_id profile) (rt_route_id <$> route) (Some (lz_worker_id lease))
                   (lz_lease_generation lease) AttemptStatus.RUNNING now None None None None in
  modify (λ s, s <| rn_attempts ::= <[aid := attempt]> |> <| rn_sessions_by_attempt ::= <[aid := sid]> |>
                 <| rn_deps ::= <[aid := mkSessionDeps "FAKE_API_KEY"]> |>);;
  _trace aid "started" [("role", JStr (ap_role profile)); ("route_id", json_opt (rt_route_id <$> route));
                        ("task_family", JStr (ts_task_family task))];;
  mret (sid, aid).

Definition wait_for_children (sid aid : string) (profile : AgentProfile) (task : TaskSpec) : M Runtime TaskAttempt :=
  let unfinished := ts_dependency_ids task in
  modify (λ s, s <| rn_capacity ::= mark_waiting_children sid |>);;
  set_attempt aid (λ a, a <| ta_status := AttemptStatus.PENDING |> <| ta_blocked_reason := Some "waiting_for_children" |>);;
  _trace aid "waiting_children" [("children", json_strs unfinished)];;
  cp ← _checkpoint sid profile task aid unfinished 0 [] [] false;
  set_session sid (λ x, x <| as_checkpoint_ref := Some cp |>);;
  the_attempt aid.

Definition check_cancel (aid : string) : M Runtime () :=
  s ← get_state; raise_if (bool_decide (aid ∈ rn_cancel s)) (CancelledError aid).

Definition new_finding (sid : string) (task : TaskSpec) (content : string) (source_ids : list string) : M Runtime Finding :=
  id ← new_id ""; now ← utc_now;
  mret (mkFinding id now (ts_project_id task) (Some (trim content)) None source_ids sid (ts_id task)
          FindingStatus.HYPOTHESIS None (ts_scopes task)).

Definition claimed (route : RouteSnapshot) : list string := rt_capability_claims route ++ rt_observed_capabilities route.
Definition missing_capabilities (task : TaskSpec) (route : RouteSnapshot) : list string :=
  sort_by str_leb (distinct [] (filter (λ c, negb (one_of c (claimed route))) (ts_required_capabilities task))).
Definition check_capabilities (task : TaskSpec) (route : RouteSnapshot) : M Runtime () :=
  let missing := missing_capabilities task route in
  raise_if (negb (bool_decide (missing = []))) (UnsupportedFeatureError ("unsupported:" +:+ py_repr (json_strs missing))).

Definition is_model_call (row : dict json) : bool :=
  match dict_get row "event" with Some (JStr e) => bool_decide (e = "model_call") | _ => false end.
(** The start of [_brokered_model_turn]: the request and the number of earlier calls. *)
Definition begin_turn (aid : string) (context : ContextBundle) (route : RouteSnapshot) : M Runtime (InferenceRequest * Z) :=
  check_cancel aid;;
  s ← get_state;
  let prior := Z.of_nat (length (filter (λ row, is_model_call row) (default [] (rn_traces s !! aid)))) in
  raise_if (max_model_calls (rn_limits s) <=? prior) (RuntimeError "max_model_calls");;
  require (rn_deps s !! aid) (KeyError aid);;
  let tokens := match xb_token_estimate context with Some n => if n =? 0 then 40 else n | None => 40 end in
  mret (mkInferenceRequest aid (Some (rt_route_id route)) "mission" (Some tokens) (Some 128), prior).

(** The route of the request among the eligible ones, which must be the attempt's. *)
Definition select_route (aid : string) (route : RouteSnapshot) (eligible : list RouteSnapshot) : M Runtime RouteSnapshot :=
  match eligible with
  | [] => raise (PolicyDeniedError "no_eligible_route")
  | first :: _ =>
    let selected := default first (find (λ r, bool_decide (rt_route_id r = rt_route_id route)) eligible) in
    attempt ← the_attempt aid;
    raise_if (truthy (ta_selected_route_id attempt) && negb (bool_decide (ta_selected_route_id attempt = Some (rt_route_id selected))))
      (RuntimeError "route_mismatch_on_attempt");;
    mret selected
  end.
Definition check_interrupt (aid : string) : M Runtime () :=
  s ← get_state; raise_if (bool_decide (aid ∈ rn_interrupted s)) (AmbiguousSendError "interrupted_mid_send").

Definition new_tool_call (aid : string) (task : TaskSpec) (lease : WorkerLease) : M Runtime ToolCall :=
  op ← new_id "op_";
  mret (mkToolCall op (ts_id task) aid "calc.add@1" [("a", JInt 1); ("b", JInt 2)] "pending" (ts_scopes task) None
          (lz_lease_generation lease) 30).

(** From the work done to the return. *)
Definition finish (sid aid : string) (profile : AgentProfile) (task : TaskSpec) (route : option RouteSnapshot)
    (model_calls : Z) (finding_ids tool_ops : list string) : M Runtime TaskAttempt :=
  s ← get_state;
  (if bool_decide (aid ∈ rn_interrupted s) then
     set_attempt aid (λ a, a <| ta_status := AttemptStatus.UNKNOWN |> <| ta_blocked_reason := Some "interrupted_model_response" |>);;
     _trace aid "interrupted" []
   else if bool_decide (aid ∈ rn_cancel s) then raise (CancelledError aid)
   else
     now ← utc_now;
     set_attempt aid (λ a, a <| ta_status := AttemptStatus.SUCCEEDED |> <| ta_completed_at := Some now |>));;
  cp ← _checkpoint sid profile task aid [] model_calls finding_ids tool_ops false;
  attempt ← the_attempt aid;
  set_session sid (λ x, x <| as_checkpoint_ref := Some cp |>
    <| as_status := if bool_decide (ta_status attempt = AttemptStatus.SUCCEEDED) then "completed" else "blocked" |>
    <| as_route_history ::= λ h, h ++ option_list (rt_route_id <$> route) |>);;
  modify (λ s, s <| rn_capacity ::= clear_waiting sid |>);;
  the_attempt aid.

(** The handlers of run_task. *)
Definition end_cancelled (sid aid : string) (profile : AgentProfile) (task : TaskSpec) : M Runtime TaskAttempt :=
  now ← utc_now;
  set_attempt aid (λ a, a <| ta_status := AttemptStatus.CANCELLED |> <| ta_completed_at := Some now |>
                          <| ta_blocked_reason := Some "cancelled" |>);;
  _trace aid "cancelled" [];;
  _checkpoint sid profile task aid [] 0 [] [] true;;
  the_attempt aid.
Definition end_unknown (sid aid : string) (profile : AgentProfile) (task : TaskSpec) (msg : string) : M Runtime TaskAttempt :=
  set_attempt aid (λ a, a <| ta_status := AttemptStatus.UNKNOWN |> <| ta_blocked_reason := Some ("ambiguous_send:" +:+ msg) |>);;
  _trace aid "ambiguous_send" [];;
  _checkpoint sid profile task aid [] 0 [] [] false;;
  the_attempt aid.
Definition end_failed (sid aid : string) (profile : AgentProfile) (task : TaskSpec) (msg : string) : M Runtime TaskAttempt :=
  now ← utc_now;
  set_attempt aid (λ a, a <| ta_status := AttemptStatus.FAILED |> <| ta_completed_at := Some now |>
                          <| ta_blocked_reason := Some msg |>);;
  _trace aid "failed" [("reason", JStr msg)];;
  _checkpoint sid profile task aid [] 0 [] [] false;;
  the_attempt aid.
(** The [finally] clause. *)
Definition final_status (s : AttemptStatus) : bool :=
  bool_decide (s ∈ [AttemptStatus.SUCCEEDED; AttemptStatus.FAILED; AttemptStatus.CANCELLED]).
Definition release_final (sid aid : string) : M Runtime () :=
  attempt ← the_attempt aid;
  if final_status (ta_status attempt) then modify (λ s, s <| rn_capacity ::= release_slot sid |>) else mret ().

(** ** Resuming, cancelling, rerouting *)
(** [resume] up to the tools: the attempt and the operations to look up. *)
Definition resume_attempt (checkpoint : string) : M Runtime (string * list string) :=
  fresh ← new_id "cp_";
  now ← utc_now;
  cp ← on_checkpoints (load fresh (isoformat now) checkpoint);
  s ← get_state;
  attempt ← match rn_attempts s !! cp_attempt_id cp with
    | Some a => mret a
    | None =>
      now ← utc_now;
      let a := mkTaskAttempt (cp_attempt_id cp) (cp_task_id cp) (cp_agent_profile_id cp) (cp_route_id cp) None 0
                 (cp_attempt_status cp) now None None None None in
      modify (λ s, s <| rn_attempts ::= <[cp_attempt_id cp := a]> |>);;
      mret a
    end;
  raise_if (truthy (cp_route_id cp) && truthy (ta_selected_route_id attempt)
            && negb (bool_decide (cp_route_id cp = ta_selected_route_id attempt))) (RuntimeError "resume_route_mismatch");;
  set_attempt (cp_attempt_id cp) (λ a, a <| ta_selected_route_id := cp_route_id cp |>);;
  _trace (cp_attempt_id cp) "resumed" [("checkpoint_id", JStr checkpoint); ("route_id", json_opt (cp_route_id cp))];;
  mret (cp_attempt_id cp, cp_tool_operation_ids cp).

Definition request_cancel (attempt_id : string) : M Runtime () :=
  modify (λ s, s <| rn_cancel ::= union {[attempt_id]} |>);; _trace attempt_id "cancel_requested" [].
Definition interrupt_model_response (attempt_id : string) : M Runtime () :=
  modify (λ s, s <| rn_interrupted ::= union {[attempt_id]} |>).
Definition safe_reroute_new_attempt (task : TaskSpec) (profile : AgentProfile) (new_route : RouteSnapshot) : M Runtime TaskAttempt :=
  aid ← new_id "att_"; now ← utc_now;
  let attempt := mkTaskAttempt aid (ts_id task) (ap_id profile) (Some (rt_route_id new_route)) None 0
                   AttemptStatus.PENDING now None None None None in
  modify (λ s, s <| rn_attempts ::= <[aid := attempt]> |>);;
  _trace aid "authorized_reroute" [("route_id", JStr (rt_route_id new_route)); ("prior_task", JStr (ts_id task))];;
  mret attempt.
Definition decision_trace (attempt_id : string) (s : Runtime) : list (dict json) := default [] (rn_traces s !! attempt_id).

(** ** Programs *)
Inductive rt_op : Type → Type :=
| Start (task : TaskSpec) (lease : WorkerLease) (profile : AgentProfile) (route : option RouteSnapshot) : rt_op (string * string)
| WaitForChildren (sid aid : string) (profile : AgentProfile) (task : TaskSpec) : rt_op TaskAttempt
| CheckCancel (aid : string) : rt_op ()
| NewFinding (sid : string) (task : TaskSpec) (content : string) (source_ids : list string) : rt_op Finding
| AppendFinding (f : Finding) : rt_op Finding
| Trace (aid event : string) (payload : dict json) : rt_op ()
| CheckCapabilities (task : TaskSpec) (route : RouteSnapshot) : rt_op ()
| BeginTurn (aid : string) (context : ContextBundle) (route : RouteSnapshot) : rt_op (InferenceRequest * Z)
| Assess (req : InferenceRequest) : rt_op (list RouteSnapshot)
| SelectRoute (aid : string) (route : RouteSnapshot) (eligible : list RouteSnapshot) : rt_op RouteSnapshot
| Reserve (req : InferenceRequest) (route : RouteSnapshot) : rt_op Reservation
| CheckInterrupt (aid : string) : rt_op ()
| Invoke (ticket : Reservation) : rt_op AttemptReceipt
| Accounted : rt_op ()
| NewToolCall (aid : string) (task : TaskSpec) (lease : WorkerLease) : rt_op ToolCall
| ToolValidate (c : ToolCall) : rt_op ToolCall
| ToolAuthorize (c : ToolCall) : rt_op ToolCall
| ToolExecute (c : ToolCall) : rt_op ActionReceipt
| ToolReceipt (operation_id : string) : rt_op ActionReceipt
| Finish (sid aid : string) (profile : AgentProfile) (task : TaskSpec) (route : option RouteSnapshot)
    (model_calls : Z) (finding_ids tool_ops : list string) : rt_op TaskAttempt
| EndCancelled (sid aid : string) (profile : AgentProfile) (task : TaskSpec) : rt_op TaskAttempt
| EndUnknown (sid aid : string) (profile : AgentProfile) (task : TaskSpec) (msg : string) : rt_op TaskAttempt
| EndFailed (sid aid : string) (profile : AgentProfile) (task : TaskSpec) (msg : string) : rt_op TaskAttempt
| ReleaseFinal (sid aid : string) : rt_op ()
| ResumeAttempt (checkpoint : string) : rt_op (string * list string)
| TheAttempt (aid : string) : rt_op TaskAttempt
| RequestCancel (aid : string) : rt_op ()
| Interrupt (aid : string) : rt_op ()
| Reroute (task : TaskSpec) (profile : AgentProfile) (route : RouteSnapshot) : rt_op TaskAttempt.

Abbreviation program := (prog rt_op).

(** [try: p finally: f]. *)
Definition pfinally {A} (p : program A) (f : program ()) : program A :=
  r ← ptry (x ← p; mret (Ok x)) (λ e, mret (Err e)); f;; Done r.

Section methods.
Variable tools workspace : bool.        (** [self.tools is not None], [self.workspace is not None] *)

Definition store_finding (f : Finding) : program Finding := if workspace then call (AppendFinding f) else mret f.

Definition _brokered_model_turn (context : ContextBundle) (sid aid : string) (route : RouteSnapshot) : program Z :=
  '(req, prior) ← call (BeginTurn aid context route);
  eligible ← call (Assess req);
  selected ← call (SelectRoute aid route eligible);
  ticket ← call (Reserve req selected);
  call (CheckInterrupt aid);;
  receipt ← call (Invoke ticket);
  call Accounted;;
  call (Trace aid "model_call" [("route_id", JStr (rt_route_id selected)); ("reservation_id", JStr (reservation_id ticket));
    ("settlement", JStr (SettlementState.value (ar_settlement_state receipt))); ("session_id", JStr sid)]);;
  mret (prior + 1).

(** The tool call that a route with tools makes: the ids of its receipts. *)
Definition tool_turn (aid : string) (task : TaskSpec) (lease : WorkerLease) (route : RouteSnapshot) : program (list string) :=
  if tools && one_of "tools" (claimed route) then
    c ← call (NewToolCall aid task lease);
    c ← call (ToolValidate c);
    c ← call (ToolAuthorize c);
    receipt ← call (ToolExecute c);
    call (Trace aid "tool_receipt" [("operation_id", JStr (tr_operation_id receipt));
      ("outcome", JStr (match tr_outcome receipt with ActionOutcome.SUCCEEDED => "succeeded"
                        | ActionOutcome.FAILED => "failed" | ActionOutcome.UNKNOWN => "unknown" end))]);;
    mret [tr_operation_id receipt]
  else mret [].

(** The body of the [try]: with dependencies of any status the attempt waits.  A proposal of a child task that the code builds when the profile
    delegates goes nowhere and is not modelled. *)
Definition body (sid aid : string) (task : TaskSpec) (context : ContextBundle) (lease : WorkerLease) (profile : AgentProfile)
    (route : option RouteSnapshot) (deterministic : bool) : program TaskAttempt :=
  if negb (bool_decide (ts_dependency_ids task = [])) then call (WaitForChildren sid aid profile task) else
  call (CheckCancel aid);;
  '(calls, finding_ids, ops) ← match (if deterministic then None else route) with
    | None =>
      f ← call (NewFinding sid task ("deterministic:" +:+ ts_objective task) []);
      f ← store_finding f;
      call (Trace aid "deterministic_result" [("finding_id", JStr (fd_id f))]);;
      mret (0, [fd_id f], [])
    | Some r =>
      call (CheckCapabilities task r);;
      calls ← _brokered_model_turn context sid aid r;
      f ← call (NewFinding sid task ("model_result:" +:+ rt_route_id r +:+ ":" +:+ String.substring 0 80 (ts_objective task)) [rt_route_id r]);
      f ← store_finding f;
      ops ← tool_turn aid task lease r;
      mret (calls, [fd_id f], ops)
    end;
  call (Finish sid aid profile task route calls finding_ids ops).

Definition handler (sid aid : string) (profile : AgentProfile) (task : TaskSpec) (e : exn) : program TaskAttempt :=
  match e with
  | Exn cls msg => if bool_decide (cls = "CancelledError") then call (EndCancelled sid aid profile task)
                   else if bool_decide (cls = "UnsupportedFeatureError") then call (EndFailed sid aid profile task msg)
                   else Done (Err e)
  | AmbiguousSendError msg => call (EndUnknown sid aid profile task msg)
  | PolicyDeniedError msg => call (EndFailed sid aid profile task msg)
  | _ => Done (Err e)
  end.

Definition run_task (task : TaskSpec) (context : ContextBundle) (lease : WorkerLease) (profile : AgentProfile)
    (route : option RouteSnapshot) (deterministic allow_hidden_summary : bool) : program TaskAttempt :=
  praise_if allow_hidden_summary (Exn "HiddenCallDeniedError" "hidden_summarization_denied");;
  '(sid, aid) ← call (Start task lease profile route);
  pfinally (ptry (body sid aid task context lease profile route deterministic) (handler sid aid profile task))
    (call (ReleaseFinal sid aid)).

(** Receipts that the gateway does not know are noted. *)
Fixpoint lookup_receipts (aid : string) (ops : list string) : program () :=
  match ops with
  | [] => mret ()
  | op :: ops' =>
    ptry (call (ToolReceipt op);; mret ()) (λ e, match e with
      | KeyError _ => call (Trace aid "tool_receipt_missing" [("operation_id", JStr op)])
      | _ => Done (Err e) end);;
    lookup_receipts aid ops'
  end.
Definition resume (checkpoint : string) : program TaskAttempt :=
  '(aid, ops) ← call (ResumeAttempt checkpoint);
  (if tools then lookup_receipts aid ops else mret ());;
  call (TheAttempt aid).
End methods.

(** ** Execution over services *)
Record Services (X : Type) := mkServices {
  sv_assess : InferenceRequest → M X (list RouteSnapshot);
  sv_reserve : InferenceRequest → RouteSnapshot → M X Reservation;
  sv_invoke : Reservation → M X AttemptReceipt;
  sv_accounted : M X ();
  sv_append_finding : Finding → M X Finding;
  sv_validate : ToolCall → M X ToolCall;
  sv_authorize : ToolCall → M X ToolCall;
  sv_execute : ToolCall → M X ActionReceipt;
  sv_receipt : string → M X ActionReceipt
}.
Arguments sv_assess {X} _ _.
Arguments sv_reserve {X} _ _ _.
Arguments sv_invoke {X} _ _.
Arguments sv_accounted {X} _.
Arguments sv_append_finding {X} _ _.
Arguments sv_validate {X} _ _.
Arguments sv_authorize {X} _ _.
Arguments sv_execute {X} _ _.
Arguments sv_receipt {X} _ _.

(** What an operation of the runtime itself does; [None] for a call of a service. *)
Definition own {R} (o : rt_op R) : option (M Runtime R) :=
  match o with
  | Start task lease profile route => Some (start task lease profile route)
  | WaitForChildren sid aid profile task => Some (wait_for_children sid aid profile task)
  | CheckCancel aid => Some (check_cancel aid)
  | NewFinding sid task content sources => Some (new_finding sid task content sources)
  | Trace aid event payload => Some (_trace aid event payload)
  | CheckCapabilities task route => Some (check_capabilities task route)
  | BeginTurn aid context route => Some (begin_turn aid context route)
  | SelectRoute aid route eligible => Some (select_route aid route eligible)
  | CheckInterrupt aid => Some (check_interrupt aid)
  | NewToolCall aid task lease => Some (new_tool_call aid task lease)
  | Finish sid aid profile task route calls fids ops => Some (finish sid aid profile task route calls fids ops)
  | EndCancelled sid aid profile task => Some (end_cancelled sid aid profile task)
  | EndUnknown sid aid profile task msg => Some (end_unknown sid aid profile task msg)
  | EndFailed sid aid profile task msg => Some (end_failed sid aid profile task msg)
  | ReleaseFinal sid aid => Some (release_final sid aid)
  | ResumeAttempt checkpoint => Some (resume_attempt checkpoint)
  | TheAttempt aid => Some (the_attempt aid)
  | RequestCancel aid => Some (request_cancel aid)
  | Interrupt aid => Some (interrupt_model_response aid)
  | Reroute task profile route => Some (safe_reroute_new_attempt task profile route)
  | Assess _ | AppendFinding _ | Reserve _ _ | Invoke _ | Accounted | ToolValidate _ | ToolAuthorize _ | ToolExecute _
  | ToolReceipt _ => None
  end.
(** What a call of a service does; [None] for an operation of the runtime. *)
Definition outside {X R} (sv : Services X) (o : rt_op R) : option (M X R) :=
  match o with
  | Assess req => Some (sv_assess sv req)
  | Reserve req route => Some (sv_reserve sv req route)
  | Invoke ticket => Some (sv_invoke sv ticket)
  | Accounted => Some (sv_accounted sv)
  | AppendFinding f => Some (sv_append_finding sv f)
  | ToolValidate c => Some (sv_validate sv c)
  | ToolAuthorize c => Some (sv_authorize sv c)
  | ToolExecute c => Some (sv_execute sv c)
  | ToolReceipt op => Some (sv_receipt sv op)
  | _ => None
  end.
Definition perform {X} (sv : Services X) (R : Type) (o : rt_op R) (_ : ()) (w : Runtime * X) : result R * (Runtime * X) :=
  match own o with
  | Some m => zoom fst (λ s w, (s, w.2)) m w
  | None => match outside sv o with
            | Some m => zoom snd (λ x w, (w.1, x)) m w
            | None => (Err AssertionError, w)   (** no such operation *)
            end
  end.
End session.
Abbreviation program := (prog rt_op).
Arguments sv_assess {X} _ _.
Arguments sv_reserve {X} _ _ _.
Arguments sv_invoke {X} _ _.
Arguments sv_accounted {X} _.
Arguments sv_append_finding {X} _ _.
Arguments sv_validate {X} _ _.
Arguments sv_authorize {X} _ _.
Arguments sv_execute {X} _ _.
Arguments sv_receipt {X} _ _.
