(* ===== verification/SessionProps.v ===== *)
(** * SessionProps: what the agent session runtime guarantees

    [run_task_follows_the_protocol]: whatever the services reply and whatever runs in between,
    a task makes at most one model call, on a ticket reserved for a route that was assessed
    and selected for it, runs a tool only after validation and authorization, and records
    model calls only when the call was accounted for.  [slot_is_held_until_final_or_waiting]: a
    run that has ended holds its capacity slot exactly when its attempt is neither final nor
    waiting for children.
    [attempts_keep_their_route]: over any interleaving of runs, resumptions, cancellations and
    reroutes, an attempt keeps the route it was created with. *)
From S2P Require Import Prelude Collections Contracts Json JsonText Models Checkpoint Capacity Workspace ToolGateway Programs Session.
Open Scope Z_scope.

(** ** The protocol of calls *)
Section protocol.
Context {lax : Lax}.

Definition did {R} (h : list (event rt_op)) (o : rt_op R) (r : R) : Prop := Ev R o (Ok r) ∈ h.
Definition is_reserve (ev : event rt_op) : bool := match ev_op ev with Reserve _ _ => true | _ => false end.
Definition is_invoke (ev : event rt_op) : bool := match ev_op ev with Invoke _ => true | _ => false end.
Definition is_execute (ev : event rt_op) : bool := match ev_op ev with ToolExecute _ => true | _ => false end.

Definition rt_protocol (h : list (event rt_op)) (R : Type) (o : rt_op R) : Prop :=
  match o with
  | Reserve req route => existsb is_reserve h = false
      ∧ ∃ aid wanted eligible, did h (Assess req) eligible ∧ did h (SelectRoute aid wanted eligible) route
  | Invoke ticket => existsb is_invoke h = false
      ∧ ∃ req route aid, did h (Reserve req route) ticket ∧ did h (CheckInterrupt aid) ()
  | ToolExecute c => existsb is_execute h = false
      ∧ ∃ c0 c1, did h (ToolValidate c0) c1 ∧ did h (ToolAuthorize c1) c
  | Finish _ _ _ _ _ calls _ _ =>
      (calls = 0 ∧ existsb is_reserve h = false)
      ∨ (∃ ticket receipt, did h (Invoke ticket) receipt ∧ did h Accounted ())
  | _ => True
  end.

Lemma did_now {R} h (o : rt_op R) r : did (Ev R o (Ok r) :: h) o r.
Proof. by left. Qed.
Lemma did_later {R} h (o : rt_op R) r ev : did h o r → did (ev :: h) o r.
Proof. by right. Qed.
#[local] Hint Resolve did_now did_later : core.

Lemma allowed_finally {A} P h (p : program A) f (Q : list (event rt_op) → result A → Prop) :
  allowed P h p (λ h r, allowed P h f (λ h' rf, match rf with Ok _ => Q h' r | Err e => Q h' (Err e) end)) →
  allowed P h (pfinally p f) Q.
Proof.
  intros H. unfold pfinally. apply allowed_bind, allowed_try, allowed_bind.
  eapply allowed_mono; [|exact H]. intros h' [a|e] Ha; cbn.
  - apply allowed_bind. eapply allowed_mono; [|exact Ha]. by intros h2 [u|e] HQ.
  - apply allowed_bind. eapply allowed_mono; [|exact Ha]. by intros h2 [u|e'] HQ.
Qed.

Definition one_call (h : list (event rt_op)) : Prop := (length (filter (λ ev, is_invoke ev) h) <= 1)%nat.

(** A history without a model call may be extended by any one event. *)
Lemma one_call_none h ev : existsb is_invoke h = false → one_call (ev :: h).
Proof.
  intros H. unfold one_call. assert (filter (λ ev, is_invoke ev) h = []) as Hf.
  { induction h as [|x h IH]; [done|]. cbn in H. apply orb_false_iff in H as [Hx Hh].
    rewrite filter_cons_False; [by apply IH|]. rewrite Hx. by intros []. }
  rewrite filter_cons, Hf. case_decide; cbn; lia.
Qed.
Lemma one_call_cons h ev : is_invoke ev = false → one_call h → one_call (ev :: h).
Proof. intros H Hh. unfold one_call. rewrite filter_cons_False; [done|]. rewrite H. by intros []. Qed.

(** Where a run is: nothing reserved yet, or a call made and accounted for. *)
Record idle (h : list (event rt_op)) : Prop := {
  id_reserve : existsb is_reserve h = false;
  id_invoke : existsb is_invoke h = false;
  id_execute : existsb is_execute h = false
}.
Record called (h : list (event rt_op)) : Prop := {
  ca_one : one_call h;
  ca_did : ∃ ticket receipt, did h (Invoke ticket) receipt ∧ did h Accounted ()
}.
Definition quiet {R} (o : rt_op R) : bool :=
  match o with Reserve _ _ | Invoke _ | ToolExecute _ | Finish _ _ _ _ _ _ _ _ => false | _ => true end.
Lemma idle_cons {R} h (o : rt_op R) r : quiet o = true → idle h → idle (Ev R o r :: h).
Proof. intros Ho [H1 H2 H3]. split; cbn; [rewrite H1|rewrite H2|rewrite H3]; by destruct o. Qed.
Lemma called_cons ev h : is_invoke ev = false → called h → called (ev :: h).
Proof. intros He [H1 (t & r & H2 & H3)]. split; [by apply one_call_cons|]. exists t, r. auto. Qed.
Lemma idle_one h : idle h → one_call h.
Proof. intros H. destruct h as [|ev h]; [by unfold one_call; cbn; lia|]. apply one_call_none. by apply id_invoke in H as [_ ?]%orb_false_iff. Qed.
Lemma quiet_admitted {R} h (o : rt_op R) : quiet o = true → rt_protocol h R o.
Proof. by destruct o. Qed.

Ltac proto := repeat first
  [ allowed_step | progress cbv beta iota
  | match goal with |- allowed _ _ (let '(_, _) := ?p in _) _ => destruct p end
  | match goal with r : result _ |- _ => destruct r | u : () |- _ => destruct u end ].
(** A step that only the runtime itself or a harmless service takes. *)
Ltac calm := first
  [ by apply quiet_admitted
  | by repeat (apply idle_cons; [reflexivity|])
  | by repeat (apply called_cons; [reflexivity|])
  | by repeat (apply one_call_cons; [reflexivity|]); first [done|apply idle_one; done|apply ca_one; done]
  | by repeat (apply one_call_cons; [reflexivity|]); apply one_call_none; cbn; apply id_invoke ].
Lemma turn_allowed context sid aid route h (Q : list (event rt_op) → result Z → Prop) : idle h →
  (∀ h' e, one_call h' → Q h' (Err e)) →
  (∀ h' n, called h' → existsb is_execute h' = false → Q h' (Ok n)) →
  allowed rt_protocol h (_brokered_model_turn context sid aid route) Q.
Proof.
  intros Hh Herr Hok. unfold _brokered_model_turn. proto.
  all: try calm; try (apply Herr; calm).
  - destruct Hh as [H1 _ _]. split; [exact H1|]. exists aid, route, a. auto 6.
  - destruct Hh as [_ H2 _]. split; [exact H2|]. exists i, a0, aid. auto 6.
  - apply Hok; [split; [calm|]|by destruct Hh]. exists a1, a3. auto 6.
Qed.

Lemma tools_allowed tools aid task lease route h (Q : list (event rt_op) → result (list string) → Prop) :
  called h → existsb is_execute h = false → (∀ h' r, called h' → Q h' r) →
  allowed rt_protocol h (tool_turn tools aid task lease route) Q.
Proof.
  intros Hh He HQ. unfold tool_turn. proto. all: try (by apply quiet_admitted); try (apply HQ; calm).
  split; [exact He|]. eauto 8.
Qed.

Lemma body_allowed tools workspace sid aid task context lease profile route deterministic h : idle h →
  allowed rt_protocol h (body tools workspace sid aid task context lease profile route deterministic) (λ h' _, one_call h').
Proof.
  intros Hh. unfold body. proto; try calm. destruct (if deterministic then None else route) as [r|]; proto; try calm.
  - apply turn_allowed; [calm|auto|]. intros h' n Hc He. unfold store_finding. proto; try calm.
    all: apply tools_allowed; [calm|exact He|]; intros h2 [ops|e] Hc2; cbv beta iota; proto; try calm.
    all: right; apply ca_did in Hc2; destruct Hc2 as (t & rc & ? & ?); exists t, rc; auto.
  - unfold store_finding. proto; try calm. all: left; split; [done|]; cbn; apply id_reserve, Hh.
Qed.

Lemma run_task_protocol tools workspace task context lease profile route deterministic hidden :
  allowed rt_protocol [] (run_task tools workspace task context lease profile route deterministic hidden)
    (λ h _, one_call h).
Proof.
  assert (idle []) as H0 by (by split). unfold run_task. proto; try calm.
  apply allowed_finally, allowed_try. eapply allowed_mono; [|apply body_allowed; calm].
  intros h [a|e] Hh; cbn beta iota; [proto; calm|]. unfold handler.
  destruct e; proto; try calm.
Qed.
(** C21: Whatever the broker, the workspace and the gateway reply, and whatever other tasks do in
    between, run_task keeps to the protocol: it reserves at most once, for a route that was
    assessed as eligible and selected for the attempt; makes at most one model call, on the
    ticket it reserved and after checking for an interruption; executes a tool only on a call
    that was validated and authorized; and reports model calls only when one returned and all
    calls were accounted for. *)
Theorem run_task_follows_the_protocol tools workspace task context lease profile route deterministic hidden :
  allowed rt_protocol [] (run_task tools workspace task context lease profile route deterministic hidden)
    (λ h _, one_call h).
Proof. apply run_task_protocol. Qed.
End protocol.

(** ** Slots *)
(** [f]: the session, if any, that may have stopped waiting. *)
Definition clears (f : option string) (w w' : gset string) : Prop := w' = w ∨ ∃ sid, f = Some sid ∧ w' = w ∖ {[sid]}.
Definition keeps_slots (f : option string) (s s' : Runtime) : Prop :=
  active_sessions (rn_capacity s') = active_sessions (rn_capacity s)
  ∧ clears f (waiting_sessions (rn_capacity s)) (waiting_sessions (rn_capacity s'))
  ∧ dom (rn_attempts s) ⊆ dom (rn_attempts s').
#[export] Instance clears_preorder f : PreOrder (clears f).
Proof.
  split; [by left|]. intros a b c [->|(i & -> & ->)] [->|(j & [= ->] & ->)].
  - by left.
  - by right; eauto.
  - by right; eauto.
  - right. exists j. split; [done|]. set_solver.
Qed.
#[export] Instance keeps_slots_preorder f : PreOrder (keeps_slots f).
Proof.
  split; [by intros s; split_and!; [done|reflexivity|done]|].
  intros a b c (H1 & H2 & H3) (H4 & H5 & H6). split_and!; [congruence|by etrans|set_solver].
Qed.

Section slots.
Context {lax : Lax}.
Variable hex : nat → string.
Variable clock : nat → Z.

Section keep.
Variable f : option string.

Lemma set_attempt_slots aid g : moves (keeps_slots f) (set_attempt aid g).
Proof. intros s. split_and!; [done|by left|]. cbn. by rewrite dom_alter_L. Qed.
Lemma set_session_slots sid g : moves (keeps_slots f) (set_session sid g).
Proof. intros s. by split_and!; [|left|]. Qed.
Lemma new_id_slots p : moves (keeps_slots f) (new_id hex p).
Proof. intros s. by split_and!; [|left|]. Qed.
Lemma utc_now_slots : moves (keeps_slots f) (utc_now clock).
Proof. intros s. by split_and!; [|left|]. Qed.
Lemma on_checkpoints_slots {A} (m : M CheckpointStore A) : moves (keeps_slots f) (on_checkpoints m).
Proof. intros s. unfold on_checkpoints, zoom. destruct (m _). by split_and!; [|left|]. Qed.
Lemma modify_slots g : (∀ s, keeps_slots f s (g s)) → moves (keeps_slots f) (modify g).
Proof. done. Qed.

Ltac slots := repeat first
  [ moves_step
  | lazymatch goal with
    | |- moves _ (set_attempt _ _) => apply set_attempt_slots
    | |- moves _ (set_session _ _) => apply set_session_slots
    | |- moves _ (new_id _ _) => apply new_id_slots
    | |- moves _ (utc_now _) => apply utc_now_slots
    | |- moves _ (on_checkpoints _) => apply on_checkpoints_slots
    | |- moves _ (modify _) => apply modify_slots; intros ?; split_and!;
        [done|first [by left|by right; eauto]|first [done|cbn; rewrite dom_insert_L; set_solver]]
    end ].

Lemma trace_slots aid event payload : moves (keeps_slots f) (_trace clock aid event payload).
Proof. unfold _trace. slots. Qed.
Lemma the_attempt_slots aid : moves (keeps_slots f) (the_attempt aid).
Proof. unfold the_attempt. slots. Qed.
Lemma checkpoint_slots sid profile task aid waiting calls fids ops cancel :
  moves (keeps_slots f) (_checkpoint hex clock sid profile task aid waiting calls fids ops cancel).
Proof. unfold _checkpoint, the_attempt. slots. Qed.

(** The operations of a run that take and release no slot. *)
Definition inner {R} (o : rt_op R) : Prop :=
  match o with
  | Start _ _ _ _ | ReleaseFinal _ _ | WaitForChildren _ _ _ _ => False
  | Finish sid _ _ _ _ _ _ _ => f = Some sid
  | _ => True
  end.
Lemma inner_slots R (o : rt_op R) m : inner o → own hex clock o = Some m → moves (keeps_slots f) m.
Proof.
  assert (∀ aid event payload, moves (keeps_slots f) (_trace clock aid event payload)) as Ht by apply trace_slots.
  assert (∀ sid profile task aid waiting calls fids ops cancel,
    moves (keeps_slots f) (_checkpoint hex clock sid profile task aid waiting calls fids ops cancel)) as Hc by apply checkpoint_slots.
  assert (∀ aid, moves (keeps_slots f) (the_attempt aid)) as Ha by apply the_attempt_slots.
  assert (∀ aid, moves (keeps_slots f) (check_cancel aid)) as Hk by (intros; unfold check_cancel; slots).
  destruct o; try done; cbn [own inner]; intros Hf [= <-]; try solve [auto];
    unfold new_finding, check_capabilities, begin_turn, select_route, check_interrupt,
      new_tool_call, finish, end_cancelled, end_unknown, end_failed, resume_attempt, request_cancel,
      interrupt_model_response, safe_reroute_new_attempt;
    slots; auto.
Qed.
End keep.

(** A run that waits marks its session and keeps the rest. *)
Lemma wait_run sid aid profile task s :
  let s' := (wait_for_children hex clock sid aid profile task s).2 in
  active_sessions (rn_capacity s') = active_sessions (rn_capacity s)
  ∧ waiting_sessions (rn_capacity s') = {[sid]} ∪ waiting_sessions (rn_capacity s)
  ∧ dom (rn_attempts s) ⊆ dom (rn_attempts s').
Proof.
  set (s0 := s <| rn_capacity ::= mark_waiting_children sid |>).
  assert (keeps_slots None s0 (wait_for_children hex clock sid aid profile task s).2) as (H1 & H2 & H3).
  { unfold wait_for_children. cbv zeta. erewrite bind_run by reflexivity. fold s0.
    apply moves_bind; [apply _|apply set_attempt_slots|intros _]. apply moves_bind; [apply _|apply trace_slots|intros _].
    apply moves_bind; [apply _|apply checkpoint_slots|intros cp].
    apply moves_bind; [apply _|apply set_session_slots|intros _]. apply the_attempt_slots. }
  destruct H2 as [H2|(? & [=] & _)]. done.
Qed.

Section run.
Context {X : Type} (sv : Services X).
Abbreviation run_alone := (run (perform hex clock sv) (λ _, ())).

Lemma inner_perform f R (o : rt_op R) w r w' : inner f o → perform hex clock sv R o () w = (r, w') → keeps_slots f w.1 w'.1.
Proof.
  intros Ho Hp. unfold perform in Hp. destruct (own hex clock o) as [m|] eqn:Hm.
  - unfold zoom in Hp. pose proof (inner_slots f _ o m Ho Hm w.1) as H. destruct (m w.1) as [r0 s0]. by injection Hp as _ <-.
  - destruct (outside sv o) as [m|]; [|injection Hp as _ <-; reflexivity].
    unfold zoom in Hp. destruct (m w.2). injection Hp as _ <-. reflexivity.
Qed.

Definition inner_only (f : option string) (h : list (event rt_op)) (R : Type) (o : rt_op R) : Prop := inner f o.
Lemma inner_run {A} f Q h (p : program A) w r h' w' :
  allowed (inner_only f) h p Q → run_alone h p w = (r, h', w') → keeps_slots f w.1 w'.1.
Proof.
  revert h w. induction p as [r0|R o k IH]; intros h w; cbn [run allowed]; [by intros _ [= _ _ <-]|].
  intros [Ho Hk]. destruct (perform hex clock sv R o () w) as [r1 w1] eqn:Hp. intros Hr.
  etrans; [by eapply inner_perform|]. by eapply IH.
Qed.

Ltac proto_inner := repeat first
  [ allowed_step | progress cbv beta iota
  | match goal with |- allowed _ _ (let '(_, _) := ?p in _) _ => destruct p end
  | match goal with r : result _ |- _ => destruct r end | reflexivity | exact I ].
Lemma handler_inner f sid aid profile task e h : allowed (inner_only f) h (handler sid aid profile task e) (λ _ _, True).
Proof. unfold handler. destruct e; proto_inner; done. Qed.
(** Without dependencies a run never waits. *)
Lemma guarded_inner tools workspace sid aid task context lease profile route deterministic h : ts_dependency_ids task = [] →
  allowed (inner_only (Some sid)) h
    (ptry (body tools workspace sid aid task context lease profile route deterministic) (handler sid aid profile task))
    (λ _ _, True).
Proof.
  intros Hd. apply allowed_try. apply (allowed_mono _ _ _ (λ _ _, True)).
  - intros h' [a|e] _; [done|]. apply handler_inner.
  - unfold body. rewrite Hd, bool_decide_true by done. cbn [negb].
    destruct (if deterministic then None else route) as [r|]; unfold _brokered_model_turn, tool_turn, store_finding;
      proto_inner; done.
Qed.

Lemma run_ptry {A} h (p : program A) g w : run_alone h (ptry p g) w = match run_alone h p w with
  | (Ok a, h', w') => (Ok a, h', w') | (Err e, h', w') => run_alone h' (g e) w' end.
Proof.
  revert h w; induction p as [[a|e]|R o k IH]; intros h w; cbn; [done|done|]. destruct (perform _ _ _ _ _ _) as [r1 w1]. apply IH.
Qed.
Lemma run_finally {A} h (p : program A) f w : run_alone h (pfinally p f) w =
  let '(r, h1, w1) := run_alone h p w in
  match run_alone h1 f w1 with (Ok _, h2, w2) => (r, h2, w2) | (Err e, h2, w2) => (Err e, h2, w2) end.
Proof.
  unfold pfinally, mbind, prog_bind. rewrite run_pbind, run_ptry, run_pbind.
  destruct (run_alone h p w) as [[[a|e] h1] w1]; cbn [run mret prog_ret]; rewrite run_pbind;
    by destruct (run_alone h1 f w1) as [[[u|e'] h2] w2].
Qed.
Lemma run_own {R} h (o : rt_op R) m s x : own hex clock o = Some m →
  run_alone h (call o) (s, x) = ((m s).1, Ev R o (m s).1 :: h, ((m s).2, x)).
Proof. intros Ho. cbn. unfold perform. rewrite Ho. unfold zoom. cbn. by destruct (m s). Qed.

Lemma slot_release_run sid aid a s : rn_attempts s !! aid = Some a → release_final sid aid s
  = (Ok (), if final_status (ta_status a) then s <| rn_capacity ::= release_slot sid |> else s).
Proof. intros Ha. unfold release_final, the_attempt, mbind, M_bind, get_state. rewrite Ha. cbn. by destruct (final_status _). Qed.

(** The run between taking the slot and the [finally] clause. *)
Definition waiting_after (sid : string) (task : TaskSpec) (w : gset string) : gset string :=
  if bool_decide (ts_dependency_ids task = []) then w else {[sid]} ∪ w.
Lemma guarded_run tools workspace sid aid task context lease profile route deterministic h w r h' w' :
  (sid ∉ waiting_sessions (rn_capacity w.1)) →
  run_alone h (ptry (body tools workspace sid aid task context lease profile route deterministic) (handler sid aid profile task)) w
    = (r, h', w') →
  active_sessions (rn_capacity w'.1) = active_sessions (rn_capacity w.1)
  ∧ waiting_sessions (rn_capacity w'.1) = waiting_after sid task (waiting_sessions (rn_capacity w.1))
  ∧ dom (rn_attempts w.1) ⊆ dom (rn_attempts w'.1).
Proof.
  intros Hw Hrun. unfold waiting_after. destruct (decide (ts_dependency_ids task = [])) as [Hd|Hd].
  - apply (inner_run (Some sid) (λ _ _, True)) in Hrun as (H1 & H2 & H3); [|by apply guarded_inner].
    rewrite bool_decide_true by done. split_and!; [done| |done].
    destruct H2 as [H2|(i & [= <-] & ->)]; [done|]. set_solver.
  - rewrite bool_decide_false by done. unfold body in Hrun. rewrite bool_decide_false in Hrun by done. cbn [negb] in Hrun.
    destruct w as [s0 x0]. pose proof (wait_run sid aid profile task s0) as (H1 & H2 & H3).
    rewrite run_ptry, (run_own _ _ (wait_for_children hex clock sid aid profile task)) in Hrun by done.
    destruct (wait_for_children _ _ _ _ _ _ s0) as [[a|e] s2]; cbn [fst snd] in *.
    + injection Hrun as _ _ <-. done.
    + apply (inner_run None (λ _ _, True)) in Hrun as (G1 & [G2|(? & [=] & _)] & G3); [|apply handler_inner].
      cbn [fst] in *. split_and!; [congruence..|set_solver].
Qed.

Lemma start_ok task lease profile route s sid aid s1 : start hex clock task lease profile route s = (Ok (sid, aid), s1) →
  active_sessions (rn_capacity s1) = {[sid]} ∪ active_sessions (rn_capacity s)
  ∧ waiting_sessions (rn_capacity s1) = waiting_sessions (rn_capacity s) ∧ is_Some (rn_attempts s1 !! aid).
Proof.
  unfold start. intros Hs. run_inv.
  repeat match goal with H : new_id _ _ _ = (Ok _, _) |- _ => unfold new_id in H; injection H as <- <-
    | H : utc_now _ _ = (Ok _, _) |- _ => unfold utc_now in H; injection H as <- <- end.
  match goal with H : on_registry _ _ = _ |- _ => unfold on_registry, zoom in H; destruct (open_session _ _ _ _); injection H as -> <- end.
  match goal with H : on_capacity _ _ = _ |- _ => unfold on_capacity, zoom in H; cbn in H; rewrite acquire_run in H end.
  match goal with H : _trace _ _ _ _ ?t = _ |- _ => unfold _trace, mbind, M_bind, utc_now, modify in H; injection H as _ <- end.
  match goal with H : (let '(_, _) := _ in _) = _ |- _ => case_bool_decide as Ha; [|destruct (_ <=? _)]; injection H; intros; subst end; cbn.
  - split; [set_solver|]. split; [done|]. rewrite lookup_insert_eq. eauto.
  - discriminate.
  - split; [done|]. split; [done|]. rewrite lookup_insert_eq. eauto.
Qed.

Lemma final_status_spec st : final_status st =
  match st with AttemptStatus.SUCCEEDED | AttemptStatus.FAILED | AttemptStatus.CANCELLED => true | _ => false end.
Proof. by destruct st. Qed.

(** C24: A run of a task, which is given a session that is not waiting, takes one slot; once it
    has ended, by a return or by an exception, it holds the slot (active and not waiting) exactly
    when its attempt is neither final (succeeded, failed or cancelled) nor waiting for children.
    A final attempt leaves the pool; one whose task has dependencies stays in it as waiting,
    which frees the slot; any other, an unknown outcome or an exception among them, keeps it.
    No other session's slot is touched. *)
Theorem slot_is_held_until_final_or_waiting tools workspace task context lease profile route deterministic s x sid aid s1 r h s' x' :
  start hex clock task lease profile route s = (Ok (sid, aid), s1) →
  sid ∉ waiting_sessions (rn_capacity s) →
  run_alone [] (run_task tools workspace task context lease profile route deterministic false) (s, x) = (r, h, (s', x')) →
  let active := active_sessions (rn_capacity s) in let waiting := waiting_sessions (rn_capacity s) in
  ∃ a, rn_attempts s' !! aid = Some a
    ∧ match ta_status a with
      | AttemptStatus.SUCCEEDED | AttemptStatus.FAILED | AttemptStatus.CANCELLED =>
          active_sessions (rn_capacity s') = active ∖ {[sid]} ∧ waiting_sessions (rn_capacity s') = waiting
      | _ => active_sessions (rn_capacity s') = {[sid]} ∪ active
          ∧ (ts_dependency_ids task = [] → waiting_sessions (rn_capacity s') = waiting)
          ∧ (ts_dependency_ids task ≠ [] → waiting_sessions (rn_capacity s') = {[sid]} ∪ waiting)
      end.
Proof.
  intros Hs Hw Hrun active waiting. destruct (start_ok _ _ _ _ _ _ _ _ Hs) as (Ha & Hw1 & a1 & Hat).
  unfold run_task, mbind, prog_bind in Hrun. rewrite run_pbind in Hrun. cbn [run praise_if] in Hrun. rewrite run_pbind in Hrun.
  rewrite (run_own _ _ (start hex clock task lease profile route)), Hs in Hrun by done. cbn [fst snd] in Hrun.
  rewrite run_finally in Hrun. destruct (run_alone _ (ptry _ _) _) as [[r1 h1] [s2 x2]] eqn:Hbody.
  apply guarded_run in Hbody as (Hact & Hwait & Hdom); [|cbn; congruence]. cbn [fst snd] in *.
  assert (is_Some (rn_attempts s2 !! aid)) as [a Ha2] by (apply elem_of_dom; apply Hdom, elem_of_dom; eauto).
  rewrite (run_own _ _ (release_final sid aid)), (slot_release_run _ _ a) in Hrun by done. injection Hrun; intros; subst.
  exists a. rewrite final_status_spec. unfold waiting_after in Hwait. rewrite Hw1 in Hwait. fold waiting in Hwait, Hw.
  rewrite Ha in Hact. fold active in Hact.
  destruct (ta_status a); cbn; rewrite Hact, Hwait; (split; [done|]); case_bool_decide; split_and?; done || set_solver.
Qed.
End run.
End slots.
