(* ===== verification/SessionRoutes.v ===== *)
(** * SessionRoutes: an attempt keeps its route

    Attempts are created by runs, by reroutes and, from a checkpoint, by resumptions; a
    resumption writes the checkpoint's route to the attempt.  The invariant [routed] says that
    all attempts and all checkpoints, in memory or in files, that have the same attempt id
    agree on the route, and that ids not drawn yet occur nowhere.  Every operation of the
    runtime keeps it and changes the route of no attempt, so that over any interleaving of
    programs an attempt has the route it was created with.

    Of [uuid4] it is assumed that draws differ and have no white space; routes are validated
    models, whose ids are trimmed. *)
From S2P Require Import Prelude Collections Contracts Json JsonText Models Checkpoint Capacity Workspace ToolGateway Programs Session SessionProps.
From Stdlib Require Import Ascii.
Open Scope Z_scope.

(** ** Checkpoints a store can return *)
Section known.
Context {lax : Lax}.

Definition known (st : CheckpointStore) (c : SessionCheckpoint) : Prop :=
  (∃ id, cs_mem st !! id = Some c)
  ∨ ∃ path text j fresh now, cs_files st !! path = Some text ∧ loads text = Some j ∧ model_validate fresh now j = Some c.

Lemma known_save st c c0 : valid_checkpoint c → known (save c st).2 c0 → known st c0 ∨ c0 = c.
Proof.
  intros Hv. rewrite save_run. destruct (to_serializable c); [|by left]. unfold saved, known. cbn [snd cs_mem cs_files].
  intros [[id [[_ <-]|[_ H]]%lookup_insert_Some]|(path & text & j & fresh & now & Hf & Hl & Hm)]; [by right|left; eauto|].
  destruct (cs_root st) as [root|]; [|left; right; eauto 10].
  apply lookup_insert_Some in Hf as [[_ <-]|[_ Hf]]; [right|left; right; eauto 10].
  destruct (saved_text_loads fresh now c Hv) as [H1 H2]. congruence.
Qed.

Lemma known_load fresh now id st : (∀ c0, known (load fresh now id st).2 c0 → known st c0)
  ∧ (∀ c, (load fresh now id st).1 = Ok c → known st c).
Proof.
  destruct (cs_mem st !! id) as [c|] eqn:Hm.
  { rewrite (load_hit _ _ _ c) by done. split; [done|]. intros c' [= <-]. left. eauto. }
  destruct (cs_root st) as [root|] eqn:Hr; [|unfold load, mbind, M_bind, gets; rewrite Hm, Hr; by split].
  destruct (cs_files st !! path_of root id) as [text|] eqn:Hf; [|rewrite (load_missing _ _ _ root) by done; by split].
  rewrite (load_file _ _ _ root text) by done. destruct (loads text) as [j|] eqn:Hj; [|by split].
  destruct (model_validate fresh now j) as [c|] eqn:Hc; [|by split].
  assert (known st c) as Hk by (right; eauto 10). split; cbn.
  - intros c0. unfold known at 1. cbn [cs_mem cs_files].
    intros [[id' [[_ <-]|[_ H]]%lookup_insert_Some]|H]; [done|left; eauto|right; exact H].
  - by intros c' [= <-].
Qed.

(** Ids of a document that validates are trimmed, whatever its defaults. *)
Lemma validate_ids fresh now j c : wf_json j → model_validate fresh now j = Some c →
  trim (cp_attempt_id c) = cp_attempt_id c ∧ (trim <$> cp_route_id c) = cp_route_id c.
Proof.
  intros Hj H. unfold model_validate in H. destruct j as [| | | | |d]; try discriminate. destruct (negb _); [discriminate|].
  repeat match goal with H : (_ ≫= _) = Some _ |- _ => apply bind_Some in H as (? & ? & H) end.
  injection H as <-. cbn [cp_attempt_id cp_route_id]. split.
  - match goal with H : get_field str_codec None d "attempt_id" = Some ?x |- _ =>
      exact (get_field_valid str_codec None d _ x Hj H ltac:(done)) end.
  - match goal with H : get_field optional_str _ d "route_id" = Some ?x |- _ =>
      assert (valid optional_str x) as Hv by (apply (get_field_valid _ _ _ _ _ Hj H); by intros b [= <-]) end.
    match goal with |- (trim <$> ?x) = ?x => destruct x as [y|]; [|done] end. cbn in *. by rewrite Hv.
Qed.
End known.

(** ** Validated checkpoints *)
Section validated_checkpoint.
Context {lax : Lax}.

Definition rows_wf (rows : list (dict json)) : Prop := Forall (Forall (λ kv : string * json, wf_json kv.2)) rows.

Lemma insert_all_trimmed {V} (P : V → Prop) (kvs : list (string * V)) : Forall (λ kv, P kv.2) kvs →
  Forall (λ kv, trim kv.1 = kv.1 ∧ P kv.2) (insert_all ((λ kv, (trim kv.1, kv.2)) <$> kvs)).
Proof.
  intros H. apply Forall_forall. intros [k v] Hk%insert_all_elem. apply list_elem_of_fmap in Hk as ([k0 v0] & [= -> ->] & Hk).
  cbn. split; [apply trim_trim|]. rewrite Forall_forall in H. by apply (H _ Hk).
Qed.
Lemma trimmed_list (l : list string) : Forall (λ s, trim s = s) (trim <$> l).
Proof. apply Forall_fmap, Forall_forall. intros s _. apply trim_trim. Qed.

Lemma validated_valid c : rows_wf (cp_decision_trace c) → valid_checkpoint (validated c).
Proof.
  intros Ht. split; cbn [validated cp_schema_version cp_checkpoint_id cp_session_id cp_agent_profile_id cp_task_id cp_attempt_id
    cp_route_id cp_tool_operation_ids cp_artifact_refs cp_finding_ids cp_waiting_for_children cp_decision_trace
    cp_resource_usage cp_created_at]; try apply trim_trim; try apply trimmed_list.
  - destruct (cp_route_id c); [|done]. apply trim_trim.
  - apply Forall_fmap. eapply Forall_impl; [exact Ht|]. intros row Hrow. cbn. split; [apply insert_all_nodup|].
    by apply (insert_all_trimmed wf_json).
  - split; [apply insert_all_nodup|]. apply (insert_all_trimmed (λ _, True)). by apply Forall_forall.
Qed.
End validated_checkpoint.

(** ** The invariant *)
Definition stable (s s' : Runtime) : Prop := ∀ aid a, rn_attempts s !! aid = Some a →
  ∃ a', rn_attempts s' !! aid = Some a' ∧ ta_selected_route_id a' = ta_selected_route_id a ∧ ta_task_id a' = ta_task_id a.

Section routes.
Context {lax : Lax}.
Variable hex : nat → string.
Variable clock : nat → Z.
Hypothesis hex_inj : Inj (=) (=) hex.
Hypothesis hex_plain : ∀ n, forallb (λ c, negb (white_space c)) (of_string (hex n)) = true.

Definition att (n : nat) : string := "att_" +:+ hex n.
Lemma att_inj n m : att n = att m → n = m.
Proof.
  intros H. apply (f_equal of_string) in H. unfold att in H. rewrite !of_string_app in H. apply app_inv_head in H.
  apply hex_inj. by rewrite <- (to_of_string (hex n)), H, to_of_string.
Qed.

Lemma att_trim n : trim (att n) = att n.
Proof. apply trim_plain. unfold att. rewrite of_string_app, forallb_app, hex_plain. reflexivity. Qed.

Record routed_by (ρ : string → option string) (s : Runtime) : Prop := {
  rb_attempt : ∀ aid a, rn_attempts s !! aid = Some a →
    ta_selected_route_id a = ρ aid ∧ trim aid = aid ∧ (trim <$> ρ aid) = ρ aid;
  rb_known : ∀ c, known (rn_checkpoints s) c → cp_route_id c = ρ (cp_attempt_id c)
    ∧ trim (cp_attempt_id c) = cp_attempt_id c ∧ (trim <$> cp_route_id c) = cp_route_id c;
  rb_rows : ∀ aid rows, rn_traces s !! aid = Some rows → rows_wf rows;
  rb_fresh : ∀ n, (rn_draws s <= n)%nat → rn_attempts s !! att n = None
    ∧ ∀ c, known (rn_checkpoints s) c → cp_attempt_id c ≠ att n
}.
Definition routed (s : Runtime) : Prop := ∃ ρ, routed_by ρ s.

Definition R (s s' : Runtime) : Prop := routed s → routed s' ∧ stable s s'.
#[export] Instance R_preorder : PreOrder R.
Proof.
  split.
  - intros s H. split; [done|]. intros aid a Ha. by exists a.
  - intros a b c H1 H2 Ha. destruct (H1 Ha) as [Hb S1]. destruct (H2 Hb) as [Hc S2]. split; [done|].
    intros aid x Hx. destruct (S1 _ _ Hx) as (y & Hy & ? & ?). destruct (S2 _ _ Hy) as (z & Hz & ? & ?).
    exists z. split_and!; [done|congruence|congruence].
Qed.

(** What does not touch attempts, checkpoints and traces. *)
Lemma frame_R s s' : rn_attempts s' = rn_attempts s → rn_checkpoints s' = rn_checkpoints s →
  rn_traces s' = rn_traces s → (rn_draws s <= rn_draws s')%nat → R s s'.
Proof.
  intros Ha Hc Ht Hd [ρ [H1 H2 H3 H4]]. split.
  - exists ρ. split; rewrite ?Ha, ?Hc, ?Ht; auto. intros n Hn. apply H4. lia.
  - intros aid a H. exists a. by rewrite Ha.
Qed.
Lemma new_id_R p : moves R (new_id hex p).
Proof. intros s. apply frame_R; cbn; auto. Qed.
Lemma utc_now_R : moves R (utc_now clock).
Proof. intros s. by apply frame_R. Qed.
Lemma set_session_R sid f : moves R (set_session sid f).
Proof. intros s. by apply frame_R. Qed.

Lemma set_attempt_R aid f :
  (∀ a, ta_selected_route_id (f a) = ta_selected_route_id a ∧ ta_task_id (f a) = ta_task_id a) → moves R (set_attempt aid f).
Proof.
  intros Hf s [ρ [H1 H2 H3 H4]]. split.
  - exists ρ. split; cbn; auto.
    + intros k a Ha. apply lookup_alter_Some in Ha as [[-> (b & Hb & ->)]|[Hn Ha]]; [|by apply H1].
      destruct (Hf b) as [-> _]. by apply H1.
    + intros n Hn. destruct (H4 n Hn) as [H5 H6]. split; [|done]. apply lookup_alter_None, H5.
  - intros k a Ha. cbn. destruct (decide (aid = k)) as [<-|Hn].
    + exists (f a). rewrite lookup_alter_eq, Ha. by destruct (Hf a).
    + exists a. by rewrite lookup_alter_ne.
Qed.

Lemma trace_R aid event payload : Forall (λ kv, wf_json kv.2) payload → moves R (_trace clock aid event payload).
Proof.
  intros Hp s. unfold _trace, mbind, M_bind, utc_now, modify. cbn [fst snd]. intros [ρ [H1 H2 H3 H4]]. split; [|intros k a Ha; by exists a].
  exists ρ. split; cbn; auto. intros k rows [[<- <-]|[_ H]]%lookup_insert_Some; [|by eapply H3].
  apply Forall_app. split.
  - destruct (rn_traces s !! aid) eqn:E; [by eapply H3|constructor].
  - constructor; [|constructor]. constructor; [done|]. apply Forall_app. split; [done|]. by repeat constructor.
Qed.

(** A checkpoint of an attempt agrees with it. *)
Lemma save_R c s : rows_wf (cp_decision_trace c) →
  (∃ a, rn_attempts s !! cp_attempt_id c = Some a ∧ cp_route_id c = ta_selected_route_id a) →
  R s (on_checkpoints (save (validated c)) s).2.
Proof.
  intros Hrows (a & Ha & Hroute) [ρ [H1 H2 H3 H4]]. destruct (H1 _ _ Ha) as (Hr & Htrim & Hrt).
  unfold on_checkpoints, zoom. destruct (save (validated c) (rn_checkpoints s)) as [r st] eqn:Hs.
  assert (∀ c0, known st c0 → known (rn_checkpoints s) c0 ∨ c0 = validated c) as Hk.
  { intros c0 H. apply known_save; [by apply validated_valid|]. by rewrite Hs. }
  split; [|intros k x Hx; by exists x]. exists ρ. split; cbn; auto.
  - intros c0 [H| ->]%Hk; [by apply H2|]. cbn [validated cp_route_id cp_attempt_id].
    rewrite Htrim, Hroute, Hr. split_and!; [done|done|by rewrite !Hrt].
  - intros n Hn. destruct (H4 n Hn) as [H5 H6]. split; [done|]. intros c0 [H| ->]%Hk; [by apply H6|].
    cbn [validated cp_attempt_id]. rewrite Htrim. intros E. rewrite E in Ha. congruence.
Qed.

Lemma no_client_field c serial : to_serializable c = Ok serial →
  match serial with JObj d => dict_mem d "runtime_client" | _ => false end = false.
Proof. intros ->%to_serializable_Ok. reflexivity. Qed.

(** [_checkpoint] as one step. *)
Lemma checkpoint_R sid profile task aid waiting calls fids ops cancel :
  moves R (_checkpoint hex clock sid profile task aid waiting calls fids ops cancel).
Proof.
  intros s. unfold _checkpoint. apply moves_at; [apply _|apply moves_reads; [apply _|]; intros t; unfold the_attempt, mbind, M_bind, get_state; by destruct (_ !! _)|].
  intros a s0 Ha. unfold the_attempt in Ha. run_inv.
  apply moves_at; [apply _|apply new_id_R|]. intros id s1 H1. unfold new_id in H1. injection H1 as <- <-.
  apply moves_at; [apply _|apply utc_now_R|]. intros now s2 H2. unfold utc_now in H2. injection H2 as <- <-.
  match goal with |- R ?t _ => set (s2 := t) end.
  apply moves_at; [apply _|apply (moves_get R)|]. intros t s3 Ht. unfold get_state in Ht. injection Ht as <- <-.
  set (c := mkSessionCheckpoint _ _ _ _ _ _ _ _ _ _ _ _ _ _ _ _ _ _).
  apply moves_at; [apply _|apply (moves_of_result R)|]. intros serial s3 [Hser ->]%of_result_Ok.
  rewrite (no_client_field _ _ Hser). apply moves_at; [apply _|apply (moves_raise_if R)|]. intros u s3 [_ ->]%raise_if_Ok.
  intros Hr2. refine (save_R c s2 _ _ Hr2); [|by exists a]. destruct Hr2 as [ρ Hr].
  unfold c. cbn [cp_decision_trace]. destruct (rn_traces s2 !! aid) eqn:E; [by eapply (rb_rows _ _ Hr)|constructor].
Qed.

(** An attempt under a fresh id. *)
Lemma insert_R n a s : (rn_draws s <= n)%nat → (trim <$> ta_selected_route_id a) = ta_selected_route_id a →
  ∀ s', rn_attempts s' = <[att n := a]> (rn_attempts s) → rn_checkpoints s' = rn_checkpoints s →
  rn_traces s' = rn_traces s → (n < rn_draws s')%nat → R s s'.
Proof.
  intros Hn Hroute s' Hat Hcp Htr Hdr [ρ [H1 H2 H3 H4]]. destruct (H4 n Hn) as [Hnone Hunk]. split.
  - exists (λ k, if decide (k = att n) then ta_selected_route_id a else ρ k). split; rewrite ?Hat, ?Hcp, ?Htr; auto.
    + intros k x [[<- <-]|[Hne Hx]]%lookup_insert_Some; [rewrite decide_True by done|rewrite decide_False by done; by apply H1].
      split_and!; [done|apply att_trim|done].
    + intros c Hc. rewrite decide_False by by apply Hunk. by apply H2.
    + intros m Hm. destruct (H4 m) as [H5 H6]; [lia|]. split; [|done]. rewrite lookup_insert_ne; [done|]. intros ?%att_inj. lia.
  - intros k x Hx. exists x. rewrite Hat. split_and!; [|done|done]. rewrite lookup_insert_ne; [done|]. intros <-. congruence.
Qed.

(** An attempt made from a checkpoint that is known. *)
Lemma revive_R c now s : known (rn_checkpoints s) c → rn_attempts s !! cp_attempt_id c = None →
  R s (s <| rn_attempts ::= <[cp_attempt_id c := mkTaskAttempt (cp_attempt_id c) (cp_task_id c) (cp_agent_profile_id c)
         (cp_route_id c) None 0 (cp_attempt_status c) now None None None None]> |>).
Proof.
  intros Hc Hnone [ρ [H1 H2 H3 H4]]. destruct (H2 c Hc) as (Hr & Ht & Hrt). split.
  - exists ρ. split; cbn; auto.
    + intros k x [[<- <-]|[Hne Hx]]%lookup_insert_Some; [|by apply H1]. cbn. rewrite <- Hr. done.
    + intros n Hn. destruct (H4 n Hn) as [H5 H6]. split; [|done]. rewrite lookup_insert_ne; [done|]. by apply H6.
  - intros k x Hx. exists x. cbn. rewrite lookup_insert_ne; [done|]. intros <-. congruence.
Qed.

(** The route of a known checkpoint written to its attempt changes nothing. *)
Lemma rewrite_route_R c s : known (rn_checkpoints s) c →
  R s (set_attempt (cp_attempt_id c) (λ a, a <| ta_selected_route_id := cp_route_id c |>) s).2.
Proof.
  intros Hc [ρ Hr]. destruct (rb_known _ _ Hr c Hc) as (Hρ & _ & _).
  assert (rn_attempts (set_attempt (cp_attempt_id c) (λ a, a <| ta_selected_route_id := cp_route_id c |>) s).2 = rn_attempts s) as E.
  { cbn. apply map_eq. intros k. destruct (decide (cp_attempt_id c = k)) as [<-|Hn]; [|by rewrite lookup_alter_ne].
    rewrite lookup_alter_eq. destruct (rn_attempts s !! cp_attempt_id c) as [a|] eqn:Ha; [|done].
    destruct (rb_attempt _ _ Hr _ _ Ha) as (Ha' & _). cbn. f_equal. rewrite Hρ, <- Ha'. by destruct a. }
  apply (frame_R s); [exact E|done|done|done|by exists ρ].
Qed.

Lemma on_registry_R {A} (m : M SessionRegistry A) : moves R (on_registry m).
Proof. intros s. unfold on_registry, zoom. destruct (m _). by apply frame_R. Qed.
Lemma on_capacity_R {A} (m : M CapacityPool A) : moves R (on_capacity m).
Proof. intros s. unfold on_capacity, zoom. destruct (m _). by apply frame_R. Qed.
Lemma json_opt_wf o : wf_json (json_opt o).
Proof. by destruct o. Qed.
Lemma json_strs_wf l : wf_json (json_strs l).
Proof. apply wf_list, Forall_fmap, Forall_forall. done. Qed.

Definition trimmed_route (r : RouteSnapshot) : Prop := trim (rt_route_id r) = rt_route_id r.

Lemma start_R task lease profile route : (∀ r, route = Some r → trimmed_route r) → moves R (start hex clock task lease profile route).
Proof.
  intros Hr. unfold start. apply moves_bind; [apply _|apply new_id_R|intros sid].
  apply moves_bind; [apply _|apply on_registry_R|intros _]. apply moves_bind; [apply _|apply on_capacity_R|intros _].
  intros s. do 3 (erewrite bind_run by reflexivity).
  match goal with |- R _ (_ ?t).2 => transitivity t end.
  - eapply (insert_R (rn_draws s)); [lia| |reflexivity|reflexivity|reflexivity|cbn; lia].
    cbn. destruct route as [r|]; [|done]. cbn. by rewrite (Hr r).
  - apply moves_bind; [apply _| |intros _; apply (moves_ret R)]. apply trace_R.
    repeat constructor. apply json_opt_wf.
Qed.

Lemma reroute_R task profile route : trimmed_route route → moves R (safe_reroute_new_attempt hex clock task profile route).
Proof.
  intros Hr s. unfold safe_reroute_new_attempt. do 3 (erewrite bind_run by reflexivity).
  match goal with |- R _ (_ ?t).2 => transitivity t end.
  - eapply (insert_R (rn_draws s)); [lia| |reflexivity|reflexivity|reflexivity|cbn; lia]. cbn. by rewrite Hr.
  - apply moves_bind; [apply _| |intros _; apply (moves_ret R)]. apply trace_R. by repeat constructor.
Qed.

Lemma load_R fresh now id s : R s (on_checkpoints (load fresh now id) s).2.
Proof.
  unfold on_checkpoints, zoom. destruct (known_load fresh now id (rn_checkpoints s)) as [Hk _].
  destruct (load fresh now id (rn_checkpoints s)) as [r st]. cbn [snd] in Hk. intros [ρ [H1 H2 H3 H4]].
  split; [|intros k a Ha; by exists a]. exists ρ. split; cbn; auto.
  intros n Hn. destruct (H4 n Hn). split; [done|]. auto.
Qed.
Lemma load_known fresh now id s c s' : on_checkpoints (load fresh now id) s = (Ok c, s') →
  known (rn_checkpoints s') c.
Proof.
  unfold on_checkpoints, zoom. destruct (cs_mem (rn_checkpoints s) !! id) as [c'|] eqn:Hm.
  { rewrite (load_hit _ _ _ c') by done. intros [= -> <-]. left. eauto. }
  destruct (load fresh now id (rn_checkpoints s)) as [r st] eqn:Hl. intros [= -> <-]. cbn.
  unfold load in Hl. run_inv. rewrite Hm in *. run_inv. left. exists id. cbn. apply lookup_insert_eq.
Qed.

Lemma resume_R checkpoint : moves R (resume_attempt hex clock checkpoint).
Proof.
  intros s. unfold resume_attempt. apply moves_at; [apply _|apply new_id_R|intros fresh s1 _].
  apply moves_at; [apply _|apply utc_now_R|intros now s2 _]. apply moves_at; [apply _|apply load_R|intros c s3 Hl].
  apply load_known in Hl. apply moves_at; [apply _|apply (moves_get R)|]. intros t s4 [= <- <-].
  apply moves_at; [apply _| |].
  - destruct (rn_attempts s3 !! cp_attempt_id c) eqn:Ha; [apply (moves_ret R)|].
    do 2 (erewrite bind_run by reflexivity). cbn [snd mret M_ret].
    transitivity (s3 <| rn_reads ::= S |>); [by apply frame_R|]. apply revive_R; [exact Hl|exact Ha].
  - intros a s4 Ha. assert (known (rn_checkpoints s4) c) as Hk.
    { destruct (rn_attempts s3 !! cp_attempt_id c); [by run_inv|]. unfold utc_now in Ha. run_inv. exact Hl. }
    apply moves_at; [apply _|apply (moves_raise_if R)|]. intros u s5 [_ ->]%raise_if_Ok.
    apply moves_at; [apply _|by apply rewrite_route_R|]. intros u' s5 _. apply moves_bind; [apply _| |intros _; apply (moves_ret R)].
    apply trace_R. repeat constructor. apply json_opt_wf.
Qed.

(** ** All operations and programs *)
Definition valid_rt_op {A} (o : rt_op A) : Prop :=
  match o with
  | Start _ _ _ route => ∀ r, route = Some r → trimmed_route r
  | Reroute _ _ route => trimmed_route route
  | Trace _ _ payload => Forall (λ kv, wf_json kv.2) payload
  | _ => True
  end.

Ltac step_R := repeat first
  [ moves_step
  | lazymatch goal with
    | |- moves _ (set_attempt _ _) => apply set_attempt_R; intros ?; by split
    | |- moves _ (set_session _ _) => apply set_session_R
    | |- moves _ (new_id _ _) => apply new_id_R
    | |- moves _ (utc_now _) => apply utc_now_R
    | |- moves _ (_checkpoint _ _ _ _ _ _ _ _ _ _ _) => apply checkpoint_R
    | |- moves _ (_trace _ _ _ _) => apply trace_R; by repeat first [apply Forall_nil_2|apply Forall_cons_2|apply json_strs_wf]
    | |- moves _ (modify _) => apply moves_modify; intros ?; by apply frame_R
    end ].

Lemma own_R A (o : rt_op A) m : valid_rt_op o → own hex clock o = Some m → moves R m.
Proof.
  destruct o; cbn [valid_rt_op own]; intros Hv; try discriminate; intros [= <-];
    lazymatch goal with
    | |- moves _ (start _ _ _ _ _ _) => by apply start_R
    | |- moves _ (safe_reroute_new_attempt _ _ _ _ _) => by apply reroute_R
    | |- moves _ (resume_attempt _ _ _) => apply resume_R
    | |- moves _ (_trace _ _ _ _) => by apply trace_R
    | |- _ => unfold wait_for_children, check_cancel, new_finding, check_capabilities, begin_turn, check_cancel, select_route,
        check_interrupt, new_tool_call, finish, end_cancelled, end_unknown, end_failed, release_final, the_attempt, request_cancel,
        interrupt_model_response; step_R
    end.
Qed.

Definition valid_ops (h : list (event rt_op)) (A : Type) (o : rt_op A) : Prop := valid_rt_op o.

Inductive launched : program () → Prop :=
| launch_run tools workspace task context lease profile route deterministic hidden : (∀ r, route = Some r → trimmed_route r) →
    launched (run_task tools workspace task context lease profile route deterministic hidden;; mret ())
| launch_resume tools checkpoint : launched (resume tools checkpoint;; mret ())
| launch_cancel aid : launched (call (RequestCancel aid))
| launch_interrupt aid : launched (call (Interrupt aid))
| launch_reroute task profile route : trimmed_route route → launched (call (Reroute task profile route);; mret ()).

Ltac proto_valid := repeat first
  [ allowed_step | progress cbv beta iota
  | match goal with |- allowed _ _ (let '(_, _) := ?p in _) _ => destruct p end
  | match goal with r : result _ |- _ => destruct r end
  | done | solve [by repeat constructor] ].

Lemma receipts_valid aid ops h : allowed valid_ops h (lookup_receipts aid ops) (λ _ _, True).
Proof.
  revert h; induction ops as [|op ops IH]; intros h; [done|]. cbn [lookup_receipts]. proto_valid; try apply IH.
  match goal with |- allowed _ _ (match ?e with _ => _ end) _ => destruct e end; proto_valid; apply IH.
Qed.

Lemma run_task_valid tools workspace task context lease profile route deterministic hidden :
  (∀ r, route = Some r → trimmed_route r) →
  allowed valid_ops [] (run_task tools workspace task context lease profile route deterministic hidden) (λ _ _, True).
Proof.
  intros Hr. unfold run_task. proto_valid. apply allowed_finally, allowed_try. apply (allowed_mono _ _ _ (λ _ _, True)).
  - intros h [a|e] _; [proto_valid|]. unfold handler. destruct e; proto_valid.
  - unfold body. destruct (if deterministic then None else route) as [r|]; unfold _brokered_model_turn, tool_turn, store_finding; proto_valid.
Qed.

Lemma launched_keeps_valid p : launched p → keeps valid_ops (Thread [] p).
Proof.
  unfold keeps. cbn [th_history th_prog]. destruct 1 as [? ? ? ? ? ? ? ? ? Hr|tools checkpoint| | |]; [| |proto_valid..].
  - apply allowed_bind. eapply allowed_mono; [|by apply run_task_valid]. by intros h [a|e].
  - unfold resume. proto_valid.
    all: try (eapply allowed_mono; [|apply receipts_valid]; intros h [u|e] _; proto_valid).
Qed.

Section pool.
Context {X : Type} (sv : Services X).
Abbreviation step := (pool_step (perform hex clock sv) launched).

Lemma perform_R A (o : rt_op A) w r w' : valid_rt_op o → perform hex clock sv A o () w = (r, w') → R w.1 w'.1.
Proof.
  intros Ho Hp. unfold perform in Hp. destruct (own hex clock o) as [m|] eqn:Hm.
  - unfold zoom in Hp. pose proof (own_R _ o m Ho Hm w.1) as H. destruct (m w.1) as [r0 s0]. by injection Hp as _ <-.
  - destruct (outside sv o) as [m|]; [|injection Hp as _ <-; reflexivity].
    unfold zoom in Hp. destruct (m w.2). injection Hp as _ <-. reflexivity.
Qed.

Lemma pool_R c c' : rtc step c c' → Forall (keeps valid_ops) c.2 → R c.1.1 c'.1.1 ∧ Forall (keeps valid_ops) c'.2.
Proof.
  induction 1 as [c|a b c Hab _ IH]; intros Hk; [by split|].
  assert (Forall (keeps valid_ops) b.2) as Hb by (eapply pool_keeps; [apply launched_keeps_valid|exact Hab|exact Hk]).
  destruct (IH Hb) as [HR Hc]. split; [|exact Hc]. transitivity b.1.1; [|exact HR].
  destruct Hab as [w ts p Hp|w ts n h A o k [] r w' Hn Hr]; [reflexivity|]. cbn in *.
  apply (perform_R A o w r w'); [|exact Hr]. eapply Forall_lookup_1 in Hk; [|exact Hn]. by destruct Hk.
Qed.

Lemma new_runtime_routed limits root : routed (new_runtime limits (mkCheckpointStore root ∅ ∅)).
Proof.
  assert (∀ c, ¬ known (mkCheckpointStore root ∅ ∅) c) as Hk.
  { intros c [[id H]|(path & text & j & fresh & now & H & _)]; cbn [cs_mem cs_files] in H; by rewrite lookup_empty in H. }
  exists (λ _, None). split; cbn; try (intros ? ? H; by rewrite lookup_empty in H).
  - by intros c []%Hk.
  - intros n _. split; [done|]. by intros c []%Hk.
Qed.

(** C22: From a new runtime, any tasks are run, resumed from any checkpoint, cancelled, interrupted
    and rerouted, interleaved at every service call: an attempt that exists at some point has
    the same task and the same route at every later point. *)
Theorem attempts_keep_their_route limits root x s1 x1 ts1 s2 x2 ts2 aid a :
  rtc step ((new_runtime limits (mkCheckpointStore root ∅ ∅), x), []) ((s1, x1), ts1) →
  rtc step ((s1, x1), ts1) ((s2, x2), ts2) → rn_attempts s1 !! aid = Some a →
  ∃ a', rn_attempts s2 !! aid = Some a' ∧ ta_selected_route_id a' = ta_selected_route_id a ∧ ta_task_id a' = ta_task_id a.
Proof.
  intros H1 H2 Ha. destruct (pool_R _ _ H1) as [HR1 Hk1]; [constructor|]. destruct (HR1 (new_runtime_routed limits root)) as [Hr _].
  destruct (pool_R _ _ H2 Hk1) as [HR2 _]. destruct (HR2 Hr) as [_ Hs]. by apply Hs.
Qed.
End pool.
End routes.
