(* ===== verification/SessionBroker.v ===== *)
(** * SessionBroker: agent sessions over the inference broker

    The services of [Session] with the broker of [Broker] as the one that reserves and invokes
    (those of the workspace and of the tool gateway stay an interface).  [BrokerProps] proves
    what the broker guarantees to disciplined callers: ids are fresh, and a ticket is invoked
    once, while it is open and unsent.  Here the session programs are shown to be such callers
    however they interleave, so that the guarantee holds for the composed system.

    Ids the broker draws are distinct; the adapter answers a call with a receipt of that call,
    or raises.  [invoke] awaits the adapter: a session steps into the call ([s_begin]) and later
    out of it with any outcome ([s_finish]), and the other sessions, calls of their own
    included, go on in between.  It is the one await of the broker that suspends: the locks of
    the ledger and the queue are never held across another, and no adapter of the sources
    suspends in [classify_error].  [pool_sstep] shows that sessions whose calls are answered at
    once, as [Session] runs them, are among these. *)
From S2P Require Import Prelude Collections Contracts Ledger LedgerProps Circuit Policy Broker BrokerProps.
From S2P Require Import Json JsonText Models Checkpoint Capacity Workspace ToolGateway Programs Session SessionProps SessionRoutes.
Open Scope Z_scope.

(** ** Calls on one ticket leave the others alone *)
Section one_ticket.
Variable rid L : string.
Variable at_ : loc.

Definition others (b b' : Broker) : Prop :=
  (∀ k, k ≠ rid → dict_get (b_tickets b') k = dict_get (b_tickets b) k) ∧ b_logical_attempts b' = b_logical_attempts b.
(** The ticket and, when [withr], its receipt belong to the logical call [L]. *)
Definition owned (withr : bool) (b : Broker) : Prop :=
  tickets_ok b ∧ (∃ p, dict_get (b_tickets b) rid = Some p ∧ lc_of p = L)
  ∧ (withr = true → ∃ x, b_receipts b !! at_ = Some x ∧ ar_logical_call_id x = L).
Definition T (withr : bool) (b b' : Broker) : Prop := owned withr b → owned withr b' ∧ others b b'.
#[export] Instance T_preorder withr : PreOrder (T withr).
Proof.
  split; [by intros b H|]. intros a b c H1 H2 Ha. destruct (H1 Ha) as [Hb [O1 O2]]. destruct (H2 Hb) as [Hc [O3 O4]].
  split; [done|]. split; [|congruence]. intros k Hk. rewrite O3, O1 by done. done.
Qed.

Lemma T_frame withr b b' : b_tickets b' = b_tickets b → b_logical_attempts b' = b_logical_attempts b →
  b_receipts b' = b_receipts b → T withr b b'.
Proof.
  intros Ht Hl Hr (Hok & Hp & Hx). split; [|by split; [intros; rewrite Ht|]]. unfold owned. rewrite Ht, Hr.
  split_and!; [by eapply same_tickets_ok|done|done].
Qed.
Lemma update_pending_T withr f : (∀ p, lc_of (f p) = lc_of p) → moves (T withr) (update_pending rid f).
Proof.
  intros Hf b (Hok & (p & Hp & Hlc) & Hx).
  destruct (at_ticket_intro rid b p Hok Hp) as [rest Hat].
  destruct (update_pending_at rest rid b p f (Hf p) Hat) as (b' & Hrun & [Hg _ Hok'] & _ & Hrc & _).
  pose proof Hrun as Hrun'. unfold update_pending, modify in Hrun'. rewrite Hp in Hrun'. injection Hrun' as Eb.
  rewrite Hrun. cbn [snd]. split.
  - split_and!; [done|exists (f p); split; [done|by rewrite Hf]|by rewrite Hrc].
  - subst b'. split; [|done]. intros k Hk. cbn. by rewrite dict_get_set_ne.
Qed.
Lemma update_ticket_T withr f : (∀ t, rs_logical_call_id (f t) = rs_logical_call_id t) → moves (T withr) (update_ticket rid f).
Proof. intros Hf. apply update_pending_T. intros p. apply Hf. Qed.
Lemma on_ledger_T withr {A} (m : M Ledger A) : moves (T withr) (on_ledger m).
Proof. intros b. rewrite on_ledger_run. by apply T_frame. Qed.
Lemma on_circuit_T withr {A} (m : M CircuitBreaker A) : moves (T withr) (on_circuit m).
Proof. intros b. rewrite on_circuit_run. by apply T_frame. Qed.
Lemma modify_T withr f : (∀ b, b_tickets (f b) = b_tickets b ∧ b_logical_attempts (f b) = b_logical_attempts b
  ∧ b_receipts (f b) = b_receipts b) → moves (T withr) (modify f).
Proof. intros Hf b. destruct (Hf b) as (? & ? & ?). by apply T_frame. Qed.
Lemma set_receipt_T withr f : (∀ x, ar_logical_call_id (f x) = ar_logical_call_id x) → moves (T withr) (set_receipt at_ f).
Proof.
  intros Hf b (Hok & Hp & Hx). split; [|done]. split_and!; [by apply (same_tickets_ok b)|done|].
  intros Hw. destruct (Hx Hw) as (x & Hx1 & Hx2). exists (f x). cbn. rewrite lookup_alter_eq, Hx1. by rewrite Hf.
Qed.
Lemma insert_receipt_T withr withr' x b : ar_logical_call_id x = L → owned withr b →
  let b' := b <| b_receipts := <[at_ := x]> (b_receipts b) |> in owned withr' b' ∧ others b b'.
Proof.
  intros Hx (Hok & Hp & _) b'. split; [|done]. split_and!; [by apply (same_tickets_ok b)|done|].
  intros _. exists x. split; [apply lookup_insert_eq|done].
Qed.

Ltac step_T := repeat first
  [ moves_step
  | lazymatch goal with
    | |- moves _ (update_pending _ _) => apply update_pending_T; intros ?; reflexivity
    | |- moves _ (update_ticket _ _) => apply update_ticket_T; intros ?; reflexivity
    | |- moves _ (on_ledger _) => apply on_ledger_T
    | |- moves _ (on_circuit _) => apply on_circuit_T
    | |- moves _ (set_receipt _ _) => apply set_receipt_T; intros ?; reflexivity
    | |- moves _ (gets _) => apply moves_reads; [apply _|done]
    | |- moves _ (modify _) => apply modify_T; intros ?; by split_and!
    end ].

Lemma reconcile_T clock : moves (T true) (reconcile clock at_).
Proof.
  intros b Ho. pose proof Ho as (Hok & (p & Hp & Hlc) & Hx). destruct (Hx eq_refl) as (x & Hx1 & Hx2). revert Ho.
  unfold reconcile. apply moves_at; [apply _|apply (moves_get (T true))|]. intros b0 b1 [= <- <-].
  apply moves_at; [apply _|apply (moves_require (T true))|]. intros x0 b1 [Hx0 ->]%require_Ok.
  assert (x0 = x) as -> by congruence. apply moves_at; [apply _|apply (moves_raise_if (T true))|].
  intros u b1 [_ ->]%raise_if_Ok. rewrite Hx2, <- Hlc, (pending_of_at rid b p Hok Hp).
  enough (∀ (k : M Broker loc), moves (T true) k → T true b (k b).2) as Hk; [apply Hk; step_T|]. intros k Hm. apply Hm.
Qed.

Lemma handle_exception_T withr now classify na_id ticket exc : rs_logical_call_id ticket = L →
  moves (T withr) (handle_exception now classify na_id rid ticket at_ exc).
Proof.
  intros Ht. unfold handle_exception. step_T.
  intros b Ho. destruct (insert_receipt_T withr withr (mkAttemptReceipt (rs_logical_call_id ticket) na_id None ReservationPhase.UNKNOWN
    None (rs_route_id ticket) (Some (default ErrorClass.UNKNOWN_OUTCOME (error_class_of (classify exc)))) SettlementState.UNKNOWN) b Ht Ho)
    as [H1 H2]. by split.
Qed.

Lemma invoke_finish_T now clock classify na_id ticket outcome b : rs_logical_call_id ticket = L →
  (∀ receipt, outcome = Ok receipt → ar_logical_call_id receipt = L) → owned false b →
  others b (invoke_finish now clock classify na_id rid ticket at_ outcome b).2.
Proof.
  intros Ht Hrc Ho. unfold invoke_finish, try_except.
  assert (∀ withr e b', owned withr b' → others b' (handle_exception now classify na_id rid ticket at_ e b').2) as Hh.
  { intros withr e b' Ho'. by apply (handle_exception_T withr now classify na_id ticket e Ht b'). }
  destruct outcome as [receipt|exc]; [|cbn [raise]; destruct exc; done || by apply (Hh false)].
  destruct (insert_receipt_T false true receipt b (Hrc _ eq_refl) Ho) as [Ho1 Hs1].
  unfold receive_receipt. erewrite (bind_run (modify _)) by reflexivity.
  set (b1 := b <| b_receipts := <[at_ := receipt]> (b_receipts b) |>) in *.
  match goal with |- others b (match ?m b1 with _ => _ end).2 => assert (moves (T true) m) as Hm end.
  { step_T. all: apply reconcile_T. }
  match goal with |- others b (match ?m b1 with _ => _ end).2 => specialize (Hm b1 Ho1); destruct (m b1) as [[l|e] b2] end; cbn [snd] in Hm |- *.
  - destruct Hs1 as [O1 O2], Hm as [_ [O3 O4]]. split; [|congruence]. intros k Hk. by rewrite O3, O1.
  - destruct Hm as [Ho2 [O3 O4]], Hs1 as [O1 O2].
    assert (others b b2) as O by (split; [intros k Hk; by rewrite O3, O1|congruence]).
    assert (∀ b3, others b2 b3 → others b b3) as Htr.
    { intros b3 [O5 O6]. destruct O as [O7 O8]. split; [intros k Hk; by rewrite O5, O7|congruence]. }
    destruct e; try exact O; apply Htr, (Hh true); exact Ho2.
Qed.
End one_ticket.

(** A ticket that may be invoked. *)
Definition ready (b : Broker) (rid : string) : Prop := ∃ p, dict_get (b_tickets b) rid = Some p
  ∧ pc_sent p = false ∧ rs_state (pc_ticket p) = ReservationState.OPEN.

(** Stepping into a call on a ticket that is ready: a disciplined step of the broker, no other
    ticket changes, and a ticket that was sent is live. *)
Lemma begin_disciplined now rid b : tickets_ok b → ready b rid →
  let b' := (invoke_begin now rid b).2 in bstep b b' ∧ others rid b b'
  ∧ ∀ req t, (invoke_begin now rid b).1 = Ok (Sent req t) →
      ∃ p, dict_get (b_tickets b') rid = Some p ∧ is_live p = true ∧ lc_of p = rs_logical_call_id t.
Proof.
  intros Hok (p & Hp & Hs & Hst) b'. split_and!.
  - apply bstep_begin. intros q Hq. rewrite Hp in Hq. by injection Hq as <-.
  - assert (owned rid (lc_of p) 0%nat false b) as Ho by (split_and!; [done|by exists p|done]).
    assert (moves (T rid (lc_of p) 0%nat false) (invoke_begin now rid)) as Hm.
    { unfold invoke_begin. repeat first [moves_step | lazymatch goal with
        | |- moves _ (update_pending _ _) => apply update_pending_T; intros ?; reflexivity
        | |- moves _ (update_ticket _ _) => apply update_ticket_T; intros ?; reflexivity
        | |- moves _ (on_ledger _) => apply on_ledger_T
        | |- moves _ (gets _) => apply moves_reads; [apply _|done]
        | |- moves _ (modify _) => apply modify_T; intros ?; by split_and! end]. }
    by destruct (Hm b Ho).
  - intros req t Hsent. subst b'. destruct (invoke_begin now rid b) as [? b1] eqn:Hbegin. cbn [fst snd] in *. subst.
    unfold invoke_begin in Hbegin. run_inv. rewrite Hs in *.
    match goal with H : (if ?c then _ else _) _ = _ |- _ => destruct c end; run_inv.
    match goal with H : update_pending _ _ _ = _ |- _ => unfold update_pending, modify in H; rewrite Hp in H; injection H as _ <- end.
    eexists. split; [apply dict_get_set_eq|]. split; [|done]. unfold is_live. cbn. rewrite Hst.
    by rewrite bool_decide_true by (by left).
Qed.

(** Stepping out of it. *)
Lemma finish_disciplined now clock classify na_id rid t p at_ outcome b : tickets_ok b →
  dict_get (b_tickets b) rid = Some p → is_live p = true → lc_of p = rs_logical_call_id t →
  (∀ receipt, outcome = Ok receipt → ar_logical_call_id receipt = rs_logical_call_id t) →
  let b' := (invoke_finish now clock classify na_id rid t at_ outcome b).2 in bstep b b' ∧ others rid b b'.
Proof.
  intros Hok Hp Hl Hlc Hrc b'. split.
  - apply (bstep_finish _ _ _ _ _ _ _ _ p); [done|done|]. rewrite Hlc. exact Hrc.
  - apply (invoke_finish_T rid (rs_logical_call_id t)); [done|done|]. split_and!; [done|by exists p|done].
Qed.

(** ** Reserving leaves the other tickets alone *)
Definition new_only (rsv lc : string) (b b' : Broker) : Prop :=
  (∀ k, k ≠ rsv → dict_get (b_tickets b') k = dict_get (b_tickets b) k)
  ∧ (∀ l, l ≠ lc → b_logical_attempts b' !! l = b_logical_attempts b !! l).
#[export] Instance new_only_preorder rsv lc : PreOrder (new_only rsv lc).
Proof.
  split; [by intros b|]. intros a b c [H1 H2] [H3 H4].
  split; [intros k Hk; by rewrite H3, H1|intros l Hl; by rewrite H4, H2].
Qed.
Lemma framed_new_only {A} rsv lc (m : M Broker A) : BrokerProps.keeps m → moves (new_only rsv lc) m.
Proof. intros H b. destruct (framed_lookups _ _ (H b)) as (Ht & Hl & _). by split; intros; rewrite ?Ht, ?Hl. Qed.

Lemma modify_new_only rsv lc f : (∀ b, new_only rsv lc b (f b)) → moves (new_only rsv lc) (modify f).
Proof. done. Qed.
Lemma note_new_only rsv lc attempt reserved : moves (new_only rsv lc) (note_logical_attempt lc attempt reserved).
Proof.
  intros b. unfold note_logical_attempt. do 2 (erewrite bind_run by reflexivity). set (b1 := b <| b_logical_attempts := _ |>).
  transitivity b1; [by split; [|intros l Hl; cbn; rewrite lookup_insert_ne by done]|].
  case_decide.
  - apply moves_bind; [apply _| |intros ?; apply (moves_raise (new_only rsv lc))]. intros b2. rewrite on_ledger_run. by split.
  - apply moves_bind; [apply _| |intros ?].
    + apply modify_new_only. intros b2. split; [done|]. intros l Hl. cbn. by rewrite lookup_insert_ne by done.
    + apply moves_bind; [apply _| |intros ?; apply (moves_ret (new_only rsv lc))].
      intros b2. unfold on_retry, zoom. destruct (note_attempt lc (b_retry b2)). by split.
Qed.

Lemma reserve_new_only now now_l now_t now_b lc rsv dec request route :
  moves (new_only rsv lc) (reserve now now_l now_t now_b lc rsv dec request route).
Proof.
  unfold reserve, file_ticket.
  repeat first [moves_step | lazymatch goal with
    | |- moves _ (current_context _) => apply framed_new_only, keeps_current_context
    | |- moves _ (decision_for _ _) => apply framed_new_only, keeps_decision_for
    | |- moves _ (update_decision _ _) => apply framed_new_only, keeps_update_decision
    | |- moves _ (note_logical_attempt _ _ _) => apply note_new_only
    | |- moves _ (gets _) => apply moves_reads; [apply _|done]
    | |- moves _ (on_circuit _) => apply framed_new_only, keeps_on_circuit
    | |- moves _ (on_ledger _) => intros b; rewrite on_ledger_run; by split
    | |- moves _ (bump_weight _) => by intros b
    | |- moves _ (modify _) => apply modify_new_only; intros b; split; [intros; cbn [b_tickets set_field]; by rewrite dict_get_set_ne by done|done]
    end].
Qed.

(** A reservation that succeeds files a ticket that is ready. *)
Lemma reserve_ready now now_l now_t now_b lc rsv dec request route b ticket b' :
  reserve now now_l now_t now_b lc rsv dec request route b = (Ok ticket, b') → reservation_id ticket = rsv ∧ ready b' rsv.
Proof.
  unfold reserve, file_ticket. intros H.
  repeat match goal with H : (_ ≫= _) _ = (Ok _, _) |- _ => apply bind_Ok in H as (? & ? & ? & H) end.
  apply mret_Ok in H as [-> ->]. split; [done|].
  match goal with H : modify _ _ = (Ok _, ?t) |- ready ?t _ => apply modify_Ok in H as -> end.
  eexists. split; [apply dict_get_set_eq|done].
Qed.

(** ** The broker as the service of sessions *)
Record BrokerEnv := mkBrokerEnv { be_broker : Broker; be_count : nat }.
#[export] Instance eta_BrokerEnv : Eta BrokerEnv := λ r, mkBrokerEnv (be_broker r) (be_count r).

Section composed.
Context {lax : Lax}.
Variable hex : nat → string.
Variable clock : nat → Z.
(** What the broker draws and reads at its n-th call, and its adapter. *)
Variable rsv_id lc_id dec_id na_id : nat → string.
Variable reading : nat → nat → Z.
Variable discovered : nat → list RouteSnapshot.
Variable adapter_calls : nat → option Z.
Variable classify : exn → string.
Variable execute_one : InferenceRequest → Reservation → result AttemptReceipt.
Context {Y : Type} (rest : Services Y).
Hypothesis rsv_inj : Inj (=) (=) rsv_id.
Hypothesis lc_inj : Inj (=) (=) lc_id.
Abbreviation X := (BrokerEnv * Y)%type.

Definition with_broker {A} (m : nat → M Broker A) : M X A := λ x,
  let e := x.1 in
  let '(r, b) := m (be_count e) (be_broker e) in
  (r, (mkBrokerEnv b (S (be_count e)), x.2)).
Definition with_rest {A} (m : M Y A) : M X A := zoom snd (λ y x, (x.1, y)) m.

(** A call that is answered at once. *)
Definition broker_invoke (ticket : Reservation) (n : nat) : M Broker AttemptReceipt :=
  l ← invoke (reading n 0) (reading n 1) (λ k, reading n (2 + k)) classify (na_id n) (reservation_id ticket) n execute_one;
  b ← get_state;
  require (b_receipts b !! l) (KeyError "receipt").
Definition broker_services : Services X := mkServices X
  (λ req, with_broker (λ n, assess (reading n 0) (discovered n) (dec_id n) req))
  (λ req route, with_broker (λ n, reserve (reading n 0) (reading n 1) (reading n 2) (reading n 3) (lc_id n) (rsv_id n) (dec_id n) req route))
  (λ ticket, with_broker (broker_invoke ticket))
  (with_broker (λ n, assert_all_calls_accounted (adapter_calls n)))
  (λ f, with_rest (sv_append_finding rest f))
  (λ c, with_rest (sv_validate rest c)) (λ c, with_rest (sv_authorize rest c))
  (λ c, with_rest (sv_execute rest c)) (λ op, with_rest (sv_receipt rest op)).

Abbreviation act := (perform hex clock broker_services).
Abbreviation step := (pool_step act launched).

(** What [invoke] returns to the session. *)
Definition reply_of (res : result loc) (b : Broker) : result AttemptReceipt :=
  match res with
  | Ok l => match b_receipts b !! l with Some x => Ok x | None => Err (KeyError "receipt") end
  | Err e => Err e
  end.

(** A session and, while it awaits the adapter, the ticket it has sent. *)
Abbreviation session := (thread rt_op * option Reservation)%type.
Definition is_invoke_op {R} (o : rt_op R) : bool := match o with Invoke _ => true | _ => false end.
Abbreviation world s b n y := ((s, (mkBrokerEnv b n, y)) : Runtime * X).

(** Sessions over one broker; a call of the adapter starts and ends at any time, at any clock
    readings and with any outcome that is a receipt of the call or an exception. *)
Inductive sstep : (Runtime * X) * list session → (Runtime * X) * list session → Prop :=
| s_launch w ts p : launched p → sstep (w, ts) (w, ts ++ [(Thread [] p, None)])
| s_op w ts i h R (o : rt_op R) k r w' : is_invoke_op o = false →
    ts !! i = Some (Thread h (Do R o k), None) → act R o () w = (r, w') →
    sstep (w, ts) (w', <[i := (Thread (Ev R o r :: h) (k r), None)]> ts)
| s_begin s b n y ts i h ticket k now req t b' :
    ts !! i = Some (Thread h (Do _ (Invoke ticket) k), None) →
    invoke_begin now (reservation_id ticket) b = (Ok (Sent req t), b') →
    sstep (world s b n y, ts) (world s b' n y, <[i := (Thread h (Do _ (Invoke ticket) k), Some t)]> ts)
| s_refused s b n y ts i h ticket k now res b' :
    ts !! i = Some (Thread h (Do _ (Invoke ticket) k), None) →
    invoke_begin now (reservation_id ticket) b = (res, b') → (∀ req t, res ≠ Ok (Sent req t)) →
    let reply := reply_of (match res with Ok (Retained l) => Ok l | Err e => Err e | _ => Err AssertionError end) b' in
    sstep (world s b n y, ts) (world s b' (S n) y, <[i := (Thread (Ev _ (Invoke ticket) reply :: h) (k reply), None)]> ts)
| s_finish s b n y ts i h ticket t k now clk na outcome res b' :
    ts !! i = Some (Thread h (Do _ (Invoke ticket) k), Some t) →
    (∀ receipt, outcome = Ok receipt → ar_logical_call_id receipt = rs_logical_call_id t) →
    invoke_finish now clk classify na (reservation_id ticket) t n outcome b = (res, b') →
    let reply := reply_of res b' in
    sstep (world s b n y, ts) (world s b' (S n) y, <[i := (Thread (Ev _ (Invoke ticket) reply :: h) (k reply), None)]> ts).

(** The ticket of the call a program makes next. *)
Definition invoking (p : program ()) : option Reservation :=
  match p with Do R o _ => match o with Invoke ticket => Some ticket | _ => None end | Done _ => None end.

(** Ids not drawn yet are not in use. *)
Definition unused (e : BrokerEnv) : Prop := ∀ n, (be_count e <= n)%nat →
  dict_get (b_tickets (be_broker e)) (rsv_id n) = None ∧ b_logical_attempts (be_broker e) !! lc_id n = None.
Definition reserved_in (h : list (event rt_op)) (rid : string) : Prop :=
  ∃ req route ticket, did h (Reserve req route) ticket ∧ reservation_id ticket = rid.

(** A session that awaits the adapter has sent a live ticket. *)
Definition flying (b : Broker) (t : thread rt_op) (sent : Reservation) : Prop :=
  ∃ ticket p, invoking (th_prog t) = Some ticket ∧ dict_get (b_tickets b) (reservation_id ticket) = Some p
    ∧ is_live p = true ∧ lc_of p = rs_logical_call_id sent.

(** The broker has run disciplined steps only; a session that has reserved a ticket and not
    invoked it finds it ready; no two sessions reserved the same. *)
Record composed (b0 : Broker) (w : Runtime * X) (ts : list session) : Prop := {
  cm_steps : rtc bstep b0 (be_broker w.2.1);
  cm_unused : unused w.2.1;
  cm_keeps : Forall (λ t, Programs.keeps rt_protocol t.1) ts;
  cm_drawn : ∀ i t rid, ts !! i = Some t → reserved_in (th_history t.1) rid → ∃ n, (n < be_count w.2.1)%nat ∧ rid = rsv_id n;
  cm_ready : ∀ i t rid, ts !! i = Some (t, None) → reserved_in (th_history t) rid →
    existsb is_invoke (th_history t) = false → ready (be_broker w.2.1) rid;
  cm_flying : ∀ i t sent, ts !! i = Some (t, Some sent) → flying (be_broker w.2.1) t sent;
  cm_apart : ∀ i j t u rid, ts !! i = Some t → ts !! j = Some u → reserved_in (th_history t.1) rid →
    reserved_in (th_history u.1) rid → i = j
}.

(** A program that is about to call has reserved the ticket and called for none before. *)
Lemma invoking_reserved t ticket : Programs.keeps rt_protocol t → invoking (th_prog t) = Some ticket →
  reserved_in (th_history t) (reservation_id ticket) ∧ existsb is_invoke (th_history t) = false.
Proof.
  destruct t as [h [r0|R o k]]; [done|]. intros [Hadm _] Ho. cbn [th_history th_prog invoking] in *.
  destruct o; try discriminate. injection Ho as ->. destruct Hadm as [Hn (req & route & aid & Hdid & _)].
  split; [by exists req, route, ticket|done].
Qed.

Lemma reserved_cons R (o : rt_op R) r h rid : reserved_in (Ev R o r :: h) rid →
  reserved_in h rid ∨ ∃ req route ticket, Ev R o r = Ev _ (Reserve req route) (Ok ticket) ∧ reservation_id ticket = rid.
Proof.
  intros (req & route & ticket & H & Hr). unfold did in H. apply elem_of_cons in H as [H|H]; [right|left]; exists req, route, ticket; auto.
Qed.
(** The ticket an event reserved. *)
Definition reply_ticket (ev : event rt_op) : option string :=
  match ev_op ev in rt_op R return result R → option string with
  | Reserve _ _ => λ r, match r with Ok t => Some (reservation_id t) | Err _ => None end
  | _ => λ _, None
  end (ev_reply ev).
Lemma reserved_by req route r h rid : reserved_in (Ev _ (Reserve req route) r :: h) rid →
  reserved_in h rid ∨ ∃ ticket, r = Ok ticket ∧ reservation_id ticket = rid.
Proof.
  intros [H|(rq & rt & ticket & E & <-)]%reserved_cons; [by left|right]. apply (f_equal reply_ticket) in E.
  destruct r as [t|e]; cbn in E; [|done]. exists t. split; [done|]. by injection E.
Qed.
Lemma reserved_quiet R (o : rt_op R) r h rid : is_reserve (Ev R o r) = false → reserved_in (Ev R o r :: h) rid → reserved_in h rid.
Proof. intros Ho [H|(req & route & ticket & E & _)]%reserved_cons; [done|]. by rewrite E in Ho. Qed.

Lemma insert_thread {A} (ts : list A) i j t t' u : ts !! i = Some t → <[i := t']> ts !! j = Some u →
  (j = i ∧ u = t') ∨ (j ≠ i ∧ ts !! j = Some u).
Proof.
  intros Hi Hj. destruct (decide (j = i)) as [->|Hn]; [left|right; by rewrite list_lookup_insert_ne in Hj].
  rewrite list_lookup_insert_eq in Hj by (by eapply lookup_lt_Some). by injection Hj.
Qed.

Lemma with_broker_run {A} (m : nat → M Broker A) x : with_broker m x =
  ((m (be_count x.1) (be_broker x.1)).1, (mkBrokerEnv (m (be_count x.1) (be_broker x.1)).2 (S (be_count x.1)), x.2)).
Proof. unfold with_broker. by destruct (m _ _). Qed.
Lemma with_rest_run {A} (m : M Y A) x : with_rest m x = ((m x.2).1, (x.1, (m x.2).2)).
Proof. unfold with_rest, zoom. by destruct (m _). Qed.
Lemma accounted_reads n b : (assert_all_calls_accounted n b).2 = b.
Proof. unfold assert_all_calls_accounted, mbind, M_bind, get_state. destruct n; [by destruct (negb _)|done]. Qed.

(** A step that neither reserves nor invokes changes no ticket. *)
Definition plain_op {R} (o : rt_op R) : bool := match o with Reserve _ _ | Invoke _ => false | _ => true end.
Lemma plain_env R (o : rt_op R) w r w' : plain_op o = true → act R o () w = (r, w') →
  let b := be_broker w.2.1 in let b' := be_broker w'.2.1 in
  rtc bstep b b' ∧ b_tickets b' = b_tickets b ∧ b_logical_attempts b' = b_logical_attempts b ∧ (be_count w.2.1 <= be_count w'.2.1)%nat.
Proof.
  intros Ho. unfold perform. destruct (own hex clock o) as [m|] eqn:Hm.
  { unfold zoom. destruct (m w.1). intros [= _ <-]. split_and!; done || lia. }
  unfold zoom. destruct o; try discriminate; cbn [outside broker_services sv_assess sv_accounted sv_append_finding sv_validate sv_authorize
    sv_execute sv_receipt]; rewrite ?with_broker_run, ?with_rest_run; intros [= _ <-]; cbn [fst snd be_broker be_count]; try (split_and!; done || lia).
  - match goal with |- context [assess ?a ?b ?c ?d ?e] => pose proof (bstep_assess a b c d e) as Hs;
      pose proof (framed_lookups _ _ (keeps_assess a b c d e)) as (Ht & Hl & _) end. split_and!; [by apply rtc_once|done|done|lia].
  - rewrite accounted_reads. split_and!; [done|done|done|lia].
Qed.

Lemma ready_same b b' rid : dict_get (b_tickets b') rid = dict_get (b_tickets b) rid → ready b rid → ready b' rid.
Proof. intros E (p & Hp & H). exists p. by rewrite E. Qed.

Lemma steps_ok b0 b : fresh_broker b0 → rtc bstep b0 b → tickets_ok b.
Proof. intros Hf Hs. exact (bi_tickets _ _ (broker_inv_reachable _ _ Hf Hs)). Qed.

Lemma reserve_env req route w r w' : act _ (Reserve req route) () w = (r, w') → unused w.2.1 →
  let n := be_count w.2.1 in let b := be_broker w.2.1 in let b' := be_broker w'.2.1 in
  rtc bstep b b' ∧ new_only (rsv_id n) (lc_id n) b b' ∧ be_count w'.2.1 = S n
  ∧ (∀ ticket, r = Ok ticket → reservation_id ticket = rsv_id n ∧ ready b' (rsv_id n)).
Proof.
  unfold perform. cbn [own outside broker_services sv_reserve]. unfold zoom. rewrite with_broker_run. intros [= <- <-] Hu. cbn [fst snd be_broker be_count].
  destruct (Hu (be_count w.2.1)) as [H1 H2]; [lia|]. split_and!.
  - apply rtc_once. by apply bstep_reserve.
  - apply reserve_new_only.
  - done.
  - intros ticket Ht. eapply reserve_ready. apply run_eq. exact Ht.
Qed.

(** What a step of session [i] has to establish. *)
Lemma composed_insert b0 w w' ts i h p f h' p' f' : composed b0 w ts → ts !! i = Some (Thread h p, f) →
  Programs.keeps rt_protocol (Thread h' p') →
  rtc bstep (be_broker w.2.1) (be_broker w'.2.1) → unused w'.2.1 → (be_count w.2.1 <= be_count w'.2.1)%nat →
  (∀ j t rid, j ≠ i → ts !! j = Some t → reserved_in (th_history t.1) rid →
     dict_get (b_tickets (be_broker w'.2.1)) rid = dict_get (b_tickets (be_broker w.2.1)) rid) →
  (∀ rid, reserved_in h' rid → reserved_in h rid ∨ (rid = rsv_id (be_count w.2.1) ∧ (be_count w.2.1 < be_count w'.2.1)%nat)) →
  (∀ rid, f' = None → reserved_in h' rid → existsb is_invoke h' = false → ready (be_broker w'.2.1) rid) →
  (∀ sent, f' = Some sent → flying (be_broker w'.2.1) (Thread h' p') sent) →
  composed b0 w' (<[i := (Thread h' p', f')]> ts).
Proof.
  intros [Hs Hu Hk Hd Hr Hfl Ha] Hi Hk' Hsteps Hu' Hc Hfix Hnew Hri Hfi. split; [by etrans|done|by apply Forall_insert|..].
  - intros j t rid Hj Hres. destruct (insert_thread _ _ _ _ _ _ Hi Hj) as [[-> ->]|[Hn Ht]].
    + destruct (Hnew rid Hres) as [Hold|[-> Hlt]]; [|by exists (be_count w.2.1)].
      destruct (Hd i _ rid Hi Hold) as (n & Hn & ->). exists n. split; [lia|done].
    + destruct (Hd j t rid Ht Hres) as (n & Hn' & ->). exists n. split; [lia|done].
  - intros j t rid Hj Hres Hinv. destruct (insert_thread _ _ _ _ _ _ Hi Hj) as [[-> [= -> <-]]|[Hn Ht]]; [by apply Hri|].
    eapply ready_same; [by apply (Hfix j (t, None))|]. by apply (Hr j t).
  - intros j t sent Hj. destruct (insert_thread _ _ _ _ _ _ Hi Hj) as [[-> [= -> <-]]|[Hn Ht]]; [by apply Hfi|].
    destruct (Hfl j t sent Ht) as (ticket & q & Hq & Hg & Hq').
    destruct (invoking_reserved t ticket (Forall_lookup_1 _ _ _ _ Hk Ht) Hq) as [Hres _].
    exists ticket, q. split; [done|]. by rewrite (Hfix j (t, Some sent) _ Hn Ht Hres).
  - assert (∀ j t rid, j ≠ i → ts !! j = Some t → reserved_in (th_history t.1) rid → reserved_in h' rid → False) as Hap.
    { intros j t rid Hn Ht Hres [Hold|[-> _]]%Hnew; [apply Hn; by apply (Ha j i t _ rid Ht Hi)|].
      destruct (Hd j t _ Ht Hres) as (n & Hlt & E%rsv_inj). lia. }
    intros j l t u rid Hj Hl Ht Hres. destruct (insert_thread _ _ _ _ _ _ Hi Hj) as [[-> ->]|[Hn Htj]];
      destruct (insert_thread _ _ _ _ _ _ Hi Hl) as [[-> ->]|[Hn' Htl]]; [done| | |by apply (Ha j l t u rid)].
    + by destruct (Hap l u rid Hn' Htl Hres Ht).
    + by destruct (Hap j t rid Hn Htj Ht Hres).
Qed.

(** One operation of one session, other than a call, keeps the composition. *)
Lemma op_composed b0 w w' ts i h R (o : rt_op R) k r : is_invoke_op o = false → composed b0 w ts →
  ts !! i = Some (Thread h (Do R o k), None) → act R o () w = (r, w') →
  composed b0 w' (<[i := (Thread (Ev R o r :: h) (k r), None)]> ts).
Proof.
  intros Hno C Hi Hact. pose proof C as [Hs Hu Hk Hd Hr _ Ha].
  pose proof (Forall_lookup_1 _ _ _ _ Hk Hi) as [_ Hnext]. cbn [fst th_history th_prog] in Hnext. specialize (Hnext r).
  destruct (plain_op o) eqn:Ho; [|destruct o; try discriminate].
  - destruct (plain_env R o w r w' Ho Hact) as (H1 & H2 & H3 & H4). apply (composed_insert b0 w w' ts i h _ _ _ _ _ C Hi Hnext H1); [|done|..|done].
    + intros n Hn. rewrite H2, H3. apply Hu. lia.
    + intros j t rid _ _ _. by rewrite H2.
    + intros rid Hres. left. eapply reserved_quiet; [|exact Hres]. by destruct o.
    + intros rid _ Hres Hinv. apply reserved_quiet in Hres; [|by destruct o]. cbn in Hinv. apply orb_false_iff in Hinv as [_ Hinv].
      eapply ready_same; [by rewrite H2|]. by apply (Hr i _ rid Hi).
  - destruct (reserve_env req route w r w' Hact Hu) as (H1 & [H2 H3] & H4 & H5).
    apply (composed_insert b0 w w' ts i h _ _ _ _ _ C Hi Hnext H1); [|lia|..|done].
    + intros n Hn. destruct (Hu n) as [U1 U2]; [lia|]. rewrite H2, H3; [done|intros ?%lc_inj; lia|intros ?%rsv_inj; lia].
    + intros j t rid Hn Ht Hres. apply H2. destruct (Hd j t rid Ht Hres) as (n & Hlt & ->). intros ?%rsv_inj. lia.
    + intros rid [Hres|(ticket & E & <-)]%reserved_by; [by left|right]. destruct (H5 ticket E) as [-> _]. split; [done|lia].
    + intros rid _ [Hres|(ticket & E & <-)]%reserved_by Hinv.
      * eapply ready_same; [|by apply (Hr i _ rid Hi)]. apply H2. destruct (Hd i _ rid Hi Hres) as (n & Hlt & ->). intros ?%rsv_inj. lia.
      * by destruct (H5 ticket E) as [-> ?].
Qed.

(** A step of session [i] on the ticket it calls for, in the broker only. *)
Lemma ticket_composed b0 s b n y b' n' ts i h ticket k f h' p' f' : composed b0 (world s b n y) ts →
  ts !! i = Some (Thread h (Do _ (Invoke ticket) k), f) → (n <= n')%nat →
  bstep b b' → others (reservation_id ticket) b b' →
  Programs.keeps rt_protocol (Thread h' p') → (∀ rid, reserved_in h' rid → reserved_in h rid) →
  (f' = None → existsb is_invoke h' = true) → (∀ sent, f' = Some sent → flying b' (Thread h' p') sent) →
  composed b0 (world s b' n' y) (<[i := (Thread h' p', f')]> ts).
Proof.
  intros C Hi Hn Hstep [H2 H3] Hk' Hres' Hinv Hfl. pose proof C as [_ Hu Hk Hd _ _ Ha].
  destruct (invoking_reserved (Thread h (Do _ (Invoke ticket) k)) ticket (Forall_lookup_1 _ _ _ _ Hk Hi) eq_refl) as [Hres0 _].
  eapply (composed_insert b0 _ _ ts i h _ _ _ _ _ C Hi Hk'); cbn [fst snd be_broker be_count]; [by apply rtc_once|..|done].
  - intros m Hm. cbn in Hm. destruct (Hu m) as [U1 U2]; [cbn; lia|]. cbn in *. rewrite H3. split; [|done]. rewrite H2; [done|].
    destruct (Hd i _ _ Hi Hres0) as (l & Hlt & ->). cbn in Hlt. intros ?%rsv_inj. lia.
  - done.
  - intros j t rid Hj Ht Hres. apply H2. intros ->. apply Hj. by apply (Ha j i t _ _ Ht Hi Hres).
  - intros rid Hres. left. by apply Hres'.
  - intros rid E _ E'. rewrite Hinv in E' by done. discriminate.
Qed.

Ltac proto_quiet := repeat first
  [ allowed_step | progress cbv beta iota
  | match goal with |- allowed _ _ (let '(_, _) := ?p in _) _ => destruct p end
  | match goal with r : result _ |- _ => destruct r end | done ].
Lemma receipts_protocol aid ops h : allowed rt_protocol h (lookup_receipts aid ops) (λ _ _, True).
Proof.
  revert h; induction ops as [|op ops IH]; intros h; [done|]. cbn [lookup_receipts]. proto_quiet; try apply IH.
  match goal with |- allowed _ _ (match ?e with _ => _ end) _ => destruct e end; proto_quiet; apply IH.
Qed.
Lemma launched_protocol p : launched p → Programs.keeps rt_protocol (Thread [] p).
Proof.
  unfold Programs.keeps. cbn [th_history th_prog]. destruct 1 as [? ? ? ? ? ? ? ? ? Hr|tools checkpoint| | |]; [| |proto_quiet..].
  - apply allowed_bind. eapply allowed_mono; [|by apply run_task_protocol]. by intros h [a|e].
  - unfold resume. proto_quiet.
    all: try (eapply allowed_mono; [|apply receipts_protocol]; intros h [u|e] _; proto_quiet).
Qed.

Lemma launch_composed b0 w ts p : launched p → composed b0 w ts → composed b0 w (ts ++ [(Thread [] p, None)]).
Proof.
  intros Hp [Hs Hu Hk Hd Hr Hfl Ha].
  assert (∀ i t f, (ts ++ [(Thread [] p, None)]) !! i = Some (t, f) → ts !! i = Some (t, f) ∨ (th_history t = [] ∧ f = None)) as Hold.
  { intros i t f [Ht|[_ Ht]]%lookup_app_Some; [by left|right]. apply list_lookup_singleton_Some in Ht as [_ [= <- <-]]. done. }
  assert (∀ rid, reserved_in [] rid → False) as Hno by (intros rid (? & ? & ? & H & _); by apply elem_of_nil in H).
  split; [done|done|..].
  - apply Forall_app. split; [done|]. apply Forall_singleton. by apply launched_protocol.
  - intros i [t f] rid [Ht|[E _]]%Hold Hres; [by eapply Hd|]. cbn in Hres. rewrite E in Hres. by destruct (Hno rid).
  - intros i t rid [Ht|[E _]]%Hold Hres Hinv; [by eapply Hr|]. rewrite E in Hres. by destruct (Hno rid).
  - intros i t sent [Ht|[_ [=]]]%Hold. by eapply Hfl.
  - intros i j' [t f] [u g] rid [Ht|[E _]]%Hold Hu' Hres Hres'; [|cbn in Hres; rewrite E in Hres; by destruct (Hno rid)].
    destruct (Hold j' u g Hu') as [Hu2|[E _]]; [by eapply Ha|]. cbn in Hres'. rewrite E in Hres'. by destruct (Hno rid).
Qed.

Lemma called_quiet h ticket (r : result AttemptReceipt) rid : reserved_in (Ev _ (Invoke ticket) r :: h) rid → reserved_in h rid.
Proof. by apply reserved_quiet. Qed.

Lemma composed_steps b0 c c' : fresh_broker b0 → rtc sstep c c' → composed b0 c.1 c.2 → composed b0 c'.1 c'.2.
Proof.
  intros Hf. induction 1 as [c|a b c Hab _ IH]; intros C; [done|]. apply IH. clear IH.
  assert (tickets_ok (be_broker a.1.2.1)) as Hok by (eapply steps_ok; [done|apply C]).
  destruct Hab as [w ts p Hp|w ts i h R o k r w' Ho Hi Hr|s b1 n y ts i h ticket k now req t b' Hi Hb
    |s b1 n y ts i h ticket k now res b' Hi Hb Hne reply|s b1 n y ts i h ticket t k now clk na outcome res b' Hi Hrc Hb reply];
    cbn [fst snd be_broker] in *; [by apply launch_composed|by eapply op_composed|..];
    pose proof (Forall_lookup_1 _ _ _ _ (cm_keeps _ _ _ C) Hi) as Hki; cbn [fst] in Hki.
  - destruct (invoking_reserved _ ticket Hki eq_refl) as [Hres Hinv].
    destruct (begin_disciplined now (reservation_id ticket) b1 Hok (cm_ready _ _ _ C i _ _ Hi Hres Hinv)) as (H1 & H2 & H3).
    rewrite Hb in H1, H2, H3. destruct (H3 req t eq_refl) as (p & Hp & Hl & Hlc).
    eapply ticket_composed; [exact C|exact Hi|done|exact H1|exact H2|exact Hki|done|done|].
    intros sent [= <-]. by exists ticket, p.
  - destruct (invoking_reserved _ ticket Hki eq_refl) as [Hres Hinv].
    destruct (begin_disciplined now (reservation_id ticket) b1 Hok (cm_ready _ _ _ C i _ _ Hi Hres Hinv)) as (H1 & H2 & _).
    rewrite Hb in H1, H2. destruct Hki as [_ Hnext].
    eapply ticket_composed; [exact C|exact Hi|lia|exact H1|exact H2|apply Hnext|apply called_quiet|done|done].
  - destruct (cm_flying _ _ _ C i _ t Hi) as (ticket' & p & [= <-] & Hp & Hl & Hlc). cbn [fst snd be_broker] in Hp.
    destruct (finish_disciplined now clk classify na (reservation_id ticket) t p n outcome b1 Hok Hp Hl Hlc Hrc) as [H1 H2].
    rewrite Hb in H1, H2. destruct Hki as [_ Hnext].
    eapply ticket_composed; [exact C|exact Hi|lia|exact H1|exact H2|apply Hnext|apply called_quiet|done|done].
Qed.

(** Calls that are answered at once are two steps. *)
Hypothesis adapter_answers : ∀ req ticket receipt, execute_one req ticket = Ok receipt →
  ar_logical_call_id receipt = rs_logical_call_id ticket.
Definition at_rest (ts : list (thread rt_op)) : list session := (λ t, (t, None)) <$> ts.

Lemma broker_invoke_run ticket n b : let x := invoke (reading n 0) (reading n 1) (λ k, reading n (2 + k)) classify (na_id n)
    (reservation_id ticket) n execute_one b in
  broker_invoke ticket n b = (reply_of x.1 x.2, x.2).
Proof.
  intros x. unfold broker_invoke, mbind, M_bind, get_state. fold x. destruct x as [[l|e] b1]; [|done]. cbn.
  by destruct (b_receipts b1 !! l).
Qed.

Lemma invoke_steps s b n y ts i h ticket k r w' : ts !! i = Some (Thread h (Do _ (Invoke ticket) k), None) →
  act _ (Invoke ticket) () (world s b n y) = (r, w') →
  rtc sstep (world s b n y, ts) (w', <[i := (Thread (Ev _ (Invoke ticket) r :: h) (k r), None)]> ts).
Proof.
  intros Hi. unfold perform. cbn [own outside broker_services sv_invoke]. unfold zoom. rewrite with_broker_run.
  cbn [fst snd be_broker be_count]. rewrite broker_invoke_run. cbn [fst snd]. intros [= <- <-].
  unfold invoke, mbind, M_bind. destruct (invoke_begin (reading n 0) (reservation_id ticket) b) as [[[l|req t]|e] b1] eqn:Hb; cbn [fst snd].
  - apply rtc_once. by eapply (s_refused _ _ _ _ _ _ _ _ _ _ _ _ Hi Hb).
  - eapply rtc_l; [by eapply (s_begin _ _ _ _ _ _ _ _ _ _ _ _ _ Hi Hb)|]. apply rtc_once.
    destruct (invoke_finish _ _ _ _ _ t n (execute_one req t) b1) as [res b2] eqn:Hf. cbn [fst snd].
    set (m := <[i := (Thread h (Do _ (Invoke ticket) k), Some t)]> ts).
    assert (m !! i = Some (Thread h (Do _ (Invoke ticket) k), Some t)) as Hm by (apply list_lookup_insert_eq; by eapply lookup_lt_Some).
    set (u := (Thread (Ev _ (Invoke ticket) (reply_of res b2) :: h) (k (reply_of res b2)), None)).
    replace (<[i := u]> ts) with (<[i := u]> m) by apply list_insert_insert_eq.
    exact (s_finish _ _ _ _ _ _ _ _ _ _ _ _ _ _ _ _ Hm (adapter_answers req t) Hf).
  - apply rtc_once. by eapply (s_refused _ _ _ _ _ _ _ _ _ _ _ _ Hi Hb).
Qed.

Lemma pool_sstep c c' : rtc step c c' → rtc sstep (c.1, at_rest c.2) (c'.1, at_rest c'.2).
Proof.
  induction 1 as [c|a b c Hab _ IH]; [done|]. etrans; [|exact IH]. clear IH.
  destruct Hab as [w ts p Hp|w ts i h R o k [] r w' Hi Hr]; cbn [fst snd]; unfold at_rest.
  - rewrite fmap_app. apply rtc_once. by apply s_launch.
  - rewrite list_fmap_insert. assert (((λ t, (t, None)) <$> ts) !! i = Some (Thread h (Do R o k), @None Reservation)) as Hi'
      by (by rewrite list_lookup_fmap, Hi).
    destruct (is_invoke_op o) eqn:Ho; [destruct o; try discriminate|by apply rtc_once; eapply s_op].
    destruct w as [s [[b n] y]]. by eapply invoke_steps.
Qed.

(** C20: Sessions over the broker never promise quota that is not there.  The broker starts
    without tickets, on buckets without windows and with a non-negative default amount
    ([fresh_broker]); the reservation and call ids it draws are distinct and not in use; the
    adapter answers a call with a receipt of that call or raises.  Then any tasks are run,
    resumed, cancelled, interrupted and rerouted in a new runtime, interleaved at every service
    call, the time an [invoke] awaits its adapter included: what each bucket has reserved is
    exactly what open and unknown-outcome tickets hold of it, that fits the remaining quota,
    and remaining quota and charges add up to the quota at the start. *)
Theorem sessions_never_overcommit_quota limits root b0 y s b n y' ts id live left :
  fresh_broker b0 → (∀ n, b_logical_attempts b0 !! lc_id n = None) →
  rtc sstep ((new_runtime limits (mkCheckpointStore root ∅ ∅), (mkBrokerEnv b0 0, y)), []) ((s, (mkBrokerEnv b n, y')), ts) →
  buckets (b_ledger b) !! id = Some live → remaining (model live) = Some left →
  reserved live = held id (live_amounts (b_tickets b)) ∧ held id (live_amounts (b_tickets b)) <= left
  ∧ left + settled live = quota_total (b_ledger b0) id.
Proof.
  intros Hf Hl Hrtc Hlive Hleft. apply (composed_steps b0) in Hrtc; [|done|].
  - destruct Hrtc as [Hs _ _ _ _ _ _]. cbn in Hs. apply broker_inv_reachable in Hs as [_ Ht _]; [|done].
    destruct (inv_covered _ _ Ht id live Hlive) as [_ Hc]. by apply Hc.
  - split; cbn; [done| |constructor|..].
    + intros m _. cbn. destruct Hf as (Ht & _). rewrite Ht. by split.
    + intros i t rid Hi. by rewrite lookup_nil in Hi.
    + intros i t rid Hi. by rewrite lookup_nil in Hi.
    + intros i t sent Hi. by rewrite lookup_nil in Hi.
    + intros i j t u rid Hi. by rewrite lookup_nil in Hi.
Qed.
End composed.
