(* ===== verification/SessionRuns.v ===== *)
(** * SessionRuns: concrete runs of agent sessions

    The theorems on sessions applied to runs over the demonstration broker of [BrokerProps],
    and runs that show where the runtime departs from its comments: slots that are never
    given back, tasks that wait for children that are done, checkpoints refused because of
    ordinary words. *)
From S2P Require Import Prelude Collections Contracts Ledger LedgerProps Circuit Policy Broker BrokerProps.
From S2P Require Import Json JsonText Models Checkpoint Capacity Workspace ToolGateway Programs Session SessionProps SessionRoutes SessionBroker.
From Stdlib Require Import Ascii.
Open Scope Z_scope.

Module SessionSample.
#[local] Instance strict : Lax := {| lax_int _ := None; lax_bool _ := None |}.

Definition clock (n : nat) : Z := 1700000000000000 + Z.of_nat n.

Definition profile (role : string) : AgentProfile := mkAgentProfile "ap_1" role "v1" [] "default" "none" [].
Definition task (deps : list string) (st : TaskStatus) : TaskSpec :=
  mkTaskSpec "t1" "p" "m1" "2024" None "summarize" "analysis" deps ["p:s"] 0 st [].
Definition lease : WorkerLease := mkWorkerLease "wk_1" 1.
Definition context : ContextBundle := mkContextBundle "ctx_1" "m1" "t1" 1 [] [] [] (Some 40) "ctx-v1".
Definition fresh_runtime : Runtime := new_runtime default_limits (mkCheckpointStore (Some "var") ∅ ∅).

(** Services that refuse everything but findings. *)
Definition none : Services () := mkServices ()
  (λ _, raise (KeyError "none")) (λ _ _, raise (KeyError "none")) (λ _, raise (KeyError "none")) (raise (KeyError "none"))
  (λ f, mret f) (λ _, raise (KeyError "none")) (λ _, raise (KeyError "none")) (λ _, raise (KeyError "none"))
  (λ _, raise (KeyError "none")).

(** The broker with its adapter: [answer] is what [execute_one] does. *)
Definition answering (req : InferenceRequest) (ticket : Reservation) : result AttemptReceipt :=
  Ok (mkAttemptReceipt (rs_logical_call_id ticket) "na" None ReservationPhase.SENT None "rt" None SettlementState.PENDING).
Lemma answering_answers req ticket receipt : answering req ticket = Ok receipt → ar_logical_call_id receipt = rs_logical_call_id ticket.
Proof. by intros [= <-]. Qed.
Definition rsv (n : nat) : string := "rsv" +:+ unary n.
Definition lc (n : nat) : string := "lc" +:+ unary n.
Lemma prefix_inj (p : string) n m : p +:+ unary n = p +:+ unary m → n = m.
Proof.
  intros H. apply (f_equal of_string) in H. rewrite !of_string_app in H. apply app_inv_head in H.
  apply unary_inj. by rewrite <- (to_of_string (unary n)), H, to_of_string.
Qed.
Lemma rsv_inj : Inj (=) (=) rsv.
Proof. intros n m. apply prefix_inj. Qed.
Lemma lc_inj : Inj (=) (=) lc.
Proof. intros n m. apply prefix_inj. Qed.
Abbreviation services exec := (broker_services rsv lc unary unary (λ _ _, 0) (λ _, [demo_route]) (λ _, None) exn_message exec none).
Abbreviation go sv p w := (run (perform unary clock sv) (λ _, ()) [] p w).

(** What a run leaves: its result, the number of sessions in the pool and the sends of the broker. *)
Definition left_over {A B C : Type} (x : result A * B * (Runtime * (BrokerEnv * C))) : result A * nat * Z :=
  let '(r, _, (s, (e, _))) := x in (r, size (active_sessions (rn_capacity s)), b_request_count (be_broker e)).
Abbreviation one_run role exec b := (left_over (go (services exec)
  (a ← run_task false true (task [] TaskStatus.RUNNING) context lease (profile role) (Some demo_route) false false; mret (ta_status a))
  (fresh_runtime, (mkBrokerEnv b 0, ())))).

Example good_run : one_run "analyst" answering demo_broker = (Ok AttemptStatus.SUCCEEDED, 0%nat, 1).
Proof. vm_compute. reflexivity. Qed.

(** A send with an unknown outcome keeps its slot, and nothing later gives it back. *)
Example unknown_outcome_keeps_its_slot :
  one_run "analyst" (λ _ _, Err (AdapterError "timeout")) demo_broker = (Ok AttemptStatus.UNKNOWN, 1%nat, 1).
Proof. vm_compute. reflexivity. Qed.

(** A refusal for lack of quota is no PolicyDeniedError: the run raises and its slot is lost. *)
Definition exhausted : Broker := demo_reserve "4" (demo_reserve "3" (demo_reserve "2" (demo_reserve "1" (demo_reserve "0" demo_broker)))).
Example quota_refusal_loses_a_slot :
  one_run "analyst" answering exhausted = (Err (QuotaExhaustedError "zero_remaining:qb_requests:requests"), 1%nat, 0).
Proof. vm_compute. reflexivity. Qed.

(** A role with an ordinary word that contains a marker: the call was made and charged, the
    attempt succeeded, and the run raises. *)
Example ordinary_role_is_a_leak :
  one_run "risk-analyst" answering demo_broker = (Err (RuntimeError "checkpoint_leak:sk-"), 0%nat, 1).
Proof. vm_compute. reflexivity. Qed.

(** A task whose dependencies are all met still waits for them, and makes no call. *)
Example dependencies_always_wait :
  left_over (go (services answering)
    (a ← run_task false true (task ["t0"] TaskStatus.READY) context lease (profile "analyst") (Some demo_route) false false; mret (ta_status a))
    (fresh_runtime, (mkBrokerEnv demo_broker 0, ()))) = (Ok AttemptStatus.PENDING, 1%nat, 0).
Proof. vm_compute. reflexivity. Qed.

(** ** The theorems at these runs *)
Abbreviation sample_run := (go (services answering)
  (run_task false true (task [] TaskStatus.RUNNING) context lease (profile "analyst") (Some demo_route) false false)
  (fresh_runtime, (mkBrokerEnv demo_broker 0, ()))).
Abbreviation waiting_run := (go (services answering)
  (run_task false true (task ["t0"] TaskStatus.RUNNING) context lease (profile "analyst") (Some demo_route) false false)
  (fresh_runtime, (mkBrokerEnv demo_broker 0, ()))).
Definition ended : Runtime * (BrokerEnv * ()) := sample_run.2.

Definition waited : Runtime * (BrokerEnv * ()) := waiting_run.2.

(** A run that waits: in the pool, without holding a slot. *)
Lemma slot_is_held_until_final_or_waiting_witness :
  ∃ a, rn_attempts waited.1 !! "att_a" = Some a
    ∧ match ta_status a with
      | AttemptStatus.SUCCEEDED | AttemptStatus.FAILED | AttemptStatus.CANCELLED =>
          active_sessions (rn_capacity waited.1) = ∅ ∖ {["as_"]} ∧ waiting_sessions (rn_capacity waited.1) = ∅
      | _ => active_sessions (rn_capacity waited.1) = {["as_"]} ∪ ∅
          ∧ (["t0"] = [] → waiting_sessions (rn_capacity waited.1) = ∅)
          ∧ (["t0"] ≠ [] → waiting_sessions (rn_capacity waited.1) = {["as_"]} ∪ ∅)
      end.
Proof.
  apply (slot_is_held_until_final_or_waiting unary clock (services answering) false true (task ["t0"] TaskStatus.RUNNING) context lease
    (profile "analyst") (Some demo_route) false fresh_runtime (mkBrokerEnv demo_broker 0, ()) "as_" "att_a"
    (start unary clock (task ["t0"] TaskStatus.RUNNING) lease (profile "analyst") (Some demo_route) fresh_runtime).2
    waiting_run.1.1 waiting_run.1.2 waited.1 waited.2).
  - vm_compute. reflexivity.
  - apply not_elem_of_empty.
  - vm_compute. reflexivity.
Defined.

Definition work : program () :=
  run_task false true (task [] TaskStatus.RUNNING) context lease (profile "analyst") (Some demo_route) false false;; mret ().
Definition again : program () := resume false "cp_aaa";; mret ().
Lemma work_launched : launched work.
Proof. apply launch_run. by intros r [= <-]. Qed.
Lemma again_launched : launched again.
Proof. apply launch_resume. Qed.
Abbreviation run1 := (go (services answering) work (fresh_runtime, (mkBrokerEnv demo_broker 0, ()))).
Abbreviation run2 := (go (services answering) again run1.2).
Abbreviation ts1 := [Thread run1.1.2 (Done run1.1.1)].
Abbreviation ts2 := (ts1 ++ [Thread run2.1.2 (Done run2.1.1)]).
Abbreviation steps := (rtc (pool_step (perform unary clock (services answering)) launched)).

Lemma first_steps : steps ((fresh_runtime, (mkBrokerEnv demo_broker 0, ())), []) (run1.2, ts1).
Proof. apply (run_launched _ _ (λ _, ()) work _ []); [exact work_launched|vm_compute; reflexivity]. Qed.
Lemma second_steps : steps (run1.2, ts1) (run2.2, ts2).
Proof. apply (run_launched _ _ (λ _, ()) again); [exact again_launched|vm_compute; reflexivity]. Qed.

Lemma both_steps : steps ((fresh_runtime, (mkBrokerEnv demo_broker 0, ())), []) (run2.2, ts2).
Proof. etrans; [exact first_steps|exact second_steps]. Qed.
(** The same with the parts of the world named. *)
Lemma parts (v w : Runtime * (BrokerEnv * ())) us ts : steps (v, us) (w, ts) → steps ((v.1, v.2), us) ((w.1, w.2), ts).
Proof. by destruct v, w. Qed.
Lemma env_parts c (w : Runtime * (BrokerEnv * ())) ts : steps c (w, ts) →
  steps c ((w.1, (mkBrokerEnv (be_broker w.2.1) (be_count w.2.1), ())), ts).
Proof. by destruct w as [s [[b n] []]]. Qed.

Definition attempt1 : TaskAttempt := default (mkTaskAttempt "" "" "" None None 0 AttemptStatus.PENDING 0 None None None None)
  (rn_attempts run1.2.1 !! "att_a").
Lemma attempts_keep_their_route_witness :
  ∃ a', rn_attempts run2.2.1 !! "att_a" = Some a' ∧ ta_selected_route_id a' = ta_selected_route_id attempt1
    ∧ ta_task_id a' = ta_task_id attempt1.
Proof.
  apply (attempts_keep_their_route unary clock unary_inj unary_plain (services answering) default_limits (Some "var")
    (mkBrokerEnv demo_broker 0, ()) run1.2.1 run1.2.2 ts1 run2.2.1 run2.2.2 ts2 "att_a" attempt1).
  - exact (parts _ run1.2 _ ts1 first_steps).
  - exact (parts run1.2 run2.2 ts1 ts2 second_steps).
  - vm_compute. reflexivity.
Defined.

Lemma sessions_never_overcommit_quota_witness :
  ∃ live, buckets (b_ledger (be_broker run2.2.2.1)) !! "qb_requests" = Some live
    ∧ reserved live = held "qb_requests" (live_amounts (b_tickets (be_broker run2.2.2.1)))
    ∧ held "qb_requests" (live_amounts (b_tickets (be_broker run2.2.2.1))) <= 4
    ∧ 4 + settled live = quota_total (b_ledger demo_broker) "qb_requests".
Proof.
  eexists. split; [vm_compute; reflexivity|].
  apply (sessions_never_overcommit_quota unary clock rsv lc unary unary (λ _ _, 0) (λ _, [demo_route]) (λ _, None) exn_message answering none
    rsv_inj lc_inj default_limits (Some "var") demo_broker () run2.2.1 (be_broker run2.2.2.1) (be_count run2.2.2.1)
    () (at_rest ts2) "qb_requests" _ 4).
  - exact demo_broker_fresh.
  - done.
  - exact (pool_sstep unary clock rsv lc unary unary (λ _ _, 0) (λ _, [demo_route]) (λ _, None) exn_message answering none
      answering_answers _ _ (env_parts _ run2.2 ts2 both_steps)).
  - vm_compute. reflexivity.
  - vm_compute. reflexivity.
Defined.
End SessionSample.
