(* ===== verification/Knowledge.v ===== *)
(** * Knowledge: the versioned knowledge repository
    (src/swarm/knowledge/repository.py, contracts/knowledge.py)

    Rows are kept in the order they were inserted, which is the order queries without ORDER BY
    return them in; a unique constraint on (item_id, version) makes a query by key return at
    most one.  A pydantic model is validated when it is built ([validate_item], which trims
    the surrounding white space of strings) and not when it is copied with updates.  Ids and
    clock readings are arguments; [payload_hash] is a parameter. *)
From S2P Require Import Prelude Collections Contracts PyFloat Json.
From Stdlib Require Import Ascii.
Open Scope Z_scope.

(** ** Contracts *)
Definition KnowledgeClass : list string :=
  ["source"; "observation"; "hypothesis"; "accepted_fact"; "procedure"; "summary"].
Definition AcceptanceState : list string := ["unreviewed"; "accepted"; "disputed"; "superseded"; "deleted"].
Definition KnowledgeRelation : list string := ["derived_from"; "supports"; "contradicts"; "supersedes"; "summarizes"].
Definition _MODEL_SAFE_CLASSES : list string := ["observation"; "hypothesis"; "summary"; "source"].
Definition model_producers : list string := ["model"; "llm"; "worker_model"].

Record KnowledgeItem := mkKnowledgeItem {
  ki_item_id : string;
  ki_version : Z;
  ki_project_id : string;
  ki_mission_id : option string;
  ki_class : string;
  ki_topic : string;
  ki_body : string;
  ki_provenance_refs : list string;
  ki_source_digests : list string;
  ki_producer_type : string;
  ki_producer_ref : option string;
  ki_acceptance_state : string;
  ki_confidence : option float;
  ki_created_at : Z;
  ki_observed_at : option Z;
  ki_expires_at : option Z;
  ki_supersedes : list string;
  ki_permission_labels : list string;
  ki_retrieval_labels : list string;
  ki_content_digest : option string;
  ki_payload : dict json
}.

Definition trim_keys (d : dict json) : dict json := foldl (λ acc kv, dict_set acc (trim kv.1) kv.2) [] d.

Definition validate_item (i : KnowledgeItem) : result KnowledgeItem :=
  if negb (one_of (ki_class i) KnowledgeClass) then Err (ValidationError "class")
  else if negb (one_of (ki_acceptance_state i) AcceptanceState) then Err (ValidationError "acceptance_state")
  else Ok (mkKnowledgeItem (trim (ki_item_id i)) (ki_version i) (trim (ki_project_id i)) (trim <$> ki_mission_id i)
    (ki_class i) (trim (ki_topic i)) (trim (ki_body i)) (trim <$> ki_provenance_refs i) (trim <$> ki_source_digests i)
    (trim (ki_producer_type i)) (trim <$> ki_producer_ref i) (ki_acceptance_state i) (ki_confidence i) (ki_created_at i)
    (ki_observed_at i) (ki_expires_at i) (trim <$> ki_supersedes i) (trim <$> ki_permission_labels i)
    (trim <$> ki_retrieval_labels i) (trim <$> ki_content_digest i) (trim_keys (ki_payload i))).

Definition assert_model_output_class (knowledge_class producer_type : string) : result () :=
  if one_of producer_type model_producers && bool_decide (knowledge_class = "accepted_fact")
  then Err (ValueError "model_output_cannot_be_accepted_fact")
  else if one_of producer_type model_producers && negb (one_of knowledge_class _MODEL_SAFE_CLASSES)
  then Err (ValueError ("model_output_class_forbidden:" +:+ knowledge_class))
  else Ok ().

Record KnowledgeLink := mkKnowledgeLink {
  kl_link_id : string;
  kl_project_id : string;
  kl_from_item_id : string;
  kl_from_version : Z;
  kl_relation : string;
  kl_to_item_id : string;
  kl_to_version : Z;
  kl_evidence_ref : option string;
  kl_created_at : Z
}.
(** [KnowledgeLink(...)] with a relation of the literal type. *)
Definition new_link (link_id project from_id : string) (from_v : Z) (relation to_id : string) (to_v : Z)
    (evidence : option string) (now : Z) : KnowledgeLink :=
  mkKnowledgeLink link_id (trim project) (trim from_id) from_v relation (trim to_id) to_v (trim <$> evidence) now.

Record KnowledgeTombstone := mkKnowledgeTombstone {
  kt_tombstone_id : string;
  kt_item_id : string;
  kt_project_id : string;
  kt_deleted_version : Z;
  kt_deleted_at : Z;
  kt_reason_class : string;
  kt_replacement_item_id : option string;
  kt_replacement_version : option Z
}.

(** ** Tables *)
Record KnowledgeItemRow := mkKnowledgeItemRow {
  kr_item_id : string;
  kr_version : Z;
  kr_project_id : string;
  kr_mission_id : option string;
  kr_class : string;
  kr_topic : string;
  kr_body : string;
  kr_acceptance_state : string;
  kr_confidence : option float;
  kr_producer_type : string;
  kr_producer_ref : option string;
  kr_permission_labels : list string;
  kr_retrieval_labels : list string;
  kr_source_digests : list string;
  kr_provenance_refs : list string;
  kr_content_digest : string;
  kr_observed_at : option Z;
  kr_expires_at : option Z;
  kr_created_at : Z;
  kr_superseded_at : option Z;
  kr_deleted_at : option Z;
  kr_payload : dict json
}.
#[export] Instance eta_KnowledgeItemRow : Eta KnowledgeItemRow := λ r,
  mkKnowledgeItemRow (kr_item_id r) (kr_version r) (kr_project_id r) (kr_mission_id r) (kr_class r) (kr_topic r)
    (kr_body r) (kr_acceptance_state r) (kr_confidence r) (kr_producer_type r) (kr_producer_ref r)
    (kr_permission_labels r) (kr_retrieval_labels r) (kr_source_digests r) (kr_provenance_refs r) (kr_content_digest r)
    (kr_observed_at r) (kr_expires_at r) (kr_created_at r) (kr_superseded_at r) (kr_deleted_at r) (kr_payload r).

Record KnowledgeDb := mkKnowledgeDb {
  kd_items : list KnowledgeItemRow;
  kd_links : list KnowledgeLink;
  kd_tombstones : list KnowledgeTombstone
}.
#[export] Instance eta_KnowledgeDb : Eta KnowledgeDb := λ r,
  mkKnowledgeDb (kd_items r) (kd_links r) (kd_tombstones r).

Definition row_is (project_id item_id : string) (version : Z) (r : KnowledgeItemRow) : bool :=
  bool_decide (kr_project_id r = project_id) && bool_decide (kr_item_id r = item_id) && (kr_version r =? version).
Definition select_row (project_id item_id : string) (version : Z) (d : KnowledgeDb) : option KnowledgeItemRow :=
  List.find (row_is project_id item_id version) (kd_items d).
Definition update_row (project_id item_id : string) (version : Z) (f : KnowledgeItemRow → KnowledgeItemRow)
    : M KnowledgeDb () :=
  modify (λ d, d <| kd_items := map (λ r, if row_is project_id item_id version r then f r else r) (kd_items d) |>).

(** [list(j or [])] as a list of strings. *)
Definition string_list (j : json) : result (list string) :=
  if negb (py_truthy j) then Ok [] else
  match j with
  | JList l => if forallb (λ x, match x with JStr _ => true | _ => false end) l
               then Ok (omap (λ x, match x with JStr s => Some s | _ => None end) l)
               else Err (ValidationError "supersedes")
  | JObj o => Ok o.*1
  | JStr s => Ok ((λ c, String c EmptyString) <$> String.list_ascii_of_string s)
  | _ => Err (TypeError ("'" +:+ type_name j +:+ "' object is not iterable"))
  end.

Definition _to_item (row : KnowledgeItemRow) : result KnowledgeItem :=
  match string_list (jget (JObj (kr_payload row)) "supersedes") with
  | Err e => Err e
  | Ok supersedes =>
    validate_item (mkKnowledgeItem (kr_item_id row) (kr_version row) (kr_project_id row) (kr_mission_id row)
      (kr_class row) (kr_topic row) (kr_body row) (kr_provenance_refs row) (kr_source_digests row)
      (kr_producer_type row) (kr_producer_ref row) (kr_acceptance_state row) (kr_confidence row) (kr_created_at row)
      (kr_observed_at row) (kr_expires_at row) supersedes (kr_permission_labels row) (kr_retrieval_labels row)
      (Some (kr_content_digest row)) (kr_payload row))
  end.

(** ** Lookups *)
Definition get_item (project_id item_id : string) (version : Z) : M KnowledgeDb (option KnowledgeItem) :=
  d ← get_state;
  match select_row project_id item_id version d with
  | None => mret None
  | Some row => i ← of_result (_to_item row); mret (Some i)
  end.

(** ORDER BY version DESC LIMIT 1. *)
Definition newer (a b : KnowledgeItemRow) : bool := kr_version b <=? kr_version a.
Definition latest_row (project_id item_id : string) (d : KnowledgeDb) : option KnowledgeItemRow :=
  head (sort_by newer (List.filter (λ r, bool_decide (kr_project_id r = project_id)
                                         && bool_decide (kr_item_id r = item_id)) (kd_items d))).
Definition get_latest (project_id item_id : string) (include_deleted : bool) : M KnowledgeDb (option KnowledgeItem) :=
  d ← get_state;
  match latest_row project_id item_id d with
  | None => mret None
  | Some row =>
    if negb include_deleted && (bool_decide (is_Some (kr_deleted_at row)) || bool_decide (kr_acceptance_state row = "deleted"))
    then mret None
    else i ← of_result (_to_item row); mret (Some i)
  end.

Definition list_links (project_id : string) (relation item_id : option string) (d : KnowledgeDb) : list KnowledgeLink :=
  List.filter (λ l, bool_decide (kl_project_id l = project_id)
    && match relation with Some r => bool_decide (kl_relation l = r) | None => true end
    && match item_id with Some i => bool_decide (kl_from_item_id l = i) || bool_decide (kl_to_item_id l = i)
       | None => true end) (kd_links d).

(** The rows the query of [list_visible] selects, and the permission test on each. *)
Definition visible_row (project_id : string) (classes : list string) (include_superseded : bool)
    (r : KnowledgeItemRow) : bool :=
  bool_decide (kr_project_id r = project_id) && bool_decide (kr_deleted_at r = None)
  && negb (bool_decide (kr_acceptance_state r = "deleted"))
  && (include_superseded || negb (bool_decide (kr_acceptance_state r = "superseded")))
  && (bool_decide (classes = []) || one_of (kr_class r) classes).
Definition visible_before (a b : KnowledgeItemRow) : bool :=
  (kr_created_at b <? kr_created_at a) || ((kr_created_at a =? kr_created_at b) && str_leb (kr_item_id a) (kr_item_id b)).
Definition permitted (required : list string) (r : KnowledgeItemRow) : bool :=
  bool_decide (kr_permission_labels r = [])
  || existsb (λ l, one_of l required) (kr_permission_labels r).
Fixpoint to_items (rows : list KnowledgeItemRow) : result (list KnowledgeItem) :=
  match rows with
  | [] => Ok []
  | r :: rows =>
    match _to_item r with
    | Ok i => match to_items rows with Ok l => Ok (i :: l) | Err e => Err e end
    | Err e => Err e
    end
  end.
Definition visible_rows (project_id : string) (permission_labels classes : list string) (include_superseded : bool)
    (limit : nat) (d : KnowledgeDb) : list KnowledgeItemRow :=
  List.filter (permitted permission_labels) (take limit (sort_by visible_before
    (List.filter (visible_row project_id classes include_superseded) (kd_items d)))).
Definition list_visible (project_id : string) (permission_labels classes : list string) (include_superseded : bool)
    (limit : nat) (d : KnowledgeDb) : result (list KnowledgeItem) :=
  to_items (visible_rows project_id permission_labels classes include_superseded limit d).

Definition get_tombstone (project_id item_id : string) (deleted_version : Z) (d : KnowledgeDb) : option KnowledgeTombstone :=
  List.find (λ t, bool_decide (kt_project_id t = project_id) && bool_decide (kt_item_id t = item_id)
                  && (kt_deleted_version t =? deleted_version)) (kd_tombstones d).

(** ** Writes *)
Section repository.
Variable payload_hash : json → string.

Definition digest_of (i : KnowledgeItem) : string := payload_hash
  (JObj [("item_id", JStr (ki_item_id i)); ("version", JInt (ki_version i)); ("project_id", JStr (ki_project_id i));
         ("class", JStr (ki_class i)); ("topic", JStr (ki_topic i)); ("body", JStr (ki_body i))]).
Definition ensure_content_digest (i : KnowledgeItem) : string :=
  if truthy (ki_content_digest i) then default "" (ki_content_digest i) else digest_of i.

Definition row_of (i : KnowledgeItem) : KnowledgeItemRow :=
  mkKnowledgeItemRow (ki_item_id i) (ki_version i) (ki_project_id i) (ki_mission_id i) (ki_class i) (ki_topic i)
    (ki_body i) (ki_acceptance_state i) (ki_confidence i) (ki_producer_type i) (ki_producer_ref i)
    (ki_permission_labels i) (ki_retrieval_labels i) (ki_source_digests i) (ki_provenance_refs i)
    (ensure_content_digest i) (ki_observed_at i) (ki_expires_at i) (ki_created_at i) None None
    (dict_set (ki_payload i) "supersedes" (JList (JStr <$> ki_supersedes i))).

Definition KnowledgeWriteError (msg : string) : exn := Exn "KnowledgeWriteError" msg.
Definition KnowledgeScopeError (msg : string) : exn := Exn "KnowledgeScopeError" msg.

Definition create_item (item : KnowledgeItem) : M KnowledgeDb KnowledgeItem :=
  match assert_model_output_class (ki_class item) (ki_producer_type item) with
  | Err e => raise (KnowledgeWriteError (exn_message e))
  | Ok _ => mret ()
  end;;
  raise_if (bool_decide (ki_acceptance_state item = "accepted")
            && negb (one_of (ki_class item) ["accepted_fact"; "procedure"; "source"]))
    (KnowledgeWriteError "acceptance_requires_reviewable_class");;
  raise_if (bool_decide (ki_acceptance_state item = "accepted") && one_of (ki_producer_type item) model_producers)
    (KnowledgeWriteError "model_cannot_self_accept");;
  raise_if (negb (one_of (ki_acceptance_state item) AcceptanceState))
    (KnowledgeWriteError ("invalid_acceptance_state:" +:+ ki_acceptance_state item));;
  raise_if (ki_version item <? 1) (KnowledgeWriteError "version_must_be_positive");;
  existing ← get_item (ki_project_id item) (ki_item_id item) (ki_version item);
  raise_if (bool_decide (is_Some existing)) (KnowledgeWriteError "version_already_exists");;
  d ← get_state;
  raise_if (existsb (λ r, bool_decide (kr_item_id r = ki_item_id item) && (kr_version r =? ki_version item)) (kd_items d))
    (IntegrityError "uq_knowledge_item_version");;
  let row := row_of item in
  put_state (d <| kd_items := kd_items d ++ [row] |>);;
  of_result (_to_item row).

(** The keyword arguments of [new_version]; [None] is an argument not given. *)
Record Edit := mkEdit {
  ed_body : option string;
  ed_topic : option string;
  ed_acceptance_state : option string;
  ed_producer_type : option string;
  ed_producer_ref : option string;
  ed_class : option string;
  ed_permission_labels : option (list string);
  ed_retrieval_labels : option (list string);
  ed_provenance_refs : option (list string);
  ed_source_digests : option (list string);
  ed_confidence : option float;
  ed_payload : option (dict json)
}.

Definition or_given {A} (o : option A) (a : A) : A := default a o.
Definition or_truthy (o : option string) (a : string) : string := if truthy o then default a o else a.
Definition edited (now : Z) (e : Edit) (latest : KnowledgeItem) : KnowledgeItem :=
  mkKnowledgeItem (ki_item_id latest) (ki_version latest + 1) (ki_project_id latest) (ki_mission_id latest)
    (or_truthy (ed_class e) (ki_class latest)) (or_given (ed_topic e) (ki_topic latest))
    (or_given (ed_body e) (ki_body latest)) (or_given (ed_provenance_refs e) (ki_provenance_refs latest))
    (or_given (ed_source_digests e) (ki_source_digests latest))
    (or_truthy (ed_producer_type e) (ki_producer_type latest))
    (match ed_producer_ref e with Some r => Some r | None => ki_producer_ref latest end)
    (or_given (ed_acceptance_state e) "unreviewed")
    (match ed_confidence e with Some c => Some c | None => ki_confidence latest end)
    now (ki_observed_at latest) (ki_expires_at latest) (ki_supersedes latest)
    (or_given (ed_permission_labels e) (ki_permission_labels latest))
    (or_given (ed_retrieval_labels e) (ki_retrieval_labels latest)) None
    (or_given (ed_payload e) (ki_payload latest)).

Definition new_version (now : Z) (project_id item_id : string) (e : Edit) : M KnowledgeDb KnowledgeItem :=
  latest ← get_latest project_id item_id true;
  latest ← require latest (KnowledgeWriteError "item_not_found");
  raise_if (bool_decide (ki_acceptance_state latest = "deleted")) (KnowledgeWriteError "item_deleted");;
  create_item (edited now e latest).

Definition accept_fact (now : Z) (project_id item_id : string) (version : Z) (reviewer_ref : string)
    : M KnowledgeDb KnowledgeItem :=
  item ← get_item project_id item_id version;
  item ← require item (KnowledgeWriteError "item_not_found");
  raise_if (negb (one_of (ki_class item) ["observation"; "hypothesis"; "accepted_fact"; "procedure"; "source"]))
    (KnowledgeWriteError "class_not_accept_eligible");;
  new_version now project_id item_id
    (mkEdit (Some (ki_body item)) (Some (ki_topic item)) (Some "accepted") (Some "reviewer") (Some reviewer_ref)
       (Some (if one_of (ki_class item) ["observation"; "hypothesis"] then "accepted_fact" else ki_class item))
       (Some (ki_permission_labels item)) (Some (ki_retrieval_labels item))
       (Some (ki_provenance_refs item ++ ["accepted_from:v" +:+ pretty version]))
       (Some (ki_source_digests item)) (ki_confidence item)
       (Some (dict_set (ki_payload item) "accepted_from_version" (JInt version)))).

Definition add_link (link : KnowledgeLink) : M KnowledgeDb KnowledgeLink :=
  raise_if (negb (one_of (kl_relation link) KnowledgeRelation))
    (KnowledgeWriteError ("invalid_relation:" +:+ kl_relation link));;
  src ← get_item (kl_project_id link) (kl_from_item_id link) (kl_from_version link);
  dst ← get_item (kl_project_id link) (kl_to_item_id link) (kl_to_version link);
  match src, dst with
  | Some s, Some t =>
    raise_if (negb (bool_decide (ki_project_id s = ki_project_id t))
              || negb (bool_decide (ki_project_id s = kl_project_id link)))
      (KnowledgeScopeError "cross_project_link_forbidden")
  | _, _ => raise (KnowledgeWriteError "link_endpoint_missing")
  end;;
  d ← get_state;
  raise_if (existsb (λ l, bool_decide (kl_link_id l = kl_link_id link)) (kd_links d)) (IntegrityError "knowledge_links_pkey");;
  put_state (d <| kd_links := kd_links d ++ [link] |>);;
  mret link.

(** The other ends of the summarizes links of an item. *)
Definition summary_ids (project_id item_id : string) (d : KnowledgeDb) : gset string :=
  list_to_set (List.concat ((λ l, [kl_from_item_id l; kl_to_item_id l]) <$>
    List.filter (λ l, bool_decide (kl_to_item_id l = item_id) || bool_decide (kl_from_item_id l = item_id))
      (list_links project_id (Some "summarizes") None d))) ∖ {[item_id]}.

Definition invalidation_event (kind project_id item_id : string) (version : Z) (reason : string) (at_ : Z) : json :=
  JObj [("kind", JStr kind); ("project_id", JStr project_id); ("item_id", JStr item_id); ("version", JInt version);
        ("reason", JStr reason); ("at", JStr (isoformat at_))].

Definition invalidate_one (project_id item_id : string) (version : Z) (reason : string) (at_ : Z) (sid : string)
    : M KnowledgeDb (list json) :=
  latest ← get_latest project_id sid true;
  match latest with
  | None => mret []
  | Some latest =>
    if negb (bool_decide (ki_class latest = "summary")) then mret [] else
    d ← get_state;
    match select_row project_id sid (ki_version latest) d with
    | None => mret []
    | Some row =>
      if bool_decide (is_Some (kr_deleted_at row)) then mret [] else
      update_row project_id sid (ki_version latest) (λ r,
        r <| kr_acceptance_state := "disputed" |>
          <| kr_payload := dict_set (kr_payload r) "invalidated_because"
               (JObj [("reason", JStr reason); ("source_item_id", JStr item_id); ("source_version", JInt version);
                      ("at", JStr (isoformat at_))]) |>);;
      mret [invalidation_event "summary_invalidated" project_id sid (ki_version latest) reason at_]
    end
  end.

Fixpoint invalidate_all (project_id item_id : string) (version : Z) (reason : string) (at_ : Z) (sids : list string)
    : M KnowledgeDb (list json) :=
  match sids with
  | [] => mret []
  | sid :: sids =>
    es ← invalidate_one project_id item_id version reason at_ sid;
    rest ← invalidate_all project_id item_id version reason at_ sids;
    mret (es ++ rest)
  end.

(** The events, which the caller's log is extended with. *)
Definition invalidate_dependents (at_ : Z) (project_id item_id : string) (version : Z) (reason : string)
    : M KnowledgeDb (list json) :=
  d ← get_state;
  events ← invalidate_all project_id item_id version reason at_ (elements (summary_ids project_id item_id d));
  mret (events ++ ((λ kind, invalidation_event kind project_id item_id version reason at_)
                   <$> ["cache_invalidate"; "export_invalidate"; "prompt_assembly_invalidate"])).

Definition tombstone (fresh_id : string) (now at_ : Z) (project_id item_id : string) (version : option Z)
    (reason_class : string) (replacement_item_id : option string) (replacement_version : option Z)
    : M KnowledgeDb (KnowledgeTombstone * list json) :=
  latest ← get_latest project_id item_id true;
  latest ← require latest (KnowledgeWriteError "item_not_found");
  let deleted_version := default (ki_version latest) version in
  d ← get_state;
  _ ← require (select_row project_id item_id deleted_version d) (KnowledgeWriteError "version_not_found");
  update_row project_id item_id deleted_version (λ r, r <| kr_acceptance_state := "deleted" |> <| kr_deleted_at := Some now |>);;
  let stone := mkKnowledgeTombstone fresh_id (trim item_id) (trim project_id) deleted_version now (trim reason_class)
                 (trim <$> replacement_item_id) replacement_version in
  d ← get_state;
  raise_if (bool_decide (is_Some (get_tombstone (kt_project_id stone) (kt_item_id stone) deleted_version d)))
    (IntegrityError "uq_knowledge_tombstone");;
  put_state (d <| kd_tombstones := kd_tombstones d ++ [stone] |>);;
  events ← invalidate_dependents at_ project_id item_id deleted_version "tombstone";
  mret (stone, events).

Definition supersede (fresh_link : string) (now later at_ : Z) (project_id old_item_id : string) (old_version : Z)
    (new_body reviewer_ref : string) (topic : option string) : M KnowledgeDb KnowledgeItem :=
  old ← get_item project_id old_item_id old_version;
  old ← require old (KnowledgeWriteError "item_not_found");
  raise_if (bool_decide (ki_acceptance_state old = "deleted")) (KnowledgeWriteError "item_deleted");;
  d ← get_state;
  _ ← require (select_row project_id old_item_id old_version d) (KnowledgeWriteError "version_not_found");
  update_row project_id old_item_id old_version
    (λ r, r <| kr_acceptance_state := "superseded" |> <| kr_superseded_at := Some now |>);;
  replacement ← new_version later project_id old_item_id
    (mkEdit (Some new_body) (Some (or_truthy topic (ki_topic old))) (Some "accepted") (Some "reviewer") (Some reviewer_ref)
       (Some (if one_of (ki_class old) ["observation"; "hypothesis"; "accepted_fact"] then "accepted_fact" else ki_class old))
       (Some (ki_permission_labels old)) (Some (ki_retrieval_labels old))
       (Some (ki_provenance_refs old ++ ["supersedes:v" +:+ pretty old_version]))
       (Some (ki_source_digests old)) (ki_confidence old)
       (Some (dict_set (ki_payload old) "supersedes_version" (JInt old_version))));
  _ ← add_link (new_link fresh_link project_id (ki_item_id replacement) (ki_version replacement) "supersedes"
    old_item_id old_version (Some ("reviewer:" +:+ reviewer_ref)) later);
  _ ← invalidate_dependents at_ project_id old_item_id old_version "supersession";
  mret replacement.

(** A row that was accepted becomes disputed. *)
Definition dispute_row (r : KnowledgeItemRow) : KnowledgeItemRow :=
  if bool_decide (kr_acceptance_state r = "accepted") then r <| kr_acceptance_state := "disputed" |> else r.

Definition record_contradiction (fresh_link : string) (now : Z) (project_id left_item_id : string) (left_version : Z)
    (right_item_id : string) (right_version : Z) (evidence_ref : option string) : M KnowledgeDb KnowledgeLink :=
  link ← add_link (new_link fresh_link project_id left_item_id left_version "contradicts" right_item_id right_version
    evidence_ref now);
  update_row project_id left_item_id left_version dispute_row;;
  update_row project_id right_item_id right_version dispute_row;;
  mret link.
End repository.

(** What a row shows of itself. *)
Lemma to_item_fields r i : _to_item r = Ok i →
  ki_acceptance_state i = kr_acceptance_state r ∧ ki_class i = kr_class r ∧ ki_version i = kr_version r
  ∧ ki_item_id i = trim (kr_item_id r) ∧ ki_project_id i = trim (kr_project_id r) ∧ ki_body i = trim (kr_body r)
  ∧ ki_expires_at i = kr_expires_at r.
Proof.
  unfold _to_item, validate_item. destruct (string_list _); [|done]. cbn. repeat (case_match; [done|]).
  by intros [= <-].
Qed.
