(* ===== verification/KnowledgeProps.v ===== *)
(** * KnowledgeProps: what the knowledge repository keeps

    Rows are never removed and never change what they say: a version's content is fixed when
    it is created, only its review state moves, never to accepted, and a deletion is final. *)
From S2P Require Import Prelude Collections Contracts PyFloat Json Knowledge.
Open Scope Z_scope.

(** ** How a row may change *)
Definition content (r : KnowledgeItemRow) :=
  (kr_item_id r, kr_version r, kr_project_id r, kr_class r, kr_topic r, kr_body r,
   (kr_confidence r, kr_producer_type r, kr_producer_ref r, kr_permission_labels r, kr_retrieval_labels r,
    kr_source_digests r, kr_provenance_refs r, kr_content_digest r, kr_expires_at r, kr_created_at r)).
Definition key (r : KnowledgeItemRow) : string * Z := (kr_item_id r, kr_version r).
Definition buried (r : KnowledgeItemRow) : Prop := is_Some (kr_deleted_at r) ∧ kr_acceptance_state r = "deleted".

Record evolves (r r' : KnowledgeItemRow) : Prop := {
  ev_content : content r' = content r;
  ev_accepted : kr_acceptance_state r' = "accepted" → kr_acceptance_state r = "accepted";
  ev_buried : buried r → buried r'
}.
#[export] Instance evolves_preorder : PreOrder evolves.
Proof.
  split; [by split|]. intros a b c [A1 A2 A3] [B1 B2 B3]. split; [congruence|auto|auto].
Qed.

Lemma evolves_fields r r' : evolves r r' →
  kr_item_id r' = kr_item_id r ∧ kr_version r' = kr_version r ∧ kr_project_id r' = kr_project_id r
  ∧ kr_class r' = kr_class r ∧ kr_producer_type r' = kr_producer_type r ∧ kr_body r' = kr_body r.
Proof. intros [E _ _]. unfold content in E. injection E. intros. split_and!; assumption. Qed.

(** What a created row satisfies. *)
Definition producer_is_model (r : KnowledgeItemRow) : bool := one_of (kr_producer_type r) model_producers.
Record row_ok (r : KnowledgeItemRow) : Prop := {
  ro_accepted : kr_acceptance_state r = "accepted" →
    kr_class r ∈ ["accepted_fact"; "procedure"; "source"] ∧ producer_is_model r = false;
  ro_model : producer_is_model r = true → kr_class r ∈ _MODEL_SAFE_CLASSES;
  ro_version : 1 <= kr_version r
}.
Lemma row_ok_evolves r r' : evolves r r' → row_ok r → row_ok r'.
Proof.
  intros E [H1 H2 H3]. destruct (evolves_fields _ _ E) as (_ & Ev & _ & Ec & Ep & _). destruct E as [_ A _].
  unfold producer_is_model in *. split; unfold producer_is_model; rewrite ?Ev, ?Ec, ?Ep; auto.
Qed.

(** ** How the tables may change *)
Definition link_ok (d : KnowledgeDb) (l : KnowledgeLink) : Prop :=
  kl_relation l ∈ KnowledgeRelation
  ∧ ∃ s t, s ∈ kd_items d ∧ t ∈ kd_items d
    ∧ row_is (kl_project_id l) (kl_from_item_id l) (kl_from_version l) s = true
    ∧ row_is (kl_project_id l) (kl_to_item_id l) (kl_to_version l) t = true.
Record good (d : KnowledgeDb) : Prop := {
  g_unique : NoDup (key <$> kd_items d);
  g_rows : Forall row_ok (kd_items d);
  g_links : Forall (link_ok d) (kd_links d)
}.
Definition extends (d d' : KnowledgeDb) : Prop :=
  ∃ rs new, kd_items d' = rs ++ new ∧ Forall2 evolves (kd_items d) rs.
Definition grows (d d' : KnowledgeDb) : Prop := good d → good d' ∧ extends d d'.
#[export] Instance extends_preorder : PreOrder extends.
Proof.
  split.
  - intros d. exists (kd_items d), []. rewrite app_nil_r. split; [done|]. reflexivity.
  - intros d1 d2 d3 (rs & new & E & F) (rs' & new' & E' & F').
    rewrite E in F'. apply Forall2_app_inv_l in F' as (r1 & r2 & F1 & F2 & ->).
    exists r1, (r2 ++ new'). split; [by rewrite E', app_assoc|]. by etrans.
Qed.
#[export] Instance grows_preorder : PreOrder grows.
Proof.
  split; [by intros d Hd|]. intros d1 d2 d3 H12 H23 H1. destruct (H12 H1) as [H2 E2].
  destruct (H23 H2) as [H3 E3]. split; [done|by etrans].
Qed.

(** A row that is there stays, as it was or further. *)
Lemma extends_row d d' r : extends d d' → r ∈ kd_items d → ∃ r', r' ∈ kd_items d' ∧ evolves r r'.
Proof.
  intros (rs & new & E & F) Hr. apply list_elem_of_lookup in Hr as [i Hi].
  destruct (Forall2_lookup_l _ _ _ _ _ F Hi) as (r' & Hr' & He). exists r'. split; [|done].
  rewrite E. apply elem_of_app. left. by eapply list_elem_of_lookup_2.
Qed.

Lemma evolves_key r r' : evolves r r' → key r' = key r.
Proof. intros (E1 & E2 & _)%evolves_fields. unfold key. by rewrite E1, E2. Qed.
Lemma evolves_row_is p i v r r' : evolves r r' → row_is p i v r' = row_is p i v r.
Proof. intros (E1 & E2 & E3 & _)%evolves_fields. unfold row_is. by rewrite E1, E2, E3. Qed.

Lemma link_ok_grows d d' l :
  (∀ r, r ∈ kd_items d → ∃ r', r' ∈ kd_items d' ∧ evolves r r') → link_ok d l → link_ok d' l.
Proof.
  intros H (Hr & s & t & Hs & Ht & Ks & Kt). split; [done|].
  destruct (H s Hs) as (s' & Hs' & Es), (H t Ht) as (t' & Ht' & Et). exists s', t'.
  by rewrite (evolves_row_is _ _ _ _ _ Es), (evolves_row_is _ _ _ _ _ Et).
Qed.

(** Updating rows in place. *)
Lemma update_grows p i v f d :
  (good d → ∀ r, r ∈ kd_items d → row_is p i v r = true → evolves r (f r)) → grows d (update_row p i v f d).2.
Proof.
  intros Hf Hd. specialize (Hf Hd). set (g := λ r, if row_is p i v r then f r else r).
  assert (∀ r, r ∈ kd_items d → evolves r (g r)) as Hg.
  { intros r Hr. unfold g. destruct (row_is p i v r) eqn:E; [by apply Hf|reflexivity]. }
  change (good (d <| kd_items := map g (kd_items d) |>) ∧ extends d (d <| kd_items := map g (kd_items d) |>)).
  split; cycle 1.
  - exists (map g (kd_items d)), []. rewrite app_nil_r. split; [done|].
    apply Forall2_fmap_r, Forall_Forall2_diag, Forall_forall. exact Hg.
  - destruct Hd as [U R L]. split; cbn.
    + replace (key <$> map g (kd_items d)) with (key <$> kd_items d); [done|].
      rewrite <- list_fmap_compose. apply list_fmap_ext. intros n r Hr. symmetry. apply evolves_key, Hg.
      by eapply list_elem_of_lookup_2.
    + apply Forall_forall. intros r' (r & -> & Hr)%list_elem_of_fmap. eapply row_ok_evolves; [by apply Hg|].
      by rewrite Forall_forall in R; apply R.
    + eapply Forall_impl; [exact L|]. intros l. apply link_ok_grows. intros r Hr. exists (g r). cbn. split; [|by apply Hg].
      by apply list_elem_of_fmap_2.
Qed.

(** Adding a row with a new key. *)
Lemma add_row_grows d row : row_ok row → (key row ∉ key <$> kd_items d) →
  grows d (d <| kd_items := kd_items d ++ [row] |>).
Proof.
  intros Hok Hk [U R L]. split; cycle 1.
  - exists (kd_items d), [row]. split; [done|reflexivity].
  - split; cbn.
    + rewrite fmap_app. apply NoDup_app. split_and!; [done| |apply NoDup_singleton].
      intros x Hx ->%list_elem_of_singleton. done.
    + apply Forall_app. by split; [|apply Forall_singleton].
    + eapply Forall_impl; [exact L|]. intros l. apply link_ok_grows. intros r Hr. exists r. cbn.
      split; [|reflexivity]. apply elem_of_app. by left.
Qed.

Lemma other_tables_grow d d' : kd_items d' = kd_items d →
  (good d → Forall (link_ok d) (kd_links d')) → grows d d'.
Proof.
  intros E H Hg. split; [|exists (kd_items d), []; rewrite app_nil_r; split; [done|reflexivity]].
  pose proof (H Hg) as HL. destruct Hg as [U R L]. split; rewrite ?E; try done.
  eapply Forall_impl; [exact HL|]. intros l. apply link_ok_grows. intros r Hr. exists r. rewrite E. split; [done|reflexivity].
Qed.

(** ** The operations *)
Lemma get_item_reads p i v d : (get_item p i v d).2 = d.
Proof.
  unfold get_item, mbind, M_bind, get_state. cbv beta iota. destruct (select_row p i v d); [|done].
  unfold of_result. by destruct (_to_item _).
Qed.
Lemma get_latest_reads p i b d : (get_latest p i b d).2 = d.
Proof.
  unfold get_latest, mbind, M_bind, get_state. cbv beta iota. destruct (latest_row p i d); [|done].
  case_match; [done|]. unfold of_result. by destruct (_to_item _).
Qed.
Lemma get_item_run p i v d a d' : get_item p i v d = (a, d') → d' = d.
Proof. intros H. by rewrite <- (get_item_reads p i v d), H. Qed.
Lemma get_latest_run p i b d a d' : get_latest p i b d = (a, d') → d' = d.
Proof. intros H. by rewrite <- (get_latest_reads p i b d), H. Qed.

Lemma get_item_Some p i v d x d' : get_item p i v d = (Ok (Some x), d') →
  ∃ r, select_row p i v d = Some r ∧ _to_item r = Ok x.
Proof.
  unfold get_item. intros H. apply bind_Ok in H as (d0 & d1 & H0 & H). apply get_state_Ok in H0 as [-> ->].
  destruct (select_row p i v d) as [r|]; [|by run_inv]. exists r. split; [done|]. by run_inv.
Qed.
Lemma select_row_Some p i v d r : select_row p i v d = Some r → r ∈ kd_items d ∧ row_is p i v r = true.
Proof. intros [H1 H2]%List.find_some. by rewrite list_elem_of_In. Qed.

Section operations.
Variable hash : json → string.

Lemma row_of_ok i :
  assert_model_output_class (ki_class i) (ki_producer_type i) = Ok () →
  bool_decide (ki_acceptance_state i = "accepted") && negb (one_of (ki_class i) ["accepted_fact"; "procedure"; "source"]) = false →
  bool_decide (ki_acceptance_state i = "accepted") && one_of (ki_producer_type i) model_producers = false →
  (ki_version i <? 1) = false → row_ok (row_of hash i).
Proof.
  unfold assert_model_output_class. intros H1 H2 H3 H4. split; unfold producer_is_model; cbn.
  - intros Ha. rewrite Ha in H2, H3. cbn in H2, H3. split; [|done].
    apply negb_false_iff, bool_decide_eq_true in H2. done.
  - intros Hm. rewrite Hm in H1. cbn in H1. case_match; [done|]. destruct (one_of (ki_class i) _MODEL_SAFE_CLASSES) eqn:E; [|done].
    by apply bool_decide_eq_true in E.
  - apply Z.ltb_ge in H4. lia.
Qed.

Lemma create_item_grows i d : grows d (create_item hash i d).2.
Proof.
  set (P := λ x : result KnowledgeItem * KnowledgeDb, grows d x.2).
  change (P (create_item hash i d)). unfold create_item.
  assert (P (Err AssertionError, d)) as Hd by (unfold P; reflexivity).
  destruct (assert_model_output_class (ki_class i) (ki_producer_type i)) as [[]|e] eqn:H1; [|exact Hd].
  apply (run_bind P); [by intros e d' [=]|]. intros u d' [= <- <-].
  run_rule P; [exact Hd|]. run_rule P; [exact Hd|]. run_rule P; [exact Hd|]. run_rule P; [exact Hd|].
  apply (run_bind P); [intros e d' ->%get_item_run; exact Hd|]. intros ex d' ->%get_item_run.
  run_rule P; [exact Hd|]. run_rule P. run_rule P; [exact Hd|]. apply (run_put_state P).
  unfold P, of_result. cbn [snd]. apply add_row_grows; [by apply row_of_ok|].
  intros (r & Hk & Hr)%list_elem_of_fmap.
  match goal with H : existsb _ _ = false |- _ => rename H into Hex end.
  apply not_true_iff_false in Hex. apply Hex, existsb_exists. exists r. split; [by apply list_elem_of_In|].
  unfold key, row_of in Hk. cbn in Hk. injection Hk as -> ->. rewrite bool_decide_true by done. by rewrite Z.eqb_refl.
Qed.

Lemma moves_reads_item p i v : moves grows (get_item p i v).
Proof. apply moves_reads; [apply _|]. apply get_item_reads. Qed.
Lemma moves_reads_latest p i b : moves grows (get_latest p i b).
Proof. apply moves_reads; [apply _|]. apply get_latest_reads. Qed.

Lemma new_version_grows now p i e : moves grows (new_version hash now p i e).
Proof.
  unfold new_version. apply moves_bind; [apply _|apply moves_reads_latest|]. intros l. repeat moves_step.
  intros d. apply create_item_grows.
Qed.
Lemma accept_fact_grows now p i v r : moves grows (accept_fact hash now p i v r).
Proof.
  unfold accept_fact. apply moves_bind; [apply _|apply moves_reads_item|]. intros l. repeat moves_step.
  apply new_version_grows.
Qed.

(** With unique keys all rows of a key are the selected one. *)
Lemma selected_row p i v d r r' : good d → select_row p i v d = Some r →
  r' ∈ kd_items d → row_is p i v r' = true → r' = r.
Proof.
  intros [U _ _] Hs Hr' K'. apply select_row_Some in Hs as [Hr K].
  assert (key r' = key r) as Hk.
  { unfold row_is in K, K'. bool_to_prop. unfold key. congruence. }
  apply list_elem_of_lookup in Hr as [n Hn], Hr' as [n' Hn'].
  assert (n' = n) as ->; [|congruence]. eapply (NoDup_lookup _ n' n (key r) U).
  - by rewrite list_lookup_fmap, Hn', <- Hk.
  - by rewrite list_lookup_fmap, Hn.
Qed.

Lemma add_link_grows l : moves grows (add_link l).
Proof.
  intros d. set (P := λ x : result KnowledgeLink * KnowledgeDb, grows d x.2).
  change (P (add_link l d)). unfold add_link.
  assert (∀ e, P (Err e, d)) as Hd by (intros e; unfold P; reflexivity).
  run_rule P; [apply Hd|].
  apply (run_bind P); [intros e d' ->%get_item_run; apply Hd|]. intros s d' Hs.
  pose proof (get_item_run _ _ _ _ _ _ Hs) as ->.
  apply (run_bind P); [intros e d' ->%get_item_run; apply Hd|]. intros t d' Ht.
  pose proof (get_item_run _ _ _ _ _ _ Ht) as ->.
  destruct s as [s|]; [|apply Hd]. destruct t as [t|]; [|apply Hd].
  run_rule P; [apply Hd|]. run_rule P. run_rule P; [apply Hd|]. apply (run_put_state P). unfold P. cbn [snd mret M_ret].
  apply get_item_Some in Hs as (rs & Hs & _), Ht as (rt & Ht & _).
  apply select_row_Some in Hs as [Hs Ks], Ht as [Ht Kt].
  apply other_tables_grow; [done|]. intros [_ _ L]. cbn. apply Forall_app. split; [done|]. apply Forall_singleton.
  split; [|by exists rs, rt]. by apply negb_false_iff, bool_decide_eq_true in H.
Qed.

Lemma invalidate_one_grows p i v reason at_ sid : moves grows (invalidate_one p i v reason at_ sid).
Proof.
  unfold invalidate_one. apply moves_bind; [apply _|apply moves_reads_latest|]. intros [l|]; [|moves_step].
  destruct (negb _); [moves_step|]. intros d. apply moves_at; [apply _|reflexivity|]. intros d0 d' [= <- <-].
  destruct (select_row p sid (ki_version l) d) as [row|] eqn:Hrow; [|cbn; reflexivity].
  case_bool_decide as Hdel; [reflexivity|]. apply moves_at; [apply _| |reflexivity].
  apply update_grows. intros Hg r Hr K. rewrite (selected_row _ _ _ _ _ _ Hg Hrow Hr K).
  split; [done|done|]. by intros [? _].
Qed.
Lemma invalidate_all_grows p i v reason at_ sids : moves grows (invalidate_all p i v reason at_ sids).
Proof. induction sids as [|sid sids IH]; cbn [invalidate_all]; repeat moves_step; [apply invalidate_one_grows|apply IH]. Qed.
Lemma invalidate_grows at_ p i v reason : moves grows (invalidate_dependents at_ p i v reason).
Proof. unfold invalidate_dependents. repeat moves_step. apply invalidate_all_grows. Qed.

Lemma tombstone_grows fid now at_ p i v rc ri rv : moves grows (tombstone fid now at_ p i v rc ri rv).
Proof.
  unfold tombstone. apply moves_bind; [apply _|apply moves_reads_latest|]. intros l.
  apply moves_bind; [apply _|moves_step|intros latest]. apply moves_bind; [apply _|moves_step|intros d0].
  apply moves_bind; [apply _|moves_step|intros row]. apply moves_bind; [apply _| |intros _].
  { intros d. apply update_grows. intros _ r _ _. split; [done|done|]. intros _. split; [by eexists|done]. }
  intros d. apply moves_at; [apply _|reflexivity|]. intros d' d1 [= <- <-].
  apply moves_at; [apply _|apply moves_raise_if; apply _|]. intros ? d1 [_ ->]%raise_if_Ok.
  apply moves_at; [apply _| |].
  - apply other_tables_grow; [done|]. by intros [_ _ L].
  - intros _ d1 _. apply moves_bind; [apply _|apply invalidate_grows|]. intros es. moves_step.
Qed.

Lemma dispute_evolves r : evolves r (dispute_row r).
Proof.
  unfold dispute_row. case_bool_decide as H; [|reflexivity]. split; [done|done|]. intros [_ Hb]. congruence.
Qed.
Lemma contradiction_grows fl now p li lv ri rv ev : moves grows (record_contradiction fl now p li lv ri rv ev).
Proof.
  unfold record_contradiction. repeat moves_step; [apply add_link_grows| |];
    intros d; apply update_grows; intros; apply dispute_evolves.
Qed.

Lemma supersede_grows fl now later at_ p i v body rev topic :
  moves grows (supersede hash fl now later at_ p i v body rev topic).
Proof.
  intros d. unfold supersede.
  apply moves_at; [apply _|apply moves_reads_item|]. intros o d1 Hold.
  pose proof (get_item_run _ _ _ _ _ _ Hold) as ->.
  apply moves_at; [apply _|apply moves_require; apply _|]. intros old d1 [-> ->]%require_Ok.
  apply moves_at; [apply _|apply moves_raise_if; apply _|]. intros u d1 [Hnd ->]%raise_if_Ok.
  apply moves_at; [apply _|reflexivity|]. intros d0 d1 [= <- <-].
  apply moves_at; [apply _|apply moves_require; apply _|]. intros row d1 [Hrow ->]%require_Ok.
  apply get_item_Some in Hold as (row' & Hrow' & Hi). rewrite Hrow in Hrow'. injection Hrow' as <-.
  apply to_item_fields in Hi as (Est & _). apply bool_decide_eq_false in Hnd.
  apply moves_at; [apply _| |].
  - apply update_grows. intros Hg r Hr K. rewrite (selected_row _ _ _ _ _ _ Hg Hrow Hr K).
    split; [done|done|]. intros [_ Hb]. congruence.
  - intros _ d1 _. revert d1. match goal with |- ∀ d1, grows d1 (snd (?m d1)) => change (moves grows m) end.
    apply moves_bind; [apply _|apply new_version_grows|]. intros x.
    apply moves_bind; [apply _|apply add_link_grows|]. intros y.
    apply moves_bind; [apply _|apply invalidate_grows|]. intros z. moves_step.
Qed.

(** ** Executions *)
Inductive kstep (d : KnowledgeDb) : KnowledgeDb → Prop :=
| k_create i : kstep d (create_item hash i d).2
| k_new_version now p i e : kstep d (new_version hash now p i e d).2
| k_accept now p i v r : kstep d (accept_fact hash now p i v r d).2
| k_link l : kstep d (add_link l d).2
| k_tombstone fid now at_ p i v rc ri rv : kstep d (tombstone fid now at_ p i v rc ri rv d).2
| k_supersede fl now later at_ p i v b r t : kstep d (supersede hash fl now later at_ p i v b r t d).2
| k_contradiction fl now p li lv ri rv ev : kstep d (record_contradiction fl now p li lv ri rv ev d).2
| k_invalidate at_ p i v r : kstep d (invalidate_dependents at_ p i v r d).2.

Lemma kstep_grows d d' : kstep d d' → grows d d'.
Proof.
  destruct 1; [apply create_item_grows|apply new_version_grows|apply accept_fact_grows|apply add_link_grows
    |apply tombstone_grows|apply supersede_grows|apply contradiction_grows|apply invalidate_grows].
Qed.
Lemma ksteps_grow d d' : rtc kstep d d' → grows d d'.
Proof. induction 1 as [|x y z H _ IH]; [reflexivity|]. etrans; [by apply kstep_grows|done]. Qed.

Definition kreachable (d : KnowledgeDb) : Prop := rtc kstep (mkKnowledgeDb [] [] []) d.
Lemma kreachable_good d : kreachable d → good d.
Proof. intros H. apply (ksteps_grow _ _ H). split; [constructor|constructor|constructor]. Qed.

(** No model promotes its own output: in every state the repository can reach, by any
    sequence of creations, edits, acceptances, supersessions, contradictions, deletions and
    invalidations, committed or not when they raised, an accepted version was not produced by
    a model and is a fact, a procedure or a source; a version a model produced is an
    observation, a hypothesis, a summary or a source; versions are unique and positive; and
    every link joins two versions of the link's own project. *)
Theorem knowledge_is_reviewed d :
  kreachable d →
  NoDup (key <$> kd_items d)
  ∧ (∀ r, r ∈ kd_items d →
       1 <= kr_version r
       ∧ (kr_acceptance_state r = "accepted" →
            (kr_producer_type r ∉ model_producers) ∧ kr_class r ∈ ["accepted_fact"; "procedure"; "source"])
       ∧ (kr_producer_type r ∈ model_producers → kr_class r ∈ ["observation"; "hypothesis"; "summary"; "source"]))
  ∧ ∀ l, l ∈ kd_links d → ∃ s t, s ∈ kd_items d ∧ t ∈ kd_items d
      ∧ kr_project_id s = kl_project_id l ∧ kr_project_id t = kl_project_id l
      ∧ key s = (kl_from_item_id l, kl_from_version l) ∧ key t = (kl_to_item_id l, kl_to_version l).
Proof.
  intros [U R L]%kreachable_good. rewrite Forall_forall in R. rewrite Forall_forall in L. split_and!; [done| |].
  - intros r [A B V]%R. split_and!; [done| |].
    + intros [H1 H2]%A. split; [|done]. by apply bool_decide_eq_false in H2.
    + intros Hm. apply B. by apply bool_decide_eq_true.
  - intros l (_ & s & t & Hs & Ht & Ks & Kt)%L. exists s, t. unfold row_is in Ks, Kt. bool_to_prop.
    split_and!; try done; unfold key; congruence.
Qed.

(** Versions are immutable and deletion is final: whatever happens later, a version that
    exists stays, with its text, class, producer, labels, provenance and digest; it is never
    made accepted if it was not created so; and once a version is deleted it is in no listing
    of any project, for any caller and any mode. *)
Theorem versions_are_immutable d d' r :
  kreachable d → rtc kstep d d' → r ∈ kd_items d →
  ∃ r', r' ∈ kd_items d' ∧ content r' = content r
    ∧ (kr_acceptance_state r' = "accepted" → kr_acceptance_state r = "accepted")
    ∧ (kr_deleted_at r ≠ None → kr_acceptance_state r = "deleted" →
        ∀ p labels classes sup limit r2, r2 ∈ visible_rows p labels classes sup limit d' → key r2 ≠ key r).
Proof.
  intros Hd Hs Hr. destruct (ksteps_grow _ _ Hs (kreachable_good _ Hd)) as [Hg He].
  destruct (extends_row _ _ _ He Hr) as (r' & Hr' & Ev). exists r'. split_and!; [done|apply Ev|apply Ev|].
  intros Hdel Hst p labels classes sup limit r2 Hv Hk.
  destruct (ev_buried _ _ Ev) as [Hb _]; [split; [by apply not_eq_None_Some|done]|].
  unfold visible_rows in Hv. apply list_elem_of_In, filter_In in Hv as [Hv _].
  apply list_elem_of_In, elem_of_take in Hv as (n & Hv & _). apply list_elem_of_lookup_2 in Hv.
  rewrite elem_of_sort_by, list_elem_of_In, filter_In, <- list_elem_of_In in Hv. destruct Hv as [Hv Hvis].
  assert (r2 = r') as ->; [|].
  { rewrite <- (evolves_key _ _ Ev) in Hk. apply list_elem_of_lookup in Hv as [n2 Hn2], Hr' as [n' Hn'].
    assert (n2 = n') as ->; [|congruence]. eapply (NoDup_lookup _ n2 n' (key r') (g_unique _ Hg)).
    - by rewrite list_lookup_fmap, Hn2, <- Hk.
    - by rewrite list_lookup_fmap, Hn'. }
  unfold visible_row in Hvis. bool_to_prop. destruct Hb. congruence.
Qed.
End operations.
