(* ===== verification/Retrieval.v ===== *)
(** * Retrieval: permission-first knowledge retrieval
    (src/swarm/knowledge/retrieval.py, knowledge/budget.py)

    Retrieval reads the repository and writes nothing; it is a function of the query, the
    clock, the invalidation log and the tables.  [payload_hash] and SHA-256 are parameters. *)
From S2P Require Import Prelude Collections Contracts PyFloat Json Knowledge KnowledgeProps.
From Stdlib Require Import Ascii.
Open Scope Z_scope.

(** ** Contracts *)
Record RetrievalActor := mkRetrievalActor {
  ra_actor_id : string;
  ra_project_id : string;
  ra_permission_labels : list string;
  ra_scopes : list string
}.
Record RetrievalQuery := mkRetrievalQuery {
  rq_actor : RetrievalActor;
  rq_query_text : string;
  rq_topics : list string;
  rq_retrieval_labels : list string;
  rq_classes : list string;
  rq_mode : string;
  rq_token_budget : Z;
  rq_max_items : Z;
  rq_policy_version : string
}.
Record SelectedKnowledgeRef := mkSelectedRef {
  sr_item_id : string;
  sr_version : Z;
  sr_class : string;
  sr_topic : string;
  sr_acceptance_state : string;
  sr_provenance_refs : list string;
  sr_content_digest : string;
  sr_tokens_estimate : Z;
  sr_rank_score : float;
  sr_why_selected : string
}.
Record RetrievalReceipt := mkRetrievalReceipt {
  rr_project_id : string;
  rr_actor_id : string;
  rr_actor_scope_digest : string;
  rr_query_digest : string;
  rr_selected : list SelectedKnowledgeRef;
  rr_conflict_sets : list (list string);
  rr_omitted_reason_counts : dict Z;
  rr_token_budget : Z;
  rr_tokens_used : Z;
  rr_tokens_avoided_estimate : Z;
  rr_retrieval_policy_version : string;
  rr_created_at : Z;
  rr_context_text : string
}.
Record KnowledgeContextBundle := mkBundle { kb_receipt : RetrievalReceipt; kb_items : list KnowledgeItem }.

(** ** Text *)
(** [s.split()]; [cur] is the word being read, in reverse. *)
Fixpoint split_words (cur : list ascii) (l : list ascii) : list string :=
  match l with
  | [] => if bool_decide (length cur = 0%nat) then [] else [String.string_of_list_ascii (reverse cur)]
  | c :: l' =>
    if is_space c then
      (if bool_decide (length cur = 0%nat) then [] else [String.string_of_list_ascii (reverse cur)]) ++ split_words [] l'
    else split_words (c :: cur) l'
  end.
Definition words (s : string) : list string := split_words [] (String.list_ascii_of_string s).
Definition estimate_tokens (text : string) : Z := Z.max 1 (Z.of_nat (length (words text))).
Definition item_tokens (i : KnowledgeItem) : Z := estimate_tokens (ki_body i) + estimate_tokens (ki_topic i).

(** ** The steps of [retrieve] *)
Definition _authorize_actor (q : RetrievalQuery) : result () :=
  let actor := rq_actor q in
  if bool_decide (ra_actor_id actor = "") || bool_decide (ra_project_id actor = "")
  then Err (KnowledgeScopeError "actor_or_project_missing")
  else if negb (bool_decide (ra_scopes actor = [])) && negb (one_of ("project:" +:+ ra_project_id actor) (ra_scopes actor))
          && negb (one_of (ra_project_id actor) (ra_scopes actor))
  then Err (KnowledgeScopeError "actor_project_scope_mismatch")
  else Ok ().

Definition include_superseded (q : RetrievalQuery) : bool := one_of (rq_mode q) ["include_superseded"; "audit_all_versions"].

(** The events of the log that invalidate a version. *)
Definition invalidates (project_id : string) (i : KnowledgeItem) (e : json) : bool :=
  py_eqb (jget e "project_id") (JStr project_id)
  && existsb (λ k, py_eqb (jget e "kind") (JStr k)) ["summary_invalidated"; "cache_invalidate"; "export_invalidate"]
  && py_eqb (jget e "item_id") (JStr (ki_item_id i)) && py_eqb (jget e "version") (JInt (ki_version i)).

(** What becomes of a permitted row: kept, counted under a reason, or left out silently. *)
Inductive fate := Keep | Omit (reason : string) | Skip.
Definition fate_of (q : RetrievalQuery) (log : list json) (now : Z) (i : KnowledgeItem) : fate :=
  if negb (bool_decide (ki_project_id i = ra_project_id (rq_actor q))) then Omit "wrong_project"
  else if bool_decide (ki_acceptance_state i = "deleted") then Omit "deleted"
  else if bool_decide (ki_acceptance_state i = "superseded") && negb (include_superseded q) then Omit "superseded"
  else if match ki_expires_at i with Some t => t <=? now | None => false end then Omit "stale_expired"
  else if existsb (invalidates (ra_project_id (rq_actor q)) i) log && bool_decide (ki_class i = "summary")
  then Omit "invalidated_summary"
  else if negb (bool_decide (rq_topics q = [])) && negb (one_of (ki_topic i) (rq_topics q)) then Skip
  else if negb (bool_decide (rq_retrieval_labels q = [])) && negb (bool_decide (ki_retrieval_labels i = []))
          && negb (existsb (λ l, one_of l (rq_retrieval_labels q)) (ki_retrieval_labels i)) then Skip
  else Keep.

Definition bump (reason : string) (omitted : dict Z) : dict Z :=
  dict_set omitted reason (default 0 (dict_get omitted reason) + 1).
Definition no_omissions : dict Z :=
  (λ r, (r, 0)) <$> ["wrong_project"; "permission_denied"; "deleted"; "superseded"; "stale_expired";
                     "invalidated_summary"; "budget_truncated"; "ranked_out"].

Fixpoint sift (q : RetrievalQuery) (log : list json) (now : Z) (omitted : dict Z) (rows : list KnowledgeItem)
    : list KnowledgeItem * dict Z :=
  match rows with
  | [] => ([], omitted)
  | i :: rows =>
    match fate_of q log now i with
    | Keep => let '(out, om) := sift q log now omitted rows in (i :: out, om)
    | Omit reason => sift q log now (bump reason omitted) rows
    | Skip => sift q log now omitted rows
    end
  end.

Definition _permitted_candidates (q : RetrievalQuery) (log : list json) (now : Z) (d : KnowledgeDb)
    : result (list KnowledgeItem * dict Z) :=
  match list_visible (ra_project_id (rq_actor q)) (ra_permission_labels (rq_actor q)) (rq_classes q)
          (include_superseded q) 500 d with
  | Ok rows => Ok (sift q log now no_omissions rows)
  | Err e => Err e
  end.

(** The score of an item and the reasons for it. *)
Definition f_3 : float := float_of_Z 3.
Definition f_4 : float := float_of_Z 4.
Definition f_5 : float := float_of_Z 5.
Definition f_6 : float := float_of_Z 6.
Definition add_if (b : bool) (x : float) (why : option string) (acc : float * list string) : float * list string :=
  if b then (fadd acc.1 x, acc.2 ++ match why with Some w => [w] | None => [] end) else acc.
Definition query_score (q : string) (i : KnowledgeItem) (acc : float * list string) : float * list string :=
  let body_l := to_lower (ki_body i) in
  let topic_l := to_lower (ki_topic i) in
  if bool_decide (q = "") then acc
  else if contains q topic_l then add_if true f_6 (Some "query_in_topic") acc
  else if contains q body_l then add_if true f_3 (Some "query_in_body") acc
  else
    let overlap := List.filter (λ w, one_of w (words body_l) || one_of w (words topic_l)) (remove_dups (words q)) in
    (fadd acc.1 (fmul f_0_5 (float_of_Z (Z.of_nat (length overlap)))),
     acc.2 ++ (if bool_decide (length overlap = 0%nat) then [] else ["token_overlap"])).
Definition score (q : RetrievalQuery) (i : KnowledgeItem) : float * string :=
  let text := strip (to_lower (rq_query_text q)) in
  let acc := add_if (bool_decide (ki_acceptance_state i = "accepted")) f_5 (Some "accepted") (f_0, []) in
  let acc := add_if (bool_decide (ki_class i = "accepted_fact")) f_3 (Some "accepted_fact") acc in
  let acc := add_if (bool_decide (ki_class i = "procedure")) f_2 None acc in
  let acc := add_if (one_of (ki_topic i) (rq_topics q)) f_4 (Some "topic_match") acc in
  let acc := query_score text i acc in
  let total := match ki_confidence i with Some c => fadd acc.1 c | None => acc.1 end in
  (total, match acc.2 with [] => "permitted_candidate" | why => join "," why end).

Definition ranked_item : Type := float * KnowledgeItem * string.
(** The order of the sort key (-score, created_at, item_id). *)
Definition rank_leb (a b : ranked_item) : bool :=
  let '(sa, ia, _) := a in let '(sb, ib, _) := b in
  fltb sb sa || (feqb sa sb && ((ki_created_at ia <? ki_created_at ib)
    || ((ki_created_at ia =? ki_created_at ib) && str_leb (ki_item_id ia) (ki_item_id ib)))).
Definition _rank (candidates : list KnowledgeItem) (q : RetrievalQuery) : list ranked_item :=
  sort_by rank_leb ((λ i, let '(s, why) := score q i in (s, i, why)) <$> candidates).

(** The pairs of candidates that contradict each other, each once. *)
Fixpoint conflict_pairs (ids : list string) (seen : list (gset string)) (links : list KnowledgeLink)
    : list (list string) :=
  match links with
  | [] => []
  | l :: links =>
    let pair : gset string := {[kl_from_item_id l; kl_to_item_id l]} in
    if one_of (kl_from_item_id l) ids && one_of (kl_to_item_id l) ids && negb (bool_decide (pair ∈ seen))
       && negb (bool_decide (kl_from_item_id l = kl_to_item_id l))
    then sort_by str_leb [kl_from_item_id l; kl_to_item_id l] :: conflict_pairs ids (pair :: seen) links
    else conflict_pairs ids seen links
  end.
Definition _conflict_sets (project_id : string) (candidates : list KnowledgeItem) (d : KnowledgeDb) : list (list string) :=
  conflict_pairs (ki_item_id <$> candidates) [] (list_links project_id (Some "contradicts") None d).

Section retrieve.
Variable payload_hash : json → string.
Variable sha256 : string → string.

Definition ref_of (s : float) (i : KnowledgeItem) (why : string) : SelectedKnowledgeRef :=
  mkSelectedRef (ki_item_id i) (ki_version i) (ki_class i) (ki_topic i) (ki_acceptance_state i) (ki_provenance_refs i)
    (ensure_content_digest payload_hash i) (item_tokens i) s why.

(** The assembly of the context under the token budget and the item limit. *)
Fixpoint assemble (q : RetrievalQuery) (used : Z) (chosen : nat) (omitted : dict Z) (ranked : list ranked_item)
    : list (SelectedKnowledgeRef * KnowledgeItem) * Z * dict Z :=
  match ranked with
  | [] => ([], used, omitted)
  | (s, i, why) :: ranked =>
    let tokens := item_tokens i in
    if rq_max_items q <=? Z.of_nat chosen then assemble q used chosen (bump "ranked_out" omitted) ranked
    else if (rq_token_budget q <? used + tokens) && negb (Nat.eqb chosen 0)
    then assemble q used chosen (bump "budget_truncated" omitted) ranked
    else if (rq_token_budget q <? used + tokens) && Nat.eqb chosen 0 && (rq_token_budget q <? tokens)
    then assemble q used chosen (bump "budget_truncated" omitted) ranked
    else let '(rest, used', om) := assemble q (used + tokens) (S chosen) omitted ranked in
         ((ref_of s i why, i) :: rest, used', om)
  end.

Definition _scope_digest (q : RetrievalQuery) : string := payload_hash
  (JObj [("actor_id", JStr (ra_actor_id (rq_actor q))); ("project_id", JStr (ra_project_id (rq_actor q)));
         ("permission_labels", JList (JStr <$> sort_by str_leb (ra_permission_labels (rq_actor q))));
         ("scopes", JList (JStr <$> sort_by str_leb (ra_scopes (rq_actor q))))]).
Definition _query_digest (q : RetrievalQuery) : string :=
  sha256 (rq_query_text q +:+ "|" +:+ join "," (rq_topics q) +:+ "|" +:+ join "," (rq_classes q)).

Definition newline : string := String (ascii_of_nat 10) EmptyString.
Definition context_line (i : KnowledgeItem) : string :=
  "[" +:+ ki_class i +:+ " v" +:+ pretty (ki_version i) +:+ " " +:+ ki_item_id i +:+ "] " +:+ ki_topic i +:+ ": " +:+ ki_body i.

Definition retrieve (q : RetrievalQuery) (log : list json) (now : Z) (d : KnowledgeDb) : result KnowledgeContextBundle :=
  match _authorize_actor q with
  | Err e => Err e
  | Ok _ =>
    match _permitted_candidates q log now d with
    | Err e => Err e
    | Ok (candidates, omitted) =>
      let project := ra_project_id (rq_actor q) in
      let '(chosen, used, omitted) := assemble q 0 0 omitted (_rank candidates q) in
      let items := chosen.*2 in
      let all_tokens := sum_by item_tokens candidates in
      Ok (mkBundle (mkRetrievalReceipt project (ra_actor_id (rq_actor q)) (_scope_digest q) (_query_digest q) chosen.*1
                      (_conflict_sets project candidates d) omitted (rq_token_budget q) used
                      (Z.max 0 (all_tokens - used)) (rq_policy_version q) now
                      (join (newline +:+ newline) (context_line <$> items)))
            items)
    end
  end.

(** ** The context budget report *)
Record ContextBudgetReport := mkBudgetReport {
  br_project_id : string;
  br_mission_set_size : Z;
  br_selected_facts : Z;
  br_tokens_loaded : Z;
  br_tokens_whole_history : Z;
  br_tokens_avoided : Z;
  br_stale_or_irrelevant : Z;
  br_cross_project_leaks : Z;
  br_notes : list string
}.
Definition budget_query (project_id actor_id : string) (labels : list string) (text : string) (budget max_items : Z)
    : RetrievalQuery :=
  mkRetrievalQuery (mkRetrievalActor actor_id project_id labels ["project:" +:+ project_id]) text [] [] [] "default"
    budget max_items "v16-retrieval-1".

Definition measure_context_budget (now later : Z) (project_id actor_id : string) (labels : list string)
    (query_text : string) (token_budget : Z) (other_project_id : option string) (d : KnowledgeDb)
    : result ContextBudgetReport :=
  match list_visible project_id labels [] false 1000 d with
  | Err e => Err e
  | Ok visible =>
    let whole := sum_by item_tokens visible in
    match retrieve (budget_query project_id actor_id labels query_text token_budget 8) [] now d with
    | Err e => Err e
    | Ok bundle =>
      let receipt := kb_receipt bundle in
      let count r := default 0 (dict_get (rr_omitted_reason_counts receipt) r) in
      let stale := count "stale_expired" + count "superseded" in
      match
        (if truthy other_project_id then
           match retrieve (budget_query project_id actor_id labels
                             (if bool_decide (query_text = "") then "leakprobe" else query_text) token_budget 16) [] later d with
           | Err e => Err e
           | Ok foreign =>
             match list_visible (default "" other_project_id) labels [] false 100 d with
             | Err e => Err e
             | Ok other => Ok (Z.of_nat (length (List.filter (λ r, one_of (sr_item_id r) (ki_item_id <$> other))
                                                   (rr_selected (kb_receipt foreign)))))
             end
           end
         else Ok 0)
      with
      | Err e => Err e
      | Ok leaks =>
        Ok (mkBudgetReport project_id (Z.of_nat (length visible)) (Z.of_nat (length (rr_selected receipt)))
              (rr_tokens_used receipt) whole (rr_tokens_avoided_estimate receipt) stale leaks
              ((if whole <=? rr_tokens_used receipt then ["whole_history_not_larger_than_selected_or_empty_corpus"] else [])
               ++ ["task_quality_UNKNOWN_no_live_mission_eval_this_turn"]))
      end
    end
  end.
End retrieve.

(** ** What is retrieved *)
Lemma sift_spec q log now om rows out om' : sift q log now om rows = (out, om') →
  ∀ i, i ∈ out → i ∈ rows ∧ fate_of q log now i = Keep.
Proof.
  revert om out; induction rows as [|x rows IH]; intros om out; cbn [sift].
  { intros [= <- <-] i Hi. by apply elem_of_nil in Hi. }
  destruct (fate_of q log now x) eqn:Hf.
  - destruct (sift q log now om rows) as [out0 om0] eqn:E. intros [= <- <-] i [->|Hi]%elem_of_cons.
    + split; [by left|done].
    + destruct (IH _ _ E i Hi). split; [by right|done].
  - intros E i Hi. destruct (IH _ _ E i Hi). split; [by right|done].
  - intros E i Hi. destruct (IH _ _ E i Hi). split; [by right|done].
Qed.

Lemma to_items_spec rows l : to_items rows = Ok l → ∀ i, i ∈ l → ∃ r, r ∈ rows ∧ _to_item r = Ok i.
Proof.
  revert l; induction rows as [|r rows IH]; intros l; cbn [to_items].
  { intros [= <-] i Hi. by apply elem_of_nil in Hi. }
  destruct (_to_item r) as [x|] eqn:E; [|done]. destruct (to_items rows) as [l0|]; [|done].
  intros [= <-] i [->|Hi]%elem_of_cons; [exists r; split; [by left|done]|].
  destruct (IH _ eq_refl i Hi) as (r' & Hr' & E'). exists r'. split; [by right|done].
Qed.

Lemma visible_rows_spec p labels classes sup limit d r : r ∈ visible_rows p labels classes sup limit d →
  r ∈ kd_items d ∧ visible_row p classes sup r = true ∧ permitted labels r = true.
Proof.
  unfold visible_rows. rewrite list_elem_of_In, filter_In, <- list_elem_of_In. intros [Hr Hp].
  apply elem_of_take in Hr as (n & Hr & _). apply list_elem_of_lookup_2 in Hr.
  by rewrite elem_of_sort_by, list_elem_of_In, filter_In, <- list_elem_of_In in Hr; destruct Hr.
Qed.

(** What may be retrieved of a row, by whom and when. *)
Definition retrievable (q : RetrievalQuery) (now : Z) (r : KnowledgeItemRow) : Prop :=
  kr_project_id r = ra_project_id (rq_actor q)
  ∧ kr_deleted_at r = None ∧ kr_acceptance_state r ≠ "deleted"
  ∧ (rq_mode q = "default" → kr_acceptance_state r ≠ "superseded")
  ∧ (kr_permission_labels r = [] ∨ ∃ l, l ∈ kr_permission_labels r ∧ l ∈ ra_permission_labels (rq_actor q))
  ∧ (∀ t, kr_expires_at r = Some t → now < t)
  ∧ (rq_classes q = [] ∨ kr_class r ∈ rq_classes q).

Section facts.
Variable payload_hash : json → string.
Variable sha256 : string → string.

Lemma assemble_spec q used chosen om ranked out used' om' :
  assemble payload_hash q used chosen om ranked = (out, used', om') → (chosen = 0%nat → used = 0) →
  (∀ x, x ∈ out → ∃ s why, (s, x.2, why) ∈ ranked ∧ x.1 = ref_of payload_hash s x.2 why)
  ∧ used' = used + sum_by item_tokens out.*2
  ∧ (used <= Z.max 0 (rq_token_budget q) → used' <= Z.max 0 (rq_token_budget q))
  ∧ Z.of_nat (chosen + length out) <= Z.max (Z.of_nat chosen) (rq_max_items q).
Proof.
  revert used chosen om out; induction ranked as [|[[s i] why] ranked IH]; intros used chosen om out; cbn [assemble].
  { intros [= <- <- <-] _. cbn. split_and!; [by intros x Hx%elem_of_nil|lia|done|lia]. }
  assert (∀ om0, assemble payload_hash q used chosen om0 ranked = (out, used', om') → (chosen = 0%nat → used = 0) →
    (∀ x, x ∈ out → ∃ s0 why0, (s0, x.2, why0) ∈ (s, i, why) :: ranked ∧ x.1 = ref_of payload_hash s0 x.2 why0)
    ∧ used' = used + sum_by item_tokens out.*2
    ∧ (used <= Z.max 0 (rq_token_budget q) → used' <= Z.max 0 (rq_token_budget q))
    ∧ Z.of_nat (chosen + length out) <= Z.max (Z.of_nat chosen) (rq_max_items q)) as Hskip.
  { intros om0 E H0. destruct (IH _ _ _ _ E H0) as (H1 & H2 & H3 & H4). split_and!; try done.
    intros x Hx. destruct (H1 x Hx) as (s0 & w0 & Hin & Hr). exists s0, w0. split; [by right|done]. }
  destruct (rq_max_items q <=? Z.of_nat chosen) eqn:Em; [apply Hskip|].
  destruct ((rq_token_budget q <? used + item_tokens i) && negb (Nat.eqb chosen 0)) eqn:E1; [apply Hskip|].
  destruct ((rq_token_budget q <? used + item_tokens i) && Nat.eqb chosen 0 && (rq_token_budget q <? item_tokens i)) eqn:E2;
    [apply Hskip|].
  destruct (assemble payload_hash q (used + item_tokens i) (S chosen) om ranked) as [[rest u] o] eqn:E.
  intros [= <- <- <-] H0. destruct (IH _ _ _ _ E) as (H1 & H2 & H3 & H4); [done|]. cbn [length].
  apply Z.leb_gt in Em. split_and!.
  - intros x [->|Hx]%elem_of_cons; [exists s, why; split; [by left|done]|].
    destruct (H1 x Hx) as (s0 & w0 & Hin & Hr). exists s0, w0. split; [by right|done].
  - cbn. rewrite H2. lia.
  - intros Hu. apply H3. destruct (rq_token_budget q <? used + item_tokens i) eqn:E3; [|apply Z.ltb_ge in E3; lia].
    cbn in E1, E2. destruct (Nat.eqb_spec chosen 0) as [E0|]; [|done]. cbn in E2. specialize (H0 E0).
    apply Z.ltb_ge in E2. lia.
  - lia.
Qed.

Lemma rank_elem i cs q : (∃ s why, (s, i, why) ∈ _rank cs q) ↔ i ∈ cs.
Proof.
  unfold _rank. setoid_rewrite elem_of_sort_by. setoid_rewrite list_elem_of_fmap. split.
  - intros (s & why & x & E & Hx). destruct (score q x). by simplify_eq.
  - intros Hi. destruct (score q i) as [s why] eqn:E. exists s, why, i. by rewrite E.
Qed.

Lemma authorize_Ok q : _authorize_actor q = Ok () →
  ra_scopes (rq_actor q) = [] ∨ ("project:" +:+ ra_project_id (rq_actor q)) ∈ ra_scopes (rq_actor q)
  ∨ ra_project_id (rq_actor q) ∈ ra_scopes (rq_actor q).
Proof.
  unfold _authorize_actor. cbv zeta. destruct (_ || _); [done|].
  case_bool_decide; [by left|]. cbn [negb andb].
  destruct (one_of ("project:" +:+ _) _) eqn:E1; [intros _; right; left; by apply bool_decide_eq_true in E1|].
  destruct (one_of (ra_project_id _) _) eqn:E2; [intros _; right; right; by apply bool_decide_eq_true in E2|]. done.
Qed.

(** What was listed and sifted may be retrieved. *)
Lemma sifted_retrievable q log now r i :
  visible_row (ra_project_id (rq_actor q)) (rq_classes q) (include_superseded q) r = true →
  permitted (ra_permission_labels (rq_actor q)) r = true → _to_item r = Ok i → fate_of q log now i = Keep →
  retrievable q now r.
Proof.
  intros Hv Hp Hi Hf. apply to_item_fields in Hi as (_ & _ & _ & _ & _ & _ & Hexp). unfold visible_row in Hv.
  repeat match goal with H : _ && _ = true |- _ => apply andb_true_iff in H as [H ?] end.
  repeat match goal with H : bool_decide _ = true |- _ => apply bool_decide_eq_true in H end.
  repeat match goal with H : negb (bool_decide _) = true |- _ => apply negb_true_iff, bool_decide_eq_false in H end.
  split_and!; try done.
  - intros Hm Hst. unfold include_superseded in *. rewrite Hm, Hst in *. done.
  - unfold permitted in Hp. apply orb_true_iff in Hp as [Hp|Hp]; [left; by apply bool_decide_eq_true in Hp|right].
    apply existsb_exists in Hp as (l & Hl & Ho). exists l. split; [by apply list_elem_of_In|by apply bool_decide_eq_true in Ho].
  - intros t Ht. unfold fate_of in Hf. rewrite Hexp, Ht in Hf. repeat case_match; try done. lia.
  - match goal with H : bool_decide (rq_classes q = []) || _ = true |- _ => apply orb_true_iff in H as [H|H];
      apply bool_decide_eq_true in H; [by left|by right] end.
Qed.

(** Retrieval is permission-first: every item of a bundle is a row of the actor's own
    project that is neither deleted nor expired, carries no permission labels or one the
    actor has, is of a requested class, and is not superseded unless the mode asks for it;
    the actor's scopes cover the project; the items are at most as many as asked for, and
    what they cost in tokens, exactly as the receipt says, is within the budget. *)
Theorem retrieval_is_permission_first q log now d b :
  retrieve payload_hash sha256 q log now d = Ok b →
  (ra_scopes (rq_actor q) = [] ∨ ("project:" +:+ ra_project_id (rq_actor q)) ∈ ra_scopes (rq_actor q)
   ∨ ra_project_id (rq_actor q) ∈ ra_scopes (rq_actor q))
  ∧ (∀ i, i ∈ kb_items b → ∃ r, r ∈ kd_items d ∧ _to_item r = Ok i ∧ retrievable q now r)
  ∧ Z.of_nat (length (kb_items b)) <= Z.max 0 (rq_max_items q)
  ∧ rr_tokens_used (kb_receipt b) = sum_by item_tokens (kb_items b)
  ∧ rr_tokens_used (kb_receipt b) <= Z.max 0 (rq_token_budget q)
  ∧ (sr_item_id <$> rr_selected (kb_receipt b)) = ki_item_id <$> kb_items b.
Proof.
  unfold retrieve. destruct (_authorize_actor q) as [[]|] eqn:Ha; [|done].
  destruct (_permitted_candidates q log now d) as [[cs om]|] eqn:Hc; [|done].
  destruct (assemble payload_hash q 0 0 om (_rank cs q)) as [[chosen used] om'] eqn:Has. intros [= <-].
  cbn [kb_items kb_receipt rr_tokens_used rr_selected].
  destruct (assemble_spec _ _ _ _ _ _ _ _ Has) as (H1 & H2 & H3 & H4); [done|]. split_and!.
  - by apply authorize_Ok.
  - intros i (x & -> & Hx)%list_elem_of_fmap. destruct (H1 x Hx) as (s & why & Hin & _).
    assert (x.2 ∈ cs) as Hcs by (apply (rank_elem _ _ q); eauto).
    unfold _permitted_candidates in Hc. destruct (list_visible _ _ _ _ _ d) as [rows|] eqn:Hv; [|done].
    injection Hc as Hsift. destruct (sift_spec _ _ _ _ _ _ _ Hsift _ Hcs) as [Hrow Hfate].
    destruct (to_items_spec _ _ Hv _ Hrow) as (r & Hr & Hti). exists r.
    apply visible_rows_spec in Hr as (Hr & Hvis & Hperm). split_and!; [done|done|].
    by eapply sifted_retrievable.
  - rewrite length_fmap. lia.
  - lia.
  - apply H3. lia.
  - rewrite <- !list_fmap_compose. apply list_fmap_ext. intros n x Hx. cbn.
    destruct (H1 x) as (s & why & _ & ->); [by eapply list_elem_of_lookup_2|done].
Qed.

(** ** Other projects are invisible *)
Definition project_rows (p : string) (d : KnowledgeDb) : list KnowledgeItemRow :=
  List.filter (λ r, bool_decide (kr_project_id r = p)) (kd_items d).
Definition project_links (p : string) (d : KnowledgeDb) : list KnowledgeLink :=
  List.filter (λ l, bool_decide (kl_project_id l = p)) (kd_links d).

Lemma filter_within {A} (f g : A → bool) l : (∀ x, g x = true → f x = true) →
  List.filter g l = List.filter g (List.filter f l).
Proof.
  intros H. induction l as [|x l IH]; [done|]. cbn. destruct (f x) eqn:Ef; cbn.
  - by rewrite <- IH.
  - destruct (g x) eqn:Eg; [|done]. apply H in Eg. congruence.
Qed.

Lemma visible_project p labels classes sup limit d1 d2 : project_rows p d1 = project_rows p d2 →
  list_visible p labels classes sup limit d1 = list_visible p labels classes sup limit d2.
Proof.
  assert (∀ d, List.filter (visible_row p classes sup) (kd_items d)
               = List.filter (visible_row p classes sup) (project_rows p d)) as E.
  { intros d. apply filter_within. intros r Hr. unfold visible_row in Hr. by repeat apply andb_true_iff in Hr as [Hr _]. }
  intros H. unfold list_visible, visible_rows. by rewrite (E d1), (E d2), H.
Qed.
Lemma links_project p rel item d1 d2 : project_links p d1 = project_links p d2 →
  list_links p rel item d1 = list_links p rel item d2.
Proof.
  assert (∀ d, list_links p rel item d = list_links p rel item (d <| kd_links := project_links p d |>)) as E.
  { intros d. apply filter_within. intros l Hl. by repeat apply andb_true_iff in Hl as [Hl _]. }
  intros H. rewrite (E d1), (E d2). unfold list_links. cbn. by rewrite H.
Qed.

(** Other projects cannot be seen, not even indirectly: the bundle retrieved for an
    actor, its receipt with counts, scores, conflict sets and digests included, or the error
    raised instead, is a function of the rows and links of the actor's own project; whatever
    other projects store changes nothing. *)
Theorem retrieval_is_project_blind q log now d1 d2 :
  project_rows (ra_project_id (rq_actor q)) d1 = project_rows (ra_project_id (rq_actor q)) d2 →
  project_links (ra_project_id (rq_actor q)) d1 = project_links (ra_project_id (rq_actor q)) d2 →
  retrieve payload_hash sha256 q log now d1 = retrieve payload_hash sha256 q log now d2.
Proof.
  intros Hrows Hlinks. unfold retrieve, _permitted_candidates, _conflict_sets.
  by rewrite (visible_project _ _ _ _ _ _ _ Hrows), (links_project _ _ _ _ _ Hlinks).
Qed.
End facts.

(** ** Samples *)
Module KnowledgeSample.
Definition hash (_ : json) : string := "digest".
Definition sha (s : string) : string := s.
Definition item (id p topic body producer : string) (labels : list string) (at_ : Z) : KnowledgeItem :=
  mkKnowledgeItem id 1 p None "observation" topic body [] [] producer None "unreviewed" None at_ None None [] labels []
    None [].
Definition empty : KnowledgeDb := mkKnowledgeDb [] [] [].
Definition d1 : KnowledgeDb := (create_item hash (item "k1" "p" "limits" "sixty requests per minute" "model" ["dev"] 10) empty).2.
Definition d2 : KnowledgeDb := (accept_fact hash 20 "p" "k1" 1 "ann" d1).2.
Definition d3 : KnowledgeDb := (create_item hash (item "k2" "q" "secret" "of another project" "system" [] 30) d2).2.
Definition ask (labels : list string) (budget : Z) : RetrievalQuery :=
  mkRetrievalQuery (mkRetrievalActor "bob" "p" labels ["project:p"]) "requests" [] [] [] "default" budget 16 "v16-retrieval-1".

Lemma d2_reachable : kreachable hash d2.
Proof. eapply rtc_l; [apply (k_create hash empty)|]. apply rtc_once, k_accept. Qed.

Lemma knowledge_is_reviewed_witness :
  kr_acceptance_state <$> kd_items d2 = ["unreviewed"; "accepted"] ∧ NoDup (key <$> kd_items d2).
Proof. split; [vm_compute; reflexivity|]. apply (knowledge_is_reviewed hash d2 d2_reachable). Defined.

Definition row1 : KnowledgeItemRow := default (row_of hash (item "k1" "p" "" "" "" [] 0)) (head (kd_items d2)).
Definition t2 : KnowledgeDb := (tombstone "ts1" 40 40 "p" "k1" None "operator_delete" None None d2).2.
Lemma versions_are_immutable_witness :
  ∃ r', r' ∈ kd_items t2 ∧ content r' = content row1.
Proof.
  destruct (versions_are_immutable hash d2 t2 row1 d2_reachable) as (r' & H1 & H2 & _).
  - apply rtc_once, k_tombstone.
  - apply (list_elem_of_lookup_2 _ 0). vm_compute. reflexivity.
  - exists r'. split; [exact H1|exact H2].
Defined.

Lemma retrieval_is_permission_first_witness :
  ∃ b, retrieve hash sha (ask ["dev"] 64) [] 50 d3 = Ok b ∧ ki_version <$> kb_items b = [2; 1]
    ∧ rr_tokens_used (kb_receipt b) = sum_by item_tokens (kb_items b).
Proof.
  eexists. split_and!; [vm_compute; reflexivity|reflexivity|].
  eapply (retrieval_is_permission_first hash sha (ask ["dev"] 64) [] 50 d3). vm_compute. reflexivity.
Defined.

Lemma retrieval_is_project_blind_witness :
  retrieve hash sha (ask ["dev"] 64) [] 50 d3 = retrieve hash sha (ask ["dev"] 64) [] 50 d2.
Proof. apply (retrieval_is_project_blind hash sha (ask ["dev"] 64) [] 50 d3 d2); vm_compute; reflexivity. Defined.

(** Deleting an item deletes its latest version only; its earlier versions are still
    retrieved. *)
Lemma deletion_leaves_earlier_versions :
  (kr_acceptance_state <$> kd_items t2) = ["unreviewed"; "deleted"]
  ∧ match retrieve hash sha (ask ["dev"] 64) [] 50 t2 with
    | Ok b => ki_body <$> kb_items b = ["sixty requests per minute"] | Err _ => False end.
Proof. split; vm_compute; reflexivity. Qed.

(** An item larger than the budget is left out, also when it is the only one, while the
    comment says one item is always allowed. *)
Lemma small_budget_retrieves_nothing :
  match retrieve hash sha (ask ["dev"] 3) [] 50 d2 with Ok b => kb_items b = [] | Err _ => False end.
Proof. vm_compute. reflexivity. Qed.

(** The limit counts rows the caller may not see: with the newest rows forbidden, a permitted
    one behind the limit is not listed. *)
Definition d4 : KnowledgeDb := (create_item hash (item "k3" "p" "t" "for ops" "system" ["ops"] 90) d1).2.
Lemma limit_precedes_permission :
  list_visible "p" ["dev"] [] false 1 d4 = Ok []
  ∧ match list_visible "p" ["dev"] [] false 2 d4 with Ok l => ki_item_id <$> l = ["k1"] | Err _ => False end.
Proof. split; vm_compute; reflexivity. Qed.
End KnowledgeSample.
