(* ===== verification/Memory.v ===== *)
(** * Memory: what missions leave behind, and how it is used again

    memory/store.py and knowledge/memory_adapter.py.  The memory file holds one JSON object per
    line and is only appended to: it is the list of its records in order.  ([json.dumps] escapes
    every line separator, so a line is a record.)  Contents are documents without floats, as all
    of [Json].  A confidence is a number.  Each id drawn and each reading of the clock advances a
    counter: [hex n] is the n-th [uuid4().hex], [clock n] the n-th reading.

    [context_is_within_budget]: what a retrieval selects, and what it leaves out for.
    [preferred_model_is_most_frequent]: what routing learns from memory.
    [migration_promotes_nothing]: which records become knowledge items, and that these are
    unreviewed observations of their own project. *)
From S2P Require Import Prelude Collections Contracts PyFloat Json JsonText Models MissionStore Knowledge KnowledgeProps Retrieval.
From Stdlib Require Import Ascii.
Open Scope Z_scope.

Record MemoryRecord := mkMemory {
  mm_memory_id : string;
  mm_project_id : string;
  mm_mission_id : option string;
  mm_kind : string;
  mm_topic : string;
  mm_content : string;
  mm_provenance : string;
  mm_tokens_estimate : Z;
  mm_created_at : string;
  mm_confidence : float;
  mm_tags : list string
}.
Record MemoryStore := mkMemoryStore { me_records : list MemoryRecord; me_draws : nat; me_reads : nat }.
#[export] Instance eta_MemoryStore : Eta MemoryStore := λ s, mkMemoryStore (me_records s) (me_draws s) (me_reads s).

(** ** The store *)
Definition tenths (n : Z) : float := truediv n 10.
Section memory.
Context (hex : nat → string) (clock : nat → Z).

Definition append (r : MemoryRecord) : M MemoryStore () := modify (λ s, s <| me_records ::= λ l, l ++ [r] |>).
(** A new record with its id and time is appended; its id is returned. *)
Definition note (project_id : string) (mission_id : option string) (kind topic content provenance : string) (tokens_estimate : Z)
    (confidence : float) (tags : list string) : M MemoryStore string :=
  s ← get_state;
  let id := "mem_" +:+ hex (me_draws s) in
  put_state (s <| me_draws ::= S |> <| me_reads ::= S |>);;
  append (mkMemory id project_id mission_id kind topic content provenance tokens_estimate (isoformat (clock (me_reads s))) confidence tags);;
  mret id.

Definition or_default (j otherwise : json) : json := if py_truthy j then j else otherwise.
Definition get_or (d : dict json) (key : string) (otherwise : json) : json := or_default (default JNull (dict_get d key)) otherwise.
(** [(l or [])[-5:]]. *)
Definition last_five (j : json) : result (list json) :=
  match or_default j (JList []) with
  | JList l => Ok (drop (length l - 5) l)
  | JStr s => py_iter (JStr s)
  | j => Err (TypeError ("'" +:+ type_name j +:+ "' object is not subscriptable"))
  end.
Fixpoint each {A} (l : list A) (f : A → M MemoryStore string) : M MemoryStore (list string) :=
  match l with
  | [] => mret []
  | x :: l => id ← f x; ids ← each l f; mret (id :: ids)
  end.
(** The goal is a string, as is the status. *)
Definition remember_mission (record : MissionRecord) (project_id : string) : M MemoryStore (list string) :=
  let mid := py_str (re_mission_id record) in
  let origin (what : string) := "mission:" +:+ mid +:+ what in
  let goal := py_str (re_goal record) in
  let status := py_str (re_status record) in
  goal_id ← note project_id (Some mid) "durable_fact" "mission_goal" goal (origin "") (estimate_tokens goal) f_1 ["goal"];
  result ← of_result (as_dict (or_default (re_result record) (JObj [])) "get");
  outcome_id ← note project_id (Some mid) "outcome" "mission_result"
    (dumps sorted_style (JObj [("status", re_status record); ("accepted", default JNull (dict_get result "accepted"));
                               ("summary", default JNull (dict_get result "summary"))]))
    (origin ":result") 40 (if bool_decide (status = "completed") then tenths 9 else tenths 6) ["outcome"; status];
  assignments ← of_result (py_iter (or_default (re_model_assignments record) (JList [])));
  model_ids ← each assignments (λ a,
    d ← of_result (as_dict a "get");
    note project_id (Some mid) "model_obs" "model_assignment" (dumps sorted_style a) (origin ":routing") 30 (tenths 7)
      ["routing"; py_str (get_or d "model" (JStr ""))]);
  events ← of_result (last_five (re_timeline record));
  event_ids ← each events (λ e,
    d ← of_result (as_dict e "get");
    note project_id (Some mid) "transient_context" (py_str (get_or d "event" (JStr "timeline")))
      (String.substring 0 500 (dumps sorted_style (get_or d "detail" (JObj [])))) (origin ":timeline") 20 (tenths 4) ["timeline"]);
  mret (goal_id :: outcome_id :: model_ids ++ event_ids).
End memory.

(** ** Retrieval *)
Definition spaced (q : string) : string :=
  to_string ((λ c, if bool_decide (c = "/"%char) || bool_decide (c = "."%char) then " "%char else c) <$> of_string q).
Definition terms_of (query : string) : list string :=
  remove_dups (List.filter (λ t, 2 <? Z.of_nat (String.length t)) (words (spaced (to_lower query)))).
Definition blob (r : MemoryRecord) : string := to_lower (mm_topic r +:+ " " +:+ mm_content r +:+ " " +:+ join " " (mm_tags r)).
Definition overlap (terms : list string) (r : MemoryRecord) : Z := Z.of_nat (length (List.filter (λ t, contains t (blob r)) terms)).
Definition score (terms : list string) (r : MemoryRecord) : float :=
  fadd (fadd (exact_int (overlap terms r)) (if bool_decide (mm_kind r = "durable_fact") then truediv 1 4 else f_0))
       (fmul (mm_confidence r) (tenths 1)).
Definition transient (r : MemoryRecord) : bool := bool_decide (mm_kind r = "transient_context").
(** The records that are scored. *)
Definition relevant (terms : list string) (include_transient : bool) (r : MemoryRecord) : bool :=
  (negb (transient r) || include_transient)
  && (negb (overlap terms r =? 0) || one_of (mm_kind r) ["durable_fact"; "outcome"; "model_obs"]).
Definition ranked (terms : list string) (include_transient : bool) (records : list MemoryRecord) : list MemoryRecord :=
  sort_by (λ a b, negb (fltb (score terms a) (score terms b))) (List.filter (relevant terms include_transient) records).
Definition cost (r : MemoryRecord) : Z := Z.max 1 (mm_tokens_estimate r).
Fixpoint select (token_budget : Z) (l : list MemoryRecord) (used : Z) : list MemoryRecord * Z :=
  match l with
  | [] => ([], used)
  | r :: l =>
    if token_budget <? used + cost r then select token_budget l used
    else
      let used := used + cost r in
      if token_budget <=? used then ([r], used)
      else let '(selected, used) := select token_budget l used in (r :: selected, used)
  end.
Record Context := mkContext {
  cx_query : string;
  cx_token_budget : Z;
  cx_tokens_used : Z;
  cx_include_transient : bool;
  cx_summary : string;
  cx_items : list MemoryRecord
}.
Definition retrieve_context (store : MemoryStore) (query : string) (token_budget : Z) (include_transient : bool) : Context :=
  let '(selected, used) := select token_budget (ranked (terms_of query) include_transient (me_records store)) 0 in
  let summary := join "; " ((λ r, mm_kind r +:+ ":" +:+ mm_topic r) <$> take 8 selected) in
  mkContext query token_budget used include_transient (if bool_decide (summary = "") then "no_memory_hits" else summary) selected.

(** ** Memory for routing *)
Record RoutingMemory := mkRoutingMemory {
  rm_task_family : string;
  rm_sample_count : Z;
  rm_model_counts : dict Z;
  rm_preferred_model : option string;
  rm_confidence : float
}.
Definition last_ten {A} (l : list A) : list A := drop (length l - 10) l.
Definition observations (task_family : string) (store : MemoryStore) : list MemoryRecord :=
  let all := List.filter (λ r, bool_decide (mm_kind r = "model_obs")) (me_records store) in
  match List.filter (λ r, contains (to_lower task_family) (to_lower (mm_content r +:+ mm_topic r))) all with
  | [] => last_ten all
  | obs => obs
  end.
Definition model_of (r : MemoryRecord) : result string :=
  match loads (mm_content r) with
  | None => Ok "unknown"
  | Some payload =>
    match as_dict payload "get" with
    | Ok d => Ok (py_str (get_or d "model" (JStr "unknown")))
    | Err e => Err e
    end
  end.
Fixpoint models_of (obs : list MemoryRecord) : result (list string) :=
  match obs with
  | [] => Ok []
  | r :: obs =>
    match model_of r with
    | Err e => Err e
    | Ok m => match models_of obs with Ok ms => Ok (m :: ms) | Err e => Err e end
    end
  end.
Definition count_model (models : dict Z) (m : string) : dict Z := dict_set models m (default 0 (dict_get models m) + 1).
Definition count_models (ms : list string) : dict Z := foldl count_model [] ms.
Definition by_count (a b : string * Z) : bool := b.2 <=? a.2.
Definition performance_memory_for_routing (store : MemoryStore) (task_family : string) : result RoutingMemory :=
  let obs := observations task_family store in
  match models_of obs with
  | Err e => Err e
  | Ok ms =>
    let ranked := sort_by by_count (count_models ms) in
    let n := Z.of_nat (length obs) in
    Ok (mkRoutingMemory task_family n ranked (fst <$> head ranked) (fmin (tenths 8) (fadd (tenths 2) (fmul (tenths 1) (exact_int n)))))
  end.

(** ** What retrieval and routing guarantee *)
Lemma cost_pos r : 1 <= cost r.
Proof. unfold cost. lia. Qed.
Lemma cost_sum_nonneg l : 0 <= sum_by cost l.
Proof. apply sum_by_nonneg. intros r _. pose proof (cost_pos r). lia. Qed.
Lemma budget_select_spec budget l used selected used' : select budget l used = (selected, used') →
  used' = used + sum_by cost selected ∧ (used' = used ∨ used' <= budget)
  ∧ ∃ rest, selected ++ rest ≡ₚ l ∧ Forall (λ r, budget < used' + cost r) rest.
Proof.
  revert used selected. induction l as [|r l IH]; cbn [select]; intros used selected Hs.
  { injection Hs as <- <-. split_and!; [cbn; lia|by left|]. exists []. by split. }
  pose proof (cost_pos r) as Hpos. destruct (Z.ltb_spec budget (used + cost r)) as [Hbig|Hfits].
  - apply IH in Hs as (Hu & Hb & rest & Hperm & Hrest). split_and!; [done..|]. exists (r :: rest). split.
    + by rewrite <- Permutation_middle, Hperm.
    + constructor; [|done]. pose proof (cost_sum_nonneg selected). lia.
  - destruct (Z.leb_spec budget (used + cost r)) as [Hfull|Hroom].
    + injection Hs as <- <-. cbn [sum_by]. split_and!; [lia|lia|]. exists l. split; [done|]. apply Forall_forall. intros x _.
      pose proof (cost_pos x). lia.
    + destruct (select budget l (used + cost r)) as [sel u] eqn:Hsel. injection Hs as <- <-.
      apply IH in Hsel as (Hu & Hb & rest & Hperm & Hrest). cbn [sum_by]. split_and!; [lia|lia|]. exists rest. split; [|done].
      cbn. by rewrite Hperm.
Qed.
Lemma ranked_perm terms inc l : ranked terms inc l ≡ₚ List.filter (relevant terms inc) l.
Proof. apply sort_by_perm. Qed.

(** A retrieval stays within its budget and counts what it selects; it selects relevant records, each
    as often as it is stored, and no transient ones unless these are asked for; and what it leaves out
    no longer fits into the budget. *)
Theorem context_is_within_budget store query budget include_transient :
  let c := retrieve_context store query budget include_transient in
  cx_tokens_used c = sum_by cost (cx_items c) ∧ cx_tokens_used c <= Z.max 0 budget
  ∧ (∀ r, r ∈ cx_items c → transient r = true → include_transient = true)
  ∧ ∃ rest, cx_items c ++ rest ≡ₚ List.filter (relevant (terms_of query) include_transient) (me_records store)
      ∧ Forall (λ r, budget < cx_tokens_used c + cost r) rest.
Proof.
  unfold retrieve_context. destruct (select _ _ _) as [selected used] eqn:Hsel. cbn.
  apply budget_select_spec in Hsel as (Hu & Hb & rest & Hperm & Hrest). rewrite ranked_perm in Hperm. split_and!; [done|lia| |by exists rest].
  intros r Hr Ht. assert (r ∈ selected ++ rest) as Hin by (apply elem_of_app; by left).
  rewrite Hperm in Hin. apply list_elem_of_In, filter_In in Hin as [_ Hrel]. apply andb_true_iff in Hrel as [Hrel _]. by rewrite Ht in Hrel.
Qed.

Definition occurrences (m : string) (ms : list string) : Z := Z.of_nat (length (List.filter (λ x, bool_decide (x = m)) ms)).
Lemma occurrences_snoc m ms x : occurrences m (ms ++ [x]) = occurrences m ms + (if bool_decide (x = m) then 1 else 0).
Proof. unfold occurrences. rewrite List.filter_app, length_app. cbn. destruct (bool_decide (x = m)); cbn; lia. Qed.
Lemma occurrences_elem m ms : 0 < occurrences m ms ↔ m ∈ ms.
Proof.
  unfold occurrences. split.
  - destruct (List.filter _ ms) as [|x l] eqn:Hf; [cbn; lia|]. intros _. assert (x ∈ List.filter (λ x, bool_decide (x = m)) ms) as Hx by (rewrite Hf; by left).
    apply list_elem_of_In, filter_In in Hx as [Hx Heq%bool_decide_eq_true]. subst. by apply list_elem_of_In.
  - intros Hm. assert (m ∈ List.filter (λ x, bool_decide (x = m)) ms) as Hin
      by (apply list_elem_of_In, filter_In; rewrite bool_decide_eq_true; split; [by apply list_elem_of_In|done]).
    destruct (List.filter _ ms); [by apply elem_of_nil in Hin|cbn; lia].
Qed.
Lemma count_models_snoc ms x : count_models (ms ++ [x]) = count_model (count_models ms) x.
Proof. unfold count_models. by rewrite foldl_app. Qed.
(** The counts are those of the models that occur. *)
Lemma count_models_spec ms : NoDup (dict_keys (count_models ms)) ∧
  (∀ m, dict_get (count_models ms) m = if bool_decide (m ∈ ms) then Some (occurrences m ms) else None).
Proof.
  induction ms as [|x ms [Hnd IH]] using rev_ind; [by split; [constructor|]|]. rewrite count_models_snoc. unfold count_model.
  split; [by apply dict_set_nodup|]. intros m. rewrite occurrences_snoc, IH.
  destruct (decide (x = m)) as [->|Hne].
  - rewrite dict_get_set_eq, (bool_decide_true (m ∈ ms ++ _)), (bool_decide_true (m = m)) by (done || (apply elem_of_app; right; by left)).
    f_equal. case_bool_decide as Hm; [done|]. cbn. assert (¬ 0 < occurrences m ms) by (by rewrite occurrences_elem). unfold occurrences in *. lia.
  - rewrite dict_get_set_ne, IH by done. rewrite (bool_decide_false (x = m)), Z.add_0_r by done.
    apply option_eq. intros n. repeat case_bool_decide; try done; exfalso; revert H H0; rewrite elem_of_app, list_elem_of_singleton; naive_solver.
Qed.
Lemma by_count_total a b : by_count a b = true ∨ by_count b a = true.
Proof. unfold by_count. rewrite !Z.leb_le. lia. Qed.
Lemma by_count_trans a b c : by_count a b = true → by_count b c = true → by_count a c = true.
Proof. unfold by_count. rewrite !Z.leb_le. lia. Qed.
Lemma models_of_length obs ms : models_of obs = Ok ms → length ms = length obs.
Proof.
  revert ms. induction obs as [|r obs IH]; cbn; intros ms; [by intros [= <-]|]. destruct (model_of r); [|done].
  destruct (models_of obs); [|done]. intros [= <-]. cbn. by rewrite (IH a0).
Qed.

(** What routing learns: each model of the observations with the number of those that name it, the
    preferred one being named most often; there is one exactly if there are observations. *)
Theorem preferred_model_is_most_frequent store family p ms :
  performance_memory_for_routing store family = Ok p → models_of (observations family store) = Ok ms →
  rm_sample_count p = Z.of_nat (length ms)
  ∧ (∀ m n, (m, n) ∈ rm_model_counts p ↔ m ∈ ms ∧ n = occurrences m ms)
  ∧ (rm_preferred_model p = None ↔ ms = [])
  ∧ ∀ m, rm_preferred_model p = Some m → m ∈ ms ∧ ∀ m', occurrences m' ms <= occurrences m ms.
Proof.
  unfold performance_memory_for_routing. intros Hp Hms. rewrite Hms in Hp. injection Hp as <-. cbn.
  destruct (count_models_spec ms) as [Hnd Hget].
  pose proof (sort_by_perm by_count (count_models ms)) as Hperm. pose proof (sort_by_sorted by_count by_count_total by_count_trans (count_models ms)) as Hsorted.
  assert (∀ m n, (m, n) ∈ sort_by by_count (count_models ms) ↔ m ∈ ms ∧ n = occurrences m ms) as Hcounts.
  { intros m n. rewrite elem_of_sort_by. specialize (Hget m). split.
    - intros Hmn%(dict_elem_get _ _ _ Hnd). rewrite Hget in Hmn. case_bool_decide; naive_solver.
    - intros [Hm ->]. apply dict_get_elem. by rewrite Hget, bool_decide_true. }
  split_and!; [by rewrite (models_of_length _ _ Hms)|done| |].
  - destruct ms as [|m ms']; [done|]. split; [|done]. intros Hnone. exfalso. assert ((m, occurrences m (m :: ms')) ∈ sort_by by_count (count_models (m :: ms'))) as Hin
      by (apply Hcounts; split; [by left|done]).
    destruct (sort_by _ _); [by apply elem_of_nil in Hin|done].
  - intros m Hm. destruct (sort_by by_count (count_models ms)) as [|[m0 n0] rest] eqn:Hl; [done|]. injection Hm as ->.
    assert (m ∈ ms ∧ n0 = occurrences m ms) as [Hin ->] by (apply Hcounts; by left). split; [done|]. intros m'.
    destruct (decide (m' ∈ ms)) as [Hm'|Hm'].
    + assert ((m', occurrences m' ms) ∈ (m, occurrences m ms) :: rest) as Hin' by (by apply Hcounts).
      apply elem_of_cons in Hin' as [[= -> _]|Hin']; [done|]. inversion Hsorted as [|? ? _ Hall]. subst. rewrite Forall_forall in Hall.
      specialize (Hall _ Hin'). unfold by_count in Hall. cbn in Hall. by apply Z.leb_le in Hall.
    + assert (¬ 0 < occurrences m' ms) by (by rewrite occurrences_elem). assert (0 < occurrences m ms) by (by apply occurrences_elem). lia.
Qed.

(** ** Migration into the knowledge repository (knowledge/memory_adapter.py) *)
Record MigrationReport := mkMigration {
  mg_scanned : Z;
  mg_imported : Z;
  mg_quarantined : Z;
  mg_skipped_transient : bool;
  mg_errors : list string;
  mg_item_ids : list string;
  mg_quarantined_memory_ids : list string
}.
#[export] Instance eta_MigrationReport : Eta MigrationReport := λ r,
  mkMigration (mg_scanned r) (mg_imported r) (mg_quarantined r) (mg_skipped_transient r) (mg_errors r) (mg_item_ids r) (mg_quarantined_memory_ids r).
Definition new_report : MigrationReport := mkMigration 0 0 0 false [] [] [].
Definition report_dict (r : MigrationReport) : json :=
  JObj [("scanned", JInt (mg_scanned r)); ("imported", JInt (mg_imported r)); ("quarantined", JInt (mg_quarantined r));
        ("errors", JList (JStr <$> mg_errors r)); ("item_ids", JList (JStr <$> mg_item_ids r));
        ("quarantined_memory_ids", JList (JStr <$> mg_quarantined_memory_ids r));
        ("note", JStr "legacy durable_fact mapped to observation/unreviewed — never accepted_fact")].
Definition _KIND_TO_CLASS : dict string :=
  [("durable_fact", "observation"); ("transient_context", "observation"); ("decision", "observation"); ("outcome", "observation");
   ("model_obs", "observation")].
(** [type(exc).__name__] of what [create_item] raises. *)
Definition class_of (e : exn) : string :=
  match e with
  | Exn cls _ => cls
  | IntegrityError _ => "IntegrityError"
  | ValidationError _ => "ValidationError"
  | TypeError _ => "TypeError"
  | _ => "Exception"
  end.
Definition unknown_project (record : MemoryRecord) : bool := one_of (mm_project_id record) [""; "unknown"; "None"].

Section migration.
Context (payload_hash : json → string) (hex : nat → string) (clock : nat → Z).

Definition legacy (record : MemoryRecord) : dict json :=
  [("legacy_kind", JStr (mm_kind record)); ("legacy_memory_id", JStr (mm_memory_id record)); ("legacy_created_at", JStr (mm_created_at record));
   ("migration_policy", JStr "conservative_v2b003d_no_auto_accept")].
(** [n] counts the items made so far: each draws an id and reads the clock. *)
Definition map_record (n : nat) (record : MemoryRecord) (permission_labels : list string) (include_transient : bool) : result (option KnowledgeItem) :=
  if unknown_project record then Err (KnowledgeWriteError "missing_or_unknown_project_id")
  else if transient record && negb include_transient then Ok None
  else
    let knowledge_class := default "observation" (dict_get _KIND_TO_CLASS (mm_kind record)) in
    let producer_type := if bool_decide (mm_kind record = "model_obs") then "model" else "migration" in
    match validate_item (mkKnowledgeItem ("kni_" +:+ hex n) 1 (mm_project_id record) (mm_mission_id record) knowledge_class (mm_topic record)
            (mm_content record) [mm_provenance record; "memory_id:" +:+ mm_memory_id record] [] producer_type
            (Some ("memory:" +:+ mm_memory_id record)) "unreviewed" (Some (mm_confidence record)) (clock n) None None []
            permission_labels (mm_tags record) None (legacy record)) with
    | Ok item => Ok (Some item)
    | Err e => Err e
    end.
Definition quarantine (record : MemoryRecord) (why : string) (report : MigrationReport) : MigrationReport :=
  report <| mg_errors ::= λ l, l ++ [mm_memory_id record +:+ ":" +:+ why] |> <| mg_quarantined ::= Z.succ |>
         <| mg_quarantined_memory_ids ::= λ l, l ++ [mm_memory_id record] |>.
Fixpoint migrate_all (records : list MemoryRecord) (include_transient : bool) (labels : list string) (n : nat) (report : MigrationReport)
    : M KnowledgeDb MigrationReport :=
  match records with
  | [] => mret report
  | record :: records =>
    let report := report <| mg_scanned ::= Z.succ |> in
    match map_record n record labels include_transient with
    | Err (Exn "KnowledgeWriteError" why) => migrate_all records include_transient labels n (quarantine record why report)
    | Err e => raise e
    | Ok None =>
      migrate_all records include_transient labels n
        (if transient record && negb include_transient then report <| mg_skipped_transient := true |> else report)
    | Ok (Some item) =>
      report ← try_except
        (created ← create_item payload_hash item;
         mret (report <| mg_imported ::= Z.succ |> <| mg_item_ids ::= λ l, l ++ [ki_item_id created] |>))
        (λ e, mret (quarantine record (class_of e +:+ ":" +:+ exn_message e) report));
      migrate_all records include_transient labels (S n) report
    end
  end.
Definition migrate (store : MemoryStore) (include_transient : bool) (default_permission_labels : list string) (n : nat) : M KnowledgeDb MigrationReport :=
  migrate_all (me_records store) include_transient default_permission_labels n new_report.

(** *** What is imported *)
Definition importable (include_transient : bool) (record : MemoryRecord) : bool :=
  negb (unknown_project record) && (negb (transient record) || include_transient).
Record imported (labels : list string) (record : MemoryRecord) (row : KnowledgeItemRow) : Prop := {
  im_state : kr_acceptance_state row = "unreviewed";
  im_class : kr_class row = "observation";
  im_version : kr_version row = 1;
  im_project : kr_project_id row = trim (mm_project_id record);
  im_topic : kr_topic row = trim (mm_topic record);
  im_body : kr_body row = trim (mm_content record);
  im_source : kr_producer_ref row = Some (trim ("memory:" +:+ mm_memory_id record));
  im_labels : kr_permission_labels row = trim <$> labels
}.
Hypothesis hex_distinct : Inj (=) (=) hex.
Hypothesis hex_plain : ∀ n, trim ("kni_" +:+ hex n) = "kni_" +:+ hex n.
(** No item has an id that is still to be drawn. *)
Definition undrawn (n : nat) (d : KnowledgeDb) : Prop := ∀ k r, (n <= k)%nat → r ∈ kd_items d → kr_item_id r ≠ "kni_" +:+ hex k.

Lemma kinds_are_observations kind : default "observation" (dict_get _KIND_TO_CLASS kind) = "observation".
Proof. cbn. by repeat case_decide. Qed.
Lemma map_record_importable n record labels inc : importable inc record = true →
  ∃ item, map_record n record labels inc = Ok (Some item) ∧ ki_item_id item = "kni_" +:+ hex n ∧ ki_version item = 1
    ∧ ki_class item = "observation" ∧ ki_acceptance_state item = "unreviewed" ∧ ki_supersedes item = []
    ∧ imported labels record (row_of payload_hash item).
Proof.
  unfold importable, map_record. intros [->%negb_true_iff Ht]%andb_true_iff.
  replace (transient record && negb inc) with false by (destruct (transient record), inc; done).
  rewrite kinds_are_observations. unfold validate_item. cbn [ki_class ki_acceptance_state].
  replace (one_of "observation" KnowledgeClass) with true by (vm_compute; reflexivity).
  replace (one_of "unreviewed" AcceptanceState) with true by (vm_compute; reflexivity).
  eexists. split; [reflexivity|]. cbn [ki_item_id ki_version ki_class ki_acceptance_state ki_supersedes]. split_and!; [apply hex_plain|done..|].
  split; cbn; done.
Qed.
Lemma map_record_err n record labels inc e : map_record n record labels inc = Err e → e = KnowledgeWriteError "missing_or_unknown_project_id".
Proof.
  unfold map_record. destruct (unknown_project record); [by intros [= <-]|]. destruct (transient record && negb inc); [done|].
  rewrite kinds_are_observations. unfold validate_item. cbn [ki_class ki_acceptance_state].
  replace (one_of "observation" KnowledgeClass) with true by (vm_compute; reflexivity).
  by replace (one_of "unreviewed" AcceptanceState) with true by (vm_compute; reflexivity).
Qed.

Lemma create_unreviewed item d : ki_class item = "observation" → ki_acceptance_state item = "unreviewed" → ki_version item = 1 → ki_supersedes item = [] →
  (∀ r, r ∈ kd_items d → kr_item_id r ≠ ki_item_id item) → trim (ki_item_id item) = ki_item_id item →
  ∃ created, create_item payload_hash item d = (Ok created, d <| kd_items ::= λ l, l ++ [row_of payload_hash item] |>) ∧ ki_item_id created = ki_item_id item.
Proof.
  intros Hc Ha Hv Hs Hfresh Htrim. unfold create_item.
  assert (assert_model_output_class (ki_class item) (ki_producer_type item) = Ok ()) as ->.
  { rewrite Hc. unfold assert_model_output_class. rewrite (bool_decide_false ("observation" = _)), andb_false_r by done.
    replace (one_of "observation" _MODEL_SAFE_CLASSES) with true by (vm_compute; reflexivity). by rewrite andb_false_r. }
  assert (select_row (ki_project_id item) (ki_item_id item) (ki_version item) d = None) as Hnone.
  { unfold select_row. destruct (List.find _ _) as [r|] eqn:Hf; [|done]. apply find_some in Hf as [Hr%list_elem_of_In Hk]. unfold row_is in Hk. bool_to_prop.
    by destruct (Hfresh r Hr). }
  assert (existsb (λ r, bool_decide (kr_item_id r = ki_item_id item) && (kr_version r =? ki_version item)) (kd_items d) = false) as Hex.
  { apply not_true_iff_false. rewrite existsb_exists. intros (r & Hr%list_elem_of_In & Hk). bool_to_prop. by destruct (Hfresh r Hr). }
  rewrite Ha, Hv in *. rewrite (bool_decide_false ("unreviewed" = "accepted")) by done. cbn [andb].
  replace (one_of "unreviewed" AcceptanceState) with true by (vm_compute; reflexivity). cbn [negb].
  unfold get_item. erewrite bind_run by reflexivity. erewrite bind_run by reflexivity. erewrite bind_run by reflexivity. erewrite bind_run by reflexivity.
  erewrite bind_run by reflexivity. erewrite bind_run; [|erewrite bind_run by reflexivity; rewrite Hnone; reflexivity].
  rewrite (bool_decide_false (is_Some None)) by (by intros [? ?]). erewrite bind_run by reflexivity. erewrite bind_run by reflexivity.
  rewrite Hex. erewrite bind_run by reflexivity. cbv zeta. erewrite bind_run by reflexivity. unfold of_result, _to_item, row_of at 1. cbn [kr_payload jget].
  rewrite dict_get_set_eq, Hs. cbn [default fmap list_fmap string_list py_truthy negb]. unfold validate_item. cbn [ki_class ki_acceptance_state row_of kr_class kr_acceptance_state].
  rewrite Hc, Ha. replace (one_of "observation" KnowledgeClass) with true by (vm_compute; reflexivity).
  replace (one_of "unreviewed" AcceptanceState) with true by (vm_compute; reflexivity). cbn [negb]. eexists. split; [reflexivity|]. exact Htrim.
Qed.

Record migrated (inc : bool) (labels : list string) (records : list MemoryRecord) (report : MigrationReport) (d : KnowledgeDb)
    (report' : MigrationReport) (d' : KnowledgeDb) (rows : list KnowledgeItemRow) : Prop := {
  mi_db : d' = d <| kd_items ::= λ l, l ++ rows |>;
  mi_rows : Forall2 (imported labels) (List.filter (importable inc) records) rows;
  mi_scanned : mg_scanned report' = mg_scanned report + Z.of_nat (length records);
  mi_imported : mg_imported report' = mg_imported report + Z.of_nat (length rows);
  mi_items : mg_item_ids report' = mg_item_ids report ++ (kr_item_id <$> rows);
  mi_quarantined : mg_quarantined report' = mg_quarantined report + Z.of_nat (length (List.filter unknown_project records));
  mi_ids : mg_quarantined_memory_ids report' = mg_quarantined_memory_ids report ++ (mm_memory_id <$> List.filter unknown_project records)
}.
Lemma add_no_rows d : d <| kd_items ::= λ l, l ++ [] |> = d.
Proof. destruct d. cbn. by rewrite app_nil_r. Qed.
Lemma migrate_all_spec records inc labels n report d : undrawn n d →
  ∃ report' d' rows, migrate_all records inc labels n report d = (Ok report', d') ∧ migrated inc labels records report d report' d' rows.
Proof.
  revert n report d. induction records as [|r records IH]; intros n report d Hd; cbn [migrate_all].
  { exists report, d, []. split; [done|]. split; cbn; rewrite ?app_nil_r, ?Z.add_0_r, ?add_no_rows; [by destruct d|constructor|done..]. }
  destruct (unknown_project r) eqn:Hu.
  { unfold map_record. rewrite Hu. unfold KnowledgeWriteError. cbn [fst]. edestruct (IH n) as (report' & d' & rows & Hrun & [Hdb Hrows Hs Hi Hit Hq Hids]); [exact Hd|].
    exists report', d', rows. split; [exact Hrun|]. assert (importable inc r = false) as Hni by (unfold importable; by rewrite Hu).
    split; cbn [List.filter]; rewrite ?Hni, ?Hu; cbn [length fmap list_fmap]; [done..| | | | |].
    - rewrite Hs. cbn. lia.
    - rewrite Hi. done.
    - rewrite Hit. done.
    - rewrite Hq. cbn. lia.
    - rewrite Hids. cbn. by rewrite <- app_assoc. }
  destruct (importable inc r) eqn:Himp.
  - destruct (map_record_importable n r labels inc Himp) as (item & -> & Hid & Hv & Hc & Ha & Hs & Him).
    destruct (create_unreviewed item d) as (created & Hcreate & Hcid); [done..| | |].
    { intros r' Hr'. rewrite Hid. by apply Hd. } { rewrite Hid. apply hex_plain. }
    edestruct (IH (S n) (report <| mg_scanned ::= Z.succ |> <| mg_imported ::= Z.succ |> <| mg_item_ids ::= λ l, l ++ [ki_item_id created] |>)
      (d <| kd_items ::= λ l, l ++ [row_of payload_hash item] |>)) as (report' & d' & rows & Hrun & [Hdb Hrows Hsc Hi Hit Hq Hids]); cycle 1.
    + exists report', d', (row_of payload_hash item :: rows). split.
      * erewrite bind_run; [exact Hrun|]. unfold try_except. by erewrite bind_run by exact Hcreate.
      * split; cbn [List.filter]; rewrite ?Himp, ?Hu; cbn [length fmap list_fmap].
        -- rewrite Hdb. destruct d. cbn. by rewrite <- app_assoc.
        -- by constructor.
        -- rewrite Hsc. cbn. lia.
        -- rewrite Hi. cbn. lia.
        -- rewrite Hit. cbn. by rewrite <- app_assoc, Hcid.
        -- by rewrite Hq.
        -- by rewrite Hids.
    + intros k r' Hk [Hr'| ->%list_elem_of_singleton]%elem_of_app; [apply Hd; [lia|done]|]. cbn. rewrite Hid. intros Heq. apply (inj (String.append _)) in Heq.
      apply hex_distinct in Heq. lia.
  - assert (map_record n r labels inc = Ok None) as ->.
    { unfold map_record, importable in *. rewrite Hu in *. cbn in Himp. apply orb_false_iff in Himp as [->%negb_false_iff ->]. done. }
    edestruct (IH n) as (report' & d' & rows & Hrun & [Hdb Hrows Hsc Hi Hit Hq Hids]); [exact Hd|]. exists report', d', rows. split; [exact Hrun|].
    split; cbn [List.filter]; rewrite ?Himp, ?Hu; cbn [length]; [done..| | | | |]; destruct (transient r && negb inc); rewrite ?Hsc, ?Hi, ?Hit, ?Hq, ?Hids; cbn; done || lia.
Qed.
Lemma migrate_all_ksteps records inc labels n report : moves (rtc (kstep payload_hash)) (migrate_all records inc labels n report).
Proof.
  revert n report. induction records as [|r records IH]; intros n report; cbn [migrate_all]; [moves_step|].
  destruct (map_record n r labels inc) as [[item|]|e] eqn:Hm; [|apply IH|].
  - apply moves_bind; [apply _| |intros; apply IH]. moves_step; [|moves_step]. apply moves_bind; [apply _| |intros; moves_step].
    intros d. apply rtc_once, k_create.
  - apply map_record_err in Hm as ->. apply IH.
Qed.

(** C37: Migrating the memory returns a report and turns each record that is of a known project, and not
    transient unless these are included, into exactly one new item, in order: an unreviewed observation
    of the record's own project, never an accepted fact.  Records of unknown projects are reported as
    quarantined.  Nothing else in the repository changes, and all that is proved of reachable
    repositories stays true. *)
Theorem migration_promotes_nothing store inc labels n d : undrawn n d →
  ∃ report rows, migrate store inc labels n d = (Ok report, d <| kd_items ::= λ l, l ++ rows |>)
  ∧ Forall2 (imported labels) (List.filter (importable inc) (me_records store)) rows
  ∧ rtc (kstep payload_hash) d (d <| kd_items ::= λ l, l ++ rows |>)
  ∧ mg_scanned report = Z.of_nat (length (me_records store)) ∧ mg_imported report = Z.of_nat (length rows)
  ∧ mg_item_ids report = kr_item_id <$> rows
  ∧ mg_quarantined_memory_ids report = mm_memory_id <$> List.filter unknown_project (me_records store).
Proof using hex_distinct hex_plain.
  intros Hd. unfold migrate. destruct (migrate_all_spec (me_records store) inc labels n new_report d Hd) as (report & d' & rows & Hrun & Hm).
  pose proof (migrate_all_ksteps (me_records store) inc labels n new_report d) as Hk. rewrite Hrun in Hk. destruct Hm as [-> Hrows Hs Hi Hit _ Hids].
  exists report, rows. by rewrite Hs, Hi, Hit, Hids.
Qed.
End migration.

(** ** Runs *)
Module MemorySample.
Definition zero_clock (_ : nat) : Z := 0.
Definition done_mission : MissionRecord :=
  mkMissionRecord (JStr "m1") (JStr "Fix the parser") (JStr "completed") JNull JNull (JInt 1) JNull (JStr "mission_store") (JObj []) (JObj [])
    (JList []) (JList [JObj [("event", JStr "mission_started"); ("detail", JObj [])]]) (JList []) (JObj []) (JObj []) (JList [])
    (JList [JObj [("model", JStr "gemma")]; JObj [("model", JStr "qwen")]; JObj [("model", JStr "gemma")]]) (JObj []) (JObj [("accepted", JBool true)]).
Definition remembered (project : string) (s : MemoryStore) : MemoryStore := (remember_mission unary zero_clock done_mission project s).2.
Definition empty_memory : MemoryStore := mkMemoryStore [] 0 0.
Definition memory : MemoryStore := remembered "p1" empty_memory.
Example six_records : (mm_kind <$> me_records memory) = ["durable_fact"; "outcome"; "model_obs"; "model_obs"; "model_obs"; "transient_context"].
Proof. vm_compute. reflexivity. Qed.
Example small_context : let c := retrieve_context memory "parser" 40 false in
  cx_summary c = "durable_fact:mission_goal; model_obs:model_assignment" ∧ cx_tokens_used c = 33.
Proof. vm_compute. by split. Qed.
Lemma preferred_model_is_most_frequent_witness : ∃ p, performance_memory_for_routing memory "implement" = Ok p
  ∧ rm_preferred_model p = Some "gemma" ∧ rm_sample_count p = 3 ∧ ∀ m', occurrences m' ["gemma"; "qwen"; "gemma"] <= occurrences "gemma" ["gemma"; "qwen"; "gemma"].
Proof.
  eexists. split; [vm_compute; reflexivity|]. split; [reflexivity|]. split; [reflexivity|].
  destruct (preferred_model_is_most_frequent memory "implement" (mkRoutingMemory "implement" 3 [("gemma", 2); ("qwen", 1)] (Some "gemma")
    (fmin (tenths 8) (fadd (tenths 2) (fmul (tenths 1) (exact_int 3))))) ["gemma"; "qwen"; "gemma"]) as (_ & _ & _ & H);
    [vm_compute; reflexivity|vm_compute; reflexivity|]. exact (proj2 (H "gemma" eq_refl)).
Defined.

Lemma unary_item_plain n : trim ("kni_" +:+ unary n) = "kni_" +:+ unary n.
Proof. apply trim_plain. rewrite of_string_app, forallb_app, unary_plain. reflexivity. Qed.
Definition no_hash (_ : json) : string := "".
Definition no_items : KnowledgeDb := mkKnowledgeDb [] [] [].
Lemma nothing_drawn n : undrawn unary n no_items.
Proof. by intros k r _ ?%elem_of_nil. Qed.
Definition mixed : MemoryStore := remembered "unknown" memory.
Lemma migration_promotes_nothing_witness : ∃ report rows, (migrate no_hash unary zero_clock mixed false [] 0 no_items).1 = Ok report
  ∧ mg_scanned report = 12 ∧ length (mg_quarantined_memory_ids report) = 6%nat
  ∧ Forall2 (imported []) (List.filter (importable false) (me_records mixed)) rows ∧ length rows = 5%nat.
Proof.
  destruct (migration_promotes_nothing no_hash unary zero_clock unary_inj unary_item_plain mixed false [] 0 no_items (nothing_drawn 0))
    as (report & rows & Hrun & Hrows & _ & Hs & _ & _ & Hq).
  exists report, rows. rewrite Hrun, Hs, Hq. split; [done|]. split; [vm_compute; reflexivity|]. split; [vm_compute; reflexivity|]. split; [done|].
  rewrite <- (Forall2_length _ _ _ Hrows). vm_compute. reflexivity.
Defined.

(** Migrating twice imports every record twice. *)
Example migration_repeats :
  let once := (migrate no_hash unary zero_clock memory false [] 0 no_items).2 in
  length (kd_items once) = 5%nat ∧ length (kd_items (migrate no_hash unary zero_clock memory false [] 5 once).2) = 10%nat.
Proof. vm_compute. by split. Qed.
(** A project id of spaces is no unknown project, and is stored as an empty one. *)
Example blank_projects_are_imported :
  kr_project_id <$> kd_items (migrate no_hash unary zero_clock (remembered " " empty_memory) false [] 0 no_items).2 = [""; ""; ""; ""; ""].
Proof. vm_compute. reflexivity. Qed.
(** What one project remembers is given to a mission of another: the query names no project. *)
Example retrieval_crosses_projects :
  (mm_project_id <$> cx_items (retrieve_context (remembered "p2" memory) "parser" 8 false)) = ["p1"; "p2"].
Proof. vm_compute. reflexivity. Qed.
(** The outcome of a mission counts as 40 tokens whatever it says, so that the budget bounds no text. *)
Definition wordy : MissionRecord := done_mission <| re_result := JObj [("summary", JStr (join " " (replicate 50 "word")))] |> <| re_model_assignments := JList [] |>.
Example budget_does_not_bound_text :
  let c := retrieve_context (remember_mission unary zero_clock wordy "p1" empty_memory).2 "parser" 43 false in
  cx_tokens_used c = 43 ∧ 50 <= sum_by (λ r, estimate_tokens (mm_content r)) (cx_items c).
Proof. vm_compute. by split. Qed.
End MemorySample.
