(* ===== verification/Recovery.v ===== *)
(** * Recovery: interrupting and resuming missions (memory/store.py)

    A mission record is read from its file, a plan says which of its tasks to take up again, and
    the record is written back.  Tasks are the JSON objects of the file, whatever they are; each
    reading of the clock advances the counter of the memory.

    [resumption_is_idempotent]: what a resumption changes in the file, what it leaves alone, and
    that resuming again changes no task. *)
From S2P Require Import Prelude Collections Contracts PyFloat Json JsonText Models MissionStore Memory.
Open Scope Z_scope.

(** ** Plans *)
Record RecoveryPlan := mkRecoveryPlan {
  rp_mission_id : json;
  rp_action : string;
  rp_resume_from_task_ids : list string;
  rp_orphan_task_ids : list string;
  rp_skipped_duplicate_objectives : list string;
  rp_rationale : string
}.
Definition plan_dict (p : RecoveryPlan) : json :=
  JObj [("mission_id", rp_mission_id p); ("action", JStr (rp_action p)); ("resume_from_task_ids", JList (JStr <$> rp_resume_from_task_ids p));
        ("orphan_task_ids", JList (JStr <$> rp_orphan_task_ids p));
        ("skipped_duplicate_objectives", JList (JStr <$> rp_skipped_duplicate_objectives p)); ("rationale", JStr (rp_rationale p))].

Abbreviation task := (dict json).
Definition field (key : string) (t : task) : json := default JNull (dict_get t key).
(** [x in {...}] raises for what has no hash. *)
Definition in_set (j : json) (l : list string) : result bool :=
  if hashable j then Ok (match j with JStr s => one_of s l | _ => false end) else Err (TypeError ("unhashable type: '" +:+ type_name j +:+ "'")).
Fixpoint filter_result {A} (f : A → result bool) (l : list A) : result (list A) :=
  match l with
  | [] => Ok []
  | x :: l =>
    match f x with
    | Err e => Err e
    | Ok b => match filter_result f l with Ok r => Ok (if b then x :: r else r) | Err e => Err e end
    end
  end.
Fixpoint as_tasks (l : list json) : result (list task) :=
  match l with
  | [] => Ok []
  | j :: l =>
    match as_dict j "get" with
    | Err e => Err e
    | Ok t => match as_tasks l with Ok ts => Ok (t :: ts) | Err e => Err e end
    end
  end.
Definition tasks_of (record : MissionRecord) : result (list task) :=
  match py_iter (re_tasks record) with Ok l => as_tasks l | Err e => Err e end.

Definition accepted (t : task) : bool := py_eqb (field "status" t) (JStr "accepted") || is_true (field "ok" t).
Definition is_false (j : json) : bool := match j with JBool false => true | _ => false end.
Definition pending (t : task) : result bool :=
  match in_set (field "status" t) ["ready"; "running"; "failed"; "proposed"] with
  | Ok b => Ok (b || is_false (field "ok" t))
  | Err e => Err e
  end.
Definition orphaned (t : task) : result bool :=
  match in_set (field "status" t) ["running"] with
  | Ok b => Ok (b && is_null (field "ok" t))
  | Err e => Err e
  end.
Definition task_id (t : task) : string := py_str (field "id" t).
(** The objectives that were seen before. *)
Fixpoint duplicates (seen : list string) (ts : list task) : list string :=
  match ts with
  | [] => []
  | t :: ts =>
    let obj := py_str (or_default (field "objective" t) (JStr "")) in
    (if one_of obj seen then [obj] else []) ++ duplicates (obj :: seen) ts
  end.
(** [record.status in {"completed", "failed"} and (record.result or {}).get("accepted")]. *)
Definition already_complete (record : MissionRecord) : result bool :=
  match in_set (re_status record) ["completed"; "failed"] with
  | Err e => Err e
  | Ok false => Ok false
  | Ok true =>
    match as_dict (or_default (re_result record) (JObj [])) "get" with
    | Ok d => Ok (py_truthy (default JNull (dict_get d "accepted")))
    | Err e => Err e
    end
  end.
Definition count {A} (l : list A) : string := pretty (Z.of_nat (length l)).
Definition build_recovery_plan (record : MissionRecord) : result RecoveryPlan :=
  match tasks_of record with Err e => Err e | Ok ts =>
  match filter_result pending ts with Err e => Err e | Ok pend =>
  match filter_result orphaned ts with Err e => Err e | Ok orphan =>
  match already_complete record with Err e => Err e | Ok complete =>
    let dupes := duplicates [] ts in
    let action := if complete then "noop_already_complete"
                  else match pend, orphan with [], [] => "manual_review" | _, _ => "resume" end in
    Ok (mkRecoveryPlan (re_mission_id record) action (task_id <$> pend) (task_id <$> orphan) dupes
          (action +:+ ": " +:+ count (List.filter accepted ts) +:+ " accepted, " +:+ count pend +:+ " pending, "
           +:+ count orphan +:+ " orphan, " +:+ count dupes +:+ " duplicate objectives"))
  end end end end.

(** ** Interrupting and resuming *)
Record Recovery := mkRecovery { ry_files : files; ry_memory : MemoryStore }.
#[export] Instance eta_Recovery : Eta Recovery := λ s, mkRecovery (ry_files s) (ry_memory s).
Definition on_memory {A} : M MemoryStore A → M Recovery A := zoom ry_memory (λ m s, s <| ry_memory := m |>).

(** [for task in record.tasks: ...], which changes the objects. *)
Definition on_tasks (f : task → task) (record : MissionRecord) : result MissionRecord :=
  match tasks_of record with
  | Err e => Err e
  | Ok ts => Ok (match re_tasks record with JList _ => record <| re_tasks := JList (JObj <$> (f <$> ts)) |> | _ => record end)
  end.
Definition requeued (t : task) : task := dict_set (dict_set t "status" (JStr "ready")) "ok" JNull.
Definition stop_running (t : task) : task := if py_eqb (field "status" t) (JStr "running") then requeued t else t.
Definition requeue (ids : list string) (t : task) : task :=
  if match field "id" t with JStr s => one_of s ids | _ => false end then requeued t else t.

Section recovery.
Context (hex : nat → string) (clock : nat → Z) (root : string).
Definition now : M MemoryStore Z := λ m, (Ok (clock (me_reads m)), m <| me_reads ::= S |>).
Definition load (mission_id : string) : M Recovery MissionRecord := s ← get_state; of_result (load_record root mission_id (ry_files s)).
Definition save (record : MissionRecord) : M Recovery MissionRecord :=
  t ← on_memory now;
  s ← get_state;
  let '(record, fs) := save_record root t record (ry_files s) in
  put_state (s <| ry_files := fs |>);;
  mret record.
Definition timeline (event : string) (detail : json) (record : MissionRecord) : M Recovery MissionRecord :=
  t ← on_memory now;
  of_result (append_timeline t event detail record).

Definition interrupt_mission (mission_id : string) : M Recovery MissionRecord :=
  record ← load mission_id;
  let record := record <| re_status := JStr "interrupted" |> in
  record ← timeline "mission_interrupted" (JObj [("reason", JStr "operator_interrupt")]) record;
  record ← of_result (on_tasks stop_running record);
  save record.

(** [memory]: whether a memory store is given. *)
Definition resume_mission (mission_id : string) (memory : bool) : M Recovery (MissionRecord * RecoveryPlan) :=
  record ← load mission_id;
  plan ← of_result (build_recovery_plan record);
  if bool_decide (rp_action plan = "noop_already_complete") then mret (record, plan)
  else
    let record := record <| re_status := JStr "running" |> in
    record ← timeline "mission_resumed" (JObj [("recovery", plan_dict plan)]) record;
    record ← of_result (on_tasks (requeue (rp_resume_from_task_ids plan)) record);
    record ← save record;
    (if memory then
       on_memory (note hex clock "proj_local" (Some mission_id) "decision" "recovery_resume" (rp_rationale plan) ("recovery:" +:+ mission_id) 24
         (truediv 85 100) ["recovery"]);;
       mret ()
     else mret ());;
    mret (record, plan).
End recovery.

(** ** What a resumption changes *)
Lemma as_tasks_Ok l ts : as_tasks l = Ok ts → l = JObj <$> ts.
Proof.
  revert ts. induction l as [|j l IH]; cbn; intros ts; [by intros [= <-]|]. destruct j; cbn; try done.
  destruct (as_tasks l); [|done]. intros [= <-]. cbn. by rewrite (IH _ eq_refl).
Qed.
Lemma as_tasks_objects ts : as_tasks (JObj <$> ts) = Ok ts.
Proof. induction ts as [|t ts IH]; [done|]. cbn. by rewrite IH. Qed.
Lemma tasks_not_list r ts : tasks_of r = Ok ts → (∀ l, re_tasks r ≠ JList l) → ts = [].
Proof.
  unfold tasks_of. intros Ht Hl. destruct (re_tasks r) as [| | |s|l|d] eqn:Hr; cbn in Ht; try done.
  - destruct (String.list_ascii_of_string s); [by injection Ht|done].
  - by destruct (Hl l).
  - destruct d; [by injection Ht|done].
Qed.
Lemma on_tasks_spec f r ts r1 : tasks_of r = Ok ts → on_tasks f r = Ok r1 →
  tasks_of r1 = Ok (f <$> ts) ∧ r1 = r <| re_tasks := re_tasks r1 |> ∧ (re_tasks r1 = re_tasks r ∨ re_tasks r = JList (JObj <$> ts) ∧ re_tasks r1 = JList (JObj <$> (f <$> ts))).
Proof.
  intros Ht. unfold on_tasks. rewrite Ht. intros [= <-]. destruct (re_tasks r) as [| | |s|l|d] eqn:Hr;
    try (assert (ts = []) as -> by (apply (tasks_not_list r ts Ht); rewrite Hr; intros ? [=]); split_and!; [done|by destruct r; cbn in *; congruence|by left]).
  assert (l = JObj <$> ts) as -> by (apply as_tasks_Ok; unfold tasks_of in Ht; by rewrite Hr in Ht).
  split_and!; [|done|by right]. unfold tasks_of. cbn. apply as_tasks_objects.
Qed.

Lemma filter_result_spec {A} (f : A → result bool) l r : filter_result f l = Ok r →
  (∀ x, x ∈ l → ∃ b, f x = Ok b) ∧ ∀ x, x ∈ r ↔ x ∈ l ∧ f x = Ok true.
Proof.
  revert r. induction l as [|y l IH]; cbn; intros r.
  { intros [= <-]. split; intros x; rewrite !elem_of_nil; tauto. }
  destruct (f y) as [b|] eqn:Hy; [|done]. destruct (filter_result f l) as [r'|]; [|done]. intros [= <-].
  destruct (IH _ eq_refl) as [Hall Hr]. split.
  - intros x [->|Hx]%elem_of_cons; [by exists b|by apply Hall].
  - intros x. destruct b; rewrite ?elem_of_cons, Hr; split; [intros [->|[]]; auto|intros [[->|] ?]; auto|intros []; auto|].
    intros [[->|] ?]; [congruence|auto].
Qed.
Lemma filter_result_total {A} (f : A → result bool) l : (∀ x, x ∈ l → ∃ b, f x = Ok b) → ∃ r, filter_result f l = Ok r.
Proof.
  induction l as [|y l IH]; intros Hall; [by exists []|]. cbn. destruct (Hall y) as [b ->]; [by left|].
  destruct IH as [r ->]; [intros x Hx; apply Hall; by right|]. by eexists.
Qed.

Lemma field_requeued k t : field k (requeued t) = if bool_decide (k = "ok") then JNull else if bool_decide (k = "status") then JStr "ready" else field k t.
Proof. unfold field, requeued. rewrite !dict_get_set. repeat case_decide; repeat case_bool_decide; try done; congruence. Qed.
Lemma dict_set_same {V} (d : dict V) k v : dict_get d k = Some v → dict_set d k v = d.
Proof. induction d as [|[k' v'] d IH]; [done|]. cbn. case_decide as Hk; [by intros [= ->]; subst|]. intros H. by rewrite IH. Qed.
Lemma requeued_twice t : requeued (requeued t) = requeued t.
Proof.
  unfold requeued at 1. rewrite (dict_set_same (requeued t) "status") by (unfold requeued; rewrite dict_get_set_ne, dict_get_set_eq by done; done).
  apply dict_set_same. unfold requeued. apply dict_get_set_eq.
Qed.
Definition named (ids : list string) (t : task) : bool := match field "id" t with JStr s => one_of s ids | _ => false end.
Lemma requeue_id ids t : field "id" (requeue ids t) = field "id" t.
Proof. unfold requeue. case_match; [case_match|]; rewrite ?field_requeued; done. Qed.
Lemma pending_requeued t : pending (requeued t) = Ok true.
Proof. unfold pending. rewrite !field_requeued. vm_compute. reflexivity. Qed.
Lemma orphaned_requeued t : orphaned (requeued t) = Ok false.
Proof. unfold orphaned. rewrite !field_requeued. vm_compute. reflexivity. Qed.
Lemma requeue_cases ids t : requeue ids t = requeued t ∧ named ids t = true ∨ requeue ids t = t ∧ named ids t = false.
Proof. unfold requeue, named. repeat case_match; auto. Qed.
Lemma named_requeue ids ids' t : named ids' (requeue ids t) = named ids' t.
Proof. unfold named. by rewrite requeue_id. Qed.
Lemma named_spec ids t : named ids t = true ↔ ∃ x, field "id" t = JStr x ∧ x ∈ ids.
Proof.
  unfold named. split.
  - destruct (field "id" t) eqn:Hf; try done. intros Hs%bool_decide_eq_true. by eexists.
  - intros (x & -> & Hx). by apply bool_decide_eq_true.
Qed.
(** The plan of the requeued tasks names the same tasks. *)
Lemma requeue_again ids ids' (ts pend pend' : list task) : filter_result pending ts = Ok pend → ids = task_id <$> pend →
  filter_result pending (requeue ids <$> ts) = Ok pend' → ids' = task_id <$> pend' →
  ∀ t, t ∈ ts → requeue ids' (requeue ids t) = requeue ids t.
Proof.
  intros [_ Hp]%filter_result_spec -> [_ Hp']%filter_result_spec -> t Ht. set (ids := task_id <$> pend) in *.
  destruct (requeue_cases ids t) as [[-> Hn]|[Heq Hn]].
  - destruct (requeue_cases (task_id <$> pend') (requeued t)) as [[-> _]|[-> _]]; [apply requeued_twice|done].
  - destruct (requeue_cases (task_id <$> pend') (requeue ids t)) as [[_ Hn']|[-> _]]; [|done]. exfalso.
    rewrite named_requeue in Hn'. apply named_spec in Hn' as (x & Hx & Hin). apply not_true_iff_false in Hn. apply Hn, named_spec. exists x. split; [done|].
    apply list_elem_of_fmap in Hin as (t' & -> & Ht'). apply Hp' in Ht' as [(t0 & -> & Ht0)%list_elem_of_fmap Hpend].
    assert (task_id (requeue ids t0) = task_id t0) as -> by (unfold task_id; by rewrite requeue_id).
    destruct (requeue_cases ids t0) as [[_ H0]|[H0 _]].
    + apply named_spec in H0 as (x & H0 & Hx0). unfold task_id at 1. by rewrite H0.
    + apply list_elem_of_fmap_2, Hp. rewrite H0 in Hpend. done.
Qed.

(** *** Records that are read and written *)
Lemma load_record_wf root id fs r : load_record root id fs = Ok r → wf_record r.
Proof.
  unfold load_record. destruct (fs !! _) as [text|]; [|done]. destruct (loads text) as [raw|] eqn:Hl; [|done]. apply loads_wf in Hl.
  destruct raw as [| | | | |d]; try done. cbn [as_dict]. apply wf_obj in Hl as [_ Hd]. rewrite Forall_forall in Hd.
  assert (∀ k j, dict_get d k = Some j → wf_json j) as Hget by (intros k j Hj; exact (Hd _ (dict_get_elem d k j Hj))).
  assert (∀ k j, required d k = Ok j → wf_json j) as Hreq.
  { unfold required. intros k j. destruct (dict_get d k) eqn:Hk; [|done]. intros [= <-]. by eapply Hget. }
  assert (∀ k j, wf_json j → wf_json (optional d k j)) as Hopt.
  { unfold optional. intros k j Hj. destruct (dict_get d k) eqn:Hk; [by eapply Hget|done]. }
  destruct (record_of d ()) as [[r'|e] u] eqn:Hr; cbn [fst]; [|done]. intros [= ->]. unfold record_of in Hr. run_inv. unfold wf_record, record_dict. cbn.
  repeat (apply Forall_cons; split; [cbn [snd]; first [by eapply Hreq|apply Hopt; cbn; repeat constructor; done]|]). constructor.
Qed.
Lemma wf_tasks r ts f : wf_record r → re_tasks r = JList (JObj <$> ts) → (∀ t, wf_json (JObj t) → wf_json (JObj (f t))) → wf_json (JList (JObj <$> (f <$> ts))).
Proof.
  intros Hr Ht Hf. assert (wf_json (re_tasks r)) as Hwf.
  { apply (wf_fields r "tasks" _ Hr). unfold record_dict. do 10 right. by left. }
  rewrite Ht, wf_list, Forall_fmap in Hwf. apply wf_list. rewrite <- list_fmap_compose, Forall_fmap. eapply Forall_impl; [exact Hwf|]. cbn. auto.
Qed.
Lemma wf_requeue ids t : wf_json (JObj t) → wf_json (JObj (requeue ids t)).
Proof. intros Ht. destruct (requeue_cases ids t) as [[-> _]|[-> _]]; [|done]. by do 2 (apply wf_dict_set; [|done]). Qed.
Lemma wf_plan p : wf_json (rp_mission_id p) → wf_json (plan_dict p).
Proof.
  intros Hid. apply wf_obj. split; [apply (bool_decide_unpack _); vm_compute; reflexivity|].
  repeat (apply Forall_cons; split; [cbn [snd]; first [done|apply wf_strings]|]). constructor.
Qed.
Definition resumption (at_ : Z) (p : RecoveryPlan) : json :=
  JObj [("at", JStr (isoformat at_)); ("event", JStr "mission_resumed"); ("detail", JObj [("recovery", plan_dict p)])].
Lemma wf_resumption at_ p : wf_json (rp_mission_id p) → wf_json (resumption at_ p).
Proof.
  intros Hp. apply wf_obj. split; [apply (bool_decide_unpack _); vm_compute; reflexivity|].
  repeat (apply Forall_cons; split; [cbn [snd]; first [done|idtac]|]); [|constructor]. apply wf_obj. split; [apply NoDup_singleton|].
  by apply Forall_singleton, wf_plan.
Qed.
Lemma wf_running r timeline tasks : wf_record r → wf_json timeline → wf_json tasks →
  wf_record (r <| re_status := JStr "running" |> <| re_timeline := timeline |> <| re_tasks := tasks |>).
Proof. intros Hr Ht Hk. unfold wf_record, record_dict in *. cbn. split_fields. Qed.

Section theorem.
Context (hex : nat → string) (clock : nat → Z) (root : string).
Abbreviation resume := (resume_mission hex clock root).

(** The record that a resumption writes. *)
Record resumed (id : string) (r : MissionRecord) (plan : RecoveryPlan) (s : Recovery) (r' : MissionRecord) (s' : Recovery) : Prop := {
  rs_load : load_record root id (ry_files s') = Ok r';
  rs_id : re_mission_id r' = JStr id;
  rs_status : re_status r' = JStr "running";
  rs_result : re_result r' = re_result r;
  rs_timeline : ∃ l, re_timeline r' = JList l;
  rs_tasks : ∀ ts, tasks_of r = Ok ts → tasks_of r' = Ok (requeue (rp_resume_from_task_ids plan) <$> ts);
  rs_others : ∀ id', id' ≠ id → load_record root id' (ry_files s') = load_record root id' (ry_files s)
}.
Lemma plan_tasks r plan : build_recovery_plan r = Ok plan → ∃ ts pend, tasks_of r = Ok ts ∧ filter_result pending ts = Ok pend
  ∧ rp_resume_from_task_ids plan = task_id <$> pend ∧ rp_mission_id plan = re_mission_id r ∧ ∃ orphan, filter_result orphaned ts = Ok orphan.
Proof.
  unfold build_recovery_plan. destruct (tasks_of r) as [ts|]; [|done]. destruct (filter_result pending ts) as [pend|] eqn:Hp; [|done].
  destruct (filter_result orphaned ts) as [orphan|] eqn:Ho; [|done]. destruct (already_complete r); [|done]. intros [= <-].
  exists ts, pend. cbn. eauto 10.
Qed.
Lemma resume_run id memory s r plan tl : load_record root id (ry_files s) = Ok r → re_mission_id r = JStr id → re_timeline r = JList tl →
  build_recovery_plan r = Ok plan → rp_action plan ≠ "noop_already_complete" →
  ∃ r' s', resume id memory s = (Ok (r', plan), s') ∧ resumed id r plan s r' s'.
Proof.
  intros Hl Hid Htl Hplan Hact. pose proof (load_record_wf _ _ _ _ Hl) as Hwf.
  destruct (plan_tasks _ _ Hplan) as (ts & pend & Hts & Hpend & Hids & Hpm & _). unfold resume_mission.
  erewrite bind_run by (unfold load; erewrite bind_run by reflexivity; unfold of_result; by rewrite Hl).
  erewrite bind_run by (unfold of_result; by rewrite Hplan). rewrite bool_decide_false by done. cbv zeta.
  set (r0 := r <| re_status := JStr "running" |>).
  set (r1 := r0 <| re_timeline := JList (tl ++ [resumption (clock (me_reads (ry_memory s))) plan]) |>).
  assert (re_timeline r0 = JList tl) as Htl0 by done.
  erewrite bind_run by (unfold timeline; erewrite bind_run by reflexivity; unfold of_result, append_timeline; rewrite Htl0; reflexivity).
  lazymatch goal with |- context [on_tasks _ ?x] => change x with r1 end. assert (tasks_of r1 = Ok ts) as Ht1 by (by rewrite <- Hts).
  destruct (on_tasks (requeue (rp_resume_from_task_ids plan)) r1) as [r2|] eqn:Hon; [|unfold on_tasks in Hon; by rewrite Ht1 in Hon].
  destruct (on_tasks_spec _ _ _ _ Ht1 Hon) as (Ht2 & Hr2 & Htasks).
  assert (wf_record r2) as Hwf2.
  { rewrite Hr2. subst r1 r0. apply wf_running; [done|..].
    - apply wf_list, Forall_app. split.
      + apply (wf_list tl). rewrite <- Htl. apply (wf_fields r "timeline" _ Hwf). unfold record_dict. do 11 right. by left.
      + apply Forall_singleton, wf_resumption. by rewrite Hpm, Hid.
    - destruct Htasks as [->|[He ->]].
      + apply (wf_fields r "tasks" _ Hwf). unfold record_dict. do 10 right. by left.
      + apply (wf_tasks r); [done|done|]. intros t. apply wf_requeue. }
  assert (re_mission_id r2 = JStr id) as Hid2 by (by rewrite Hr2).
  erewrite bind_run by reflexivity.
  unfold save. set (time := clock (S (me_reads (ry_memory s)))).
  erewrite bind_run; [|erewrite bind_run by reflexivity; erewrite bind_run by reflexivity; cbn [save_record]; reflexivity].
  assert (∀ s0 : Recovery, ry_files s0 = (save_record root time r2 (ry_files s)).2 → resumed id r plan s (r2 <| re_updated_at := JStr (isoformat time) |>) s0) as Hdone.
  { intros s0 Hf. split.
    - rewrite Hf. by apply load_saved.
    - done.
    - cbn. by rewrite Hr2.
    - cbn. by rewrite Hr2.
    - exists (tl ++ [resumption (clock (me_reads (ry_memory s))) plan]). cbn. by rewrite Hr2.
    - intros ts' Hts'. rewrite Hts in Hts'. injection Hts' as <-. done.
    - intros id' Hne. rewrite Hf. by apply load_other with id. }
  destruct memory; do 2 eexists; (split; [reflexivity|]); by apply Hdone.
Qed.

(** The plan for a record that was resumed. *)
Lemma plan_again id r plan s r' s' : build_recovery_plan r = Ok plan → resumed id r plan s r' s' →
  ∃ plan', build_recovery_plan r' = Ok plan' ∧ rp_action plan' ≠ "noop_already_complete"
    ∧ ∀ ts, tasks_of r = Ok ts → ∀ t, t ∈ ts → requeue (rp_resume_from_task_ids plan') (requeue (rp_resume_from_task_ids plan) t) = requeue (rp_resume_from_task_ids plan) t.
Proof.
  intros Hplan [_ _ Hstatus _ _ Htasks _]. destruct (plan_tasks _ _ Hplan) as (ts & pend & Hts & Hpend & Hids & _ & orphan & Horphan).
  specialize (Htasks _ Hts). set (ids := rp_resume_from_task_ids plan) in *.
  assert (∀ f : task → result bool, (∀ t, ∃ b, f (requeued t) = Ok b) → (∀ t, t ∈ ts → ∃ b, f t = Ok b) → ∃ l, filter_result f (requeue ids <$> ts) = Ok l) as Htotal.
  { intros f Hf Hall. apply filter_result_total. intros x (t & -> & Ht)%list_elem_of_fmap.
    destruct (requeue_cases ids t) as [[-> _]|[-> _]]; [apply Hf|by apply Hall]. }
  destruct (Htotal pending) as [pend' Hpend'].
  { intros t. exists true. apply pending_requeued. } { by apply (filter_result_spec _ _ _ Hpend). }
  destruct (Htotal orphaned) as [orphan' Horphan'].
  { intros t. exists false. apply orphaned_requeued. } { by apply (filter_result_spec _ _ _ Horphan). }
  assert (already_complete r' = Ok false) as Hc by (unfold already_complete; rewrite Hstatus; vm_compute; reflexivity).
  unfold build_recovery_plan. rewrite Htasks, Hpend', Horphan', Hc. eexists. split; [reflexivity|]. cbn [rp_action rp_resume_from_task_ids]. split; [by repeat case_match|].
  intros ts' Hts'. rewrite Hts in Hts'. injection Hts' as <-. by eapply requeue_again.
Qed.

(** C35: A resumption that does something leaves the mission running, on disk as returned, with exactly the
    tasks requeued that share the id of a pending one: all others, the accepted ones among them, stay as
    they are, and so do other missions.  Resuming again succeeds and changes no task. *)
Theorem resumption_is_idempotent id memory s r plan tl : load_record root id (ry_files s) = Ok r → re_mission_id r = JStr id → re_timeline r = JList tl →
  build_recovery_plan r = Ok plan → rp_action plan ≠ "noop_already_complete" →
  ∃ ts r' s', tasks_of r = Ok ts ∧ resume id memory s = (Ok (r', plan), s') ∧ resumed id r plan s r' s'
  ∧ (∀ t, t ∈ ts → requeue (rp_resume_from_task_ids plan) t = requeued t ∧ named (rp_resume_from_task_ids plan) t = true
                   ∨ requeue (rp_resume_from_task_ids plan) t = t ∧ (pending t = Ok true → ∀ x, field "id" t ≠ JStr x))
  ∧ ∃ plan' r'' s'', resume id memory s' = (Ok (r'', plan'), s'') ∧ load_record root id (ry_files s'') = Ok r'' ∧ tasks_of r'' = tasks_of r'.
Proof.
  intros Hl Hid Htl Hplan Hact. destruct (resume_run id memory s r plan tl) as (r' & s' & Hrun & Hr); [done..|].
  destruct (plan_tasks _ _ Hplan) as (ts & pend & Hts & Hpend & Hids & _). exists ts, r', s'. split_and!; [done..| |].
  - intros t Ht. destruct (requeue_cases (rp_resume_from_task_ids plan) t) as [?|[Heq Hn]]; [by left|]. right. split; [done|]. intros Hp x Hx.
    apply not_true_iff_false in Hn. apply Hn, named_spec. exists x. split; [done|]. rewrite Hids. replace x with (task_id t) by (unfold task_id; by rewrite Hx).
    apply list_elem_of_fmap_2, (filter_result_spec _ _ _ Hpend). done.
  - destruct (plan_again _ _ _ _ _ _ Hplan Hr) as (plan' & Hplan' & Hact' & Hsame). pose proof Hr as [Hl' Hid' _ _ [tl' Htl'] Htasks _].
    destruct (resume_run id memory s' r' plan' tl') as (r'' & s'' & Hrun' & [Hl'' _ _ _ _ Htasks' _]); [done..|].
    exists plan', r'', s''. split_and!; [done..|]. specialize (Htasks _ Hts). rewrite (Htasks' _ Htasks), Htasks. f_equal.
    rewrite <- list_fmap_compose. apply list_fmap_ext. intros i t Ht%list_elem_of_lookup_2. by apply (Hsame ts).
Qed.
End theorem.

(** ** Runs *)
Module RecoverySample.
Definition task_doc (id objective status : string) (ok : json) : json :=
  JObj [("id", JStr id); ("objective", JStr objective); ("status", JStr status); ("ok", ok)].
Definition stored (status : string) (tasks : list json) (result : json) : MissionRecord :=
  MemorySample.done_mission <| re_status := JStr status |> <| re_tasks := JList tasks |> <| re_result := result |>.
Definition on_disk (r : MissionRecord) : Recovery := mkRecovery (save_record "var" 0 r ∅).2 MemorySample.empty_memory.
Definition interrupted : MissionRecord :=
  stored "running" [task_doc "t1" "inspect" "accepted" (JBool true); task_doc "t2" "implement" "running" JNull; task_doc "t3" "verify" "ready" JNull] (JObj []).
Abbreviation resume id s := (resume_mission unary MemorySample.zero_clock "var" id true s).
Definition outcome (x : result (MissionRecord * RecoveryPlan) * Recovery) : option (json * string * list (json * json)) :=
  match x.1 with
  | Ok (r, p) => Some (re_status r, rp_action p, match tasks_of r with Ok ts => (λ t, (field "id" t, field "status" t)) <$> ts | Err _ => [] end)
  | Err _ => None
  end.
Example interrupt_and_resume :
  outcome (resume "m1" (interrupt_mission MemorySample.zero_clock "var" "m1" (on_disk interrupted)).2)
  = Some (JStr "running", "resume", [(JStr "t1", JStr "accepted"); (JStr "t2", JStr "ready"); (JStr "t3", JStr "ready")]).
Proof. vm_compute. reflexivity. Qed.

Definition the_plan : RecoveryPlan := match build_recovery_plan interrupted with Ok p => p | Err _ => mkRecoveryPlan JNull "" [] [] [] "" end.
Definition loaded : MissionRecord := match load_record "var" "m1" (ry_files (on_disk interrupted)) with Ok r => r | Err _ => interrupted end.
Lemma resumption_is_idempotent_witness : rp_resume_from_task_ids the_plan = ["t2"; "t3"] ∧ rp_orphan_task_ids the_plan = ["t2"]
  ∧ ∃ r' s', resume "m1" (on_disk interrupted) = (Ok (r', the_plan), s') ∧ load_record "var" "m1" (ry_files s') = Ok r'.
Proof.
  split; [vm_compute; reflexivity|]. split; [vm_compute; reflexivity|].
  destruct (resumption_is_idempotent unary MemorySample.zero_clock "var" "m1" true (on_disk interrupted) loaded the_plan
    [JObj [("event", JStr "mission_started"); ("detail", JObj [])]]) as (ts & r' & s' & _ & Hrun & Hr & _);
    [vm_compute; reflexivity|vm_compute; reflexivity|vm_compute; reflexivity|vm_compute; reflexivity|vm_compute; discriminate|].
  exists r', s'. split; [exact Hrun|]. exact (rs_load _ _ _ _ _ _ _ Hr).
Defined.

(** A mission that was cancelled runs again. *)
Example cancelled_missions_are_resumed :
  outcome (resume "m1" (on_disk (stored "cancelled" [task_doc "t1" "implement" "ready" JNull] (JObj []))))
  = Some (JStr "running", "resume", [(JStr "t1", JStr "ready")]).
Proof. vm_compute. reflexivity. Qed.
(** A mission with nothing to resume, which should be reviewed, is set running. *)
Example reviews_leave_missions_running :
  outcome (resume "m1" (on_disk (stored "completed" [task_doc "t1" "implement" "accepted" (JBool true)] (JObj []))))
  = Some (JStr "running", "manual_review", [(JStr "t1", JStr "accepted")]).
Proof. vm_compute. reflexivity. Qed.
(** An objective that the plan lists as skipped is requeued. *)
Example skipped_duplicates_are_requeued :
  match (resume "m1" (on_disk (stored "running" [task_doc "t1" "write" "ready" JNull; task_doc "t2" "write" "failed" (JBool false)] (JObj [])))).1 with
  | Ok (_, p) => rp_skipped_duplicate_objectives p = ["write"] ∧ rp_resume_from_task_ids p = ["t1"; "t2"]
  | Err _ => False
  end.
Proof. vm_compute. by split. Qed.
(** After an interruption no plan has orphans: the running tasks were set ready. *)
Example interruptions_hide_orphans :
  match (resume "m1" (interrupt_mission MemorySample.zero_clock "var" "m1" (on_disk interrupted)).2).1 with
  | Ok (_, p) => rp_orphan_task_ids p = []
  | Err _ => False
  end.
Proof. vm_compute. reflexivity. Qed.
End RecoverySample.
